(* ===== verification/_CoqProject ===== *)
-Q . S2P
Prelude.v
NachosList.v
BitMap.v
Table.v
Interrupt.v
Machine.v
Mips.v
Threads.v
VM.v
Paging.v
Boot.v
UserMemory.v
SafeRun.v
ContextSwitch.v
Freeing.v
Server.v
Rpc.v
SpaceFrame.v
Syscalls.v
KernelFrame.v
Processes.v
ExecProgram.v
ExitProcess.v
Files.v
Disk.v
SynchDisk.v
Ints.v
Coff.v
CoffLoad.v
FileHdr.v
OpenFile.v
Directory.v
FileSys.v
FsPrint.v
FsTest.v
Clock.v
Timer.v
Console.v
SynchConsole.v
SynchList.v
Network.v
Startup.v
Post.v
PostFacts.v
Delivery.v
ThreadProg.v
Passport.v
PassportFacts.v
PassportCounts.v
RemoteOffice.v
RemoteFacts.v
Distributed.v
ServerOffice.v
