(* ===== verification/Prelude.v ===== *)
(** * Nachos (CSCI 402): the kernel, its machine and its lock server

    The repository is a teaching operating system. The C++ program simulates a
    MIPS machine (code/machine), runs a multithreaded kernel on it (code/threads),
    with virtual memory and user processes (code/userprog), and a server of locks,
    condition variables and monitor variables that other instances of the program
    call over a simulated network (code/network). The build that has all parts
    (directory network) defines USER_PROGRAM, VM, USE_TLB, NETWORK, FILESYS_NEEDED
    and FILESYS_STUB; the development models that build, and of the build
    in directory filesys (FILESYS in place of FILESYS_STUB) the real file system and
    the disk, which the stub leaves out.

    ** Conventions

    C++ functions are Gallina functions into the type [C] below: a value, the end
    of the process, or undefined behaviour. State is passed explicitly, one record
    per class or per group of global variables. Integers are [Z], with the
    conversions [u32], [i32], [i8] and so on where C++ converts. Memory that [new]
    returns, the byte order of the host ([big]), rand() and what UNIX answers are
    arguments. Definitions keep the names of the source; where two files use one
    name it is qualified ([VM.Acquire], [Threads.Acquire]).

    ** Files

    - NachosList.v: threads/list.cc, class List as pointer code over a heap, and the
      sequences (Module [Seq]) it implements. The other components use [Seq].
    - BitMap.v, Table.v: userprog/bitmap.cc and the handle table of
      userprog/addrspace.cc; both are proved to implement a finite set or map.
    - Interrupt.v: machine/interrupt.cc and the clock of machine/stats.cc.
    - Machine.v: machine/machine.cc and machine/translate.cc: registers, memory,
      byte order, the TLB. The class [Kernel] is the machine's view of the kernel.
    - Mips.v: machine/mipssim.cc: decoding, every instruction, delay slots, the run
      loop. SafeRun.v: the loop with the page fault handler of the kernel.
    - Threads.v: threads/thread.cc, scheduler.cc and synch.cc: thread control
      blocks, the ready list, context switches, semaphores, locks, conditions. A
      suspended kernel function is a value of an inductive type, so that a switch is
      a step; an execution is a list of events.
    - VM.v: userprog/addrspace.cc, the page fault handler of userprog/exception.cc
      (lines 943-1038) and the memory part of threads/system.cc. Paging.v: the
      invariant [core] and the steps of the handler; Boot.v: start-up and loading
      of programs; UserMemory.v: copyin, copyout and the contract, user memory as a
      map from addresses to bytes, proved against the class [VMKernel] for any
      kernel around the memory system; ContextSwitch.v: what a switch does to the
      TLB; Freeing.v: clearMem and clearStack.
    - Server.v: network/nettest.cc, the message loop of the server, and Module
      [Monitor], the abstract monitors it implements. Rpc.v: the client side in
      userprog/exception.cc (lines 341-877).
    - Syscalls.v: the rest of userprog/exception.cc (files, console, Exec, Fork,
      Exit, the entry point) and userprog/progtest.cc, over the stub file system of
      filesys/filesys.h and filesys/openfile.h. It is an instance of [VMKernel].
      SpaceFrame.v and KernelFrame.v: what page faults and copies of user memory
      leave alone; Processes.v: the process table; ExecProgram.v: Exec;
      ExitProcess.v: the end of a process; Files.v: Read and Write.
    - Coff.v: bin/coff2noff.c, the program that makes executables out of the linker's
      files. CoffLoad.v: the converter and the loader together.
    - Disk.v: machine/disk.cc, the device over a UNIX file, as an owner of interrupts
      of Interrupt.v. SynchDisk.v: filesys/synchdisk.cc, the calls of several threads
      interleaved with the clock, and their contract, an array of sectors.
      FileHdr.v, OpenFile.v, Directory.v, FileSys.v: the classes of filesys/ over
      that array, and the contract of the file system, a finite map from names to
      bytes and a number of free sectors. Ints.v: the integers of these structures
      in the host's byte order. FsPrint.v: the Print functions that show the whole disk.
      FsTest.v: filesys/fstest.cc and the file commands of threads/main.cc, with what
      they print, over that contract.
    - Startup.v: threads/main.cc, Initialize and Cleanup of threads/system.cc and
      the debug flags of threads/utility.cc: the two loops over the command line and
      the calls of other components that they lead to, in order.
    - Clock.v: what a device keeps true of the interrupts it has scheduled lifts to
      OneTick and Idle. Timer.v, Console.v, SynchConsole.v: machine/timer.cc,
      machine/console.cc and userprog/synchconsole.cc. SynchList.v: threads/synchlist.cc, each statement of Append
      and Remove a step. Network.v: machine/network.cc over the sockets of
      machine/sysdep.cc, the reliability drawn in doubles; Post.v: network/post.cc,
      the mail boxes, the postal worker and the helper as steps of the threads of any
      number of machines; PostFacts.v: their invariant; Delivery.v: the contract.
    - ThreadProg.v: programs of many threads as interaction trees over the calls of
      locks, conditions and Yield, their executions, and a logic for one thread with
      rules that all threads keep. Passport.v: the passport office of
      threads/threadtest.cc, every function; PassportFacts.v: the order of its locks;
      PassportCounts.v: lines, sums and the end of the day.
    - RemoteOffice.v: the office as user programs on many machines (test/setup.h,
      customer.c, senator.c, appclerk.c, picclerk.c, passclerk.c, cashier.c,
      manager.c), each system call a step; RemoteFacts.v: the order of its locks.
      Distributed.v: processes of ThreadProg.v whose calls on locks and conditions
      are the stubs of Rpc.v, handled by the server of Server.v, and the proof that
      processes and server together behave as the contract of ThreadProg.v says.
      ServerOffice.v: the requests of Setup, and the office on the server.

    ** What the theorems show

    Data structures: List, BitMap and Table implement sequences, sets and maps.
    Machine: Translate, ReadMem and WriteMem agree with the tables on every
    outcome; the multiplier gives the 64-bit product; every instruction decodes
    from its encoding; the arithmetic, products and quotients included, is that of the
    manual, but for OR and the logical right shifts, for which it is said what they
    do; no program breaks the machine's invariant: Run goes on, unless the debugger
    or the kernel (Halt, a handler that does not return) ends the process. Clock: the
    interrupts that are due, and no others, fire at a tick, in order.
    Threads: no assertion fails in any execution; locks exclude; no wakeup is lost;
    scheduling is first come, first served: threads are dispatched in the order in
    which calls made them ready; user registers survive switches.
    Memory: with any number of faults, evictions and swaps, user memory is a flat
    array of bytes; the copy loops end; a program finds what its linker placed.
    Server: it implements monitors, answers
    each request once, and the system calls are the monitors' operations. Processes:
    the thread counts are right after every trap, Exec starts the program that is
    in the file (and returns 0, not an identifier of it), the end of a process frees its memory and touches no other, files
    give back what was written.
    Disk and files: the latency of a request is the time until the head has passed
    the sector, and none when the sector has passed since the head came to its track;
    requests of any number of threads behave as atomic reads and writes
    of an array, and in every schedule each returns after bounded work, in the order
    in which they came to the lock; a file is a flat array of bytes; a directory is a map;
    any sequence of creations, reads, writes, removals and mounts on a formatted disk
    gives the results of a map from names to contents; the commands copy, print,
    list and remove files exactly, and the dump shows every byte and every sector.
    Start-up: what every command line sets, which objects it makes, and what it runs,
    said without the code's loops.
    Messages: a synchronised list is one queue for all threads, what Remove returns
    is what Append was given, and no wakeup is lost; in any execution of any number of machines, over a network that drops
    packets, a mail box hands out each message at most once, uncorrupted, in the
    order in which its machine received the packets.
    Devices: the timer interrupts in every period that is not idle; the console test
    echoes what was typed; lines written to the synchronous console by several
    threads are not mixed.
    Passport office: its threads never wait for each other in a circle; a customer
    takes a least line; the count loses no money; the office closes when all files
    are complete. The office of many processes, its system calls and the server
    together: every process gets the same objects from Setup, in any order of the
    requests; each execution is one of the programs over locks and conditions that
    do what they promise; and some process can always go on. Calls on monitor
    variables act on a shared store there, which is what their messages do on the
    server ([get_on_server] and [set_on_server] of ServerOffice.v).
    Some theorems state behaviour that is not what the code means to do: a page
    lost by a context switch (ContextSwitch.v), frames of others freed by
    clearStack (Freeing.v), copyout giving up at a handled fault (UserMemory.v), the
    process lock kept by a failing Exec (ExecProgram.v), dangling pointers in the
    server's tables (Server.v), OR and SRL (Mips.v), names that are not terminated
    (Directory.v), headers overrun by large files (FileSys.v), a performance test
    that cannot succeed (FsTest.v), a test that never
    ends (PassportFacts.v).

    ** Fuel and bounds

    Loops whose number of turns the code fixes ([for_upto], the searches of bit
    maps and tables) have it as an argument, so that they always end. The retry
    loop of copyin and repeated instructions take fuel; two units are enough, and
    that is part of the theorems. The thread switches recurse on the stack of
    suspended functions; [drain] of Interrupt.v on the number of
    interrupts due. The theorems about paging are for FIFO replacement (the default),
    and assume that the timer does not switch threads inside the page fault handler
    (the hypothesis [quiet]): the kernel's locks are then those of the running
    thread. The page-fault theorems need a free page in the swap file per fault.
    The file system is used by one thread at a time (the code has no lock around its
    operations); its bounds are those of the code: 1024 sectors, ten files, thirty
    sectors per file; a copied file has at most the 3840 bytes of thirty sectors (more
    is undefined: Create_errors), and before a list or a dump no name has more than
    eight characters (nine_letter_names). The loops of Copy and Print have fuel for one turn more than
    the file has bytes, and the theorem says that it is enough; a command line takes
    at most one turn per word. The programs of the passport office run for ever and need no
    fuel; [wp] counts steps, and what is proved holds for every number of them. Processes
    on the server have machines and mailboxes of their own and one server
    ([lone]); their messages are not lost, and the numbers of objects fit in a byte
    of a message, which is proved of the office.

    ** Not modelled

    The text of debugging messages; the stack switch in assembly; the tests of
    threads/threadtest.cc before the passport office, and what the office prints; the
    other tools in bin/, which the Makefile does not build for this host; the user
    programs in test/ other than the office, which the processor runs as any other
    (test/passportoffice.c is commented out). In RemoteOffice.v the C source of the
    programs is modelled, not the compiled code that Mips.v runs. *)

From stdpp Require Export base tactics list gmap strings.
From Stdlib Require Export ZArith Lia.

#[global] Open Scope Z_scope.

(** ** The effect of the C++ code

    A C++ function that can stop the process returns a [C] value: [Ret a] is a
    normal return, [Abort] the end of the process (a failed [ASSERT] calls
    [Abort()], Interrupt::Halt exits), [Undef] a step with no defined meaning in C++ (an index outside
    an array, a dereference of [NULL], a division that overflows). *)

Inductive C (A : Type) : Type :=
| Ret (a : A)
| Abort
| Undef.
Arguments Ret {A} _.
Arguments Abort {A}.
Arguments Undef {A}.

Definition bind {A B : Type} (m : C A) (f : A -> C B) : C B :=
  match m with Ret a => f a | Abort => Abort | Undef => Undef end.
Arguments bind {A B} m f /.

Declare Scope nachos_scope.
Delimit Scope nachos_scope with nachos.
#[global] Open Scope nachos_scope.

Notation "'let!' x ':=' e 'in' k" :=
  (bind e (fun x => k))
  (at level 10, x pattern, e at level 100, k at level 200,
   format "'[v' 'let!'  x  ':='  e  'in' '/' k ']'") : nachos_scope.

(** utility.h: [#define ASSERT(condition)]. *)
Definition ASSERT (b : bool) : C () := if b then Ret () else Abort.

Lemma bind_Ret {A B} (m : C A) (f : A -> C B) b :
  bind m f = Ret b <-> exists a, m = Ret a /\ f a = Ret b.
Proof. destruct m; cbn; naive_solver. Qed.

Lemma ASSERT_Ret b u : ASSERT b = Ret u <-> b = true.
Proof. destruct b, u; cbn; naive_solver. Qed.

(** ** Fixed-width integers

    An [int] is a [Z] in [-2^31, 2^31), an [unsigned] a [Z] in [0, 2^32). A
    conversion reduces modulo the width; signed arithmetic is the two's
    complement arithmetic the simulator relies on. *)

Definition u32 (z : Z) : Z := z mod 2^32.
Definition i32 (z : Z) : Z := (z + 2^31) mod 2^32 - 2^31.
Definition u16 (z : Z) : Z := z mod 2^16.
Definition u8 (z : Z) : Z := z mod 2^8.
Definition i8 (z : Z) : Z := (z + 2^7) mod 2^8 - 2^7.

Definition is_u32 (z : Z) : Prop := 0 <= z < 2^32.
Definition is_i32 (z : Z) : Prop := -2^31 <= z < 2^31.
Definition is_u16 (z : Z) : Prop := 0 <= z < 2^16.
Definition is_i8 (z : Z) : Prop := -128 <= z < 128.

Lemma u32_range z : is_u32 (u32 z).
Proof. unfold is_u32, u32. pose proof (Z.mod_pos_bound z (2^32)). lia. Qed.

Lemma i32_range z : is_i32 (i32 z).
Proof. unfold is_i32, i32. pose proof (Z.mod_pos_bound (z + 2^31) (2^32)). lia. Qed.

Lemma i8_range z : is_i8 (i8 z).
Proof. unfold is_i8, i8. pose proof (Z.mod_pos_bound (z + 2^7) (2^8)). lia. Qed.

Lemma u32_small z : is_u32 z -> u32 z = z.
Proof. unfold is_u32, u32. intros. by apply Z.mod_small. Qed.

Lemma i32_small z : is_i32 z -> i32 z = z.
Proof. unfold is_i32, i32. intros. rewrite Z.mod_small; lia. Qed.

Lemma i8_small z : is_i8 z -> i8 z = z.
Proof. unfold is_i8, i8. intros. rewrite Z.mod_small; lia. Qed.

(** Both conversions keep the residue modulo [2^32]. *)
Lemma u32_i32 z : u32 (i32 z) = u32 z.
Proof.
  unfold u32, i32. rewrite Zminus_mod_idemp_l. f_equal. lia.
Qed.

Lemma i32_u32 z : i32 (u32 z) = i32 z.
Proof. unfold u32, i32. by rewrite Zplus_mod_idemp_l. Qed.

Lemma u32_idemp z : u32 (u32 z) = u32 z.
Proof. apply u32_small, u32_range. Qed.

Lemma i32_idemp z : i32 (i32 z) = i32 z.
Proof. apply i32_small, i32_range. Qed.

Lemma u32_of_i32 z : is_i32 z -> u32 z = if z <? 0 then z + 2^32 else z.
Proof.
  unfold is_i32, u32. intros. destruct (Z.ltb_spec z 0).
  - symmetry. apply Z.mod_unique with (-1); lia.
  - apply Z.mod_small. lia.
Qed.

Lemma i32_of_u32 z : is_u32 z -> i32 z = if z <? 2^31 then z else z - 2^32.
Proof.
  unfold is_u32, i32. intros. destruct (Z.ltb_spec z (2^31)).
  - rewrite Z.mod_small; lia.
  - assert ((z + 2^31) mod 2^32 = z - 2^31) as ->; [|lia].
    symmetry. apply Z.mod_unique with 1; lia.
Qed.

(** A word is a number with no bit at or above its width. *)
Lemma width_bits n z : 0 <= n ->
  0 <= z < 2^n <-> (forall j, n <= j -> Z.testbit z j = false).
Proof.
  intros Hn. split.
  - intros Hz j Hj. rewrite <- (Z.mod_small z (2^n)) by lia. by apply Z.mod_pow2_bits_high.
  - intros Hb. assert (z = z mod 2^n) as ->.
    { apply Z.bits_inj'. intros j Hj. destruct (Z.lt_ge_cases j n).
      - by rewrite Z.mod_pow2_bits_low.
      - rewrite Z.mod_pow2_bits_high by lia. auto. }
    apply Z.mod_pos_bound. lia.
Qed.

Lemma u32_bits z : is_u32 z <-> (forall j, 32 <= j -> Z.testbit z j = false).
Proof. apply (width_bits 32). lia. Qed.

Lemma is_u32_lor a b : is_u32 a -> is_u32 b -> is_u32 (Z.lor a b).
Proof. rewrite !u32_bits. intros Ha Hb j Hj. by rewrite Z.lor_spec, Ha, Hb. Qed.

Lemma is_u32_land_l a b : is_u32 a -> is_u32 (Z.land a b).
Proof. rewrite !u32_bits. intros Ha j Hj. by rewrite Z.land_spec, Ha. Qed.

Create HintDb cint.
Create Rewrite HintDb cint.
#[export] Hint Resolve u32_range i32_range i8_range is_u32_lor is_u32_land_l : cint.
#[export] Hint Rewrite u32_i32 i32_u32 u32_idemp i32_idemp : cint.

(** utility.h: [divRoundDown] and [divRoundUp], C++ division truncates. *)
Definition divRoundDown (n s : Z) : Z := Z.quot n s.
Definition divRoundUp (n s : Z) : Z := Z.quot n s + (if 0 <? Z.rem n s then 1 else 0).

Lemma divRoundUp_spec n s :
  0 <= n -> 0 < s -> (divRoundUp n s - 1) * s < n <= divRoundUp n s * s.
Proof.
  intros Hn Hs. unfold divRoundUp.
  rewrite Z.quot_div_nonneg, Z.rem_mod_nonneg by lia.
  pose proof (Z.div_mod n s). pose proof (Z.mod_pos_bound n s Hs).
  destruct (Z.ltb_spec 0 (n mod s)); nia.
Qed.

Lemma divRoundUp_nonneg n s : 0 <= n -> 0 < s -> 0 <= divRoundUp n s.
Proof. intros. pose proof (divRoundUp_spec n s). nia. Qed.

Lemma div_lt_divRoundUp n s i : 0 <= i < n -> 0 < s -> 0 <= i / s < divRoundUp n s.
Proof.
  intros [??] ?. pose proof (divRoundUp_spec n s). split; [apply Z.div_pos; lia|].
  apply Z.div_lt_upper_bound; nia.
Qed.

(** ** Arrays

    Array reads and writes are partial: an index out of range is [Undef]. *)

Definition aref {A} (l : list A) (i : Z) : C A :=
  if (0 <=? i) then match l !! Z.to_nat i with Some a => Ret a | None => Undef end
  else Undef.

Definition aset {A} (l : list A) (i : Z) (a : A) : C (list A) :=
  if (0 <=? i) && (i <? Z.of_nat (length l)) then Ret (<[Z.to_nat i := a]> l)
  else Undef.

Lemma aref_Ret {A} (l : list A) i a :
  aref l i = Ret a <-> 0 <= i /\ l !! Z.to_nat i = Some a.
Proof.
  unfold aref. destruct (Z.leb_spec 0 i); [destruct (l !! Z.to_nat i) eqn:E|];
    naive_solver lia.
Qed.

Lemma aset_Ret {A} (l : list A) i a l' :
  aset l i a = Ret l' <->
  0 <= i < Z.of_nat (length l) /\ l' = <[Z.to_nat i := a]> l.
Proof.
  unfold aset.
  destruct (Z.leb_spec 0 i), (Z.ltb_spec i (Z.of_nat (length l))); cbn; naive_solver lia.
Qed.

Lemma aref_in {A} (l : list A) i :
  0 <= i < Z.of_nat (length l) -> exists a, aref l i = Ret a.
Proof.
  intros. destruct (lookup_lt_is_Some_2 l (Z.to_nat i)) as [a Ha]; [lia|].
  exists a. apply aref_Ret. split; [lia | done].
Qed.

Lemma aset_in {A} (l : list A) i a :
  0 <= i < Z.of_nat (length l) -> aset l i a = Ret (<[Z.to_nat i := a]> l).
Proof. intros. by apply aset_Ret. Qed.

(** A string literal of C++, without its zero. *)
Definition chars (str : string) : list Z :=
  (fun c => Z.of_N (Ascii.N_of_ascii c)) <$> String.list_ascii_of_string str.

(** ** Counted loops

    [for_upto i n body s]: the loop [for (; k > 0; i++)] that runs [body] at
    [i], [i + 1], ..., [n] times, threading the state. *)

Fixpoint for_upto {St : Type} (i : Z) (n : nat) (body : Z -> St -> C St) (s : St) : C St :=
  match n with
  | O => Ret s
  | S n' => let! s' := body i s in for_upto (i + 1) n' body s'
  end.

(** An invariant indexed by the loop variable holds at the end, and the loop
    returns when every iteration does. *)
Lemma for_upto_inv {St} (I : Z -> St -> Prop) i n (body : Z -> St -> C St) s :
  I i s ->
  (forall j t, i <= j < i + Z.of_nat n -> I j t ->
     exists t', body j t = Ret t' /\ I (j + 1) t') ->
  exists s', for_upto i n body s = Ret s' /\ I (i + Z.of_nat n) s'.
Proof.
  revert i s. induction n as [|n IH]; intros i s H0 Hstep; cbn [for_upto].
  - exists s. split; [done|]. by rewrite Z.add_0_r.
  - destruct (Hstep i s) as (t & Ht & HI); [lia | done |].
    rewrite Ht. cbn. destruct (IH (i + 1) t HI) as (s' & Hs & HI').
    + intros j u Hj. apply Hstep. lia.
    + exists s'. split; [done|]. replace (i + Z.of_nat (S n))
        with (i + 1 + Z.of_nat n) by lia. done.
Qed.

(** The loop in two parts. *)
Lemma for_upto_app {St} i n1 n2 (body : Z -> St -> C St) s :
  for_upto i (n1 + n2) body s = (let! s := for_upto i n1 body s in for_upto (i + Z.of_nat n1) n2 body s).
Proof.
  revert i s. induction n1 as [|n1 IH]; intros i s; cbn [for_upto Nat.add]; [cbn; by rewrite Z.add_0_r|].
  destruct (body i s) as [s'| |]; cbn [bind]; [|done..]. rewrite IH. do 2 f_equal.
  replace (i + 1 + Z.of_nat n1) with (i + Z.of_nat (S n1)) by lia. done.
Qed.

(** ** Lists *)

Lemma filter_none {A} (P : A -> Prop) `{!forall x, Decision (P x)} (l : list A) :
  Forall (fun x => ~ P x) l -> filter P l = [].
Proof. induction 1; [done|]. by rewrite filter_cons_False. Qed.

Lemma filter_all {A} (P : A -> Prop) `{!forall x, Decision (P x)} (l : list A) :
  Forall P l -> filter P l = l.
Proof. induction 1; [done|]. rewrite filter_cons_True by done. by f_equal. Qed.

Lemma filter_ext_in {A} (P Q : A -> Prop) `{!forall x, Decision (P x)}
    `{!forall x, Decision (Q x)} (l : list A) :
  (forall x, x ∈ l -> P x <-> Q x) -> filter P l = filter Q l.
Proof.
  induction l as [|x l IH]; intros Heq; [done|]. rewrite !filter_cons.
  rewrite IH by (intros; apply Heq; by right).
  assert (P x <-> Q x) as Hx by (apply Heq; by left).
  destruct (decide (P x)), (decide (Q x)); tauto.
Qed.

(** ** Tactics *)

(** Turn every [_ = Ret _] hypothesis about a bind, an assertion or an array
    access into the facts it stands for. *)
Ltac inv_ret :=
  repeat match goal with
  | H : bind _ _ = Ret _ |- _ => apply bind_Ret in H; destruct H as (? & ? & ?)
  | H : ASSERT _ = Ret _ |- _ => apply ASSERT_Ret in H
  | H : aref _ _ = Ret _ |- _ => apply aref_Ret in H; destruct H as [? ?]
  | H : aset _ _ _ = Ret _ |- _ => apply aset_Ret in H; destruct H as [? ?]
  | H : Ret _ = Ret _ |- _ => injection H as H
  | H : Abort = Ret _ |- _ => discriminate H
  | H : Undef = Ret _ |- _ => discriminate H
  end; simplify_eq/=.

(** Reflect the boolean comparisons of hypotheses and goal into [lia]'s terms. *)
Ltac zbool :=
  repeat match goal with
  | H : (_ <? _) = true |- _ => apply Z.ltb_lt in H
  | H : (_ <? _) = false |- _ => apply Z.ltb_ge in H
  | H : (_ <=? _) = true |- _ => apply Z.leb_le in H
  | H : (_ <=? _) = false |- _ => apply Z.leb_gt in H
  | H : (_ =? _) = true |- _ => apply Z.eqb_eq in H
  | H : (_ =? _) = false |- _ => apply Z.eqb_neq in H
  | H : (_ && _) = true |- _ => apply andb_true_iff in H; destruct H
  | H : (_ || _) = false |- _ => apply orb_false_iff in H; destruct H
  | H : negb _ = true |- _ => apply negb_true_iff in H
  | H : negb _ = false |- _ => apply negb_false_iff in H
  end.
