(* ===== verification/NachosList.v ===== *)
(** * Lists (threads/list.h, threads/list.cc)

    [Module Seq] is the contract of class [List]: a sequence of (key, item)
    pairs with the operations of the class. The rest of the file is the class as
    it is written, a chain of [ListElement] cells in a heap with a [first] and a
    [last] pointer, and the proof that every operation of the class implements
    the one of [Seq] and touches no other cell. Every other file uses [Seq]. *)

From S2P Require Import Prelude.
From Stdlib Require Import Sorted.

(** ** The contract *)

Module Seq.
Section Seq.
Context {V : Type}.
Implicit Types (l : list (Z * V)) (v : V) (k : Z).

Definition Append v l : list (Z * V) := l ++ [(0, v)].
Definition Prepend v l : list (Z * V) := (0, v) :: l.
Definition IsEmpty l : bool := match l with [] => true | _ => false end.
Definition items l : list V := map snd l.

(** The element goes before the first one whose key is larger. *)
Fixpoint SortedInsert v k l : list (Z * V) :=
  match l with
  | [] => [(k, v)]
  | (k', v') :: l' =>
      if k <? k' then (k, v) :: l else (k', v') :: SortedInsert v k l'
  end.

(** The removed (key, item) pair, [None] for an empty list. *)
Definition SortedRemove l : option (Z * V) * list (Z * V) :=
  match l with [] => (None, []) | e :: l' => (Some e, l') end.

Definition Remove l : option V * list (Z * V) :=
  let '(e, l') := SortedRemove l in (snd <$> e, l').

Definition Mapcar {St} (func : V -> St -> St) l (s : St) : St :=
  fold_left (fun s e => func (snd e) s) l s.

Definition sorted l : Prop := StronglySorted (fun e1 e2 => fst e1 <= fst e2) l.

Lemma SortedInsert_Permutation v k l : SortedInsert v k l ≡ₚ (k, v) :: l.
Proof.
  induction l as [|[k' v'] l IH]; cbn; [done|].
  destruct (k <? k'); [done|]. rewrite IH. apply Permutation_swap.
Qed.

Lemma SortedInsert_elem v k l e : e ∈ SortedInsert v k l <-> e = (k, v) \/ e ∈ l.
Proof. rewrite SortedInsert_Permutation. by rewrite elem_of_cons. Qed.

Lemma SortedInsert_sorted v k l : sorted l -> sorted (SortedInsert v k l).
Proof.
  unfold sorted. induction 1 as [|[k' v'] l Hl IH Hall]; cbn; [by repeat constructor|].
  destruct (Z.ltb_spec k k').
  - constructor; [by constructor|]. constructor; [cbn; lia|].
    eapply Forall_impl; [exact Hall|]. cbn. lia.
  - constructor; [done|]. rewrite SortedInsert_Permutation.
    constructor; [cbn; lia | done].
Qed.

(** Insertion keeps the elements with other keys in place and puts the new one
    behind those of its own key: [List] is a stable priority queue. *)
Lemma SortedInsert_stable v k l (k0 : Z) :
  sorted l ->
  filter (fun e => fst e = k0) (SortedInsert v k l) =
  filter (fun e => fst e = k0) l ++ (if decide (k = k0) then [(k, v)] else []).
Proof.
  unfold sorted. induction 1 as [|[k' v'] l Hl IH Hall]; cbn [SortedInsert].
  - rewrite filter_cons. cbn [fst]. by case_decide.
  - destruct (Z.ltb_spec k k').
    + destruct (decide (k = k0)) as [->|].
      * assert (filter (fun e : Z * V => fst e = k0) ((k', v') :: l) = []) as Hnil.
        { apply filter_none. constructor; [cbn; lia|].
          eapply Forall_impl; [exact Hall|]. cbn. lia. }
        rewrite filter_cons, Hnil. cbn [fst]. by rewrite decide_True.
      * rewrite filter_cons. cbn [fst]. by rewrite decide_False, app_nil_r.
    + rewrite !filter_cons. cbn [fst]. rewrite IH. by destruct (decide (k' = k0)).
Qed.

Lemma Remove_Append v l : l <> [] ->
  Remove (Append v l) = (fst (Remove l), Append v (snd (Remove l))).
Proof. destruct l; done. Qed.

Lemma items_Append v l : items (Append v l) = items l ++ [v].
Proof. unfold items, Append. by rewrite map_app. Qed.

Lemma items_nil l : items l = [] <-> l = [].
Proof. by destruct l. Qed.

Lemma IsEmpty_true l : IsEmpty l = true <-> l = [].
Proof. by destruct l. Qed.

Lemma IsEmpty_false l : IsEmpty l = false <-> l <> [].
Proof. by destruct l. Qed.
End Seq.
End Seq.

(** ** The class, as written *)

Abbreviation loc := positive.

(** list.h, class ListElement. *)
Record ListElement (V : Type) := mkElement {
  next : option loc;
  key : Z;
  item : V
}.
Arguments mkElement {V} _ _ _.
Arguments next {V} _.
Arguments key {V} _.
Arguments item {V} _.

(** list.h, class List. *)
Record List := mkList { first : option loc; last : option loc }.

Section Class.
Context {V : Type} (NULL : V).
Abbreviation heap := (gmap loc (ListElement V)).
Implicit Types (h : heap) (L : List) (v : V).

(** [new ListElement(itemPtr, sortKey)]. *)
Definition new_ListElement h (itemPtr : V) (sortKey : Z) : loc * heap :=
  let l := fresh (dom h) in (l, <[l := mkElement None sortKey itemPtr]> h).

Definition load h (p : option loc) : C (ListElement V) :=
  match p with
  | Some l => match h !! l with Some e => Ret e | None => Undef end
  | None => Undef
  end.

(** [p->next = q]. *)
Definition set_next h (p q : option loc) : C heap :=
  let! e := load h p in
  match p with
  | Some l => Ret (<[l := mkElement q (key e) (item e)]> h)
  | None => Undef
  end.

Definition new_List : List := mkList None None.

Definition IsEmpty L : bool := match first L with None => true | Some _ => false end.

Definition Append h L v : C (heap * List) :=
  let '(element, h) := new_ListElement h v 0 in
  if IsEmpty L then Ret (h, mkList (Some element) (Some element))
  else let! h := set_next h (last L) (Some element) in
       Ret (h, mkList (first L) (Some element)).

Definition Prepend h L v : C (heap * List) :=
  let '(element, h) := new_ListElement h v 0 in
  if IsEmpty L then Ret (h, mkList (Some element) (Some element))
  else let! h := set_next h (Some element) (first L) in
       Ret (h, mkList (Some element) (last L)).

(** The search loop of [SortedInsert]: [inl] is the early return, [inr] the
    exit at the last element. *)
Fixpoint SortedInsert_loop (fuel : nat) h (ptr element : loc) (sortKey : Z)
    : C (heap + heap) :=
  match fuel with
  | O => Undef
  | S fuel =>
      let! e := load h (Some ptr) in
      match next e with
      | None => Ret (inr h)
      | Some n =>
          let! ne := load h (Some n) in
          if sortKey <? key ne then
            let! h := set_next h (Some element) (Some n) in
            let! h := set_next h (Some ptr) (Some element) in
            Ret (inl h)
          else SortedInsert_loop fuel h n element sortKey
      end
  end.

(** [size h] iterations are enough: the chain has that many cells at most. *)
Definition SortedInsert h L v (sortKey : Z) : C (heap * List) :=
  let '(element, h) := new_ListElement h v sortKey in
  match first L with
  | None => Ret (h, mkList (Some element) (Some element))
  | Some f =>
      let! e := load h (Some f) in
      if sortKey <? key e then
        let! h := set_next h (Some element) (Some f) in
        Ret (h, mkList (Some element) (last L))
      else
        let! r := SortedInsert_loop (size h) h f element sortKey in
        match r with
        | inl h => Ret (h, L)
        | inr h => let! h := set_next h (last L) (Some element) in
                   Ret (h, mkList (first L) (Some element))
        end
  end.

(** The result is the item and, when the list was not empty, the key stored
    through [keyPtr]. *)
Definition SortedRemove h L : C (V * option Z * heap * List) :=
  match first L with
  | None => Ret (NULL, None, h, L)
  | Some l =>
      let! element := load h (Some l) in
      let thing := item element in
      let L := if decide (first L = last L) then mkList None None
               else mkList (next element) (last L) in
      Ret (thing, Some (key element), delete l h, L)
  end.

Definition Remove h L : C (V * heap * List) :=
  let! (thing, _, h, L) := SortedRemove h L in Ret (thing, h, L).

(** [List::~List]. *)
Fixpoint delete_List `{EqDecision V} (fuel : nat) h L : C (heap * List) :=
  match fuel with
  | O => Undef
  | S fuel =>
      let! (thing, h, L) := Remove h L in
      if decide (thing = NULL) then Ret (h, L) else delete_List fuel h L
  end.

Fixpoint Mapcar_loop {St} (func : V -> St -> St) (fuel : nat) h (ptr : option loc) (s : St)
    : C St :=
  match ptr with
  | None => Ret s
  | Some _ =>
      match fuel with
      | O => Undef
      | S fuel => let! e := load h ptr in
                  Mapcar_loop func fuel h (next e) (func (item e) s)
      end
  end.

Definition Mapcar {St} (func : V -> St -> St) h L (s : St) : C St :=
  Mapcar_loop func (size h) h (first L) s.

(** ** Representation *)

(** [seg h p cs q]: following [next] from [p], the cells [cs] (address, key,
    item) are met in order, and the last points to [q]. *)
Fixpoint seg h (p : option loc) (cs : list (loc * (Z * V))) (q : option loc) : Prop :=
  match cs with
  | [] => p = q
  | (l, (k, v)) :: cs' =>
      p = Some l /\ exists n, h !! l = Some (mkElement n k v) /\ seg h n cs' q
  end.

Record repr h L (cs : list (loc * (Z * V))) : Prop := {
  repr_seg : seg h (first L) cs None;
  repr_nodup : NoDup cs.*1;
  repr_last : last L = list.last cs.*1
}.

(** [h'] agrees with [h] outside the cells of [cs]. *)
Definition untouched (cs : list (loc * (Z * V))) h h' : Prop :=
  forall l, l ∈ dom h -> l ∉ cs.*1 -> h' !! l = h !! l.
End Class.

(** ** The class implements the contract *)

Section Refinement.
Context {V : Type} (NULL : V).
Abbreviation heap := (gmap loc (ListElement V)).
Abbreviation cells := (list (loc * (Z * V))).
Implicit Types (h : heap) (L : List) (v : V) (cs : cells).

Lemma seg_in h p cs q l kv :
  seg h p cs q -> (l, kv) ∈ cs -> exists n, h !! l = Some (mkElement n kv.1 kv.2).
Proof.
  revert p. induction cs as [|[l' [k v]] cs IH]; intros p; [by intros _ ?%not_elem_of_nil|].
  intros (-> & n & Hl & Hs) [[= -> ->]|Hin]%elem_of_cons; [by exists n | eauto].
Qed.

Lemma seg_dom h p cs q l : seg h p cs q -> l ∈ cs.*1 -> l ∈ dom h.
Proof.
  intros Hs ([? kv] & -> & Hin)%list_elem_of_fmap. apply elem_of_dom. cbn.
  destruct (seg_in h p cs q _ kv Hs Hin) as [n ->]. done.
Qed.

Lemma seg_frame h h' p cs q :
  (forall l, l ∈ cs.*1 -> h' !! l = h !! l) -> seg h p cs q -> seg h' p cs q.
Proof.
  revert p. induction cs as [|[l [k v]] cs IH]; intros p Heq; [done|].
  intros (-> & n & Hl & Hs). split; [done|]. exists n. split.
  - rewrite Heq; [done|]. by left.
  - apply IH; [|done]. intros l' ?. apply Heq. by right.
Qed.

Lemma seg_insert_fresh h p cs q l e :
  l ∉ cs.*1 -> seg h p cs q -> seg (<[l := e]> h) p cs q.
Proof.
  intros Hl. apply seg_frame. intros l' ?. apply lookup_insert_ne. by intros ->.
Qed.

Lemma seg_app h p cs1 cs2 q :
  seg h p (cs1 ++ cs2) q <-> exists r, seg h p cs1 r /\ seg h r cs2 q.
Proof.
  revert p. induction cs1 as [|[l [k v]] cs1 IH]; intros p; cbn.
  - naive_solver.
  - setoid_rewrite IH. naive_solver.
Qed.

Lemma seg_length h p cs : seg h p cs None -> NoDup cs.*1 -> (length cs <= size h)%nat.
Proof.
  intros Hs Hnd. rewrite <- size_dom, <- (length_fmap fst), <- (size_list_to_set (C := gset loc) cs.*1 Hnd).
  apply subseteq_size. intros l ?%elem_of_list_to_set. by eapply seg_dom.
Qed.

Lemma repr_empty h L : repr h L [] <-> L = new_List.
Proof.
  split.
  - destruct L as [f l]. intros [Hs _ Hl]. cbn in *. by subst.
  - intros ->. split; [done | constructor | done].
Qed.

Lemma repr_cons h L l k v cs :
  repr h L ((l, (k, v)) :: cs) ->
  first L = Some l /\ exists n, h !! l = Some (mkElement n k v).
Proof. intros [(-> & n & Hl & _) _ _]. eauto. Qed.

Lemma repr_first_None h L cs : repr h L cs -> first L = None <-> cs = [].
Proof.
  destruct cs as [|[l [k v]] cs].
  - by intros ->%repr_empty.
  - by intros [-> _]%repr_cons.
Qed.

(** Linking a detached cell behind the last one. *)
Lemma link_last h L cs element k v :
  repr h L cs -> cs <> [] ->
  h !! element = Some (mkElement None k v) -> element ∉ cs.*1 ->
  exists h', set_next h (last L) (Some element) = Ret h' /\
    repr h' (mkList (first L) (Some element)) (cs ++ [(element, (k, v))]) /\
    (forall l, l ∉ cs.*1 -> h' !! l = h !! l).
Proof.
  intros [Hs Hnd Hlast] Hne He Hfr.
  destruct (exists_last Hne) as (cs0 & [l [k0 v0]] & ->).
  rewrite fmap_app in Hlast, Hnd, Hfr. cbn in Hlast, Hnd, Hfr. rewrite last_snoc in Hlast.
  apply NoDup_app in Hnd as (Hnd0 & Hdis & _).
  assert (l ∉ cs0.*1) as Hl0 by (intros Hin; apply (Hdis _ Hin); by left).
  apply seg_app in Hs as (r & Hs0 & -> & n & Hl & _).
  apply not_elem_of_app in Hfr as [Hfr0 [Hel _]%not_elem_of_cons].
  unfold set_next, load. rewrite Hlast, Hl. cbn. eexists. split; [done|]. split; [split|].
  - rewrite <- app_assoc. apply seg_app. exists (Some l). split; [by apply seg_insert_fresh|].
    split; [done|]. exists (Some element). rewrite lookup_insert_eq. split; [done|].
    split; [done|]. exists None. by rewrite lookup_insert_ne.
  - rewrite !fmap_app. cbn. rewrite <- app_assoc. apply NoDup_app. split; [done|]. split.
    + intros x Hx [->|Hx']%elem_of_cons; [done|]. apply list_elem_of_singleton in Hx' as ->. done.
    + apply NoDup_cons. split; [|apply NoDup_singleton]. by intros ->%list_elem_of_singleton.
  - rewrite !fmap_app. cbn. by rewrite last_snoc.
  - intros x. rewrite fmap_app, not_elem_of_app. cbn.
    intros [_ [? _]%not_elem_of_cons]. by rewrite lookup_insert_ne.
Qed.

(** A fresh cell in front of the first one. *)
Lemma link_first h L l k v cs :
  repr h L cs -> cs <> [] -> l ∉ cs.*1 -> h !! l = Some (mkElement (first L) k v) ->
  repr h (mkList (Some l) (last L)) ((l, (k, v)) :: cs).
Proof.
  intros [Hs Hnd Hlast] Hne Hl He. split; cbn.
  - split; [done|]. exists (first L). done.
  - by constructor.
  - rewrite Hlast, last_cons. destruct (list.last cs.*1) eqn:E; [done|].
    apply last_None, fmap_nil_inv in E. done.
Qed.

(** [cs] with the cell [c] inserted where [Seq.SortedInsert] puts it. *)
Fixpoint ins_cell (c : loc * (Z * V)) cs : cells :=
  match cs with
  | [] => [c]
  | c' :: cs' => if c.2.1 <? c'.2.1 then c :: cs else c' :: ins_cell c cs'
  end.

Lemma ins_cell_values l k v cs : (ins_cell (l, (k, v)) cs).*2 = Seq.SortedInsert v k cs.*2.
Proof.
  induction cs as [|[l' [k' v']] cs IH]; cbn; [done|].
  destruct (k <? k'); cbn; [done | by f_equal].
Qed.

Lemma ins_cell_Permutation c cs : ins_cell c cs ≡ₚ c :: cs.
Proof.
  induction cs as [|c' cs IH]; cbn; [done|].
  destruct (_ <? _); [done|]. rewrite IH. apply Permutation_swap.
Qed.

Lemma ins_cell_end c cs : Forall (fun c' => c'.2.1 <= c.2.1) cs -> ins_cell c cs = cs ++ [c].
Proof.
  induction 1 as [|c' cs ? _ IH]; cbn; [done|].
  destruct (Z.ltb_spec c.2.1 c'.2.1); [lia | by f_equal].
Qed.

Lemma ins_cell_last c cs :
  ~ Forall (fun c' => c'.2.1 <= c.2.1) cs -> list.last (ins_cell c cs).*1 = list.last cs.*1.
Proof.
  induction cs as [|c' cs IH]; cbn; intros Hn; [by destruct Hn|].
  destruct (Z.ltb_spec c.2.1 c'.2.1); cbn; [done|].
  rewrite !last_cons, IH; [done|]. intros ?. apply Hn. by constructor.
Qed.

Lemma SortedInsert_loop_spec fuel h ptr element k v k0 v0 cs :
  seg h (Some ptr) ((ptr, (k0, v0)) :: cs) None ->
  h !! element = Some (mkElement None k v) ->
  element ∉ ptr :: cs.*1 -> NoDup (ptr :: cs.*1) -> (length cs < fuel)%nat ->
  exists r, SortedInsert_loop fuel h ptr element k = Ret r /\
    match r with
    | inl h' =>
        seg h' (Some ptr) ((ptr, (k0, v0)) :: ins_cell (element, (k, v)) cs) None /\
        ~ Forall (fun c => c.2.1 <= k) cs /\
        (forall l, l ∉ element :: ptr :: cs.*1 -> h' !! l = h !! l)
    | inr h' => h' = h /\ Forall (fun c => c.2.1 <= k) cs
    end.
Proof.
  revert h ptr k0 v0 cs. induction fuel as [|fuel IH]; intros h ptr k0 v0 cs; [lia|].
  intros (_ & n & Hptr & Hs) He Hfr Hnd Hlen. cbn [SortedInsert_loop].
  cbn. rewrite Hptr. cbn.
  destruct cs as [|[l [k1 v1]] cs].
  { cbn in Hs. subst n. eexists. split; [done|]. cbn. split; [done|constructor]. }
  destruct Hs as (-> & n' & Hl & Hs). rewrite Hl. cbn.
  apply not_elem_of_cons in Hfr as [Hep [Hel Hec]%not_elem_of_cons].
  apply NoDup_cons in Hnd as [[Hpl Hpc]%not_elem_of_cons Hnd'].
  destruct (Z.ltb_spec k k1) as [Hlt|Hge].
  - unfold set_next, load. rewrite He. cbn. rewrite lookup_insert_ne, Hptr by done. cbn.
    eexists. split; [done|]. cbn. split; [|split].
    + split; [done|]. exists (Some element). split; [by rewrite lookup_insert_eq|].
      destruct (Z.ltb_spec k k1); [|lia]. split; [done|]. exists (Some l).
      rewrite lookup_insert_ne, lookup_insert_eq by done. split; [done|].
      split; [done|]. exists n'. rewrite !lookup_insert_ne by naive_solver. split; [done|].
      by do 2 (apply seg_insert_fresh; [done|]).
    + intros [Hk1 _]%Forall_cons. cbn in Hk1. lia.
    + intros x [? [? _]%not_elem_of_cons]%not_elem_of_cons. by rewrite !lookup_insert_ne.
  - destruct (IH h l k1 v1 cs) as (r & -> & Hr).
    + split; [done|]. by exists n'.
    + done.
    + by apply not_elem_of_cons.
    + done.
    + cbn in Hlen. lia.
    + eexists. split; [done|]. destruct r as [h'|h'].
      * destruct Hr as (Hs' & Hnf & Hout). split; [|split].
        -- split; [done|]. exists (Some l). split.
           { rewrite Hout; [done|]. rewrite !not_elem_of_cons. done. }
           cbn. destruct (Z.ltb_spec k k1); [lia|done].
        -- intros [_ Hf]%Forall_cons. done.
        -- intros x Hx. apply Hout. rewrite !not_elem_of_cons in *. naive_solver.
      * destruct Hr as [-> Hf]. split; [done|]. constructor; [done|done].
Qed.

(** The outcome of an updating operation on a list that represents [cs]: it
    returns, the new cells carry [kvs], and no cell outside [cs] changed. *)
Definition yields h cs (r : C (heap * List)) (kvs : list (Z * V)) : Prop :=
  exists h' L' cs', r = Ret (h', L') /\ repr h' L' cs' /\ cs'.*2 = kvs /\ untouched cs h h'.

Lemma new_fresh h v k l h1 :
  new_ListElement h v k = (l, h1) ->
  l ∉ dom h /\ h1 = <[l := mkElement None k v]> h.
Proof. intros [= <- <-]. split; [apply is_fresh|done]. Qed.

Lemma repr_insert_fresh h L cs l e :
  repr h L cs -> l ∉ dom h -> repr (<[l := e]> h) L cs /\ l ∉ cs.*1.
Proof.
  intros [Hs Hnd Hl] Hfr.
  assert (l ∉ cs.*1) by (intros Hin; apply Hfr; by eapply seg_dom).
  split; [|done]. split; [by apply seg_insert_fresh | done | done].
Qed.

Lemma untouched_insert cs h l e : l ∉ dom h -> untouched cs h (<[l := e]> h).
Proof. intros Hfr x Hx _. apply lookup_insert_ne. by intros <-. Qed.

Lemma untouched_via cs h h1 h' :
  untouched cs h h1 -> (forall l, l ∈ dom h -> l ∉ cs.*1 -> h' !! l = h1 !! l) ->
  untouched cs h h'.
Proof. intros H1 H2 l Hd Hl. rewrite H2 by done. by apply H1. Qed.

Lemma repr_singleton h l k v :
  h !! l = Some (mkElement None k v) -> repr h (mkList (Some l) (Some l)) [(l, (k, v))].
Proof.
  intros Hl. split; [|apply NoDup_singleton|done]. split; [done|]. by exists None.
Qed.

Lemma Append_yields h L cs v :
  repr h L cs -> yields h cs (Append h L v) (Seq.Append v cs.*2).
Proof.
  intros Hr. unfold Append. destruct (new_ListElement h v 0) as [l h1] eqn:En.
  apply new_fresh in En as [Hfr ->].
  destruct (repr_insert_fresh h L cs l (mkElement None 0 v) Hr Hfr) as [Hr1 Hl].
  unfold IsEmpty. destruct (first L) as [f|] eqn:Hf.
  - assert (cs <> []) as Hne by (intros ->; apply repr_empty in Hr as ->; done).
    destruct (link_last _ _ _ l 0 v Hr1 Hne) as (h' & -> & Hr' & Hout); [by rewrite lookup_insert_eq | done |].
    cbn. rewrite Hf in Hr'. do 3 eexists. split; [done|]. split; [exact Hr'|]. split.
    + by rewrite fmap_app.
    + eapply untouched_via; [by apply untouched_insert|]. intros; by apply Hout.
  - apply (repr_first_None h L cs Hr) in Hf as ->.
    do 3 eexists. split; [done|]. split; [apply repr_singleton; by rewrite lookup_insert_eq|].
    split; [done | by apply untouched_insert].
Qed.

Lemma Prepend_yields h L cs v :
  repr h L cs -> yields h cs (Prepend h L v) (Seq.Prepend v cs.*2).
Proof.
  intros Hr. unfold Prepend. destruct (new_ListElement h v 0) as [l h1] eqn:En.
  apply new_fresh in En as [Hfr ->].
  destruct (repr_insert_fresh h L cs l (mkElement None 0 v) Hr Hfr) as [_ Hl].
  unfold IsEmpty. destruct (first L) as [f|] eqn:Hf.
  - assert (cs <> []) as Hne by (intros ->; apply repr_empty in Hr as ->; done).
    unfold set_next, load. rewrite lookup_insert_eq. cbn. rewrite insert_insert_eq.
    do 3 eexists. split; [done|]. split; [|split].
    + eapply link_first; [by apply repr_insert_fresh | done | done |].
      by rewrite lookup_insert_eq, Hf.
    + done.
    + by apply untouched_insert.
  - apply (repr_first_None h L cs Hr) in Hf as ->.
    do 3 eexists. split; [done|]. split; [apply repr_singleton; by rewrite lookup_insert_eq|].
    split; [done | by apply untouched_insert].
Qed.

Lemma SortedInsert_yields h L cs v k :
  repr h L cs -> yields h cs (SortedInsert h L v k) (Seq.SortedInsert v k cs.*2).
Proof.
  intros Hr. unfold SortedInsert. destruct (new_ListElement h v k) as [l h1] eqn:En.
  apply new_fresh in En as [Hfr ->].
  destruct (repr_insert_fresh h L cs l (mkElement None k v) Hr Hfr) as [Hr1 Hl].
  pose proof (untouched_insert cs h l (mkElement None k v) Hfr) as Hun.
  assert (<[l := mkElement None k v]> h !! l = Some (mkElement None k v)) as Hlook
    by apply lookup_insert_eq.
  rewrite <- (ins_cell_values l).
  destruct cs as [|[f [k0 v0]] cs].
  { apply repr_empty in Hr as ->. cbn. do 3 eexists. split; [done|].
    split; [by apply repr_singleton | done]. }
  destruct (repr_cons _ _ _ _ _ _ Hr1) as (Hf & n & Hfl). rewrite Hf. cbn. rewrite Hfl. cbn.
  destruct (Z.ltb_spec k k0) as [Hlt|Hge].
  - unfold set_next, load. rewrite Hlook. cbn. rewrite insert_insert_eq. do 3 eexists. split; [done|]. split; [|split].
    + eapply link_first; [by apply repr_insert_fresh | done | done |].
      by rewrite lookup_insert_eq, Hf.
    + done.
    + by apply untouched_insert.
  - destruct Hr1 as [Hs Hnd Hlast]. rewrite Hf in Hs.
    destruct (SortedInsert_loop_spec (size (<[l := mkElement None k v]> h))
      _ f l k v k0 v0 cs Hs Hlook Hl Hnd) as ([h'|h'] & -> & Hpost).
    { apply seg_length in Hs; [cbn in Hs; lia | done]. }
    + destruct Hpost as (Hs' & Hbig & Hout). cbn. do 3 eexists. split; [done|]. split; [|split].
      * split; [by rewrite Hf | | ].
        -- cbn. rewrite ins_cell_Permutation. cbn. rewrite Permutation_swap.
           by apply NoDup_cons.
        -- rewrite Hlast. cbn. by rewrite !last_cons, ins_cell_last.
      * done.
      * eapply untouched_via; [exact Hun|]. intros x Hx Hxc. apply Hout.
        apply not_elem_of_cons. split; [|done]. by intros ->.
    + destruct Hpost as [-> Hall]. cbn.
      destruct (link_last (<[l := mkElement None k v]> h) L ((f, (k0, v0)) :: cs) l k v)
        as (h' & -> & Hr' & Hout); [split; [by rewrite Hf | done | done] | done | done | done |].
      rewrite Hf in Hr'. cbn. do 3 eexists. split; [done|]. split; [exact Hr'|]. split.
      * by rewrite (ins_cell_end (l, (k, v)) cs).
      * eapply untouched_via; [exact Hun|]. intros; by apply Hout.
Qed.

Lemma SortedRemove_empty h L : repr h L [] -> SortedRemove NULL h L = Ret (NULL, None, h, L).
Proof. by intros ->%repr_empty. Qed.

Lemma SortedRemove_cons h L l k v cs :
  repr h L ((l, (k, v)) :: cs) ->
  exists L', SortedRemove NULL h L = Ret (v, Some k, delete l h, L') /\
    repr (delete l h) L' cs.
Proof.
  intros Hr. destruct (repr_cons _ _ _ _ _ _ Hr) as (Hf & n & Hl).
  destruct Hr as [(_ & n' & Hl' & Hs) Hnd Hlast]. rewrite Hl in Hl'. injection Hl' as <-.
  cbn in Hnd. apply NoDup_cons in Hnd as [Hlc Hnd].
  unfold SortedRemove. rewrite Hf. cbn. rewrite Hl. cbn. eexists. split; [done|].
  assert (seg (delete l h) n cs None) as Hs'.
  { eapply seg_frame; [|exact Hs]. intros x Hx. apply lookup_delete_ne. by intros ->. }
  cbn in Hlast. rewrite last_cons in Hlast.
  destruct (decide (Some l = last L)) as [Heq|Hne].
  - destruct (list.last cs.*1) as [x|] eqn:E.
    + rewrite Hlast in Heq. injection Heq as ->. destruct Hlc. by apply last_Some_elem_of.
    + apply last_None, fmap_nil_inv in E as ->. split; [done | constructor | done].
  - split; cbn; [done | done |]. destruct (list.last cs.*1); congruence.
Qed.

Lemma Mapcar_loop_spec {St} (func : V -> St -> St) fuel h p cs s :
  seg h p cs None -> (length cs <= fuel)%nat ->
  Mapcar_loop func fuel h p s = Ret (Seq.Mapcar func cs.*2 s).
Proof.
  revert fuel p s. induction cs as [|[l [k v]] cs IH]; intros fuel p s.
  - cbn. intros -> _. by destruct fuel.
  - intros (-> & n & Hl & Hs) Hfuel. destruct fuel as [|fuel]; cbn in Hfuel; [lia|].
    cbn. rewrite Hl. cbn. by apply IH; [|lia].
Qed.

Lemma delete_List_S `{EqDecision V} fuel h L :
  delete_List NULL (S fuel) h L =
  let! (thing, h, L) := Remove NULL h L in
  if decide (thing = NULL) then Ret (h, L) else delete_List NULL fuel h L.
Proof. done. Qed.

(** The destructor frees every cell when no item is [NULL]. *)
Lemma delete_List_spec `{EqDecision V} h L cs :
  repr h L cs -> Forall (fun c => c.2.2 <> NULL) cs ->
  exists h', delete_List NULL (S (length cs)) h L = Ret (h', new_List) /\
    forall l, h' !! l = if decide (l ∈ cs.*1) then None else h !! l.
Proof.
  revert h L. induction cs as [|[l [k v]] cs IH]; intros h L Hr Hall.
  - cbn. unfold Remove. rewrite SortedRemove_empty by done. cbn.
    rewrite decide_True by done. apply repr_empty in Hr as ->. exists h. split; [done|].
    intros l. by rewrite decide_False by apply not_elem_of_nil.
  - apply Forall_cons in Hall as [Hv Hall]. cbn in Hv.
    destruct (SortedRemove_cons _ _ _ _ _ _ Hr) as (L' & Hrem & Hr').
    destruct (IH _ _ Hr' Hall) as (h' & Heq & Hlook).
    exists h'. split.
    + change (length ((l, (k, v)) :: cs)) with (S (length cs)). rewrite delete_List_S.
      unfold Remove. rewrite Hrem. cbn - [delete_List]. by rewrite decide_False.
    + intros x. rewrite Hlook. destruct (decide (x = l)) as [->|Hne].
      * rewrite lookup_delete_eq. rewrite (decide_True (P := l ∈ ((l, (k, v)) :: cs).*1)) by (by left).
        by case_decide.
      * rewrite lookup_delete_ne by done. cbn.
        destruct (decide (x ∈ cs.*1)), (decide (x ∈ l :: cs.*1)) as [Hx|Hx];
          [done | by destruct Hx; right | | done].
        by apply elem_of_cons in Hx as [|].
Qed.

(** C18: Class List implements the sequence contract. From a heap in which the
    list object represents the cells cs, each of Append, Prepend and
    SortedInsert returns, leaves an object that represents the sequence the
    contract gives and changes no cell of another list; SortedRemove returns
    the contract's head (item and key, or NULL on the empty list) and frees
    exactly its cell; Mapcar visits the items in order; the destructor frees
    exactly the cells of the list when no item is NULL. *)
Theorem List_implements_Seq `{EqDecision V} h L cs v k :
  repr h L cs ->
  yields h cs (Append h L v) (Seq.Append v cs.*2) /\
  yields h cs (Prepend h L v) (Seq.Prepend v cs.*2) /\
  yields h cs (SortedInsert h L v k) (Seq.SortedInsert v k cs.*2) /\
  IsEmpty L = Seq.IsEmpty cs.*2 /\
  (match cs, Seq.SortedRemove cs.*2 with
   | (l, _) :: cs', (Some (k0, v0), kvs) =>
       kvs = cs'.*2 /\
       exists L', SortedRemove NULL h L = Ret (v0, Some k0, delete l h, L') /\
         repr (delete l h) L' cs'
   | _, _ => SortedRemove NULL h L = Ret (NULL, None, h, L)
   end) /\
  (forall St (func : V -> St -> St) s,
     Mapcar func h L s = Ret (Seq.Mapcar func cs.*2 s)) /\
  (Forall (fun c => c.2.2 <> NULL) cs ->
     exists h', delete_List NULL (S (length cs)) h L = Ret (h', new_List) /\
       forall l, h' !! l = if decide (l ∈ cs.*1) then None else h !! l).
Proof.
  intros Hr.
  split; [by apply Append_yields|]. split; [by apply Prepend_yields|].
  split; [by apply SortedInsert_yields|]. split.
  { destruct cs as [|[l [k0 v0]] cs]; unfold IsEmpty.
    - by apply repr_empty in Hr as ->.
    - by destruct (repr_cons _ _ _ _ _ _ Hr) as [-> _]. }
  split.
  { destruct cs as [|[l [k0 v0]] cs]; cbn.
    - by apply SortedRemove_empty.
    - split; [done|]. by apply SortedRemove_cons. }
  split; [|by apply delete_List_spec].
  intros St func s. unfold Mapcar. destruct Hr as [Hs Hnd _].
  eapply Mapcar_loop_spec; [done | by eapply seg_length].
Qed.
End Refinement.

(** A concrete run: three sorted insertions, two removals and a traversal. *)
Example class_example :
  let h := ∅ : gmap loc (ListElement Z) in
  (let! (h, L) := SortedInsert h new_List 7 30 in
   let! (h, L) := SortedInsert h L 8 10 in
   let! (h, L) := SortedInsert h L 9 20 in
   let! (a, k, h, L) := SortedRemove 0 h L in
   let! (b, h, L) := Remove 0 h L in
   let! l := Mapcar cons h L [] in
   Ret (a, k, b, l)) = Ret (8, Some 10, 9, [7]).
Proof. vm_compute. reflexivity. Qed.

Definition example_cells : list (loc * (Z * Z)) := [(1%positive, (5, 40)); (2%positive, (6, 41))].
Definition example_heap : gmap loc (ListElement Z) :=
  {[1%positive := mkElement (Some 2%positive) 5 40; 2%positive := mkElement None 6 41]}.

Lemma List_implements_Seq_witness :
  yields example_heap example_cells
    (SortedInsert example_heap (mkList (Some 1%positive) (Some 2%positive)) 42 5)
    [(5, 40); (5, 42); (6, 41)].
Proof.
  apply (List_implements_Seq 0 example_heap (mkList (Some 1%positive) (Some 2%positive))
           example_cells 42 5).
  split; [|by apply (bool_decide_unpack _); vm_compute|done].
  split; [done|]. exists (Some 2%positive). split; [done|].
  split; [done|]. by exists None.
Defined.
