(* ===== verification/BitMap.v ===== *)
(** * Bit maps (userprog/bitmap.h, userprog/bitmap.cc)

    The bit map as an array of 32-bit words with the shifts and masks of the
    source, and the contract its clients (the frame map, the swap map, the free
    sector map, the handle tables) rely on: a set of marked indices from which
    [Find] allocates the least free one. *)

From S2P Require Import Prelude.

Definition BitsInWord : Z := 32.

(** bitmap.h, class BitMap. *)
Record BitMap := mkBitMap {
  numBits : Z;
  numWords : Z;
  map : list Z  (* unsigned int *)
}.

(** [1 << (which % BitsInWord)], an [int]. *)
Definition bit_of (which : Z) : Z := i32 (Z.shiftl 1 (Z.rem which BitsInWord)).

Definition in_range (bm : BitMap) (which : Z) : bool := (0 <=? which) && (which <? numBits bm).

Definition Mark (bm : BitMap) (which : Z) : C BitMap :=
  let! _ := ASSERT (in_range bm which) in
  let! w := aref (map bm) (Z.quot which BitsInWord) in
  let! m := aset (map bm) (Z.quot which BitsInWord) (Z.lor w (u32 (bit_of which))) in
  Ret (mkBitMap (numBits bm) (numWords bm) m).

Definition Clear (bm : BitMap) (which : Z) : C BitMap :=
  let! _ := ASSERT (in_range bm which) in
  let! w := aref (map bm) (Z.quot which BitsInWord) in
  let! m := aset (map bm) (Z.quot which BitsInWord) (Z.land w (u32 (Z.lnot (bit_of which)))) in
  Ret (mkBitMap (numBits bm) (numWords bm) m).

Definition Test (bm : BitMap) (which : Z) : C bool :=
  let! _ := ASSERT (in_range bm which) in
  let! w := aref (map bm) (Z.quot which BitsInWord) in
  Ret (negb (Z.land w (u32 (bit_of which)) =? 0)).

(** The constructor; [garbage] is the content of the words [new] returns. *)
Definition new_BitMap (nitems : Z) (garbage : nat -> Z) : C BitMap :=
  let words := divRoundUp nitems BitsInWord in
  let bm := mkBitMap nitems words ((fun i => u32 (garbage i)) <$> seq 0 (Z.to_nat words)) in
  for_upto 0 (Z.to_nat nitems) (fun i bm => Clear bm i) bm.

Fixpoint Find_loop (bm : BitMap) (i : Z) (n : nat) : C (Z * BitMap) :=
  match n with
  | O => Ret (-1, bm)
  | S n =>
      let! t := Test bm i in
      if negb t then let! bm := Mark bm i in Ret (i, bm) else Find_loop bm (i + 1) n
  end.

Definition Find (bm : BitMap) : C (Z * BitMap) := Find_loop bm 0 (Z.to_nat (numBits bm)).

Definition NumClear (bm : BitMap) : C Z :=
  for_upto 0 (Z.to_nat (numBits bm))
    (fun i (count : Z) => let! t := Test bm i in Ret (if negb t then count + 1 else count)) 0.

(** [Print]: the numbers of the set bits, in the order they are printed. *)
Definition Print (bm : BitMap) : C (list Z) :=
  for_upto 0 (Z.to_nat (numBits bm))
    (fun i (out : list Z) => let! t := Test bm i in Ret (if t then out ++ [i] else out)) [].

(** ** Contract *)

Definition bit (bm : BitMap) (i : Z) : bool :=
  Z.testbit (default 0 (map bm !! Z.to_nat (i / 32))) (i mod 32).

Record wf (bm : BitMap) : Prop := {
  wf_numBits : 0 <= numBits bm;
  wf_numWords : numWords bm = divRoundUp (numBits bm) 32;
  wf_length : Z.of_nat (length (map bm)) = numWords bm;
  wf_words : Forall is_u32 (map bm)
}.

(** The indices of the clear bits, in increasing order. *)
Definition clear_bits (bm : BitMap) : list Z :=
  filter (fun i => bit bm i = false) (seqZ 0 (numBits bm)).

Lemma bit_of_spec i : 0 <= i -> u32 (bit_of i) = 2 ^ (i mod 32).
Proof.
  intros Hi. unfold bit_of, BitsInWord. rewrite u32_i32, Z.shiftl_1_l, Z.rem_mod_nonneg by lia.
  apply u32_small. pose proof (Z.mod_pos_bound i 32). split; [lia|].
  apply Z.pow_lt_mono_r; lia.
Qed.

Lemma lnot_bit_of_testbit i j : 0 <= i -> 0 <= j < 32 ->
  Z.testbit (u32 (Z.lnot (bit_of i))) j = negb (j =? i mod 32).
Proof.
  intros Hi Hj. unfold u32. rewrite Z.mod_pow2_bits_low by lia.
  rewrite Z.lnot_spec by lia. f_equal.
  transitivity (Z.testbit (u32 (bit_of i)) j).
  { unfold u32. by rewrite Z.mod_pow2_bits_low by lia. }
  rewrite bit_of_spec, Z.pow2_bits_eqb by (try apply Z.mod_pos_bound; lia). apply Z.eqb_sym.
Qed.

Lemma word_in bm i : wf bm -> 0 <= i < numBits bm ->
  exists w, map bm !! Z.to_nat (i / 32) = Some w /\ is_u32 w /\
    aref (map bm) (Z.quot i BitsInWord) = Ret w.
Proof.
  intros [Hn Hw Hl Hu] Hi. unfold BitsInWord. rewrite Z.quot_div_nonneg by lia.
  pose proof (div_lt_divRoundUp (numBits bm) 32 i Hi).
  destruct (aref_in (map bm) (i / 32)) as [w Haw]; [lia|].
  exists w. apply aref_Ret in Haw as Haw'. destruct Haw' as [_ Hlook].
  split; [done|]. split; [|done]. by eapply Forall_lookup_1.
Qed.

Lemma in_range_true bm i : in_range bm i = true <-> 0 <= i < numBits bm.
Proof. unfold in_range. rewrite andb_true_iff, Z.leb_le, Z.ltb_lt. done. Qed.

Lemma in_range_abort bm i : ~ (0 <= i < numBits bm) -> in_range bm i = false.
Proof. rewrite <- in_range_true. by destruct (in_range bm i). Qed.

Lemma Test_bit bm i : wf bm -> 0 <= i < numBits bm -> Test bm i = Ret (bit bm i).
Proof.
  intros Hwf Hi. destruct (word_in bm i Hwf Hi) as (w & Hw & Hu & Hr).
  unfold Test, bit. rewrite (proj2 (in_range_true bm i) Hi), Hr, Hw. cbn.
  rewrite bit_of_spec by lia. f_equal.
  pose proof (Z.mod_pos_bound i 32 ltac:(lia)) as Hm.
  destruct (Z.testbit w (i mod 32)) eqn:E.
  - apply negb_true_iff, Z.eqb_neq. intros H0.
    apply (f_equal (fun z => Z.testbit z (i mod 32))) in H0.
    rewrite Z.land_spec, E, Z.pow2_bits_true, Z.bits_0 in H0 by lia. done.
  - apply negb_false_iff, Z.eqb_eq. apply Z.bits_inj'. intros j Hj.
    rewrite Z.land_spec, Z.pow2_bits_eqb, Z.bits_0 by lia.
    destruct (Z.eqb_spec (i mod 32) j) as [<-|]; [by rewrite E | by rewrite andb_false_r].
Qed.

(** Updating the word of index [i] changes the bits of that word only. *)
Lemma set_word bm i w w' :
  wf bm -> 0 <= i < numBits bm -> map bm !! Z.to_nat (i / 32) = Some w -> is_u32 w' ->
  let bm' := mkBitMap (numBits bm) (numWords bm) (<[Z.to_nat (i / 32) := w']> (map bm)) in
  aset (map bm) (Z.quot i BitsInWord) w' = Ret (map bm') /\ wf bm' /\
  (forall j, 0 <= j -> bit bm' j =
     if decide (j / 32 = i / 32) then Z.testbit w' (j mod 32) else bit bm j).
Proof.
  intros Hwf Hi Hw Hu'. pose proof Hwf as [Hn Hnw Hl Hf]. cbn.
  pose proof (div_lt_divRoundUp (numBits bm) 32 i Hi) as Hd. split; [|split].
  - unfold BitsInWord. rewrite Z.quot_div_nonneg by lia. apply aset_in. lia.
  - split; cbn; [done | done | by rewrite length_insert |]. by apply Forall_insert.
  - intros j Hj. unfold bit. cbn. case_decide as Hc.
    + rewrite Hc, list_lookup_insert_eq by lia. done.
    + rewrite list_lookup_insert_ne; [done|]. intros He%Z2Nat.inj; [done | lia |].
      apply Z.div_pos; lia.
Qed.

Lemma index_split i j : i / 32 = j / 32 -> i mod 32 = j mod 32 -> i = j.
Proof. intros H1 H2. rewrite (Z.div_mod i 32), (Z.div_mod j 32), H1, H2; lia. Qed.

Lemma Mark_spec bm i : wf bm -> 0 <= i < numBits bm ->
  exists bm', Mark bm i = Ret bm' /\ wf bm' /\ numBits bm' = numBits bm /\
    (forall j, 0 <= j -> bit bm' j = (j =? i) || bit bm j).
Proof.
  intros Hwf Hi. destruct (word_in bm i Hwf Hi) as (w & Hw & Hu & Hr).
  pose proof (Z.mod_pos_bound i 32 ltac:(lia)) as Hm.
  destruct (set_word bm i w (Z.lor w (u32 (bit_of i))) Hwf Hi Hw) as (Hs & Hwf' & Hb).
  { auto with cint. }
  eexists. split; [|split; [exact Hwf'|split; [done|]]].
  - unfold Mark. rewrite (proj2 (in_range_true bm i) Hi), Hr. cbn. by rewrite Hs.
  - intros j Hj. rewrite Hb by done. unfold bit. case_decide as Hc.
    + rewrite Hc, Hw. cbn. rewrite Z.lor_spec, bit_of_spec, Z.pow2_bits_eqb by lia.
      rewrite orb_comm. f_equal.
      destruct (Z.eqb_spec (i mod 32) (j mod 32)), (Z.eqb_spec j i); try done.
      * destruct n. by apply index_split.
      * by subst.
    + destruct (Z.eqb_spec j i) as [->|]; done.
Qed.

Lemma Clear_spec bm i : wf bm -> 0 <= i < numBits bm ->
  exists bm', Clear bm i = Ret bm' /\ wf bm' /\ numBits bm' = numBits bm /\
    (forall j, 0 <= j -> bit bm' j = negb (j =? i) && bit bm j).
Proof.
  intros Hwf Hi. destruct (word_in bm i Hwf Hi) as (w & Hw & Hu & Hr).
  pose proof (Z.mod_pos_bound i 32 ltac:(lia)) as Hm.
  destruct (set_word bm i w (Z.land w (u32 (Z.lnot (bit_of i)))) Hwf Hi Hw) as (Hs & Hwf' & Hb).
  { auto with cint. }
  eexists. split; [|split; [exact Hwf'|split; [done|]]].
  - unfold Clear. rewrite (proj2 (in_range_true bm i) Hi), Hr. cbn. by rewrite Hs.
  - intros j Hj. rewrite Hb by done. unfold bit. case_decide as Hc.
    + rewrite Hc, Hw. cbn. rewrite Z.land_spec, lnot_bit_of_testbit by
        (pose proof (Z.mod_pos_bound j 32); lia).
      rewrite andb_comm. f_equal. f_equal.
      destruct (Z.eqb_spec (j mod 32) (i mod 32)), (Z.eqb_spec j i); try done.
      * destruct n. by apply index_split.
      * by subst.
    + destruct (Z.eqb_spec j i) as [->|]; done.
Qed.

Lemma range_abort bm i : ~ (0 <= i < numBits bm) ->
  Mark bm i = Abort /\ Clear bm i = Abort /\ Test bm i = Abort.
Proof.
  intros Hi. unfold Mark, Clear, Test. by rewrite (in_range_abort bm i Hi).
Qed.

Lemma Find_loop_spec bm i n :
  wf bm -> 0 <= i -> i + Z.of_nat n = numBits bm ->
  match filter (fun j => bit bm j = false) (seqZ i (Z.of_nat n)) with
  | [] => Find_loop bm i n = Ret (-1, bm)
  | j :: rest =>
      i <= j < numBits bm /\ bit bm j = false /\ (forall j', i <= j' < j -> bit bm j' = true) /\
      Find_loop bm i n = (let! bm' := Mark bm j in Ret (j, bm')) /\
      rest = filter (fun j' => bit bm j' = false /\ j' <> j) (seqZ i (Z.of_nat n))
  end.
Proof.
  revert i. induction n as [|n IH]; intros i Hwf Hi Hn; [done|].
  rewrite seqZ_cons by lia. replace (Z.pred (Z.of_nat (S n))) with (Z.of_nat n) by lia.
  cbn [Find_loop]. rewrite Test_bit by (done || lia). cbn [bind].
  rewrite filter_cons. destruct (bit bm i) eqn:Hb; cbn [negb].
  - rewrite decide_False by done. specialize (IH (i + 1) Hwf ltac:(lia) ltac:(lia)).
    replace (Z.succ i) with (i + 1) by lia.
    destruct (filter _ _) as [|j rest]; [done|].
    destruct IH as (Hj & Hbj & Hlt & Hf & ->). split; [lia|]. split; [done|]. split.
    { intros j' Hj'. destruct (Z.eq_dec j' i) as [->|]; [done|]. apply Hlt. lia. }
    split; [done|].
    rewrite (filter_cons_False _ i); [done|]. intros [??]. congruence.
  - rewrite decide_True by done. split; [lia|]. split; [done|]. split; [lia|]. split; [done|].
    rewrite (filter_cons_False _ i) by naive_solver. apply filter_ext_in.
    intros j Hj%elem_of_seqZ. naive_solver lia.
Qed.

Lemma seqZ_total bm : wf bm -> seqZ 0 (numBits bm) = seqZ 0 (Z.of_nat (Z.to_nat (numBits bm))).
Proof. intros [Hn _ _ _]. by rewrite Z2Nat.id. Qed.

Lemma count_loop_spec bm i n acc :
  wf bm -> 0 <= i -> i + Z.of_nat n <= numBits bm ->
  for_upto i n (fun i (count : Z) => let! t := Test bm i in Ret (if negb t then count + 1 else count)) acc
  = Ret (acc + Z.of_nat (length (filter (fun j => bit bm j = false) (seqZ i (Z.of_nat n))))).
Proof.
  revert i acc. induction n as [|n IH]; intros i acc Hwf Hi Hn.
  { rewrite seqZ_nil by lia. cbn. by rewrite Z.add_0_r. }
  rewrite seqZ_cons by lia. replace (Z.pred (Z.of_nat (S n))) with (Z.of_nat n) by lia.
  cbn [for_upto]. rewrite Test_bit by (done || lia). cbn [bind].
  rewrite IH by (done || lia). rewrite filter_cons. replace (Z.succ i) with (i + 1) by lia.
  destruct (bit bm i); cbn [negb]; [by rewrite decide_False|].
  rewrite decide_True by done. cbn [length]. f_equal. lia.
Qed.

Lemma NumClear_spec bm : wf bm -> NumClear bm = Ret (Z.of_nat (length (clear_bits bm))).
Proof.
  intros Hwf. unfold NumClear, clear_bits. pose proof (wf_numBits bm Hwf).
  rewrite count_loop_spec by (done || lia). by rewrite <- seqZ_total.
Qed.

Lemma new_BitMap_spec nitems garbage : 0 <= nitems ->
  exists bm, new_BitMap nitems garbage = Ret bm /\ wf bm /\ numBits bm = nitems /\
    forall i, 0 <= i < nitems -> bit bm i = false.
Proof.
  intros Hn. unfold new_BitMap. pose proof (divRoundUp_nonneg nitems 32 Hn ltac:(lia)).
  set (bm0 := mkBitMap _ _ _).
  destruct (for_upto_inv
    (fun k bm => wf bm /\ numBits bm = nitems /\ forall i, 0 <= i < k -> bit bm i = false)
    0 (Z.to_nat nitems) (fun i bm => Clear bm i) bm0) as (bm & -> & Hwf & Hnb & Hz).
  - split; [|split; [done | intros; lia]]. split; cbn; [done | done | |].
    + rewrite length_fmap, length_seq. unfold BitsInWord in *. lia.
    + apply Forall_fmap, Forall_forall. intros x _. apply u32_range.
  - intros j bm Hj (Hwf & Hnb & Hz). destruct (Clear_spec bm j Hwf) as (bm' & -> & Hwf' & Hnb' & Hb); [lia|].
    eexists. split; [done|]. split; [done|]. split; [congruence|].
    intros i Hi. rewrite Hb by lia. destruct (Z.eqb_spec i j); [done|]. apply Hz. lia.
  - exists bm. do 2 (split; [done|]). split; [done|]. intros i Hi. apply Hz. lia.
Qed.

Lemma clear_bits_in bm i : i ∈ clear_bits bm <-> 0 <= i < numBits bm /\ bit bm i = false.
Proof. unfold clear_bits. rewrite list_elem_of_filter, elem_of_seqZ. naive_solver lia. Qed.

Lemma Find_allocates_least_spec bm :
  wf bm ->
  match clear_bits bm with
  | [] => Find bm = Ret (-1, bm)
  | i :: rest =>
      exists bm', Find bm = Ret (i, bm') /\ wf bm' /\ numBits bm' = numBits bm /\
        clear_bits bm' = rest /\ 0 <= i < numBits bm /\
        (forall j, 0 <= j -> bit bm' j = (j =? i) || bit bm j) /\
        (forall j, j ∈ clear_bits bm -> i <= j)
  end.
Proof.
  intros Hwf. pose proof (wf_numBits bm Hwf) as Hn. unfold Find.
  pose proof (Find_loop_spec bm 0 (Z.to_nat (numBits bm)) Hwf ltac:(lia) ltac:(lia)) as Hf.
  rewrite <- seqZ_total in Hf by done. fold (clear_bits bm) in Hf.
  revert Hf. destruct (clear_bits bm) as [|i rest] eqn:E; [done|]. intros Hf. rewrite <- E.
  destruct Hf as (Hi & Hbi & Hlt & -> & Hrest).
  destruct (Mark_spec bm i Hwf Hi) as (bm' & -> & Hwf' & Hnb & Hb). cbn.
  exists bm'. do 3 (split; [done|]). split; [|split; [done | split; [done|]]].
  - rewrite Hrest. unfold clear_bits. rewrite Hnb. apply filter_ext_in.
    intros j Hj%elem_of_seqZ. rewrite Hb by lia. destruct (Z.eqb_spec j i); naive_solver.
  - intros j [Hj Hbj]%clear_bits_in. destruct (Z.lt_ge_cases j i) as [Hji|]; [|done].
    rewrite Hlt in Hbj by lia. done.
Qed.

(** ** Properties *)

(** BitMap::Find is a least-first allocator. When no bit is clear it returns
    -1 and changes nothing; otherwise it returns the least clear index, marks
    that bit and no other, so that the clear indices left are exactly the rest.
    It returns on every well-formed map (no assertion fails, no word outside the
    array is touched). *)
Theorem Find_allocates_least bm :
  wf bm ->
  match clear_bits bm with
  | [] => Find bm = Ret (-1, bm)
  | i :: rest =>
      exists bm', Find bm = Ret (i, bm') /\ wf bm' /\ numBits bm' = numBits bm /\
        clear_bits bm' = rest /\ 0 <= i < numBits bm /\
        (forall j, 0 <= j -> bit bm' j = (j =? i) || bit bm j) /\
        (forall j, j ∈ clear_bits bm -> i <= j)
  end.
Proof. apply Find_allocates_least_spec. Qed.

Lemma NoDup_clear_bits bm : NoDup (clear_bits bm).
Proof. apply NoDup_filter, NoDup_seqZ. Qed.

(** BitMap::Clear undoes an allocation. Clearing an index that is marked
    makes it allocatable again and raises NumClear by one, whatever the state of
    the other bits; clearing the index that Find has just returned gives back
    exactly the previous clear indices. An index outside the map stops the
    process in Mark, Clear and Test alike. *)
Theorem Clear_frees bm i :
  wf bm ->
  (0 <= i < numBits bm -> bit bm i = true ->
     exists bm', Clear bm i = Ret bm' /\ wf bm' /\ i ∈ clear_bits bm' /\
       NumClear bm' = (let! n := NumClear bm in Ret (n + 1))) /\
  (forall j bm1, Find bm = Ret (j, bm1) -> j <> -1 ->
     exists bm2, Clear bm1 j = Ret bm2 /\ wf bm2 /\ clear_bits bm2 = clear_bits bm) /\
  (~ (0 <= i < numBits bm) -> Mark bm i = Abort /\ Clear bm i = Abort /\ Test bm i = Abort).
Proof.
  intros Hwf. split; [|split; [|by apply range_abort]].
  - intros Hi Hbi. destruct (Clear_spec bm i Hwf Hi) as (bm' & -> & Hwf' & Hnb & Hb).
    exists bm'. split; [done|]. split; [done|].
    assert (clear_bits bm' ≡ₚ i :: clear_bits bm) as Hp.
    { apply NoDup_Permutation; [apply NoDup_clear_bits | |].
      - constructor; [|apply NoDup_clear_bits]. rewrite clear_bits_in. intros [_ ?]. congruence.
      - intros j. rewrite elem_of_cons, !clear_bits_in, Hnb. split.
        + intros [Hj Hbj]. rewrite Hb in Hbj by lia.
          destruct (Z.eqb_spec j i); [by left | right; done].
        + intros [->|[Hj Hbj]]; (split; [done|]); rewrite Hb by lia.
          * by rewrite Z.eqb_refl.
          * by rewrite Hbj, andb_false_r. }
    split; [rewrite Hp; by left|].
    rewrite !NumClear_spec by done. cbn. rewrite (Permutation_length Hp). cbn. f_equal. lia.
  - intros j bm1 Hf Hj. pose proof (Find_allocates_least_spec bm Hwf) as Hs.
    destruct (clear_bits bm) as [|j0 rest] eqn:E; [congruence|].
    destruct Hs as (bm1' & Hf' & Hwf1 & Hnb1 & Hcb & Hj0 & Hb1 & _).
    rewrite Hf in Hf'. injection Hf' as -> <-.
    destruct (Clear_spec bm1 j0 Hwf1) as (bm2 & -> & Hwf2 & Hnb2 & Hb2); [lia|].
    exists bm2. split; [done|]. split; [done|]. rewrite <- E. unfold clear_bits.
    rewrite Hnb2, Hnb1. apply filter_ext_in. intros k Hk%elem_of_seqZ.
    rewrite Hb2, Hb1 by lia. destruct (Z.eqb_spec k j0) as [->|]; [|done].
    assert (j0 ∈ clear_bits bm) as Hin by (rewrite E; by left).
    apply clear_bits_in in Hin as [_ ->]. done.
Qed.

(** ** A concrete map *)

(** 40 bits over two words that held garbage. *)
Definition example_map : C BitMap := new_BitMap 40 (fun i => 3735928559 * Z.of_nat (S i)).

Example example_run :
  (let! bm := example_map in
   let! bm := Mark bm 0 in let! bm := Mark bm 1 in let! bm := Mark bm 33 in
   let! (i, bm) := Find bm in let! bm := Clear bm 0 in
   let! (j, bm) := Find bm in let! n := NumClear bm in let! out := Print bm in
   Ret (i, j, n, out)) = Ret (2, 0, 36, [0; 1; 2; 33]).
Proof. vm_compute. reflexivity. Qed.

Definition small_map : BitMap := mkBitMap 34 2 [1; 0].

Lemma small_map_wf : wf small_map.
Proof.
  split; [done | done | done |]. repeat constructor; done.
Qed.

Lemma Find_allocates_least_witness :
  exists bm', Find small_map = Ret (1, bm') /\ wf bm'.
Proof.
  destruct (Find_allocates_least small_map small_map_wf) as (bm' & Hf & Hwf & _).
  exists bm'. split; [exact Hf | exact Hwf].
Defined.

Lemma Clear_frees_witness :
  exists bm', Clear small_map 0 = Ret bm' /\ wf bm' /\ 0 ∈ clear_bits bm'.
Proof.
  destruct (proj1 (Clear_frees small_map 0 small_map_wf)) as (bm' & Hc & Hwf & Hin & _);
    [cbn; lia | reflexivity | exact (ex_intro _ bm' (conj Hc (conj Hwf Hin)))].
Defined.
