(* ===== verification/Table.v ===== *)
(** * Handle tables (userprog/table.h, class Table in userprog/addrspace.cc)

    The per-process table of open files: a bit map of the slots in use and an
    array of pointers. Its contract is a partial function from handles to
    pointers. The table lock brackets the bit map accesses of [Put] and [Remove];
    the operations are modelled as the calling thread runs them. *)

From S2P Require Import Prelude BitMap.

(** A [void *]: the address, 0 for [NULL]. *)
Definition NULL : Z := 0.

(** table.h, class Table. *)
Record Table := mkTable {
  slots : BitMap;      (* map *)
  table : list Z;
  size : Z
}.

(** [garbage] and [ptrs]: the content of the memory [new] returns. *)
Definition new_Table (s : Z) (garbage ptrs : nat -> Z) : C Table :=
  let! m := new_BitMap s garbage in
  Ret (mkTable m (ptrs <$> seq 0 (Z.to_nat s)) s).

Definition Get (T : Table) (i : Z) : C Z :=
  if (0 <=? i) && (i <? size T) then
    let! t := Test (slots T) i in
    if t then aref (table T) i else Ret NULL
  else Ret NULL.

Definition Put (T : Table) (f : Z) : C (Z * Table) :=
  let! (i, m) := Find (slots T) in
  if negb (i =? -1) then
    let! t := aset (table T) i f in Ret (i, mkTable m t (size T))
  else Ret (i, mkTable m (table T) (size T)).

Definition Remove (T : Table) (i : Z) : C (Z * Table) :=
  if (0 <=? i) && (i <? size T) then
    let! t := Test (slots T) i in
    if t then
      let! m := Clear (slots T) i in
      let! f := aref (table T) i in
      let! tab := aset (table T) i NULL in
      Ret (f, mkTable m tab (size T))
    else Ret (NULL, T)
  else Ret (NULL, T).

(** ** Contract *)

Record wf_table (T : Table) : Prop := {
  wf_slots : wf (slots T);
  wf_size : numBits (slots T) = size T;
  wf_table_length : Z.of_nat (length (table T)) = size T
}.

(** The pointer stored under a handle, [None] for a handle not in use. *)
Definition view (T : Table) (i : Z) : option Z :=
  if decide (0 <= i < size T) then
    if bit (slots T) i then table T !! Z.to_nat i else None
  else None.

Lemma in_size T i : (0 <=? i) && (i <? size T) = true <-> 0 <= i < size T.
Proof. rewrite andb_true_iff, Z.leb_le, Z.ltb_lt. done. Qed.

Lemma table_ref T i : wf_table T -> 0 <= i < size T ->
  exists p, table T !! Z.to_nat i = Some p /\ aref (table T) i = Ret p.
Proof.
  intros [_ _ Hl] Hi. destruct (aref_in (table T) i) as [p Hp]; [lia|].
  exists p. split; [|done]. by apply aref_Ret in Hp as [_ ?].
Qed.

Lemma view_out T i : ~ (0 <= i < size T) -> view T i = None.
Proof. intros. unfold view. by rewrite decide_False. Qed.

Lemma Get_view T i : wf_table T -> Get T i = Ret (default NULL (view T i)).
Proof.
  intros Hwf. unfold Get. destruct (decide (0 <= i < size T)) as [Hi|Hi].
  - rewrite (proj2 (in_size T i) Hi). pose proof Hwf as [Hs Hn Hl].
    rewrite Test_bit by (done || lia). cbn. unfold view. rewrite decide_True by done.
    destruct (bit (slots T) i); [|done].
    by destruct (table_ref T i Hwf Hi) as (p & -> & ->).
  - rewrite view_out by done.
    destruct ((0 <=? i) && (i <? size T)) eqn:E; [|done]. by apply in_size in E.
Qed.

Lemma view_update T m tab i b p :
  wf_table T -> wf m -> numBits m = size T -> 0 <= i < size T ->
  (forall j, 0 <= j -> bit m j = if j =? i then b else bit (slots T) j) ->
  tab = <[Z.to_nat i := p]> (table T) ->
  let T' := mkTable m tab (size T) in
  wf_table T' /\
  forall j, view T' j = if decide (j = i) then (if b then Some p else None) else view T j.
Proof.
  intros [Hs Hn Hl] Hm Hnm Hi Hb -> T'. split.
  - split; [done | done |]. unfold T'. cbn. by rewrite length_insert.
  - intros j. unfold view. cbn. destruct (decide (j = i)) as [->|Hne].
    + rewrite decide_True, Hb, Z.eqb_refl by lia. destruct b; [|done].
      apply list_lookup_insert_eq. lia.
    + case_decide as Hj; [|done]. rewrite Hb by lia.
      destruct (Z.eqb_spec j i); [done|]. destruct (bit (slots T) j); [|done].
      apply list_lookup_insert_ne. lia.
Qed.

Lemma slot_in_use T j : wf_table T -> 0 <= j < size T -> bit (slots T) j = true -> is_Some (view T j).
Proof.
  intros [_ _ Hl] Hj Hb. unfold view. rewrite decide_True, Hb by done. apply lookup_lt_is_Some. lia.
Qed.

Lemma Put_spec T f :
  wf_table T ->
  exists h T', Put T f = Ret (h, T') /\ wf_table T' /\ size T' = size T /\
    if decide (h = -1) then T' = T /\ forall j, 0 <= j < size T -> is_Some (view T j)
    else 0 <= h < size T /\ view T h = None /\
      (forall j, 0 <= j < h -> is_Some (view T j)) /\
      forall j, view T' j = if decide (j = h) then Some f else view T j.
Proof.
  intros Hwf. pose proof Hwf as [Hs Hn Hl]. unfold Put.
  pose proof (Find_allocates_least_spec (slots T) Hs) as Hf.
  destruct (clear_bits (slots T)) as [|h rest] eqn:E.
  - rewrite Hf. cbn. exists (-1), T. split; [by destruct T|]. do 2 (split; [done|]).
    rewrite decide_True by done. split; [done|]. intros j Hj. apply slot_in_use; [done..|].
    destruct (bit (slots T) j) eqn:Hb; [done|].
    assert (j ∈ clear_bits (slots T)) as Hin by (apply clear_bits_in; rewrite Hn; done).
    rewrite E in Hin. by apply not_elem_of_nil in Hin.
  - destruct Hf as (m & -> & Hwm & Hnm & _ & Hh & Hb & Hmin). cbn.
    destruct (Z.eqb_spec h (-1)) as [|_]; [lia|]. cbn.
    rewrite aset_in by lia. cbn. exists h. eexists. split; [done|].
    assert (bit (slots T) h = false) as Hbh.
    { assert (h ∈ clear_bits (slots T)) as Hin by (rewrite E; by left).
      by apply clear_bits_in in Hin as [_ ?]. }
    destruct (view_update T m (<[Z.to_nat h := f]> (table T)) h true f Hwf Hwm) as [Hwf' Hv];
      [lia | lia | | done |].
    { intros j Hj. rewrite Hb by done. by destruct (j =? h). }
    split; [exact Hwf'|]. split; [done|]. rewrite decide_False by lia.
    split; [lia|]. split; [unfold view; by rewrite decide_True, Hbh by lia|].
    split; [|exact Hv]. intros j Hj. apply slot_in_use; [done | lia|].
    destruct (bit (slots T) j) eqn:Hbj; [done|].
    assert (h <= j); [|lia]. apply Hmin. rewrite <- E. apply clear_bits_in. split; [lia | done].
Qed.

Lemma Remove_spec T i :
  wf_table T ->
  exists T', Remove T i = Ret (default NULL (view T i), T') /\ wf_table T' /\
    size T' = size T /\ forall j, view T' j = if decide (j = i) then None else view T j.
Proof.
  intros Hwf. pose proof Hwf as [Hs Hn Hl]. unfold Remove. destruct (decide (0 <= i < size T)) as [Hi|Hi].
  - rewrite (proj2 (in_size T i) Hi), Test_bit by (done || lia). cbn.
    destruct (bit (slots T) i) eqn:Hbi.
    + destruct (Clear_spec (slots T) i Hs ltac:(lia)) as (m & -> & Hwm & Hnm & Hb).
      destruct (table_ref T i Hwf Hi) as (p & Hp & ->). cbn. rewrite aset_in by lia. cbn.
      destruct (view_update T m (<[Z.to_nat i := NULL]> (table T)) i false NULL Hwf Hwm) as [Hwf' Hv];
        [lia | done | | done |].
      { intros j Hj. rewrite Hb by done. by destruct (j =? i). }
      eexists. split; [|split; [exact Hwf' | split; [done | exact Hv]]].
      unfold view. by rewrite decide_True, Hbi, Hp by done.
    + exists T. assert (view T i = None) as Hv by (unfold view; by rewrite decide_True, Hbi).
      rewrite Hv. do 3 (split; [done|]). intros j. by case_decide as Hj; [subst|].
  - destruct ((0 <=? i) && (i <? size T)) eqn:E; [by apply in_size in E|].
    exists T. rewrite view_out by done. do 3 (split; [done|]).
    intros j. by case_decide as Hj; [subst; rewrite view_out|].
Qed.

(** class Table implements a partial function from handles to pointers. On a
    well-formed table, Get returns the pointer stored under the handle and NULL
    for any other integer; Put returns -1 and changes nothing when every slot is
    in use, and otherwise stores the pointer under the least unused handle and
    touches no other; Remove returns the pointer stored under the handle (NULL
    for a handle not in use or out of range), forgets it and touches no other.
    The invariant is kept, and no operation can fail. *)
Theorem Table_implements_map T f i :
  wf_table T ->
  Get T i = Ret (default NULL (view T i)) /\
  (exists h T', Put T f = Ret (h, T') /\ wf_table T' /\ size T' = size T /\
     if decide (h = -1) then T' = T /\ forall j, 0 <= j < size T -> is_Some (view T j)
     else 0 <= h < size T /\ view T h = None /\
       (forall j, 0 <= j < h -> is_Some (view T j)) /\
       forall j, view T' j = if decide (j = h) then Some f else view T j) /\
  (exists T', Remove T i = Ret (default NULL (view T i), T') /\ wf_table T' /\
     size T' = size T /\ forall j, view T' j = if decide (j = i) then None else view T j).
Proof. intros. split; [by apply Get_view|]. split; [by apply Put_spec | by apply Remove_spec]. Qed.

Lemma new_Table_spec s garbage ptrs : 0 <= s ->
  exists T, new_Table s garbage ptrs = Ret T /\ wf_table T /\ size T = s /\ forall i, view T i = None.
Proof.
  intros Hs. unfold new_Table. destruct (new_BitMap_spec s garbage Hs) as (m & -> & Hwf & Hn & Hb).
  cbn. eexists. split; [done|]. split; [|split; [done|]].
  - split; cbn; [done | done |]. rewrite length_fmap, length_seq. lia.
  - intros i. unfold view. cbn. case_decide; [|done]. by rewrite Hb.
Qed.

Example table_example :
  (let! T := new_Table 3 (fun _ => 255) (fun _ => 77) in
   let! (a, T) := Put T 0 in let! (b, T) := Put T 0 in let! (c, T) := Put T 1000 in
   let! (d, T) := Put T 2000 in let! p := Get T 2 in let! (q, T) := Remove T 1 in
   let! (e, T) := Put T 3000 in let! r := Get T 1 in
   Ret (a, b, c, d, p, q, e, r)) = Ret (0, 1, 2, -1, 1000, 0, 1, 3000).
Proof. vm_compute. reflexivity. Qed.

Lemma Table_implements_map_witness :
  exists T, new_Table 3 (fun _ => 255) (fun _ => 77) = Ret T /\ Get T 1 = Ret NULL.
Proof.
  destruct (new_Table_spec 3 (fun _ => 255) (fun _ => 77) ltac:(lia)) as (T & HT & Hwf & _ & Hv).
  exists T. split; [exact HT|]. rewrite (proj1 (Table_implements_map T 5 1 Hwf)). rewrite (Hv 1). reflexivity.
Defined.
