(* ===== verification/Interrupt.v ===== *)
(** * Hardware interrupts and simulated time (machine/interrupt.h, interrupt.cc,
      machine/stats.h, stats.cc)

    The interrupt hardware owns the clock: it advances simulated time, keeps the
    interrupts that devices have scheduled in a list sorted by due time, and calls
    their handlers. The handlers (timer, disk, console, network) and the rest of
    the kernel are a client: the class [Devices] gives their code, the class
    [DeviceLaws] what the hardware relies on, namely that a handler schedules only
    into the future and leaves the clock and the interrupt state alone. *)

From S2P Require Import Prelude NachosList.
From Stdlib Require Import Sorted.

(** stats.h. *)
Definition UserTick : Z := 1.
Definition SystemTick : Z := 10.
Definition RotationTime : Z := 500.
Definition SeekTime : Z := 500.
Definition ConsoleTime : Z := 100.
Definition NetworkTime : Z := 100.
Definition TimerTicks : Z := 100.

Record Statistics := mkStats {
  totalTicks : Z; idleTicks : Z; systemTicks : Z; userTicks : Z;
  numDiskReads : Z; numDiskWrites : Z;
  numConsoleCharsRead : Z; numConsoleCharsWritten : Z;
  numPageFaults : Z; numPacketsSent : Z; numPacketsRecvd : Z
}.

Definition new_Statistics : Statistics := mkStats 0 0 0 0 0 0 0 0 0 0 0.

(** interrupt.h. *)
Inductive IntStatus := IntOff | IntOn.
Inductive MachineStatus := IdleMode | SystemMode | UserMode.
Inductive IntType :=
  TimerInt | DiskInt | ConsoleWriteInt | ConsoleReadInt | NetworkSendInt | NetworkRecvInt.

#[export] Instance IntStatus_eq_dec : EqDecision IntStatus.
Proof. solve_decision. Defined.
#[export] Instance MachineStatus_eq_dec : EqDecision MachineStatus.
Proof. solve_decision. Defined.
#[export] Instance IntType_eq_dec : EqDecision IntType.
Proof. solve_decision. Defined.

Record PendingInterrupt (H : Type) := mkPending {
  handler : H; arg : Z; when : Z; type : IntType
}.
Arguments mkPending {H} _ _ _ _.
Arguments handler {H} _.
Arguments arg {H} _.
Arguments when {H} _.
Arguments type {H} _.

(** The members of class Interrupt, and the global [stats] it maintains. *)
Record IState (H : Type) := mkIState {
  level : IntStatus;
  pending : list (Z * PendingInterrupt H);
  inHandler : bool;
  yieldOnReturn : bool;
  status : MachineStatus;
  stats : Statistics
}.
Arguments mkIState {H} _ _ _ _ _ _.
Arguments level {H} _.
Arguments pending {H} _.
Arguments inHandler {H} _.
Arguments yieldOnReturn {H} _.
Arguments status {H} _.
Arguments stats {H} _.

Section Hardware.
Context {H : Type}.
Implicit Types (s : IState H) (p : PendingInterrupt H).

Definition new_Interrupt (st : Statistics) : IState H :=
  mkIState IntOff [] false false SystemMode st.

Definition set_level l s := mkIState l (pending s) (inHandler s) (yieldOnReturn s) (status s) (stats s).
Definition set_pending (q : list (Z * PendingInterrupt H)) s := mkIState (level s) q (inHandler s) (yieldOnReturn s) (status s) (stats s).
Definition set_inHandler b s := mkIState (level s) (pending s) b (yieldOnReturn s) (status s) (stats s).
Definition set_yield b s := mkIState (level s) (pending s) (inHandler s) b (status s) (stats s).
Definition setStatus st s := mkIState (level s) (pending s) (inHandler s) (yieldOnReturn s) st (stats s).
Definition set_stats st s := mkIState (level s) (pending s) (inHandler s) (yieldOnReturn s) (status s) st.

Definition now s : Z := totalTicks (stats s).

Definition set_ticks (total idle sys user : Z) (st : Statistics) : Statistics :=
  mkStats total idle sys user (numDiskReads st) (numDiskWrites st) (numConsoleCharsRead st)
    (numConsoleCharsWritten st) (numPageFaults st) (numPacketsSent st) (numPacketsRecvd st).

(** [stats->totalTicks += n] with the user or the system counter. *)
Definition add_system n s :=
  let st := stats s in
  set_stats (set_ticks (totalTicks st + n) (idleTicks st) (systemTicks st + n) (userTicks st) st) s.
Definition add_user n s :=
  let st := stats s in
  set_stats (set_ticks (totalTicks st + n) (idleTicks st) (systemTicks st) (userTicks st + n) st) s.
Definition idle_until t s :=
  let st := stats s in
  set_stats (set_ticks t (idleTicks st + (t - totalTicks st)) (systemTicks st) (userTicks st) st) s.

Definition ChangeLevel (old new : IntStatus) s : IState H := set_level new s.

Definition YieldOnReturn s : C (IState H) :=
  let! _ := ASSERT (inHandler s) in Ret (set_yield true s).

Definition Schedule (h : H) (a : Z) (fromNow : Z) (ty : IntType) s : C (IState H) :=
  let w := now s + fromNow in
  let toOccur := mkPending h a w ty in
  let! _ := ASSERT (0 <? fromNow) in
  Ret (set_pending (Seq.SortedInsert toOccur w (pending s)) s).
End Hardware.

Arguments now : simpl never.

(** ** The client *)

Class Devices (H W : Type) := {
  (** [( *handler)(arg)] *)
  call : H -> Z -> IState H * W -> C (IState H * W);
  (** [machine->DelayedLoad(0, 0)], when there is a machine *)
  delayed_load : W -> W;
  (** [currentThread->Yield()] *)
  yield : IState H * W -> C (IState H * W)
}.

(** What a handler may do to the hardware: schedule interrupts in the future, and
    ask for a context switch. *)
Definition schedules {H} (s s' : IState H) : Prop :=
  (exists news, Forall (fun p => now s < when p) news /\
     pending s' = fold_left (fun q p => Seq.SortedInsert p (when p) q) news (pending s)) /\
  totalTicks (stats s') = totalTicks (stats s) /\ idleTicks (stats s') = idleTicks (stats s) /\
  systemTicks (stats s') = systemTicks (stats s) /\ userTicks (stats s') = userTicks (stats s) /\
  level s' = level s /\ inHandler s' = inHandler s /\ status s' = status s.

Class DeviceLaws (H W : Type) `{Devices H W} :=
  call_schedules : forall h a s w s' w',
    inHandler s = true -> level s = IntOff ->
    call h a (s, w) = Ret (s', w') -> schedules s s'.

Section Clock.
Context {H W : Type} `{!Devices H W}.
Implicit Types (s : IState H) (w : W) (p : PendingInterrupt H).

(** The part of CheckIfDue that runs the handler of [p]. *)
Definition fire p '((s, w) : IState H * W) : C (IState H * W) :=
  let old := status s in
  let w := delayed_load w in
  let s := setStatus SystemMode (set_inHandler true s) in
  let! (s, w) := call (handler p) (arg p) (s, w) in
  Ret (set_inHandler false (setStatus old s), w).

Definition CheckIfDue (advanceClock : bool) '((s, w) : IState H * W) : C (bool * (IState H * W)) :=
  let! _ := ASSERT (bool_decide (level s = IntOff)) in
  match Seq.SortedRemove (pending s) with
  | (None, _) => Ret (false, (s, w))
  | (Some (t, toOccur), q) =>
      let late := (t <=? now s) in
      let s := set_pending q s in
      if negb advanceClock && negb late then
        Ret (false, (set_pending (Seq.SortedInsert toOccur t (pending s)) s, w))
      else
        let s := if advanceClock && negb late then idle_until t s else s in
        if bool_decide (status s = IdleMode) && bool_decide (type toOccur = TimerInt)
           && Seq.IsEmpty (pending s)
        then Ret (false, (set_pending (Seq.SortedInsert toOccur t (pending s)) s, w))
        else let! sw := fire toOccur (s, w) in Ret (true, sw)
  end.

(** [while (CheckIfDue(FALSE)) ;] *)
Fixpoint drain (fuel : nat) (sw : IState H * W) : C (IState H * W) :=
  match fuel with
  | O => Undef
  | S fuel =>
      let! (b, sw) := CheckIfDue false sw in
      if (b : bool) then drain fuel sw else Ret sw
  end.

(** The interrupts whose time has come. *)
Definition due s : list (Z * PendingInterrupt H) :=
  filter (fun e => fst e <= now s) (pending s).

(** The fuel is one iteration per due interrupt, and the last one. *)
Definition drain_all (sw : IState H * W) : C (IState H * W) := drain (S (length (due sw.1))) sw.

Definition advance_time s : IState H :=
  if decide (status s = SystemMode) then add_system SystemTick s else add_user UserTick s.

(** OneTick up to the re-enabling of interrupts. *)
Definition tick '((s, w) : IState H * W) : C (IState H * W) :=
  let s := advance_time s in
  let s := ChangeLevel IntOn IntOff s in
  let! (s, w) := drain_all (s, w) in
  Ret (ChangeLevel IntOff IntOn s, w).

Definition OneTick (sw : IState H * W) : C (IState H * W) :=
  let old := status sw.1 in
  let! (s, w) := tick sw in
  if yieldOnReturn s then
    let s := setStatus SystemMode (set_yield false s) in
    let! (s, w) := yield (s, w) in
    Ret (setStatus old s, w)
  else Ret (s, w).

Definition SetLevel (new : IntStatus) '((s, w) : IState H * W) : C (IntStatus * (IState H * W)) :=
  let old := level s in
  let! _ := ASSERT (bool_decide (new = IntOff) || negb (inHandler s)) in
  let s := ChangeLevel old new s in
  let! sw := (if bool_decide (new = IntOn) && bool_decide (old = IntOff)
              then OneTick (s, w) else Ret (s, w)) in
  Ret (old, sw).

Definition Enable (sw : IState H * W) : C (IState H * W) :=
  let! (_, sw) := SetLevel IntOn sw in Ret sw.

(** [false]: the machine halts (Interrupt::Halt does not return). *)
Definition Idle '((s, w) : IState H * W) : C (bool * (IState H * W)) :=
  let s := setStatus IdleMode s in
  let! (b, sw) := CheckIfDue true (s, w) in
  if (b : bool) then
    let! (s, w) := drain_all sw in
    Ret (true, (setStatus SystemMode (set_yield false s), w))
  else Ret (false, sw).
End Clock.

(** ** Lemmas *)

Section ClockFacts.
Context {H W : Type} `{!Devices H W} `{!DeviceLaws H W}.
Implicit Types (s : IState H) (w : W) (p : PendingInterrupt H) (sw : IState H * W).

(** Each list element is filed under its own due time, and the list is sorted. *)
Record wf_pending s : Prop := {
  wf_sorted : Seq.sorted (pending s);
  wf_keys : Forall (fun e => fst e = when (snd e)) (pending s)
}.

(** The clock is the sum of its three parts. *)
Definition balanced s : Prop :=
  totalTicks (stats s) = idleTicks (stats s) + systemTicks (stats s) + userTicks (stats s).

(** Nothing that should have happened is still pending. *)
Definition nothing_due s : Prop := Forall (fun e => now s < fst e) (pending s).

Lemma wf_insert p q :
  Seq.sorted q -> Forall (fun e => fst e = when (snd e)) q ->
  Seq.sorted (Seq.SortedInsert p (when p) q) /\
  Forall (fun e : Z * PendingInterrupt H => fst e = when (snd e)) (Seq.SortedInsert p (when p) q).
Proof.
  intros Hs Hk. split; [by apply Seq.SortedInsert_sorted|].
  rewrite Seq.SortedInsert_Permutation. by constructor.
Qed.

Lemma wf_schedules s s' : wf_pending s -> schedules s s' -> wf_pending s'.
Proof.
  intros [Hs Hk] ((news & _ & Hp) & _). 
  assert (Seq.sorted (pending s') /\ Forall (fun e => fst e = when (snd e)) (pending s')) as [? ?];
    [|by split].
  rewrite Hp. clear Hp. revert Hs Hk. generalize (pending s). induction news as [|p news IH]; intros q Hs Hk; [done|].
  cbn. by apply IH; apply wf_insert.
Qed.

Lemma filter_due_insert (t : Z) p q : t < when p ->
  filter (fun e : Z * PendingInterrupt H => fst e <= t) (Seq.SortedInsert p (when p) q) =
  filter (fun e => fst e <= t) q.
Proof.
  intros Ht. induction q as [|[k p'] q IH]; cbn [Seq.SortedInsert].
  - rewrite filter_cons_False; [done|]. cbn. lia.
  - destruct (Z.ltb_spec (when p) k).
    + rewrite filter_cons_False; [done|]. cbn. lia.
    + rewrite !filter_cons, IH. done.
Qed.

(** Handlers add nothing to what is due. *)
Lemma due_schedules s s' : schedules s s' -> due s' = due s.
Proof.
  intros ((news & Hn & Hp) & Ht & _). unfold due, now. rewrite Ht, Hp. clear Hp.
  revert Hn. generalize (pending s). induction news as [|p news IH]; intros q Hn; [done|].
  apply Forall_cons in Hn as [Hp Hn]. cbn. rewrite IH by done. by apply filter_due_insert.
Qed.

(** Firing an interrupt whose element was taken off the list. *)
Lemma fire_schedules p s w s' w' :
  level s = IntOff -> inHandler s = false -> fire p (s, w) = Ret (s', w') -> schedules s s'.
Proof.
  intros Hl Hi Hf. unfold fire in Hf. apply bind_Ret in Hf as ([s1 w1] & Hc & Hr).
  apply call_schedules in Hc; [|done|done]. injection Hr as <- <-.
  destruct Hc as (Hp & H1 & H2 & H3 & H4 & H5 & H6 & H7). cbn in *.
  repeat split; try done; by rewrite ?Hi.
Qed.

Lemma sorted_due_head (t : Z) (e : Z * PendingInterrupt H) q :
  Seq.sorted (e :: q) -> t < fst e -> filter (fun e => fst e <= t) (e :: q) = [].
Proof.
  intros Hs Ht. inversion_clear Hs as [|? ? Hs' Hall]. apply filter_none.
  constructor; [lia|]. eapply Forall_impl; [exact Hall|]. cbn. lia.
Qed.

(** Reference: run the handlers of a list of interrupts, first to last. *)
Fixpoint fire_all (ps : list (Z * PendingInterrupt H)) sw : C (IState H * W) :=
  match ps with
  | [] => Ret sw
  | e :: ps => let! sw := fire (snd e) (let '(s, w) := sw in (set_pending (tail (pending s)) s, w)) in
               fire_all ps sw
  end.

(** The clock, the level and the handler flag do not move while handlers run. *)
Definition steady s s' : Prop :=
  totalTicks (stats s') = totalTicks (stats s) /\ idleTicks (stats s') = idleTicks (stats s) /\
  systemTicks (stats s') = systemTicks (stats s) /\ userTicks (stats s') = userTicks (stats s) /\
  level s' = level s /\ inHandler s' = inHandler s /\ status s' = status s.

Lemma steady_refl s : steady s s.
Proof. by repeat split. Qed.

Lemma steady_trans s1 s2 s3 : steady s1 s2 -> steady s2 s3 -> steady s1 s3.
Proof. intros (?&?&?&?&?&?&?) (?&?&?&?&?&?&?). repeat split; congruence. Qed.

Lemma schedules_steady s s' : schedules s s' -> steady s s'.
Proof. by intros [_ Hs]. Qed.

Lemma CheckIfDue_not_due s w :
  level s = IntOff -> wf_pending s -> due s = [] ->
  exists q, CheckIfDue false (s, w) = Ret (false, (set_pending q s, w)) /\ q ≡ₚ pending s /\
    wf_pending (set_pending q s).
Proof.
  intros Hl [Hs Hk] Hd. cbn. rewrite bool_decide_true by done. cbn.
  destruct (pending s) as [|[t p] q] eqn:E; cbn.
  { exists []. split; [|by repeat constructor]. destruct s; cbn in *. by subst. }
  unfold due in Hd. rewrite E in Hd.
  destruct (Z.leb_spec t (now s)) as [Hle|Hgt].
  { rewrite filter_cons_True in Hd by done. done. }
  cbn. eexists. split; [done|]. apply Forall_cons in Hk as [Ht Hk]. cbn in Ht. subst t.
  inversion_clear Hs as [|? ? Hs' _].
  split; [by rewrite Seq.SortedInsert_Permutation|]. by destruct (wf_insert p q Hs' Hk).
Qed.

Lemma CheckIfDue_due s w e q :
  level s = IntOff -> status s <> IdleMode -> pending s = e :: q -> fst e <= now s ->
  CheckIfDue false (s, w) = (let! sw := fire (snd e) (set_pending q s, w) in Ret (true, sw)).
Proof.
  intros Hl Hst Hp He. destruct e as [t p]. cbn in He |- *. rewrite bool_decide_true by done.
  rewrite Hp. cbn. rewrite (proj2 (Z.leb_le t (now s)) He). cbn.
  by rewrite (bool_decide_false (status s = IdleMode)).
Qed.

Lemma due_cons s e d : wf_pending s -> due s = e :: d ->
  exists q, pending s = e :: q /\ fst e <= now s /\ due (set_pending q s) = d /\
    wf_pending (set_pending q s).
Proof.
  intros [Hs Hk] Hd. unfold due in Hd. destruct (pending s) as [|e' q] eqn:E; [done|].
  destruct (decide (fst e' <= now s)) as [Hle|Hgt].
  - rewrite filter_cons_True in Hd by done. injection Hd as <- Hd. exists q.
    do 3 (split; [done|]). inversion_clear Hs. inversion_clear Hk. done.
  - rewrite sorted_due_head in Hd by (done || lia). done.
Qed.

Lemma steady_set_pending q s : steady s (set_pending q s).
Proof. by repeat split. Qed.

(** One handler of the due prefix. *)
Lemma fire_due_head s w (e : Z * PendingInterrupt H) d q s' w' :
  level s = IntOff -> inHandler s = false -> wf_pending (set_pending q s) ->
  due (set_pending q s) = d -> fire (snd e) (set_pending q s, w) = Ret (s', w') ->
  steady s s' /\ wf_pending s' /\ due s' = d.
Proof.
  intros Hl Hi Hwf Hd Hf. apply fire_schedules in Hf; [|done|done]. split; [|split].
  - eapply steady_trans; [apply (steady_set_pending q)|]. by apply schedules_steady.
  - by eapply wf_schedules.
  - by erewrite due_schedules.
Qed.

Lemma fire_all_post d s w s1 w1 :
  due s = d -> level s = IntOff -> inHandler s = false -> wf_pending s ->
  fire_all d (s, w) = Ret (s1, w1) -> steady s s1 /\ wf_pending s1 /\ due s1 = [].
Proof.
  revert s w. induction d as [|e d IH]; intros s w Hd Hl Hi Hwf Hf; cbn in Hf.
  { injection Hf as <- <-. split; [apply steady_refl | done]. }
  destruct (due_cons s e d Hwf Hd) as (q & Hp & _ & Hdq & Hwfq). rewrite Hp in Hf. cbn in Hf.
  apply bind_Ret in Hf as ([s' w'] & Hfire & Hf).
  destruct (fire_due_head s w e d q s' w' Hl Hi Hwfq Hdq Hfire) as (Hst & Hwf' & Hd').
  pose proof Hst as (_ & _ & _ & _ & Hl' & Hi' & _).
  destruct (IH s' w' Hd') as (Hst' & ? & ?); [congruence | congruence | done | done |].
  split; [by eapply steady_trans | done].
Qed.

(** The loop of OneTick runs exactly the due interrupts, first to last, and leaves
    the others pending; any larger fuel gives the same result. *)
Lemma drain_fire_all d fuel s w :
  due s = d -> level s = IntOff -> inHandler s = false -> status s <> IdleMode -> wf_pending s ->
  (length d < fuel)%nat ->
  match fire_all d (s, w) with
  | Ret (s1, w1) =>
      exists q, drain fuel (s, w) = Ret (set_pending q s1, w1) /\ q ≡ₚ pending s1 /\
        wf_pending (set_pending q s1)
  | Abort => drain fuel (s, w) = Abort
  | Undef => drain fuel (s, w) = Undef
  end.
Proof.
  revert fuel s w. induction d as [|e d IH]; intros fuel s w Hd Hl Hi Hst Hwf Hfuel;
    (destruct fuel as [|fuel]; [cbn in Hfuel; lia|]).
  { cbn [fire_all drain]. destruct (CheckIfDue_not_due s w Hl Hwf Hd) as (q & -> & Hq & Hwq).
    cbn. by exists q. }
  destruct (due_cons s e d Hwf Hd) as (q & Hp & Hle & Hdq & Hwfq).
  cbn [fire_all drain]. rewrite (CheckIfDue_due s w e q) by done. rewrite Hp. cbn [tail].
  destruct (fire (snd e) (set_pending q s, w)) as [[s' w']| |] eqn:Hf; [|done|done]. cbn [bind].
  destruct (fire_due_head s w e d q s' w' Hl Hi Hwfq Hdq Hf) as (Hst' & Hwf' & Hd').
  pose proof Hst' as (_ & _ & _ & _ & Hl' & Hi' & Hs').
  apply IH; [done | congruence | congruence | congruence | done |]. cbn in Hfuel. lia.
Qed.

(** More fuel than due interrupts does not change the result. *)
Lemma drain_enough d f1 f2 s w :
  due s = d -> level s = IntOff -> inHandler s = false -> status s <> IdleMode -> wf_pending s ->
  (length d < f1)%nat -> (length d < f2)%nat -> drain f1 (s, w) = drain f2 (s, w).
Proof.
  revert f1 f2 s w. induction d as [|e d IH]; intros f1 f2 s w Hd Hl Hi Hst Hwf H1 H2;
    (destruct f1 as [|f1]; [cbn in H1; lia|]); (destruct f2 as [|f2]; [cbn in H2; lia|]);
    cbn [drain].
  { by destruct (CheckIfDue_not_due s w Hl Hwf Hd) as (q & -> & _). }
  destruct (due_cons s e d Hwf Hd) as (q & Hp & Hle & Hdq & Hwfq).
  rewrite (CheckIfDue_due s w e q) by done.
  destruct (fire (snd e) (set_pending q s, w)) as [[s' w']| |] eqn:Hf; [|done|done]. cbn [bind].
  destruct (fire_due_head s w e d q s' w' Hl Hi Hwfq Hdq Hf) as ((_&_&_&_&?&?&?) & Hwf' & Hd').
  cbn in H1, H2. apply IH; [done | congruence | congruence | congruence | done | lia | lia].
Qed.

Lemma nothing_due_nil s : due s = [] <-> nothing_due s.
Proof.
  unfold due, nothing_due. split.
  - intros Hd. apply Forall_forall. intros e He.
    destruct (Z.lt_ge_cases (now s) (fst e)); [done|].
    by destruct (filter_nil_not_elem_of _ _ e Hd).
  - intros Hn. apply filter_none. eapply Forall_impl; [exact Hn|]. cbn. lia.
Qed.

Lemma steady_now s s' : steady s s' -> now s' = now s.
Proof. by intros [? _]. Qed.

Lemma advance_time_now s :
  now s < now (advance_time s) <= now s + SystemTick.
Proof. unfold advance_time, now, SystemTick, UserTick. case_decide; cbn; lia. Qed.

Lemma advance_time_balanced s : balanced s -> balanced (advance_time s).
Proof. unfold balanced, advance_time. case_decide; cbn; lia. Qed.

(** The rest of the state after the clock has moved. *)
Lemma advance_time_rest s :
  pending (advance_time s) = pending s /\ inHandler (advance_time s) = inHandler s /\
  status (advance_time s) = status s.
Proof. unfold advance_time. by case_decide. Qed.

(** ** Properties *)

(** Interrupt::OneTick up to the point where it re-enables interrupts. From a
    state where interrupts are on, no handler runs and nothing is overdue, it
    advances the clock by one user or system tick, runs the handlers of exactly
    the interrupts that became due, in order of their due times, each of them late
    by less than a system tick, and returns with interrupts on, nothing overdue,
    the pending list sorted and the clock equal to the sum of its parts. With the
    due handlers returning, the loop always ends. *)
Theorem OneTick_fires_due s w :
  wf_pending s -> balanced s -> nothing_due s ->
  inHandler s = false -> status s <> IdleMode ->
  let s0 := ChangeLevel IntOn IntOff (advance_time s) in
  match fire_all (due s0) (s0, w) with
  | Ret (s1, w1) =>
      exists s2, tick (s, w) = Ret (s2, w1) /\ pending s2 ≡ₚ pending s1 /\
        level s2 = IntOn /\ inHandler s2 = false /\ status s2 = status s /\
        now s < now s2 <= now s + SystemTick /\
        nothing_due s2 /\ wf_pending s2 /\ balanced s2
  | Abort => tick (s, w) = Abort
  | Undef => tick (s, w) = Undef
  end /\
  (forall e, e ∈ due s0 <-> e ∈ pending s /\ now s < fst e <= now s0) /\
  (forall fuel, (length (due s0) < fuel)%nat -> drain fuel (s0, w) = drain_all (s0, w)).
Proof.
  intros Hwf Hbal Hnd Hi Hst s0.
  destruct (advance_time_rest s) as (Hp0 & Hi0 & Hs0).
  assert (wf_pending s0) as Hwf0 by (destruct Hwf; split; cbn; by rewrite Hp0).
  assert (inHandler s0 = false /\ status s0 <> IdleMode) as [Hi1 Hst1] by (cbn; split; congruence).
  pose proof (fun fuel => drain_fire_all (due s0) fuel s0 w eq_refl eq_refl Hi1 Hst1 Hwf0) as Hdrain.
  split; [|split].
  - unfold tick. fold s0. unfold drain_all. specialize (Hdrain (S (length (due s0))) ltac:(lia)).
    cbn [fst]. destruct (fire_all (due s0) (s0, w)) as [[s1 w1]| |] eqn:Hf;
      [|by rewrite Hdrain | by rewrite Hdrain].
    destruct Hdrain as (q & -> & Hq & Hwq). cbn [bind].
    destruct (fire_all_post _ s0 w s1 w1 eq_refl eq_refl Hi1 Hwf0 Hf) as (Hsteady & _ & Hdue).
    pose proof Hsteady as (Ht & Hidle & Hsys & Husr & _ & Hi2 & Hst2).
    eexists. split; [done|]. split; [done|]. split; [done|].
    split; [by rewrite <- Hi1|]. split; [by rewrite <- Hs0|]. split.
    { unfold now at 2 3. cbn. rewrite Ht. apply (advance_time_now s). }
    split; [|split; [by destruct Hwq|]].
    + apply nothing_due_nil in Hdue. unfold nothing_due in *. cbn. by rewrite Hq.
    + apply advance_time_balanced in Hbal. unfold balanced in *. cbn in *. congruence.
  - intros e. unfold due. rewrite list_elem_of_filter. cbn [pending s0 ChangeLevel set_level].
    rewrite Hp0. unfold nothing_due in Hnd. rewrite Forall_forall in Hnd. split.
    + intros [Hle Hin]. split; [done|]. split; [by apply Hnd | done].
    + intros [Hin [_ Hle]]. done.
  - intros fuel Hfuel. unfold drain_all. apply (drain_enough (due s0)); [done..|]. cbn [fst]. lia.
Qed.

(** Interrupt::Idle, called when no thread is ready. It halts the machine
    exactly when no interrupt is pending or the only one is the time-slice timer;
    otherwise it first moves the clock, if it is behind, to the earliest pending
    due time, counts the difference as idle time, and runs that interrupt. The
    clock stays the sum of its parts in every case, and never goes back. *)
Theorem Idle_advances s w :
  wf_pending s -> balanced s -> level s = IntOff -> inHandler s = false ->
  match pending s with
  | [] => Idle (s, w) = Ret (false, (setStatus IdleMode s, w))
  | (t, p) :: q =>
      let s1 := setStatus IdleMode (set_pending q s) in
      let s2 := if t <=? now s then s1 else idle_until t s1 in
      now s2 = Z.max t (now s) /\ balanced s2 /\
      if bool_decide (type p = TimerInt) && Seq.IsEmpty q then
        exists s3, Idle (s, w) = Ret (false, (s3, w)) /\ now s3 = now s2 /\ balanced s3 /\
          pending s3 = [(t, p)]
      else
        match fire p (s2, w) with
        | Ret (s3, w3) =>
            schedules s2 s3 /\
            Idle (s, w) = (let! (s, w) := drain_all (s3, w3) in
                           Ret (true, (setStatus SystemMode (set_yield false s), w)))
        | Abort => Idle (s, w) = Abort
        | Undef => Idle (s, w) = Undef
        end
  end.
Proof.
  intros Hwf Hbal Hl Hi. unfold Idle. destruct (pending s) as [|[t p] q] eqn:E.
  { cbn. by rewrite E, bool_decide_true. }
  set (s1 := setStatus IdleMode (set_pending q s)).
  set (s2 := if t <=? now s then s1 else idle_until t s1).
  assert (now s2 = Z.max t (now s) /\ balanced s2) as [Hnow Hbal2].
  { unfold s2, s1. destruct (Z.leb_spec t (now s)); unfold now, balanced in *; cbn; lia. }
  split; [done|]. split; [done|].
  assert (CheckIfDue true (setStatus IdleMode s, w) =
    if bool_decide (type p = TimerInt) && Seq.IsEmpty q then
      Ret (false, (set_pending (Seq.SortedInsert p t q) s2, w))
    else let! sw := fire p (s2, w) in Ret (true, sw)) as ->.
  { unfold CheckIfDue. cbn [level pending setStatus]. rewrite bool_decide_true, E by done.
    cbn [bind Seq.SortedRemove ASSERT]. change (now (setStatus IdleMode s)) with (now s).
    unfold s2, s1. destruct (Z.leb_spec t (now s)); reflexivity. }
  destruct (bool_decide (type p = TimerInt) && Seq.IsEmpty q) eqn:Ht.
  - apply andb_true_iff in Ht as [_ ->%Seq.IsEmpty_true]. cbn. eexists. split; [done|]. done.
  - assert (level s2 = IntOff /\ inHandler s2 = false) as [Hl2 Hi2]
      by (unfold s2, s1; by destruct (t <=? now s)).
    destruct (fire p (s2, w)) as [[s3 w3]| |] eqn:Hf; [|done|done]. cbn [bind].
    split; [by eapply fire_schedules | done].
Qed.
End ClockFacts.

(** ** A concrete machine: two devices that reschedule themselves *)

Module Demo.

(** Handler [n] logs its number and asks to be called again [n] ticks later;
    handler 0 asks for a context switch. *)
Definition ex_call (h : nat) (a : Z) '((s, w) : IState nat * list nat) : C (IState nat * list nat) :=
  match h with
  | O => let! s := YieldOnReturn s in Ret (s, w ++ [O])
  | _ => let! s := Schedule h a (Z.of_nat h) DiskInt s in Ret (s, w ++ [h])
  end.

#[export] Instance ex_devices : Devices nat (list nat) :=
  {| call := ex_call; delayed_load := id; yield := Ret |}.

#[export] Instance ex_laws : DeviceLaws nat (list nat).
Proof.
  intros h a s w s' w' Hi Hl Hc. destruct h as [|h].
  - cbn in Hc. unfold YieldOnReturn in Hc. rewrite Hi in Hc. cbn in Hc.
    injection Hc as <- <-. split; [by exists [] | done].
  - cbn in Hc. injection Hc as <- <-. split; [|done].
    exists [mkPending (S h) a (now s + Z.of_nat (S h)) DiskInt].
    split; [|reflexivity]. constructor; [|done]. cbn. lia.
Qed.

Definition ex_state : IState nat :=
  mkIState IntOn [(7, mkPending 3%nat 0 7 DiskInt); (9, mkPending 20%nat 0 9 DiskInt);
                  (30, mkPending 0%nat 0 30 TimerInt)]
    false false SystemMode new_Statistics.

Lemma ex_wf : wf_pending ex_state.
Proof. split; repeat constructor; cbn; lia. Qed.

Example ex_tick :
  (let! (s, w) := tick (ex_state, []) in Ret (now s, w, map fst (pending s)))
  = Ret (10, [3%nat; 20%nat], [13; 30; 30]).
Proof. vm_compute. reflexivity. Qed.

Lemma OneTick_fires_due_witness :
  exists s2, tick (ex_state, []) = Ret (s2, [3%nat; 20%nat]) /\ nothing_due s2.
Proof.
  assert (nothing_due ex_state) as Hnd by (repeat constructor; done).
  destruct (OneTick_fires_due ex_state [] ex_wf eq_refl Hnd eq_refl ltac:(done))
    as [(s2 & Ht & _ & _ & _ & _ & _ & Hnd2 & _) _].
  exists s2. split; [exact Ht | exact Hnd2].
Defined.

Lemma Idle_advances_witness :
  exists s3 w3,
    Idle (set_level IntOff ex_state, []) = Ret (true, (s3, w3)) /\
    now (idle_until 7 (setStatus IdleMode (set_pending (tail (pending ex_state))
                                             (set_level IntOff ex_state)))) = 7 /\
    now s3 = 7 /\ w3 = [3%nat].
Proof.
  assert (wf_pending (set_level IntOff ex_state)) as Hwf by (split; apply ex_wf).
  destruct (Idle_advances (set_level IntOff ex_state) [] Hwf eq_refl eq_refl eq_refl)
    as (Hnow & _ & _ & Heq).
  do 2 eexists. split; [exact Heq|]. split; [exact Hnow|]. split; reflexivity.
Defined.
End Demo.
