(* ===== verification/Machine.v ===== *)
(** * The simulated machine: state, address translation and memory
      (machine/machine.h, machine.cc, translate.h, translate.cc)

    The user-visible hardware: 40 registers, the physical memory, and either a
    software-loaded TLB or a linear page table. [Translate] turns virtual into
    physical addresses, [ReadMem] and [WriteMem] access memory in the byte order
    of the simulated machine (little endian) whatever the byte order of the host.
    The kernel is a client: the class [Kernel] stands for its entry point
    ExceptionHandler and for the globals [interrupt] and [stats]. *)

From S2P Require Import Prelude Interrupt.

(** machine.h, disk.h. *)
Definition SectorSize : Z := 128.
Definition PageSize : Z := SectorSize.
Definition NumPhysPages : Z := 256.
Definition MemorySize : Z := NumPhysPages * PageSize.
Definition TLBSize : Z := 4.

Inductive ExceptionType :=
| NoException | SyscallException | PageFaultException | ReadOnlyException
| BusErrorException | AddressErrorException | OverflowException | IllegalInstrException.

#[export] Instance ExceptionType_eq_dec : EqDecision ExceptionType.
Proof. solve_decision. Defined.

Definition StackReg : Z := 29.
Definition RetAddrReg : Z := 31.
Definition NumGPRegs : Z := 32.
Definition HiReg : Z := 32.
Definition LoReg : Z := 33.
Definition PCReg : Z := 34.
Definition NextPCReg : Z := 35.
Definition PrevPCReg : Z := 36.
Definition LoadReg : Z := 37.
Definition LoadValueReg : Z := 38.
Definition BadVAddrReg : Z := 39.
Definition NumTotalRegs : Z := 40.

(** translate.h: class TranslationEntry. *)
Record TranslationEntry := mkTE {
  virtualPage : Z; physicalPage : Z;
  valid : bool; readOnly : bool; use : bool; dirty : bool
}.

(** machine.h: class Machine; [None] is the NULL pointer. *)
Record Machine := mkMachine {
  mainMemory : list Z;
  registers : list Z;
  tlb : option (list TranslationEntry);
  pageTable : option (list TranslationEntry);
  pageTableSize : Z;
  singleStep : bool;
  runUntilTime : Z;
  lastUsed : list Z
}.

Definition set_mainMemory v m := mkMachine v (registers m) (tlb m) (pageTable m) (pageTableSize m) (singleStep m) (runUntilTime m) (lastUsed m).
Definition set_registers v m := mkMachine (mainMemory m) v (tlb m) (pageTable m) (pageTableSize m) (singleStep m) (runUntilTime m) (lastUsed m).
Definition set_tlb v m := mkMachine (mainMemory m) (registers m) v (pageTable m) (pageTableSize m) (singleStep m) (runUntilTime m) (lastUsed m).
Definition set_pageTable v m := mkMachine (mainMemory m) (registers m) (tlb m) v (pageTableSize m) (singleStep m) (runUntilTime m) (lastUsed m).
Definition set_lastUsed v m := mkMachine (mainMemory m) (registers m) (tlb m) (pageTable m) (pageTableSize m) (singleStep m) (runUntilTime m) v.

(** Machine::Machine; [use_tlb] is the compile-time flag USE_TLB, [garbage] the
    fields of a new TLB entry the constructor leaves alone, [size] and [until] the
    members it leaves alone. *)
Definition new_Machine (use_tlb debug : bool) (garbage : TranslationEntry) (size until ticks : Z) : Machine :=
  mkMachine
    (replicate (Z.to_nat MemorySize) 0)
    (replicate (Z.to_nat NumTotalRegs) 0)
    (if use_tlb
     then Some (replicate (Z.to_nat TLBSize)
                  (mkTE (virtualPage garbage) (physicalPage garbage) false
                        (readOnly garbage) (use garbage) (dirty garbage)))
     else None)
    None size debug until
    (replicate (Z.to_nat NumPhysPages) ticks).

Definition getTimeUsed (m : Machine) (pageNo : Z) : C Z :=
  if (pageNo <? 0) || (NumPhysPages <=? pageNo) then Ret (-1) else aref (lastUsed m) pageNo.

Definition ReadRegister (m : Machine) (num : Z) : C Z :=
  let! _ := ASSERT ((0 <=? num) && (num <? NumTotalRegs)) in aref (registers m) num.

Definition WriteRegister (m : Machine) (num value : Z) : C Machine :=
  let! _ := ASSERT ((0 <=? num) && (num <? NumTotalRegs)) in
  let! rs := aset (registers m) num value in Ret (set_registers rs m).

(** [registers[r]] and [registers[r] = v] in the simulator itself. *)
Definition reg (m : Machine) (r : Z) : C Z := aref (registers m) r.
Definition setreg (r v : Z) (m : Machine) : C Machine :=
  let! rs := aset (registers m) r v in Ret (set_registers rs m).

(** mipssim.cc: Machine::DelayedLoad. *)
Definition DelayedLoad (nextReg nextValue : Z) (m : Machine) : C Machine :=
  let! l := reg m LoadReg in
  let! v := reg m LoadValueReg in
  let! m := setreg l v m in
  let! m := setreg LoadReg nextReg m in
  let! m := setreg LoadValueReg nextValue m in
  setreg 0 0 m.

(** ** Byte order *)

Section Endian.
(** HOST_IS_BIG_ENDIAN *)
Variable big : bool.

(** Machine.cc: CheckEndian stores the bytes 1, 2, 3, 4 and reads them back as a
    word: the host combines four bytes, and two, in its own order. *)
Definition host_word (b0 b1 b2 b3 : Z) : Z :=
  if big then u8 b0 * 2^24 + u8 b1 * 2^16 + u8 b2 * 2^8 + u8 b3
  else u8 b3 * 2^24 + u8 b2 * 2^16 + u8 b1 * 2^8 + u8 b0.

Definition CheckEndian : C () :=
  ASSERT (host_word 1 2 3 4 =? (if big then 16909060 else 67305985)).

Definition host_short (b0 b1 : Z) : Z :=
  if big then u8 b0 * 2^8 + u8 b1 else u8 b1 * 2^8 + u8 b0.

(** The bytes, as signed chars, that a word or a short occupies. *)
Definition word_bytes (w : Z) : list Z :=
  let bs := [i8 w; i8 (Z.shiftr w 8); i8 (Z.shiftr w 16); i8 (Z.shiftr w 24)] in
  if big then reverse bs else bs.

Definition short_bytes (w : Z) : list Z :=
  let bs := [i8 w; i8 (Z.shiftr w 8)] in if big then reverse bs else bs.

Definition WordToHost (word : Z) : Z :=
  if big then
    Z.lor (Z.lor (Z.lor
      (Z.land (Z.shiftr word 24) 0x000000ff)
      (Z.land (Z.shiftr word 8) 0x0000ff00))
      (Z.land (u32 (Z.shiftl word 8)) 0x00ff0000))
      (Z.land (u32 (Z.shiftl word 24)) 0xff000000)
  else word.

Definition ShortToHost (shortword : Z) : Z :=
  if big then
    u16 (Z.lor (Z.land (Z.shiftl shortword 8) 0xff00) (Z.land (Z.shiftr shortword 8) 0x00ff))
  else shortword.

Definition WordToMachine (word : Z) : Z := WordToHost word.
Definition ShortToMachine (shortword : Z) : Z := ShortToHost shortword.

(** Reading and writing [n] bytes at [a]. *)
Definition load_word (mem : list Z) (a : Z) : C Z :=
  let! b0 := aref mem a in let! b1 := aref mem (a + 1) in
  let! b2 := aref mem (a + 2) in let! b3 := aref mem (a + 3) in
  Ret (host_word b0 b1 b2 b3).

Definition load_short (mem : list Z) (a : Z) : C Z :=
  let! b0 := aref mem a in let! b1 := aref mem (a + 1) in Ret (host_short b0 b1).

Fixpoint store_bytes (mem : list Z) (a : Z) (bs : list Z) : C (list Z) :=
  match bs with
  | [] => Ret mem
  | b :: bs => let! mem := aset mem a b in store_bytes mem (a + 1) bs
  end.
End Endian.

(** ** Address translation *)

Inductive translation := Fault (e : ExceptionType) | Phys (a : Z).

Definition set_use_dirty (writing : bool) (e : TranslationEntry) : TranslationEntry :=
  mkTE (virtualPage e) (physicalPage e) (valid e) (readOnly e) true (writing || dirty e).

(** The loop over the TLB: the first valid entry for [vpn], from index [i]. *)
Fixpoint tlb_lookup (t : list TranslationEntry) (vpn i : Z) (n : nat) : C (option Z) :=
  match n with
  | O => Ret None
  | S n =>
      let! e := aref t i in
      if valid e && (u32 (virtualPage e) =? vpn) then Ret (Some i)
      else tlb_lookup t vpn (i + 1) n
  end.

(** From the entry found on: the checks of the entry, the use and dirty bits, the
    physical address. *)
Definition use_entry (entry : TranslationEntry) (offset size : Z) (writing : bool) :
    C (translation * TranslationEntry) :=
  if readOnly entry && writing then Ret (Fault ReadOnlyException, entry)
  else
    let pageFrame := u32 (physicalPage entry) in
    if NumPhysPages <=? pageFrame then Ret (Fault BusErrorException, entry)
    else
      let entry := set_use_dirty writing entry in
      let physAddr := i32 (pageFrame * PageSize + offset) in
      let! _ := ASSERT ((0 <=? physAddr) && (physAddr + size <=? MemorySize)) in
      Ret (Phys physAddr, entry).

Definition is_null {A} (p : option A) : bool := match p with None => true | Some _ => false end.

Definition Translate (m : Machine) (virtAddr size : Z) (writing : bool) : C (translation * Machine) :=
  if ((size =? 4) && negb (Z.land virtAddr 0x3 =? 0)) || ((size =? 2) && negb (Z.land virtAddr 0x1 =? 0))
  then Ret (Fault AddressErrorException, m)
  else
    let! _ := ASSERT (is_null (tlb m) || is_null (pageTable m)) in
    let! _ := ASSERT (negb (is_null (tlb m)) || negb (is_null (pageTable m))) in
    let vpn := u32 virtAddr / PageSize in
    let offset := u32 virtAddr mod PageSize in
    match tlb m, pageTable m with
    | None, Some pt =>
        if pageTableSize m <=? vpn then Ret (Fault AddressErrorException, m)
        else
          let! entry := aref pt vpn in
          if negb (valid entry) then Ret (Fault PageFaultException, m)
          else
            let! (r, entry) := use_entry entry offset size writing in
            let! pt := aset pt vpn entry in Ret (r, set_pageTable (Some pt) m)
    | Some t, _ =>
        let! found := tlb_lookup t vpn 0 (Z.to_nat TLBSize) in
        match found with
        | None => Ret (Fault PageFaultException, m)
        | Some i =>
            let! entry := aref t i in
            let! (r, entry) := use_entry entry offset size writing in
            let! t := aset t i entry in Ret (r, set_tlb (Some t) m)
        end
    | None, None => Abort
    end.

(** ** The kernel's side *)

Class Kernel (W : Type) := {
  (** exception.cc: ExceptionHandler(which) *)
  ExceptionHandler : ExceptionType -> Machine * W -> C (Machine * W);
  (** interrupt->setStatus(st) *)
  setMachineStatus : MachineStatus -> W -> W;
  (** stats->totalTicks *)
  kernelTicks : W -> Z
}.

Section Memory.
Context {W : Type} `{!Kernel W}.
Variable big : bool.

Definition RaiseException (which : ExceptionType) (badVAddr : Z) '((m, w) : Machine * W) : C (Machine * W) :=
  let! m := setreg BadVAddrReg badVAddr m in
  let! m := DelayedLoad 0 0 m in
  let! (m, w) := ExceptionHandler which (m, setMachineStatus SystemMode w) in
  Ret (m, setMachineStatus UserMode w).

(** [machine->lastUsed[ppn] = stats->totalTicks] *)
Definition touch (physicalAddress : Z) '((m, w) : Machine * W) : C Machine :=
  let! l := aset (lastUsed m) (u32 physicalAddress / PageSize) (kernelTicks w) in
  Ret (set_lastUsed l m).

(** [None]: FALSE, the kernel has handled an exception. *)
Definition ReadMem (addr size : Z) '((m, w) : Machine * W) : C (option Z * (Machine * W)) :=
  let! (r, m) := Translate m addr size false in
  match r with
  | Fault e => let! s := RaiseException e addr (m, w) in Ret (None, s)
  | Phys a =>
      let! value :=
        (if size =? 1 then aref (mainMemory m) a
         else if size =? 2 then
           let! d := load_short big (mainMemory m) a in Ret (ShortToHost big (u16 d))
         else if size =? 4 then
           let! d := load_word big (mainMemory m) a in Ret (i32 (WordToHost big (u32 (i32 d))))
         else Abort) in
      let! m := touch a (m, w) in
      Ret (Some value, (m, w))
  end.

Definition WriteMem (addr size value : Z) '((m, w) : Machine * W) : C (bool * (Machine * W)) :=
  let! (r, m) := Translate m addr size true in
  match r with
  | Fault e => let! s := RaiseException e addr (m, w) in Ret (false, s)
  | Phys a =>
      let! mem :=
        (if size =? 1 then aset (mainMemory m) a (i8 (Z.land value 0xff))
         else if size =? 2 then
           store_bytes (mainMemory m) a (short_bytes big (ShortToMachine big (u16 (Z.land value 0xffff))))
         else if size =? 4 then
           store_bytes (mainMemory m) a (word_bytes big (WordToMachine big (u32 value)))
         else Abort) in
      let m := set_mainMemory mem m in
      let! m := touch a (m, w) in
      Ret (true, (m, w))
  end.
End Memory.

(** ** Well-formed machines *)

(** Everything but the zero in register 0, which an instruction may overwrite
    before it retires. *)
Record wf_frame (m : Machine) : Prop := {
  wf_memory : length (mainMemory m) = Z.to_nat MemorySize;
  wf_bytes : Forall is_i8 (mainMemory m);
  wf_registers : length (registers m) = Z.to_nat NumTotalRegs;
  wf_words : Forall is_i32 (registers m);
  wf_load : exists l, registers m !! Z.to_nat LoadReg = Some l /\ 0 <= l < NumGPRegs;
  wf_lastUsed : length (lastUsed m) = Z.to_nat NumPhysPages;
  wf_one_table : is_null (tlb m) <> is_null (pageTable m);
  wf_tlb : forall t, tlb m = Some t -> length t = Z.to_nat TLBSize;
  wf_pageTable : forall t, pageTable m = Some t ->
    0 <= pageTableSize m <= Z.of_nat (length t)
}.

Record wf_machine (m : Machine) : Prop := {
  wf_framed :> wf_frame m;
  wf_r0 : registers m !! 0%nat = Some 0
}.

(** Reference: what the translation tables say about virtual page [vpn]. *)
Definition matches (vpn : Z) (e : TranslationEntry) : Prop :=
  valid e = true /\ u32 (virtualPage e) = vpn.
#[export] Instance matches_dec vpn e : Decision (matches vpn e).
Proof. unfold matches. apply _. Defined.

Definition mapping (m : Machine) (vpn : Z) : option TranslationEntry :=
  match tlb m with
  | Some t => snd <$> list_find (matches vpn) t
  | None =>
      e ← pageTable m ≫= (.!! Z.to_nat vpn); if valid e then Some e else None
  end.

(** The outcome an access must have, with alignment as divisibility. *)
Definition expected (m : Machine) (addr size : Z) (writing : bool) : translation :=
  let vpn := u32 addr / PageSize in
  if negb (addr mod size =? 0) then Fault AddressErrorException
  else if is_null (tlb m) && (pageTableSize m <=? vpn) then Fault AddressErrorException
  else match mapping m vpn with
  | None => Fault PageFaultException
  | Some e =>
      if readOnly e && writing then Fault ReadOnlyException
      else if NumPhysPages <=? u32 (physicalPage e) then Fault BusErrorException
      else Phys (u32 (physicalPage e) * PageSize + addr mod PageSize)
  end.

Lemma is_size_cases size : size = 1 \/ size = 2 \/ size = 4 ->
  (size | PageSize) /\ 0 < size <= 4.
Proof.
  intros [-> | [-> | ->]]; (split; [|lia]).
  - by exists 128.
  - by exists 64.
  - by exists 32.
Qed.

Lemma land_low addr n : 0 <= n -> Z.land addr (Z.ones n) = addr mod 2^n.
Proof. intros. by apply Z.land_ones. Qed.

Lemma misaligned_spec addr size : size = 1 \/ size = 2 \/ size = 4 ->
  ((size =? 4) && negb (Z.land addr 0x3 =? 0)) || ((size =? 2) && negb (Z.land addr 0x1 =? 0))
  = negb (addr mod size =? 0).
Proof.
  change 0x3 with (Z.ones 2). change 0x1 with (Z.ones 1). rewrite !land_low by lia.
  intros [-> | [-> | ->]]; cbn; rewrite ?Z.mod_1_r, ?orb_false_r; done.
Qed.

Lemma u32_page addr : u32 addr mod PageSize = addr mod PageSize.
Proof.
  unfold u32. symmetry. rewrite <- Z.mod_mod_divide with (b := 2^32) (c := PageSize); [done|].
  by exists (2^25).
Qed.

Lemma use_entry_spec e addr size writing :
  size = 1 \/ size = 2 \/ size = 4 -> addr mod size = 0 ->
  exists r, use_entry e (addr mod PageSize) size writing = Ret r /\
  r = if readOnly e && writing then (Fault ReadOnlyException, e)
      else if NumPhysPages <=? u32 (physicalPage e) then (Fault BusErrorException, e)
      else (Phys (u32 (physicalPage e) * PageSize + addr mod PageSize), set_use_dirty writing e).
Proof.
  intros Hsz Hal. eexists. split; [|reflexivity]. unfold use_entry.
  destruct (readOnly e && writing); [done|].
  destruct (Z.leb_spec NumPhysPages (u32 (physicalPage e))); [done|].
  set (f := u32 (physicalPage e)) in *. unfold NumPhysPages in *.
  assert (0 <= f) by apply u32_range.
  assert (0 <= addr mod PageSize /\ addr mod PageSize + size <= PageSize) as [Ho1 Ho2].
  { destruct (is_size_cases size Hsz) as [[k Hk] ?]. unfold PageSize, SectorSize in *.
    pose proof (Z.mod_pos_bound addr 128). split; [lia|].
    assert (addr mod 128 mod size = 0) as Hm.
    { rewrite Z.mod_mod_divide; [done|]. by exists k. }
    pose proof (Z.div_mod (addr mod 128) size). pose proof (Z.mod_pos_bound addr 128).
    assert (addr mod 128 = size * (addr mod 128 / size)) by lia.
    assert (addr mod 128 / size < k) by nia. nia. }
  unfold PageSize, SectorSize in *.
  rewrite i32_small by (unfold is_i32; lia).
  unfold MemorySize, NumPhysPages, PageSize, SectorSize.
  rewrite (proj2 (Z.leb_le 0 _)), (proj2 (Z.leb_le _ _)) by lia. done.
Qed.

Lemma tlb_lookup_spec t vpn i n :
  0 <= i -> length t = (Z.to_nat i + n)%nat ->
  tlb_lookup t vpn i n =
  Ret ((fun p => i + Z.of_nat p.1) <$> list_find (matches vpn) (drop (Z.to_nat i) t)).
Proof.
  revert i. induction n as [|n IH]; intros i Hi Hlen; cbn [tlb_lookup].
  - by rewrite drop_ge by lia.
  - destruct (aref_in t i) as [e He]; [lia|]. rewrite He. cbn.
    apply aref_Ret in He as [_ He]. rewrite (drop_S t e (Z.to_nat i)) by done. cbn.
    rewrite IH by lia. replace (Z.to_nat (i + 1)) with (S (Z.to_nat i)) by lia.
    unfold matches at 1. destruct (decide _) as [[-> Hv]|Hno]; cbn.
    + rewrite (proj2 (Z.eqb_eq _ _) Hv). cbn. by rewrite Z.add_0_r.
    + destruct (valid e && (u32 (virtualPage e) =? vpn)) eqn:E.
      { zbool. by destruct Hno. }
      destruct (list_find _ _) as [[j x]|]; cbn; [|done]. do 2 f_equal. lia.
Qed.

Lemma list_find_insert_hit {A} (P : A -> Prop) `{!forall x, Decision (P x)} l i x y :
  list_find P l = Some (i, x) -> P y -> list_find P (<[i := y]> l) = Some (i, y).
Proof.
  revert i. induction l as [|z l IH]; intros i Hf Hy; cbn in *; [done|].
  destruct (decide (P z)); simplify_eq; cbn; [by rewrite decide_True|].
  destruct (list_find P l) as [[j x']|] eqn:E; simplify_eq/=.
  rewrite decide_False by done. by rewrite (IH j).
Qed.

Lemma list_find_insert_miss {A} (P : A -> Prop) `{!forall x, Decision (P x)} l i x y :
  l !! i = Some x -> ~ P x -> ~ P y -> list_find P (<[i := y]> l) = list_find P l.
Proof.
  revert i. induction l as [|z l IH]; intros [|i] Hl Hx Hy; simplify_eq/=.
  - by rewrite !decide_False.
  - destruct (decide (P z)); [done|]. by rewrite (IH i).
Qed.

Lemma matches_set_use_dirty vpn writing e : matches vpn (set_use_dirty writing e) <-> matches vpn e.
Proof. done. Qed.

(** The entry used is replaced by itself with the use and dirty bits set. *)
Definition remap (writing : bool) (vpn : Z) (m m' : Machine) : Prop :=
  forall v, 0 <= v ->
    mapping m' v = if v =? vpn then set_use_dirty writing <$> mapping m v else mapping m v.

Lemma remap_tlb m t i e writing vpn :
  tlb m = Some t -> list_find (matches vpn) t = Some (i, e) ->
  remap writing vpn m (set_tlb (Some (<[i := set_use_dirty writing e]> t)) m).
Proof.
  intros Ht Hf v _. unfold mapping. cbn. rewrite Ht.
  pose proof (list_find_Some (matches vpn) t i e) as [Hs _]. destruct (Hs Hf) as (Hi & Hm & _).
  destruct (Z.eqb_spec v vpn) as [->|Hne].
  - by rewrite (list_find_insert_hit _ _ _ e), Hf.
  - f_equal. apply list_find_insert_miss with e; [done|..].
    + unfold matches in *. naive_solver.
    + rewrite matches_set_use_dirty. unfold matches in *. naive_solver.
Qed.

Lemma remap_pageTable m t e writing vpn :
  0 <= vpn -> tlb m = None -> pageTable m = Some t -> t !! Z.to_nat vpn = Some e -> valid e = true ->
  remap writing vpn m (set_pageTable (Some (<[Z.to_nat vpn := set_use_dirty writing e]> t)) m).
Proof.
  intros Hv Ht Hp He Hval v Hv'. unfold mapping. cbn. rewrite Ht, Hp. cbn.
  destruct (Z.eqb_spec v vpn) as [->|Hne].
  - rewrite list_lookup_insert_eq by (by eapply lookup_lt_Some). rewrite He. cbn. by rewrite Hval.
  - by rewrite list_lookup_insert_ne by lia.
Qed.

Lemma wf_set_tlb m t t' : wf_machine m -> tlb m = Some t -> length t' = length t ->
  wf_machine (set_tlb (Some t') m).
Proof.
  intros [[] ?] Ht Hl. split; [split|]; cbn; try done.
  - by rewrite Ht in *.
  - intros ? [= <-]. rewrite Hl. auto.
Qed.

Lemma wf_set_pageTable m t t' : wf_machine m -> pageTable m = Some t -> length t' = length t ->
  wf_machine (set_pageTable (Some t') m).
Proof.
  intros [[] ?] Ht Hl. split; [split|]; cbn; try done.
  - by rewrite Ht in *.
  - intros ? [= <-]. rewrite Hl. auto.
Qed.

Lemma expected_bounds m addr size writing a :
  size = 1 \/ size = 2 \/ size = 4 -> expected m addr size writing = Phys a ->
  0 <= a /\ a + size <= MemorySize /\ a mod size = 0.
Proof.
  intros Hsz. unfold expected. destruct (Z.eqb_spec (addr mod size) 0) as [Hal|]; [|done]. cbn.
  destruct (_ && _); [done|]. destruct (mapping _ _) as [e|]; [|done].
  destruct (_ && _); [done|]. destruct (Z.leb_spec NumPhysPages (u32 (physicalPage e))); [done|].
  intros [= <-]. set (f := u32 (physicalPage e)) in *. assert (0 <= f) by apply u32_range.
  destruct (is_size_cases size Hsz) as [[k Hk] ?].
  unfold MemorySize, NumPhysPages, PageSize, SectorSize in *.
  pose proof (Z.mod_pos_bound addr 128).
  assert (addr mod 128 mod size = 0) as Hm by (rewrite Z.mod_mod_divide; [done | by exists k]).
  pose proof (Z.div_mod (addr mod 128) size).
  assert (addr mod 128 = size * (addr mod 128 / size)) by lia.
  assert (addr mod 128 / size < k) by nia.
  split; [lia|]. split; [nia|]. rewrite Hk.
  replace (f * (k * size) + addr mod (k * size)) with (addr mod (k * size) + (f * k) * size) by ring.
  rewrite Z.mod_add by lia. by rewrite <- Hk.
Qed.

Definition same_state (m m' : Machine) : Prop :=
  mainMemory m' = mainMemory m /\ registers m' = registers m /\ lastUsed m' = lastUsed m /\
  pageTableSize m' = pageTableSize m /\ is_null (tlb m') = is_null (tlb m).

Lemma stays m : wf_machine m -> wf_machine m /\ same_state m m /\ m = m.
Proof. intros. by split; [|repeat split]. Qed.

Lemma Translate_spec m addr size writing :
  wf_machine m -> size = 1 \/ size = 2 \/ size = 4 ->
  exists m', Translate m addr size writing = Ret (expected m addr size writing, m') /\
    wf_machine m' /\ same_state m m' /\
    match expected m addr size writing with
    | Fault _ => m' = m
    | Phys a => remap writing (u32 addr / PageSize) m m'
    end.
Proof.
  intros Hwf Hsz. unfold Translate, expected. rewrite misaligned_spec by done.
  destruct (Z.eqb_spec (addr mod size) 0) as [Hal|]; cbn [negb].
  2:{ exists m. by split; [|apply stays]. }
  assert (0 <= u32 addr / PageSize) as Hvpn by (apply Z.div_pos; [apply u32_range | done]).
  pose proof (wf_one_table m Hwf) as Hone.
  destruct (tlb m) as [t|] eqn:Ht, (pageTable m) as [pt|] eqn:Hp; cbn in Hone; try done;
    cbn [is_null negb orb andb ASSERT bind].
  - rewrite tlb_lookup_spec by (rewrite ?(wf_tlb m Hwf t Ht); done). cbn [bind]. rewrite drop_0.
    unfold mapping. rewrite Ht.
    destruct (list_find _ t) as [[i e]|] eqn:Hf; cbn [fmap option_fmap option_map fst snd];
      [|by exists m; split; [|apply stays]].
    pose proof (proj1 (list_find_Some _ _ _ _) Hf) as (Hi & Hm & _).
    pose proof (lookup_lt_Some _ _ _ Hi) as Hlt.
    rewrite Z.add_0_l. rewrite (proj2 (aref_Ret t (Z.of_nat i) e)) by (split; [lia|]; by rewrite Nat2Z.id).
    cbn [bind]. rewrite u32_page.
    destruct (use_entry_spec e addr size writing Hsz Hal) as (r & -> & ->). cbn [bind].
    destruct (readOnly e && writing); [|destruct (_ <=? _)]; cbn [bind];
      rewrite aset_in by lia; rewrite Nat2Z.id; cbn [bind].
    1,2: rewrite list_insert_id by done; exists m; split; [|by apply stays];
         by destruct m; cbn in *; subst.
    eexists. split; [done|]. split; [|split].
    + eapply wf_set_tlb; [done.. | by rewrite length_insert].
    + repeat split; cbn. by rewrite Ht.
    + by apply remap_tlb.
  - destruct (Z.leb_spec (pageTableSize m) (u32 addr / PageSize)); [by exists m; split; [|apply stays]|].
    pose proof (wf_pageTable m Hwf pt Hp) as Hsize.
    destruct (aref_in pt (u32 addr / PageSize)) as [e He]; [lia|]. rewrite He. cbn [bind].
    apply aref_Ret in He as [_ He]. unfold mapping. rewrite Ht, Hp. cbn. rewrite He. cbn.
    destruct (valid e) eqn:Hv; cbn [negb]; [|by exists m; split; [|apply stays]].
    rewrite u32_page.
    destruct (use_entry_spec e addr size writing Hsz Hal) as (r & -> & ->). cbn [bind].
    destruct (readOnly e && writing); [|destruct (_ <=? _)]; cbn [bind];
      rewrite aset_in by lia; cbn [bind].
    1,2: rewrite list_insert_id by done; exists m; split; [|by apply stays];
         by destruct m; cbn in *; subst.
    eexists. split; [done|]. split; [|split].
    + eapply wf_set_pageTable; [done.. | by rewrite length_insert].
    + by repeat split.
    + by apply remap_pageTable.
Qed.

(** C17: Machine::Translate. On a well-formed machine and an access of 1, 2 or 4
    bytes it returns exactly the outcome the tables call for (an exception for a
    misaligned address, one outside the page table, an unmapped page, a write to a
    read-only page, or a frame that does not exist; otherwise frame and offset),
    its assertions hold, a physical address it returns is aligned and inside the
    memory, a fault changes nothing, and a success changes only the use and dirty
    bits of the entry used. *)
Theorem Translate_correct m addr size writing :
  wf_machine m -> size = 1 \/ size = 2 \/ size = 4 ->
  exists m', Translate m addr size writing = Ret (expected m addr size writing, m') /\
    wf_machine m' /\ same_state m m' /\
    match expected m addr size writing with
    | Fault _ => m' = m
    | Phys a => 0 <= a /\ a + size <= MemorySize /\ a mod size = 0 /\
                remap writing (u32 addr / PageSize) m m'
    end.
Proof.
  intros Hwf Hsz. destruct (Translate_spec m addr size writing Hwf Hsz) as (m' & Ht & Hwf' & Hs & Hm).
  exists m'. do 3 (split; [done|]). destruct (expected _ _ _ _) eqn:E; [done|].
  by destruct (expected_bounds _ _ _ _ _ Hsz E) as (? & ? & ?).
Qed.

(** ** Byte order: main memory is little endian on every host *)

Lemma lor_add k a b : 0 <= k -> 0 <= a < 2^k -> Z.lor a (b * 2^k) = a + b * 2^k.
Proof.
  intros Hk Ha. rewrite <- Z.shiftl_mul_pow2 by done.
  assert (Z.land a (Z.shiftl b k) = 0) as Hd.
  { apply Z.bits_inj'. intros j Hj. rewrite Z.land_spec, Z.bits_0.
    destruct (Z.lt_ge_cases j k).
    - rewrite Z.shiftl_spec_low by done. apply andb_false_r.
    - by rewrite (proj1 (width_bits k a Hk) Ha). }
  rewrite <- Z.lxor_lor by done. symmetry. by apply Z.add_nocarry_lxor.
Qed.

(** A byte-wide mask at bit [k] picks a digit of base 256. *)
Lemma land_byte k x : 0 <= k -> Z.land x (255 * 2^k) = (x / 2^k) mod 2^8 * 2^k.
Proof.
  intros Hk. rewrite <- Z.shiftl_mul_pow2, <- Z.land_ones, <- Z.shiftr_div_pow2 by lia.
  rewrite <- Z.shiftl_mul_pow2 by done. change 255 with (Z.ones 8).
  apply Z.bits_inj'. intros j Hj. rewrite Z.land_spec.
  destruct (Z.lt_ge_cases j k).
  - by rewrite !Z.shiftl_spec_low, andb_false_r.
  - rewrite !Z.shiftl_spec, Z.land_spec, Z.shiftr_spec by lia. by rewrite Z.sub_add.
Qed.

Lemma land_u32 x mask : is_u32 mask -> Z.land (u32 x) mask = Z.land x mask.
Proof.
  rewrite u32_bits. intros Hm. apply Z.bits_inj'. intros j Hj. rewrite !Z.land_spec. unfold u32.
  destruct (Z.lt_ge_cases j 32).
  - by rewrite Z.mod_pow2_bits_low.
  - by rewrite Hm, !andb_false_r.
Qed.

Lemma swap_word w : WordToHost true w =
  (w / 2^24) mod 2^8 + (w / 2^16) mod 2^8 * 2^8 + (w / 2^8) mod 2^8 * 2^16 + w mod 2^8 * 2^24.
Proof.
  cbn [WordToHost]. rewrite !land_u32 by done.
  change 0xff with (255 * 2^0). change 0xff00 with (255 * 2^8).
  change 0xff0000 with (255 * 2^16). change 0xff000000 with (255 * 2^24).
  rewrite !land_byte, !Z.shiftr_div_pow2, !Z.shiftl_mul_pow2 by lia.
  replace (w / 2^24 / 2^0) with (w / 2^24) by (by rewrite Z.div_1_r).
  replace (w / 2^8 / 2^8) with (w / 2^16) by (by rewrite Z.div_div).
  replace (w * 2^8 / 2^16) with (w / 2^8) by (change (2^16) with (2^8 * 2^8); by rewrite Z.div_mul_cancel_r).
  rewrite Z.div_mul by done.
  pose proof (Z.mod_pos_bound (w / 2^24) (2^8)). pose proof (Z.mod_pos_bound (w / 2^16) (2^8)).
  pose proof (Z.mod_pos_bound (w / 2^8) (2^8)). 
  rewrite Z.pow_0_r, Z.mul_1_r. by rewrite (lor_add 8), (lor_add 16), (lor_add 24) by lia.
Qed.

Lemma u8_digit z : u8 z = z mod 2^8.
Proof. done. Qed.

Lemma i8_u8 z : u8 (i8 z) = u8 z.
Proof. unfold u8, i8. rewrite Zminus_mod_idemp_l. f_equal. lia. Qed.

(** The little-endian value of bytes. *)
Fixpoint le_value (bs : list Z) : Z :=
  match bs with [] => 0 | b :: bs => u8 b + 2^8 * le_value bs end.

(** The base-256 digits of a word. *)
Lemma digits4 a b c d :
  0 <= a < 2^8 -> 0 <= b < 2^8 -> 0 <= c < 2^8 -> 0 <= d < 2^8 ->
  let w := a + b * 2^8 + c * 2^16 + d * 2^24 in
  w mod 2^8 = a /\ (w / 2^8) mod 2^8 = b /\ (w / 2^16) mod 2^8 = c /\ (w / 2^24) mod 2^8 = d.
Proof.
  intros ???? w. unfold w.
  replace ((a + b * 2^8 + c * 2^16 + d * 2^24) / 2^8) with (b + c * 2^8 + d * 2^16) by (apply Z.div_unique with a; lia).
  replace ((a + b * 2^8 + c * 2^16 + d * 2^24) / 2^16) with (c + d * 2^8) by (apply Z.div_unique with (a + b * 2^8); lia).
  replace ((a + b * 2^8 + c * 2^16 + d * 2^24) / 2^24) with d by (apply Z.div_unique with (a + b * 2^8 + c * 2^16); lia).
  repeat split; symmetry.
  - apply Z.mod_unique with (b + c * 2^8 + d * 2^16); lia.
  - apply Z.mod_unique with (c + d * 2^8); lia.
  - apply Z.mod_unique with d; lia.
  - apply Z.mod_unique with 0; lia.
Qed.

(** A host word made of memory bytes, converted, is their little-endian value. *)
Lemma WordToHost_le big b0 b1 b2 b3 :
  WordToHost big (u32 (i32 (host_word big b0 b1 b2 b3))) = le_value [b0; b1; b2; b3].
Proof.
  assert (0 <= u8 b0 < 2^8 /\ 0 <= u8 b1 < 2^8 /\ 0 <= u8 b2 < 2^8 /\ 0 <= u8 b3 < 2^8) as (?&?&?&?)
    by (unfold u8; repeat split; apply Z.mod_pos_bound; lia).
  rewrite u32_i32, u32_small by (unfold is_u32, host_word; destruct big; lia).
  cbn [le_value]. unfold host_word. destruct big; [|cbn [WordToHost]; lia].
  revert H H0 H1 H2. generalize (u8 b0) (u8 b1) (u8 b2) (u8 b3). intros a b c d ????.
  replace (a * 2^24 + b * 2^16 + c * 2^8 + d) with (d + c * 2^8 + b * 2^16 + a * 2^24) by lia.
  destruct (digits4 d c b a) as (E0 & E1 & E2 & E3); [done..|].
  rewrite swap_word, E0, E1, E2, E3. lia.
Qed.

Lemma swap_short w : is_u16 w -> ShortToHost true w = w / 2^8 + w mod 2^8 * 2^8.
Proof.
  unfold is_u16. intros Hw. cbn [ShortToHost]. change 0xff00 with (255 * 2^8).
  change 0x00ff with (255 * 2^0).
  rewrite !land_byte, Z.shiftr_div_pow2, Z.shiftl_mul_pow2, Z.div_mul by lia.
  rewrite Z.pow_0_r, Z.mul_1_r, Z.div_1_r, Z.lor_comm.
  pose proof (Z.mod_pos_bound (w / 2^8) (2^8)). pose proof (Z.mod_pos_bound w (2^8)).
  rewrite (lor_add 8) by lia.
  assert (0 <= w / 2^8 < 2^8) by (split; [apply Z.div_pos | apply Z.div_lt_upper_bound]; lia).
  rewrite (Z.mod_small (w / 2^8)) by done. unfold u16. apply Z.mod_small. lia.
Qed.

Lemma ShortToHost_le big b0 b1 :
  ShortToHost big (u16 (host_short big b0 b1)) = le_value [b0; b1].
Proof.
  assert (0 <= u8 b0 < 2^8 /\ 0 <= u8 b1 < 2^8) as (? & ?)
    by (unfold u8; split; apply Z.mod_pos_bound; lia).
  unfold u16. rewrite Z.mod_small by (unfold host_short; destruct big; lia).
  cbn [le_value]. unfold host_short. destruct big; [|cbn [ShortToHost]; lia].
  rewrite swap_short by (unfold is_u16; lia).
  revert H H0. generalize (u8 b0) (u8 b1). intros a b ??.
  replace ((a * 2^8 + b) / 2^8) with a by (apply Z.div_unique with b; lia).
  replace ((a * 2^8 + b) mod 2^8) with b by (apply Z.mod_unique with a; lia). lia.
Qed.

(** The bytes of [v], least significant first, as signed chars. *)
Fixpoint le_bytes (n : nat) (v : Z) : list Z :=
  match n with O => [] | S n => i8 v :: le_bytes n (v / 2^8) end.

Lemma le_bytes_value n v : le_value (le_bytes n v) = v mod 2^(8 * Z.of_nat n).
Proof.
  revert v. induction n as [|n IH]; intros v; cbn [le_bytes le_value]; [by rewrite Z.mod_1_r|].
  rewrite IH, i8_u8. unfold u8. replace (8 * Z.of_nat (S n)) with (8 + 8 * Z.of_nat n) by lia.
  rewrite Z.pow_add_r, Z.rem_mul_r by lia. lia.
Qed.

Lemma i8_eq x y : x mod 2^8 = y mod 2^8 -> i8 x = i8 y.
Proof.
  intros Hxy. unfold i8. f_equal.
  by rewrite <- (Zplus_mod_idemp_l x), <- (Zplus_mod_idemp_l y), Hxy.
Qed.

(** Digit [k] of a word is unaffected by a truncation above it. *)
Lemma digit_mod n k v : 0 <= k -> k + 8 <= n -> (v mod 2^n / 2^k) mod 2^8 = (v / 2^k) mod 2^8.
Proof.
  intros Hk Hn. apply Z.bits_inj'. intros j Hj. destruct (Z.lt_ge_cases j 8).
  - by rewrite !Z.mod_pow2_bits_low, !Z.div_pow2_bits, Z.mod_pow2_bits_low by lia.
  - by rewrite !Z.mod_pow2_bits_high by lia.
Qed.

Lemma le_bytes_4 v : le_bytes 4 v = [i8 v; i8 (v / 2^8); i8 (v / 2^16); i8 (v / 2^24)].
Proof. cbn [le_bytes]. by rewrite !Z.div_div by lia. Qed.

(** The bytes WriteMem stores are little endian whatever the host. *)
Lemma word_bytes_le big v : word_bytes big (WordToMachine big (u32 v)) = le_bytes 4 v.
Proof.
  rewrite le_bytes_4. unfold word_bytes, WordToMachine.
  assert (Hd : forall k, 0 <= k <= 24 -> (u32 v / 2^k) mod 2^8 = (v / 2^k) mod 2^8)
    by (intros; apply digit_mod; lia).
  pose proof (Hd 0 ltac:(lia)) as H0. rewrite !Z.div_1_r in H0.
  destruct big.
  - rewrite swap_word. set (a := (u32 v / 2^24) mod 2^8). set (b := (u32 v / 2^16) mod 2^8).
    set (c := (u32 v / 2^8) mod 2^8). set (d := u32 v mod 2^8).
    assert (0 <= a < 2^8 /\ 0 <= b < 2^8 /\ 0 <= c < 2^8 /\ 0 <= d < 2^8) as (?&?&?&?)
      by (unfold a, b, c, d; repeat split; apply Z.mod_pos_bound; lia).
    destruct (digits4 a b c d) as (E0 & E1 & E2 & E3); [done..|].
    rewrite !Z.shiftr_div_pow2 by lia. cbn [reverse rev_append].
    repeat apply (f_equal2 cons); try done; apply i8_eq; rewrite ?E0, ?E1, ?E2, ?E3; auto;
      apply Hd; lia.
  - cbn [WordToHost]. rewrite !Z.shiftr_div_pow2 by lia.
    repeat apply (f_equal2 cons); try done; apply i8_eq; auto; apply Hd; lia.
Qed.

Lemma short_bytes_le big v :
  short_bytes big (ShortToMachine big (u16 (Z.land v 0xffff))) = le_bytes 2 v.
Proof.
  change 0xffff with (Z.ones 16). rewrite Z.land_ones by lia. unfold u16. rewrite Z.mod_mod by done.
  pose proof (digit_mod 16 8 v ltac:(lia) ltac:(lia)) as H1.
  pose proof (digit_mod 16 0 v ltac:(lia) ltac:(lia)) as H0. rewrite !Z.div_1_r in H0.
  unfold short_bytes, ShortToMachine. cbn [le_bytes].
  assert (is_u16 (v mod 2^16)) as Hr by (apply Z.mod_pos_bound; lia). destruct big.
  - rewrite swap_short by done. rewrite Z.shiftr_div_pow2 by lia. cbn [reverse rev_append].
    set (r := v mod 2^16) in *. pose proof (Z.mod_pos_bound r (2^8)).
    assert (0 <= r / 2^8 < 2^8)
      by (unfold is_u16 in Hr; split; [apply Z.div_pos | apply Z.div_lt_upper_bound]; lia).
    repeat apply (f_equal2 cons); try done; apply i8_eq.
    + rewrite Z.div_add, Z.div_small, Z.add_0_l, Z.mod_mod by lia. done.
    + rewrite Z.mod_add by lia. done.
  - cbn [ShortToHost]. rewrite Z.shiftr_div_pow2 by lia.
    repeat apply (f_equal2 cons); try done; by apply i8_eq.
Qed.

(** ** Memory accesses *)

Lemma store_bytes_spec mem a bs :
  0 <= a -> a + Z.of_nat (length bs) <= Z.of_nat (length mem) ->
  store_bytes mem a bs = Ret (list_inserts (Z.to_nat a) bs mem).
Proof.
  revert mem a. induction bs as [|b bs IH]; intros mem a Ha Hl; cbn [store_bytes]; [done|].
  cbn [length] in Hl. rewrite aset_in by lia. cbn [bind].
  rewrite IH by (rewrite ?length_insert; lia). cbn [list_inserts].
  replace (Z.to_nat (a + 1)) with (S (Z.to_nat a)) by lia.
  f_equal. apply list_eq. intros i.
  destruct (decide (i = Z.to_nat a)) as [->|Hne].
  - rewrite list_lookup_inserts_lt, !list_lookup_insert_eq by (rewrite ?length_inserts; lia). done.
  - rewrite (list_lookup_insert_ne (list_inserts _ _ _)) by done.
    destruct (decide (S (Z.to_nat a) <= i < S (Z.to_nat a) + length bs)%nat) as [Hin|Hout].
    + rewrite !list_lookup_inserts by (rewrite ?length_insert; lia). done.
    + destruct (decide (i < S (Z.to_nat a))%nat).
      * rewrite !list_lookup_inserts_lt by lia. by rewrite list_lookup_insert_ne.
      * rewrite !list_lookup_inserts_ge by lia. by rewrite list_lookup_insert_ne.
Qed.

Lemma le_bytes_length n v : length (le_bytes n v) = n.
Proof. revert v. induction n; intros; cbn; auto. Qed.

Lemma le_bytes_i8 n v : Forall is_i8 (le_bytes n v).
Proof. revert v. induction n; intros; cbn; constructor; auto with cint. Qed.

(** What reading back [size] bytes gives: chars are signed, shorts are not. *)
Definition of_bytes (size : Z) (bs : list Z) : Z :=
  if size =? 1 then i8 (le_value bs) else if size =? 4 then i32 (le_value bs) else le_value bs.

(** [bs] are the bytes of memory from [a] on. *)
Definition bytes_at (mem : list Z) (a : Z) (bs : list Z) : Prop :=
  forall k, (k < length bs)%nat -> mem !! Z.to_nat (a + Z.of_nat k) = bs !! k.

Lemma bytes_at_aref mem a bs k b :
  bytes_at mem a bs -> 0 <= a -> bs !! k = Some b -> aref mem (a + Z.of_nat k) = Ret b.
Proof.
  intros Hb Ha Hk. apply aref_Ret. split; [lia|]. rewrite Hb; [done|]. by eapply lookup_lt_Some.
Qed.

Lemma bytes_at_inserts mem a bs :
  0 <= a -> a + Z.of_nat (length bs) <= Z.of_nat (length mem) ->
  bytes_at (list_inserts (Z.to_nat a) bs mem) a bs.
Proof.
  intros Ha Hl k Hk. rewrite list_lookup_inserts by lia. f_equal. lia.
Qed.

Section Access.
Context {W : Type} `{!Kernel W}.
Variable big : bool.
Implicit Types (m : Machine) (w : W).

Lemma touch_spec m w a :
  wf_machine m -> 0 <= a < MemorySize ->
  exists m', touch a (m, w) = Ret m' /\ wf_machine m' /\
    mainMemory m' = mainMemory m /\ registers m' = registers m /\ tlb m' = tlb m /\
    pageTable m' = pageTable m /\ pageTableSize m' = pageTableSize m.
Proof.
  intros Hwf Ha. pose proof (wf_lastUsed m Hwf) as Hl. unfold touch.
  unfold MemorySize, NumPhysPages, PageSize, SectorSize in *.
  assert (0 <= u32 a / 128 < 256).
  { rewrite u32_small by (unfold is_u32; lia).
    split; [apply Z.div_pos | apply Z.div_lt_upper_bound]; lia. }
  rewrite aset_in by lia. cbn [bind]. eexists. split; [done|]. split; [|done].
  destruct Hwf as [[] ?]. split; [split|]; cbn; try done. by rewrite length_insert.
Qed.

(** Writing bytes keeps the machine well formed. *)
Lemma wf_set_mainMemory m bs a :
  wf_machine m -> Forall is_i8 bs -> wf_machine (set_mainMemory (list_inserts a bs (mainMemory m)) m).
Proof.
  intros [[] ?] Hb. split; [split|]; cbn; try done.
  - by rewrite length_inserts.
  - clear -Hb wf_bytes0. revert a. induction Hb as [|b bs Hb1 Hbs IH]; intros a; cbn; [done|].
    by apply Forall_insert.
Qed.

Lemma expected_ext m m' addr size writing :
  tlb m' = tlb m -> pageTable m' = pageTable m -> pageTableSize m' = pageTableSize m ->
  expected m' addr size writing = expected m addr size writing.
Proof. intros Ht Hp Hs. unfold expected, mapping. by rewrite Ht, Hp, Hs. Qed.

(** What can be written can be read, at the same place, after any access to the page. *)
Lemma expected_again m m' addr size writing a :
  same_state m m' -> remap writing (u32 addr / PageSize) m m' ->
  expected m addr size writing = Phys a -> expected m' addr size false = Phys a.
Proof.
  intros (_ & _ & _ & Hsz & Hn) Hr. unfold expected. rewrite Hsz, Hn.
  destruct (negb _); [done|]. destruct (_ && (_ <=? _)); [done|].
  rewrite Hr by (apply Z.div_pos; [apply u32_range | done]). rewrite Z.eqb_refl.
  destruct (mapping m _) as [e|]; [|done]. cbn.
  destruct (readOnly e && writing); [done|]. rewrite andb_false_r. by destruct (_ <=? _).
Qed.

(** Reading [size] bytes that a successful translation reaches. *)
Lemma ReadMem_spec m w addr size a bs :
  wf_machine m -> size = 1 \/ size = 2 \/ size = 4 -> expected m addr size false = Phys a ->
  Forall is_i8 bs -> Z.of_nat (length bs) = size -> bytes_at (mainMemory m) a bs ->
  exists m', ReadMem big addr size (m, w) = Ret (Some (of_bytes size bs), (m', w)) /\
    wf_machine m' /\ mainMemory m' = mainMemory m /\ registers m' = registers m.
Proof.
  intros Hwf Hsz He Hi Hlen Hb.
  destruct (Translate_spec m addr size false Hwf Hsz) as (m1 & Ht & Hwf1 & (Hm1 & Hr1 & _) & _).
  destruct (expected_bounds _ _ _ _ _ Hsz He) as (Ha & Ha' & _). unfold ReadMem. rewrite Ht, He. cbn [bind].
  rewrite Hm1. destruct (touch_spec m1 w a Hwf1) as (m2 & Htouch & Hwf2 & Hm2 & Hr2 & _); [lia|].
  exists m2. split; [|split; [done|]; split; congruence].
  assert (Hat : forall k b, bs !! k = Some b -> aref (mainMemory m) (a + Z.of_nat k) = Ret b)
    by (intros; by eapply bytes_at_aref).
  destruct Hsz as [-> | [-> | ->]]; cbn [Z.eqb Pos.eqb].
  - destruct bs as [|b0 [|]]; try (cbn in Hlen; lia).
    pose proof (Hat 0%nat b0 eq_refl) as H0. rewrite Z.add_0_r in H0. rewrite H0. cbn [bind].
    rewrite Htouch. unfold of_bytes. cbn. do 3 f_equal. inversion_clear Hi.
    rewrite Z.add_0_r. rewrite <- (i8_small b0) at 1 by done. apply i8_eq. unfold u8. by rewrite Z.mod_mod.
  - destruct bs as [|b0 [|b1 [|]]]; try (cbn in Hlen; lia).
    pose proof (Hat 0%nat b0 eq_refl) as H0. pose proof (Hat 1%nat b1 eq_refl) as H1.
    rewrite Z.add_0_r in H0. change (Z.of_nat 1) with 1 in H1. unfold load_short. rewrite H0. cbn [bind]. rewrite H1. cbn [bind].
    rewrite ShortToHost_le. by rewrite Htouch.
  - destruct bs as [|b0 [|b1 [|b2 [|b3 [|]]]]]; try (cbn in Hlen; lia).
    pose proof (Hat 0%nat b0 eq_refl) as H0. pose proof (Hat 1%nat b1 eq_refl) as H1.
    pose proof (Hat 2%nat b2 eq_refl) as H2. pose proof (Hat 3%nat b3 eq_refl) as H3.
    rewrite Z.add_0_r in H0. change (Z.of_nat 1) with 1 in H1. change (Z.of_nat 2) with 2 in H2.
    change (Z.of_nat 3) with 3 in H3. unfold load_word. rewrite H0. cbn [bind]. rewrite H1. cbn [bind].
    rewrite H2. cbn [bind]. rewrite H3. cbn [bind]. rewrite WordToHost_le. by rewrite Htouch.
Qed.

Lemma WriteMem_spec m w addr size v a :
  wf_machine m -> size = 1 \/ size = 2 \/ size = 4 -> expected m addr size true = Phys a ->
  exists m', WriteMem big addr size v (m, w) = Ret (true, (m', w)) /\ wf_machine m' /\
    registers m' = registers m /\
    mainMemory m' = list_inserts (Z.to_nat a) (le_bytes (Z.to_nat size) v) (mainMemory m) /\
    expected m' addr size false = Phys a.
Proof.
  intros Hwf Hsz He.
  destruct (Translate_spec m addr size true Hwf Hsz) as (m1 & Ht & Hwf1 & Hs & Hr).
  rewrite He in Hr. pose proof Hs as (Hm1 & Hr1 & _).
  destruct (expected_bounds _ _ _ _ _ Hsz He) as (Ha & Ha' & _). unfold WriteMem. rewrite Ht, He. cbn [bind].
  assert (Hstore : (if size =? 1 then aset (mainMemory m1) a (i8 (Z.land v 255))
      else if size =? 2 then store_bytes (mainMemory m1) a (short_bytes big (ShortToMachine big (u16 (Z.land v 65535))))
      else if size =? 4 then store_bytes (mainMemory m1) a (word_bytes big (WordToMachine big (u32 v)))
      else Abort) = Ret (list_inserts (Z.to_nat a) (le_bytes (Z.to_nat size) v) (mainMemory m1))).
  { pose proof (wf_memory m Hwf) as Hlen. rewrite Hm1.
    destruct Hsz as [-> | [-> | ->]]; cbn [Z.eqb Pos.eqb].
    - rewrite aset_in by lia. change (Z.to_nat 1) with 1%nat. cbn [le_bytes list_inserts]. do 2 f_equal. apply i8_eq. change 255 with (Z.ones 8).
      rewrite Z.land_ones by lia. by rewrite Z.mod_mod.
    - rewrite short_bytes_le, store_bytes_spec by (rewrite ?le_bytes_length; lia). done.
    - rewrite word_bytes_le, store_bytes_spec by (rewrite ?le_bytes_length; lia). done. }
  rewrite Hstore. cbn [bind].
  destruct (touch_spec _ w a (wf_set_mainMemory m1 _ (Z.to_nat a) Hwf1 (le_bytes_i8 (Z.to_nat size) v)))
    as (m2 & -> & Hwf2 & Hm2 & Hr2 & Ht2 & Hp2 & Hs2); [lia|].
  cbn [bind]. exists m2. split; [done|]. split; [done|]. split; [by rewrite Hr2|].
  split; [by rewrite Hm2, <- Hm1|].
  rewrite (expected_ext m1) by done. by eapply expected_again.
Qed.

(** Machine::WriteMem and ReadMem. On a host of either byte order, a write the
    tables allow stores exactly [size] bytes, least significant first, at the
    translated address and nowhere else; a following read of the same address
    gives the value back, truncated to [size] bytes (sign-extended when it is one
    byte), and leaves memory and registers alone. A write they do not allow traps
    to the kernel with the exception the translation calls for. *)
Theorem WriteMem_ReadMem m w addr size v :
  wf_machine m -> size = 1 \/ size = 2 \/ size = 4 ->
  match expected m addr size true with
  | Phys a =>
      exists m', WriteMem big addr size v (m, w) = Ret (true, (m', w)) /\ wf_machine m' /\
        registers m' = registers m /\
        mainMemory m' = list_inserts (Z.to_nat a) (le_bytes (Z.to_nat size) v) (mainMemory m) /\
        exists m'', ReadMem big addr size (m', w) =
                      Ret (Some (if size =? 1 then i8 v else if size =? 2 then u16 v else i32 v), (m'', w)) /\
          wf_machine m'' /\ mainMemory m'' = mainMemory m' /\ registers m'' = registers m'
  | Fault e =>
      WriteMem big addr size v (m, w) = (let! s := RaiseException e addr (m, w) in Ret (false, s))
  end.
Proof.
  intros Hwf Hsz. destruct (expected m addr size true) as [e|a] eqn:He.
  - destruct (Translate_spec m addr size true Hwf Hsz) as (m1 & Ht & _ & _ & Hm).
    rewrite He in Ht, Hm. subst m1. unfold WriteMem. by rewrite Ht.
  - destruct (WriteMem_spec m w addr size v a Hwf Hsz He) as (m1 & Hw & Hwf1 & Hr1 & Hm1 & He1).
    destruct (expected_bounds _ _ _ _ _ Hsz He) as (Ha & Ha' & _).
    exists m1. do 4 (split; [done|]).
    destruct (ReadMem_spec m1 w addr size a (le_bytes (Z.to_nat size) v) Hwf1 Hsz He1)
      as (m2 & Hread & Hwf2 & Hm2 & Hr2); [apply le_bytes_i8 | rewrite le_bytes_length; lia | |].
    { rewrite Hm1. apply bytes_at_inserts; [done|]. rewrite le_bytes_length, (wf_memory m Hwf). lia. }
    exists m2. split; [|done]. rewrite Hread. do 3 f_equal. unfold of_bytes. rewrite le_bytes_value.
    destruct Hsz as [-> | [-> | ->]]; cbn [Z.eqb Pos.eqb Z.to_nat]; [|done|].
    + apply i8_eq. by rewrite Z.mod_mod.
    + exact (i32_u32 v).
Qed.
End Access.

(** A new machine with a TLB is well formed. *)
Lemma new_Machine_wf debug g size until ticks :
  wf_machine (new_Machine true debug g size until ticks).
Proof.
  split; [split|]; cbn [new_Machine mainMemory registers tlb pageTable lastUsed].
  - apply length_replicate.
  - by apply Forall_replicate.
  - done.
  - by apply Forall_replicate.
  - by exists 0.
  - apply length_replicate.
  - done.
  - by intros ? [= <-].
  - done.
  - done.
Qed.

(** ** A concrete machine *)

Module Demo.

(** A kernel that records the exceptions it handles. *)
#[export] Instance log_kernel : Kernel (list ExceptionType) :=
  {| ExceptionHandler e '(m, w) := Ret (m, w ++ [e]); setMachineStatus _ w := w; kernelTicks _ := 7 |}.

Definition no_entry : TranslationEntry := mkTE 0 0 false false false false.

Definition demo_tlb : list TranslationEntry :=
  [mkTE 9 1 false false false false; mkTE 2 5 true false false false;
   mkTE 3 6 true true false false; mkTE 4 300 true false false false].

Definition demo : Machine := set_tlb (Some demo_tlb) (new_Machine true false no_entry 0 0 0).

Lemma demo_wf : wf_machine demo.
Proof. eapply wf_set_tlb; [apply new_Machine_wf | done | done]. Qed.

(** Misaligned, unmapped, read-only, impossible frame, and two successes. *)
Example demo_translate :
  map (fun '(a, n, wr) => expected demo a n wr)
    [(258, 4, false); (128, 4, false); (388, 4, true); (512, 1, false); (388, 4, false); (261, 1, true)]
  = [Fault AddressErrorException; Fault PageFaultException; Fault ReadOnlyException;
     Fault BusErrorException; Phys 772; Phys 645].
Proof. vm_compute. reflexivity. Qed.

Lemma Translate_correct_witness :
  exists m', Translate demo 261 1 true = Ret (Phys 645, m') /\
    mapping m' 2 = Some (mkTE 2 5 true false true true).
Proof.
  destruct (Translate_correct demo 261 1 true demo_wf (or_introl eq_refl)) as (m' & Ht & _ & _ & _ & _ & _ & Hr).
  exists m'. split; [exact Ht|]. rewrite Hr by done. reflexivity.
Defined.

Lemma WriteMem_ReadMem_witness :
  exists m' m'', WriteMem true 260 4 (-2) (demo, []) = Ret (true, (m', [])) /\
    ReadMem true 260 4 (m', []) = Ret (Some (-2), (m'', [])).
Proof.
  destruct (WriteMem_ReadMem true demo [] 260 4 (-2) demo_wf (or_intror (or_intror eq_refl)))
    as (m' & Hw & _ & _ & _ & m'' & Hr & _).
  exists m', m''. split; [exact Hw | exact Hr].
Defined.
End Demo.
