(* ===== verification/Mips.v ===== *)
(** * The MIPS processor (machine/mipssim.h, mipssim.cc, class Instruction)

    Decoding, one definition per group of neighbouring cases of the big switch of
    Machine::OneInstruction, the multiplier, delayed loads and branch delay slots,
    and the fetch-execute loop. A [return] from the middle of OneInstruction,
    after the kernel has handled an exception, is [Early]; falling out of the
    switch is [Next], which carries [pcAfter], [nextLoadReg] and [nextLoadValue]. *)

From S2P Require Import Prelude Interrupt Machine.

(** ** Opcodes and decoding tables *)

Inductive OpCode :=
| OP_ADD | OP_ADDI | OP_ADDIU | OP_ADDU | OP_AND | OP_ANDI | OP_BEQ | OP_BGEZ | OP_BGEZAL
| OP_BGTZ | OP_BLEZ | OP_BLTZ | OP_BLTZAL | OP_BNE | OP_DIV | OP_DIVU | OP_J | OP_JAL | OP_JALR
| OP_JR | OP_LB | OP_LBU | OP_LH | OP_LHU | OP_LUI | OP_LW | OP_LWL | OP_LWR | OP_MFHI | OP_MFLO
| OP_MTHI | OP_MTLO | OP_MULT | OP_MULTU | OP_NOR | OP_OR | OP_ORI | OP_RFE | OP_SB | OP_SH
| OP_SLL | OP_SLLV | OP_SLT | OP_SLTI | OP_SLTIU | OP_SLTU | OP_SRA | OP_SRAV | OP_SRL | OP_SRLV
| OP_SUB | OP_SUBU | OP_SW | OP_SWL | OP_SWR | OP_XOR | OP_XORI | OP_SYSCALL | OP_UNIMP | OP_RES
| SPECIAL | BCOND.

#[export] Instance OpCode_eq_dec : EqDecision OpCode.
Proof. solve_decision. Defined.

Inductive Format := IFMT | JFMT | RFMT.

Definition opTable : list (OpCode * Format) := [
  (SPECIAL, RFMT); (BCOND, IFMT); (OP_J, JFMT); (OP_JAL, JFMT);
  (OP_BEQ, IFMT); (OP_BNE, IFMT); (OP_BLEZ, IFMT); (OP_BGTZ, IFMT);
  (OP_ADDI, IFMT); (OP_ADDIU, IFMT); (OP_SLTI, IFMT); (OP_SLTIU, IFMT);
  (OP_ANDI, IFMT); (OP_ORI, IFMT); (OP_XORI, IFMT); (OP_LUI, IFMT);
  (OP_UNIMP, IFMT); (OP_UNIMP, IFMT); (OP_UNIMP, IFMT); (OP_UNIMP, IFMT);
  (OP_RES, IFMT); (OP_RES, IFMT); (OP_RES, IFMT); (OP_RES, IFMT);
  (OP_RES, IFMT); (OP_RES, IFMT); (OP_RES, IFMT); (OP_RES, IFMT);
  (OP_RES, IFMT); (OP_RES, IFMT); (OP_RES, IFMT); (OP_RES, IFMT);
  (OP_LB, IFMT); (OP_LH, IFMT); (OP_LWL, IFMT); (OP_LW, IFMT);
  (OP_LBU, IFMT); (OP_LHU, IFMT); (OP_LWR, IFMT); (OP_RES, IFMT);
  (OP_SB, IFMT); (OP_SH, IFMT); (OP_SWL, IFMT); (OP_SW, IFMT);
  (OP_RES, IFMT); (OP_RES, IFMT); (OP_SWR, IFMT); (OP_RES, IFMT);
  (OP_UNIMP, IFMT); (OP_UNIMP, IFMT); (OP_UNIMP, IFMT); (OP_UNIMP, IFMT);
  (OP_RES, IFMT); (OP_RES, IFMT); (OP_RES, IFMT); (OP_RES, IFMT);
  (OP_UNIMP, IFMT); (OP_UNIMP, IFMT); (OP_UNIMP, IFMT); (OP_UNIMP, IFMT);
  (OP_RES, IFMT); (OP_RES, IFMT); (OP_RES, IFMT); (OP_RES, IFMT)].

Definition specialTable : list OpCode := [
  OP_SLL; OP_RES; OP_SRL; OP_SRA; OP_SLLV; OP_RES; OP_SRLV; OP_SRAV;
  OP_JR; OP_JALR; OP_RES; OP_RES; OP_SYSCALL; OP_UNIMP; OP_RES; OP_RES;
  OP_MFHI; OP_MTHI; OP_MFLO; OP_MTLO; OP_RES; OP_RES; OP_RES; OP_RES;
  OP_MULT; OP_MULTU; OP_DIV; OP_DIVU; OP_RES; OP_RES; OP_RES; OP_RES;
  OP_ADD; OP_ADDU; OP_SUB; OP_SUBU; OP_AND; OP_OR; OP_XOR; OP_NOR;
  OP_RES; OP_RES; OP_SLT; OP_SLTU; OP_RES; OP_RES; OP_RES; OP_RES;
  OP_RES; OP_RES; OP_RES; OP_RES; OP_RES; OP_RES; OP_RES; OP_RES;
  OP_RES; OP_RES; OP_RES; OP_RES; OP_RES; OP_RES; OP_RES; OP_RES].

Record Instruction := mkInstr { opCode : OpCode; rs : Z; rt : Z; rd : Z; extra : Z }.

Definition Decode (value : Z) : C Instruction :=
  let rs := Z.land (Z.shiftr value 21) 0x1f in
  let rt := Z.land (Z.shiftr value 16) 0x1f in
  let rd := Z.land (Z.shiftr value 11) 0x1f in
  let! (op, format) := aref opTable (Z.land (Z.shiftr value 26) 0x3f) in
  let extra :=
    match format with
    | IFMT =>
        let extra := Z.land value 0xffff in
        if negb (Z.land extra 0x8000 =? 0) then i32 (Z.lor extra 0xffff0000) else extra
    | RFMT => Z.land (Z.shiftr value 6) 0x1f
    | JFMT => Z.land value 0x3ffffff
    end in
  let! op :=
    match op with
    | SPECIAL => aref specialTable (Z.land value 0x3f)
    | BCOND =>
        let i := Z.land value 0x1f0000 in
        Ret (if i =? 0 then OP_BLTZ
             else if i =? 0x10000 then OP_BGEZ
             else if i =? 0x100000 then OP_BLTZAL
             else if i =? 0x110000 then OP_BGEZAL
             else OP_UNIMP)
    | op => Ret op
    end in
  Ret (mkInstr op rs rt rd extra).

(** ** The multiplier *)

(** One iteration of the shift-and-add loop, on [(a, bHi, bLo, hi, lo)]; the
    boolean is the [break]. *)
Definition Mult_step (a bHi bLo hi lo : Z) : bool * (Z * Z * Z * Z * Z) :=
  let '(brk, hi, lo) :=
    if negb (Z.land a 1 =? 0) then
      let lo := u32 (lo + bLo) in
      let hi := if lo <? bLo then u32 (hi + 1) else hi in
      let hi := u32 (hi + bHi) in
      (Z.land (u32 a) 0xfffffffe =? 0, hi, lo)
    else (false, hi, lo) in
  if (brk : bool) then (true, (a, bHi, bLo, hi, lo))
  else
    let bHi := u32 (Z.shiftl bHi 1) in
    let bHi := if negb (Z.land bLo 0x80000000 =? 0) then Z.lor bHi 1 else bHi in
    let bLo := u32 (Z.shiftl bLo 1) in
    let a := Z.shiftr a 1 in
    (false, (a, bHi, bLo, hi, lo)).

(** [for (int i = 0; i < 32; i++)] *)
Fixpoint Mult_loop (n : nat) (a bHi bLo hi lo : Z) : Z * Z :=
  match n with
  | O => (hi, lo)
  | S n =>
      let '(brk, (a, bHi, bLo, hi, lo)) := Mult_step a bHi bLo hi lo in
      if (brk : bool) then (hi, lo) else Mult_loop n a bHi bLo hi lo
  end.

(** The pair ( *hiPtr, *loPtr). *)
Definition Mult (a b : Z) (signedArith : bool) : Z * Z :=
  if (a =? 0) || (b =? 0) then (0, 0)
  else
    let '(negative, a) := if signedArith && (a <? 0) then (true, i32 (- a)) else (false, a) in
    let '(negative, b) := if signedArith && (b <? 0) then (negb negative, i32 (- b)) else (negative, b) in
    let '(hi, lo) := Mult_loop 32 a 0 (u32 b) 0 0 in
    let '(hi, lo) :=
      if negative then
        let hi := u32 (Z.lnot hi) in
        let lo := u32 (Z.lnot lo) in
        let lo := u32 (lo + 1) in
        (if lo =? 0 then u32 (hi + 1) else hi, lo)
      else (hi, lo) in
    (i32 hi, i32 lo).

(** ** Execution *)

Inductive exit := Early | Next (pcAfter nextLoadReg nextLoadValue : Z).

Definition IndexToAddr (x : Z) : Z := i32 (Z.shiftl x 2).
Definition SIGN_BIT : Z := 0x80000000.
Definition R31 : Z := 31.

(** [x & SIGN_BIT], as a condition. *)
Definition sign (x : Z) : bool := negb (Z.land (u32 x) SIGN_BIT =? 0).

Section Exec.
Context {W : Type} `{!Kernel W}.
Variable big : bool.
Implicit Types (i : Instruction) (m : Machine) (w : W) (s : Machine * W).

(** [break] after an update of the registers. *)
Definition break (pcAfter : Z) (m : C Machine) w : C (exit * (Machine * W)) :=
  let! m := m in Ret (Next pcAfter 0 0, (m, w)).

(** [RaiseException(which, badVAddr); return;] *)
Definition trap (which : ExceptionType) (badVAddr : Z) s : C (exit * (Machine * W)) :=
  let! s := RaiseException which badVAddr s in Ret (Early, s).

Definition exec_add_andi i (pcAfter : Z) '((m, w) : Machine * W) : C (exit * (Machine * W)) :=
  let! a := reg m (rs i) in
  match opCode i with
  | OP_ADD =>
      let! b := reg m (rt i) in
      let sum := i32 (a + b) in
      if negb (sign (Z.lxor a b)) && sign (Z.lxor a sum) then trap OverflowException 0 (m, w)
      else break pcAfter (setreg (rd i) sum m) w
  | OP_ADDI =>
      let sum := i32 (a + extra i) in
      if negb (sign (Z.lxor a (extra i))) && sign (Z.lxor (extra i) sum) then trap OverflowException 0 (m, w)
      else break pcAfter (setreg (rt i) sum m) w
  | OP_ADDIU => break pcAfter (setreg (rt i) (i32 (a + extra i)) m) w
  | OP_ADDU => let! b := reg m (rt i) in break pcAfter (setreg (rd i) (i32 (a + b)) m) w
  | OP_AND => let! b := reg m (rt i) in break pcAfter (setreg (rd i) (Z.land a b) m) w
  | OP_ANDI => break pcAfter (setreg (rt i) (Z.land a (Z.land (extra i) 0xffff)) m) w
  | _ => Abort
  end.

(** [pcAfter = registers[NextPCReg] + IndexToAddr(instr->extra)] when [taken]. *)
Definition branch (taken : bool) i (pcAfter : Z) '((m, w) : Machine * W) : C (exit * (Machine * W)) :=
  let! n := reg m NextPCReg in
  break (if taken then i32 (n + IndexToAddr (extra i)) else pcAfter) (Ret m) w.

(** [registers[r] = registers[NextPCReg] + 4] *)
Definition link (r : Z) m : C Machine := let! n := reg m NextPCReg in setreg r (i32 (n + 4)) m.

Definition exec_branches i (pcAfter : Z) '((m, w) : Machine * W) : C (exit * (Machine * W)) :=
  let! m := match opCode i with OP_BGEZAL | OP_BLTZAL => link R31 m | _ => Ret m end in
  let! a := reg m (rs i) in
  match opCode i with
  | OP_BEQ => let! b := reg m (rt i) in branch (a =? b) i pcAfter (m, w)
  | OP_BGEZAL | OP_BGEZ => branch (negb (sign a)) i pcAfter (m, w)
  | OP_BGTZ => branch (0 <? a) i pcAfter (m, w)
  | OP_BLEZ => branch (a <=? 0) i pcAfter (m, w)
  | OP_BLTZAL | OP_BLTZ => branch (sign a) i pcAfter (m, w)
  | OP_BNE => let! b := reg m (rt i) in branch (negb (a =? b)) i pcAfter (m, w)
  | _ => Abort
  end.

(** C++ [/] and [%] on ints: the quotient of [INT_MIN] and [-1] does not exist. *)
Definition int_div (a b : Z) : C (Z * Z) :=
  if (b =? 0) || ((a =? -2^31) && (b =? -1)) then Undef else Ret (Z.quot a b, Z.rem a b).

Definition exec_div_jr i (pcAfter : Z) '((m, w) : Machine * W) : C (exit * (Machine * W)) :=
  match opCode i with
  | OP_DIV =>
      let! a := reg m (rs i) in let! b := reg m (rt i) in
      let! (q, r) := (if b =? 0 then Ret (0, 0) else int_div a b) in
      break pcAfter (let! m := setreg LoReg q m in setreg HiReg r m) w
  | OP_DIVU =>
      let! a := reg m (rs i) in let! b := reg m (rt i) in
      let rs := u32 a in let rt := u32 b in
      let '(q, r) := if rt =? 0 then (0, 0) else (i32 (rs / rt), i32 (rs mod rt)) in
      break pcAfter (let! m := setreg LoReg q m in setreg HiReg r m) w
  | OP_JAL | OP_J =>
      let! m := match opCode i with OP_JAL => link R31 m | _ => Ret m end in
      break (i32 (Z.lor (Z.land (u32 pcAfter) 0xf0000000) (u32 (IndexToAddr (extra i))))) (Ret m) w
  | OP_JALR | OP_JR =>
      let! m := match opCode i with OP_JALR => link (rd i) m | _ => Ret m end in
      let! a := reg m (rs i) in
      break a (Ret m) w
  | _ => Abort
  end.

(** [tmp = registers[rs] + extra] *)
Definition effective i m : C Z := let! a := reg m (rs i) in Ret (i32 (a + extra i)).

(** [if (!machine->ReadMem(...)) return;] and what follows. *)
Definition with_mem (addr size : Z) s (k : Z -> Machine * W -> C (exit * (Machine * W))) :
    C (exit * (Machine * W)) :=
  let! (v, s) := ReadMem big addr size s in
  match v with None => Ret (Early, s) | Some v => k v s end.

(** The old value under a partial load: a pending load of the same register wins. *)
Definition merge_base i m : C Z :=
  let! l := reg m LoadReg in
  if l =? rt i then reg m LoadValueReg else reg m (rt i).

Definition exec_lb_lw i (pcAfter : Z) '((m, w) : Machine * W) : C (exit * (Machine * W)) :=
  match opCode i with
  | OP_LB | OP_LBU =>
      let! tmp := effective i m in
      with_mem tmp 1 (m, w) (fun value s =>
        let value :=
          if negb (Z.land value 0x80 =? 0) && bool_decide (opCode i = OP_LB)
          then i32 (Z.lor (u32 value) 0xffffff00) else Z.land value 0xff in
        Ret (Next pcAfter (rt i) value, s))
  | OP_LH | OP_LHU =>
      let! tmp := effective i m in
      if negb (Z.land tmp 0x1 =? 0) then trap AddressErrorException tmp (m, w)
      else with_mem tmp 2 (m, w) (fun value s =>
        let value :=
          if negb (Z.land value 0x8000 =? 0) && bool_decide (opCode i = OP_LH)
          then i32 (Z.lor (u32 value) 0xffff0000) else Z.land value 0xffff in
        Ret (Next pcAfter (rt i) value, s))
  | OP_LUI => break pcAfter (setreg (rt i) (i32 (Z.shiftl (extra i) 16)) m) w
  | OP_LW =>
      let! tmp := effective i m in
      if negb (Z.land tmp 0x3 =? 0) then trap AddressErrorException tmp (m, w)
      else with_mem tmp 4 (m, w) (fun value s => Ret (Next pcAfter (rt i) value, s))
  | _ => Abort
  end.

Definition exec_lwl_lwr i (pcAfter : Z) '((m, w) : Machine * W) : C (exit * (Machine * W)) :=
  let! tmp := effective i m in
  let! _ := ASSERT (Z.land tmp 0x3 =? 0) in
  match opCode i with
  | OP_LWL =>
      with_mem tmp 4 (m, w) (fun value '(m, w) =>
        let! old := merge_base i m in
        let new :=
          match Z.land tmp 0x3 with
          | 0 => value
          | 1 => Z.lor (Z.land old 0xff) (i32 (Z.shiftl value 8))
          | 2 => Z.lor (Z.land old 0xffff) (i32 (Z.shiftl value 16))
          | _ => Z.lor (Z.land old 0xffffff) (i32 (Z.shiftl value 24))
          end in
        Ret (Next pcAfter (rt i) new, (m, w)))
  | OP_LWR =>
      with_mem tmp 4 (m, w) (fun value '(m, w) =>
        let! old := merge_base i m in
        let new :=
          match Z.land tmp 0x3 with
          | 0 => i32 (Z.lor (Z.land (u32 old) 0xffffff00) (Z.land (Z.shiftr value 24) 0xff))
          | 1 => i32 (Z.lor (Z.land (u32 old) 0xffff0000) (Z.land (Z.shiftr value 16) 0xffff))
          | 2 => i32 (Z.lor (Z.land (u32 old) 0xff000000) (Z.land (Z.shiftr value 8) 0xffffff))
          | _ => value
          end in
        Ret (Next pcAfter (rt i) new, (m, w)))
  | _ => Abort
  end.

Definition exec_mfhi_ori i (pcAfter : Z) '((m, w) : Machine * W) : C (exit * (Machine * W)) :=
  let! a := reg m (rs i) in
  let! b := reg m (rt i) in
  match opCode i with
  | OP_MFHI => let! h := reg m HiReg in break pcAfter (setreg (rd i) h m) w
  | OP_MFLO => let! l := reg m LoReg in break pcAfter (setreg (rd i) l m) w
  | OP_MTHI => break pcAfter (setreg HiReg a m) w
  | OP_MTLO => break pcAfter (setreg LoReg a m) w
  | OP_MULT =>
      let '(hi, lo) := Mult a b true in
      break pcAfter (let! m := setreg HiReg hi m in setreg LoReg lo m) w
  | OP_MULTU =>
      let '(hi, lo) := Mult a b false in
      break pcAfter (let! m := setreg HiReg hi m in setreg LoReg lo m) w
  | OP_NOR => break pcAfter (setreg (rd i) (Z.lnot (Z.lor a b)) m) w
  | OP_OR => break pcAfter (setreg (rd i) (Z.lor a a) m) w
  | OP_ORI => break pcAfter (setreg (rt i) (Z.lor a (Z.land (extra i) 0xffff)) m) w
  | _ => Abort
  end.

(** [if (!machine->WriteMem(addr, size, value)) return; break;] *)
Definition write_mem (addr size value pcAfter : Z) s : C (exit * (Machine * W)) :=
  let! (ok, s) := WriteMem big addr size value s in
  Ret (if (ok : bool) then Next pcAfter 0 0 else Early, s).

Definition exec_sb_sh i (pcAfter : Z) '((m, w) : Machine * W) : C (exit * (Machine * W)) :=
  let! tmp := effective i m in
  let! b := reg m (rt i) in
  match opCode i with
  | OP_SB => write_mem tmp 1 b pcAfter (m, w)
  | OP_SH => write_mem tmp 2 b pcAfter (m, w)
  | _ => Abort
  end.

Definition exec_sll_srlv i (pcAfter : Z) '((m, w) : Machine * W) : C (exit * (Machine * W)) :=
  let! a := reg m (rs i) in
  let! b := reg m (rt i) in
  match opCode i with
  | OP_SLL => break pcAfter (setreg (rd i) (i32 (Z.shiftl b (extra i))) m) w
  | OP_SLLV => break pcAfter (setreg (rd i) (i32 (Z.shiftl b (Z.land a 0x1f))) m) w
  | OP_SLT => break pcAfter (setreg (rd i) (if a <? b then 1 else 0) m) w
  | OP_SLTI => break pcAfter (setreg (rt i) (if a <? extra i then 1 else 0) m) w
  | OP_SLTIU => break pcAfter (setreg (rt i) (if u32 a <? u32 (extra i) then 1 else 0) m) w
  | OP_SLTU => break pcAfter (setreg (rd i) (if u32 a <? u32 b then 1 else 0) m) w
  | OP_SRA => break pcAfter (setreg (rd i) (Z.shiftr b (extra i)) m) w
  | OP_SRAV => break pcAfter (setreg (rd i) (Z.shiftr b (Z.land a 0x1f)) m) w
  | OP_SRL => break pcAfter (setreg (rd i) (Z.shiftr b (extra i)) m) w
  | OP_SRLV => break pcAfter (setreg (rd i) (Z.shiftr b (Z.land a 0x1f)) m) w
  | _ => Abort
  end.

Definition exec_sub_subu i (pcAfter : Z) '((m, w) : Machine * W) : C (exit * (Machine * W)) :=
  let! a := reg m (rs i) in
  let! b := reg m (rt i) in
  let diff := i32 (a - b) in
  match opCode i with
  | OP_SUB =>
      if sign (Z.lxor a b) && sign (Z.lxor a diff) then trap OverflowException 0 (m, w)
      else break pcAfter (setreg (rd i) diff m) w
  | OP_SUBU => break pcAfter (setreg (rd i) diff m) w
  | _ => Abort
  end.

Definition exec_sw_swr i (pcAfter : Z) '((m, w) : Machine * W) : C (exit * (Machine * W)) :=
  let! tmp := effective i m in
  let word := Z.land tmp (Z.lnot 0x3) in
  match opCode i with
  | OP_SW => let! b := reg m (rt i) in write_mem tmp 4 b pcAfter (m, w)
  | OP_SWL =>
      let! _ := ASSERT (Z.land tmp 0x3 =? 0) in
      with_mem word 4 (m, w) (fun value '(m, w) =>
        let! b := reg m (rt i) in
        let value :=
          match Z.land tmp 0x3 with
          | 0 => b
          | 1 => i32 (Z.lor (Z.land (u32 value) 0xff000000) (Z.land (Z.shiftr b 8) 0xffffff))
          | 2 => i32 (Z.lor (Z.land (u32 value) 0xffff0000) (Z.land (Z.shiftr b 16) 0xffff))
          | _ => i32 (Z.lor (Z.land (u32 value) 0xffffff00) (Z.land (Z.shiftr b 24) 0xff))
          end in
        write_mem word 4 value pcAfter (m, w))
  | OP_SWR =>
      let! _ := ASSERT (Z.land tmp 0x3 =? 0) in
      with_mem word 4 (m, w) (fun value '(m, w) =>
        let! b := reg m (rt i) in
        let value :=
          match Z.land tmp 0x3 with
          | 0 => Z.lor (Z.land value 0xffffff) (i32 (Z.shiftl b 24))
          | 1 => Z.lor (Z.land value 0xffff) (i32 (Z.shiftl b 16))
          | 2 => Z.lor (Z.land value 0xff) (i32 (Z.shiftl b 8))
          | _ => b
          end in
        write_mem word 4 value pcAfter (m, w))
  | _ => Abort
  end.

Definition exec_syscall_res i (pcAfter : Z) '((m, w) : Machine * W) : C (exit * (Machine * W)) :=
  let! a := reg m (rs i) in
  let! b := reg m (rt i) in
  match opCode i with
  | OP_SYSCALL => trap SyscallException 0 (m, w)
  | OP_XOR => break pcAfter (setreg (rd i) (Z.lxor a b) m) w
  | OP_XORI => break pcAfter (setreg (rt i) (Z.lxor a (Z.land (extra i) 0xffff)) m) w
  | OP_RES | OP_UNIMP => trap IllegalInstrException 0 (m, w)
  | _ => Abort
  end.

(** The switch. *)
Definition execute i (pcAfter : Z) s : C (exit * (Machine * W)) :=
  match opCode i with
  | OP_ADD | OP_ADDI | OP_ADDIU | OP_ADDU | OP_AND | OP_ANDI => exec_add_andi i pcAfter s
  | OP_BEQ | OP_BGEZAL | OP_BGEZ | OP_BGTZ | OP_BLEZ | OP_BLTZAL | OP_BLTZ | OP_BNE =>
      exec_branches i pcAfter s
  | OP_DIV | OP_DIVU | OP_JAL | OP_J | OP_JALR | OP_JR => exec_div_jr i pcAfter s
  | OP_LB | OP_LBU | OP_LH | OP_LHU | OP_LUI | OP_LW => exec_lb_lw i pcAfter s
  | OP_LWL | OP_LWR => exec_lwl_lwr i pcAfter s
  | OP_MFHI | OP_MFLO | OP_MTHI | OP_MTLO | OP_MULT | OP_MULTU | OP_NOR | OP_OR | OP_ORI =>
      exec_mfhi_ori i pcAfter s
  | OP_SB | OP_SH => exec_sb_sh i pcAfter s
  | OP_SLL | OP_SLLV | OP_SLT | OP_SLTI | OP_SLTIU | OP_SLTU | OP_SRA | OP_SRAV | OP_SRL | OP_SRLV =>
      exec_sll_srlv i pcAfter s
  | OP_SUB | OP_SUBU => exec_sub_subu i pcAfter s
  | OP_SW | OP_SWL | OP_SWR => exec_sw_swr i pcAfter s
  | OP_SYSCALL | OP_XOR | OP_XORI | OP_RES | OP_UNIMP => exec_syscall_res i pcAfter s
  | OP_RFE | SPECIAL | BCOND => Abort
  end.

(** After the switch: the delayed load, then the program counters. *)
Definition retire (pcAfter nextLoadReg nextLoadValue : Z) m : C Machine :=
  let! m := DelayedLoad nextLoadReg nextLoadValue m in
  let! pc := reg m PCReg in
  let! m := setreg PrevPCReg pc m in
  let! n := reg m NextPCReg in
  let! m := setreg PCReg n m in
  setreg NextPCReg pcAfter m.

Definition OneInstruction s : C (Machine * W) :=
  let! pc := reg s.1 PCReg in
  let! (raw, s) := ReadMem big pc 4 s in
  match raw with
  | None => Ret s
  | Some raw =>
      let! instr := Decode (u32 raw) in
      let! n := reg s.1 NextPCReg in
      let pcAfter := i32 (n + 4) in
      let! (r, (m, w)) := execute instr pcAfter s in
      match r with
      | Early => Ret (m, w)
      | Next pcAfter nextLoadReg nextLoadValue =>
          let! m := retire pcAfter nextLoadReg nextLoadValue m in Ret (m, w)
      end
  end.

(** Machine::Run: interrupt->OneTick() and Debugger() are given, the loop that
    never ends is run for [n] rounds. *)
Variable OneTick Debugger : Machine * W -> C (Machine * W).

Definition Run_round s : C (Machine * W) :=
  let! s := OneInstruction s in
  let! s := OneTick s in
  if singleStep s.1 && (runUntilTime s.1 <=? kernelTicks s.2) then Debugger s else Ret s.

Fixpoint Run_loop (n : nat) s : C (Machine * W) :=
  match n with O => Ret s | S n => let! s := Run_round s in Run_loop n s end.

Definition Run (n : nat) '((m, w) : Machine * W) : C (Machine * W) :=
  Run_loop n (m, setMachineStatus UserMode w).
End Exec.

(** ** The multiplier computes products *)

Lemma land_pow2 x k : 0 <= k -> Z.land x (2^k) = if Z.testbit x k then 2^k else 0.
Proof.
  intros Hk. apply Z.bits_inj'. intros j Hj. rewrite Z.land_spec, Z.pow2_bits_eqb by done.
  destruct (Z.eqb_spec k j) as [<-|Hne]; destruct (Z.testbit x k) eqn:E;
    rewrite ?andb_true_r, ?andb_false_r, ?Z.bits_0, ?E, ?Z.pow2_bits_true by done; try done.
  rewrite Z.pow2_bits_false by done. done.
Qed.

Lemma testbit_top x : is_u32 x -> Z.testbit x 31 = (2^31 <=? x).
Proof.
  unfold is_u32. intros Hx. rewrite Z.testbit_odd, Z.shiftr_div_pow2 by lia.
  destruct (Z.leb_spec (2^31) x).
  - replace (x / 2^31) with 1 by (apply Z.div_unique with (x - 2^31); lia). done.
  - by rewrite Z.div_small by lia.
Qed.

Lemma top_bit x : is_u32 x -> (Z.land x 0x80000000 =? 0) = (x <? 2^31).
Proof.
  intros Hx. change 0x80000000 with (2^31). rewrite land_pow2, testbit_top by done.
  destruct (Z.leb_spec (2^31) x), (Z.ltb_spec x (2^31)); lia || done.
Qed.

Lemma sign_spec a : is_i32 a -> sign a = (a <? 0).
Proof.
  intros Ha. unfold sign, SIGN_BIT. rewrite top_bit by apply u32_range.
  unfold is_i32 in Ha. rewrite u32_of_i32 by done.
  destruct (Z.ltb_spec a 0); [rewrite (proj2 (Z.ltb_ge _ _))|rewrite (proj2 (Z.ltb_lt _ _))];
    lia || done.
Qed.

Lemma low_bit a : Z.land a 1 = a mod 2.
Proof. change 1 with (Z.ones 1). by rewrite Z.land_ones. Qed.

Lemma mod_succ a n : 0 <= n -> a mod 2^(n + 1) = a mod 2 + 2 * (Z.shiftr a 1 mod 2^n).
Proof.
  intros Hn. rewrite Z.shiftr_div_pow2 by lia.
  rewrite Z.pow_add_r, (Z.mul_comm (2^n)), Z.rem_mul_r by lia. done.
Qed.

Lemma break_value a n :
  a mod 2 = 1 -> Z.land (u32 a) 0xfffffffe = 0 -> 1 <= n <= 32 -> a mod 2^n = 1.
Proof.
  intros Ho Hz Hn.
  assert (u32 a = 1) as Hu.
  { assert (u32 a / 2 = 0) as Hd.
    { apply Z.bits_inj'. intros j Hj. rewrite Z.bits_0, <- Z.div2_div, Z.div2_spec, Z.shiftr_spec by done.
      destruct (Z.lt_ge_cases (j + 1) 32).
      - apply (f_equal (fun z => Z.testbit z (j + 1))) in Hz. rewrite Z.land_spec, Z.bits_0 in Hz.
        replace (Z.testbit 4294967294 (j + 1)) with true in Hz; [by rewrite andb_true_r in Hz|].
        change 4294967294 with (2 * Z.ones 31). rewrite Z.add_1_r, Z.double_bits_succ.
        symmetry. apply Z.ones_spec_low. lia.
      - apply u32_bits; [apply u32_range | lia]. }
    pose proof (Z.div_mod (u32 a) 2 ltac:(lia)) as Hm. rewrite Hd in Hm.
    assert (u32 a mod 2 = a mod 2); [|lia].
    unfold u32. rewrite Z.mod_mod_divide; [done|]. by exists (2^31). }
  unfold u32 in Hu. rewrite <- (Z.mod_mod_divide a (2^32) (2^n)), Hu.
  - apply Z.mod_small. split; [lia|]. apply Z.pow_gt_1; lia.
  - exists (2^(32 - n)). rewrite <- Z.pow_add_r by lia. f_equal. lia.
Qed.

(** The accumulator and the shifted multiplicand as 64-bit numbers. *)
Definition dword (hi lo : Z) : Z := hi * 2^32 + lo.

(** Adding the multiplicand with the carry test of the loop. *)
Lemma add_carry bHi bLo hi lo :
  is_u32 bHi -> is_u32 bLo -> is_u32 hi -> is_u32 lo ->
  dword hi lo + dword bHi bLo < 2^64 ->
  let lo' := u32 (lo + bLo) in
  let hi' := u32 ((if lo' <? bLo then u32 (hi + 1) else hi) + bHi) in
  dword hi' lo' = dword hi lo + dword bHi bLo /\ is_u32 hi' /\ is_u32 lo'.
Proof.
  intros Hbh Hbl Hh Hl Hsum. cbn zeta.
  split; [|split; apply u32_range]. unfold dword, is_u32 in *.
  destruct (Z.lt_ge_cases (lo + bLo) (2^32)).
  - rewrite (u32_small (lo + bLo)) by (unfold is_u32; lia). rewrite (proj2 (Z.ltb_ge _ _)) by lia.
    rewrite u32_small by (unfold is_u32; lia). lia.
  - assert (u32 (lo + bLo) = lo + bLo - 2^32) as ->
      by (unfold u32; symmetry; apply Z.mod_unique with 1; lia).
    rewrite (proj2 (Z.ltb_lt _ _)) by lia. rewrite (u32_small (hi + 1)) by (unfold is_u32; lia).
    rewrite u32_small by (unfold is_u32; lia). lia.
Qed.

(** Doubling the multiplicand. *)
Lemma double_dword bHi bLo :
  is_u32 bHi -> is_u32 bLo -> 2 * dword bHi bLo < 2^64 ->
  let bHi' := u32 (Z.shiftl bHi 1) in
  let bHi' := if negb (Z.land bLo 0x80000000 =? 0) then Z.lor bHi' 1 else bHi' in
  let bLo' := u32 (Z.shiftl bLo 1) in
  dword bHi' bLo' = 2 * dword bHi bLo /\ is_u32 bHi' /\ is_u32 bLo'.
Proof.
  unfold dword. intros Hbh Hbl Hlt. cbn zeta. rewrite top_bit by done.
  rewrite !Z.shiftl_mul_pow2 by lia. unfold is_u32 in *.
  rewrite (u32_small (bHi * 2^1)) by (unfold is_u32; lia).
  assert (Z.lor (bHi * 2^1) 1 = 1 + bHi * 2^1) as -> by (rewrite Z.lor_comm; apply lor_add; lia).
  destruct (Z.ltb_spec bLo (2^31)); cbn [negb].
  - rewrite u32_small by (unfold is_u32; lia). lia.
  - assert (u32 (bLo * 2^1) = bLo * 2 - 2^32) as -> by (unfold u32; symmetry; apply Z.mod_unique with 1; lia).
    lia.
Qed.

(** The loop adds the product of the remaining bits of [a]. *)
Lemma Mult_loop_spec n a bHi bLo hi lo :
  (n <= 32)%nat -> is_u32 bHi -> is_u32 bLo -> is_u32 hi -> is_u32 lo ->
  dword bHi bLo * 2^Z.of_nat n < 2^64 ->
  dword hi lo + (a mod 2^Z.of_nat n) * dword bHi bLo < 2^64 ->
  let '(hi', lo') := Mult_loop n a bHi bLo hi lo in
  dword hi' lo' = dword hi lo + (a mod 2^Z.of_nat n) * dword bHi bLo /\ is_u32 hi' /\ is_u32 lo'.
Proof.
  revert a bHi bLo hi lo. induction n as [|n IH]; intros a bHi bLo hi lo Hn Hbh Hbl Hh Hl HP HV.
  { cbn [Mult_loop]. change (2^Z.of_nat 0) with 1. rewrite Z.mod_1_r. split; [lia | done]. }
  assert (0 <= dword bHi bLo) as HP0 by (unfold dword, is_u32 in *; lia).
  assert (Hpow : 2^Z.of_nat (S n) = 2 * 2^Z.of_nat n) by (rewrite <- Z.pow_succ_r by lia; f_equal; lia).
  assert (Hsucc : a mod 2^Z.of_nat (S n) = a mod 2 + 2 * (Z.shiftr a 1 mod 2^Z.of_nat n))
    by (rewrite <- mod_succ by lia; do 2 f_equal; lia).
  assert (0 < 2^Z.of_nat n) as Hp0 by (apply Z.pow_pos_nonneg; lia).
  pose proof (Z.mod_pos_bound (Z.shiftr a 1) _ Hp0) as Hr.
  destruct (double_dword bHi bLo Hbh Hbl) as (HD & HDh & HDl); [nia|]. revert HD HDh HDl.
  cbn [Mult_loop]. unfold Mult_step. rewrite low_bit. cbn zeta.
  set (bHi' := if negb (Z.land bLo 2147483648 =? 0) then _ else _). set (bLo' := u32 (Z.shiftl bLo 1)).
  intros HD HDh HDl. pose proof (Z.mod_pos_bound a 2 ltac:(lia)) as Ha2. rewrite Hsucc in HV |- *.
  destruct (Z.eqb_spec (a mod 2) 0) as [E|E]; cbn [negb].
  - specialize (IH (Z.shiftr a 1) bHi' bLo' hi lo ltac:(lia) HDh HDl Hh Hl). rewrite HD in IH.
    destruct (Mult_loop n _ _ _ _ _). destruct IH as (Hg & ? & ?); [nia..|].
    split; [|done]. rewrite Hg, E. lia.
  - assert (a mod 2 = 1) as E1 by lia.
    destruct (add_carry bHi bLo hi lo Hbh Hbl Hh Hl) as (HA & HAh & HAl); [nia|]. cbn zeta in *.
    destruct (Z.eqb_spec (Z.land (u32 a) 4294967294) 0) as [Eb|_].
    + rewrite <- Hsucc, (break_value a _ E1 Eb) by lia. rewrite HA. split; [lia|done].
    + specialize (IH (Z.shiftr a 1) bHi' bLo' _ _ ltac:(lia) HDh HDl HAh HAl). rewrite HD, HA in IH.
      destruct (Mult_loop n _ _ _ _ _). destruct IH as (Hg & ? & ?); [nia..|].
      split; [|done]. rewrite Hg, E1. lia.
Qed.

Lemma u32_lnot x : is_u32 x -> u32 (Z.lnot x) = 2^32 - 1 - x.
Proof.
  unfold is_u32, u32, Z.lnot. intros. symmetry. apply Z.mod_unique with (-1); lia.
Qed.

(** The two's complement of a double word. *)
Lemma negate_dword hi lo :
  is_u32 hi -> is_u32 lo -> 0 < dword hi lo <= 2^63 ->
  let lo' := u32 (u32 (Z.lnot lo) + 1) in
  let hi' := if lo' =? 0 then u32 (u32 (Z.lnot hi) + 1) else u32 (Z.lnot hi) in
  dword (i32 hi') lo' = - dword hi lo.
Proof.
  intros Hh Hl Hd. cbn zeta. rewrite !u32_lnot by done. unfold dword, is_u32 in *.
  replace (2^32 - 1 - lo + 1) with (2^32 - lo) by lia.
  replace (2^32 - 1 - hi + 1) with (2^32 - hi) by lia.
  destruct (Z.eq_dec lo 0) as [->|Hlo].
  - change (u32 (2^32 - 0)) with 0. cbn [Z.eqb].
    rewrite (u32_small (2^32 - hi)) by (unfold is_u32; lia).
    rewrite i32_of_u32 by (unfold is_u32; lia). destruct (Z.ltb_spec (2^32 - hi) (2^31)); lia.
  - rewrite (u32_small (2^32 - lo)) by (unfold is_u32; lia).
    rewrite (proj2 (Z.eqb_neq _ _)) by lia.
    rewrite i32_of_u32 by (unfold is_u32; lia). destruct (Z.ltb_spec (2^32 - 1 - hi) (2^31)); lia.
Qed.

(** The absolute value, as the source computes it, is right even for [INT_MIN]. *)
Lemma magnitude a : is_i32 a -> u32 (if a <? 0 then i32 (- a) else a) = Z.abs a.
Proof.
  unfold is_i32. intros Ha. destruct (Z.ltb_spec a 0).
  - rewrite u32_i32, u32_small by (unfold is_u32; lia). lia.
  - rewrite u32_small by (unfold is_u32; lia). lia.
Qed.

Lemma Mult_loop_start a b :
  is_u32 b ->
  let '(hi, lo) := Mult_loop 32 a 0 b 0 0 in dword hi lo = u32 a * b /\ is_u32 hi /\ is_u32 lo.
Proof.
  intros Hb. pose proof (u32_range a) as Ha. unfold is_u32 in *.
  pose proof (Mult_loop_spec 32 a 0 b 0 0) as H. change (2^Z.of_nat 32) with (2^32) in H.
  change (a mod 2^32) with (u32 a) in H. unfold dword in *. cbn [Z.mul Z.add] in H.
  destruct (Mult_loop 32 a 0 b 0 0). apply H; unfold is_u32; nia.
Qed.

Lemma Mult_spec a b signedArith :
  is_i32 a -> is_i32 b ->
  let '(hi, lo) := Mult a b signedArith in
  is_i32 hi /\ is_i32 lo /\
  (if signedArith then dword hi (u32 lo) = a * b else dword (u32 hi) (u32 lo) = u32 a * u32 b).
Proof.
  intros Ha Hb. unfold Mult.
  destruct (Z.eqb_spec a 0) as [->|Ha0]; [by destruct signedArith|].
  destruct (Z.eqb_spec b 0) as [->|Hb0].
  { cbn [orb]. change (u32 0) with 0. unfold dword. do 2 (split; [done|]). destruct signedArith; lia. }
  cbn [orb]. destruct signedArith; cbn [andb].
  - pose proof (magnitude a Ha) as Ma. pose proof (magnitude b Hb) as Mb.
    pose proof (Mult_loop_start (if a <? 0 then i32 (- a) else a) (u32 (if b <? 0 then i32 (- b) else b)) (u32_range _)) as H.
    rewrite Ma, Mb in H. unfold is_i32 in Ha, Hb.
    destruct (Z.ltb_spec a 0), (Z.ltb_spec b 0); cbn [negb]; rewrite ?Mb;
      destruct (Mult_loop _ _ _ _ _ _) as [hi lo]; destruct H as (Hd & Hh & Hl);
      (split; [apply i32_range|]; split; [apply i32_range|]); rewrite u32_i32.
    all: try (pose proof (negate_dword hi lo Hh Hl ltac:(nia)) as Hn; cbn zeta in Hn;
      rewrite (u32_small (u32 _)) by apply u32_range; rewrite Hn; nia).
    all: rewrite (u32_small lo), i32_small by (done || unfold dword, is_i32, is_u32 in *; nia); nia.
  - pose proof (Mult_loop_start a (u32 b) (u32_range _)) as H.
    destruct (Mult_loop _ _ _ _ _ _) as [hi lo]. destruct H as (Hd & Hh & Hl).
    split; [apply i32_range|]. split; [apply i32_range|].
    by rewrite !u32_i32, (u32_small hi), (u32_small lo).
Qed.

(** C34: the multiplier (mipssim.cc: Mult). The 32-step shift-and-add loop with its
    early exit and its hand-made carries puts the full 64-bit product in HI and LO:
    for MULT the signed product of the operands, the most negative integer
    included, for MULTU the unsigned product. *)
Theorem Mult_correct a b signedArith :
  is_i32 a -> is_i32 b ->
  let '(hi, lo) := Mult a b signedArith in
  is_i32 hi /\ is_i32 lo /\
  (if signedArith then dword hi (u32 lo) = a * b else dword (u32 hi) (u32 lo) = u32 a * u32 b).
Proof. apply Mult_spec. Qed.

(** ** Decoding inverts the MIPS encoding *)

(** Reference: how the MIPS manual encodes each instruction. *)
Inductive encoding := Special (funct : Z) | Regimm (code : Z) | Major (op : Z) | Jump (op : Z).

Definition encoding_of (op : OpCode) : option encoding :=
  match op with
  | OP_SLL => Some (Special 0) | OP_SRL => Some (Special 2) | OP_SRA => Some (Special 3)
  | OP_SLLV => Some (Special 4) | OP_SRLV => Some (Special 6) | OP_SRAV => Some (Special 7)
  | OP_JR => Some (Special 8) | OP_JALR => Some (Special 9) | OP_SYSCALL => Some (Special 12)
  | OP_MFHI => Some (Special 16) | OP_MTHI => Some (Special 17)
  | OP_MFLO => Some (Special 18) | OP_MTLO => Some (Special 19)
  | OP_MULT => Some (Special 24) | OP_MULTU => Some (Special 25)
  | OP_DIV => Some (Special 26) | OP_DIVU => Some (Special 27)
  | OP_ADD => Some (Special 32) | OP_ADDU => Some (Special 33)
  | OP_SUB => Some (Special 34) | OP_SUBU => Some (Special 35)
  | OP_AND => Some (Special 36) | OP_OR => Some (Special 37)
  | OP_XOR => Some (Special 38) | OP_NOR => Some (Special 39)
  | OP_SLT => Some (Special 42) | OP_SLTU => Some (Special 43)
  | OP_BLTZ => Some (Regimm 0) | OP_BGEZ => Some (Regimm 1)
  | OP_BLTZAL => Some (Regimm 16) | OP_BGEZAL => Some (Regimm 17)
  | OP_J => Some (Jump 2) | OP_JAL => Some (Jump 3)
  | OP_BEQ => Some (Major 4) | OP_BNE => Some (Major 5)
  | OP_BLEZ => Some (Major 6) | OP_BGTZ => Some (Major 7)
  | OP_ADDI => Some (Major 8) | OP_ADDIU => Some (Major 9)
  | OP_SLTI => Some (Major 10) | OP_SLTIU => Some (Major 11)
  | OP_ANDI => Some (Major 12) | OP_ORI => Some (Major 13)
  | OP_XORI => Some (Major 14) | OP_LUI => Some (Major 15)
  | OP_LB => Some (Major 32) | OP_LH => Some (Major 33) | OP_LWL => Some (Major 34)
  | OP_LW => Some (Major 35) | OP_LBU => Some (Major 36) | OP_LHU => Some (Major 37)
  | OP_LWR => Some (Major 38) | OP_SB => Some (Major 40) | OP_SH => Some (Major 41)
  | OP_SWL => Some (Major 42) | OP_SW => Some (Major 43) | OP_SWR => Some (Major 46)
  | OP_RFE | OP_UNIMP | OP_RES | SPECIAL | BCOND => None
  end.

Definition word_of (op rs rt low : Z) : Z := op * 2^26 + rs * 2^21 + rt * 2^16 + low.

Definition encode (i : Instruction) (e : encoding) : Z :=
  match e with
  | Special f => word_of 0 (rs i) (rt i) (rd i * 2^11 + extra i * 2^6 + f)
  | Regimm c => word_of 1 (rs i) c (extra i mod 2^16)
  | Major o => word_of o (rs i) (rt i) (extra i mod 2^16)
  | Jump o => o * 2^26 + extra i
  end.

(** The fields an encoding has room for, and the ranges they have. *)
Record encodable (i : Instruction) (e : encoding) : Prop := {
  enc_rs : 0 <= rs i < 32;
  enc_rt : 0 <= rt i < 32;
  enc_rd : 0 <= rd i < 32;
  enc_extra : match e with
              | Special _ => 0 <= extra i < 32
              | Regimm _ | Major _ => -2^15 <= extra i < 2^15
              | Jump _ => 0 <= extra i < 2^26
              end
}.

(** [j] carries the operands of [i] that the encoding represents. *)
Definition same_operands (e : encoding) (i j : Instruction) : Prop :=
  opCode j = opCode i /\ extra j = extra i /\
  match e with
  | Special _ => rs j = rs i /\ rt j = rt i /\ rd j = rd i
  | Regimm _ => rs j = rs i
  | Major _ => rs j = rs i /\ rt j = rt i
  | Jump _ => True
  end.

Lemma land_field v k n : 0 <= k -> 0 <= n -> Z.land (Z.shiftr v k) (Z.ones n) = (v / 2^k) mod 2^n.
Proof. intros. by rewrite Z.land_ones, Z.shiftr_div_pow2. Qed.

Lemma land_low_field v n : 0 <= n -> Z.land v (Z.ones n) = v mod 2^n.
Proof. intros. by apply Z.land_ones. Qed.

Lemma word_fields op rs rt low :
  0 <= op < 64 -> 0 <= rs < 32 -> 0 <= rt < 32 -> 0 <= low < 2^16 ->
  let v := word_of op rs rt low in
  (v / 2^26) mod 2^6 = op /\ (v / 2^21) mod 2^5 = rs /\ (v / 2^16) mod 2^5 = rt /\ v mod 2^16 = low.
Proof.
  intros Ho Hs Ht Hl. cbn zeta. unfold word_of.
  replace ((op * 2^26 + rs * 2^21 + rt * 2^16 + low) / 2^26) with op
    by (apply Z.div_unique with (rs * 2^21 + rt * 2^16 + low); lia).
  replace ((op * 2^26 + rs * 2^21 + rt * 2^16 + low) / 2^21) with (op * 2^5 + rs)
    by (apply Z.div_unique with (rt * 2^16 + low); lia).
  replace ((op * 2^26 + rs * 2^21 + rt * 2^16 + low) / 2^16) with (op * 2^10 + rs * 2^5 + rt)
    by (apply Z.div_unique with low; lia).
  repeat split; symmetry.
  - apply Z.mod_unique with 0; lia.
  - apply Z.mod_unique with op; lia.
  - apply Z.mod_unique with (op * 2^5 + rs); lia.
  - apply Z.mod_unique with (op * 2^10 + rs * 2^5 + rt); lia.
Qed.

(** Sign extension of a 16-bit immediate. *)
Definition sext16 (x : Z) : Z := if x <? 2^15 then x else x - 2^16.

Lemma sext16_spec x : 0 <= x < 2^16 ->
  (if negb (Z.land x 0x8000 =? 0) then i32 (Z.lor x 0xffff0000) else x) = sext16 x.
Proof.
  intros Hx. unfold sext16. change 0x8000 with (2^15). rewrite land_pow2 by done.
  rewrite Z.testbit_odd, Z.shiftr_div_pow2 by done.
  destruct (Z.ltb_spec x (2^15)).
  - by rewrite Z.div_small by lia.
  - replace (x / 2^15) with 1 by (apply Z.div_unique with (x - 2^15); lia).
    cbn [Z.odd]. change (negb (2^15 =? 0)) with true. cbn iota.
    change 0xffff0000 with (65535 * 2^16). rewrite lor_add by lia.
    rewrite i32_of_u32 by (unfold is_u32; lia). rewrite (proj2 (Z.ltb_ge _ _)) by lia. lia.
Qed.

Lemma sext16_mod x : -2^15 <= x < 2^15 -> sext16 (x mod 2^16) = x.
Proof.
  intros Hx. unfold sext16. destruct (Z.lt_ge_cases x 0).
  - replace (x mod 2^16) with (x + 2^16) by (apply Z.mod_unique with (-1); lia).
    rewrite (proj2 (Z.ltb_ge _ _)) by lia. lia.
  - rewrite Z.mod_small by lia. by rewrite (proj2 (Z.ltb_lt _ _)) by lia.
Qed.

Lemma sext16_range x : 0 <= x < 2^16 -> -2^15 <= sext16 x < 2^15.
Proof. intros. unfold sext16. destruct (Z.ltb_spec x (2^15)); lia. Qed.

(** [Decode] with its masks read as fields. *)
Lemma Decode_fields v : 0 <= v ->
  Decode v =
  let rs := (v / 2^21) mod 2^5 in
  let rt := (v / 2^16) mod 2^5 in
  let rd := (v / 2^11) mod 2^5 in
  let! (op, format) := aref opTable ((v / 2^26) mod 2^6) in
  let extra := match format with
               | IFMT => sext16 (v mod 2^16)
               | RFMT => (v / 2^6) mod 2^5
               | JFMT => v mod 2^26
               end in
  let! op :=
    match op with
    | SPECIAL => aref specialTable (v mod 2^6)
    | BCOND => Ret (match rt with 0 => OP_BLTZ | 1 => OP_BGEZ | 16 => OP_BLTZAL | 17 => OP_BGEZAL | _ => OP_UNIMP end)
    | op => Ret op
    end in
  Ret (mkInstr op rs rt rd extra).
Proof.
  intros Hv. unfold Decode. change 0x1f with (Z.ones 5). change 0x3f with (Z.ones 6).
  change 0x3ffffff with (Z.ones 26). change 65535 with (Z.ones 16).
  rewrite !land_field, !land_low_field, !sext16_spec by (lia || apply Z.mod_pos_bound; lia).
  assert (Z.land v 0x1f0000 = (v / 2^16) mod 2^5 * 2^16) as ->.
  { rewrite <- Z.land_ones, <- Z.shiftr_div_pow2, <- Z.shiftl_mul_pow2 by lia.
    apply Z.bits_inj'. intros j Hj. rewrite Z.land_spec. change 0x1f0000 with (Z.shiftl (Z.ones 5) 16).
    destruct (Z.lt_ge_cases j 16).
    - by rewrite !Z.shiftl_spec_low, andb_false_r.
    - rewrite !Z.shiftl_spec, Z.land_spec, Z.shiftr_spec by lia. by rewrite Z.sub_add. }
  cbn zeta. destruct (aref opTable _) as [[op format]| |]; [|done..]. cbn [bind].
  destruct op; try done. cbn [bind]. 
  pose proof (Z.mod_pos_bound (v / 2^16) (2^5) ltac:(lia)) as Hr.
  set (r := (v / 2^16) mod 2^5) in *. clearbody r. do 2 f_equal.
  assert (forall c, (r * 2^16 =? c * 2^16) = (r =? c)) as Hc.
  { intros c. destruct (Z.eqb_spec r c) as [->|]; [by rewrite Z.eqb_refl|]. apply Z.eqb_neq. lia. }
  rewrite (Hc 0 : (r * 2^16 =? 0) = _), (Hc 1 : (r * 2^16 =? 0x10000) = _),
    (Hc 16 : (r * 2^16 =? 0x100000) = _), (Hc 17 : (r * 2^16 =? 0x110000) = _).
  assert (r = 0 \/ r = 1 \/ r = 16 \/ r = 17 \/ (r <> 0 /\ r <> 1 /\ r <> 16 /\ r <> 17)) as Hcases by lia.
  destruct Hcases as [-> | [-> | [-> | [-> | (H0 & H1 & H16 & H17)]]]]; [done..|].
  rewrite !(proj2 (Z.eqb_neq _ _)) by done. 
  destruct r as [|p|p]; try done. repeat (destruct p as [p|p|]; try done).
Qed.

(** The fields of a SPECIAL instruction. *)
Lemma special_fields rs rt rd sh f :
  0 <= rs < 32 -> 0 <= rt < 32 -> 0 <= rd < 32 -> 0 <= sh < 32 -> 0 <= f < 64 ->
  let v := word_of 0 rs rt (rd * 2^11 + sh * 2^6 + f) in
  (v / 2^26) mod 2^6 = 0 /\ (v / 2^21) mod 2^5 = rs /\ (v / 2^16) mod 2^5 = rt /\
  (v / 2^11) mod 2^5 = rd /\ (v / 2^6) mod 2^5 = sh /\ v mod 2^6 = f.
Proof.
  intros Hs Ht Hd Hh Hf.
  destruct (word_fields 0 rs rt (rd * 2^11 + sh * 2^6 + f)) as (E26 & E21 & E16 & _); [lia..|].
  cbn zeta in *. repeat (split; [done|]). unfold word_of.
  set (v := 0 * 2^26 + rs * 2^21 + rt * 2^16 + (rd * 2^11 + sh * 2^6 + f)).
  replace (v / 2^11) with (rs * 2^10 + rt * 2^5 + rd)
    by (apply Z.div_unique with (sh * 2^6 + f); unfold v; lia).
  replace (v / 2^6) with (rs * 2^15 + rt * 2^10 + rd * 2^5 + sh)
    by (apply Z.div_unique with f; unfold v; lia).
  repeat split; symmetry.
  - apply Z.mod_unique with (rs * 2^5 + rt); lia.
  - apply Z.mod_unique with (rs * 2^10 + rt * 2^5 + rd); lia.
  - apply Z.mod_unique with (rs * 2^15 + rt * 2^10 + rd * 2^5 + sh); unfold v; lia.
Qed.

(** The decoding tables agree with the manual. *)
Lemma tables_agree op e : encoding_of op = Some e ->
  match e with
  | Special f => 0 <= f < 64 /\ aref specialTable f = Ret op
  | Regimm c => 0 <= c < 32 /\
      match c with 0 => OP_BLTZ | 1 => OP_BGEZ | 16 => OP_BLTZAL | 17 => OP_BGEZAL | _ => OP_UNIMP end = op
  | Major o => 0 <= o < 64 /\ aref opTable o = Ret (op, IFMT) /\ op <> SPECIAL /\ op <> BCOND
  | Jump o => 0 <= o < 64 /\ aref opTable o = Ret (op, JFMT) /\ op <> SPECIAL /\ op <> BCOND
  end.
Proof. destruct op; intros [= <-]; repeat split; done || lia. Qed.

(** C35: Instruction::Decode. For every instruction of the MIPS instruction set the
    simulator knows, decoding its encoding gives back the operation and the
    operands it has (registers, shift amount, sign-extended immediate or jump
    target): the two decoding tables and the branch special cases are right. *)
Theorem Decode_encode i e :
  encoding_of (opCode i) = Some e -> encodable i e ->
  exists j, Decode (encode i e) = Ret j /\ same_operands e i j.
Proof.
  intros He [Hs Ht Hd Hx]. apply tables_agree in He. destruct e as [f|c|o|o]; cbn [encode].
  - destruct He as [Hf Htab].
    destruct (special_fields (rs i) (rt i) (rd i) (extra i) f) as (E26 & E21 & E16 & E11 & E6 & E0); [done..|].
    rewrite Decode_fields by (unfold word_of; lia). cbn zeta in *. rewrite E26, E21, E16, E11, E6, E0.
    change (aref opTable 0) with (Ret (SPECIAL, RFMT)). cbn [bind]. rewrite Htab. cbn [bind].
    by eexists.
  - destruct He as [Hc Hop]. pose proof (Z.mod_pos_bound (extra i) (2^16) ltac:(lia)) as Hm.
    destruct (word_fields 1 (rs i) c (extra i mod 2^16)) as (E26 & E21 & E16 & E0); [lia..|].
    rewrite Decode_fields by (unfold word_of; lia). cbn zeta in *. rewrite E26, E21, E16, E0.
    change (aref opTable 1) with (Ret (BCOND, IFMT)). cbn [bind]. rewrite Hop. cbn [bind].
    eexists. split; [done|]. split; [done|]. split; [by apply sext16_mod | done].
  - destruct He as (Ho & Htab & Hne1 & Hne2). pose proof (Z.mod_pos_bound (extra i) (2^16) ltac:(lia)) as Hm.
    destruct (word_fields o (rs i) (rt i) (extra i mod 2^16)) as (E26 & E21 & E16 & E0); [lia..|].
    rewrite Decode_fields by (unfold word_of; lia). cbn zeta in *. rewrite E26, E21, E16, E0, Htab. cbn [bind].
    rewrite sext16_mod by done.
    destruct (opCode i) eqn:E; try done; eexists; (split; [done|]); by repeat split.
  - destruct He as (Ho & Htab & Hne1 & Hne2).
    rewrite Decode_fields by lia. cbn zeta.
    replace ((o * 2^26 + extra i) / 2^26) with o by (apply Z.div_unique with (extra i); lia).
    rewrite (Z.mod_small o) by lia. rewrite Htab. cbn [bind].
    replace ((o * 2^26 + extra i) mod 2^26) with (extra i) by (apply Z.mod_unique with o; lia).
    destruct (opCode i) eqn:E; try done; eexists; (split; [done|]); by repeat split.
Qed.

(** Every word decodes, to register numbers and operations the switch has. *)
Record wf_instr (i : Instruction) : Prop := {
  instr_rs : 0 <= rs i < 32;
  instr_rt : 0 <= rt i < 32;
  instr_rd : 0 <= rd i < 32;
  instr_extra : is_i32 (extra i);
  instr_shift : forall f, encoding_of (opCode i) = Some (Special f) -> 0 <= extra i < 32;
  instr_op : opCode i <> OP_RFE /\ opCode i <> SPECIAL /\ opCode i <> BCOND
}.

Definition real_op (op : OpCode) : Prop := op <> OP_RFE /\ op <> SPECIAL /\ op <> BCOND.

Lemma opTable_entries n op format : opTable !! n = Some (op, format) ->
  (op = SPECIAL /\ format = RFMT) \/ (op = BCOND) \/
  (real_op op /\ forall f, encoding_of op <> Some (Special f)).
Proof.
  intros Hn. enough (Forall (fun '(op, format) => (op = SPECIAL /\ format = RFMT) \/ (op = BCOND) \/
    (real_op op /\ forall f, encoding_of op <> Some (Special f))) opTable) as HF
    by exact (Forall_lookup_1 _ _ _ _ HF Hn).
  unfold opTable. repeat (apply Forall_cons; split; [first [by left | by right; left | by right; right]|]).
  by apply Forall_nil.
Qed.

Lemma specialTable_entries n op : specialTable !! n = Some op -> real_op op.
Proof.
  intros Hn. enough (Forall real_op specialTable) as HF by exact (Forall_lookup_1 _ _ _ _ HF Hn).
  unfold specialTable. by repeat (apply Forall_cons; split; [done|]).
Qed.

Lemma Decode_wf v : 0 <= v -> exists i, Decode v = Ret i /\ wf_instr i.
Proof.
  intros Hv. rewrite Decode_fields by done. cbn zeta.
  pose proof (fun k => Z.mod_pos_bound (v / 2^k) (2^5) ltac:(lia)) as H5.
  destruct (aref_in opTable ((v / 2^26) mod 2^6)) as [[op format] Hop].
  { by apply Z.mod_pos_bound. }
  rewrite Hop. cbn [bind]. apply aref_Ret in Hop as [_ Hop].
  pose proof (sext16_range (v mod 2^16) ltac:(apply Z.mod_pos_bound; lia)) as H16.
  pose proof (Z.mod_pos_bound v (2^26) ltac:(lia)) as H26.
  apply opTable_entries in Hop as [[-> ->] | [-> | [Hr Hf]]].
  - destruct (aref_in specialTable (v mod 2^6)) as [op Hop]; [by apply Z.mod_pos_bound|].
    rewrite Hop. cbn [bind]. apply aref_Ret in Hop as [_ Hop%specialTable_entries].
    eexists. split; [done|]. split; cbn [rs rt rd extra opCode]; try apply H5; try done.
    pose proof (H5 6). unfold is_i32. lia.
  - cbn [bind]. eexists. split; [done|].
    set (r := (v / 2^16) mod 2^5). split; cbn [rs rt rd extra opCode]; try apply H5.
    + destruct format; unfold is_i32; pose proof (H5 6); lia.
    + intros f. clearbody r. destruct r as [|p|p]; try done. repeat (destruct p as [p|p|]; try done).
    + clearbody r. destruct r as [|p|p]; try done. repeat (destruct p as [p|p|]; try done).
  - exists (mkInstr op ((v / 2^21) mod 2^5) ((v / 2^16) mod 2^5) ((v / 2^11) mod 2^5)
             (match format with IFMT => sext16 (v mod 2^16) | RFMT => (v / 2^6) mod 2^5 | JFMT => v mod 2^26 end)).
    split; [destruct op; try done; by destruct Hr as (? & ? & ?)|].
    split; cbn [rs rt rd extra opCode]; try apply H5; try done.
    + destruct format; unfold is_i32; pose proof (H5 6); lia.
    + intros f He. by destruct (Hf f).
Qed.

(** ** Every instruction keeps the machine well formed *)

Lemma is_i32_lnot z : is_i32 z -> is_i32 (Z.lnot z).
Proof. unfold is_i32, Z.lnot. lia. Qed.

(** A word is non-negative with no bit from 31 up, or the complement of such. *)
Lemma is_i32_cases z : is_i32 z <-> 0 <= z < 2^31 \/ 0 <= Z.lnot z < 2^31.
Proof. unfold is_i32, Z.lnot. lia. Qed.

Lemma land_bound k a b : 0 <= k -> 0 <= a < 2^k -> 0 <= Z.land a b < 2^k.
Proof. intros Hk Ha. rewrite width_bits in * by done. intros j Hj. by rewrite Z.land_spec, Ha. Qed.

Lemma lor_bound k a b : 0 <= k -> 0 <= a < 2^k -> 0 <= b < 2^k -> 0 <= Z.lor a b < 2^k.
Proof. intros Hk Ha Hb. rewrite width_bits in * by done. intros j Hj. by rewrite Z.lor_spec, Ha, Hb. Qed.

Lemma is_i32_land a b : is_i32 a -> is_i32 b -> is_i32 (Z.land a b).
Proof.
  rewrite !is_i32_cases. intros [Ha|Ha] [Hb|Hb].
  - left. apply (land_bound 31); done || lia.
  - left. apply (land_bound 31); done || lia.
  - left. rewrite Z.land_comm. apply (land_bound 31); done || lia.
  - right. rewrite Z.lnot_land. apply (lor_bound 31); done || lia.
Qed.

Lemma is_i32_lor a b : is_i32 a -> is_i32 b -> is_i32 (Z.lor a b).
Proof.
  intros Ha Hb. rewrite <- (Z.lnot_involutive (Z.lor a b)), Z.lnot_lor.
  auto using is_i32_lnot, is_i32_land.
Qed.

Lemma is_i32_lxor a b : is_i32 a -> is_i32 b -> is_i32 (Z.lxor a b).
Proof.
  intros Ha Hb. replace (Z.lxor a b) with (Z.lor (Z.land a (Z.lnot b)) (Z.land (Z.lnot a) b));
    [auto using is_i32_lor, is_i32_land, is_i32_lnot|].
  apply Z.bits_inj'. intros j Hj. rewrite Z.lor_spec, !Z.land_spec, Z.lxor_spec, !Z.lnot_spec by done.
  by destruct (Z.testbit a j), (Z.testbit b j).
Qed.

Lemma is_i32_shiftr a k : is_i32 a -> 0 <= k -> is_i32 (Z.shiftr a k).
Proof.
  unfold is_i32. intros Ha Hk. rewrite Z.shiftr_div_pow2 by done.
  assert (0 < 2^k) by (apply Z.pow_pos_nonneg; lia). split.
  - apply Z.div_le_lower_bound; nia.
  - apply Z.div_lt_upper_bound; nia.
Qed.

Lemma is_i32_land_mask a k : 0 <= k < 32 -> is_i32 (Z.land a (Z.ones k)).
Proof.
  intros Hk. rewrite Z.land_ones by lia. unfold is_i32.
  pose proof (Z.mod_pos_bound a (2^k) ltac:(apply Z.pow_pos_nonneg; lia)).
  assert (2^k <= 2^31) by (apply Z.pow_le_mono_r; lia). lia.
Qed.

Lemma is_i32_b (b : bool) : is_i32 (if b then 1 else 0).
Proof. by destruct b. Qed.

Lemma is_i32_i8 z : is_i8 z -> is_i32 z.
Proof. unfold is_i8, is_i32. lia. Qed.

Lemma is_i32_0 : is_i32 0.
Proof. done. Qed.

#[export] Hint Resolve is_i32_land is_i32_lor is_i32_lxor is_i32_lnot is_i32_b is_i32_0 is_i32_i8 instr_extra : cint.

(** Reading and writing registers. *)
Lemma reg_ok m r : wf_frame m -> 0 <= r < NumTotalRegs -> exists v, reg m r = Ret v /\ is_i32 v.
Proof.
  intros Hwf Hr. destruct (aref_in (registers m) r) as [v Hv].
  { rewrite (wf_registers m Hwf). unfold NumTotalRegs in *. lia. }
  exists v. split; [done|]. apply aref_Ret in Hv as [_ Hv].
  by eapply Forall_lookup_1 in Hv; [|apply (wf_words m Hwf)].
Qed.

Lemma setreg_frame m r v :
  wf_frame m -> 0 <= r < NumTotalRegs -> is_i32 v -> r <> LoadReg \/ 0 <= v < NumGPRegs ->
  exists m', setreg r v m = Ret m' /\ wf_frame m' /\ registers m' = <[Z.to_nat r := v]> (registers m).
Proof.
  intros Hwf Hr Hv Hl. unfold setreg. rewrite aset_in
    by (rewrite (wf_registers m Hwf); unfold NumTotalRegs in *; lia).
  cbn [bind]. eexists. split; [done|]. split; [|done].
  pose proof (wf_load m Hwf) as (l & Hl0 & Hrange). pose proof (wf_registers m Hwf) as Hlen.
  destruct Hwf. split; cbn; try done.
  - by rewrite length_insert.
  - by apply Forall_insert.
  - destruct (decide (r = LoadReg)) as [->|Hne].
    + destruct Hl as [?|Hv']; [done|]. exists v. split; [|done].
      apply list_lookup_insert_eq. rewrite Hlen. vm_compute. lia.
    + exists l. rewrite list_lookup_insert_ne; [done|]. unfold LoadReg in *. lia.
Qed.

Lemma setreg_ok m r v :
  wf_frame m -> 0 <= r < NumGPRegs \/ r = HiReg \/ r = LoReg \/ r = PCReg \/ r = NextPCReg \/
    r = PrevPCReg \/ r = BadVAddrReg \/ r = LoadValueReg -> is_i32 v ->
  exists m', setreg r v m = Ret m' /\ wf_frame m'.
Proof.
  intros Hwf Hr Hv. unfold HiReg, LoReg, PCReg, NextPCReg, PrevPCReg, BadVAddrReg, LoadValueReg, NumGPRegs in Hr.
  destruct (setreg_frame m r v Hwf) as (m' & ? & ? & _); [..|by exists m'];
    unfold NumTotalRegs, LoadReg; try done; lia.
Qed.

(** What a delayed load does to the registers. *)
Definition delayed (nextReg nextValue : Z) (l v : Z) (rs : list Z) : list Z :=
  <[0%nat := 0]> (<[Z.to_nat LoadValueReg := nextValue]> (<[Z.to_nat LoadReg := nextReg]> (<[Z.to_nat l := v]> rs))).

Lemma DelayedLoad_spec m nr nv :
  wf_frame m -> 0 <= nr < NumGPRegs -> is_i32 nv ->
  exists m' l v, DelayedLoad nr nv m = Ret m' /\ wf_machine m' /\
    registers m !! Z.to_nat LoadReg = Some l /\ 0 <= l < NumGPRegs /\
    registers m !! Z.to_nat LoadValueReg = Some v /\
    registers m' = delayed nr nv l v (registers m).
Proof.
  intros Hwf Hnr Hnv. pose proof (wf_load m Hwf) as (l & Hl & Hlr). unfold DelayedLoad.
  destruct (reg_ok m LoadReg Hwf) as (l' & Hl' & _); [done|]. rewrite Hl'. cbn [bind].
  apply aref_Ret in Hl' as [_ Hl']. assert (l' = l) as -> by congruence.
  destruct (reg_ok m LoadValueReg Hwf) as (v & Hv & Hvr); [done|]. rewrite Hv. cbn [bind].
  apply aref_Ret in Hv as [_ Hv]. unfold NumGPRegs in *.
  destruct (setreg_frame m l v Hwf) as (m1 & -> & Hwf1 & E1); [unfold NumTotalRegs; lia|done|unfold LoadReg; lia|].
  cbn [bind].
  destruct (setreg_frame m1 LoadReg nr Hwf1) as (m2 & -> & Hwf2 & E2); [done|unfold is_i32; lia|by right|].
  cbn [bind].
  destruct (setreg_frame m2 LoadValueReg nv Hwf2) as (m3 & -> & Hwf3 & E3); [done|done|by left|]. cbn [bind].
  destruct (setreg_frame m3 0 0 Hwf3) as (m4 & -> & Hwf4 & E4); [done|done|by left|].
  exists m4, l, v. assert (registers m4 = delayed nr nv l v (registers m)) as Hr
    by (unfold delayed; by rewrite E4, E3, E2, E1).
  split; [done|]. split; [|done]. split; [done|]. rewrite E4. apply list_lookup_insert_eq.
  rewrite (wf_registers m3 Hwf3). vm_compute. lia.
Qed.

(** What the machine relies on. A trap need not come back: the kernel halts on most
    exceptions, and Exit and Halt end the program. When the kernel does come back, it
    leaves a well-formed machine and its own data in order, [kernel_ok]. *)
Class KernelLaws (W : Type) `{Kernel W} := {
  kernel_ok : W -> Prop;
  status_ok st w : kernel_ok w -> kernel_ok (setMachineStatus st w);
  handler_ok e m w m' w' : wf_machine m -> kernel_ok w -> ExceptionHandler e (m, w) = Ret (m', w') ->
    wf_machine m' /\ kernel_ok w'
}.

(** The two ways not to return. *)
Definition same_end {A B} (c : C A) (d : C B) : Prop :=
  match c, d with Abort, Abort | Undef, Undef => True | _, _ => False end.

Section Safe.
Context {W : Type} `{!Kernel W} `{!KernelLaws W}.
Variable big : bool.
Implicit Types (i : Instruction) (m : Machine) (w : W).

(** [c] has not returned because the kernel has not returned from a trap. *)
Definition trap_ends {A} (c : C A) : Prop :=
  exists e m w, wf_machine m /\ kernel_ok w /\ same_end (ExceptionHandler e (m, w)) c.

Lemma trap_ends_bind {A B} (c : C A) (f : A -> C B) : trap_ends c -> trap_ends (let! a := c in f a).
Proof.
  intros (e & m & w & Hm & Hw & H). exists e, m, w. split; [done|]. split; [done|].
  by destruct (ExceptionHandler e (m, w)), c.
Qed.

Lemma trap_ends_not_Ret {A} (a : A) : ~ trap_ends (Ret a).
Proof. intros (e & m & w & _ & _ & H). by destruct (ExceptionHandler e (m, w)). Qed.

Lemma RaiseException_ok e a m w :
  wf_frame m -> kernel_ok w -> is_i32 a ->
  (exists m' w', RaiseException e a (m, w) = Ret (m', w') /\ wf_machine m' /\ kernel_ok w') \/
  trap_ends (RaiseException e a (m, w)).
Proof.
  intros Hwf Hw Ha. unfold RaiseException.
  destruct (setreg_ok m BadVAddrReg a Hwf) as (m1 & -> & Hwf1); [tauto|done|]. cbn [bind].
  destruct (DelayedLoad_spec m1 0 0 Hwf1) as (m2 & _ & _ & -> & Hwf2 & _); [done|done|]. cbn [bind].
  pose proof (status_ok SystemMode w Hw) as Hw2. set (w2 := setMachineStatus SystemMode w) in *.
  destruct (ExceptionHandler e (m2, w2)) as [[m3 w3]| |] eqn:E; cbn [bind].
  - destruct (handler_ok e m2 w2 m3 w3 Hwf2 Hw2 E). left. eexists _, _. split; [done|]. split; [done | by apply status_ok].
  - right. exists e, m2, w2. by rewrite E.
  - right. exists e, m2, w2. by rewrite E.
Qed.

(** The outcomes of a memory access. *)
Lemma ReadMem_ok addr size m w :
  wf_machine m -> kernel_ok w -> is_i32 addr -> size = 1 \/ size = 2 \/ size = 4 ->
  (exists r m' w', ReadMem big addr size (m, w) = Ret (r, (m', w')) /\ wf_machine m' /\ kernel_ok w' /\
    match r with None => True | Some v => is_i32 v /\ registers m' = registers m end) \/
  trap_ends (ReadMem big addr size (m, w)).
Proof.
  intros Hwf Hw Ha Hsz. destruct (expected m addr size false) as [e|a] eqn:He.
  - destruct (Translate_spec m addr size false Hwf Hsz) as (m1 & Ht & _ & _ & Hm).
    rewrite He in Ht, Hm. subst m1. unfold ReadMem. rewrite Ht. cbn [bind].
    destruct (RaiseException_ok e addr m w Hwf Hw Ha) as [(m' & w' & -> & Hwf' & Hw')|Hend].
    + left. by exists None, m', w'.
    + right. by apply trap_ends_bind.
  - left. destruct (expected_bounds _ _ _ _ _ Hsz He) as (Hp & Hp' & _).
    set (bs := take (Z.to_nat size) (drop (Z.to_nat a) (mainMemory m))).
    assert (Z.of_nat (length bs) = size) as Hlen.
    { unfold bs. rewrite length_take, length_drop, (wf_memory m Hwf). lia. }
    assert (Forall is_i8 bs) as Hi by (apply Forall_take, Forall_drop, (wf_bytes m Hwf)).
    destruct (ReadMem_spec big m w addr size a bs Hwf Hsz He Hi Hlen) as (m' & -> & Hwf' & _ & Hr).
    { intros k Hk. unfold bs. rewrite lookup_take_lt, lookup_drop by lia. f_equal. lia. }
    exists (Some (of_bytes size bs)), m', w. split; [done|]. split; [done|]. split; [done|]. split; [|done].
    unfold of_bytes. destruct Hsz as [-> | [-> | ->]]; cbn [Z.eqb Pos.eqb]; auto with cint.
    destruct bs as [|b0 [|b1 [|]]]; cbn in Hlen; try lia. cbn [le_value].
    pose proof (Z.mod_pos_bound b0 (2^8)). pose proof (Z.mod_pos_bound b1 (2^8)).
    unfold is_i32, u8 in *. lia.
Qed.

Lemma WriteMem_ok addr size v m w :
  wf_machine m -> kernel_ok w -> is_i32 addr -> size = 1 \/ size = 2 \/ size = 4 ->
  (exists r m' w', WriteMem big addr size v (m, w) = Ret (r, (m', w')) /\ wf_machine m' /\ kernel_ok w') \/
  trap_ends (WriteMem big addr size v (m, w)).
Proof.
  intros Hwf Hw Ha Hsz. destruct (expected m addr size true) as [e|a] eqn:He.
  - destruct (Translate_spec m addr size true Hwf Hsz) as (m1 & Ht & _ & _ & Hm).
    rewrite He in Ht, Hm. subst m1. unfold WriteMem. rewrite Ht. cbn [bind].
    destruct (RaiseException_ok e addr m w Hwf Hw Ha) as [(m' & w' & -> & Hwf' & Hw')|Hend].
    + left. by exists false, m', w'.
    + right. by apply trap_ends_bind.
  - left. destruct (WriteMem_spec big m w addr size v a Hwf Hsz He) as (m' & -> & Hwf' & _). eauto 7.
Qed.

(** An outcome of the switch that leaves everything in order: if the switch has not
    come to an end, the kernel has ended the program. *)
Definition ok (c : C (exit * (Machine * W))) : Prop :=
  match c with
  | Ret (Early, (m, w)) => wf_machine m /\ kernel_ok w
  | Ret (Next pc lr lv, (m, w)) => wf_frame m /\ is_i32 pc /\ 0 <= lr < NumGPRegs /\ is_i32 lv /\ kernel_ok w
  | _ => trap_ends c
  end.

Lemma trap_ends_ok c : trap_ends c -> ok c.
Proof. intros H. destruct c as [a| |]; [by apply trap_ends_not_Ret in H | done..]. Qed.

Lemma break_ok pc (mm : C Machine) w :
  kernel_ok w -> is_i32 pc -> (exists m, mm = Ret m /\ wf_frame m) -> ok (break pc mm w).
Proof. intros Hw Hpc (m & -> & Hwf). do 3 (split; [done|]). done. Qed.

Lemma trap_ok e a m w : wf_frame m -> kernel_ok w -> is_i32 a -> ok (trap e a (m, w)).
Proof.
  intros Hwf Hw Ha. unfold trap. destruct (RaiseException_ok e a m w Hwf Hw Ha) as [(m' & w' & -> & Hwf')|H]; [done|].
  by apply trap_ends_ok, trap_ends_bind.
Qed.

Lemma link_ok r m : wf_frame m -> 0 <= r < NumGPRegs -> exists m', link r m = Ret m' /\ wf_frame m'.
Proof.
  intros Hwf Hr. unfold link. destruct (reg_ok m NextPCReg Hwf) as (n & -> & _); [done|]. cbn [bind].
  apply setreg_ok; auto with cint.
Qed.

Lemma branch_ok taken i pc m w : wf_frame m -> kernel_ok w -> is_i32 pc -> ok (branch taken i pc (m, w)).
Proof.
  intros Hwf Hw Hpc. unfold branch. destruct (reg_ok m NextPCReg Hwf) as (n & -> & _); [done|]. cbn [bind].
  apply break_ok; [done| |eauto]. destruct taken; auto with cint.
Qed.

Lemma with_mem_ok addr size m w k :
  wf_machine m -> kernel_ok w -> is_i32 addr -> size = 1 \/ size = 2 \/ size = 4 ->
  (forall v m' w', is_i32 v -> wf_machine m' -> kernel_ok w' -> registers m' = registers m -> ok (k v (m', w'))) ->
  ok (with_mem big addr size (m, w) k).
Proof.
  intros Hwf Hw Ha Hsz Hk. unfold with_mem.
  destruct (ReadMem_ok addr size m w Hwf Hw Ha Hsz) as [([v|] & m' & w' & -> & Hwf' & Hw' & Hv)|H]; cbn [bind]; [|done|].
  - destruct Hv. by apply Hk.
  - by apply trap_ends_ok, trap_ends_bind.
Qed.

Lemma write_mem_ok addr size v pc m w :
  wf_machine m -> kernel_ok w -> is_i32 addr -> size = 1 \/ size = 2 \/ size = 4 -> is_i32 pc ->
  ok (write_mem big addr size v pc (m, w)).
Proof.
  intros Hwf Hw Ha Hsz Hpc. unfold write_mem.
  destruct (WriteMem_ok addr size v m w Hwf Hw Ha Hsz) as [([|] & m' & w' & -> & Hwf' & Hw')|H]; cbn; [|done|].
  - split; [apply Hwf'|]. by split; [done|].
  - by apply trap_ends_ok, trap_ends_bind.
Qed.

(** The instructions the simulator does not execute: unaligned partial accesses
    (an ASSERT in the source) and the division whose quotient does not exist. *)
Definition unsupported i m : Prop :=
  exists a b, reg m (rs i) = Ret a /\ reg m (rt i) = Ret b /\
    ((opCode i ∈ [OP_LWL; OP_LWR; OP_SWL; OP_SWR] /\ Z.land (i32 (a + extra i)) 0x3 <> 0) \/
     (opCode i = OP_DIV /\ a = -2^31 /\ b = -1)).

Lemma is_i32_land_c a c : 0 <= c < 2^31 -> is_i32 (Z.land a c).
Proof.
  intros Hc. rewrite Z.land_comm. pose proof (land_bound 31 c a). unfold is_i32. lia.
Qed.
End Safe.

#[export] Hint Extern 1 (is_i32 (Z.land _ (Zpos _))) => apply is_i32_land_c; lia : cint.
#[export] Hint Extern 1 (is_i32 (Z.shiftr _ _)) => apply is_i32_shiftr : cint.

(** Case analysis on the registers an instruction reads. *)
Ltac reads :=
  repeat match goal with
  | |- context [reg ?m ?r] =>
      let v := fresh "v" in let H := fresh "Hreg" in let Hv := fresh "Hv" in
      destruct (reg_ok m r) as (v & H & Hv);
        [done || (apply wf_framed; done) | unfold NumTotalRegs in *; done || lia | rewrite H; cbn [bind]]
  end.

(** An instruction that ends with an assignment to a register. *)
Ltac assigns :=
  apply break_ok; [done | auto with cint | apply setreg_ok; [done || (apply wf_framed; done) | tauto | auto with cint]].

(** The cases of a group of the switch, one by one. *)
Ltac cases Hop tac :=
  repeat (apply elem_of_cons in Hop as [-> | Hop]; [tac|]); by apply not_elem_of_nil in Hop.
Ltac fields Hi :=
  pose proof (instr_rs _ Hi); pose proof (instr_rt _ Hi); pose proof (instr_rd _ Hi).

Section SafeExec.
Context {W : Type} `{!Kernel W} `{!KernelLaws W}.
Variable big : bool.
Implicit Types (i : Instruction) (m : Machine) (w : W).

Lemma exec_add_andi_ok i pc m w :
  wf_machine m -> wf_instr i -> kernel_ok w -> is_i32 pc ->
  opCode i ∈ [OP_ADD; OP_ADDI; OP_ADDIU; OP_ADDU; OP_AND; OP_ANDI] -> ok (exec_add_andi i pc (m, w)).
Proof.
  intros Hwf Hi Hw Hpc Hop. unfold exec_add_andi. fields Hi. reads.
  cases Hop ltac:(reads; try destruct (_ && _); first [apply trap_ok; [apply Hwf | done | done] | assigns]).
Qed.

Lemma exec_branches_ok i pc m w :
  wf_machine m -> wf_instr i -> kernel_ok w -> is_i32 pc ->
  opCode i ∈ [OP_BEQ; OP_BGEZAL; OP_BGEZ; OP_BGTZ; OP_BLEZ; OP_BLTZAL; OP_BLTZ; OP_BNE] ->
  ok (exec_branches i pc (m, w)).
Proof.
  intros Hwf Hi Hw Hpc Hop. unfold exec_branches. fields Hi.
  assert (exists m1, match opCode i with OP_BGEZAL | OP_BLTZAL => link R31 m | _ => Ret m end = Ret m1 /\
    wf_frame m1) as (m1 & -> & Hwf1).
  { destruct (link_ok R31 m Hwf) as (m1 & Hl & ?); [done|]. rewrite Hl.
    destruct (opCode i); eauto using wf_framed. }
  cbn [bind]. reads. cases Hop ltac:(reads; by apply branch_ok).
Qed.

Lemma int_div_ok a b :
  is_i32 a -> is_i32 b -> b <> 0 -> ~ (a = -2^31 /\ b = -1) ->
  exists q r, int_div a b = Ret (q, r) /\ is_i32 q /\ is_i32 r.
Proof.
  unfold is_i32, int_div. intros Ha Hb Hb0 Hno.
  destruct (Z.eqb_spec b 0); [done|]. cbn [orb].
  destruct (Z.eqb_spec a (-2^31)), (Z.eqb_spec b (-1)); cbn [andb]; try tauto;
    (do 2 eexists; split; [done|]); pose proof (Z.quot_rem a b Hb0);
    pose proof (Z.rem_bound_abs a b Hb0); assert (Z.abs (Z.quot a b) <= Z.abs a) by
      (rewrite <- Z.quot_abs by done; apply Z.quot_le_upper_bound; nia); nia.
Qed.

Lemma exec_div_jr_ok i pc m w :
  wf_machine m -> wf_instr i -> kernel_ok w -> is_i32 pc -> ~ unsupported i m ->
  opCode i ∈ [OP_DIV; OP_DIVU; OP_JAL; OP_J; OP_JALR; OP_JR] -> ok (exec_div_jr i pc (m, w)).
Proof.
  intros Hwf Hi Hw Hpc Hun Hop. unfold exec_div_jr. fields Hi.
  assert (forall hi lo, is_i32 hi -> is_i32 lo ->
    ok (break pc (let! m := setreg LoReg lo m in setreg HiReg hi m) w)) as Hhilo.
  { intros hi lo Hh Hl. apply break_ok; [done | done |].
    destruct (setreg_ok m LoReg lo Hwf) as (m1 & -> & Hwf1); [tauto|done|]. cbn [bind].
    apply setreg_ok; [done|tauto|done]. }
  repeat (apply elem_of_cons in Hop as [E | Hop]; [rewrite E|]); [..|by apply not_elem_of_nil in Hop].
  - reads. destruct (Z.eqb_spec v0 0); cbn [bind]; [by apply Hhilo|].
    destruct (int_div_ok v v0) as (q & r & -> & ? & ?); [done..| |cbn [bind]; by apply Hhilo].
    intros [? ?]. apply Hun. exists v, v0. do 2 (split; [done|]). by right.
  - reads. destruct (_ =? _); apply Hhilo; auto with cint.
  - destruct (link_ok R31 m Hwf) as (m1 & -> & Hwf1); [done|]. cbn [bind]. apply break_ok; eauto with cint.
  - cbn [bind]. apply break_ok; eauto using wf_framed with cint.
  - destruct (link_ok (rd i) m Hwf) as (m1 & -> & Hwf1); [done|]. cbn [bind]. reads. apply break_ok; eauto.
  - cbn [bind]. reads. apply break_ok; eauto using wf_framed.
Qed.

Lemma effective_ok i m :
  wf_machine m -> wf_instr i -> exists a, effective i m = Ret (i32 (a + extra i)) /\ reg m (rs i) = Ret a.
Proof.
  intros Hwf Hi. fields Hi. unfold effective. destruct (reg_ok m (rs i) Hwf) as (a & -> & _);
    [unfold NumTotalRegs; lia|]. by exists a.
Qed.

Lemma next_ok pc r v m w : wf_machine m -> kernel_ok w -> is_i32 pc -> 0 <= r < 32 -> is_i32 v -> ok (Ret (Next pc r v, (m, w))).
Proof. intros Hwf Hw Hpc Hr Hv. split; [apply Hwf|]. done. Qed.

Lemma exec_lb_lw_ok i pc m w :
  wf_machine m -> wf_instr i -> kernel_ok w -> is_i32 pc ->
  opCode i ∈ [OP_LB; OP_LBU; OP_LH; OP_LHU; OP_LUI; OP_LW] -> ok (exec_lb_lw big i pc (m, w)).
Proof.
  intros Hwf Hi Hw Hpc Hop. unfold exec_lb_lw. fields Hi.
  destruct (effective_ok i m Hwf Hi) as (a & -> & _). cbn [bind].
  cases Hop ltac:(try destruct (negb (Z.land (i32 _) _ =? 0));
    first [assigns | apply trap_ok; [apply Hwf | done | auto with cint]
          | apply with_mem_ok; [done | done | auto with cint | tauto | intros v m' w' Hv Hwf' Hw' _; apply next_ok;
              [done | done | done | done | first [done | destruct (_ && _); auto with cint]]]]).
Qed.

Lemma exec_lwl_lwr_ok i pc m w :
  wf_machine m -> wf_instr i -> kernel_ok w -> is_i32 pc -> ~ unsupported i m ->
  opCode i ∈ [OP_LWL; OP_LWR] -> ok (exec_lwl_lwr big i pc (m, w)).
Proof.
  intros Hwf Hi Hw Hpc Hun Hop. unfold exec_lwl_lwr. fields Hi.
  destruct (effective_ok i m Hwf Hi) as (a & -> & Ha). cbn [bind].
  destruct (Z.eqb_spec (Z.land (i32 (a + extra i)) 3) 0) as [E|E]; cbn [ASSERT bind].
  - rewrite E. cases Hop ltac:(apply with_mem_ok; [done | done | auto with cint | tauto | intros v m' w' Hv Hwf' Hw' _];
      unfold merge_base; reads; destruct (_ =? _); reads; apply next_ok; auto with cint).
  - exfalso. apply Hun. destruct (reg_ok m (rt i) Hwf) as (b & Hb & _); [unfold NumTotalRegs; lia|].
    exists a, b. split; [done|]. split; [done|]. left. split; [set_solver | done].
Qed.

Lemma exec_mfhi_ori_ok i pc m w :
  wf_machine m -> wf_instr i -> kernel_ok w -> is_i32 pc ->
  opCode i ∈ [OP_MFHI; OP_MFLO; OP_MTHI; OP_MTLO; OP_MULT; OP_MULTU; OP_NOR; OP_OR; OP_ORI] ->
  ok (exec_mfhi_ori i pc (m, w)).
Proof.
  intros Hwf Hi Hw Hpc Hop. unfold exec_mfhi_ori. fields Hi. reads.
  assert (forall b, ok (let '(hi, lo) := Mult v v0 b in
    break pc (let! m := setreg HiReg hi m in setreg LoReg lo m) w)) as Hm.
  { intros b. pose proof (Mult_spec v v0 b Hv Hv0) as HM. destruct (Mult v v0 b) as [hi lo].
    destruct HM as (Hh & Hl & _). apply break_ok; [done | done |].
    destruct (setreg_ok m HiReg hi Hwf) as (m1 & -> & Hwf1); [tauto|done|]. cbn [bind].
    apply setreg_ok; [done|tauto|done]. }
  cases Hop ltac:(reads; first [apply Hm | assigns]).
Qed.

Lemma exec_sb_sh_ok i pc m w :
  wf_machine m -> wf_instr i -> kernel_ok w -> is_i32 pc ->
  opCode i ∈ [OP_SB; OP_SH] -> ok (exec_sb_sh big i pc (m, w)).
Proof.
  intros Hwf Hi Hw Hpc Hop. unfold exec_sb_sh. fields Hi.
  destruct (effective_ok i m Hwf Hi) as (a & -> & Ha). cbn [bind]. reads.
  cases Hop ltac:(apply write_mem_ok; [done | done | auto with cint | tauto | done]).
Qed.

Lemma exec_sll_srlv_ok i pc m w :
  wf_machine m -> wf_instr i -> kernel_ok w -> is_i32 pc ->
  opCode i ∈ [OP_SLL; OP_SLLV; OP_SLT; OP_SLTI; OP_SLTIU; OP_SLTU; OP_SRA; OP_SRAV; OP_SRL; OP_SRLV] ->
  ok (exec_sll_srlv i pc (m, w)).
Proof.
  intros Hwf Hi Hw Hpc Hop. unfold exec_sll_srlv. fields Hi. reads.
  pose proof (instr_shift i Hi) as Hsh.
  assert (0 <= Z.land v 31) by (apply Z.land_nonneg; by right).
  repeat (apply elem_of_cons in Hop as [E | Hop];
    [rewrite E in *; try (destruct (Hsh _ eq_refl)); assigns|]).
  by apply not_elem_of_nil in Hop.
Qed.

Lemma exec_sub_subu_ok i pc m w :
  wf_machine m -> wf_instr i -> kernel_ok w -> is_i32 pc -> opCode i ∈ [OP_SUB; OP_SUBU] -> ok (exec_sub_subu i pc (m, w)).
Proof.
  intros Hwf Hi Hw Hpc Hop. unfold exec_sub_subu. fields Hi. reads.
  cases Hop ltac:(try destruct (_ && _); first [apply trap_ok; [apply Hwf | done | done] | assigns]).
Qed.

Lemma exec_sw_swr_ok i pc m w :
  wf_machine m -> wf_instr i -> kernel_ok w -> is_i32 pc -> ~ unsupported i m ->
  opCode i ∈ [OP_SW; OP_SWL; OP_SWR] -> ok (exec_sw_swr big i pc (m, w)).
Proof.
  intros Hwf Hi Hw Hpc Hun Hop. unfold exec_sw_swr. fields Hi.
  destruct (effective_ok i m Hwf Hi) as (a & -> & Ha). cbn [bind].
  apply elem_of_cons in Hop as [E | Hop].
  { rewrite E. reads. apply write_mem_ok; [done | done | auto with cint | tauto | done]. }
  assert (is_i32 (Z.land (i32 (a + extra i)) (Z.lnot 3))) by (apply is_i32_land; [auto with cint | done]).
  destruct (Z.eqb_spec (Z.land (i32 (a + extra i)) 3) 0) as [E|E].
  - rewrite E. cases Hop ltac:(cbn [ASSERT bind]; apply with_mem_ok; [done | done | done | tauto | intros v m' w' Hv Hwf' Hw' _];
      reads; apply write_mem_ok; [done | done | done | tauto | done]).
  - exfalso. apply Hun. destruct (reg_ok m (rt i) Hwf) as (b & Hb & _); [unfold NumTotalRegs; lia|].
    exists a, b. split; [done|]. split; [done|]. left. split; [set_solver | done].
Qed.

Lemma exec_syscall_res_ok i pc m w :
  wf_machine m -> wf_instr i -> kernel_ok w -> is_i32 pc ->
  opCode i ∈ [OP_SYSCALL; OP_XOR; OP_XORI; OP_RES; OP_UNIMP] -> ok (exec_syscall_res i pc (m, w)).
Proof.
  intros Hwf Hi Hw Hpc Hop. unfold exec_syscall_res. fields Hi. reads.
  cases Hop ltac:(first [apply trap_ok; [apply Hwf | done | done] | assigns]).
Qed.

Lemma execute_ok i pc m w :
  wf_machine m -> wf_instr i -> kernel_ok w -> is_i32 pc -> ~ unsupported i m -> ok (execute big i pc (m, w)).
Proof.
  intros Hwf Hi Hw Hpc Hun. pose proof (instr_op i Hi) as (? & ? & ?). unfold execute.
  destruct (opCode i) eqn:E; try done.
  all: first [apply exec_add_andi_ok; [done..|] | apply exec_branches_ok; [done..|]
    | apply exec_div_jr_ok; [done..|] | apply exec_lb_lw_ok; [done..|]
    | apply exec_lwl_lwr_ok; [done..|] | apply exec_mfhi_ori_ok; [done..|]
    | apply exec_sb_sh_ok; [done..|] | apply exec_sll_srlv_ok; [done..|]
    | apply exec_sub_subu_ok; [done..|] | apply exec_sw_swr_ok; [done..|]
    | apply exec_syscall_res_ok; [done..|]]; rewrite E; set_solver.
Qed.
End SafeExec.

(** ** Retiring an instruction *)

Definition retired (pc next after : Z) (rs : list Z) : list Z :=
  <[Z.to_nat NextPCReg := after]> (<[Z.to_nat PCReg := next]> (<[Z.to_nat PrevPCReg := pc]> rs)).

Lemma retire_spec pc lr lv m :
  wf_frame m -> is_i32 pc -> 0 <= lr < NumGPRegs -> is_i32 lv ->
  exists m' l v p n, retire pc lr lv m = Ret m' /\ wf_machine m' /\
    registers m !! Z.to_nat LoadReg = Some l /\ 0 <= l < NumGPRegs /\
    registers m !! Z.to_nat LoadValueReg = Some v /\
    registers m !! Z.to_nat PCReg = Some p /\ registers m !! Z.to_nat NextPCReg = Some n /\
    registers m' = retired p n pc (delayed lr lv l v (registers m)).
Proof.
  intros Hwf Hpc Hlr Hlv. unfold retire.
  destruct (DelayedLoad_spec m lr lv Hwf Hlr Hlv) as (m1 & l & v & -> & Hwf1 & Hl & Hlrange & Hv & R1).
  cbn [bind]. unfold NumGPRegs in *.
  destruct (reg_ok m1 PCReg Hwf1) as (p & Hp & Hp'); [done|]. rewrite Hp. cbn [bind].
  destruct (setreg_frame m1 PrevPCReg p Hwf1) as (m2 & -> & Hwf2 & R2); [done|done|by left|]. cbn [bind].
  destruct (reg_ok m2 NextPCReg Hwf2) as (n & Hn & Hn'); [done|]. rewrite Hn. cbn [bind].
  destruct (setreg_frame m2 PCReg n Hwf2) as (m3 & -> & Hwf3 & R3); [done|done|by left|]. cbn [bind].
  destruct (setreg_frame m3 NextPCReg pc Hwf3) as (m4 & -> & Hwf4 & R4); [done|done|by left|].
  exists m4, l, v, p, n. apply aref_Ret in Hp as [_ Hp]. apply aref_Ret in Hn as [_ Hn].
  assert (registers m4 = retired p n pc (delayed lr lv l v (registers m))) as HR
    by (unfold retired; by rewrite R4, R3, R2, R1).
  split; [done|]. split.
  { split; [done|]. rewrite HR. unfold retired. rewrite <- R1. 
    rewrite !list_lookup_insert_ne by done. apply (wf_r0 m1 Hwf1). }
  assert (forall k, (0 < k)%nat -> k <> Z.to_nat LoadReg -> k <> Z.to_nat LoadValueReg -> k <> Z.to_nat l ->
    delayed lr lv l v (registers m) !! k = registers m !! k) as Hother
    by (intros; unfold delayed; rewrite !list_lookup_insert_ne by lia; done).
  rewrite R2 in Hn. rewrite list_lookup_insert_ne in Hn by done. rewrite R1 in Hp, Hn.
  unfold LoadReg, LoadValueReg, PCReg, NextPCReg in *. rewrite Hother in Hp, Hn by lia. done.
Qed.

Section SafeRun.
Context {W : Type} `{!Kernel W} `{!KernelLaws W}.
Variable big : bool.
Implicit Types (i : Instruction) (m : Machine) (w : W).

(** The machine is about to execute an instruction the simulator does not support. *)
Definition stuck m w : Prop :=
  exists pc raw m1 w1 i, reg m PCReg = Ret pc /\ ReadMem big pc 4 (m, w) = Ret (Some raw, (m1, w1)) /\
    Decode (u32 raw) = Ret i /\ unsupported i m1.

Lemma unsupported_decidable i m : wf_machine m -> wf_instr i -> unsupported i m \/ ~ unsupported i m.
Proof.
  intros Hwf Hi. fields Hi.
  destruct (reg_ok m (rs i) Hwf) as (a & Ha & _); [unfold NumTotalRegs; lia|].
  destruct (reg_ok m (rt i) Hwf) as (b & Hb & _); [unfold NumTotalRegs; lia|].
  destruct (decide ((opCode i ∈ [OP_LWL; OP_LWR; OP_SWL; OP_SWR] /\ Z.land (i32 (a + extra i)) 0x3 <> 0) \/
     (opCode i = OP_DIV /\ a = -2^31 /\ b = -1))) as [Hd|Hd].
  - left. by exists a, b.
  - right. intros (a' & b' & Ha' & Hb' & Hd'). apply Hd.
    assert (a' = a /\ b' = b) as [-> ->] by (split; congruence). done.
Qed.

Lemma OneInstruction_ok m w :
  wf_machine m -> kernel_ok w ->
  (exists m' w', OneInstruction big (m, w) = Ret (m', w') /\ wf_machine m' /\ kernel_ok w') \/
  trap_ends (OneInstruction big (m, w)) \/ stuck m w.
Proof.
  intros Hwf Hw. unfold OneInstruction. cbn [fst].
  destruct (reg_ok m PCReg Hwf) as (pc & Hpc & Hpcr); [done|]. rewrite Hpc. cbn [bind].
  destruct (ReadMem_ok big pc 4 m w Hwf Hw Hpcr) as [(r & m1 & w1 & Hread & Hwf1 & Hw1 & Hr)|Hend]; [tauto| |right; left; by apply trap_ends_bind].
  rewrite Hread. cbn [bind]. destruct r as [raw|]; [|left; eauto].
  destruct (Decode_wf (u32 raw)) as (i & Hd & Hi); [apply u32_range|]. rewrite Hd. cbn [bind fst].
  destruct (reg_ok m1 NextPCReg Hwf1) as (n & Hn & _); [done|]. rewrite Hn. cbn [bind].
  destruct (unsupported_decidable i m1 Hwf1 Hi) as [Hun|Hun]; [right; right; by exists pc, raw, m1, w1, i|].
  pose proof (execute_ok big i (i32 (n + 4)) m1 w1 Hwf1 Hi Hw1 (i32_range _) Hun) as Hok.
  destruct (execute big i _ _) as [[[|pc' lr lv] [m2 w2]]| |] eqn:Ex; cbn [ok] in Hok; [| |right; left; exact Hok..].
  - left. cbn [bind]. destruct Hok. eauto.
  - left. destruct Hok as (Hwf2 & Hpc' & Hlr & Hlv & Hw2). cbn [bind].
    destruct (retire_spec pc' lr lv m2 Hwf2 Hpc' Hlr Hlv) as (m3 & _ & _ & _ & _ & -> & Hwf3 & _).
    cbn [bind]. eauto.
Qed.
End SafeRun.

(** *** A kernel that always comes back

    [come_back] is the same kernel, but for the calls that do not return: they leave
    everything as it is. *)
Definition returning {S} (f : S -> C S) (s : S) : C S := match f s with Ret s' => Ret s' | _ => Ret s end.

Definition come_back {W : Type} (H : Kernel W) : Kernel W :=
  {| ExceptionHandler e := returning (ExceptionHandler e); setMachineStatus := setMachineStatus; kernelTicks := kernelTicks |}.

Section Ended.
Context {W : Type} {H : Kernel W} {laws : KernelLaws W}.
Variable big : bool.
Implicit Types (m : Machine) (w : W).

Definition come_back_laws : @KernelLaws W (come_back H).
Proof using laws.
  refine (@Build_KernelLaws W (come_back H) (@kernel_ok W H laws) (@status_ok W H laws) _).
  intros e m w m' w' Hm Hw. cbn. unfold returning. destruct (ExceptionHandler e (m, w)) as [[m1 w1]| |] eqn:E.
  - intros [= <- <-]. exact (@handler_ok W H laws e m w m1 w1 Hm Hw E).
  - by intros [= <- <-].
  - by intros [= <- <-].
Defined.

Lemma comes_back {A} (c : C A) : ~ @trap_ends W (come_back H) come_back_laws A c.
Proof using. intros (e & m & w & _ & _ & Hs). cbn in Hs. unfold returning in Hs. by destruct (ExceptionHandler e (m, w)). Qed.

(** An instruction that was read was read without a trap. *)
Lemma read_back pc m w raw s :
  @ReadMem W (come_back H) big pc 4 (m, w) = Ret (Some raw, s) -> ReadMem big pc 4 (m, w) = Ret (Some raw, s).
Proof using.
  unfold ReadMem. destruct (Translate m pc 4 false) as [[[e|a] m1]| |]; cbn [bind]; [|exact (fun E => E)|done..].
  destruct (@RaiseException W (come_back H) e pc (m1, w)); cbn [bind]; discriminate.
Qed.

Lemma stuck_back m w : @stuck W (come_back H) big m w -> stuck big m w.
Proof using. intros (pc & raw & m1 & w1 & i & ? & ? & ?). exists pc, raw, m1, w1, i. split; [done|]. split; [by apply read_back | done]. Qed.

Lemma round_back OneTick Debugger m w : wf_machine m -> kernel_ok w ->
  (exists s, @Run_round W (come_back H) big (returning OneTick) (returning Debugger) (m, w) = Ret s) \/ stuck big m w.
Proof using laws.
  intros Hm Hw. assert (forall f (s : Machine * W), exists s', returning f s = Ret s') as Hret.
  { intros f s. unfold returning. destruct (f s); eauto. }
  destruct (@OneInstruction_ok W (come_back H) come_back_laws big m w Hm Hw) as [(m1 & w1 & H1 & _)|[Hend|Hs]].
  - left. unfold Run_round. rewrite H1. cbn [bind]. destruct (Hret OneTick (m1, w1)) as ([m2 w2] & ->). cbn [bind].
    destruct (_ && _); [apply Hret | eauto].
  - by apply comes_back in Hend.
  - right. by apply stuck_back.
Qed.

(** The run has come to an end in a round that did not return, but would have if
    every call of the kernel had. *)
Definition ended (OneTick Debugger : Machine * W -> C (Machine * W)) m w : Prop :=
  (forall s, Run_round big OneTick Debugger (m, w) <> Ret s) /\
  exists s, @Run_round W (come_back H) big (returning OneTick) (returning Debugger) (m, w) = Ret s.

Lemma Run_round_ok OneTick Debugger m w :
  (forall m w m' w', wf_machine m -> kernel_ok w -> OneTick (m, w) = Ret (m', w') -> wf_machine m' /\ kernel_ok w') ->
  (forall m w m' w', wf_machine m -> kernel_ok w -> Debugger (m, w) = Ret (m', w') -> wf_machine m' /\ kernel_ok w') ->
  wf_machine m -> kernel_ok w ->
  (exists m' w', Run_round big OneTick Debugger (m, w) = Ret (m', w') /\ wf_machine m' /\ kernel_ok w') \/
  stuck big m w \/ ended OneTick Debugger m w.
Proof using laws.
  intros Htick Hdbg Hm Hw.
  assert ((forall s, Run_round big OneTick Debugger (m, w) <> Ret s) -> stuck big m w \/ ended OneTick Debugger m w) as Hno.
  { intros Hn. destruct (round_back OneTick Debugger m w Hm Hw) as [Hb|Hs]; [by right | by left]. }
  destruct (OneInstruction_ok big m w Hm Hw) as [(m1 & w1 & E1 & Hm1 & Hw1)|[Hend|Hs]]; [| |by right; left].
  - unfold Run_round in *. rewrite E1 in *. cbn [bind] in *.
    destruct (OneTick (m1, w1)) as [[m2 w2]| |] eqn:E2; cbn [bind fst snd] in *; [|right; by apply Hno..].
    destruct (Htick m1 w1 m2 w2 Hm1 Hw1 E2) as [Hm2 Hw2]. destruct (_ && _); [|left; eauto].
    destruct (Debugger (m2, w2)) as [[m3 w3]| |] eqn:E3; [|right; by apply Hno..].
    left. exists m3, w3. split; [done | by eapply Hdbg].
  - right. apply Hno. intros s E. apply bind_Ret in E as (s1 & E1 & _). rewrite E1 in Hend. by apply trap_ends_not_Ret in Hend.
Qed.

(** C6: Machine::Run and OneInstruction, on any kernel that leaves the machine
    well-formed when it comes back from a trap. From a well-formed machine, whatever
    the program, every round of the fetch-execute loop returns a well-formed machine
    (registers are 32-bit words, register 0 is zero again, a pending load names a
    general register, memory holds bytes, the tables have their sizes), until the
    program executes an instruction the simulator does not support ([stuck]), or
    until the kernel does not come back: it halts the machine or ends the program,
    on an exception, in the timer's tick or in the debugger. That the kernel is the
    only other reason: the same round returns when the kernel's calls return
    ([ended]), so no array is indexed out of range and no assertion fails in the
    simulator itself. *)
Theorem Run_safe OneTick Debugger n m w :
  (forall m w m' w', wf_machine m -> kernel_ok w -> OneTick (m, w) = Ret (m', w') -> wf_machine m' /\ kernel_ok w') ->
  (forall m w m' w', wf_machine m -> kernel_ok w -> Debugger (m, w) = Ret (m', w') -> wf_machine m' /\ kernel_ok w') ->
  wf_machine m -> kernel_ok w ->
  (exists m' w', Run big OneTick Debugger n (m, w) = Ret (m', w') /\ wf_machine m' /\ kernel_ok w') \/
  (exists k m' w', (k < n)%nat /\ Run big OneTick Debugger k (m, w) = Ret (m', w') /\ wf_machine m' /\
     (stuck big m' w' \/ ended OneTick Debugger m' w')).
Proof using laws.
  intros Htick Hdbg Hm Hw. unfold Run. apply (status_ok UserMode) in Hw. revert Hw. generalize (setMachineStatus UserMode w). clear w.
  revert m Hm. induction n as [|n IH]; intros m Hm w Hw; [left; by exists m, w|].
  destruct (Run_round_ok OneTick Debugger m w Htick Hdbg Hm Hw) as [(m1 & w1 & H1 & Hm1 & Hw1)|Hs].
  - destruct (IH m1 Hm1 w1 Hw1) as [(m' & w' & Hr & ?)|(k & m' & w' & Hk & Hr & ?)].
    + left. exists m', w'. split; [|done]. cbn [Run_loop]. by rewrite H1.
    + right. exists (S k), m', w'. split; [lia|]. split; [|done]. cbn [Run_loop]. by rewrite H1.
  - right. exists 0%nat, m, w. split; [lia|]. by split.
Qed.
End Ended.

(** ** What arithmetic and logical instructions compute *)

(** A value for a register, values for HI and LO, or a trap. *)
Inductive alu_result := Value (dest v : Z) | HiLo (hi lo : Z) | Overflow.

Definition checked (dest v : Z) : alu_result :=
  if (-2^31 <=? v) && (v <? 2^31) then Value dest v else Overflow.

(** Reference: the MIPS manual's result of an instruction on the values [a] of rs
    and [b] of rt. There is none for the quotient of the least word and minus one, which the
    simulator does not support, and for OR, SRL and SRLV, where the code computes
    something else. A division by zero is undefined there; here it gives zeros. *)
Definition alu (i : Instruction) (a b : Z) : option alu_result :=
  match opCode i with
  | OP_ADD => Some (checked (rd i) (a + b))
  | OP_SUB => Some (checked (rd i) (a - b))
  | OP_ADDI => Some (checked (rt i) (a + extra i))
  | OP_ADDU => Some (Value (rd i) (i32 (a + b)))
  | OP_SUBU => Some (Value (rd i) (i32 (a - b)))
  | OP_ADDIU => Some (Value (rt i) (i32 (a + extra i)))
  | OP_AND => Some (Value (rd i) (Z.land a b))
  | OP_XOR => Some (Value (rd i) (Z.lxor a b))
  | OP_NOR => Some (Value (rd i) (- Z.lor a b - 1))
  | OP_ANDI => Some (Value (rt i) (Z.land a (extra i mod 2^16)))
  | OP_ORI => Some (Value (rt i) (Z.lor a (extra i mod 2^16)))
  | OP_XORI => Some (Value (rt i) (Z.lxor a (extra i mod 2^16)))
  | OP_LUI => Some (Value (rt i) (i32 (extra i * 2^16)))
  | OP_SLL => Some (Value (rd i) (i32 (b * 2^extra i)))
  | OP_SLLV => Some (Value (rd i) (i32 (b * 2^(a mod 32))))
  | OP_SRA => Some (Value (rd i) (b / 2^extra i))
  | OP_SRAV => Some (Value (rd i) (b / 2^(a mod 32)))
  | OP_SLT => Some (Value (rd i) (Z.b2z (bool_decide (a < b))))
  | OP_SLTI => Some (Value (rt i) (Z.b2z (bool_decide (a < extra i))))
  | OP_SLTU => Some (Value (rd i) (Z.b2z (bool_decide (a mod 2^32 < b mod 2^32))))
  | OP_SLTIU => Some (Value (rt i) (Z.b2z (bool_decide (a mod 2^32 < extra i mod 2^32))))
  | OP_MULT => Some (HiLo (a * b / 2^32) (i32 (a * b)))
  | OP_MULTU => let p := (a mod 2^32) * (b mod 2^32) in Some (HiLo (i32 (p / 2^32)) (i32 p))
  | OP_DIV =>
      if b =? 0 then Some (HiLo 0 0)
      else if (a =? -2^31) && (b =? -1) then None else Some (HiLo (Z.rem a b) (Z.quot a b))
  | OP_DIVU =>
      if b =? 0 then Some (HiLo 0 0)
      else Some (HiLo (i32 ((a mod 2^32) mod (b mod 2^32))) (i32 ((a mod 2^32) / (b mod 2^32))))
  | _ => None
  end.

Lemma sign_lxor a b : is_i32 a -> is_i32 b -> sign (Z.lxor a b) = xorb (a <? 0) (b <? 0).
Proof.
  intros Ha Hb. rewrite sign_spec by auto with cint.
  pose proof (Z.lxor_nonneg a b) as Hx.
  destruct (Z.ltb_spec (Z.lxor a b) 0), (Z.ltb_spec a 0), (Z.ltb_spec b 0); cbn [xorb];
    done || (exfalso; lia).
Qed.

(** The residue of a sum that overflows. *)
Lemma i32_wrap s : -2^32 <= s < 2^32 ->
  i32 s = if s <? -2^31 then s + 2^32 else if s <? 2^31 then s else s - 2^32.
Proof.
  intros Hs. unfold i32. destruct (Z.ltb_spec s (-2^31)); [|destruct (Z.ltb_spec s (2^31))].
  - rewrite <- (Z.mod_unique (s + 2^31) (2^32) (-1) (s + 2^31 + 2^32)); lia.
  - rewrite Z.mod_small; lia.
  - rewrite <- (Z.mod_unique (s + 2^31) (2^32) 1 (s + 2^31 - 2^32)); lia.
Qed.

(** The sign-bit tests are overflow tests. *)
Lemma add_overflow a b (A : Type) (x y : A) : is_i32 a -> is_i32 b ->
  (if negb (sign (Z.lxor a b)) && sign (Z.lxor a (i32 (a + b))) then x else y)
  = if (-2^31 <=? a + b) && (a + b <? 2^31) then y else x.
Proof.
  intros Ha Hb. rewrite !sign_lxor by auto with cint. unfold is_i32 in *.
  rewrite i32_wrap by lia.
  destruct (Z.ltb_spec (a + b) (-2^31)), (Z.ltb_spec (a + b) (2^31)), (Z.leb_spec (-2^31) (a + b)),
    (Z.ltb_spec a 0), (Z.ltb_spec b 0); cbn [xorb negb andb]; try lia; try done;
    match goal with |- context [?s <? 0] => destruct (Z.ltb_spec s 0) end; done || lia.
Qed.

Lemma sub_overflow a b (A : Type) (x y : A) : is_i32 a -> is_i32 b ->
  (if sign (Z.lxor a b) && sign (Z.lxor a (i32 (a - b))) then x else y)
  = if (-2^31 <=? a - b) && (a - b <? 2^31) then y else x.
Proof.
  intros Ha Hb. rewrite !sign_lxor by auto with cint. unfold is_i32 in *.
  rewrite i32_wrap by lia.
  destruct (Z.ltb_spec (a - b) (-2^31)), (Z.ltb_spec (a - b) (2^31)), (Z.leb_spec (-2^31) (a - b)),
    (Z.ltb_spec a 0), (Z.ltb_spec b 0); cbn [xorb negb andb]; try lia; try done;
    match goal with |- context [?s <? 0] => destruct (Z.ltb_spec s 0) end; done || lia.
Qed.

Lemma in_i32 v : (-2^31 <=? v) && (v <? 2^31) = true -> i32 v = v.
Proof. intros H. zbool. apply i32_small. unfold is_i32. lia. Qed.

Lemma b2z_decide (P : Prop) `{!Decision P} (b : bool) :
  (b = true <-> P) -> (if b then 1 else 0) = Z.b2z (bool_decide P).
Proof.
  intros HP. destruct (decide P); [rewrite bool_decide_true | rewrite bool_decide_false];
    destruct b; naive_solver.
Qed.

(** An arithmetic shift is a logical one for non-negative words only. *)
Lemma shiftr_logical b n : is_i32 b -> 0 <= n < 32 ->
  (Z.shiftr b n = i32 (Z.shiftr (u32 b) n) <-> 0 <= b \/ n = 0).
Proof.
  intros Hb Hn. rewrite !Z.shiftr_div_pow2 by lia. unfold is_i32 in Hb.
  assert (0 < 2^n) as Hp by (apply Z.pow_pos_nonneg; lia).
  destruct (Z.lt_ge_cases b 0).
  - rewrite u32_of_i32 by done. rewrite (proj2 (Z.ltb_lt b 0)) by done.
    destruct (Z.eq_dec n 0) as [->|Hn0].
    + rewrite !Z.div_1_r. split; [by right|]. intros _.
      rewrite i32_of_u32 by (unfold is_u32; lia). rewrite (proj2 (Z.ltb_ge _ _)) by lia. lia.
    + assert (2 <= 2^n) by (change 2 with (2^1) at 1; apply Z.pow_le_mono_r; lia).
      assert (0 <= (b + 2^32) / 2^n < 2^31)
        by (split; [apply Z.div_pos | apply Z.div_lt_upper_bound]; nia).
      rewrite i32_small by (unfold is_i32; lia).
      assert (b / 2^n < 0) by (apply Z.div_lt_upper_bound; lia). lia.
  - rewrite (u32_small b) by (unfold is_u32; lia).
    assert (0 <= b / 2^n <= b) by (split; [apply Z.div_pos; lia | apply Z.div_le_upper_bound; nia]).
    rewrite i32_small by (unfold is_i32; lia). split; [by left | done].
Qed.

Section Alu.
Context {W : Type} `{!Kernel W}.
Variable big : bool.
Implicit Types (i : Instruction) (m : Machine) (w : W).

(** What executing an instruction with result [r] amounts to. *)
Definition alu_outcome (r : alu_result) (pc : Z) (s : Machine * W) : C (exit * (Machine * W)) :=
  match r with
  | Value d v => break pc (setreg d v s.1) s.2
  | HiLo hi lo => break pc (let! m := setreg HiReg hi s.1 in setreg LoReg lo m) s.2
  | Overflow => trap OverflowException 0 s
  end.

Lemma checked_outcome d v pc m w :
  alu_outcome (checked d v) pc (m, w) =
  if (-2^31 <=? v) && (v <? 2^31) then break pc (setreg d (i32 v) m) w else trap OverflowException 0 (m, w).
Proof.
  unfold checked. destruct ((-2^31 <=? v) && (v <? 2^31)) eqn:E; [|done]. by rewrite (in_i32 v E).
Qed.

Lemma land_imm x : Z.land x 0xffff = x mod 2^16.
Proof. change 0xffff with (Z.ones 16). by rewrite Z.land_ones. Qed.

Lemma land_shift x : Z.land x 0x1f = x mod 32.
Proof. change 0x1f with (Z.ones 5). by rewrite Z.land_ones. Qed.

Lemma setreg_hi_lo hi lo m :
  (let! m := setreg LoReg lo m in setreg HiReg hi m) = (let! m := setreg HiReg hi m in setreg LoReg lo m).
Proof.
  unfold setreg, aset, HiReg, LoReg. cbn [Z.leb Z.compare andb].
  destruct (Z.ltb_spec 32 (Z.of_nat (length (registers m)))), (Z.ltb_spec 33 (Z.of_nat (length (registers m)))); try lia;
    cbn [bind registers set_registers]; rewrite ?length_insert;
    repeat match goal with |- context [?a <? ?b] => destruct (Z.ltb_spec a b); try lia end; cbn [bind]; try done.
  unfold set_registers. cbn. by rewrite list_insert_insert_ne by done.
Qed.

(** The product in two halves. *)
Lemma Mult_value a b s : is_i32 a -> is_i32 b ->
  Mult a b s = if s then (a * b / 2^32, i32 (a * b)) else (i32 (u32 a * u32 b / 2^32), i32 (u32 a * u32 b)).
Proof.
  intros Ha Hb. pose proof (Mult_spec a b s Ha Hb) as H. destruct (Mult a b s) as [hi lo]. destruct H as (Hh & Hl & H).
  pose proof (u32_range lo) as Hu. unfold dword in H. assert (forall x p, x * 2^32 + u32 lo = p -> x = p / 2^32 /\ lo = i32 p) as Hd.
  { intros x p E. split; [apply (Z.div_unique _ _ _ (u32 lo)); unfold is_u32 in Hu; lia|].
    rewrite <- (i32_u32 p). assert (u32 p = u32 lo) as -> by (symmetry; unfold u32 at 2; apply (Z.mod_unique _ _ x); unfold is_u32 in Hu; lia).
    by rewrite i32_u32, i32_small. }
  destruct s; apply Hd in H as [E1 E2]; f_equal; try done. by rewrite <- E1, i32_u32, i32_small.
Qed.

Lemma exec_DIV i pc m w a b r : opCode i = OP_DIV -> reg m (rs i) = Ret a -> reg m (rt i) = Ret b ->
  (if b =? 0 then Some (HiLo 0 0)
   else if (a =? -2^31) && (b =? -1) then None else Some (HiLo (Z.rem a b) (Z.quot a b))) = Some r ->
  exec_div_jr i pc (m, w) = alu_outcome r pc (m, w).
Proof.
  intros E Ha Hb Hr. unfold exec_div_jr, int_div. rewrite E, Ha, Hb. cbn [bind].
  destruct (b =? 0); cbn [orb bind].
  - injection Hr as <-. exact (f_equal (fun mm => break pc mm w) (setreg_hi_lo _ _ _)).
  - destruct (_ && _); [done|]. injection Hr as <-. cbn [bind]. exact (f_equal (fun mm => break pc mm w) (setreg_hi_lo _ _ _)).
Qed.

Lemma exec_DIVU i pc m w a b r : opCode i = OP_DIVU -> reg m (rs i) = Ret a -> reg m (rt i) = Ret b -> is_i32 b ->
  (if b =? 0 then Some (HiLo 0 0)
   else Some (HiLo (i32 ((a mod 2^32) mod (b mod 2^32))) (i32 ((a mod 2^32) / (b mod 2^32))))) = Some r ->
  exec_div_jr i pc (m, w) = alu_outcome r pc (m, w).
Proof.
  intros E Ha Hb Hbi Hr. unfold exec_div_jr. rewrite E, Ha, Hb. cbn [bind]. cbv zeta.
  assert ((u32 b =? 0) = (b =? 0)) as ->.
  { rewrite u32_of_i32 by done. unfold is_i32 in Hbi. destruct (Z.ltb_spec b 0); [|done].
    destruct (Z.eqb_spec (b + 2^32) 0), (Z.eqb_spec b 0); lia || done. }
  destruct (b =? 0); injection Hr as <-; exact (f_equal (fun mm => break pc mm w) (setreg_hi_lo _ _ _)).
Qed.

Lemma execute_alu i pc m w a b r :
  wf_instr i -> reg m (rs i) = Ret a -> reg m (rt i) = Ret b -> is_i32 a -> is_i32 b ->
  alu i a b = Some r -> execute big i pc (m, w) = alu_outcome r pc (m, w).
Proof.
  intros Hi Ha Hb Hai Hbi Halu. pose proof (instr_extra i Hi) as Hx. pose proof (instr_shift i Hi) as Hsh.
  pose proof (Mult_value a b true Hai Hbi) as HM1. pose proof (Mult_value a b false Hai Hbi) as HM2. cbn in HM1, HM2.
  unfold alu in Halu. unfold execute.
  destruct (opCode i) eqn:E; try discriminate Halu;
    try (by apply (exec_DIV i pc m w a b)); try (by apply (exec_DIVU i pc m w a b));
    injection Halu as <-;
    try (destruct (Hsh _ eq_refl)); pose proof (Z.mod_pos_bound a 32 ltac:(lia));
    unfold exec_add_andi, exec_lb_lw, exec_mfhi_ori, exec_sll_srlv, exec_sub_subu, exec_syscall_res, effective;
    rewrite E, ?Ha, ?Hb; cbn [bind]; rewrite ?land_imm, ?land_shift, ?Z.shiftl_mul_pow2, ?Z.shiftr_div_pow2 by lia;
    rewrite ?checked_outcome; cbn [alu_outcome fst snd].
  all: try reflexivity.
  all: try (by rewrite HM1).
  all: try (by rewrite HM2).
  all: try by rewrite <- add_overflow.
  all: try by rewrite <- sub_overflow.
  all: try (by rewrite (b2z_decide _ _ (Z.ltb_lt _ _))).
  rewrite (Z.lxor_comm a (extra i)), (Z.add_comm a (extra i)). by rewrite <- add_overflow.
Qed.

(** C27: the arithmetic and logical instructions (OneInstruction). On register
    values in range each of them, but for OR, SRL and SRLV, computes what the MIPS
    manual says, on every branch: ADD, ADDI and SUB trap exactly when the result does
    not fit in 32 bits and otherwise store it, the unsigned forms wrap, immediates of
    the logical forms are zero-extended, shifts take the low five bits, SLT compares
    signed and SLTU unsigned, MULT and MULTU put the two halves of the product and
    DIV and DIVU remainder and quotient into HI and LO (zeros for a division by zero,
    which the manual leaves open; the quotient of the least word and minus one is not
    supported). The three that deviate, recorded as findings: OR copies rs, and SRL
    and SRLV shift arithmetically, like SRA and SRAV. *)
Theorem alu_correct i pc m w a b :
  wf_instr i -> reg m (rs i) = Ret a -> reg m (rt i) = Ret b -> is_i32 a -> is_i32 b ->
  (forall r, alu i a b = Some r -> execute big i pc (m, w) = alu_outcome r pc (m, w)) /\
  (opCode i = OP_OR -> execute big i pc (m, w) = alu_outcome (Value (rd i) a) pc (m, w)) /\
  (opCode i = OP_SRL -> execute big i pc (m, w) = alu_outcome (Value (rd i) (b / 2^extra i)) pc (m, w)) /\
  (opCode i = OP_SRLV -> execute big i pc (m, w) = alu_outcome (Value (rd i) (b / 2^(a mod 32))) pc (m, w)).
Proof.
  intros Hi Ha Hb Hai Hbi. split; [intros r; by apply execute_alu|].
  pose proof (instr_shift i Hi) as Hsh. pose proof (Z.mod_pos_bound a 32 ltac:(lia)).
  repeat split; intros E; unfold execute, exec_mfhi_ori, exec_sll_srlv; rewrite E, Ha, Hb; cbn [bind alu_outcome fst snd].
  - by rewrite Z.lor_diag.
  - rewrite E in Hsh. destruct (Hsh _ eq_refl). by rewrite Z.shiftr_div_pow2.
  - rewrite land_shift, Z.shiftr_div_pow2; [done | lia].
Qed.

(** OR and the logical right shifts as they are written. OR never looks at
    rt: it copies rs, which is the bitwise or only when rt has no bit that rs
    lacks. SRL and SRLV shift through a signed temporary, so a negative word is
    shifted arithmetically: the result is the logical shift exactly for a
    non-negative word or a shift by zero. *)
Theorem OR_SRL_as_written i pc m w a b :
  wf_instr i -> reg m (rs i) = Ret a -> reg m (rt i) = Ret b -> is_i32 a -> is_i32 b ->
  (opCode i = OP_OR ->
     execute big i pc (m, w) = break pc (setreg (rd i) a m) w /\
     (Z.lor a b = a <-> Z.land b (Z.lnot a) = 0)) /\
  (forall n, (opCode i = OP_SRL /\ n = extra i) \/ (opCode i = OP_SRLV /\ n = a mod 32) ->
     execute big i pc (m, w) = break pc (setreg (rd i) (Z.shiftr b n) m) w /\
     (Z.shiftr b n = i32 (Z.shiftr (u32 b) n) <-> 0 <= b \/ n = 0)).
Proof.
  intros Hi Ha Hb Hai Hbi. split.
  - intros E. unfold execute, exec_mfhi_ori. rewrite E, Ha, Hb. cbn [bind]. rewrite Z.lor_diag.
    split; [done|]. split; intros H.
    + rewrite <- H, Z.lnot_lor. apply Z.bits_inj'. intros j Hj.
      rewrite !Z.land_spec, !Z.lnot_spec, Z.bits_0 by done. by destruct (Z.testbit a j), (Z.testbit b j).
    + apply Z.bits_inj'. intros j Hj. apply (f_equal (fun z => Z.testbit z j)) in H.
      rewrite Z.land_spec, Z.lnot_spec, Z.bits_0 in H by done. rewrite Z.lor_spec.
      by destruct (Z.testbit a j), (Z.testbit b j).
  - intros n Hn.
    assert (0 <= n < 32) as Hr.
    { destruct Hn as [[E ->]|[E ->]]; [|apply Z.mod_pos_bound; lia].
      apply (instr_shift i Hi 2). by rewrite E. }
    split.
    + unfold execute, exec_sll_srlv. destruct Hn as [[E ->]|[E ->]]; rewrite E, Ha, Hb; cbn [bind];
        rewrite ?land_shift; done.
    + apply shiftr_logical; done.
Qed.
End Alu.

(** ** Delay slots *)

(** The instruction in a delay slot may change other registers, but leaves the
    program counters and the pending load alone until it retires. *)
Definition in_slot (m m' : Machine) : Prop :=
  wf_frame m' /\ forall r, r ∈ [PCReg; NextPCReg; LoadReg; LoadValueReg] ->
    registers m' !! Z.to_nat r = registers m !! Z.to_nat r.

(** branch and load delay slots (the end of OneInstruction, DelayedLoad). An
    instruction that ends with target [pc1] and a load of [v] into [r] retires so
    that the next instruction is the one in the delay slot, and every register but
    the one an earlier load was pending for is as the instruction left it, [r]
    included. Whatever the slot's instruction does, after it retires in turn the
    program continues at [pc1] and [r] holds [v], unless [r] is register 0, which
    is zero after every instruction. *)
Theorem delay_slots m pc1 r v pc2 r2 v2 :
  wf_frame m -> is_i32 pc1 -> 0 <= r < NumGPRegs -> is_i32 v ->
  is_i32 pc2 -> 0 <= r2 < NumGPRegs -> is_i32 v2 ->
  exists m1, retire pc1 r v m = Ret m1 /\ wf_machine m1 /\
    registers m1 !! Z.to_nat PCReg = registers m !! Z.to_nat NextPCReg /\
    registers m1 !! Z.to_nat PrevPCReg = registers m !! Z.to_nat PCReg /\
    (forall q, 0 < q < PCReg -> registers m !! Z.to_nat LoadReg <> Some q ->
       registers m1 !! Z.to_nat q = registers m !! Z.to_nat q) /\
    forall m2, in_slot m1 m2 ->
      exists m3, retire pc2 r2 v2 m2 = Ret m3 /\ wf_machine m3 /\
        registers m3 !! Z.to_nat PCReg = Some pc1 /\
        registers m3 !! Z.to_nat r = Some (if r =? 0 then 0 else v).
Proof.
  intros Hwf Hpc1 Hr Hv Hpc2 Hr2 Hv2.
  destruct (retire_spec pc1 r v m Hwf Hpc1 Hr Hv) as (m1 & l & lv & p & n & E1 & Hwf1 & Hl & Hlr & Hlv & Hp & Hn & R1).
  pose proof (wf_registers m Hwf) as Hlen. change (Z.to_nat NumTotalRegs) with 40%nat in Hlen.
  exists m1. do 2 (split; [done|]). unfold NumGPRegs in *.
  rewrite R1, Hp, Hn, Hl. unfold retired, delayed.
  unfold LoadReg, LoadValueReg, PCReg, NextPCReg, PrevPCReg.
  split; [by rewrite list_lookup_insert_ne, list_lookup_insert_eq by (rewrite ?length_insert; lia)|].
  split; [by rewrite !list_lookup_insert_ne, list_lookup_insert_eq by (rewrite ?length_insert; lia)|].
  split.
  { intros q Hq Hne. assert (l <> q) by congruence. by rewrite !list_lookup_insert_ne by lia. }
  intros m2 [Hwf2 Hslot].
  destruct (retire_spec pc2 r2 v2 m2 Hwf2 Hpc2 Hr2 Hv2) as (m3 & l2 & lv2 & p2 & n2 & E3 & Hwf3 & Hl2 & _ & Hlv2 & _ & Hn2 & R3).
  rewrite Hslot in Hl2, Hlv2, Hn2 by set_solver. rewrite R1 in Hl2, Hlv2, Hn2. unfold retired, delayed in *.
  unfold LoadReg, LoadValueReg, PCReg, NextPCReg, PrevPCReg in *.
  rewrite !list_lookup_insert_ne, list_lookup_insert_eq in Hl2 by (rewrite ?length_insert; lia).
  rewrite !list_lookup_insert_ne, list_lookup_insert_eq in Hlv2 by (rewrite ?length_insert; lia).
  rewrite list_lookup_insert_eq in Hn2 by (rewrite ?length_insert; lia).
  injection Hl2 as <-. injection Hlv2 as <-. injection Hn2 as <-.
  pose proof (wf_registers m2 Hwf2) as Hlen2. change (Z.to_nat NumTotalRegs) with 40%nat in Hlen2.
  exists m3. do 2 (split; [done|]). rewrite R3.
  split; [by rewrite list_lookup_insert_ne, list_lookup_insert_eq by (rewrite ?length_insert; lia)|].
  destruct (Z.eqb_spec r 0) as [->|Hr0].
  - rewrite !list_lookup_insert_ne by lia. apply list_lookup_insert_eq. rewrite !length_insert. lia.
  - rewrite !list_lookup_insert_ne by lia. apply list_lookup_insert_eq. lia.
Qed.

(** ** Concrete instructions *)

Module Demo.
Import Machine.Demo.

Lemma Mult_correct_witness :
  Mult (-2^31) (-2^31) true = (2^30, 0) /\ dword (2^30) (u32 0) = (-2^31) * (-2^31).
Proof.
  assert (is_i32 (-2^31)) as H by (unfold is_i32; lia).
  assert (Mult (-2^31) (-2^31) true = (2^30, 0)) as E by (vm_compute; reflexivity).
  pose proof (Mult_correct (-2^31) (-2^31) true H H) as HM. rewrite E in HM.
  split; [exact E | exact (proj2 (proj2 HM))].
Defined.

Lemma Decode_encode_witness :
  exists j, Decode (encode (mkInstr OP_ADDI 4 5 0 (-3)) (Major 8)) = Ret j /\
    opCode j = OP_ADDI /\ extra j = -3 /\ rs j = 4 /\ rt j = 5.
Proof.
  apply (Decode_encode (mkInstr OP_ADDI 4 5 0 (-3)) (Major 8)); [reflexivity|].
  split; cbn; lia.
Defined.

(** Register 1 holds the largest word, register 2 minus one. *)
Definition regs_demo : Machine :=
  set_registers (<[1%nat := 2^31 - 1]> (<[2%nat := -1]> (registers demo))) demo.

Lemma alu_correct_witness :
  execute true (mkInstr OP_SUB 1 2 3 0) 8 (regs_demo, []) = trap OverflowException 0 (regs_demo, []).
Proof.
  refine (proj1 (alu_correct true (mkInstr OP_SUB 1 2 3 0) 8 regs_demo [] (2^31 - 1) (-1) _ _ _ _ _) Overflow _);
    [|reflexivity|reflexivity|unfold is_i32; lia|unfold is_i32; lia|reflexivity].
  split; cbn; try lia; try (unfold is_i32; lia); try done.
Defined.

Lemma OR_SRL_as_written_witness :
  execute true (mkInstr OP_SRL 1 2 3 1) 8 (regs_demo, []) = break 8 (setreg 3 (-1) regs_demo) [] /\
  -1 <> i32 (Z.shiftr (u32 (-1)) 1).
Proof.
  assert (wf_instr (mkInstr OP_SRL 1 2 3 1)) as Hi
    by (split; cbn; try lia; try (unfold is_i32; lia); try done).
  destruct (OR_SRL_as_written true (mkInstr OP_SRL 1 2 3 1) 8 regs_demo [] (2^31 - 1) (-1) Hi eq_refl eq_refl)
    as [_ H]; [unfold is_i32; lia | unfold is_i32; lia|].
  destruct (H 1 ltac:(left; split; reflexivity)) as [He Hiff].
  split; [exact He|]. intros Heq. apply Hiff in Heq. lia.
Defined.

Lemma delay_slots_witness :
  exists m1, retire 400 7 99 demo = Ret m1 /\ registers m1 !! 7%nat = Some 0 /\
    exists m3, retire 12 0 0 m1 = Ret m3 /\ registers m3 !! 34%nat = Some 400 /\ registers m3 !! 7%nat = Some 99.
Proof.
  assert (is_i32 400 /\ is_i32 99 /\ is_i32 12) as (H1 & H2 & H3) by (unfold is_i32; lia).
  destruct (delay_slots demo 400 7 99 12 0 0 (wf_framed _ demo_wf) H1 ltac:(done) H2 H3 ltac:(done) ltac:(done))
    as (m1 & E1 & Hwf1 & _ & _ & Hq & Hslot).
  exists m1. split; [exact E1|]. split; [exact (Hq 7 ltac:(done) ltac:(done))|].
  destruct (Hslot m1 (conj (wf_framed _ Hwf1) (fun _ _ => eq_refl))) as (m3 & E3 & _ & Hpc & Hr).
  exists m3. split; [exact E3|]. split; [exact Hpc | exact Hr].
Defined.
End Demo.
