(* ===== verification/Threads.v ===== *)
(** * Threads, scheduler and synchronization (threads/thread.h, thread.cc,
      scheduler.h, scheduler.cc, synch.h, synch.cc)

    A thread is a control block and the stack of its unfinished kernel calls: a
    [frame] is a point of the source where a call goes on after a context switch
    or after interrupts were enabled again. The code between two such points runs
    with interrupts off, or is that of the client, so one event ([exec]) runs from
    one point to the next. What happens when interrupts are enabled (which devices
    are due, whether the time slice is over) is the input [Tick] of the event: the
    device handlers of the kernel all end in [Semaphore::V], and the timer asks for
    [Thread::Yield]. *)

From stdpp Require Import functions.
From S2P Require Import Prelude NachosList Interrupt.

Inductive ThreadStatus := JUST_CREATED | RUNNING | READY | BLOCKED.
Inductive LockState := FREE | BUSY.

#[export] Instance ThreadStatus_eq_dec : EqDecision ThreadStatus.
Proof. solve_decision. Defined.
#[export] Instance LockState_eq_dec : EqDecision LockState.
Proof. solve_decision. Defined.

(** Pointers to threads, semaphores, locks, conditions. *)
Notation id := positive (only parsing).

(** The call that ends in [(void) interrupt->SetLevel(oldLevel)]. *)
Inductive site :=
| AtP (s : id) | AtV (s : id) | AtAcquire (l : id) | AtRelease (l : id)
| AtWait (c : id) | AtSignal (c : id) | AtBroadcast (c : id) | AtFork (t : id) | AtYield.

Inductive frame :=
| InRun                              (* Scheduler::Run, behind SWITCH *)
| InRoot                             (* ThreadRoot, first InterruptEnable *)
| InFinish                           (* Thread::Finish, behind Sleep: not reached *)
| Reset (s : site) (oldLevel : IntStatus)  (* the SetLevel that ends a call *)
| InP (s : id)                       (* the test of P's loop *)
| InWait (c l : id)                  (* Condition::Wait, behind Sleep *)
| InBroadcast (c l : id).            (* the test of Broadcast's loop *)

#[export] Instance site_eq_dec : EqDecision site.
Proof. solve_decision. Defined.
#[export] Instance frame_eq_dec : EqDecision frame.
Proof. solve_decision. Defined.

(** thread.h. [stack] is the word at the bottom of the stack, [None] for the main
    thread; [frames] stands for [stackTop] and [machineState]. *)
Record Thread := mkThread {
  frames : list frame; stack : option Z; t_status : ThreadStatus; mailBox : Z;
  userRegisters : list Z; space : option nat
}.

Definition STACK_FENCEPOST : Z := 3735928559.

Definition new_Thread (mailBoxNum : Z) (garbage : list Z) : Thread :=
  mkThread [] None JUST_CREATED mailBoxNum garbage None.

Definition set_frames v T := mkThread v (stack T) (t_status T) (mailBox T) (userRegisters T) (space T).
Definition set_stack v T := mkThread (frames T) v (t_status T) (mailBox T) (userRegisters T) (space T).
Definition setStatus st T := mkThread (frames T) (stack T) st (mailBox T) (userRegisters T) (space T).
Definition set_userRegisters v T := mkThread (frames T) (stack T) (t_status T) (mailBox T) v (space T).
Definition set_space v T := mkThread (frames T) (stack T) (t_status T) (mailBox T) (userRegisters T) v.
Definition push f T := set_frames (f :: frames T) T.

(** synch.h. *)
Record Semaphore := mkSem { value : Z; s_queue : list (Z * id) }.
Record Lock := mkLock { state : LockState; owner : option id; l_queue : list (Z * id) }.
Record Condition := mkCond { waitingLock : option id; c_queue : list (Z * id) }.

Definition new_Semaphore (initialValue : Z) : Semaphore := mkSem initialValue [].
Definition new_Lock : Lock := mkLock FREE None [].
Definition new_Condition : Condition := mkCond None [].

(** AddrSpace::SaveState and RestoreState, on the memory management state [M]. *)
Class Spaces (M : Type) := { SaveState : nat -> M -> M; RestoreState : nat -> M -> M }.

(** The globals of the kernel. [idle]: the current thread is in the loop of
    Thread::Sleep, waiting for an interrupt. *)
Record Kernel (M : Type) := mkKernel {
  currentThread : id; idle : bool; threadToBeDestroyed : option id;
  threads : gmap id Thread; readyList : list (Z * id);
  sems : gmap id Semaphore; locks : gmap id Lock; conds : gmap id Condition;
  intLevel : IntStatus; registers : list Z; mmu : M
}.
Arguments mkKernel {M} _ _ _ _ _ _ _ _ _ _ _.
Arguments currentThread {M} _.
Arguments idle {M} _.
Arguments threadToBeDestroyed {M} _.
Arguments threads {M} _.
Arguments readyList {M} _.
Arguments sems {M} _.
Arguments locks {M} _.
Arguments conds {M} _.
Arguments intLevel {M} _.
Arguments registers {M} _.
Arguments mmu {M} _.

(** What CheckIfDue finds: the semaphores the handlers signal, and whether the
    timer asked for a context switch. *)
Record Tick := mkTick { fired : list id; timer : bool }.

(** What a thread can call. *)
Inductive op (M : Type) :=
| ONewThread (t : id) (mailBoxNum : Z) (garbage : list Z) | OSetSpace (t : id) (sp : nat) | OFork (t : id)
| OYield | OFinish
| ONewSemaphore (s : id) (v : Z) | ONewLock (l : id) | ONewCondition (c : id)
| OP (s : id) | OV (s : id) | OAcquire (l : id) | ORelease (l : id)
| OWait (c : id) (l : option id) | OSignal (c : id) (l : option id) | OBroadcast (c : id) (l : option id)
| OUser (regs : list Z) (m : M).   (* instructions of the user program *)
Arguments ONewThread {M} _ _ _.
Arguments OSetSpace {M} _ _.
Arguments OFork {M} _.
Arguments OYield {M}.
Arguments OFinish {M}.
Arguments ONewSemaphore {M} _ _.
Arguments ONewLock {M} _.
Arguments ONewCondition {M} _.
Arguments OP {M} _.
Arguments OV {M} _.
Arguments OAcquire {M} _.
Arguments ORelease {M} _.
Arguments OWait {M} _ _.
Arguments OSignal {M} _ _.
Arguments OBroadcast {M} _ _.
Arguments OUser {M} _ _.

Inductive event (M : Type) :=
| Call (o : op M)        (* the current thread calls the kernel *)
| Step (tk : Tick)       (* the current thread goes on inside the kernel *)
| Wake (fired : list id).  (* interrupts come in while nobody can run *)
Arguments Call {M} _.
Arguments Step {M} _.
Arguments Wake {M} _.

Section Kernel.
Context {M : Type} `{!Spaces M}.
Implicit Types (K : Kernel M) (T : Thread) (t l s c : id).

Definition set_current v K : Kernel M := mkKernel v (idle K) (threadToBeDestroyed K) (threads K) (readyList K) (sems K) (locks K) (conds K) (intLevel K) (registers K) (mmu K).
Definition set_idle v K : Kernel M := mkKernel (currentThread K) v (threadToBeDestroyed K) (threads K) (readyList K) (sems K) (locks K) (conds K) (intLevel K) (registers K) (mmu K).
Definition set_doomed v K : Kernel M := mkKernel (currentThread K) (idle K) v (threads K) (readyList K) (sems K) (locks K) (conds K) (intLevel K) (registers K) (mmu K).
Definition set_threads v K : Kernel M := mkKernel (currentThread K) (idle K) (threadToBeDestroyed K) v (readyList K) (sems K) (locks K) (conds K) (intLevel K) (registers K) (mmu K).
Definition set_ready v K : Kernel M := mkKernel (currentThread K) (idle K) (threadToBeDestroyed K) (threads K) v (sems K) (locks K) (conds K) (intLevel K) (registers K) (mmu K).
Definition set_sems v K : Kernel M := mkKernel (currentThread K) (idle K) (threadToBeDestroyed K) (threads K) (readyList K) v (locks K) (conds K) (intLevel K) (registers K) (mmu K).
Definition set_locks v K : Kernel M := mkKernel (currentThread K) (idle K) (threadToBeDestroyed K) (threads K) (readyList K) (sems K) v (conds K) (intLevel K) (registers K) (mmu K).
Definition set_conds v K : Kernel M := mkKernel (currentThread K) (idle K) (threadToBeDestroyed K) (threads K) (readyList K) (sems K) (locks K) v (intLevel K) (registers K) (mmu K).
Definition set_intLevel v K : Kernel M := mkKernel (currentThread K) (idle K) (threadToBeDestroyed K) (threads K) (readyList K) (sems K) (locks K) (conds K) v (registers K) (mmu K).
Definition set_user (r : list Z) (m : M) K : Kernel M := mkKernel (currentThread K) (idle K) (threadToBeDestroyed K) (threads K) (readyList K) (sems K) (locks K) (conds K) (intLevel K) r m.

(** A dereference: a pointer to a deleted object has no meaning. *)
Definition find {A} (m : gmap id A) (p : id) : C A :=
  match m !! p with Some a => Ret a | None => Undef end.

Definition put_thread t T K := set_threads (<[t := T]> (threads K)) K.
Definition put_sem s S K := set_sems (<[s := S]> (sems K)) K.
Definition put_lock l L K := set_locks (<[l := L]> (locks K)) K.
Definition put_cond c Q K := set_conds (<[c := Q]> (conds K)) K.

(** The current thread enters a call that goes on at [f]. *)
Definition push_current f K : C (Kernel M) :=
  let! T := find (threads K) (currentThread K) in Ret (put_thread (currentThread K) (push f T) K).

(** [IntStatus oldLevel = interrupt->SetLevel(IntOff); ... SetLevel(oldLevel)] *)
Definition enter (x : site) K : C (Kernel M) :=
  let! K := push_current (Reset x (intLevel K)) K in Ret (set_intLevel IntOff K).

(** ** scheduler.cc *)

Definition ReadyToRun t K : C (Kernel M) :=
  let! T := find (threads K) t in
  Ret (set_ready (Seq.Append t (readyList K)) (put_thread t (setStatus READY T) K)).

Definition FindNextToRun K : option id * Kernel M :=
  let '(t, q) := Seq.Remove (readyList K) in (t, set_ready q K).

Definition CheckOverflow T : C () :=
  match stack T with Some w => ASSERT (w =? STACK_FENCEPOST) | None => Ret () end.

(** Run up to SWITCH. *)
Definition Run (nextThread : id) K : C (Kernel M) :=
  let oldThread := currentThread K in
  let! T := find (threads K) oldThread in
  let K := match space T with
           | Some sp => set_user (registers K) (SaveState sp (mmu K))
                          (put_thread oldThread (set_userRegisters (registers K) T) K)
           | None => K end in
  let! _ := CheckOverflow T in
  let! K := push_current InRun K in
  let! N := find (threads K) nextThread in
  Ret (put_thread nextThread (setStatus RUNNING N) (set_current nextThread K)).

(** Run behind SWITCH, on the stack of the thread that has the processor now. *)
Definition Run_resume K : C (Kernel M) :=
  let! K := match threadToBeDestroyed K with
            | Some d =>
                let! _ := ASSERT (negb (bool_decide (d = currentThread K))) in
                Ret (set_doomed None (set_threads (delete d (threads K)) K))
            | None => Ret K end in
  let! T := find (threads K) (currentThread K) in
  match space T with
  | Some sp => Ret (set_user (userRegisters T) (RestoreState sp (mmu K)) K)
  | None => Ret K
  end.

(** ** thread.cc *)

(** Fork, with StackAllocate; it ends in SetLevel. *)
Definition Fork t K : C (Kernel M) :=
  let! T := find (threads K) t in
  let K := put_thread t (set_stack (Some STACK_FENCEPOST) (set_frames [InRoot] T)) K in
  let! K := enter (AtFork t) K in
  ReadyToRun t K.

Definition Yield K : C (Kernel M) :=
  let! K := enter AtYield K in
  match FindNextToRun K with
  | (Some nextThread, K) => let! K := ReadyToRun (currentThread K) K in Run nextThread K
  | (None, K) => Ret K
  end.

(** The loop of Sleep: one test, then either the switch or Interrupt::Idle. *)
Definition Sleep_test K : C (Kernel M) :=
  match FindNextToRun K with
  | (Some nextThread, K) => Run nextThread (set_idle false K)
  | (None, K) => Ret (set_idle true K)
  end.

Definition Sleep K : C (Kernel M) :=
  let! _ := ASSERT (bool_decide (intLevel K = IntOff)) in
  let! T := find (threads K) (currentThread K) in
  Sleep_test (put_thread (currentThread K) (setStatus BLOCKED T) K).

Definition Finish K : C (Kernel M) :=
  let! K := push_current InFinish (set_intLevel IntOff K) in
  Sleep (set_doomed (Some (currentThread K)) K).

(** ** synch.cc *)

(** The body of V, between the two SetLevel calls. *)
Definition V_body s K : C (Kernel M) :=
  let! E := find (sems K) s in
  let '(thread, q) := Seq.Remove (s_queue E) in
  let! K := match thread with Some t => ReadyToRun t K | None => Ret K end in
  Ret (put_sem s (mkSem (value E + 1) q) K).

Definition V s K : C (Kernel M) := let! K := enter (AtV s) K in V_body s K.

Definition P_test s K : C (Kernel M) :=
  let! E := find (sems K) s in
  if value E =? 0 then
    let K := put_sem s (mkSem (value E) (Seq.Append (currentThread K) (s_queue E))) K in
    let! K := push_current (InP s) K in
    Sleep K
  else Ret (put_sem s (mkSem (value E - 1) (s_queue E)) K).

Definition P s K : C (Kernel M) := let! K := enter (AtP s) K in P_test s K.

Definition isHeldByCurrentThread (L : Lock) K : bool := bool_decide (owner L = Some (currentThread K)).

Definition Acquire l K : C (Kernel M) :=
  let! L := find (locks K) l in
  let! K := enter (AtAcquire l) K in
  if isHeldByCurrentThread L K then Ret K
  else if decide (state L = FREE) then
    Ret (put_lock l (mkLock BUSY (Some (currentThread K)) (l_queue L)) K)
  else
    let K := put_lock l (mkLock (state L) (owner L) (Seq.Append (currentThread K) (l_queue L))) K in
    Sleep K.

(** The body of Release. *)
Definition Release_body l K : C (Kernel M) :=
  let! L := find (locks K) l in
  if negb (isHeldByCurrentThread L K) then Ret K
  else match Seq.Remove (l_queue L) with
  | (Some newOwner, q) => ReadyToRun newOwner (put_lock l (mkLock (state L) (Some newOwner) q) K)
  | (None, q) => Ret (put_lock l (mkLock FREE None q) K)
  end.

Definition Release l K : C (Kernel M) := let! K := enter (AtRelease l) K in Release_body l K.

Definition Wait c (conditionLock : option id) K : C (Kernel M) :=
  let! K := enter (AtWait c) K in
  match conditionLock with
  | None => Ret K
  | Some l =>
      let! Q := find (conds K) c in
      if bool_decide (waitingLock Q = None) || bool_decide (waitingLock Q = Some l) then
        let K := put_cond c (mkCond (Some l) (Seq.Append (currentThread K) (c_queue Q))) K in
        let! K := Release_body l K in
        let! K := push_current (InWait c l) K in
        Sleep K
      else Ret K
  end.

Definition Signal_body c (conditionLock : option id) K : C (Kernel M) :=
  match conditionLock with
  | None => Ret K
  | Some l =>
      let! Q := find (conds K) c in
      match Seq.Remove (c_queue Q) with
      | (None, _) => Ret K
      | (Some threadToWake, q) =>
          if bool_decide (waitingLock Q = Some l) then
            let! K := ReadyToRun threadToWake K in
            Ret (put_cond c (mkCond (if Seq.IsEmpty q then None else waitingLock Q) q) K)
          else Ret K
      end
  end.

Definition Signal c (conditionLock : option id) K : C (Kernel M) :=
  let! K := enter (AtSignal c) K in Signal_body c conditionLock K.

Definition Broadcast c (conditionLock : option id) K : C (Kernel M) :=
  match conditionLock with
  | None => enter (AtBroadcast c) K
  | Some l =>
      let! Q := find (conds K) c in
      if bool_decide (waitingLock Q = Some l) then
        let! K := push_current (InBroadcast c l) K in enter (AtBroadcast c) K
      else enter (AtBroadcast c) K
  end.

(** [while(!waitQueue->IsEmpty()) Signal(conditionLock);] *)
Definition Broadcast_test c l K : C (Kernel M) :=
  let! Q := find (conds K) c in
  if Seq.IsEmpty (c_queue Q) then Ret K
  else let! K := push_current (InBroadcast c l) K in Signal c (Some l) K.

(** ** Events *)

(** The handlers of the devices that are due. *)
Fixpoint handlers (fired : list id) K : C (Kernel M) :=
  match fired with [] => Ret K | s :: fired => let! K := V_body s K in handlers fired K end.

(** [interrupt->SetLevel(now)]: turning interrupts on takes a tick. *)
Definition SetLevel (now : IntStatus) (tk : Tick) K : C (Kernel M) :=
  if decide (now = IntOn /\ intLevel K = IntOff) then
    let! K := handlers (fired tk) K in
    let K := set_intLevel IntOn K in
    if timer tk then Yield K else Ret K
  else Ret (set_intLevel now K).

Definition resume f (tk : Tick) K : C (Kernel M) :=
  match f with
  | InRun => Run_resume K
  | InRoot => SetLevel IntOn tk K
  | InFinish => Undef
  | Reset _ old => SetLevel old tk K
  | InP s => P_test s K
  | InWait _ l => Acquire l K
  | InBroadcast c l => Broadcast_test c l K
  end.

Definition call (o : op M) K : C (Kernel M) :=
  match o with
  | ONewThread t mb g => Ret (put_thread t (new_Thread mb g) K)
  | OSetSpace t sp => let! T := find (threads K) t in Ret (put_thread t (set_space (Some sp) T) K)
  | OFork t => Fork t K
  | OYield => Yield K
  | OFinish => Finish K
  | ONewSemaphore s v => Ret (put_sem s (new_Semaphore v) K)
  | ONewLock l => Ret (put_lock l new_Lock K)
  | ONewCondition c => Ret (put_cond c new_Condition K)
  | OP s => P s K
  | OV s => V s K
  | OAcquire l => Acquire l K
  | ORelease l => Release l K
  | OWait c l => Wait c l K
  | OSignal c l => Signal c l K
  | OBroadcast c l => Broadcast c l K
  | OUser r m => Ret (set_user r m K)
  end.

Definition exec (e : event M) K : C (Kernel M) :=
  let! T := find (threads K) (currentThread K) in
  match e, idle K, frames T with
  | Call o, false, [] => call o K
  | Step tk, false, f :: fs =>
      resume f tk (put_thread (currentThread K) (set_frames fs T) K)
  | Wake fired, true, _ => let! K := handlers fired K in Sleep_test K
  | _, _, _ => Undef
  end.

Fixpoint run (es : list (event M)) K : C (Kernel M) :=
  match es with [] => Ret K | e :: es => let! K := exec e K in run es K end.

(** The main thread, in Initialize. *)
Definition boot (r : list Z) (m : M) : Kernel M :=
  mkKernel 1%positive false None {[1%positive := mkThread [] None RUNNING 0 [] None]} []
    ∅ ∅ ∅ IntOn r m.
End Kernel.

(** ** Where a thread is *)

(** The point at which a thread goes on, behind a context switch if there is one,
    and the frames under it. *)
Definition pc (T : Thread) : option frame :=
  match frames T with InRun :: fs => head fs | fs => head fs end.
Definition rest (T : Thread) : list frame :=
  match frames T with InRun :: fs => tail fs | fs => tail fs end.

(** The wait queues, and the one a blocked thread is in. *)
Inductive waitq := WSem (s : id) | WLock (l : id) | WCond (c : id).

#[export] Instance waitq_eq_dec : EqDecision waitq.
Proof. solve_decision. Defined.

Definition waits_at (f : frame) : option waitq :=
  match f with
  | InP s => Some (WSem s) | Reset (AtAcquire l) _ => Some (WLock l) | InWait c _ => Some (WCond c)
  | _ => None
  end.

Definition waiting (T : Thread) : option waitq :=
  match t_status T with BLOCKED => pc T ≫= waits_at | _ => None end.

(** Woken out of the queue of a semaphore and not yet back at the test. *)
Definition is_woken (s : id) (T : Thread) : bool :=
  negb (bool_decide (t_status T = BLOCKED)) && bool_decide (pc T = Some (InP s)).

(** Frames other frames can be put on. *)
Definition inert (f : frame) : bool :=
  match f with Reset (AtAcquire _) _ => false | Reset _ _ | InBroadcast _ _ => true | _ => false end.

(** A thread without the processor is behind a SWITCH or was never run. *)
Definition switched_out (T : Thread) : Prop :=
  (exists fs, frames T = InRun :: fs) \/ frames T = [InRoot] \/ (frames T = [] /\ t_status T = JUST_CREATED).

Definition pc_ok (T : Thread) : Prop :=
  match pc T with
  | None => t_status T = RUNNING \/ t_status T = JUST_CREATED
  | Some InRun => False
  | Some InFinish => t_status T = BLOCKED
  | Some InRoot => frames T = [InRoot] /\ t_status T <> BLOCKED
  | Some f => t_status T <> JUST_CREATED /\ (t_status T = BLOCKED -> waits_at f <> None)
  end.

Section Core.
(** The state of the threads and the queues. *)
Implicit Types (ths : gmap id Thread) (rdy : list (Z * id)) (Q : waitq -> option (list (Z * id))) (T : Thread).

Definition valid Q (f : frame) : Prop :=
  match f with
  | InP s => is_Some (Q (WSem s))
  | Reset (AtAcquire l) _ => is_Some (Q (WLock l))
  | InWait c l => is_Some (Q (WCond c)) /\ is_Some (Q (WLock l))
  | InBroadcast c l => is_Some (Q (WCond c))
  | _ => True
  end.

Record thread_ok Q T : Prop := {
  to_stack : stack T = None \/ stack T = Some STACK_FENCEPOST;
  to_rest : Forall inert (rest T);
  to_valid : Forall (valid Q) (frames T);
  to_pc : pc_ok T
}.

(** The ready list is the set of ready threads, every wait queue the set of the
    threads blocked there, and only the current thread may be running. *)
Record core (cur : id) ths rdy Q (doomed : option id) : Prop := {
  c_nodup : NoDup (Seq.items rdy);
  c_ready : forall t, t ∈ Seq.items rdy <-> exists T, ths !! t = Some T /\ t_status T = READY;
  c_threads : forall t T, ths !! t = Some T -> thread_ok Q T;
  c_run : forall t T, ths !! t = Some T -> t_status T = RUNNING -> t = cur;
  c_others : forall t T, ths !! t = Some T -> t <> cur -> switched_out T;
  c_queue_nodup : forall w q, Q w = Some q -> NoDup (Seq.items q);
  c_queues : forall w q, Q w = Some q ->
    forall t, t ∈ Seq.items q <-> exists T, ths !! t = Some T /\ waiting T = Some w;
  c_doomed : forall d, doomed = Some d -> exists T, ths !! d = Some T /\ pc T = Some InFinish
}.

Lemma core_ext cur ths rdy Q Q' doomed :
  (forall w, Q w = Q' w) -> core cur ths rdy Q doomed -> core cur ths rdy Q' doomed.
Proof.
  intros Heq [H1 H2 H3 H4 H5 H6 H7 H8]. split; try done.
  - intros t T Ht. destruct (H3 t T Ht) as [A1 A2 A3 A4]. split; try done.
    eapply Forall_impl; [exact A3|]. intros [| | |[] ?| | |]; cbn; by rewrite <- ?Heq.
  - intros w q. rewrite <- Heq. apply H6.
  - intros w q. rewrite <- Heq. apply H7.
Qed.

Lemma valid_insert Q w q f : valid Q f -> valid (<[w := Some q]> Q) f.
Proof.
  assert (forall w', is_Some (Q w') -> is_Some ((<[w := Some q]> Q) w')) as Hmon.
  { intros w' Hw. destruct (decide (w = w')) as [<-|]; [rewrite fn_lookup_insert | rewrite fn_lookup_insert_ne by done]; eauto. }
  destruct f as [| | |[] ?| | |]; cbn; naive_solver.
Qed.

Lemma thread_ok_insert Q w q T : thread_ok Q T -> thread_ok (<[w := Some q]> Q) T.
Proof.
  intros [H1 H2 H3 H4]. split; try done.
  eapply Forall_impl; [exact H3 | by intros ?; apply valid_insert].
Qed.

(** The current thread, or another one, changes something that does not matter to
    the queues. *)
Lemma core_upd cur ths rdy Q doomed t T T' :
  core cur ths rdy Q doomed -> ths !! t = Some T ->
  t_status T' = t_status T -> waiting T' = waiting T -> thread_ok Q T' ->
  (t <> cur -> switched_out T') -> (pc T = Some InFinish -> pc T' = Some InFinish) ->
  core cur (<[t := T']> ths) rdy Q doomed.
Proof.
  intros [H1 H2 H3 H4 H5 H6 H7 H8] Ht Hst Hw Hok Hso Hfin.
  assert (forall (R : Thread -> Prop) x, (R T <-> R T') ->
    (exists X, <[t := T']> ths !! x = Some X /\ R X) <-> (exists X, ths !! x = Some X /\ R X)) as Hex.
  { intros R x HR. destruct (decide (t = x)) as [<-|].
    - rewrite lookup_insert_eq, Ht. naive_solver.
    - by rewrite lookup_insert_ne. }
  split; try done.
  - intros x. rewrite H2. symmetry. apply (Hex (fun X => t_status X = READY)). by rewrite Hst.
  - intros x X [[<- <-]|[? HX]]%lookup_insert_Some; eauto.
  - intros x X [[<- <-]|[? HX]]%lookup_insert_Some Hr; eauto. apply (H4 t T Ht). congruence.
  - intros x X [[<- <-]|[? HX]]%lookup_insert_Some; eauto.
  - intros w q Hq x. rewrite (H7 w q Hq). symmetry.
    apply (Hex (fun X => waiting X = Some w)). by rewrite Hw.
  - intros d Hd. destruct (H8 d Hd) as (D & HD & Hpc). destruct (decide (t = d)) as [<-|].
    + exists T'. rewrite lookup_insert_eq. split; [done|]. apply Hfin. congruence.
    + exists D. by rewrite lookup_insert_ne.
Qed.

Lemma thread_ok_mono Q Q' T :
  (forall w, is_Some (Q w) -> is_Some (Q' w)) -> thread_ok Q T -> thread_ok Q' T.
Proof.
  intros Hmon [H1 H2 H3 H4]. split; try done.
  eapply Forall_impl; [exact H3|]. intros [| | |[] ?| | |]; cbn; naive_solver.
Qed.

(** One thread changes its status: the lists it is in change accordingly. *)
Lemma core_move cur ths rdy Q doomed t T' rdy' Q' :
  core cur ths rdy Q doomed ->
  NoDup (Seq.items rdy') ->
  (forall x, x ∈ Seq.items rdy' <-> (x <> t /\ x ∈ Seq.items rdy) \/ (x = t /\ t_status T' = READY)) ->
  (forall w q', Q' w = Some q' -> exists q, Q w = Some q /\ NoDup (Seq.items q') /\
     forall x, x ∈ Seq.items q' <-> (x <> t /\ x ∈ Seq.items q) \/ (x = t /\ waiting T' = Some w)) ->
  (forall w, is_Some (Q w) -> is_Some (Q' w)) ->
  thread_ok Q' T' -> (t_status T' = RUNNING -> t = cur) -> (t <> cur -> switched_out T') ->
  (doomed = Some t -> pc T' = Some InFinish) ->
  core cur (<[t := T']> ths) rdy' Q' doomed.
Proof.
  intros [H1 H2 H3 H4 H5 H6 H7 H8] Hnd Hrdy HQ Hmon Hok Hrun Hso Hfin.
  assert (forall (R : Thread -> Prop) x, (exists X, <[t := T']> ths !! x = Some X /\ R X) <->
    (x <> t /\ exists X, ths !! x = Some X /\ R X) \/ (x = t /\ R T')) as Hex.
  { intros R x. destruct (decide (x = t)) as [->|].
    - rewrite lookup_insert_eq. naive_solver.
    - rewrite lookup_insert_ne by done. naive_solver. }
  split; try done.
  - intros x. by rewrite Hrdy, H2, Hex.
  - intros x X [[<- <-]|[? HX]]%lookup_insert_Some; [done|]. eapply thread_ok_mono, H3; eauto.
  - intros x X [[<- <-]|[? HX]]%lookup_insert_Some; eauto.
  - intros x X [[<- <-]|[? HX]]%lookup_insert_Some; eauto.
  - intros w q' Hq'. by destruct (HQ w q' Hq') as (q & _ & ? & _).
  - intros w q' Hq' x. destruct (HQ w q' Hq') as (q & Hq & _ & ->). by rewrite (H7 w q Hq x), Hex.
  - intros d Hd. rewrite Hex. destruct (decide (d = t)) as [->|]; [right; auto | left; auto].
Qed.

Lemma items_snoc (q : list (Z * id)) t : Seq.items (Seq.Append t q) = Seq.items q ++ [t].
Proof. unfold Seq.items, Seq.Append. by rewrite map_app. Qed.

Lemma NoDup_snoc {A} (l : list A) x : NoDup l -> x ∉ l -> NoDup (l ++ [x]).
Proof.
  intros Hl Hx. apply NoDup_app. split; [done|]. split; [|apply NoDup_singleton].
  intros y Hy ->%list_elem_of_singleton. done.
Qed.

Lemma elem_of_snoc {A} (l : list A) x y : y ∈ l ++ [x] <-> y ∈ l \/ y = x.
Proof. by rewrite elem_of_app, list_elem_of_singleton. Qed.

Lemma pc_status st T : pc (setStatus st T) = pc T.
Proof. done. Qed.

(** A thread in a wait queue is blocked there, and in no other list. *)
Lemma queue_member cur ths rdy Q doomed w q t :
  core cur ths rdy Q doomed -> Q w = Some q -> t ∈ Seq.items q ->
  exists T, ths !! t = Some T /\ t_status T = BLOCKED /\ waiting T = Some w /\ pc T ≫= waits_at = Some w /\
    thread_ok Q T /\ t ∉ Seq.items rdy.
Proof.
  intros Hc Hq Hin. apply (c_queues _ _ _ _ _ Hc w q Hq) in Hin as (T & HT & Hw).
  exists T. assert (t_status T = BLOCKED) as Hb by (unfold waiting in Hw; by destruct (t_status T)).
  split; [done|]. split; [done|]. split; [done|].
  split; [unfold waiting in Hw; by rewrite Hb in Hw|]. split; [by eapply c_threads|].
  intros (T' & HT' & Hr)%(c_ready _ _ _ _ _ Hc). congruence.
Qed.

Lemma pc_ok_wake T w : pc_ok T -> pc T ≫= waits_at = Some w -> pc_ok (setStatus READY T).
Proof. unfold pc_ok. rewrite pc_status. destruct (pc T) as [[]|]; cbn; naive_solver. Qed.

(** [ReadyToRun] of the first thread of a queue. *)
Lemma core_wake cur ths rdy Q doomed w k t q T :
  core cur ths rdy Q doomed -> Q w = Some ((k, t) :: q) -> ths !! t = Some T ->
  core cur (<[t := setStatus READY T]> ths) (Seq.Append t rdy) (<[w := Some q]> Q) doomed.
Proof.
  intros Hc Hq HT. destruct (queue_member _ _ _ _ _ _ _ t Hc Hq) as (T' & HT' & Hb & Hw & Hpc & Hok & Hnr); [by left|].
  assert (T' = T) as -> by congruence.
  pose proof (c_queue_nodup _ _ _ _ _ Hc _ _ Hq) as Hnd. cbn in Hnd. apply NoDup_cons in Hnd as [Hnin Hnd].
  eapply core_move; [exact Hc | ..].
  - rewrite items_snoc. apply NoDup_snoc; [apply Hc | done].
  - intros x. rewrite items_snoc, elem_of_snoc. cbn. destruct (decide (x = t)) as [->|]; naive_solver.
  - intros w' q'. destruct (decide (w = w')) as [<-|].
    + rewrite fn_lookup_insert. intros [= <-]. exists ((k, t) :: q). split; [done|]. split; [done|].
      intros x. cbn. rewrite elem_of_cons. destruct (decide (x = t)) as [->|]; naive_solver.
    + rewrite fn_lookup_insert_ne by done. intros Hq'. exists q'. split; [done|].
      split; [by eapply c_queue_nodup|]. intros x. rewrite (c_queues _ _ _ _ _ Hc w' q' Hq' x).
      destruct (decide (x = t)) as [->|]; [|naive_solver]. unfold waiting at 2; cbn. naive_solver.
  - intros w' Hw'. destruct (decide (w = w')) as [<-|]; [rewrite fn_lookup_insert | rewrite fn_lookup_insert_ne by done]; eauto.
  - apply thread_ok_insert. destruct Hok as [A1 A2 A3 A4]. split; try done. by eapply pc_ok_wake.
  - done.
  - intros Hne. destruct (c_others _ _ _ _ _ Hc t T HT Hne) as [?|[?|[? ?]]]; [by left | by right; left | congruence].
  - intros Hd. destruct (c_doomed _ _ _ _ _ Hc t Hd) as (T' & HT'' & Hf). assert (T' = T) as -> by congruence.
    rewrite Hf in Hpc. done.
Qed.

(** The running thread goes to sleep in a queue. *)
Lemma core_park cur ths rdy Q doomed w q T T' :
  core cur ths rdy Q doomed -> ths !! cur = Some T -> t_status T = RUNNING ->
  Q w = Some q -> thread_ok Q T' -> t_status T' = BLOCKED -> waiting T' = Some w -> 
  core cur (<[cur := T']> ths) rdy (<[w := Some (Seq.Append cur q)]> Q) doomed.
Proof.
  intros Hc HT Hr Hq Hok Hb Hw.
  assert (forall w' q', Q w' = Some q' -> cur ∉ Seq.items q') as Hnin.
  { intros w' q' Hq' Hin. destruct (queue_member _ _ _ _ _ _ _ cur Hc Hq' Hin) as (T1 & ? & ? & _). congruence. }
  assert (cur ∉ Seq.items rdy) as Hnr.
  { intros (T1 & ? & ?)%(c_ready _ _ _ _ _ Hc). congruence. }
  eapply core_move; [exact Hc | ..].
  - apply Hc.
  - intros x. destruct (decide (x = cur)) as [->|]; naive_solver congruence.
  - intros w' q'. destruct (decide (w = w')) as [<-|].
    + rewrite fn_lookup_insert. intros [= <-]. exists q. split; [done|]. rewrite items_snoc. split.
      * apply NoDup_snoc; [by eapply c_queue_nodup | eauto].
      * intros x. rewrite elem_of_snoc. destruct (decide (x = cur)) as [->|]; naive_solver.
    + rewrite fn_lookup_insert_ne by done. intros Hq'. exists q'. split; [done|].
      split; [by eapply c_queue_nodup|]. intros x. destruct (decide (x = cur)) as [->|]; naive_solver.
  - intros w' Hw'. destruct (decide (w = w')) as [<-|]; [rewrite fn_lookup_insert | rewrite fn_lookup_insert_ne by done]; eauto.
  - by apply thread_ok_insert.
  - done.
  - done.
  - intros Hd. destruct (c_doomed _ _ _ _ _ Hc cur Hd) as (T1 & HT1 & Hf).
    assert (T1 = T) as -> by congruence. pose proof (to_pc _ _ (c_threads _ _ _ _ _ Hc _ _ HT)) as Hpc.
    unfold pc_ok in Hpc. rewrite Hf in Hpc. congruence.
Qed.

Lemma core_not_in cur ths rdy Q doomed t T :
  core cur ths rdy Q doomed -> ths !! t = Some T -> waiting T = None -> t_status T <> READY ->
  t ∉ Seq.items rdy /\ forall w q, Q w = Some q -> t ∉ Seq.items q.
Proof.
  intros Hc HT Hw Hr. split.
  - intros (T1 & ? & ?)%(c_ready _ _ _ _ _ Hc). congruence.
  - intros w q Hq (T1 & ? & ?)%(c_queues _ _ _ _ _ Hc w q Hq). congruence.
Qed.

(** [ReadyToRun] of a thread that is in no list: the running one, or a new one. *)
Lemma core_ready cur ths rdy Q doomed t T :
  core cur ths rdy Q doomed -> ths !! t = Some T -> waiting T = None -> t_status T <> READY ->
  t_status T <> BLOCKED -> pc T <> None -> pc_ok (setStatus READY T) -> 
  core cur (<[t := setStatus READY T]> ths) (Seq.Append t rdy) Q doomed.
Proof.
  intros Hc HT Hw Hr Hb Hn Hpc. destruct (core_not_in _ _ _ _ _ _ _ Hc HT Hw Hr) as [Hnr Hnq].
  eapply core_move; [exact Hc | ..].
  - rewrite items_snoc. apply NoDup_snoc; [apply Hc | done].
  - intros x. rewrite items_snoc, elem_of_snoc. cbn. destruct (decide (x = t)) as [->|]; naive_solver.
  - intros w q Hq. exists q. split; [done|]. split; [by eapply c_queue_nodup|]. intros x.
    destruct (decide (x = t)) as [->|]; naive_solver.
  - done.
  - destruct (c_threads _ _ _ _ _ Hc t T HT) as [A1 A2 A3 A4]. by split.
  - done.
  - intros Hne. destruct (c_others _ _ _ _ _ Hc t T HT Hne) as [?|[?|[Hf ?]]]; [by left | by right; left | ].
    unfold pc in Hn. by rewrite Hf in Hn.
  - intros Hd. destruct (c_doomed _ _ _ _ _ Hc t Hd) as (T1 & ? & Hf). assert (T1 = T) as -> by congruence.
    unfold pc_ok in Hpc. rewrite pc_status, Hf in Hpc. done.
Qed.

(** Nobody runs: the first ready thread gets the processor. *)
Lemma core_dispatch cur ths k n rdy Q doomed N :
  core cur ths ((k, n) :: rdy) Q doomed -> (forall t T, ths !! t = Some T -> t_status T <> RUNNING) ->
  (forall T, ths !! cur = Some T -> switched_out T) -> ths !! n = Some N ->
  core n (<[n := setStatus RUNNING N]> ths) rdy Q doomed.
Proof.
  intros Hc Hnr Hso HN. assert (core n ths ((k, n) :: rdy) Q doomed) as Hc'.
  { destruct Hc as [H1 H2 H3 H4 H5 H6 H7 H8]. split; try done.
    - intros t T Ht Hr. by destruct (Hnr t T Ht).
    - intros t T Ht _. destruct (decide (t = cur)) as [->|]; eauto. }
  clear Hc. assert (t_status N = READY) as Hr.
  { destruct (proj1 (c_ready _ _ _ _ _ Hc' n)) as (N' & ? & ?); [by left|]. congruence. }
  pose proof (c_nodup _ _ _ _ _ Hc') as Hnd. cbn in Hnd. apply NoDup_cons in Hnd as [Hnin Hnd].
  assert (waiting N = None) as Hw by (unfold waiting; by rewrite Hr).
  assert (forall w q, Q w = Some q -> n ∉ Seq.items q) as Hnq.
  { intros w q Hq (T1 & ? & ?)%(c_queues _ _ _ _ _ Hc' w q Hq). congruence. }
  pose proof (c_threads _ _ _ _ _ Hc' n N HN) as [A1 A2 A3 A4].
  eapply core_move; [exact Hc' | ..]; try done.
  - intros x. cbn. rewrite elem_of_cons. destruct (decide (x = n)) as [->|]; naive_solver.
  - intros w q Hq. exists q. split; [done|]. split; [by eapply c_queue_nodup|]. intros x.
    destruct (decide (x = n)) as [->|]; naive_solver.
  - split; try done. unfold pc_ok in *. rewrite pc_status. cbn. destruct (pc N) as [[]|]; naive_solver congruence.
  - intros Hd. destruct (c_doomed _ _ _ _ _ Hc' n Hd) as (T1 & ? & Hf). by assert (T1 = N) as -> by congruence.
Qed.

Lemma core_delete cur ths rdy Q d :
  core cur ths rdy Q (Some d) -> core cur (delete d ths) rdy Q None.
Proof.
  intros Hc. destruct (c_doomed _ _ _ _ _ Hc d eq_refl) as (D & HD & Hpc).
  assert (t_status D = BLOCKED) as Hb.
  { pose proof (to_pc _ _ (c_threads _ _ _ _ _ Hc d D HD)) as H. unfold pc_ok in H. by rewrite Hpc in H. }
  assert (waiting D = None) as Hw by (unfold waiting; by rewrite Hb, Hpc).
  destruct (core_not_in _ _ _ _ _ _ _ Hc HD Hw) as [Hnr Hnq]; [congruence|].
  assert (forall (R : Thread -> Prop) x, ~ R D -> (exists X, delete d ths !! x = Some X /\ R X) <->
    (exists X, ths !! x = Some X /\ R X)) as Hex.
  { intros R x HR. destruct (decide (x = d)) as [->|].
    - rewrite lookup_delete_eq. naive_solver.
    - by rewrite lookup_delete_ne. }
  destruct Hc as [H1 H2 H3 H4 H5 H6 H7 H8]. split; try done.
  - intros x. rewrite (Hex (fun X => t_status X = READY)) by congruence. apply H2.
  - intros t T [? HT]%lookup_delete_Some. eauto.
  - intros t T [? HT]%lookup_delete_Some. eauto.
  - intros t T [? HT]%lookup_delete_Some. eauto.
  - intros w q Hq x. rewrite (Hex (fun X => waiting X = Some w)) by congruence. by apply H7.
Qed.

Lemma core_new_thread cur ths rdy Q doomed t mb g :
  core cur ths rdy Q doomed -> ths !! t = None ->
  core cur (<[t := new_Thread mb g]> ths) rdy Q doomed.
Proof.
  intros Hc Ht. eapply core_move; [exact Hc | ..]; try done.
  - apply Hc.
  - intros x. destruct (decide (x = t)) as [->|]; [|naive_solver]. rewrite (c_ready _ _ _ _ _ Hc). naive_solver congruence.
  - intros w q Hq. exists q. split; [done|]. split; [by eapply c_queue_nodup|]. intros x.
    destruct (decide (x = t)) as [->|]; [|naive_solver]. rewrite (c_queues _ _ _ _ _ Hc w q Hq). naive_solver congruence.
  - split; cbn; [by left | done | done | by right].
  - intros _. right; right. done.
  - intros Hd. destruct (c_doomed _ _ _ _ _ Hc t Hd) as (T1 & ? & _). congruence.
Qed.

Lemma pc_in T f : pc T = Some f -> f ∈ frames T.
Proof.
  unfold pc. destruct (frames T) as [|f0 fs]; [done|].
  destruct f0; cbn; try (intros [= <-]; by left). destruct fs; cbn; [done|]. intros [= <-]. by right; left.
Qed.

Lemma waiting_valid Q T w : thread_ok Q T -> waiting T = Some w -> is_Some (Q w).
Proof.
  intros Hok Hw. unfold waiting in Hw. destruct (t_status T); try done.
  apply bind_Some in Hw as (f & Hf & Hw). apply pc_in in Hf.
  pose proof (proj1 (Forall_forall _ _) (to_valid _ _ Hok) f Hf) as Hv.
  destruct f as [| | |[] ?| | |]; cbn in *; simplify_eq; try done. by destruct Hv.
Qed.

Lemma core_new_queue cur ths rdy Q doomed w :
  core cur ths rdy Q doomed -> Q w = None -> core cur ths rdy (<[w := Some []]> Q) doomed.
Proof.
  intros [H1 H2 H3 H4 H5 H6 H7 H8] Hw. split; try done.
  - intros t T Ht. by eapply thread_ok_insert, H3.
  - intros w' q. destruct (decide (w = w')) as [<-|].
    + rewrite fn_lookup_insert. intros [= <-]. apply NoDup_nil_2.
    + rewrite fn_lookup_insert_ne by done. apply H6.
  - intros w' q. destruct (decide (w = w')) as [<-|]; [|rewrite fn_lookup_insert_ne by done; apply H7].
    rewrite fn_lookup_insert. intros [= <-] x. cbn. split; [by intros ?%not_elem_of_nil|].
    intros (T & HT & Hwt). destruct (waiting_valid Q T w (H3 x T HT) Hwt) as [q Hq]. congruence.
Qed.
End Core.

Lemma core_finish cur ths rdy Q doomed T T' :
  core cur ths rdy Q doomed -> ths !! cur = Some T -> t_status T = RUNNING ->
  thread_ok Q T' -> t_status T' = BLOCKED -> pc T' = Some InFinish ->
  core cur (<[cur := T']> ths) rdy Q (Some cur).
Proof.
  intros Hc HT Hr Hok Hb Hpc.
  destruct (core_not_in _ _ _ _ _ _ _ Hc HT) as [Hnr Hnq]; [unfold waiting; by rewrite Hr | congruence |].
  assert (core cur (<[cur := T']> ths) rdy Q doomed) as [H1 H2 H3 H4 H5 H6 H7 H8].
  { eapply core_move; [exact Hc | ..]; try done.
    - apply Hc.
    - intros x. destruct (decide (x = cur)) as [->|]; naive_solver congruence.
    - intros w q Hq. exists q. split; [done|]. split; [by eapply c_queue_nodup|]. intros x.
      destruct (decide (x = cur)) as [->|]; [|naive_solver]. unfold waiting. rewrite Hb, Hpc. naive_solver. }
  split; try done. intros d [= <-]. exists T'. by rewrite lookup_insert_eq.
Qed.

(** ** What the objects promise *)

Section Objects.
Implicit Types (ths : gmap id Thread).

(** How many threads have been woken out of the queue of [s]. *)
Definition woken ths s : nat := size (filter (fun p => is_woken s p.2 = true) ths).

Definition b2n (b : bool) : nat := if b then 1%nat else 0%nat.

Lemma woken_insert ths t T T' s : ths !! t = Some T ->
  (woken (<[t := T']> ths) s + b2n (is_woken s T) = woken ths s + b2n (is_woken s T'))%nat.
Proof.
  intros Ht. unfold woken. rewrite map_filter_insert. cbn.
  assert (filter (fun p : id * Thread => is_woken s p.2 = true) ths !! t = if is_woken s T then Some T else None) as Hl.
  { destruct (is_woken s T) eqn:E.
    - by apply map_lookup_filter_Some.
    - apply map_lookup_filter_None. right. intros x Hx. cbn. rewrite Ht in Hx. injection Hx as <-. by rewrite E. }
  destruct (is_woken s T') eqn:E'; [rewrite decide_True by done | rewrite decide_False by done]; cbn.
  - rewrite map_size_insert, Hl. destruct (is_woken s T); cbn; lia.
  - rewrite map_filter_delete, map_size_delete, Hl. destruct (is_woken s T); cbn; [|lia].
    assert (size (filter (fun p : id * Thread => is_woken s p.2 = true) ths) <> 0%nat); [|lia].
    intros H0%map_size_empty_iff. by rewrite H0, lookup_empty in Hl.
Qed.

Lemma woken_same ths t T T' s :
  ths !! t = Some T -> is_woken s T' = is_woken s T -> woken (<[t := T']> ths) s = woken ths s.
Proof. intros Ht He. pose proof (woken_insert ths t T T' s Ht) as H. rewrite He in H. lia. Qed.

Lemma woken_new ths t T s : ths !! t = None -> is_woken s T = false -> woken (<[t := T]> ths) s = woken ths s.
Proof.
  intros Ht He. unfold woken. rewrite map_filter_insert. cbn. rewrite He. cbn.
  by rewrite delete_id.
Qed.

Lemma woken_delete ths t T s : ths !! t = Some T -> is_woken s T = false -> woken (delete t ths) s = woken ths s.
Proof.
  intros Ht He. unfold woken. rewrite map_filter_delete, delete_id; [done|].
  apply map_lookup_filter_None. right. intros x Hx. cbn. rewrite Ht in Hx. injection Hx as <-. by rewrite He.
Qed.

(** A semaphore is not negative; when it is positive although threads are in its
    queue, at least as many were woken and have not looked at it yet. [extra] is
    the one of them that is looking. *)
Definition sems_ok (extra : option id) ths (m : gmap id Semaphore) : Prop :=
  forall s E, m !! s = Some E -> 0 <= value E /\
    (s_queue E <> [] -> value E <= Z.of_nat (woken ths s + b2n (bool_decide (extra = Some s)))).

(** A free lock has no owner and no waiters. *)
Definition lock_ok (L : Lock) : Prop :=
  (state L = FREE <-> owner L = None) /\ (state L = FREE -> l_queue L = []).
Definition locks_ok (m : gmap id Lock) : Prop := map_Forall (fun _ => lock_ok) m.

(** A thread that leaves Acquire has the lock. *)
Definition holds_ok ths (m : gmap id Lock) : Prop :=
  forall t T l old, ths !! t = Some T -> t_status T <> BLOCKED -> pc T = Some (Reset (AtAcquire l) old) ->
    exists L, m !! l = Some L /\ owner L = Some t.

(** A condition is bound to a lock exactly while threads wait on it, and they all
    wait with that lock. *)
Definition conds_ok ths (m : gmap id Condition) : Prop :=
  forall c Q, m !! c = Some Q -> (waitingLock Q = None <-> c_queue Q = []) /\
    (forall t T l, ths !! t = Some T -> t_status T = BLOCKED -> pc T = Some (InWait c l) -> waitingLock Q = Some l).

Lemma sems_ok_upd extra ths m t T T' :
  sems_ok extra ths m -> ths !! t = Some T -> (forall s, is_woken s T = true -> is_woken s T' = true) ->
  sems_ok extra (<[t := T']> ths) m.
Proof.
  intros Hs Ht Hw s E HE. destruct (Hs s E HE) as [? Hq]. split; [done|]. intros Hne. specialize (Hq Hne).
  pose proof (woken_insert ths t T T' s Ht) as Hc. specialize (Hw s).
  destruct (is_woken s T); [rewrite Hw in Hc by done|]; cbn in Hc; lia.
Qed.

Lemma holds_ok_upd ths m t T' :
  holds_ok ths m ->
  (forall l old, t_status T' <> BLOCKED -> pc T' = Some (Reset (AtAcquire l) old) ->
     exists L, m !! l = Some L /\ owner L = Some t) ->
  holds_ok (<[t := T']> ths) m.
Proof. intros Hh HT' x X l old [[<- <-]|[? HX]]%lookup_insert_Some; eauto. Qed.

Lemma conds_ok_upd ths m t T' :
  conds_ok ths m ->
  (forall c Q l, m !! c = Some Q -> t_status T' = BLOCKED -> pc T' = Some (InWait c l) -> waitingLock Q = Some l) ->
  conds_ok (<[t := T']> ths) m.
Proof.
  intros Hc HT' c Q HQ. destruct (Hc c Q HQ) as [? Hw]. split; [done|].
  intros x X l [[<- <-]|[? HX]]%lookup_insert_Some; eauto.
Qed.
End Objects.

(** ** The invariant of the kernel *)

Section Invariant.
Context {M : Type} `{!Spaces M}.
Implicit Types (K : Kernel M) (T : Thread) (t l s c : id).

Definition queue K (w : waitq) : option (list (Z * id)) :=
  match w with
  | WSem s => s_queue <$> sems K !! s
  | WLock l => l_queue <$> locks K !! l
  | WCond c => c_queue <$> conds K !! c
  end.

Record base (extra : option id) K : Prop := {
  b_core : core (currentThread K) (threads K) (readyList K) (queue K) (threadToBeDestroyed K);
  b_sems : sems_ok extra (threads K) (sems K);
  b_locks : locks_ok (locks K);
  b_holds : holds_ok (threads K) (locks K);
  b_conds : conds_ok (threads K) (conds K)
}.

(** In the middle of a call: the current thread runs, and what it will go on with
    are ends of calls. *)
Record mid (extra : option id) K : Prop := {
  m_base : base extra K;
  m_run : idle K = false /\ exists T, threads K !! currentThread K = Some T /\
            t_status T = RUNNING /\ Forall inert (frames T)
}.

(** Between two events. *)
Definition interrupts_off_at (f : option frame) : Prop :=
  match f with Some (InRun | InRoot | InP _) => True | _ => False end.

Record ok K : Prop := {
  ok_base : base None K;
  ok_cur : exists T, threads K !! currentThread K = Some T /\
    t_status T = (if idle K then BLOCKED else RUNNING) /\
    (interrupts_off_at (head (frames T)) -> intLevel K = IntOff) /\
    (idle K = true -> readyList K = [] /\ intLevel K = IntOff /\
       exists f fs, frames T = f :: fs /\ f <> InRun /\ f <> InRoot)
}.

Lemma queue_put_sem s E K w : queue (put_sem s E K) w = (<[WSem s := Some (s_queue E)]> (queue K)) w.
Proof.
  destruct (decide (WSem s = w)) as [<-|]; [rewrite fn_lookup_insert | rewrite fn_lookup_insert_ne by done]; cbn.
  - by rewrite lookup_insert_eq.
  - destruct w; try done. cbn. by rewrite lookup_insert_ne by congruence.
Qed.

Lemma queue_put_lock l L K w : queue (put_lock l L K) w = (<[WLock l := Some (l_queue L)]> (queue K)) w.
Proof.
  destruct (decide (WLock l = w)) as [<-|]; [rewrite fn_lookup_insert | rewrite fn_lookup_insert_ne by done]; cbn.
  - by rewrite lookup_insert_eq.
  - destruct w; try done. cbn. by rewrite lookup_insert_ne by congruence.
Qed.

Lemma queue_put_cond c Q K w : queue (put_cond c Q K) w = (<[WCond c := Some (c_queue Q)]> (queue K)) w.
Proof.
  destruct (decide (WCond c = w)) as [<-|]; [rewrite fn_lookup_insert | rewrite fn_lookup_insert_ne by done]; cbn.
  - by rewrite lookup_insert_eq.
  - destruct w; try done. cbn. by rewrite lookup_insert_ne by congruence.
Qed.

Lemma core_sem s E q0 cur ths rdy d K :
  core cur ths rdy (<[WSem s := Some q0]> (queue K)) d -> s_queue E = q0 ->
  core cur ths rdy (queue (put_sem s E K)) d.
Proof. intros Hc <-. eapply core_ext, Hc. intros w. by rewrite queue_put_sem. Qed.

Lemma core_lock l L q0 cur ths rdy d K :
  core cur ths rdy (<[WLock l := Some q0]> (queue K)) d -> l_queue L = q0 ->
  core cur ths rdy (queue (put_lock l L K)) d.
Proof. intros Hc <-. eapply core_ext, Hc. intros w. by rewrite queue_put_lock. Qed.

Lemma core_cond c Q q0 cur ths rdy d K :
  core cur ths rdy (<[WCond c := Some q0]> (queue K)) d -> c_queue Q = q0 ->
  core cur ths rdy (queue (put_cond c Q K)) d.
Proof. intros Hc <-. eapply core_ext, Hc. intros w. by rewrite queue_put_cond. Qed.

(** The interrupt level, the idle flag and the user's state do not matter. *)
Lemma base_level extra v K : base extra K -> base extra (set_intLevel v K).
Proof. by intros [? ? ? ? ?]. Qed.

Lemma base_idle extra v K : base extra K -> base extra (set_idle v K).
Proof. by intros [? ? ? ? ?]. Qed.

Lemma base_user extra r m K : base extra K -> base extra (set_user r m K).
Proof. by intros [? ? ? ? ?]. Qed.

Lemma mid_level extra v K : mid extra K -> mid extra (set_intLevel v K).
Proof. intros [? [? ?]]. split; [by apply base_level|]. by split. Qed.

Lemma pc_inert T f : Forall inert (frames T) -> pc T = Some f -> inert f.
Proof. intros Hi Hp%pc_in. by apply (proj1 (Forall_forall _ _) Hi). Qed.

Lemma inert_woken s T : Forall inert (frames T) -> is_woken s T = false.
Proof.
  intros Hi. unfold is_woken. apply andb_false_iff. right. apply bool_decide_eq_false.
  intros Hp. by apply (pc_inert T _ Hi) in Hp.
Qed.

Lemma is_woken_status s st T : t_status T <> BLOCKED -> st <> BLOCKED -> is_woken s (setStatus st T) = is_woken s T.
Proof.
  intros. unfold is_woken. rewrite pc_status. cbn.
  rewrite (bool_decide_eq_false_2 (st = BLOCKED)), (bool_decide_eq_false_2 (t_status T = BLOCKED)) by done. done.
Qed.

Lemma running_not_finishing Q T : thread_ok Q T -> t_status T <> BLOCKED -> pc T <> Some InFinish.
Proof. intros [_ _ _ Hp] Hr Hf. unfold pc_ok in Hp. by rewrite Hf in Hp. Qed.

(** The running thread gets other frames. *)
Lemma base_put_cur extra K T T' :
  base extra K -> threads K !! currentThread K = Some T -> t_status T = RUNNING -> t_status T' = RUNNING ->
  thread_ok (queue K) T' -> (forall s, is_woken s T = true -> is_woken s T' = true) ->
  (forall l old, pc T' = Some (Reset (AtAcquire l) old) ->
     exists L, locks K !! l = Some L /\ owner L = Some (currentThread K)) ->
  base extra (put_thread (currentThread K) T' K).
Proof.
  intros [Hc Hs Hl Hh Hd] HT Hr Hr' Hok Hw Ha.
  assert (pc T <> Some InFinish) as Hnf by (eapply running_not_finishing; [by eapply c_threads | congruence]).
  split; cbn; try done.
  - eapply core_ext; [intros w; by instantiate (1 := queue K); destruct w|].
    eapply core_upd; try done; [congruence|]. unfold waiting. by rewrite Hr, Hr'.
  - by eapply sems_ok_upd.
  - apply holds_ok_upd; [done|]. intros l old _. apply Ha.
  - apply conds_ok_upd; [done|]. intros. congruence.
Qed.

Lemma pc_push f T : Forall inert (frames T) -> f <> InRun -> pc (push f T) = Some f /\ rest (push f T) = frames T.
Proof. intros _ Hf. unfold pc, rest, push. cbn. by destruct f. Qed.

Lemma thread_ok_push Q f T :
  thread_ok Q T -> Forall inert (frames T) -> f <> InRun -> valid Q f -> 
  (f = InFinish -> t_status T = BLOCKED) -> (f = InRoot -> frames T = [] /\ t_status T <> BLOCKED) ->
  (t_status T = BLOCKED -> waits_at f <> None \/ f = InFinish) -> t_status T <> JUST_CREATED ->
  thread_ok Q (push f T).
Proof.
  intros [H1 H2 H3 H4] Hi Hf Hv H5 H6 H7 H8. destruct (pc_push f T Hi Hf) as [Hp Hr]. split; try done.
  - by rewrite Hr.
  - cbn. by constructor.
  - unfold pc_ok. rewrite Hp. destruct f; first [done | by apply H5 |
      (destruct (H6 eq_refl) as [He ?]; cbn; by rewrite He) | (split; [exact H8|]; intros Hb; by destruct (H7 Hb))].
Qed.

(** Entering a call that ends in SetLevel, or leaving a loop to go on with. *)
Lemma push_mid extra K f :
  mid extra K -> inert f -> valid (queue K) f ->
  exists T, threads K !! currentThread K = Some T /\ t_status T = RUNNING /\ Forall inert (frames T) /\
    push_current f K = Ret (put_thread (currentThread K) (push f T) K) /\
    mid extra (put_thread (currentThread K) (push f T) K).
Proof.
  intros [Hb (Hid & T & HT & Hr & Hi)] Hf Hv. exists T. do 3 (split; [done|]).
  split; [by unfold push_current, find; rewrite HT|]. split.
  - eapply base_put_cur; try done.
    + apply thread_ok_push; try done; try (intros ->; done); [|congruence..].
      eapply c_threads; [apply Hb | done].
    + intros s. by rewrite inert_woken.
    + intros l old Hp. assert (f <> InRun) by (by intros ->). destruct (pc_push f T) as [Hp' _]; try done.
      rewrite Hp' in Hp. by injection Hp as ->.
  - split; [done|]. exists (push f T). cbn. rewrite lookup_insert_eq. repeat split; try done. by constructor.
Qed.

(** *** Whom the calls make ready, in order: the thread that has waited longest *)

Definition sleepers K s : list id := match sems K !! s with Some E => Seq.items (s_queue E) | None => [] end.

Definition woken_by_V s K : list id := take 1 (sleepers K s).

(** The handlers of the devices each wake the first thread of their semaphore. *)
Fixpoint woken_by (fired : list id) (waiters : id -> list id) : list id :=
  match fired with
  | [] => []
  | s :: fired => take 1 (waiters s) ++ woken_by fired (<[s := tail (waiters s)]> waiters)
  end.

Definition woken_by_Release l K : list id :=
  match locks K !! l with
  | Some L => if bool_decide (owner L = Some (currentThread K)) then take 1 (Seq.items (l_queue L)) else []
  | None => []
  end.

Definition woken_by_Wait c (conditionLock : option id) K : list id :=
  match conditionLock, conds K !! c with
  | Some l, Some Q => if bool_decide (waitingLock Q = None) || bool_decide (waitingLock Q = Some l) then woken_by_Release l K else []
  | _, _ => []
  end.

Definition woken_by_Signal c (conditionLock : option id) K : list id :=
  match conditionLock, conds K !! c with
  | Some l, Some Q => if bool_decide (waitingLock Q = Some l) then take 1 (Seq.items (c_queue Q)) else []
  | _, _ => []
  end.

(** The running thread goes to the end of the ready list, unless it would be alone
    there; [woken] are the threads that have just been put there. *)
Definition gives_way (woken : list id) K : list id :=
  match Seq.items (readyList K) ++ woken with [] => [] | _ => [currentThread K] end.

Definition woken_by_SetLevel (now : IntStatus) (tk : Tick) K : list id :=
  if decide (now = IntOn /\ intLevel K = IntOff) then
    let woken := woken_by (fired tk) (sleepers K) in
    woken ++ (if timer tk then gives_way woken K else [])
  else [].

Lemma woken_by_ext fired ws ws' : (forall s, ws s = ws' s) -> woken_by fired ws = woken_by fired ws'.
Proof.
  revert ws ws'. induction fired as [|s fired IH]; intros ws ws' H; cbn; [done|]. rewrite H. f_equal. apply IH. intros x.
  destruct (decide (s = x)) as [<-|]; [by rewrite !fn_lookup_insert | by rewrite !fn_lookup_insert_ne].
Qed.

(** What a call does not lose; [made] are the threads it makes ready. *)
Record stays_known (made : list id) K K' : Prop := {
  k_cur : currentThread K' = currentThread K;
  k_idle : idle K' = idle K;
  k_level : intLevel K' = intLevel K;
  k_sems : forall s, is_Some (sems K !! s) -> is_Some (sems K' !! s);
  k_threads : forall t T, threads K !! t = Some T -> t_status T <> BLOCKED -> threads K' !! t = Some T;
  k_frames : forall t T, threads K !! t = Some T -> exists T', threads K' !! t = Some T' /\
    frames T' = frames T /\ (t_status T' = t_status T \/ t_status T' = READY);
  k_ready : Seq.items (readyList K') = Seq.items (readyList K) ++ made
}.

Lemma enter_mid extra K x :
  mid extra K -> (forall l, x <> AtAcquire l) ->
  exists K' T, enter x K = Ret K' /\ mid extra K' /\ threads K !! currentThread K = Some T /\
    K' = set_intLevel IntOff (put_thread (currentThread K) (push (Reset x (intLevel K)) T) K).
Proof.
  intros Hm Hx. assert (inert (Reset x (intLevel K))) as Hi by (destruct x; cbn; naive_solver).
  assert (valid (queue K) (Reset x (intLevel K))) as Hv by (destruct x; cbn; naive_solver).
  destruct (push_mid extra K _ Hm Hi Hv) as (T & HT & _ & _ & He & Hm').
  unfold enter. rewrite He. cbn [bind]. eexists _, T. split; [done|]. split; [by apply mid_level|]. by split.
Qed.

Lemma known_refl K : stays_known [] K K.
Proof. split; try done; [intros t T; eauto|]. by rewrite app_nil_r. Qed.

Lemma known_trans n1 n2 K1 K2 K3 : stays_known n1 K1 K2 -> stays_known n2 K2 K3 -> stays_known (n1 ++ n2) K1 K3.
Proof.
  intros [? ? ? ? ? F1 H1] [? ? ? ? ? F2 H2]. split; [congruence.. | auto | auto | |].
  { intros t T HT. destruct (F1 t T HT) as (T1 & HT1 & E1 & S1). destruct (F2 t T1 HT1) as (T2 & HT2 & E2 & S2).
    exists T2. split; [done|]. split; [congruence|]. destruct S2 as [->|]; [done | by right]. }
  by rewrite H2, H1, app_assoc.
Qed.

Lemma known_mid made extra K K' : mid extra K -> base extra K' -> stays_known made K K' -> mid extra K'.
Proof.
  intros [_ (Hi & T & HT & Hr & Hin)] Hb [H1 H2 _ _ H5 _ _]. split; [done|]. rewrite H1, H2. split; [done|].
  exists T. split; [|done]. apply H5; [done|]. congruence.
Qed.

Lemma wake_facts extra K w k t q :
  base extra K -> queue K w = Some ((k, t) :: q) ->
  exists T, threads K !! t = Some T /\ t_status T = BLOCKED /\ pc T ≫= waits_at = Some w /\
    core (currentThread K) (<[t := setStatus READY T]> (threads K)) (Seq.Append t (readyList K))
      (<[w := Some q]> (queue K)) (threadToBeDestroyed K) /\
    (forall t' T', threads K !! t' = Some T' -> t_status T' <> BLOCKED ->
       <[t := setStatus READY T]> (threads K) !! t' = Some T') /\
    (forall t' T', threads K !! t' = Some T' -> exists T2, <[t := setStatus READY T]> (threads K) !! t' = Some T2 /\
       frames T2 = frames T' /\ (t_status T2 = t_status T' \/ t_status T2 = READY)).
Proof.
  intros Hb Hq. destruct (queue_member _ _ _ _ _ _ _ t (b_core _ _ Hb) Hq) as (T & HT & Hbl & _ & Hpc & _); [by left|].
  exists T. split; [done|]. split; [done|]. split; [done|]. split.
  - eapply core_wake; [apply Hb | done | done].
  - split; [intros t' T' HT' Hn; rewrite lookup_insert_ne; [done|]; intros <-; congruence|].
    intros t' T' HT'. destruct (decide (t = t')) as [<-|].
    + rewrite lookup_insert_eq. eexists. split; [done|]. assert (T' = T) as -> by congruence. split; [done | by right].
    + rewrite lookup_insert_ne by done. eauto.
Qed.

Lemma waits_sem T s : pc T ≫= waits_at = Some (WSem s) -> pc T = Some (InP s).
Proof. destruct (pc T) as [[| | |[] ?| | |]|]; cbn; try done. by intros [= ->]. Qed.

Lemma waits_lock T l : pc T ≫= waits_at = Some (WLock l) -> exists old, pc T = Some (Reset (AtAcquire l) old).
Proof. destruct (pc T) as [[| | |[] ?| | |]|]; cbn; try done. intros [= ->]. eauto. Qed.

Lemma waits_cond T c : pc T ≫= waits_at = Some (WCond c) -> exists l, pc T = Some (InWait c l).
Proof. destruct (pc T) as [[| | |[] ?| | |]|]; cbn; try done. intros [= ->]. eauto. Qed.

Lemma V_body_base extra K s :
  base extra K -> is_Some (sems K !! s) ->
  exists K', V_body s K = Ret K' /\ base extra K' /\ stays_known (woken_by_V s K) K K' /\
    forall x, sleepers K' x = (<[s := tail (sleepers K s)]> (sleepers K)) x.
Proof.
  intros Hb [E HE]. assert (sleepers K s = Seq.items (s_queue E)) as HS by (unfold sleepers; by rewrite HE).
  assert (forall K' v q', sems K' = <[s := mkSem v q']> (sems K) -> Seq.items q' = tail (sleepers K s) ->
    forall x, sleepers K' x = (<[s := tail (sleepers K s)]> (sleepers K)) x) as Hsl.
  { intros K' v q' E' Eq x. unfold sleepers at 1. rewrite E'. destruct (decide (s = x)) as [<-|].
    - by rewrite lookup_insert_eq, fn_lookup_insert.
    - by rewrite lookup_insert_ne, fn_lookup_insert_ne. }
  unfold woken_by_V. rewrite HS in *. unfold V_body. unfold find at 1. rewrite HE. cbn [bind].
  assert (forall s0 v, is_Some (sems K !! s0) -> is_Some (<[s := v]> (sems K) !! s0)) as Hsome.
  { intros s0 v ?. destruct (decide (s = s0)) as [<-|]; [by rewrite lookup_insert_eq | by rewrite lookup_insert_ne]. }
  destruct (s_queue E) as [|[k t] q] eqn:Eq; cbn.
  - eexists. split; [done|]. destruct Hb as [Hc Hs Hl Hh Hd]. split; [|split; [|by eapply Hsl]].
    + split; cbn; try done.
      * eapply core_ext; [|exact Hc]. intros w. rewrite queue_put_sem. destruct (decide (WSem s = w)) as [<-|].
        -- rewrite fn_lookup_insert. cbn. by rewrite HE, <- Eq.
        -- by rewrite fn_lookup_insert_ne.
      * intros s' E' [[<- <-]|[? HE']]%lookup_insert_Some; [|by apply Hs]. cbn.
        destruct (Hs s E HE). split; [lia | done].
    + split; cbn; eauto. by rewrite app_nil_r.
  - destruct (wake_facts extra K (WSem s) k t q Hb) as (T & HT & Hbl & Hpc & Hcore & Hkeep & Hkeep').
    { cbn. by rewrite HE, <- Eq. }
    unfold ReadyToRun, find. rewrite HT. cbn [bind]. eexists. split; [done|].
    destruct Hb as [Hc Hs Hl Hh Hd]. apply waits_sem in Hpc. split; [|split; [split; cbn; eauto using items_snoc | by eapply Hsl]].
    assert (forall x, is_woken x (setStatus READY T) = bool_decide (s = x)) as Hw.
    { intros x. unfold is_woken. rewrite pc_status, Hpc. cbn. apply bool_decide_ext. split; [by intros [= ->] | by intros ->]. }
    assert (forall x, is_woken x T = false) as Hw0 by (intros x; unfold is_woken; by rewrite Hbl).
    split; cbn; try done.
    + eapply core_sem; [|done]. exact Hcore.
    + intros s' E' HE'. pose proof (woken_insert (threads K) t T (setStatus READY T) s' HT) as Hcnt.
      rewrite Hw, Hw0 in Hcnt. destruct (decide (s = s')) as [<-|Hne].
      * rewrite lookup_insert_eq in HE'. injection HE' as <-. cbn. rewrite bool_decide_true in Hcnt by done.
        destruct (Hs s E HE) as [? Hle]. split; [lia|]. intros _. rewrite Eq in Hle. specialize (Hle ltac:(done)).
        cbn in Hcnt. lia.
      * rewrite lookup_insert_ne in HE' by done. rewrite bool_decide_false in Hcnt by done. cbn in Hcnt.
        destruct (Hs s' E' HE') as [? Hle]. split; [lia|]. intros Hq. specialize (Hle Hq). lia.
    + apply holds_ok_upd; [done|]. intros l old _. rewrite pc_status, Hpc. done.
    + by apply conds_ok_upd.
Qed.

Lemma handlers_base extra (l : list id) K :
  base extra K -> Forall (fun s => is_Some (sems K !! s)) l ->
  exists K', handlers l K = Ret K' /\ base extra K' /\ stays_known (woken_by l (sleepers K)) K K'.
Proof.
  revert K. induction l as [|s l IH]; intros K Hb Hf; cbn.
  - exists K. split; [done|]. split; [done | apply known_refl].
  - apply Forall_cons in Hf as [Hs Hf]. destruct (V_body_base extra K s Hb Hs) as (K1 & -> & Hb1 & Hk1 & Hs1).
    cbn [bind]. destruct (IH K1 Hb1) as (K2 & -> & Hb2 & Hk2).
    { eapply Forall_impl; [exact Hf|]. intros x. apply Hk1. }
    exists K2. split; [done|]. split; [done|]. rewrite (woken_by_ext l _ _ Hs1) in Hk2. by eapply known_trans.
Qed.

(** ** Switching *)

(** A thread that gave up the processor and is still on it. *)
Definition stopped K T : Prop :=
  threads K !! currentThread K = Some T /\ t_status T <> RUNNING /\
  exists f fs, frames T = f :: fs /\ f <> InRun /\ f <> InRoot.

Definition saved K T : Thread :=
  push InRun (match space T with Some _ => set_userRegisters (registers K) T | None => T end).

Lemma saved_ok K T Q : thread_ok Q T ->
  (exists f fs, frames T = f :: fs /\ f <> InRun /\ f <> InRoot) -> t_status T <> RUNNING -> 
  thread_ok Q (saved K T) /\ pc (saved K T) = pc T /\ t_status (saved K T) = t_status T.
Proof.
  intros [H1 H2 H3 H4] (f & fs & Hf & Hn & Hr) Hst.
  assert (frames (saved K T) = InRun :: f :: fs /\ stack (saved K T) = stack T /\ t_status (saved K T) = t_status T) as (Hfr & Hsk & Hss).
  { unfold saved. destruct (space T); cbn; by rewrite Hf. }
  assert (pc (saved K T) = Some f /\ pc T = Some f /\ rest (saved K T) = rest T) as (Hp & Hp' & Hrest).
  { unfold pc, rest. rewrite Hfr, Hf. by destruct f. }
  split; [|split; [congruence | done]]. split.
  - by rewrite Hsk.
  - by rewrite Hrest.
  - rewrite Hfr. rewrite Hf in H3. by constructor.
  - unfold pc_ok in *. rewrite Hp. rewrite Hp' in H4. rewrite Hss. destruct f; try done.
Qed.

Lemma Run_unfold n K T N : threads K !! currentThread K = Some T -> thread_ok (queue K) T ->
  <[currentThread K := saved K T]> (threads K) !! n = Some N ->
  exists m, Run n K = Ret (put_thread n (setStatus RUNNING N) (set_current n (set_user (registers K) m
    (put_thread (currentThread K) (saved K T) K)))).
Proof.
  intros HT [Hs _ _ _] HN. unfold Run. unfold find at 1. rewrite HT. cbn [bind].
  assert (CheckOverflow T = Ret ()) as -> by (unfold CheckOverflow; by destruct Hs as [-> | ->]).
  cbn [bind]. unfold push_current, find. unfold saved in *. destruct (space T).
  - cbn. rewrite lookup_insert_eq. cbn. rewrite insert_insert_eq. rewrite HN. cbn.
    eexists. unfold put_thread, set_threads, set_user, set_current. cbn. by rewrite insert_insert_eq.
  - cbn. rewrite HT. cbn. rewrite HN. cbn. by exists (mmu K).
Qed.

(** The rest of the invariant when a thread that does not wait changes its status
    without moving. *)
Lemma objects_upd extra K t T T' :
  sems_ok extra (threads K) (sems K) -> holds_ok (threads K) (locks K) -> conds_ok (threads K) (conds K) ->
  threads K !! t = Some T -> pc T' = pc T -> (t_status T' = BLOCKED -> t_status T = BLOCKED) ->
  (t_status T = BLOCKED -> t_status T' = BLOCKED) ->
  sems_ok extra (<[t := T']> (threads K)) (sems K) /\ holds_ok (<[t := T']> (threads K)) (locks K) /\
  conds_ok (<[t := T']> (threads K)) (conds K).
Proof.
  intros Hs Hh Hd HT Hp Hb Hb'. split; [|split].
  - eapply sems_ok_upd; [done..|]. intros s. unfold is_woken. rewrite Hp.
    assert (bool_decide (t_status T' = BLOCKED) = bool_decide (t_status T = BLOCKED)) as -> by (apply bool_decide_ext; by split).
    done.
  - apply holds_ok_upd; [done|]. rewrite Hp. intros l old Hn. apply (Hh t T l old HT). auto.
  - apply conds_ok_upd; [done|]. rewrite Hp. intros c Q l HQ Hn. destruct (Hd c Q HQ) as [_ Hw]. apply (Hw t T l HT). auto.
Qed.

(** The thread that has just been given the processor. *)
Definition dispatched K : list id :=
  match frames <$> threads K !! currentThread K with
  | Some (InRun :: _) | Some (InRoot :: _) => [currentThread K]
  | _ => []
  end.

Lemma Run_ok K k n q T :
  base None K -> stopped K T -> intLevel K = IntOff -> readyList K = (k, n) :: q ->
  exists K', Run n (set_idle false (set_ready q K)) = Ret K' /\ ok K' /\ readyList K' = q /\ dispatched K' = [n].
Proof.
  intros [Hc Hs Hl Hh Hd] (HT & Hst & Hfr) Hlv Hrdy.
  pose proof (c_threads _ _ _ _ _ Hc _ _ HT) as Hok.
  destruct (saved_ok K T _ Hok Hfr Hst) as (Hok1 & Hp1 & Hs1). set (cur := currentThread K) in *.
  assert (is_Some (threads K !! n)) as [N0 HN0].
  { destruct (proj1 (c_ready _ _ _ _ _ Hc n)) as (N & ? & ?); [rewrite Hrdy; by left | eauto]. }
  assert (exists N, <[cur := saved K T]> (threads K) !! n = Some N) as [N HN].
  { destruct (decide (cur = n)) as [<-|]; [rewrite lookup_insert_eq | rewrite lookup_insert_ne by done]; eauto. }
  destruct (Run_unfold n (set_idle false (set_ready q K)) T N HT Hok HN) as [m Hrun].
  eexists. split; [exact Hrun|].
  assert (core cur (<[cur := saved K T]> (threads K)) (readyList K) (queue K) (threadToBeDestroyed K)) as Hc1.
  { eapply core_upd; try done; [by unfold waiting; rewrite Hs1, Hp1 | congruence]. }
  destruct (objects_upd None K cur T (saved K T) Hs Hh Hd HT Hp1) as (Hs2 & Hh2 & Hd2); [congruence..|].
  assert (t_status N = READY) as Hr.
  { destruct (proj1 (c_ready _ _ _ _ _ Hc1 n)) as (N' & ? & ?); [rewrite Hrdy; by left | congruence]. }
  assert (dispatched_frames : (exists fs, frames N = InRun :: fs) \/ frames N = [InRoot]).
  { destruct (decide (cur = n)) as [Heq|Hne].
    - rewrite Heq, lookup_insert_eq in HN. injection HN as <-. left. by eexists.
    - destruct (c_others _ _ _ _ _ Hc1 n N HN) as [?|[?|[_ ?]]]; [congruence | by left | by right | congruence]. }
  set (K1 := set_threads (<[cur := saved K T]> (threads K)) K).
  destruct (objects_upd None K1 n N (setStatus RUNNING N) Hs2 Hh2 Hd2 HN) as (Hs3 & Hh3 & Hd3); [done | done | congruence |].
  split; [split; [split; try done|]|split; [done|]].
  - eapply core_ext; [intros w; by instantiate (1 := queue K); destruct w|].
    rewrite Hrdy in Hc1. eapply core_dispatch; [exact Hc1 | | | exact HN].
    + intros t X HX. cbn in HX. apply lookup_insert_Some in HX as [[<- <-]|[Hne HX]];
        [change (t_status (saved K T) <> RUNNING); congruence|]. intros Hx.
      by apply (c_run _ _ _ _ _ Hc t X) in Hx.
    + intros X HX. cbn in HX. rewrite lookup_insert_eq in HX. injection HX as <-. left. by eexists.
  - exists (setStatus RUNNING N). cbn. rewrite lookup_insert_eq. split; [done|]. split; [done|]. by split.
  - unfold dispatched. cbn. rewrite lookup_insert_eq. cbn. by destruct dispatched_frames as [[fs ->] | ->].
Qed.

Lemma set_idle_same K b : idle K = b -> set_idle b K = K.
Proof. intros <-. by destruct K. Qed.

(** The ready list is served first come, first served: [made] are the threads an
    event makes ready. *)
Definition fifo (made : list id) K K' : Prop :=
  dispatched K' ++ Seq.items (readyList K') = Seq.items (readyList K) ++ made.

Lemma fifo_known n1 n2 K K1 K' : stays_known n1 K K1 -> fifo n2 K1 K' -> fifo (n1 ++ n2) K K'.
Proof. intros [_ _ _ _ _ _ H1] H2. unfold fifo. by rewrite H2, H1, app_assoc. Qed.

Lemma Sleep_test_ok K T :
  base None K -> stopped K T -> intLevel K = IntOff -> (readyList K = [] -> t_status T = BLOCKED) ->
  exists K', Sleep_test K = Ret K' /\ ok K' /\ fifo [] K K'.
Proof.
  intros Hb Hst Hlv Hbl. unfold Sleep_test, FindNextToRun, fifo, Seq.Remove. destruct (readyList K) as [|[k n] q] eqn:Hq; cbn.
  - eexists. split; [done|]. destruct Hst as (HT & _ & Hfr). split; [|unfold dispatched; cbn; rewrite HT; cbn;
      destruct Hfr as (f & fs & -> & ? & ?); by destruct f].
    split; [destruct Hb as [Hc ? ? ? ?]; split; try done; by rewrite Hq in Hc|].
    exists T. cbn. split; [done|]. split; [auto|]. done.
  - destruct (Run_ok K k n q T Hb Hst Hlv Hq) as (K' & HR & Hok & Hrd & Hdi). exists K'. split; [exact HR|].
    split; [done|]. by rewrite Hrd, Hdi, app_nil_r.
Qed.

(** ** Calls *)

Lemma mid_ok K : mid None K -> ok K.
Proof.
  intros [Hb (Hi & T & HT & Hr & Hin)]. split; [done|]. exists T. rewrite Hi. split; [done|]. split; [done|].
  split; [|done]. destruct (frames T) as [|f fs]; cbn; [done|]. apply Forall_cons in Hin as [Hf _]. by destruct f.
Qed.

Lemma mid_dispatched extra K : mid extra K -> dispatched K = [].
Proof.
  intros [_ (_ & T & HT & _ & Hin)]. unfold dispatched. rewrite HT. cbn. destruct (frames T) as [|f fs]; [done|].
  apply Forall_cons in Hin as [Hf _]. by destruct f.
Qed.

Lemma mid_fifo K K1 : mid None K1 -> readyList K1 = readyList K -> fifo [] K K1.
Proof. intros Hm Hr. unfold fifo. by rewrite (mid_dispatched _ _ Hm), app_nil_r, Hr. Qed.

Lemma mid_result made K K1 : mid None K1 -> stays_known made K K1 -> ok K1 /\ fifo made K K1.
Proof.
  intros Hm Hk. split; [by apply mid_ok|]. rewrite <- (app_nil_r made). eapply fifo_known; [exact Hk|]. by apply mid_fifo.
Qed.

Lemma stopped_push K x st T : st <> RUNNING -> x <> InRun -> x <> InRoot ->
  stopped (put_thread (currentThread K) (setStatus st (push x T)) K) (setStatus st (push x T)).
Proof. intros. split; cbn; [by rewrite lookup_insert_eq|]. split; [done|]. by exists x, (frames T). Qed.

Lemma Yield_ok K : mid None K ->
  exists K', Yield K = Ret K' /\ ok K' /\ fifo (gives_way [] K) K K'.
Proof.
  intros Hm. destruct (enter_mid None K AtYield Hm) as (K1 & T & He & Hm1 & HT & HK1); [done|].
  unfold Yield. rewrite He. cbn [bind]. unfold FindNextToRun, Seq.Remove, fifo, gives_way. rewrite app_nil_r.
  assert (readyList K1 = readyList K) as Hr1 by (by rewrite HK1).
  assert (currentThread K1 = currentThread K) as Hc1 by (by rewrite HK1). rewrite <- Hr1.
  destruct (readyList K1) as [|[k n] q] eqn:Hq; cbn.
  - assert (mid None (set_ready [] K1)) as Hm2.
    { destruct Hm1 as [[Hc ? ? ? ?] ?]. split; [|done]. split; try done. by rewrite Hq in Hc. }
    eexists. split; [done|]. split; [by apply mid_ok|]. by rewrite (mid_dispatched _ _ Hm2).
  - set (T1 := push (Reset AtYield (intLevel K)) T) in *.
    destruct Hm1 as [[Hc Hs Hl Hh Hd] (Hid & T1' & HT1 & Hrun & Hin)].
    assert (T1' = T1) as ->.
    { rewrite HK1 in HT1. cbn in HT1. rewrite lookup_insert_eq in HT1. by injection HT1. }
    assert (pc T1 = Some (Reset AtYield (intLevel K))) as Hpc by done.
    set (K2 := set_ready (Seq.Append (currentThread K1) (readyList K1)) (put_thread (currentThread K1) (setStatus READY T1) K1)).
    destruct (objects_upd None K1 _ _ (setStatus READY T1) Hs Hh Hd HT1) as (Hs2 & Hh2 & Hd2); [done | done | congruence |].
    assert (base None K2) as Hb2.
    { split; try done. cbn. eapply core_ext; [intros w; by instantiate (1 := queue K1); destruct w|].
      eapply core_ready; try done; first [(unfold waiting; rewrite Hrun; reflexivity) | congruence]. }
    assert (intLevel K2 = IntOff) as Hlv by (change (intLevel K1 = IntOff); by rewrite HK1).
    destruct (Run_ok K2 k n (Seq.Append (currentThread K1) q) (setStatus READY T1) Hb2) as (K' & HR & Hok & Hrd & Hdi).
    + split; [cbn; by rewrite lookup_insert_eq|]. split; [done|]. by eexists _, _.
    + done.
    + unfold K2. cbn. by rewrite Hq.
    + unfold ReadyToRun, find. cbn [currentThread set_ready threads]. rewrite HT1. cbn [bind].
      exists K'. rewrite <- HR. split; [|split; [done|]].
      * rewrite set_idle_same by done. done.
      * by rewrite Hdi, Hrd, items_snoc, Hc1.
Qed.

(** The running thread joins the queue [w]; [K2] is [K] with the queue extended. *)
Lemma park_base extra K K2 w q T T' :
  mid extra K -> threads K !! currentThread K = Some T -> queue K w = Some q ->
  currentThread K2 = currentThread K -> threads K2 = threads K -> readyList K2 = readyList K ->
  threadToBeDestroyed K2 = threadToBeDestroyed K ->
  (forall w', queue K2 w' = (<[w := Some (Seq.Append (currentThread K) q)]> (queue K)) w') ->
  thread_ok (queue K) T' -> t_status T' = BLOCKED -> waiting T' = Some w ->
  sems_ok None (threads K) (sems K2) -> locks_ok (locks K2) -> holds_ok (threads K) (locks K2) ->
  conds_ok (threads K) (conds K2) ->
  (forall c Q l, conds K2 !! c = Some Q -> pc T' = Some (InWait c l) -> waitingLock Q = Some l) ->
  base None (put_thread (currentThread K) T' K2).
Proof.
  intros [[Hc _ _ _ _] (_ & T0 & HT0 & Hr & Hin)] HT Hq Ecur Eths Erdy Edm Equ Hok Hb Hw Hs Hl Hh Hd Hdc.
  assert (T0 = T) as -> by congruence. split; cbn; rewrite ?Ecur, ?Eths, ?Erdy, ?Edm.
  - eapply core_ext; [|eapply core_park; [exact Hc | done..]]. intros w'. rewrite <- Equ. by destruct w'.
  - eapply sems_ok_upd; [done..|]. intros s. by rewrite inert_woken.
  - done.
  - apply holds_ok_upd; [done|]. intros. congruence.
  - apply conds_ok_upd; [done|]. eauto.
Qed.

Lemma Sleep_ok K0 K T :
  readyList K = readyList K0 -> threads K !! currentThread K = Some T -> intLevel K = IntOff ->
  base None (put_thread (currentThread K) (setStatus BLOCKED T) K) ->
  (exists f fs, frames T = f :: fs /\ f <> InRun /\ f <> InRoot) ->
  exists K', Sleep K = Ret K' /\ ok K' /\ fifo [] K0 K'.
Proof.
  intros Hrd HT Hlv Hb Hfr. unfold Sleep. rewrite bool_decide_true by done. cbn [ASSERT bind].
  unfold find. rewrite HT. cbn [bind].
  destruct (Sleep_test_ok _ (setStatus BLOCKED T) Hb) as (K' & HS & Hok & Hfi); [|done | done |].
  - split; [cbn; by rewrite lookup_insert_eq|]. by split.
  - exists K'. split; [done|]. split; [done|]. unfold fifo in *. by rewrite <- Hrd.
Qed.

Lemma park_ok K0 K T f :
  readyList K = readyList K0 -> threads K !! currentThread K = Some T -> intLevel K = IntOff ->
  base None (put_thread (currentThread K) (setStatus BLOCKED (push f T)) K) -> f <> InRun -> f <> InRoot ->
  exists K', (let! K := push_current f K in Sleep K) = Ret K' /\ ok K' /\ fifo [] K0 K'.
Proof.
  intros Hrd HT Hlv Hb H1 H2. unfold push_current, find. rewrite HT. cbn [bind].
  eapply (Sleep_ok K0 _ (push f T)); [done | cbn; by rewrite lookup_insert_eq | done | | by exists f, (frames T)].
  unfold put_thread, set_threads in *. cbn in *. by rewrite insert_insert_eq.
Qed.

Lemma mid_thread extra K : mid extra K ->
  exists T, threads K !! currentThread K = Some T /\ t_status T = RUNNING /\ Forall inert (frames T) /\
    thread_ok (queue K) T.
Proof.
  intros [Hb (_ & T & HT & Hr & Hi)]. exists T. do 3 (split; [done|]). eapply c_threads; [apply Hb | done].
Qed.

Lemma parked_thread Q T f w : thread_ok Q T -> Forall inert (frames T) -> waits_at f = Some w -> valid Q f ->
  thread_ok Q (setStatus BLOCKED (push f T)) /\ waiting (setStatus BLOCKED (push f T)) = Some w /\
  pc (setStatus BLOCKED (push f T)) = Some f.
Proof.
  intros [H1 H2 H3 H4] Hi Hw Hv. assert (f <> InRun) as Hn by (by intros ->).
  destruct (pc_push f T Hi Hn) as [Hp Hr]. split; [split; try done|split; [|by rewrite pc_status]].
  - change (Forall inert (rest (push f T))). by rewrite Hr.
  - cbn. by constructor.
  - unfold pc_ok. rewrite pc_status, Hp. destruct f as [| | |[]?| | |]; try done.
  - change (pc (push f T) ≫= waits_at = Some w). by rewrite Hp.
Qed.

Lemma P_test_ok extra K s :
  mid extra K -> is_Some (sems K !! s) -> intLevel K = IntOff -> (extra = None \/ extra = Some s) ->
  exists K', P_test s K = Ret K' /\ ok K' /\ fifo [] K K'.
Proof.
  intros Hm [E HE] Hlv Hex. destruct (mid_thread _ _ Hm) as (T & HT & Hr & Hi & Hok).
  destruct (m_base _ _ Hm) as [Hc Hs Hl Hh Hd]. destruct (Hs s E HE) as [Hv Hle].
  unfold P_test. unfold find at 1. rewrite HE. cbn [bind]. destruct (Z.eqb_spec (value E) 0) as [H0|H0].
  - destruct (parked_thread (queue K) T (InP s) (WSem s) Hok Hi eq_refl) as (Hok' & Hw & Hpc); [cbn; by rewrite HE|].
    apply (park_ok K _ T (InP s)); try done.
    eapply (park_base extra K _ (WSem s) (s_queue E) T); try done.
    + cbn. by rewrite HE.
    + intros w'. by rewrite queue_put_sem.
    + intros s' E' HE'. cbn in HE'. apply lookup_insert_Some in HE' as [[<- <-]|[Hne HE']];
        [split; cbn; [lia|]; intros _; lia|].
      destruct (Hs s' E' HE') as [? Hle']. split; [done|]. intros Hq. specialize (Hle' Hq).
      rewrite bool_decide_false in Hle' by naive_solver. exact Hle'.
  - eexists. split; [done|]. apply mid_result; [|split; try done].
    + split; [|exact (m_run _ _ Hm)]. split; try done.
      * eapply core_sem; [|done]. eapply core_ext; [|exact Hc]. intros w. destruct (decide (WSem s = w)) as [<-|].
        -- rewrite fn_lookup_insert. cbn. by rewrite HE.
        -- by rewrite fn_lookup_insert_ne.
      * intros s' E' HE'. cbn in HE'. apply lookup_insert_Some in HE' as [[<- <-]|[Hne HE']]; cbn.
        -- split; [lia|]. intros Hq. specialize (Hle Hq). destruct (bool_decide (extra = Some s)); cbn in Hle |- *; lia.
        -- destruct (Hs s' E' HE') as [? Hle']. split; [done|]. intros Hq. specialize (Hle' Hq).
           rewrite bool_decide_false in Hle' by naive_solver. exact Hle'.
    + cbn. intros s'. destruct (decide (s = s')) as [<-|]; [rewrite lookup_insert_eq; eauto | by rewrite lookup_insert_ne].
    + intros t T0 HT0. exists T0. split; [done|]. split; [done | by left].
    + by rewrite app_nil_r.
Qed.

Lemma running_ok K0 K T :
  base None K -> idle K = false -> threads K !! currentThread K = Some T -> t_status T = RUNNING ->
  ~ interrupts_off_at (head (frames T)) -> readyList K = readyList K0 -> ok K /\ fifo [] K0 K.
Proof.
  intros Hb Hid HT Hr Hf Hrd. split.
  - split; [done|]. exists T. rewrite Hid. split; [done|]. split; [done|]. split; [by intros ?|done].
  - unfold fifo. rewrite Hrd, app_nil_r. unfold dispatched. rewrite HT. cbn.
    destruct (frames T) as [|[] ?]; cbn in *; tauto.
Qed.

Lemma queue_same_lock K l L L' : locks K !! l = Some L -> l_queue L' = l_queue L ->
  forall w, queue (put_lock l L' K) w = queue K w.
Proof.
  intros HL Hq w. rewrite queue_put_lock. destruct (decide (WLock l = w)) as [<-|].
  - rewrite fn_lookup_insert. cbn. by rewrite HL, Hq.
  - by rewrite fn_lookup_insert_ne.
Qed.

(** A lock whose owner leaves nobody behind is given to another thread, or to none. *)
Lemma base_put_lock K l L L' :
  mid None K -> locks K !! l = Some L -> l_queue L' = l_queue L -> lock_ok L' ->
  (owner L = None \/ owner L = Some (currentThread K)) -> mid None (put_lock l L' K).
Proof.
  intros Hm HL Hq HL' Ho. destruct (mid_thread _ _ Hm) as (T & HT & Hr & Hi & _).
  destruct (m_base _ _ Hm) as [Hc Hs Hl Hh Hd]. split; [|exact (m_run _ _ Hm)]. split; try done.
  - eapply core_ext; [|exact Hc]. intros w. by rewrite (queue_same_lock K l L L').
  - by apply map_Forall_insert_2.
  - intros t T1 l1 old HT1 Hn Hp. destruct (Hh t T1 l1 old HT1 Hn Hp) as (L1 & HL1 & Ho1). cbn.
    destruct (decide (l = l1)) as [<-|]; [|rewrite lookup_insert_ne by done; eauto].
    exfalso. assert (L1 = L) as -> by congruence. destruct Ho as [Ho|Ho]; [congruence|].
    assert (t = currentThread K) as -> by congruence. assert (T1 = T) as -> by (cbn in *; congruence).
    by apply (pc_inert T _ Hi) in Hp.
Qed.

Lemma acquired K l L f : f = Reset (AtAcquire l) (intLevel K) ->
  mid None K -> locks K !! l = Some L -> owner L = Some (currentThread K) ->
  exists T, threads K !! currentThread K = Some T /\
    forall v, ok (set_intLevel v (put_thread (currentThread K) (push f T) K)) /\
      fifo [] K (set_intLevel v (put_thread (currentThread K) (push f T) K)).
Proof.
  intros -> Hm HL Ho. destruct (mid_thread _ _ Hm) as (T & HT & Hr & Hi & Hok). exists T. split; [done|]. intros v.
  eapply (running_ok _ _ (push _ T)); [ | exact (proj1 (m_run _ _ Hm)) | cbn; by rewrite lookup_insert_eq | done | (cbn; tauto) | done].
  apply base_level. eapply base_put_cur; [apply Hm | done..| | |].
  - apply thread_ok_push; try done; [cbn; by rewrite HL | congruence..].
  - intros s. by rewrite inert_woken.
  - intros l' old Hp. destruct (pc_push (Reset (AtAcquire l) (intLevel K)) T) as [Hp' _]; try done.
    rewrite Hp' in Hp. injection Hp as <- <-. eauto.
Qed.

Lemma Acquire_ok K l :
  mid None K -> is_Some (locks K !! l) -> exists K', Acquire l K = Ret K' /\ ok K' /\ fifo [] K K'.
Proof.
  intros Hm [L HL]. destruct (mid_thread _ _ Hm) as (T & HT & Hr & Hi & Hok).
  pose proof (b_locks _ _ (m_base _ _ Hm) l L HL) as [Hfree Hempty]. cbn in Hfree, Hempty.
  unfold Acquire, enter, push_current, find. rewrite HL, HT. cbn [bind].
  unfold isHeldByCurrentThread. cbn [currentThread set_intLevel put_thread set_threads].
  set (f := Reset (AtAcquire l) (intLevel K)). case_bool_decide as Ho.
  { destruct (acquired K l L f eq_refl Hm HL Ho) as (T' & HT' & Hok'). assert (T' = T) as -> by congruence.
    destruct (Hok' IntOff) as [? ?]. eauto. }
  destruct (decide (state L = FREE)) as [Hst|Hst].
  - set (L' := mkLock BUSY (Some (currentThread K)) (l_queue L)).
    assert (mid None (put_lock l L' K)) as Hm'.
    { eapply base_put_lock; try done. left. by apply Hfree. }
    destruct (acquired (put_lock l L' K) l L' f eq_refl Hm') as (T' & HT' & Hok'); [apply lookup_insert_eq | done |].
    cbn in HT'. assert (T' = T) as -> by congruence. destruct (Hok' IntOff) as [? ?].
    eexists. split; [reflexivity|]. by split.
  - destruct (parked_thread (queue K) T f (WLock l) Hok Hi eq_refl) as (Hok' & Hw & Hpc); [cbn; by rewrite HL|].
    set (L' := mkLock (state L) (owner L) (Seq.Append (currentThread K) (l_queue L))).
    eapply (Sleep_ok K _ (push f T)); [done | cbn; by rewrite lookup_insert_eq | done | | by exists f, (frames T)].
    assert (base None (put_thread (currentThread K) (setStatus BLOCKED (push f T)) (put_lock l L' K))) as Hb.
    { destruct (m_base _ _ Hm) as [Hc Hs Hl Hh Hd]. eapply (park_base None K _ (WLock l) (l_queue L) T); try done.
      - cbn. by rewrite HL.
      - intros w'. by rewrite queue_put_lock.
      - by apply map_Forall_insert_2.
      - intros t T1 l1 old HT1 Hn Hp. destruct (Hh t T1 l1 old HT1 Hn Hp) as (L1 & HL1 & Ho1). cbn.
        destruct (decide (l = l1)) as [<-|]; [|rewrite lookup_insert_ne by done; eauto].
        rewrite lookup_insert_eq. exists L'. split; [done|]. cbn. by assert (L1 = L) as -> by congruence. }
    apply (base_level _ IntOff) in Hb.
    unfold put_thread, set_threads, set_intLevel, put_lock, set_locks in *. cbn in *. by rewrite insert_insert_eq.
Qed.

Lemma Release_body_mid K l :
  mid None K -> is_Some (locks K !! l) ->
  exists K', Release_body l K = Ret K' /\ mid None K' /\ stays_known (woken_by_Release l K) K K' /\ conds K' = conds K /\
    is_Some (locks K' !! l).
Proof.
  intros Hm [L HL]. destruct (mid_thread _ _ Hm) as (T & HT & Hr & Hi & _).
  pose proof (b_locks _ _ (m_base _ _ Hm) l L HL) as HLok. cbn in HLok.
  unfold Release_body, woken_by_Release, find. rewrite HL. cbn [bind]. unfold isHeldByCurrentThread. case_bool_decide as Ho; cbn [negb].
  2:{ exists K. split; [done|]. split; [done|]. split; [apply known_refl|]. split; [done|]. by exists L. }
  unfold Seq.Remove. destruct (l_queue L) as [|[k t] q] eqn:Hq; cbn.
  - eexists. split; [reflexivity|]. split.
    + eapply base_put_lock; [done | done | by rewrite Hq | by split | by right].
    + split; [split; cbn; eauto; by rewrite app_nil_r|]. split; [done|].
      cbn. rewrite lookup_insert_eq. by eexists.
  - destruct (wake_facts None K (WLock l) k t q (m_base _ _ Hm)) as (W & HW & Hbl & Hpc & Hcore & Hkeep & Hkeep').
    { cbn. by rewrite HL, <- Hq. }
    apply waits_lock in Hpc as [old0 Hpc]. unfold ReadyToRun, find. cbn [threads put_lock set_locks]. rewrite HW. cbn [bind].
    set (L' := mkLock (state L) (Some t) q).
    assert (stays_known [t] K (set_ready (Seq.Append t (readyList K)) (put_thread t (setStatus READY W) (put_lock l L' K)))) as Hk.
    { split; cbn; eauto using items_snoc. }
    eexists. split; [reflexivity|]. split; [|split; [exact Hk|split; [done | cbn; rewrite lookup_insert_eq; by eexists]]].
    eapply known_mid; [exact Hm | | exact Hk]. destruct (m_base _ _ Hm) as [Hc Hs Hl Hh Hd]. split; cbn; try done.
    + eapply core_lock; [|done]. exact Hcore.
    + eapply sems_ok_upd; [done..|]. intros s. unfold is_woken. by rewrite Hbl.
    + apply map_Forall_insert_2; [|done]. destruct HLok as [_ H2].
      assert (state L <> FREE) by (intros Hf; specialize (H2 Hf); congruence). by split.
    + intros t1 T1 l1 old HT1 Hn Hp. apply lookup_insert_Some in HT1 as [[<- <-]|[Hne HT1]].
      * rewrite pc_status, Hpc in Hp. injection Hp as <- <-. exists L'. by rewrite lookup_insert_eq.
      * destruct (Hh t1 T1 l1 old HT1 Hn Hp) as (L1 & HL1 & Ho1).
        destruct (decide (l = l1)) as [<-|]; [|rewrite lookup_insert_ne by done; eauto]. exfalso.
        assert (t1 = currentThread K) as -> by congruence. assert (T1 = T) as -> by congruence.
        by apply (pc_inert T _ Hi) in Hp.
    + by apply conds_ok_upd.
Qed.

Lemma Release_body_put_cond K K' l c Q :
  Release_body l K = Ret K' -> Release_body l (put_cond c Q K) = Ret (put_cond c Q K').
Proof.
  unfold Release_body, find, isHeldByCurrentThread. cbn [locks currentThread put_cond set_conds].
  destruct (locks K !! l) as [L|]; [|done]. cbn [bind]. destruct (negb _); [by intros [= <-]|].
  destruct (Seq.Remove (l_queue L)) as [[t|] q]; [|by intros [= <-]].
  unfold ReadyToRun, find. cbn [threads put_lock put_cond set_conds set_locks].
  destruct (threads K !! t); [|done]. cbn [bind]. by intros [= <-].
Qed.

Lemma Wait_ok K c (cl : option id) :
  mid None K -> is_Some (conds K !! c) -> (forall l, cl = Some l -> is_Some (locks K !! l)) ->
  exists K', Wait c cl K = Ret K' /\ ok K' /\ fifo (woken_by_Wait c cl K) K K'.
Proof.
  intros Hm [Q HQ] Hcl. destruct (enter_mid None K (AtWait c) Hm) as (K1 & T & He & Hm1 & HT & HK1); [done|].
  unfold Wait. rewrite He. cbn [bind].
  assert (readyList K1 = readyList K) as Hrd by (by rewrite HK1). assert (conds K1 = conds K) as Hcd by (by rewrite HK1).
  assert (intLevel K1 = IntOff) as Hlv by (by rewrite HK1). assert (locks K1 = locks K) as Hlk by (by rewrite HK1).
  assert (forall K2, mid None K2 -> readyList K2 = readyList K1 -> exists K', Ret K2 = Ret K' /\ ok K' /\ fifo [] K K') as Hret.
  { intros K2 Hm2 Hr2. exists K2. split; [done|]. split; [by apply mid_ok|]. apply mid_fifo; [done | congruence]. }
  unfold woken_by_Wait. destruct cl as [l|]; [|by apply Hret]. unfold find. rewrite Hcd, HQ. cbn [bind].
  destruct (bool_decide (waitingLock Q = None) || bool_decide (waitingLock Q = Some l)) eqn:Hw; [|by apply Hret].
  destruct (Release_body_mid K1 l Hm1) as (K2 & HR & Hm2 & Hk & Hcd2 & Hl2); [rewrite Hlk; by apply Hcl|].
  rewrite (Release_body_put_cond K1 K2 l c _ HR). cbn [bind].
  destruct (mid_thread _ _ Hm2) as (T2 & HT2 & Hr2 & Hi2 & Hok2).
  assert (currentThread K2 = currentThread K1) as Hcur by apply Hk.
  set (Q' := mkCond (Some l) (Seq.Append (currentThread K1) (c_queue Q))).
  destruct (parked_thread (queue K2) T2 (InWait c l) (WCond c) Hok2 Hi2 eq_refl) as (Hok' & Hw' & Hpc').
  { cbn. rewrite Hcd2, Hcd, HQ. split; [by eexists|]. destruct Hl2 as [L ->]. by eexists. }
  destruct (park_ok K2 (put_cond c Q' K2) T2 (InWait c l)) as (K' & HS & Hok & Hfi); try done.
  - cbn. by rewrite (k_level _ _ _ Hk).
  - destruct (m_base _ _ Hm2) as [Hc Hs Hl Hh Hd]. eapply (park_base None K2 _ (WCond c) (c_queue Q) T2); try done.
    + cbn. by rewrite Hcd2, Hcd, HQ.
    + intros w'. unfold Q'. rewrite <- Hcur. by rewrite queue_put_cond.
    + intros c' Q1 HQ1. cbn in HQ1. apply lookup_insert_Some in HQ1 as [[<- <-]|[Hne HQ1]]; [|by apply Hd].
      cbn. split; [split; [done|]; intros E; by apply app_eq_nil in E as [_ ?]|].
      intros t' T' l' HT' Hb' Hp'. assert (conds K2 !! c = Some Q) as HQ2 by (by rewrite Hcd2, Hcd).
      destruct (Hd c Q HQ2) as [Hemp Hall]. specialize (Hall t' T' l' HT' Hb' Hp'). rewrite Hall in Hw.
      apply orb_true_iff in Hw as [Hw%bool_decide_eq_true | Hw%bool_decide_eq_true]; congruence.
    + intros c' Q1 l' HQ1 Hp1. rewrite Hpc' in Hp1. injection Hp1 as <- <-. cbn in HQ1.
      rewrite lookup_insert_eq in HQ1. by injection HQ1 as <-.
  - exists K'. split; [exact HS|]. split; [done|]. eapply fifo_known in Hfi; [|exact Hk]. rewrite app_nil_r in Hfi.
    assert (woken_by_Release l K1 = woken_by_Release l K) as Hwr by (unfold woken_by_Release; by rewrite HK1).
    rewrite Hwr in Hfi. unfold fifo in *. by rewrite <- Hrd.
Qed.

Lemma Signal_body_mid K c (cl : option id) :
  mid None K -> is_Some (conds K !! c) ->
  exists K', Signal_body c cl K = Ret K' /\ mid None K' /\ stays_known (woken_by_Signal c cl K) K K'.
Proof.
  intros Hm [Q HQ]. assert (exists K', Ret K = Ret K' /\ mid None K' /\ stays_known [] K K') as Hret.
  { exists K. split; [done|]. split; [done | apply known_refl]. }
  unfold Signal_body, woken_by_Signal. destruct cl as [l|]; [|done]. unfold find. rewrite HQ. cbn [bind]. unfold Seq.Remove.
  destruct (c_queue Q) as [|[k t] q] eqn:Hq; [by case_bool_decide|]. cbn. case_bool_decide as Hw; [|done].
  destruct (wake_facts None K (WCond c) k t q (m_base _ _ Hm)) as (W & HW & Hbl & Hpc & Hcore & Hkeep & Hkeep').
  { cbn. by rewrite HQ, <- Hq. }
  apply waits_cond in Hpc as [l0 Hpc]. unfold ReadyToRun, find. rewrite HW. cbn [bind].
  set (Q' := mkCond (if Seq.IsEmpty q then None else waitingLock Q) q).
  assert (stays_known [t] K (put_cond c Q' (set_ready (Seq.Append t (readyList K)) (put_thread t (setStatus READY W) K)))) as Hk.
  { split; cbn; eauto using items_snoc. }
  eexists. split; [reflexivity|]. split; [|exact Hk]. eapply known_mid; [exact Hm | | exact Hk].
  destruct (m_base _ _ Hm) as [Hc Hs Hl Hh Hd]. split; cbn; try done.
  - eapply core_cond; [|done]. exact Hcore.
  - eapply sems_ok_upd; [done..|]. intros s. unfold is_woken. by rewrite Hbl.
  - apply holds_ok_upd; [done|]. intros l1 old _. by rewrite pc_status, Hpc.
  - intros c1 Q1 HQ1. apply lookup_insert_Some in HQ1 as [[<- <-]|[Hne HQ1]].
    + destruct (Hd c Q HQ) as [_ Hall]. cbn. split; [destruct q; cbn; [done|]; by rewrite Hw|].
      intros t1 T1 l1 HT1 Hb1 Hp1. assert (t1 ∈ Seq.items q) as Hin.
      { apply (c_queues _ _ _ _ _ Hcore (WCond c) q); [by rewrite fn_lookup_insert|]. exists T1. split; [done|].
        unfold waiting. by rewrite Hb1, Hp1. }
      apply lookup_insert_Some in HT1 as [[<- <-]|[_ HT1]]; [done|].
      destruct q; [by apply not_elem_of_nil in Hin|]. cbn. eauto.
    + apply (conds_ok_upd (threads K) (conds K)); done.
Qed.

(** A call whose body does not switch. *)
Lemma enter_then made K x (body : Kernel M -> C (Kernel M)) :
  mid None K -> (forall l, x <> AtAcquire l) ->
  (forall K1, mid None K1 -> currentThread K1 = currentThread K -> sems K1 = sems K -> locks K1 = locks K -> conds K1 = conds K ->
     exists K2, body K1 = Ret K2 /\ mid None K2 /\ stays_known made K1 K2) ->
  exists K', (let! K1 := enter x K in body K1) = Ret K' /\ ok K' /\ fifo made K K'.
Proof.
  intros Hm Hx Hbody. destruct (enter_mid None K x Hm Hx) as (K1 & T & -> & Hm1 & _ & HK1). cbn [bind].
  destruct (Hbody K1 Hm1) as (K2 & -> & Hm2 & Hk); [by rewrite HK1..|].
  destruct (mid_result made K1 K2 Hm2 Hk) as [Hok Hfi]. exists K2. split; [done|]. split; [done|].
  unfold fifo in *. assert (readyList K1 = readyList K) as <- by (by rewrite HK1). done.
Qed.

Lemma V_ok K s : mid None K -> is_Some (sems K !! s) -> exists K', V s K = Ret K' /\ ok K' /\ fifo (woken_by_V s K) K K'.
Proof.
  intros Hm Hs. apply (enter_then _ K (AtV s)); [done | done |]. intros K1 Hm1 _ Es _ _.
  destruct (V_body_base None K1 s (m_base _ _ Hm1)) as (K2 & HV & Hb & Hk & _); [by rewrite Es|].
  unfold woken_by_V, sleepers in *. rewrite Es in Hk. exists K2. split; [done|]. split; [by eapply known_mid | done].
Qed.

Lemma Release_ok K l : mid None K -> is_Some (locks K !! l) -> exists K', Release l K = Ret K' /\ ok K' /\ fifo (woken_by_Release l K) K K'.
Proof.
  intros Hm Hl. apply (enter_then _ K (AtRelease l)); [done | done |]. intros K1 Hm1 Ec _ El _.
  destruct (Release_body_mid K1 l Hm1) as (K2 & HR & Hm2 & Hk & _); [by rewrite El|].
  unfold woken_by_Release in *. rewrite El, Ec in Hk. eauto.
Qed.

Lemma Signal_ok K c cl : mid None K -> is_Some (conds K !! c) -> exists K', Signal c cl K = Ret K' /\ ok K' /\ fifo (woken_by_Signal c cl K) K K'.
Proof.
  intros Hm Hc. apply (enter_then _ K (AtSignal c)); [done | done |]. intros K1 Hm1 _ _ _ Ec.
  assert (woken_by_Signal c cl K = woken_by_Signal c cl K1) as -> by (unfold woken_by_Signal; by rewrite Ec).
  apply Signal_body_mid; [done | by rewrite Ec].
Qed.

Lemma P_ok K s : mid None K -> is_Some (sems K !! s) -> exists K', P s K = Ret K' /\ ok K' /\ fifo [] K K'.
Proof.
  intros Hm Hs. destruct (enter_mid None K (AtP s) Hm) as (K1 & T & He & Hm1 & _ & HK1); [done|].
  unfold P. rewrite He. cbn [bind]. destruct (P_test_ok None K1 s Hm1) as (K' & HP & Hok & Hfi); [by rewrite HK1 | by rewrite HK1 | by left |].
  exists K'. split; [done|]. split; [done|]. unfold fifo in *.
  assert (readyList K1 = readyList K) as <- by (by rewrite HK1). done.
Qed.

Lemma push_broadcast K c l : mid None K -> is_Some (conds K !! c) ->
  exists K1, push_current (InBroadcast c l) K = Ret K1 /\ mid None K1 /\ readyList K1 = readyList K /\ conds K1 = conds K.
Proof.
  intros Hm Hc. destruct (push_mid None K (InBroadcast c l) Hm) as (T & HT & _ & _ & Hp & Hm1); [done | | eauto].
  destruct Hc as [Q HQ]. cbn. by rewrite HQ.
Qed.

Lemma Broadcast_ok K c cl : mid None K -> is_Some (conds K !! c) ->
  exists K', Broadcast c cl K = Ret K' /\ ok K' /\ fifo [] K K'.
Proof.
  intros Hm [Q HQ]. assert (forall K1, mid None K1 -> readyList K1 = readyList K ->
    exists K', enter (AtBroadcast c) K1 = Ret K' /\ ok K' /\ fifo [] K K') as Henter.
  { intros K1 Hm1 Hrd. destruct (enter_mid None K1 (AtBroadcast c) Hm1) as (K2 & T & He & Hm2 & _ & HK2); [done|].
    exists K2. split; [done|]. split; [by apply mid_ok|]. apply mid_fifo; [done | by rewrite HK2]. }
  unfold Broadcast. destruct cl as [l|]; [|by apply Henter]. unfold find. rewrite HQ. cbn [bind].
  case_bool_decide; [|by apply Henter].
  destruct (push_broadcast K c l Hm) as (K1 & -> & Hm1 & Hrd & _); [by eexists|]. cbn [bind]. by apply Henter.
Qed.

Lemma Broadcast_test_ok K c l : mid None K -> is_Some (conds K !! c) ->
  exists K', Broadcast_test c l K = Ret K' /\ ok K' /\ fifo (woken_by_Signal c (Some l) K) K K'.
Proof.
  intros Hm [Q HQ]. unfold Broadcast_test, find. rewrite HQ. cbn [bind]. destruct (Seq.IsEmpty (c_queue Q)) eqn:He.
  - exists K. split; [done|]. unfold woken_by_Signal. rewrite HQ. destruct (c_queue Q); [|done]. cbn.
    replace (if bool_decide (waitingLock Q = Some l) then [] else []) with (@nil id) by (by case_bool_decide).
    apply mid_result; [done | apply known_refl].
  - destruct (push_broadcast K c l Hm) as (K1 & -> & Hm1 & Hrd & Hcd); [by eexists|]. cbn [bind].
    destruct (Signal_ok K1 c (Some l) Hm1) as (K' & HS & Hok & Hfi); [rewrite Hcd; by eexists|].
    exists K'. split; [done|]. split; [done|]. unfold woken_by_Signal, fifo in *. by rewrite <- Hrd, <- Hcd.
Qed.

Lemma SetLevel_ok K now tk :
  mid None K -> Forall (fun s => is_Some (sems K !! s)) (fired tk) ->
  exists K', SetLevel now tk K = Ret K' /\ ok K' /\ fifo (woken_by_SetLevel now tk K) K K'.
Proof.
  intros Hm Hf. unfold SetLevel, woken_by_SetLevel. destruct (decide _) as [_|_].
  - destruct (handlers_base None (fired tk) K (m_base _ _ Hm) Hf) as (K1 & -> & Hb1 & Hk1). cbn [bind].
    assert (mid None (set_intLevel IntOn K1)) as Hm1 by (apply mid_level; by eapply known_mid).
    destruct (timer tk).
    + destruct (Yield_ok _ Hm1) as (K' & HY & Hok & Hfi). exists K'. split; [done|]. split; [done|].
      eapply fifo_known; [exact Hk1|]. unfold gives_way in *. cbn [readyList set_intLevel currentThread] in *.
      by rewrite app_nil_r, (k_ready _ _ _ Hk1), (k_cur _ _ _ Hk1) in Hfi.
    + eexists. split; [reflexivity|]. split; [by apply mid_ok|]. eapply fifo_known; [exact Hk1|]. by apply mid_fifo.
  - eexists. split; [reflexivity|]. apply (mid_level _ now) in Hm. split; [by apply mid_ok|]. by apply mid_fifo.
Qed.

Lemma Finish_ok K : mid None K -> exists K', Finish K = Ret K' /\ ok K' /\ fifo [] K K'.
Proof.
  intros Hm. destruct (mid_thread _ _ Hm) as (T & HT & Hr & Hi & Hok). unfold Finish, push_current, find.
  cbn [threads set_intLevel currentThread]. rewrite HT. cbn [bind].
  set (T' := setStatus BLOCKED (push InFinish T)).
  assert (pc T' = Some InFinish /\ rest T' = frames T) as [Hp Hrest] by (by apply pc_push).
  assert (thread_ok (queue K) T') as Hok'.
  { destruct Hok as [H1 H2 H3 H4]. split; try done; first [by rewrite Hrest | (cbn; by constructor) | by unfold pc_ok; rewrite Hp]. }
  eapply (Sleep_ok K _ (push InFinish T)); [done | cbn; by rewrite lookup_insert_eq | done | | by exists InFinish, (frames T)].
  destruct (m_base _ _ Hm) as [Hc Hs Hl Hh Hd].
  assert (base None (set_doomed (Some (currentThread K)) (put_thread (currentThread K) T' K))) as Hb.
  { split; cbn; try done.
    - eapply core_ext; [intros w; by instantiate (1 := queue K); destruct w|]. by eapply core_finish.
    - eapply sems_ok_upd; [done..|]. intros s. by rewrite inert_woken.
    - apply holds_ok_upd; [done|]. intros. by rewrite Hp in *.
    - apply conds_ok_upd; [done|]. intros. by rewrite Hp in *. }
  apply (base_level _ IntOff) in Hb.
  unfold put_thread, set_threads, set_intLevel, set_doomed in *. cbn in *. by rewrite insert_insert_eq.
Qed.

(** A thread changes in a way that does not matter to anybody. *)
Lemma base_put extra K t T T' :
  base extra K -> threads K !! t = Some T -> t_status T' = t_status T -> waiting T' = waiting T ->
  thread_ok (queue K) T' -> (t <> currentThread K -> switched_out T') -> pc T <> Some InFinish \/ pc T' = pc T ->
  (forall s, is_woken s T = true -> is_woken s T' = true) ->
  (forall l old, pc T' = Some (Reset (AtAcquire l) old) -> pc T = pc T') ->
  (forall c l, pc T' = Some (InWait c l) -> pc T = pc T') ->
  base extra (put_thread t T' K).
Proof.
  intros [Hc Hs Hl Hh Hd] HT Hst Hw Hok Hso Hfin Hwk Ha Hwt. split; cbn; try done.
  - eapply core_ext; [intros w; by instantiate (1 := queue K); destruct w|]. eapply core_upd; try done.
    intros Hf. destruct Hfin; congruence.
  - by eapply sems_ok_upd.
  - apply holds_ok_upd; [done|]. intros l old Hn Hp. apply (Hh t T l old HT); [congruence|]. by rewrite (Ha l old Hp).
  - apply conds_ok_upd; [done|]. intros c Q l HQ Hb Hp. destruct (Hd c Q HQ) as [_ Hall].
    apply (Hall t T l HT); [congruence|]. by rewrite (Hwt c l Hp).
Qed.

Lemma SetSpace_mid K t sp T : mid None K -> threads K !! t = Some T -> mid None (put_thread t (set_space (Some sp) T) K).
Proof.
  intros Hm HT. pose proof (m_base _ _ Hm) as Hb. destruct (m_run _ _ Hm) as (Hid & R & HR & Hr & Hi).
  pose proof (c_threads _ _ _ _ _ (b_core _ _ Hb) t T HT) as Hok. split.
  - eapply base_put; try done; [by destruct Hok | | by right].
    intros Hne. by apply (c_others _ _ _ _ _ (b_core _ _ Hb) t T HT).
  - split; [done|]. cbn. destruct (decide (t = currentThread K)) as [->|].
    + rewrite lookup_insert_eq. assert (R = T) as -> by congruence. by eexists.
    + rewrite lookup_insert_ne by done. by exists R.
Qed.

Lemma Fork_ok K t T :
  mid None K -> threads K !! t = Some T -> t_status T = JUST_CREATED -> frames T = [] ->
  exists K', Fork t K = Ret K' /\ ok K' /\ fifo [t] K K'.
Proof.
  intros Hm HT Hst Hfr. pose proof (m_base _ _ Hm) as Hb. destruct (m_run _ _ Hm) as (Hid & R & HR & Hr & Hi).
  assert (t <> currentThread K) as Hne by (intros ->; congruence).
  set (T1 := set_stack (Some STACK_FENCEPOST) (set_frames [InRoot] T)).
  assert (mid None (put_thread t T1 K)) as Hm1.
  { split; [|split; [done|]; cbn; rewrite lookup_insert_ne by done; by exists R].
    eapply base_put; try done.
    - cbn. unfold waiting. cbn. by rewrite Hst.
    - split; cbn; try done; [by right | by constructor|]. unfold pc_ok. cbn. split; [done|]. congruence.
    - intros _. right; by left.
    - left. unfold pc. by rewrite Hfr.
    - intros s. unfold is_woken, pc. rewrite Hfr. cbn. by rewrite andb_false_r. }
  destruct (enter_mid None _ (AtFork t) Hm1) as (K2 & R2 & He & Hm2 & HR2 & HK2); [done|].
  unfold Fork. unfold find at 1. rewrite HT. cbn [bind]. fold T1. rewrite He. cbn [bind].
  assert (threads K2 !! t = Some T1) as HT2.
  { rewrite HK2. cbn. rewrite lookup_insert_ne by done. by rewrite lookup_insert_eq. }
  unfold ReadyToRun, find. rewrite HT2. cbn [bind]. eexists. split; [reflexivity|].
  set (K3 := set_ready _ _). assert (mid None K3) as Hm3.
  { destruct (m_base _ _ Hm2) as [Hc Hs Hl Hh Hd]. destruct (mid_thread _ _ Hm2) as (R3 & HR3 & Hr3 & Hi3 & _).
    assert (currentThread K2 = currentThread K) as Hcur by (by rewrite HK2).
    destruct (objects_upd None K2 t T1 (setStatus READY T1) Hs Hh Hd HT2) as (Hs2 & Hh2 & Hd2); [done | done | cbn; congruence |].
    split; [split; try done; cbn|].
    - eapply core_ext; [intros w; by instantiate (1 := queue K2); destruct w|].
      eapply core_ready; try done; cbn; [unfold waiting; cbn; by rewrite Hst | congruence | congruence].
    - split; [exact (proj1 (m_run _ _ Hm2))|]. exists R3. cbn. by rewrite lookup_insert_ne by congruence. }
  split; [by apply mid_ok|]. unfold fifo. rewrite (mid_dispatched _ _ Hm3). unfold K3. cbn [app readyList set_ready].
  by rewrite items_snoc, HK2.
Qed.

Lemma new_queue_mid K K' w :
  mid None K -> queue K w = None -> currentThread K' = currentThread K -> idle K' = idle K -> threads K' = threads K ->
  readyList K' = readyList K -> threadToBeDestroyed K' = threadToBeDestroyed K ->
  (forall w', queue K' w' = (<[w := Some []]> (queue K)) w') -> sems_ok None (threads K) (sems K') ->
  locks_ok (locks K') -> holds_ok (threads K) (locks K') -> conds_ok (threads K) (conds K') -> mid None K'.
Proof.
  intros Hm Hq E1 E2 E3 E4 E5 Equ Hs Hl Hh Hd. destruct (m_base _ _ Hm) as [Hc _ _ _ _]. split.
  - split; rewrite ?E1, ?E3, ?E4, ?E5; try done. eapply core_ext; [|eapply core_new_queue; [exact Hc | exact Hq]]. done.
  - rewrite E1, E2, E3. exact (m_run _ _ Hm).
Qed.

Lemma no_waiters K w t T : base None K -> queue K w = None -> threads K !! t = Some T -> waiting T <> Some w.
Proof.
  intros Hb Hq HT Hw. destruct (waiting_valid (queue K) T w (c_threads _ _ _ _ _ (b_core _ _ Hb) t T HT) Hw). congruence.
Qed.

Lemma NewSemaphore_mid K s v : mid None K -> sems K !! s = None -> 0 <= v -> mid None (put_sem s (new_Semaphore v) K).
Proof.
  intros Hm Hn Hv. destruct (m_base _ _ Hm) as [Hc Hs Hl Hh Hd].
  eapply (new_queue_mid K _ (WSem s)); try done; [cbn; by rewrite Hn | intros w; by rewrite queue_put_sem |].
  intros s' E' HE'. cbn in HE'. apply lookup_insert_Some in HE' as [[<- <-]|[_ HE']]; [|by apply Hs]. by split.
Qed.

Lemma NewLock_mid K l : mid None K -> locks K !! l = None -> mid None (put_lock l new_Lock K).
Proof.
  intros Hm Hn. destruct (m_base _ _ Hm) as [Hc Hs Hl Hh Hd].
  eapply (new_queue_mid K _ (WLock l)); try done; [cbn; by rewrite Hn | intros w; by rewrite queue_put_lock | |].
  - by apply map_Forall_insert_2.
  - intros t T l' old HT Hb Hp. destruct (Hh t T l' old HT Hb Hp) as (L & HL & Ho). cbn. exists L.
    by rewrite lookup_insert_ne by congruence.
Qed.

Lemma NewCondition_mid K c : mid None K -> conds K !! c = None -> mid None (put_cond c new_Condition K).
Proof.
  intros Hm Hn. destruct (m_base _ _ Hm) as [Hc Hs Hl Hh Hd]. assert (queue K (WCond c) = None) as Hq by (cbn; by rewrite Hn).
  eapply (new_queue_mid K _ (WCond c)); try done; [intros w; by rewrite queue_put_cond |].
  intros c' Q HQ. cbn in HQ. apply lookup_insert_Some in HQ as [[<- <-]|[_ HQ]]; [|by apply Hd]. split; [done|].
  intros t T l HT Hb Hp. exfalso. apply (no_waiters K (WCond c) t T (m_base _ _ Hm) Hq HT). unfold waiting. by rewrite Hb, Hp.
Qed.

Lemma NewThread_mid K t mb g : mid None K -> threads K !! t = None -> mid None (put_thread t (new_Thread mb g) K).
Proof.
  intros Hm Hn. destruct (m_base _ _ Hm) as [Hc Hs Hl Hh Hd]. destruct (m_run _ _ Hm) as (Hid & R & HR & Hr & Hi). split.
  - split; cbn; try done.
    + eapply core_ext; [intros w; by instantiate (1 := queue K); destruct w|]. by apply core_new_thread.
    + intros s E HE. rewrite woken_new by done. by apply Hs.
    + by apply holds_ok_upd.
    + by apply conds_ok_upd.
  - split; [done|]. exists R. cbn. by rewrite lookup_insert_ne by congruence.
Qed.

(** ** Events *)

Definition popped (f : frame) : option id := match f with InP s => Some s | _ => None end.

Lemma pop_mid K T f fs :
  ok K -> idle K = false -> threads K !! currentThread K = Some T -> frames T = f :: fs -> f <> InRun ->
  mid (popped f) (put_thread (currentThread K) (set_frames fs T) K) /\ (popped f <> None -> intLevel K = IntOff) /\
  f <> InFinish /\ valid (queue K) f.
Proof.
  intros [[Hc Hs Hl Hh Hd] (T0 & HT0 & Hr & Hlv & _)] Hid HT Hf Hn. rewrite Hid in Hr.
  assert (T0 = T) as -> by congruence. destruct (c_threads _ _ _ _ _ Hc _ _ HT) as [H1 H2 H3 H4].
  assert (pc T = Some f /\ rest T = fs) as [Hp Hrest] by (unfold pc, rest; rewrite Hf; by destruct f).
  rewrite Hrest in H2. rewrite Hf in H3, Hlv. apply Forall_cons in H3 as [Hv H3].
  set (T' := set_frames fs T). assert (frames T' = fs /\ t_status T' = RUNNING) as [Hf' Hr'] by done.
  assert (thread_ok (queue K) T') as Hok'.
  { split; try done.
    - unfold rest. rewrite Hf'. destruct fs as [|g fs']; [done|]. apply Forall_cons in H2 as [Hg H2]. by destruct g.
    - unfold pc_ok, pc. rewrite Hf', Hr'. destruct fs as [|g fs']; [by left|].
      apply Forall_cons in H2 as [Hg H2]. by destruct g. }
  split; [|split; [|split; [|done]]].
  - split; [|split; [done|]; exists T'; cbn; by rewrite lookup_insert_eq]. split; cbn; try done.
    + eapply core_ext; [intros w; by instantiate (1 := queue K); destruct w|]. eapply core_upd; try done; [unfold waiting; by rewrite Hr, Hr'|].
      intros E. unfold pc_ok in H4. rewrite E in H4. congruence.
    + intros s E HE. destruct (Hs s E HE) as [? Hle]. split; [done|]. intros Hq. specialize (Hle Hq).
      pose proof (woken_insert (threads K) _ T T' s HT) as Hcnt. rewrite (inert_woken s T') in Hcnt by done.
      assert (b2n (is_woken s T) = b2n (bool_decide (popped f = Some s))) as Hw.
      { unfold is_woken. rewrite Hr, Hp. cbn. f_equal. apply bool_decide_ext. destruct f; cbn; naive_solver. }
      rewrite Hw in Hcnt. rewrite (bool_decide_eq_false_2 (None = Some s)) in Hle by done. rewrite Hcnt. exact Hle.
    + apply holds_ok_upd; [done|]. intros l old _ Hp'. by apply (pc_inert T' _ H2) in Hp'.
    + apply conds_ok_upd; [done|]. intros. congruence.
  - intros Hpop. apply Hlv. by destruct f.
  - intros ->. unfold pc_ok in H4. rewrite Hp in H4. congruence.
Qed.

Lemma reap K d : base None K -> threadToBeDestroyed K = Some d -> t_status <$> threads K !! currentThread K = Some RUNNING ->
  d <> currentThread K /\ base None (set_doomed None (set_threads (delete d (threads K)) K)).
Proof.
  intros [Hc Hs Hl Hh Hd] Hdm Hcur. destruct (c_doomed _ _ _ _ _ Hc d Hdm) as (D & HD & Hp).
  assert (t_status D = BLOCKED) as Hb.
  { pose proof (to_pc _ _ (c_threads _ _ _ _ _ Hc d D HD)) as H. unfold pc_ok in H. by rewrite Hp in H. }
  split; [intros ->; rewrite HD in Hcur; cbn in Hcur; congruence|]. split; cbn; try done.
  - eapply core_ext; [intros w; by instantiate (1 := queue K); destruct w|]. apply core_delete. by rewrite <- Hdm.
  - intros s E HE. rewrite (woken_delete _ _ D) by (try done; unfold is_woken; by rewrite Hb). by apply Hs.
  - intros t T l old [_ HT]%lookup_delete_Some. exact (Hh t T l old HT).
  - intros c Q HQ. destruct (Hd c Q HQ) as [? Hall]. split; [done|].
    intros t T l [_ HT]%lookup_delete_Some. exact (Hall t T l HT).
Qed.

Lemma Run_resume_ok K T fs :
  ok K -> idle K = false -> threads K !! currentThread K = Some T -> frames T = InRun :: fs ->
  exists K', Run_resume (put_thread (currentThread K) (set_frames fs T) K) = Ret K' /\ ok K' /\ fifo [] K K' /\
    threads K' !! currentThread K = Some (set_frames fs T) /\ currentThread K' = currentThread K /\
    (space T <> None -> registers K' = userRegisters T).
Proof.
  intros [Hb (T0 & HT0 & Hr & Hlv & _)] Hid HT Hf. rewrite Hid in Hr. assert (T0 = T) as -> by congruence.
  specialize (Hlv ltac:(by rewrite Hf)). set (T' := set_frames fs T).
  pose proof (c_threads _ _ _ _ _ (b_core _ _ Hb) _ _ HT) as [H1 H2 H3 H4].
  assert (head fs = pc T /\ tail fs = rest T) as [Hp Hrest] by (unfold pc, rest; by rewrite Hf).
  assert (head fs <> Some InRun /\ head fs <> Some InRoot) as [Hn1 Hn2].
  { rewrite Hp. unfold pc_ok in H4. split; intros E; rewrite E in H4; [done|]. rewrite Hf in H4. by destruct H4. }
  assert (pc T' = pc T /\ rest T' = rest T) as [Hp' Hrest'].
  { rewrite <- Hp, <- Hrest. unfold T', pc, rest. cbn. destruct fs as [|[] ?]; by cbn in *. }
  set (K1 := put_thread (currentThread K) T' K).
  assert (base None K1) as Hb1.
  { eapply base_put_cur; try done.
    - split; try done; first [by rewrite Hrest' | (rewrite Hf in H3; by apply Forall_cons in H3 as [_ ?]) | idtac].
      unfold pc_ok in *. rewrite Hp'. destruct (pc T) as [[]|]; try done.
    - intros s. unfold is_woken. by rewrite Hp'.
    - rewrite Hp'. intros l old Hq. apply (b_holds _ _ Hb _ T l old HT); [congruence | done]. }
  assert (threads K1 !! currentThread K1 = Some T') as HT1 by (cbn; by rewrite lookup_insert_eq).
  assert (exists K2, (match threadToBeDestroyed K1 with
      | Some d => let! _ := ASSERT (negb (bool_decide (d = currentThread K1))) in
                  Ret (set_doomed None (set_threads (delete d (threads K1)) K1))
      | None => Ret K1 end) = Ret K2 /\ base None K2 /\ idle K2 = false /\ currentThread K2 = currentThread K /\ intLevel K2 = IntOff /\
      readyList K2 = readyList K /\ threads K2 !! currentThread K = Some T') as (K2 & HK2 & Hb2 & Hid2 & Hc2 & Hl2 & Hr2 & HT2).
  { destruct (threadToBeDestroyed K1) as [d|] eqn:Hdm; [|by exists K1].
    destruct (reap K1 d Hb1 Hdm) as [Hne Hb2]; [rewrite HT1; cbn; congruence|].
    rewrite bool_decide_false by done. cbn [negb ASSERT bind]. eexists. split; [reflexivity|]. repeat (split; [done|]).
    cbn. by rewrite lookup_delete_ne by done. }
  unfold Run_resume. fold K1. rewrite HK2. cbn [bind]. rewrite Hc2. unfold find. rewrite HT2. cbn [bind].
  assert (forall r m, ok (set_user r m K2) /\ ok K2 /\ fifo [] K (set_user r m K2) /\ fifo [] K K2) as Hfinal.
  { intros r m. assert (dispatched K2 = [] /\ dispatched (set_user r m K2) = []) as [Hd1 Hd2].
    { unfold dispatched. cbn. rewrite Hc2, HT2. cbn. destruct fs as [|[] ?]; by cbn in *. }
    unfold fifo. rewrite Hd1, Hd2. cbn. rewrite Hr2.
    assert (exists T, threads K2 !! currentThread K2 = Some T /\ t_status T = RUNNING) as (T2 & ? & ?)
      by (exists T'; by rewrite Hc2).
    split; [split; [by apply base_user|] | split; [split; [done|]|]]; cbn; try (rewrite Hid2; by exists T2).
    by rewrite app_nil_r. }
  change (space T') with (space T). destruct (space T) as [sp|].
  - destruct (Hfinal (userRegisters T) (RestoreState sp (mmu K2))) as (? & _ & ? & _). eexists. split; [reflexivity|].
    split; [done|]. by split.
  - destruct (Hfinal [] (mmu K2)) as (_ & ? & _ & ?). exists K2. split; [done|]. by split.
Qed.

(** What a program may ask for: pointers to live objects, new objects at new
    addresses, a thread forked once. *)
Definition legal (o : op M) K : Prop :=
  match o with
  | ONewThread t _ _ => threads K !! t = None
  | OSetSpace t _ => is_Some (threads K !! t)
  | OFork t => exists T, threads K !! t = Some T /\ t_status T = JUST_CREATED /\ frames T = []
  | OYield | OFinish | OUser _ _ => True
  | ONewSemaphore s v => sems K !! s = None /\ 0 <= v
  | ONewLock l => locks K !! l = None
  | ONewCondition c => conds K !! c = None
  | OP s | OV s => is_Some (sems K !! s)
  | OAcquire l | ORelease l => is_Some (locks K !! l)
  | OWait c cl => is_Some (conds K !! c) /\ forall l, cl = Some l -> is_Some (locks K !! l)
  | OSignal c _ | OBroadcast c _ => is_Some (conds K !! c)
  end.

Definition in_client K : Prop := idle K = false /\ frames <$> threads K !! currentThread K = Some [].
Definition in_kernel K : Prop :=
  idle K = false /\ exists f fs, frames <$> threads K !! currentThread K = Some (f :: fs).

Definition can_happen (e : event M) K : Prop :=
  match e with
  | Call o => in_client K /\ legal o K
  | Step tk => in_kernel K /\ Forall (fun s => is_Some (sems K !! s)) (fired tk)
  | Wake fired => idle K = true /\ Forall (fun s => is_Some (sems K !! s)) fired
  end.

(** The threads that an event makes ready, in order. *)
Definition readied_by_call (o : op M) K : list id :=
  match o with
  | OFork t => [t]
  | OYield => gives_way [] K
  | OV s => woken_by_V s K
  | ORelease l => woken_by_Release l K
  | OWait c cl => woken_by_Wait c cl K
  | OSignal c cl => woken_by_Signal c cl K
  | _ => []
  end.

Definition readied (e : event M) K : list id :=
  match e, frames <$> threads K !! currentThread K with
  | Call o, _ => readied_by_call o K
  | Step tk, Some (InRoot :: _) => woken_by_SetLevel IntOn tk K
  | Step tk, Some (Reset _ old :: _) => woken_by_SetLevel old tk K
  | Step tk, Some (InBroadcast c l :: _) => woken_by_Signal c (Some l) K
  | Wake fired, _ => woken_by fired (sleepers K)
  | _, _ => []
  end.

Lemma call_ok o K : mid None K -> legal o K -> exists K', call o K = Ret K' /\ ok K' /\ fifo (readied_by_call o K) K K'.
Proof.
  intros Hm Hlg. assert (forall K', mid None K' -> readyList K' = readyList K -> exists K2, Ret K' = Ret K2 /\ ok K2 /\ fifo [] K K2) as Hret.
  { intros K' Hm' Hrd. exists K'. split; [done|]. split; [by apply mid_ok|]. by apply mid_fifo. }
  destruct o; cbn in Hlg; cbn [call].
  - by apply Hret, eq_refl; apply NewThread_mid.
  - destruct Hlg as [T HT]. unfold find. rewrite HT. cbn [bind]. by apply Hret; [apply SetSpace_mid|].
  - destruct Hlg as (T & ? & ? & ?). by eapply Fork_ok.
  - by apply Yield_ok.
  - by apply Finish_ok.
  - destruct Hlg. by apply Hret; [apply NewSemaphore_mid|].
  - by apply Hret; [apply NewLock_mid|].
  - by apply Hret; [apply NewCondition_mid|].
  - by apply P_ok.
  - by apply V_ok.
  - by apply Acquire_ok.
  - by apply Release_ok.
  - destruct Hlg. by apply Wait_ok.
  - by apply Signal_ok.
  - by apply Broadcast_ok.
  - apply Hret; [|done]. destruct Hm as [Hb Hr]. split; [by apply base_user | done].
Qed.

Lemma resume_ok K T f fs tk :
  ok K -> idle K = false -> threads K !! currentThread K = Some T -> frames T = f :: fs ->
  Forall (fun s => is_Some (sems K !! s)) (fired tk) ->
  exists K', resume f tk (put_thread (currentThread K) (set_frames fs T) K) = Ret K' /\ ok K' /\ fifo (readied (Step tk) K) K K'.
Proof.
  intros Hok Hid HT Hf Hfi. unfold readied. rewrite HT. cbn [fmap option_fmap option_map]. rewrite Hf. destruct (decide (f = InRun)) as [->|Hn].
  { destruct (Run_resume_ok K T fs Hok Hid HT Hf) as (K' & ? & ? & ? & _). eauto. }
  destruct (pop_mid K T f fs Hok Hid HT Hf Hn) as (Hm & Hlv & Hnf & Hv).
  set (Kp := put_thread _ _ _) in *. destruct f as [| | |x old|s|c l|c l]; try done; cbn [resume].
  - by apply (SetLevel_ok Kp).
  - by apply (SetLevel_ok Kp).
  - cbn in Hv. apply (P_test_ok (Some s) Kp); [done | | by apply Hlv | by right]. cbn. by destruct (sems K !! s); [|destruct Hv].
  - destruct Hv as [_ Hv]. apply (Acquire_ok Kp); [done|]. cbn in *. by destruct (locks K !! l); [|destruct Hv].
  - apply (Broadcast_test_ok Kp); [done|]. cbn in *. by destruct (conds K !! c); [|destruct Hv].
Qed.

Lemma exec_ok e K : ok K -> can_happen e K -> exists K', exec e K = Ret K' /\ ok K' /\ fifo (readied e K) K K'.
Proof.
  intros Hok Hh. destruct (ok_cur _ Hok) as (T & HT & Hst & Hlv & Hidle). unfold exec. unfold find at 1. rewrite HT. cbn [bind].
  destruct e as [o|tk|fi]; cbn in Hh.
  - destruct Hh as [[Hid Hf] Hlg]. rewrite HT in Hf. cbn in Hf. injection Hf as Hf. rewrite Hid, Hf. apply call_ok; [|done].
    split; [apply Hok|]. split; [done|]. exists T. rewrite Hid in Hst. rewrite Hf. by repeat split.
  - destruct Hh as [[Hid (f & fs & Hf)] Hfi]. rewrite HT in Hf. cbn in Hf. injection Hf as Hf. rewrite Hid, Hf. by apply resume_ok.
  - destruct Hh as [Hid Hfi]. rewrite Hid in Hst. destruct (Hidle Hid) as (Hrd & Hoff & f & fs & Hf & Hn1 & Hn2).
    destruct (handlers_base None fi K (ok_base _ Hok) Hfi) as (K1 & HK1 & Hb1 & Hk).
    destruct (k_frames _ _ _ Hk _ _ HT) as (T1 & HT1 & Hf1 & Hst1). rewrite <- (k_cur _ _ _ Hk) in HT1.
    destruct (Sleep_test_ok K1 T1 Hb1) as (K' & HS & Hok' & Hfi').
    + split; [done|]. split; [destruct Hst1; congruence|]. exists f, fs. by rewrite Hf1.
    + by rewrite (k_level _ _ _ Hk).
    + intros Hrd1. destruct Hst1 as [?|Hready]; [congruence|]. exfalso.
      assert (currentThread K1 ∈ Seq.items (readyList K1)) as Hin by (apply (c_ready _ _ _ _ _ (b_core _ _ Hb1)); eauto).
      rewrite Hrd1 in Hin. by apply not_elem_of_nil in Hin.
    + exists K'. split; [by rewrite Hid, HK1|]. split; [done|]. cbn [readied]. rewrite <- (app_nil_r (woken_by _ _)). by eapply fifo_known.
Qed.
End Invariant.

(** ** What a call does to the other threads and to the locks *)

Section Frames.
Context {M : Type} `{!Spaces M}.
Implicit Types (K : Kernel M) (T : Thread) (t l s c : id) (x : option id).

(** The same thread, elsewhere in its calls if it is the current one. *)
Definition same_thread (moved : bool) (T T' : option Thread) : Prop :=
  match T, T' with
  | Some T, Some T' => userRegisters T' = userRegisters T /\ space T' = space T /\ (moved = false -> frames T' = frames T)
  | None, None => True
  | _, _ => False
  end.

(** No switch: the other threads stay where they are; [x] is the lock the call is
    about. *)
Record quiet x K K' : Prop := {
  u_cur : currentThread K' = currentThread K;
  u_regs : registers K' = registers K;
  u_locks : forall l, x <> Some l -> locks K' !! l = locks K !! l;
  u_thread : forall t, same_thread (bool_decide (t = currentThread K)) (threads K !! t) (threads K' !! t)
}.

(** The registers of a thread that is switched out. *)
Definition saved_as t (r : list Z) K : Prop :=
  forall T fs, threads K !! t = Some T -> frames T = InRun :: fs -> userRegisters T = r.

Definition has_space t K : Prop := exists T sp, threads K !! t = Some T /\ space T = Some sp.

(** A call, with or without a switch at its end. *)
Record ends x K K' : Prop := {
  e_locks : forall l, x <> Some l -> locks K' !! l = locks K !! l;
  e_keeps : forall t r, t <> currentThread K -> saved_as t r K -> saved_as t r K';
  e_saves : currentThread K' <> currentThread K -> has_space (currentThread K) K ->
    saved_as (currentThread K) (registers K) K'
}.

Lemma same_thread_refl b o : same_thread b o o.
Proof. by destruct o. Qed.

Lemma quiet_refl x K : quiet x K K.
Proof. split; try done. intros t. apply same_thread_refl. Qed.

Lemma quiet_trans x K1 K2 K3 : quiet x K1 K2 -> quiet x K2 K3 -> quiet x K1 K3.
Proof.
  intros [A1 A2 A3 A4] [B1 B2 B3 B4]. split; [congruence | congruence | |].
  - intros l Hl. by rewrite B3, A3.
  - intros t. specialize (A4 t). specialize (B4 t). rewrite A1 in B4.
    destruct (threads K1 !! t), (threads K2 !! t), (threads K3 !! t); cbn in *; try tauto.
    destruct A4 as (E1 & E2 & E3), B4 as (F1 & F2 & F3). split; [congruence|]. split; [congruence|].
    intros Hne. by rewrite F3, E3.
Qed.

Lemma quiet_ends x K1 K2 K3 : quiet x K1 K2 -> ends x K2 K3 -> ends x K1 K3.
Proof.
  intros [A1 A2 A3 A4] [B1 B2 B3]. split.
  - intros l Hl. by rewrite B1, A3.
  - intros t r Hne Hs. apply B2; [congruence|]. intros T2 fs H2 Hf. specialize (A4 t).
    rewrite H2, bool_decide_eq_false_2 in A4 by done. destruct (threads K1 !! t) as [T1|] eqn:H1; [|done].
    destruct A4 as (-> & _ & F). apply (Hs T1 fs H1). by rewrite <- F.
  - intros Hne (T & sp & HT & Hsp). rewrite <- A1, <- A2. apply B3; [congruence|]. specialize (A4 (currentThread K1)).
    rewrite HT in A4. rewrite A1. destruct (threads K2 !! currentThread K1) as [T2|] eqn:H2; [|done].
    exists T2, sp. split; [done|]. destruct A4 as (_ & -> & _). done.
Qed.

Lemma ends_quiet x K K' : quiet x K K' -> ends x K K'.
Proof.
  intros [A1 A2 A3 A4]. split; [done | |by intros []].
  intros t r Hne Hs T' fs H2 Hf. specialize (A4 t).
  rewrite H2, bool_decide_eq_false_2 in A4 by done. destruct (threads K !! t) as [T1|] eqn:H1; [|done].
  destruct A4 as (-> & _ & F). apply (Hs T1 fs H1). by rewrite <- F.
Qed.

(** A change of one thread that keeps its registers. *)
Lemma quiet_put x K t T T' : threads K !! t = Some T -> userRegisters T' = userRegisters T -> space T' = space T ->
  (t <> currentThread K -> frames T' = frames T) -> quiet x K (put_thread t T' K).
Proof.
  intros HT H1 H2 H3. split; try done. intros t1. cbn. destruct (decide (t = t1)) as [<-|].
  - rewrite HT, lookup_insert_eq. cbn. split; [done|]. split; [done|]. intros Hb%bool_decide_eq_false. by apply H3.
  - rewrite lookup_insert_ne by done. apply same_thread_refl.
Qed.

Lemma quiet_fields x K K' : currentThread K' = currentThread K -> registers K' = registers K ->
  locks K' = locks K -> threads K' = threads K -> quiet x K K'.
Proof. intros E1 E2 E3 E4. split; try done; [by rewrite E3|]. intros t. rewrite E4. apply same_thread_refl. Qed.

Lemma find_Ret {A} (m : gmap id A) (p : id) (a : A) : find m p = Ret a <-> m !! p = Some a.
Proof. unfold find. destruct (m !! p); naive_solver. Qed.

Lemma push_quiet x f K K' : push_current f K = Ret K' -> quiet x K K'.
Proof.
  intros (T & HT%find_Ret & [= <-])%bind_Ret. by eapply quiet_put.
Qed.

Lemma enter_quiet x y K K' : enter y K = Ret K' -> quiet x K K'.
Proof.
  intros (K1 & H1 & [= <-])%bind_Ret. eapply quiet_trans; [by eapply push_quiet | by apply quiet_fields].
Qed.

Lemma ready_quiet x t K K' : ReadyToRun t K = Ret K' -> quiet x K K'.
Proof.
  intros (T & HT%find_Ret & [= <-])%bind_Ret.
  eapply quiet_trans; [by eapply (quiet_put _ K t T (setStatus READY T)) | by apply quiet_fields].
Qed.

Lemma V_body_quiet x s K K' : V_body s K = Ret K' -> quiet x K K'.
Proof.
  intros (E & _ & H)%bind_Ret. destruct (Seq.Remove (s_queue E)) as [o q]. apply bind_Ret in H as (K1 & H1 & [= <-]).
  apply (quiet_trans _ _ K1); [|by apply quiet_fields]. destruct o; [exact (ready_quiet _ _ _ _ H1)|]. injection H1 as <-. apply quiet_refl.
Qed.

Lemma handlers_quiet x (fi : list id) K K' : handlers fi K = Ret K' -> quiet x K K'.
Proof.
  revert K. induction fi as [|s fi IH]; intros K; cbn [handlers]; [intros [= <-]; apply quiet_refl|].
  intros (K1 & H1 & H2)%bind_Ret. eapply quiet_trans; [by eapply V_body_quiet | by apply IH].
Qed.

Lemma Run_ends x n K K' : Run n K = Ret K' -> ends x K K'.
Proof.
  intros H. unfold Run in H. apply bind_Ret in H as (T & HT%find_Ret & H). apply bind_Ret in H as ([] & _ & H).
  apply bind_Ret in H as (K1 & H1 & H). apply bind_Ret in H as (N & HN%find_Ret & [= <-]).
  apply bind_Ret in H1 as (T1 & HT1%find_Ret & [= <-]).
  assert (locks (match space T with Some sp => set_user (registers K) (SaveState sp (mmu K))
      (put_thread (currentThread K) (set_userRegisters (registers K) T) K) | None => K end) = locks K) as HL by (by destruct (space T)).
  split; cbn.
  - intros l _. by rewrite HL.
  - intros t r Hne Hs X fs HX Hf.
    assert (forall Y, threads K !! t = Some Y -> frames Y = InRun :: fs -> userRegisters Y = r) as Hk by (intros Y HY ?; by eapply Hs).
    cbn in HN. destruct (space T); cbn in HN, HX; apply lookup_insert_Some in HX as [[<- <-]|[_ HX]]; cbn in *; simplify_map_eq; eauto.
  - intros Hne (T2 & sp & HT2 & Hsp). assert (T2 = T) as -> by congruence. rewrite Hsp in *. cbn in *.
    assert (n <> currentThread K) as Hn by done.
    intros X fs HX Hf. simplify_map_eq. done.
Qed.

Lemma FindNext_quiet x K o K' : FindNextToRun K = (o, K') -> quiet x K K'.
Proof.
  unfold FindNextToRun. destruct (Seq.Remove (readyList K)). intros [= <- <-]. by apply quiet_fields.
Qed.

Lemma Sleep_test_ends x K K' : Sleep_test K = Ret K' -> ends x K K'.
Proof.
  unfold Sleep_test. destruct (FindNextToRun K) as [[n|] K1] eqn:HF; apply (FindNext_quiet x) in HF; intros H.
  - eapply quiet_ends; [exact HF|]. eapply quiet_ends; [by apply (quiet_fields x K1 (set_idle false K1)) | by eapply Run_ends].
  - injection H as <-. apply ends_quiet. eapply quiet_trans; [exact HF | by apply quiet_fields].
Qed.

Lemma Sleep_ends x K K' : Sleep K = Ret K' -> ends x K K'.
Proof.
  intros ([] & _ & (T & HT%find_Ret & H)%bind_Ret)%bind_Ret.
  eapply quiet_ends; [by eapply (quiet_put x K _ T (setStatus BLOCKED T)) | by eapply Sleep_test_ends].
Qed.

Lemma Yield_ends x K K' : Yield K = Ret K' -> ends x K K'.
Proof.
  intros (K1 & H1 & H)%bind_Ret. eapply quiet_ends; [by eapply enter_quiet|].
  destruct (FindNextToRun K1) as [[n|] K2] eqn:HF; apply (FindNext_quiet x) in HF.
  - apply bind_Ret in H as (K3 & H3 & H). eapply quiet_ends; [exact HF|]. eapply quiet_ends; [by eapply ready_quiet | by eapply Run_ends].
  - injection H as <-. by apply ends_quiet.
Qed.

Lemma ends_then_quiet x K1 K2 K3 :
  ends x K1 K2 -> currentThread K2 = currentThread K1 -> quiet x K2 K3 -> ends x K1 K3.
Proof.
  intros [A1 A2 _] Hc Hq. pose proof (ends_quiet _ _ _ Hq) as [B1 B2 _]. pose proof (u_cur _ _ _ Hq). split.
  - intros l Hl. by rewrite B1, A1.
  - intros t r Hne Hs. apply B2; [congruence | by apply A2].
  - intros []. congruence.
Qed.

Lemma ends_put x K t T' :
  (forall fs, frames T' = InRun :: fs -> exists T, threads K !! t = Some T /\ frames T = InRun :: fs /\
     userRegisters T' = userRegisters T) ->
  ends x K (put_thread t T' K).
Proof.
  intros H. split; [done | | by intros []].
  intros t1 r Hne Hs X fs HX Hf. cbn in HX. apply lookup_insert_Some in HX as [[<- <-]|[_ HX]]; [|by eapply Hs].
  destruct (H fs Hf) as (T & HT & HfT & ->). by eapply Hs.
Qed.

Lemma P_test_ends x s K K' : P_test s K = Ret K' -> ends x K K'.
Proof.
  intros (E & _ & H)%bind_Ret. destruct (value E =? 0).
  - apply bind_Ret in H as (K1 & H1 & H2). eapply quiet_ends; [|by eapply Sleep_ends].
    eapply quiet_trans; [|by eapply push_quiet]. by apply quiet_fields.
  - injection H as <-. apply ends_quiet. by apply quiet_fields.
Qed.

Lemma put_lock_quiet l L K : quiet (Some l) K (put_lock l L K).
Proof.
  split; try done; [|intros t; apply same_thread_refl]. intros l' Hl. cbn. by rewrite lookup_insert_ne by congruence.
Qed.

Lemma Acquire_ends l K K' : Acquire l K = Ret K' -> ends (Some l) K K'.
Proof.
  intros (L & _ & (K1 & H1 & H)%bind_Ret)%bind_Ret. eapply quiet_ends; [by eapply enter_quiet|].
  destruct (isHeldByCurrentThread L K1); [injection H as <-; apply ends_quiet, quiet_refl|].
  destruct (decide _).
  - injection H as <-. apply ends_quiet, put_lock_quiet.
  - eapply quiet_ends; [apply put_lock_quiet | by eapply Sleep_ends].
Qed.

Lemma Release_body_quiet l K K' : Release_body l K = Ret K' -> quiet (Some l) K K'.
Proof.
  intros (L & _ & H)%bind_Ret. destruct (negb _); [injection H as <-; apply quiet_refl|].
  destruct (Seq.Remove (l_queue L)) as [[t|] q].
  - eapply quiet_trans; [apply put_lock_quiet | by eapply ready_quiet].
  - injection H as <-. apply put_lock_quiet.
Qed.

Lemma Wait_ends c (cl : option id) K K' : Wait c cl K = Ret K' -> ends cl K K'.
Proof.
  intros (K1 & H1 & H)%bind_Ret. eapply quiet_ends; [by eapply enter_quiet|].
  destruct cl as [l|]; [|injection H as <-; apply ends_quiet, quiet_refl].
  apply bind_Ret in H as (Q & _ & H). destruct (_ || _); [|injection H as <-; apply ends_quiet, quiet_refl].
  apply bind_Ret in H as (K2 & H2 & (K3 & H3 & H4)%bind_Ret).
  eapply quiet_ends; [|by eapply Sleep_ends]. eapply quiet_trans; [|by eapply push_quiet].
  eapply quiet_trans; [|by eapply Release_body_quiet]. by apply quiet_fields.
Qed.

Lemma Signal_body_quiet x c (cl : option id) K K' : Signal_body c cl K = Ret K' -> quiet x K K'.
Proof.
  unfold Signal_body. destruct cl as [l|]; [|intros [= <-]; apply quiet_refl].
  intros (Q & _ & H)%bind_Ret. destruct (Seq.Remove (c_queue Q)) as [[t|] q]; [|injection H as <-; apply quiet_refl].
  destruct (bool_decide _); [|injection H as <-; apply quiet_refl].
  apply bind_Ret in H as (K1 & H1 & [= <-]). apply (quiet_trans _ _ K1); [by eapply ready_quiet | by apply quiet_fields].
Qed.

Lemma Signal_quiet x c (cl : option id) K K' : Signal c cl K = Ret K' -> quiet x K K'.
Proof.
  intros (K1 & H1 & H)%bind_Ret. eapply quiet_trans; [by eapply enter_quiet | by eapply Signal_body_quiet].
Qed.

Lemma Broadcast_quiet x c (cl : option id) K K' : Broadcast c cl K = Ret K' -> quiet x K K'.
Proof.
  unfold Broadcast. destruct cl as [l|]; [|by eapply enter_quiet].
  intros (Q & _ & H)%bind_Ret. destruct (bool_decide _); [|by eapply enter_quiet].
  apply bind_Ret in H as (K1 & H1 & H). eapply quiet_trans; [by eapply push_quiet | by eapply enter_quiet].
Qed.

Lemma Broadcast_test_quiet x c l K K' : Broadcast_test c l K = Ret K' -> quiet x K K'.
Proof.
  intros (Q & _ & H)%bind_Ret. destruct (Seq.IsEmpty _); [injection H as <-; apply quiet_refl|].
  apply bind_Ret in H as (K1 & H1 & H). eapply quiet_trans; [by eapply push_quiet | by eapply Signal_quiet].
Qed.

Lemma SetLevel_ends x now tk K K' : SetLevel now tk K = Ret K' -> ends x K K'.
Proof.
  unfold SetLevel. destruct (decide _).
  - intros (K1 & H1 & H)%bind_Ret. eapply quiet_ends; [by eapply handlers_quiet|].
    eapply quiet_ends; [by apply (quiet_fields x K1 (set_intLevel IntOn K1))|].
    destruct (timer tk); [by eapply Yield_ends | injection H as <-; apply ends_quiet, quiet_refl].
  - intros [= <-]. apply ends_quiet. by apply quiet_fields.
Qed.

Lemma Fork_ends x t K K' : Fork t K = Ret K' -> ends x K K'.
Proof.
  intros (T & _ & (K1 & H1 & H)%bind_Ret)%bind_Ret.
  set (K0 := put_thread t (set_stack (Some STACK_FENCEPOST) (set_frames [InRoot] T)) K) in H1.
  apply (ends_then_quiet _ _ K0); [by apply ends_put | done | eapply quiet_trans; [by eapply enter_quiet | by eapply ready_quiet]].
Qed.

Lemma Finish_ends x K K' : Finish K = Ret K' -> ends x K K'.
Proof.
  intros (K1 & H1 & H)%bind_Ret. eapply quiet_ends; [|by eapply Sleep_ends].
  apply (quiet_trans _ _ K1); [|by apply quiet_fields].
  eapply quiet_trans; [by apply (quiet_fields x K (set_intLevel IntOff K)) | by eapply push_quiet].
Qed.

Lemma Run_resume_ends x K K' : Run_resume K = Ret K' -> ends x K K' /\ currentThread K' = currentThread K.
Proof.
  intros (K1 & H1 & (T & HT%find_Ret & H)%bind_Ret)%bind_Ret.
  assert (currentThread K1 = currentThread K /\ locks K1 = locks K /\
    forall t r, saved_as t r K -> saved_as t r K1) as (E1 & E2 & E3).
  { destruct (threadToBeDestroyed K); [|by injection H1 as <-].
    apply bind_Ret in H1 as ([] & _ & [= <-]). split; [done|]. split; [done|].
    intros t r Hs X fs HX. cbn in HX. apply lookup_delete_Some in HX as [_ HX]. by apply Hs. }
  destruct (space T); injection H as <-; (split; [split; cbn; [by rewrite E2 | intros ? ? _; apply E3 | by intros []] | done]).
Qed.

(** The lock an event is about. *)
Definition about (e : event M) K : option id :=
  match e with
  | Call (OAcquire l) | Call (ORelease l) | Call (ONewLock l) => Some l
  | Call (OWait _ cl) => cl
  | Step _ => match frames <$> threads K !! currentThread K with Some (InWait _ l :: _) => Some l | _ => None end
  | _ => None
  end.

Lemma call_ends o K K' : call o K = Ret K' -> ends (about (Call o) K) K K'.
Proof.
  destruct o; cbn [call about]; intros H.
  - injection H as <-. by apply ends_put.
  - apply bind_Ret in H as (T & HT%find_Ret & [= <-]). apply ends_put. intros fs Hf. by exists T.
  - by eapply Fork_ends.
  - by eapply Yield_ends.
  - by eapply Finish_ends.
  - injection H as <-. apply ends_quiet. by apply quiet_fields.
  - injection H as <-. apply ends_quiet, put_lock_quiet.
  - injection H as <-. apply ends_quiet. by apply quiet_fields.
  - apply bind_Ret in H as (K1 & H1 & H). eapply quiet_ends; [by eapply enter_quiet | by eapply P_test_ends].
  - apply bind_Ret in H as (K1 & H1 & H). eapply quiet_ends; [by eapply enter_quiet | by eapply ends_quiet, V_body_quiet].
  - by eapply Acquire_ends.
  - apply bind_Ret in H as (K1 & H1 & H). eapply quiet_ends; [by eapply enter_quiet | by eapply ends_quiet, Release_body_quiet].
  - by eapply Wait_ends.
  - by eapply ends_quiet, Signal_quiet.
  - by eapply ends_quiet, Broadcast_quiet.
  - injection H as <-. split; [done | done | by intros []].
Qed.

Lemma exec_ends e K K' : exec e K = Ret K' -> ends (about e K) K K'.
Proof.
  intros (T & HT%find_Ret & H)%bind_Ret. destruct e as [o|tk|fi].
  - destruct (idle K); [done|]. destruct (frames T); [|done]. by apply call_ends.
  - destruct (idle K); [done|]. destruct (frames T) as [|f fs] eqn:Hf; [done|].
    cbn [about]. rewrite HT. cbn. rewrite Hf.
    assert (forall x, quiet x K (put_thread (currentThread K) (set_frames fs T) K)) as Hpop.
    { intros x. by eapply quiet_put. }
    eapply quiet_ends; [apply Hpop|]. destruct f as [| | |y old|s|c l|c l]; cbn [resume] in H; try done.
    + exact (proj1 (Run_resume_ends None _ _ H)).
    + by eapply SetLevel_ends.
    + by eapply SetLevel_ends.
    + by eapply P_test_ends.
    + by eapply Acquire_ends.
    + by eapply ends_quiet, Broadcast_test_quiet.
  - destruct (idle K); [|done]. cbn [about]. destruct (frames T); apply bind_Ret in H as (K1 & H1 & H);
      (eapply quiet_ends; [by eapply handlers_quiet | by eapply Sleep_test_ends]).
Qed.
End Frames.

(** ** The theorems *)

Section Theorems.
Context {M : Type} `{!Spaces M}.
Implicit Types (K : Kernel M) (T : Thread) (t l s c : id) (es : list (event M)).

Inductive reachable : Kernel M -> Prop :=
| reach_boot r (m : M) : reachable (boot r m)
| reach_step K e K' : reachable K -> can_happen e K -> exec e K = Ret K' -> reachable K'.

(** Every event of the list can happen when its turn comes. *)
Fixpoint happens es K : Prop :=
  match es with
  | [] => True
  | e :: es => can_happen e K /\ forall K', exec e K = Ret K' -> happens es K'
  end.

(** The threads an execution gives the processor to. *)
Fixpoint dispatches es K : list id :=
  match es with
  | [] => []
  | e :: es => match exec e K with Ret K' => dispatched K' ++ dispatches es K' | _ => [] end
  end.

(** The threads made ready, in order. *)
Fixpoint made_ready es K : list id :=
  match es with
  | [] => []
  | e :: es => readied e K ++ match exec e K with Ret K' => made_ready es K' | _ => [] end
  end.

Lemma boot_ok r (m : M) : ok (boot r m).
Proof.
  assert (forall t T, threads (boot r m) !! t = Some T -> t = 1%positive /\ T = mkThread [] None RUNNING 0 [] None) as Hone.
  { intros t T HT. cbn in HT. by apply lookup_singleton_Some in HT as [<- <-]. }
  split.
  - split; cbn; try done.
    + split; try done.
      * apply NoDup_nil_2.
      * intros t. split; [by intros ?%not_elem_of_nil|]. intros (T & HT & Hr). by apply Hone in HT as [_ ->].
      * intros t T HT. apply Hone in HT as [_ ->]. split; cbn; [by left | done | done | by left].
      * intros t T HT _. by apply Hone in HT as [-> _].
      * intros t T HT. by apply Hone in HT as [-> _].
      * intros [s|l|c] q; cbn; by rewrite lookup_empty.
      * intros [s|l|c] q; cbn; by rewrite lookup_empty.
    + intros t T l old HT _ Hp. by apply Hone in HT as [_ ->].
  - cbn. eexists. split; [by rewrite lookup_singleton_eq|]. done.
Qed.

Lemma reachable_ok K : reachable K -> ok K.
Proof.
  induction 1 as [r m|K e K' _ IH Hh He]; [apply boot_ok|].
  destruct (exec_ok e K IH Hh) as (K1 & HK1 & Hok & _). congruence.
Qed.

Lemma run_fifo es K : ok K -> happens es K ->
  exists K', run es K = Ret K' /\ ok K' /\
    dispatches es K ++ Seq.items (readyList K') = Seq.items (readyList K) ++ made_ready es K.
Proof.
  revert K. induction es as [|e es IH]; intros K Hok Hh; cbn.
  - exists K. by rewrite app_nil_r.
  - destruct Hh as [Hc Hn]. destruct (exec_ok e K Hok Hc) as (K1 & HK1 & Hok1 & Hf). rewrite HK1. cbn [bind].
    destruct (IH K1 Hok1 (Hn K1 HK1)) as (K' & HR & Hok' & Hd). exists K'. split; [done|]. split; [done|].
    by rewrite <- app_assoc, Hd, app_assoc, Hf, app_assoc.
Qed.

(** The lists agree with the states of the threads. *)
Record consistent K : Prop := {
  one_running : forall t T, threads K !! t = Some T -> t_status T = RUNNING -> t = currentThread K /\ idle K = false;
  ready_listed : NoDup (Seq.items (readyList K)) /\
    forall t, t ∈ Seq.items (readyList K) <-> exists T, threads K !! t = Some T /\ t_status T = READY;
  queues_blocked : forall w q, queue K w = Some q -> NoDup (Seq.items q) /\
    forall t, t ∈ Seq.items q -> exists T, threads K !! t = Some T /\ t_status T = BLOCKED;
  blocked_queued : forall t T, threads K !! t = Some T -> t_status T = BLOCKED ->
    pc T = Some InFinish \/
    exists w q, queue K w = Some q /\ t ∈ Seq.items q /\
      forall w' q', queue K w' = Some q' -> t ∈ Seq.items q' -> w' = w
}.

Lemma ok_consistent K : ok K -> consistent K.
Proof.
  intros [[Hc _ _ _ _] (T0 & HT0 & Hst & _)]. split.
  - intros t T HT Hr. pose proof (c_run _ _ _ _ _ Hc t T HT Hr) as ->. split; [done|].
    assert (T0 = T) as -> by congruence. destruct (idle K); [congruence | done].
  - split; [apply Hc | apply (c_ready _ _ _ _ _ Hc)].
  - intros w q Hq. split; [by eapply c_queue_nodup|]. intros t Hin.
    destruct (queue_member _ _ _ _ _ _ _ t Hc Hq Hin) as (T & ? & ? & _). eauto.
  - intros t T HT Hb. pose proof (c_threads _ _ _ _ _ Hc t T HT) as Hok. pose proof (to_pc _ _ Hok) as Hp.
    assert (pc T = Some InFinish \/ exists w, waiting T = Some w) as [?|[w Hw]]; [|by left|].
    { unfold pc_ok in Hp. unfold waiting. rewrite Hb in *.
      destruct (pc T) as [[| | |[] ?| | |]|]; cbn in *; first [by left | by right; eauto | naive_solver]. }
    right. destruct (waiting_valid _ _ _ Hok Hw) as [q Hq]. exists w, q. split; [done|].
    split; [apply (c_queues _ _ _ _ _ Hc w q Hq); eauto|].
    intros w' q' Hq' (T' & HT' & Hw')%(c_queues _ _ _ _ _ Hc w' q' Hq'). congruence.
Qed.

(** C28: the kernel does not fail. Whatever the threads call, with pointers to live
    objects, and whenever interrupts come in, no ASSERT fails and no deleted
    thread is used; at every moment at most one thread is running, the ready list
    holds exactly the ready threads, each once, and every blocked thread is in
    exactly one wait queue, unless it is finished. *)
Theorem kernel_never_fails es r (m : M) :
  happens es (boot r m) -> exists K, run es (boot r m) = Ret K /\ consistent K.
Proof.
  intros Hh. destruct (run_fifo es _ (boot_ok r m) Hh) as (K & HR & Hok & _).
  exists K. split; [done | by apply ok_consistent].
Qed.

(** C31: the scheduler is first come, first served. Along any execution the threads
    that get the processor, followed by those still on the ready list at the end,
    are the ready list of the start followed by the threads made ready since, in
    order: a thread with n others before it on the list is the (n+1)-st to run. The
    threads made ready are pinned by the events: Fork makes the new thread ready, V
    and a device interrupt the thread that has waited longest at the semaphore,
    Release and Wait the first in the queue of the lock if the caller has it, Signal
    and Broadcast the first in that of the condition if the lock is its lock, Yield
    and the end of a time slice the running thread behind them, and nothing else. *)
Theorem scheduler_is_fifo es K :
  reachable K -> happens es K ->
  exists K', run es K = Ret K' /\
    dispatches es K ++ Seq.items (readyList K') = Seq.items (readyList K) ++ made_ready es K.
Proof.
  intros Hr Hh. destruct (run_fifo es K (reachable_ok K Hr) Hh) as (K' & HR & _ & Hd). by exists K'.
Qed.

Lemma Acquire_owner l K K' L t :
  Acquire l K = Ret K' -> locks K !! l = Some L -> lock_ok L -> owner L = Some t ->
  exists L', locks K' !! l = Some L' /\ owner L' = Some t.
Proof.
  intros (L0 & HL0%find_Ret & (K1 & H1 & H)%bind_Ret)%bind_Ret HL [Hfree _] Ho. assert (L0 = L) as -> by congruence.
  pose proof (u_locks _ _ _ (enter_quiet None _ _ _ H1) l) as El. rewrite HL in El.
  destruct (isHeldByCurrentThread L K1); [injection H as <-; exists L; by rewrite El|].
  destruct (decide _) as [Hf|]; [apply Hfree in Hf; congruence|].
  pose proof (e_locks _ _ _ (Sleep_ends None _ _ H) l) as E2. cbn in E2. rewrite lookup_insert_eq in E2.
  eexists. split; [by apply E2 | done].
Qed.

Lemma Release_not_owner l K K' L : Release_body l K = Ret K' -> locks K !! l = Some L ->
  owner L <> Some (currentThread K) -> K' = K.
Proof.
  intros (L0 & HL0%find_Ret & H)%bind_Ret HL Ho. assert (L0 = L) as -> by congruence.
  unfold isHeldByCurrentThread in H. rewrite bool_decide_false in H by done. by injection H.
Qed.

Lemma Wait_not_owner c l K K' L t : Wait c (Some l) K = Ret K' -> locks K !! l = Some L ->
  owner L = Some t -> t <> currentThread K -> locks K' !! l = Some L.
Proof.
  intros (K1 & H1 & H)%bind_Ret HL Ho Hne. pose proof (enter_quiet None _ _ _ H1) as [E1 _ E2 _].
  assert (locks K1 !! l = Some L) as HL1 by (by rewrite E2).
  apply bind_Ret in H as (Q & _ & H). destruct (_ || _); [|injection H as <-; done].
  apply bind_Ret in H as (K2 & H2 & (K3 & H3 & H4)%bind_Ret).
  apply (Release_not_owner _ _ _ L) in H2; [|done | cbn; congruence]. subst K2.
  rewrite (e_locks _ _ _ (Sleep_ends None _ _ H4)), (u_locks _ _ _ (push_quiet None _ _ _ H3)) by done. done.
Qed.

Lemma owner_keeps e K K' l L t :
  ok K -> can_happen e K -> exec e K = Ret K' -> locks K !! l = Some L -> owner L = Some t ->
  (exists L', locks K' !! l = Some L' /\ owner L' = Some t) \/
  (t = currentThread K /\ (e = Call (ORelease l) \/ exists c, e = Call (OWait c (Some l)))).
Proof.
  intros Hok Hh He HL Ho. pose proof (b_locks _ _ (ok_base _ Hok) l L HL) as HLok. cbn in HLok.
  destruct (decide (about e K = Some l)) as [Ha|Ha].
  2:{ left. exists L. split; [|done]. by rewrite (e_locks _ _ _ (exec_ends e K K' He) l Ha). }
  apply bind_Ret in He as (T & HT%find_Ret & He). destruct e as [o|tk|fi]; try done.
  - destruct (idle K); [done|]. destruct (frames T); [|done].
    destruct o; cbn in Ha; try done; cbn [call] in He; destruct Hh as [_ Hlg]; simplify_eq; cbn in Hlg.
    + congruence.
    + left. by eapply Acquire_owner.
    + destruct (decide (t = currentThread K)) as [->|Hne]; [by right; split; [|left]|]. left.
      apply bind_Ret in He as (K1 & H1 & H). pose proof (enter_quiet None _ _ _ H1) as [E1 _ E2 _].
      assert (locks K1 !! l = Some L) as HL1 by (by rewrite E2).
      apply (Release_not_owner _ _ _ L) in H; [|done | congruence]. subst K1. by exists L.
    + destruct (decide (t = currentThread K)) as [->|Hne]; [by right; split; [|right; eexists]|]. left.
      exists L. split; [by eapply Wait_not_owner | done].
  - left. cbn in Ha. rewrite HT in Ha. cbn in Ha. destruct (idle K); [done|]. destruct (frames T) as [|f fs]; [done|].
    destruct f; try done. injection Ha as ->. by eapply Acquire_owner.
Qed.

(** C2: locks exclude. A thread that comes back from Acquire has the lock; a lock
    a thread has stays with it until that thread itself calls Release or Wait on
    it, whatever the other threads and the interrupts do. *)
Theorem mutual_exclusion K :
  reachable K ->
  (forall t T l old, threads K !! t = Some T -> t_status T <> BLOCKED -> pc T = Some (Reset (AtAcquire l) old) ->
     exists L, locks K !! l = Some L /\ owner L = Some t /\ state L = BUSY) /\
  (forall e K' l L t, can_happen e K -> exec e K = Ret K' -> locks K !! l = Some L -> owner L = Some t ->
     (exists L', locks K' !! l = Some L' /\ owner L' = Some t) \/
     (t = currentThread K /\ (e = Call (ORelease l) \/ exists c, e = Call (OWait c (Some l))))).
Proof.
  intros Hr%reachable_ok. split.
  - intros t T l old HT Hn Hp. destruct (b_holds _ _ (ok_base _ Hr) t T l old HT Hn Hp) as (L & HL & Ho).
    exists L. split; [done|]. split; [done|]. destruct (b_locks _ _ (ok_base _ Hr) l L HL) as [Hfree _]. cbn in Hfree.
    destruct (state L); [|done]. destruct Hfree as [Hf _]. specialize (Hf eq_refl). congruence.
  - intros. by eapply owner_keeps.
Qed.

Lemma woken_someone (ths : gmap id Thread) s : (0 < woken ths s)%nat -> exists t T, ths !! t = Some T /\ is_woken s T = true.
Proof.
  unfold woken. intros Hs. assert (filter (fun p : id * Thread => is_woken s p.2 = true) ths <> ∅) as Hne.
  { intros E. rewrite E, map_size_empty in Hs. lia. }
  apply map_choose in Hne as (t & T & HT). apply map_lookup_filter_Some in HT as [? ?]. by exists t, T.
Qed.

(** C13: no wakeup is lost. A semaphore is never negative, and when it is positive
    while threads are queued on it, a woken thread is ready or running and about
    to test it; a lock with waiters is held by somebody, and a free lock has none;
    a condition is bound to a lock exactly while threads are queued on it, and
    every one of them will go back to that lock. *)
Theorem no_lost_wakeup K :
  reachable K ->
  (forall s E, sems K !! s = Some E -> 0 <= value E /\
     (0 < value E -> s_queue E <> [] ->
        exists t T, threads K !! t = Some T /\ (t_status T = READY \/ t_status T = RUNNING) /\ pc T = Some (InP s))) /\
  (forall l L, locks K !! l = Some L -> (l_queue L <> [] -> exists t, owner L = Some t /\ state L = BUSY) /\
     (state L = FREE <-> owner L = None)) /\
  (forall c Q, conds K !! c = Some Q -> (waitingLock Q = None <-> c_queue Q = []) /\
     (forall t, t ∈ Seq.items (c_queue Q) -> exists T l, threads K !! t = Some T /\ t_status T = BLOCKED /\
        pc T = Some (InWait c l) /\ waitingLock Q = Some l)).
Proof.
  intros Hr%reachable_ok. destruct (ok_base _ Hr) as [Hc Hs Hl Hh Hd]. split; [|split].
  - intros s E HE. destruct (Hs s E HE) as [Hv Hle]. split; [done|]. intros Hpos Hne. specialize (Hle Hne).
    rewrite (bool_decide_eq_false_2 (None = Some s)) in Hle by done. cbn in Hle.
    destruct (woken_someone (threads K) s) as (t & T & HT & Hw); [lia|]. exists t, T. split; [done|].
    unfold is_woken in Hw. apply andb_true_iff in Hw as [Hb%negb_true_iff%bool_decide_eq_false Hp%bool_decide_eq_true].
    split; [|done]. pose proof (to_pc _ _ (c_threads _ _ _ _ _ Hc t T HT)) as Hpc. unfold pc_ok in Hpc. rewrite Hp in Hpc.
    destruct Hpc as [? _]. destruct (t_status T); try done; [by right | by left].
  - intros l L HL. destruct (Hl l L HL) as [Hf He]. cbn in Hf, He. split; [|done]. intros Hne.
    assert (state L <> FREE) as Hst by (intros E; by rewrite (He E) in Hne).
    destruct (owner L) as [t|]; [|by destruct Hst; apply Hf]. exists t. split; [done|]. by destruct (state L).
  - intros c Q HQ. destruct (Hd c Q HQ) as [Hemp Hall]. split; [done|]. intros t Hin.
    destruct (queue_member _ _ _ _ _ (WCond c) (c_queue Q) t Hc) as (T & HT & Hb & _ & Hp & _); [cbn; by rewrite HQ | done |].
    destruct (waits_cond T c Hp) as [l Hl']. exists T, l. repeat (split; [done|]). by eapply Hall.
Qed.

(** The processor is not at [t] before the end of the events. *)
Fixpoint elsewhere t es K : Prop :=
  match es with
  | [] => True
  | e :: es => currentThread K <> t /\ forall K', exec e K = Ret K' -> elsewhere t es K'
  end.

Lemma elsewhere_saved t r es K K' :
  elsewhere t es K -> run es K = Ret K' -> saved_as t r K -> saved_as t r K'.
Proof.
  revert K. induction es as [|e es IH]; intros K Ha HR Hs; cbn in *; [by injection HR as <-|].
  destruct Ha as [Hne Ha]. apply bind_Ret in HR as (K1 & H1 & HR). apply (IH K1 (Ha K1 H1) HR).
  by apply (e_keeps _ _ _ (exec_ends e K K1 H1)).
Qed.

(** A user program does not see context switches. When a thread with an
    address space loses the processor, any sequence of events may follow in which
    it does not have it; when it gets the processor back, Scheduler::Run gives the
    user program the register values it had. *)
Theorem user_registers_survive e K K1 es K2 tk fs K3 :
  exec e K = Ret K1 -> has_space (currentThread K) K -> currentThread K1 <> currentThread K ->
  run es K1 = Ret K2 -> elsewhere (currentThread K) es K1 ->
  currentThread K2 = currentThread K -> frames <$> threads K2 !! currentThread K = Some (InRun :: fs) ->
  has_space (currentThread K) K2 -> exec (Step tk) K2 = Ret K3 ->
  registers K3 = registers K.
Proof.
  intros He Hsp Hne HR Haw Hcur Hf (T & sp & HT & Hsp2) Hs. rewrite HT in Hf. cbn in Hf. injection Hf as Hf.
  pose proof (e_saves _ _ _ (exec_ends e K K1 He) Hne Hsp) as Hsaved.
  apply (elsewhere_saved _ _ _ _ _ Haw HR) in Hsaved. specialize (Hsaved T fs HT Hf).
  rewrite <- Hcur in HT. apply bind_Ret in Hs as (T' & HT'%find_Ret & Hs). assert (T' = T) as -> by congruence.
  destruct (idle K2); [done|]. rewrite Hf in Hs. cbn [resume] in Hs.
  apply bind_Ret in Hs as (K4 & H4 & (T4 & HT4%find_Ret & Hs)%bind_Ret).
  assert (currentThread K4 = currentThread K2 /\ T4 = set_frames fs T) as [E1 ->].
  { destruct (threadToBeDestroyed _) as [d|].
    - apply bind_Ret in H4 as ([] & HA%ASSERT_Ret%negb_true_iff%bool_decide_eq_false & [= <-]). split; [done|].
      cbn in HT4. rewrite lookup_delete_ne, lookup_insert_eq in HT4 by done. by injection HT4 as <-.
    - injection H4 as <-. split; [done|]. cbn in HT4. rewrite lookup_insert_eq in HT4. by injection HT4 as <-. }
  cbn in Hs. rewrite Hsp2 in Hs. injection Hs as <-. done.
Qed.

(** ** Running a script *)

Definition objects_live {A} (m : gmap id A) (ps : list id) : bool := forallb (fun p => bool_decide (is_Some (m !! p))) ps.

Definition legalb (o : op M) K : bool :=
  match o with
  | ONewThread t _ _ => bool_decide (threads K !! t = None)
  | OSetSpace t _ => bool_decide (is_Some (threads K !! t))
  | OFork t => match threads K !! t with
               | Some T => bool_decide (t_status T = JUST_CREATED) && bool_decide (frames T = []) | None => false end
  | OYield | OFinish | OUser _ _ => true
  | ONewSemaphore s v => bool_decide (sems K !! s = None) && (0 <=? v)
  | ONewLock l => bool_decide (locks K !! l = None)
  | ONewCondition c => bool_decide (conds K !! c = None)
  | OP s | OV s => bool_decide (is_Some (sems K !! s))
  | OAcquire l | ORelease l => bool_decide (is_Some (locks K !! l))
  | OWait c cl => bool_decide (is_Some (conds K !! c)) && objects_live (locks K) (option_list cl)
  | OSignal c _ | OBroadcast c _ => bool_decide (is_Some (conds K !! c))
  end.

Definition can_happenb (e : event M) K : bool :=
  match e, idle K, frames <$> threads K !! currentThread K with
  | Call o, false, Some [] => legalb o K
  | Step tk, false, Some (_ :: _) => objects_live (sems K) (fired tk)
  | Wake fired, true, _ => objects_live (sems K) fired
  | _, _, _ => false
  end.

Fixpoint script es K : C (Kernel M) :=
  match es with
  | [] => Ret K
  | e :: es => if can_happenb e K then let! K := exec e K in script es K else Undef
  end.

Lemma objects_live_spec {A} (m : gmap id A) (ps : list id) : objects_live m ps = true -> Forall (fun p => is_Some (m !! p)) ps.
Proof.
  induction ps as [|p ps IH]; cbn; [done|]. intros [Hp%bool_decide_eq_true Hps]%andb_true_iff. constructor; auto.
Qed.

Lemma can_happenb_spec e K : can_happenb e K = true -> can_happen e K.
Proof.
  unfold can_happenb. destruct e as [o|tk|fi]; cbn; destruct (idle K) eqn:Hid; try done.
  - destruct (frames <$> threads K !! currentThread K) as [[|]|] eqn:Hf; try done. intros Hl. split; [by split|].
    destruct o; cbn in *; try done; try (by apply bool_decide_eq_true in Hl).
    + destruct (threads K !! t) as [T|]; [|done]. exists T. split; [done|].
      by apply andb_true_iff in Hl as [?%bool_decide_eq_true ?%bool_decide_eq_true].
    + apply andb_true_iff in Hl as [?%bool_decide_eq_true ?%Z.leb_le]. by split.
    + apply andb_true_iff in Hl as [?%bool_decide_eq_true Hl%objects_live_spec]. split; [done|].
      intros l' ->. cbn in Hl. by inversion_clear Hl.
  - destruct (frames <$> threads K !! currentThread K) as [[|f fs]|] eqn:Hf; try done. intros Hl%objects_live_spec.
    split; [split; [done | by exists f, fs] | done].
  - intros Hl%objects_live_spec. by split.
Qed.

Lemma script_spec es K K' : script es K = Ret K' -> happens es K /\ run es K = Ret K' /\ (reachable K -> reachable K').
Proof.
  revert K. induction es as [|e es IH]; intros K; cbn; [by intros [= <-]|].
  destruct (can_happenb e K) eqn:Hc; [|done]. apply can_happenb_spec in Hc. intros (K1 & H1 & HS)%bind_Ret.
  destruct (IH K1 HS) as (Hh & HR & Hre). rewrite H1. cbn [bind]. split; [|split; [done|]].
  - split; [done|]. intros K2 HK2. by assert (K2 = K1) as -> by congruence.
  - intros Hr. apply Hre. by eapply reach_step.
Qed.
End Theorems.

(** ** A concrete run *)

Module Demo.

#[export] Instance no_mmu : Spaces unit := {| SaveState _ m := m; RestoreState _ m := m |}.

Definition timer_off : Tick := mkTick [] false.
Definition step : event unit := Step timer_off.

(** The main thread takes a lock and lets thread 2 run, which asks for it. *)
Definition contend : list (event unit) :=
  [Call (ONewLock 1); Call (ONewThread 2 0 []); Call (OFork 2); step; Call (OAcquire 1); step;
   Call OYield; step; Call (OAcquire 1)].

(** The main thread releases, and thread 2 has the lock and leaves it. *)
Definition hand_off : list (event unit) := [step; step; Call (ORelease 1); step; Call OYield; step; step].

Example hand_off_run :
  (let! K := script (contend ++ hand_off) (boot [] ()) in
   Ret (currentThread K, (fun L => (state L, owner L)) <$> locks K !! 1%positive, Seq.items (readyList K)))
  = Ret (2%positive, Some (BUSY, Some 2%positive), [1%positive]).
Proof. vm_compute. reflexivity. Qed.

Definition result (r : C (Kernel unit)) : Kernel unit := match r with Ret K => K | _ => boot [] () end.

Lemma run_script (es : list (event unit)) (K : Kernel unit) :
  match script es K with Ret _ => true | _ => false end = true -> script es K = Ret (result (script es K)).
Proof. by destruct (script es K). Qed.

(** Thread 2 waits for the lock; then it has it and is on its way out of Acquire. *)
Definition contended : Kernel unit := result (script contend (boot [] ())).
Definition handed : Kernel unit := result (script (contend ++ removelast hand_off) (boot [] ())).

Lemma contended_script : script contend (boot [] ()) = Ret contended.
Proof. apply run_script. vm_compute. reflexivity. Qed.

Lemma contended_reachable : reachable contended.
Proof. exact (proj2 (proj2 (script_spec _ _ _ contended_script)) (reach_boot [] ())). Qed.

Lemma handed_reachable : reachable handed.
Proof.
  assert (script (contend ++ removelast hand_off) (boot [] ()) = Ret handed) as H by (apply run_script; vm_compute; reflexivity).
  exact (proj2 (proj2 (script_spec _ _ _ H)) (reach_boot [] ())).
Qed.

Lemma hand_over_happens : happens hand_off contended.
Proof.
  assert (script hand_off contended = Ret (result (script hand_off contended))) as H by (apply run_script; vm_compute; reflexivity).
  exact (proj1 (script_spec _ _ _ H)).
Qed.

Lemma kernel_never_fails_witness : exists K, run contend (boot [] ()) = Ret K /\ consistent K.
Proof. exact (kernel_never_fails contend [] () (proj1 (script_spec _ _ _ contended_script))). Defined.

Lemma scheduler_is_fifo_witness :
  exists K', run hand_off contended = Ret K' /\
    dispatches hand_off contended ++ Seq.items (readyList K') = Seq.items (readyList contended) ++ made_ready hand_off contended.
Proof. exact (scheduler_is_fifo hand_off contended contended_reachable hand_over_happens). Defined.

Lemma mutual_exclusion_witness :
  currentThread handed = 2%positive /\
  exists L, locks handed !! 1%positive = Some L /\ owner L = Some 2%positive /\ state L = BUSY.
Proof.
  split; [vm_compute; reflexivity|].
  destruct (mutual_exclusion handed handed_reachable) as [Hret _].
  eapply (Hret 2%positive _ 1%positive IntOn); [vm_compute; reflexivity | vm_compute; discriminate | vm_compute; reflexivity].
Defined.

Lemma no_lost_wakeup_witness :
  exists L t, locks contended !! 1%positive = Some L /\ Seq.items (l_queue L) = [2%positive] /\ owner L = Some t /\ state L = BUSY.
Proof.
  destruct (no_lost_wakeup contended contended_reachable) as (_ & Hl & _).
  destruct (locks contended !! 1%positive) as [L|] eqn:HL; [|vm_compute in HL; discriminate].
  exists L. destruct (Hl 1%positive L HL) as [Hw _]. vm_compute in HL. injection HL as <-.
  destruct Hw as (t & Ho & Hb); [vm_compute; discriminate|].
  exists t. split; [reflexivity|]. split; [vm_compute; reflexivity|]. split; [exact Ho | exact Hb].
Defined.

(** A user program with 7 in its register, and one with 9 beside it. *)
Definition two_programs : list (event unit) :=
  [Call (ONewThread 2 0 []); Call (OSetSpace 1 0); Call (OSetSpace 2 1); Call (OFork 2); step; Call (OUser [7] ())].
Definition before : Kernel unit := result (script two_programs (boot [] ())).
Definition away : list (event unit) := [step; Call (OUser [9] ()); Call OYield].

Lemma user_registers_survive_witness :
  exists K2 K3, run (Call OYield :: away) before = Ret K2 /\ exec step K2 = Ret K3 /\ registers K2 = [9] /\ registers K3 = [7].
Proof.
  set (K1 := result (exec (Call OYield) before)). set (K2 := result (run away K1)). set (K3 := result (exec step K2)).
  exists K2, K3. do 3 (split; [vm_compute; reflexivity|]).
  eapply (user_registers_survive (Call OYield) before K1 away K2 timer_off _ K3); try (vm_compute; reflexivity).
  - eexists _, _. split; vm_compute; reflexivity.
  - vm_compute. discriminate.
  - cbn [elsewhere away]. split; [vm_compute; discriminate|]. intros Ka Ha. vm_compute in Ha. injection Ha as <-.
    split; [vm_compute; discriminate|]. intros Kb Hb. vm_compute in Hb. injection Hb as <-.
    split; [vm_compute; discriminate|]. done.
  - eexists _, _. split; vm_compute; reflexivity.
Defined.
End Demo.
