(* ===== verification/VM.v ===== *)
(** * Virtual memory (userprog/addrspace.h, addrspace.cc, exception.cc:943-1038,
      threads/system.cc:192-229)

    Address spaces with demand paging: a page table per address space that says
    where each page is (frame, executable, swap file, nowhere), the inverted page
    table [IPT] that says which page each frame holds, the software-loaded TLB, and
    the page fault handler with its FIFO or random replacement. The contract is
    that a process cannot tell: the content of every page is the same before and
    after a page fault, and the faulting page is mapped. *)

From S2P Require Import Prelude Interrupt BitMap Table Machine.

(** ** Open files of the stub file system (filesys/openfile.h, sysdep.cc)

    A file is its bytes; Lseek asserts that the UNIX call accepted the position. *)

Notation File := (list Z).

Definition ReadAt (f : File) (numBytes position : Z) : C (list Z) :=
  let! _ := ASSERT (0 <=? position) in
  Ret (take (Z.to_nat numBytes) (drop (Z.to_nat position) f)).

(** Writing past the end leaves a hole of zeros. *)
Definition WriteAt (f : File) (from : list Z) (position : Z) : C File :=
  let! _ := ASSERT (0 <=? position) in
  let p := Z.to_nat position in
  Ret (take p f ++ replicate (p - length f) 0 ++ from ++ drop (p + length from) f).

(** ** Data *)

Definition UserStackSize : Z := 1024.
Definition MaxOpenFiles : Z := 256.

(** addrspace.h: struct PageTableEntry; [location] is 0 for the swap file, 1 for
    the executable, 2 for neither. *)
Record PageTableEntry := mkPTE {
  entry : TranslationEntry;
  location : Z;
  byteOffset : Z;
  swapLocation : Z
}.

(** addrspace.h: class AddrSpace. The executable, read only while the program
    runs, is its content. *)
Record AddrSpace := mkAddrSpace {
  fileTable : Table;
  pages : list PageTableEntry;  (* pageTable *)
  numPages : Z;
  numPageQueue : list Z;
  executable : File
}.

Definition set_pages p a := mkAddrSpace (fileTable a) p (numPages a) (numPageQueue a) (executable a).
Definition set_fileTable t a := mkAddrSpace t (pages a) (numPages a) (numPageQueue a) (executable a).

(** system.h: struct IPTEntry; [None] is the NULL pointer. *)
Record IPTEntry := mkIPTE { ientry : TranslationEntry; owner : option positive }.

Inductive KLock :=
| IPTLock | bitMapLock | TLBLock | swapFileLock
| processLock | mailBoxLock | outputLock | kernelLockLock | kernelCVLock
| pageLock (s : positive) | queueLock (s : positive).

#[export] Instance KLock_eq_dec : EqDecision KLock.
Proof. solve_decision. Defined.

(** The globals of system.cc the memory system uses; [spaces] is the heap of
    address spaces, [space] is currentThread->space, [locks] the locks that the
    running thread holds, [seed] the state of the C library's rand(). *)
Record VM := mkVM {
  IPT : list IPTEntry;
  currentIPT : Z;
  currentTLB : Z;
  mainMemoryBitMap : BitMap;
  swapFileBitMap : BitMap;
  swapFile : File;
  PRand : bool;
  seed : Z;
  spaces : gmap positive AddrSpace;
  space : option positive;
  locks : list KLock;
  intLevel : IntStatus
}.

Definition set_IPT x v := mkVM x (currentIPT v) (currentTLB v) (mainMemoryBitMap v) (swapFileBitMap v) (swapFile v) (PRand v) (seed v) (spaces v) (space v) (locks v) (intLevel v).
Definition set_currentIPT x v := mkVM (IPT v) x (currentTLB v) (mainMemoryBitMap v) (swapFileBitMap v) (swapFile v) (PRand v) (seed v) (spaces v) (space v) (locks v) (intLevel v).
Definition set_currentTLB x v := mkVM (IPT v) (currentIPT v) x (mainMemoryBitMap v) (swapFileBitMap v) (swapFile v) (PRand v) (seed v) (spaces v) (space v) (locks v) (intLevel v).
Definition set_mainMemoryBitMap x v := mkVM (IPT v) (currentIPT v) (currentTLB v) x (swapFileBitMap v) (swapFile v) (PRand v) (seed v) (spaces v) (space v) (locks v) (intLevel v).
Definition set_swap bm f v := mkVM (IPT v) (currentIPT v) (currentTLB v) (mainMemoryBitMap v) bm f (PRand v) (seed v) (spaces v) (space v) (locks v) (intLevel v).
Definition set_seed x v := mkVM (IPT v) (currentIPT v) (currentTLB v) (mainMemoryBitMap v) (swapFileBitMap v) (swapFile v) (PRand v) x (spaces v) (space v) (locks v) (intLevel v).
Definition set_spaces x v := mkVM (IPT v) (currentIPT v) (currentTLB v) (mainMemoryBitMap v) (swapFileBitMap v) (swapFile v) (PRand v) (seed v) x (space v) (locks v) (intLevel v).
Definition set_space x v := mkVM (IPT v) (currentIPT v) (currentTLB v) (mainMemoryBitMap v) (swapFileBitMap v) (swapFile v) (PRand v) (seed v) (spaces v) x (locks v) (intLevel v).
Definition set_locks x v := mkVM (IPT v) (currentIPT v) (currentTLB v) (mainMemoryBitMap v) (swapFileBitMap v) (swapFile v) (PRand v) (seed v) (spaces v) (space v) x (intLevel v).
Definition set_intLevel x v := mkVM (IPT v) (currentIPT v) (currentTLB v) (mainMemoryBitMap v) (swapFileBitMap v) (swapFile v) (PRand v) (seed v) (spaces v) (space v) (locks v) x.

(** Lock::Acquire and Lock::Release as the running thread sees them when no other
    thread holds the lock (module Threads has the locks with their waiting
    threads): acquiring a lock one holds, or releasing one that one does not hold,
    prints a message. *)
Definition Acquire (l : KLock) (v : VM) : VM :=
  if decide (l ∈ locks v) then v else set_locks (l :: locks v) v.
Definition Release (l : KLock) (v : VM) : VM :=
  set_locks (filter (.≠ l) (locks v)) v.

(** What the memory system calls: the clock tick that Interrupt::SetLevel takes
    when it turns interrupts back on, and rand() of the C library. *)
Class VMEnv := {
  OneTick : Machine * VM -> C (Machine * VM);
  rand : Z -> Z * Z  (* value, next seed *)
}.

(** system.cc: the part of Initialize that concerns the memory system. The
    garbage is what [new] leaves in the memory it returns. *)
Definition Initialize (g : nat -> TranslationEntry) (gw gs : nat -> Z) (rp : bool) (sd : Z) : C VM :=
  let! bm := new_BitMap NumPhysPages gw in
  let! sm := new_BitMap 4096 gs in
  Ret (mkVM
    ((fun i => mkIPTE (mkTE (virtualPage (g i)) (Z.of_nat i) false
                         (readOnly (g i)) (use (g i)) (dirty (g i))) None)
     <$> seq 0 (Z.to_nat NumPhysPages))
    0 0 bm sm [] rp sd ∅ None [] IntOn).

(** ** Building an address space (AddrSpace::AddrSpace) *)

Definition NOFFMAGIC : Z := 0xbadfad.

(** noff.h: a NoffHeader, ten ints. *)
Record Segment := mkSegment { virtualAddr : Z; inFileAddr : Z; segSize : Z }.
Record NoffHeader := mkNoff {
  noffMagic : Z; code : Segment; initData : Segment; uninitData : Segment
}.

Section Build.
Variable big : bool.

(** The header as the host reads it from the 40 bytes of the buffer. *)
Definition load_noff (buf : list Z) : C NoffHeader :=
  let int i := let! x := load_word big buf (4 * i) in Ret (i32 x) in
  let segment i :=
    let! va := int i in let! fa := int (i + 1) in let! sz := int (i + 2) in
    Ret (mkSegment va fa sz) in
  let! magic := int 0 in
  let! c := segment 1 in let! d := segment 4 in let! u := segment 7 in
  Ret (mkNoff magic c d u).

Definition swap_int (x : Z) : Z := i32 (WordToHost big (u32 x)).
Definition swap_segment (s : Segment) : Segment :=
  mkSegment (swap_int (virtualAddr s)) (swap_int (inFileAddr s)) (swap_int (segSize s)).
Definition SwapHeader (n : NoffHeader) : NoffHeader :=
  mkNoff (swap_int (noffMagic n)) (swap_segment (code n)) (swap_segment (initData n))
    (swap_segment (uninitData n)).

(** The entry of page [i] in a table that [new] returned with content [g]. *)
Definition init_page (loc : Z) (g : PageTableEntry) (i : Z) : PageTableEntry :=
  mkPTE (mkTE i (physicalPage (entry g)) false false false false)
    loc (i32 (u32 (40 + i * PageSize))) (swapLocation g).

(** [buf] is the header's stack memory, [g] and [gt], [gp] the content of the page
    table and of the file table that [new] returns. *)
Definition new_AddrSpace (file : File) (buf : list Z) (g : nat -> PageTableEntry)
    (gt gp : nat -> Z) : C AddrSpace :=
  let! ft := new_Table MaxOpenFiles gt gp in
  let! (_, ft) := Put ft NULL in
  let! (_, ft) := Put ft NULL in
  let! hdr := ReadAt file 40 0 in
  let! noffH := load_noff (hdr ++ drop (length hdr) buf) in
  let noffH :=
    if negb (noffMagic noffH =? NOFFMAGIC) && (swap_int (noffMagic noffH) =? NOFFMAGIC)
    then SwapHeader noffH else noffH in
  let! _ := ASSERT (noffMagic noffH =? NOFFMAGIC) in
  let size := u32 (segSize (code noffH) + segSize (initData noffH) + segSize (uninitData noffH)) in
  let np := u32 (divRoundUp size PageSize + divRoundUp UserStackSize PageSize) in
  Ret (mkAddrSpace ft
    ((fun i => init_page 1 (g i) (Z.of_nat i)) <$> seq 0 (Z.to_nat np))
    np [i32 np] file).
End Build.

(** ** Operations of an address space

    [this] is the address space's pointer. *)

Definition deref (p : option positive) (v : VM) : C AddrSpace :=
  match p with
  | Some s => match spaces v !! s with Some a => Ret a | None => Undef end
  | None => Undef
  end.

Definition update_space (s : positive) (f : AddrSpace -> AddrSpace) (v : VM) : VM :=
  set_spaces (alter f s (spaces v)) v.

(** [pageTable[vpn] = f(pageTable[vpn])] *)
Definition update_page (s : positive) (vpn : Z) (f : PageTableEntry -> PageTableEntry) (v : VM) : C VM :=
  let! a := deref (Some s) v in
  let! e := aref (pages a) vpn in
  let! ps := aset (pages a) vpn (f e) in
  Ret (update_space s (set_pages ps) v).

(** [IPT[ppn] = f(IPT[ppn])] *)
Definition update_IPT (ppn : Z) (f : IPTEntry -> IPTEntry) (v : VM) : C VM :=
  let! e := aref (IPT v) ppn in
  let! t := aset (IPT v) ppn (f e) in Ret (set_IPT t v).

Definition set_valid b e := mkTE (virtualPage e) (physicalPage e) b (readOnly e) (use e) (dirty e).
Definition set_dirty b e := mkTE (virtualPage e) (physicalPage e) (valid e) (readOnly e) (use e) b.
Definition set_physicalPage p e := mkTE (virtualPage e) p (valid e) (readOnly e) (use e) (dirty e).
Definition set_entry f (e : PageTableEntry) := mkPTE (f (entry e)) (location e) (byteOffset e) (swapLocation e).
Definition set_ientry f (e : IPTEntry) := mkIPTE (f (ientry e)) (owner e).

(** [bzero(&machine->mainMemory[ppn*PageSize], PageSize)] *)
Definition bzero_frame (ppn : Z) (m : Machine) : C Machine :=
  let! mem := store_bytes (mainMemory m) (ppn * PageSize) (replicate (Z.to_nat PageSize) 0) in
  Ret (set_mainMemory mem m).

Definition InitRegisters (a : AddrSpace) (m : Machine) : C Machine :=
  let! m := for_upto 0 (Z.to_nat NumTotalRegs) (fun i m => WriteRegister m i 0) m in
  let! m := WriteRegister m PCReg 0 in
  let! m := WriteRegister m NextPCReg 4 in
  WriteRegister m StackReg (i32 (u32 (numPages a * PageSize - 16))).

Section Operations.
Context `{!VMEnv}.

(** interrupt->SetLevel(now) *)
Definition SetLevel (now : IntStatus) '((m, v) : Machine * VM) : C (IntStatus * (Machine * VM)) :=
  let old := intLevel v in
  let v := set_intLevel now v in
  if decide (now = IntOn /\ old = IntOff) then let! s := OneTick (m, v) in Ret (old, s)
  else Ret (old, (m, v)).

Definition SaveState '((m, v) : Machine * VM) : C (Machine * VM) :=
  let! (oldLevel, (m, v)) := SetLevel IntOff (m, v) in
  let v := Acquire TLBLock v in
  let! m :=
    for_upto 0 (Z.to_nat TLBSize) (fun i m =>
      match tlb m with
      | Some t => let! e := aref t i in let! t := aset t i (set_valid false e) in Ret (set_tlb (Some t) m)
      | None => Undef
      end) m in
  let v := Release TLBLock v in
  let! (_, s) := SetLevel oldLevel (m, v) in Ret s.

Definition RestoreState (a : AddrSpace) (m : Machine) : Machine :=
  mkMachine (mainMemory m) (registers m) (tlb m) (pageTable m) (numPages a)
    (singleStep m) (runUntilTime m) (lastUsed m).

(** Both clearMem and clearStack free the frame of an entry. *)
Definition clear_frame (ppn : Z) '((m, v) : Machine * VM) : C (Machine * VM) :=
  let! bm := Clear (mainMemoryBitMap v) ppn in
  let! m := bzero_frame ppn m in
  Ret (m, set_mainMemoryBitMap bm v).

Definition clearMem (this : positive) '((m, v) : Machine * VM) : C (Machine * VM) :=
  let! a := deref (Some this) v in
  for_upto 0 (Z.to_nat (numPages a)) (fun i '(m, v) =>
    let! a := deref (Some this) v in
    let! e := aref (pages a) i in
    if valid (entry e) then
      let v := Acquire bitMapLock v in
      let! (m, v) := clear_frame (physicalPage (entry e)) (m, v) in
      let v := Release bitMapLock v in
      let v := Acquire IPTLock v in
      let! v := update_IPT (physicalPage (entry e)) (set_ientry (set_valid false)) v in
      let v := Release IPTLock v in
      let! v := update_page this i (set_entry (set_valid false)) v in
      Ret (m, v)
    else Ret (m, v)) (m, v).

Definition clearStack (this : positive) (stack : Z) '((m, v) : Machine * VM) : C (Machine * VM) :=
  let v := Acquire bitMapLock v in
  let stackEnd := Z.quot stack PageSize in
  let! (m, v) :=
    for_upto (stackEnd - 7) 8 (fun i '(m, v) =>
      let! a := deref (Some this) v in
      let! e := aref (pages a) i in
      let! (m, v) := clear_frame (physicalPage (entry e)) (m, v) in
      let v := Acquire IPTLock v in
      let! v := update_IPT (physicalPage (entry e)) (set_ientry (set_valid false)) v in
      let v := Release IPTLock v in
      let! v := update_page this i (set_entry (set_valid false)) v in
      Ret (m, v)) (m, v) in
  Ret (m, Release bitMapLock v).

(** [g]: the content of the new table. The copied entries keep everything but
    swapLocation. *)
Definition allocateStack (this : positive) (g : nat -> PageTableEntry) '((m, v) : Machine * VM) :
    C (Machine * VM) :=
  let v := Acquire (pageLock this) v in
  let v := Acquire (queueLock this) v in
  let! a := deref (Some this) v in
  let np := u32 (numPages a + 8) in
  let v := Release (queueLock this) v in
  let! t :=
    for_upto 0 (Z.to_nat (np - 8)) (fun i t =>
      let! e := aref (pages a) i in
      let! d := aref t i in
      aset t i (mkPTE (entry e) (location e) (byteOffset e) (swapLocation d)))
      (g <$> seq 0 (Z.to_nat np)) in
  let! t :=
    for_upto (np - 8) 8 (fun i t =>
      let! d := aref t i in aset t i (init_page 2 d i)) t in
  let a' := mkAddrSpace (fileTable a) t np (numPageQueue a ++ [i32 np]) (executable a) in
  let v := set_spaces (<[this := a']> (spaces v)) v in
  let m := RestoreState a' m in
  Ret (m, Release (pageLock this) v).

Definition getNumPages (this : positive) (v : VM) : C (Z * VM) :=
  let v := Acquire (queueLock this) v in
  let! a := deref (Some this) v in
  match numPageQueue a with
  | [] => Undef
  | n :: q =>
      let v := update_space this (fun a => mkAddrSpace (fileTable a) (pages a) (numPages a) q (executable a)) v in
      Ret (n, Release (queueLock this) v)
  end.

(** ** The page fault handler *)

(** From the executable or from the swap file into frame [ppn]. *)
Definition load_page (x : File) (e : PageTableEntry) (ppn : Z) '((m, v) : Machine * VM) : C (Machine * VM) :=
  if location e =? 1 then
    let! d := ReadAt x PageSize (byteOffset e) in
    let! mem := store_bytes (mainMemory m) (ppn * PageSize) d in
    Ret (set_mainMemory mem m, v)
  else if location e =? 0 then
    let v := Acquire swapFileLock v in
    let! d := ReadAt (swapFile v) PageSize (swapLocation e * PageSize) in
    let! mem := store_bytes (mainMemory m) (ppn * PageSize) d in
    Ret (set_mainMemory mem m, Release swapFileLock v)
  else Ret (m, v).

Definition IPTMiss (this : positive) (vpn ppn : Z) '((m, v) : Machine * VM) : C (Machine * VM) :=
  let! m := bzero_frame ppn m in
  let! a := deref (Some this) v in
  let! e := aref (pages a) vpn in
  let! (m, v) := load_page (executable a) e ppn (m, v) in
  let! v := update_page this vpn (set_entry (fun x => set_physicalPage ppn (set_valid true x))) v in
  let! v := update_IPT ppn (fun _ =>
    mkIPTE (mkTE vpn ppn true (readOnly (entry e)) (use (entry e)) (dirty (entry e))) (Some this)) v in
  Ret (m, v).

Definition swappedPage (this : positive) (vpn swapLoc : Z) (v : VM) : C VM :=
  update_page this vpn (fun e => mkPTE (set_valid false (entry e)) 0 (byteOffset e) swapLoc) v.

Definition evictedPage (this : positive) (vpn : Z) (v : VM) : C VM :=
  update_page this vpn (set_entry (set_valid false)) v.

Definition updateTLB (ppn : Z) '((m, v) : Machine * VM) : C (Machine * VM) :=
  let v := Acquire TLBLock v in
  match tlb m with
  | None => Undef
  | Some t =>
      let! e := aref t (currentTLB v) in
      let! v :=
        if dirty e then update_IPT (physicalPage e) (set_ientry (set_dirty (dirty e))) v
        else Ret v in
      let! ie := aref (IPT v) ppn in
      let! t := aset t (currentTLB v) (ientry ie) in
      let v := set_currentTLB (Z.rem (currentTLB v + 1) TLBSize) v in
      Ret (set_tlb (Some t) m, Release TLBLock v)
  end.

(** One turn of the loop that drops the victim's TLB entries. *)
Definition drop_slot (ppn i : Z) '((m, v) : Machine * VM) : C (Machine * VM) :=
  match tlb m with
  | None => Undef
  | Some t =>
      let! e := aref t i in
      if physicalPage e =? ppn then
        let! t := aset t i (set_valid false e) in
        let! v := update_IPT ppn (set_ientry (set_dirty (dirty e))) v in
        Ret (set_tlb (Some t) m, v)
      else Ret (m, v)
  end.

(** The method of the IPT entry's owner. *)
Definition evict_owner (ie : IPTEntry) (f : positive -> Z -> VM -> C VM) (v : VM) : C VM :=
  match owner ie with Some s => f s (virtualPage (ientry ie)) v | None => Undef end.

(** Halt stops the process. *)
Definition HandleMemoryFull '((m, v) : Machine * VM) : C (Z * (Machine * VM)) :=
  let '(ppn, v) :=
    if PRand v then
      let '(r, sd) := rand (seed v) in (Z.rem r NumPhysPages, set_seed sd v)
    else (currentIPT v, set_currentIPT (Z.rem (currentIPT v + 1) NumPhysPages) v) in
  let v := Acquire TLBLock v in
  let! (m, v) := for_upto 0 (Z.to_nat TLBSize) (drop_slot ppn) (m, v) in
  let v := Release TLBLock v in
  let! ie := aref (IPT v) ppn in
  if dirty (ientry ie) then
    let v := Acquire swapFileLock v in
    let! (swapLoc, bm) := Find (swapFileBitMap v) in
    if swapLoc =? -1 then Abort
    else
      let! f := WriteAt (swapFile v)
        (take (Z.to_nat PageSize) (drop (Z.to_nat (ppn * PageSize)) (mainMemory m)))
        (swapLoc * PageSize) in
      let v := set_swap bm f v in
      let! v := evict_owner ie (fun s vpn => swappedPage s vpn swapLoc) v in
      Ret (ppn, (m, Release swapFileLock v))
  else
    let! v := evict_owner ie evictedPage v in Ret (ppn, (m, v)).

Definition HandleIPTMiss (vpn : Z) '((m, v) : Machine * VM) : C (Z * (Machine * VM)) :=
  let v := Acquire bitMapLock v in
  let! (ppn, bm) := Find (mainMemoryBitMap v) in
  let v := set_mainMemoryBitMap bm v in
  let! (ppn, (m, v)) :=
    if ppn =? -1 then HandleMemoryFull (m, v) else Ret (ppn, (m, v)) in
  match space v with
  | None => Undef
  | Some this =>
      let! (m, v) := IPTMiss this vpn ppn (m, v) in
      Ret (ppn, (m, Release bitMapLock v))
  end.

(** The search of the inverted page table, from frame [i]. *)
Fixpoint IPT_search (v : VM) (vpn i : Z) (n : nat) : C Z :=
  match n with
  | O => Ret (-1)
  | S n =>
      let! e := aref (IPT v) i in
      if (virtualPage (ientry e) =? vpn) && bool_decide (owner e = space v) && valid (ientry e)
      then Ret (physicalPage (ientry e))
      else IPT_search v vpn (i + 1) n
  end.

Definition HandlePageFault (s : Machine * VM) : C (Machine * VM) :=
  let! (oldLevel, (m, v)) := SetLevel IntOff s in
  let! bad := ReadRegister m BadVAddrReg in
  let vpn := Z.quot bad PageSize in
  let v := Acquire IPTLock v in
  let! ppn := IPT_search v vpn 0 (Z.to_nat NumPhysPages) in
  let! (ppn, (m, v)) :=
    if ppn =? -1 then HandleIPTMiss vpn (m, v) else Ret (ppn, (m, v)) in
  let! (m, v) := updateTLB ppn (m, v) in
  let v := Release IPTLock v in
  let! (_, s) := SetLevel oldLevel (m, v) in Ret s.
End Operations.
