(* ===== verification/Paging.v ===== *)
(** * Demand paging is transparent (the contract of VM.v)

    The content of a page is the same bytes wherever they are: in a frame, in the
    executable or in the swap file. The invariant [core] relates the TLB, the
    inverted page table, the bit maps and the page tables; every step of the page
    fault handler keeps it and the content of every page of every address space. *)

From S2P Require Import Prelude Interrupt BitMap Table Machine VM.

(** ** Contract: the content of the pages *)

Definition page_size : nat := 128.

(** What is read from [pos] on, the rest of the page zero. *)
Definition file_page (f : File) (pos : Z) : list Z :=
  let d := take page_size (drop (Z.to_nat pos) f) in d ++ replicate (page_size - length d) 0.

Definition frame (m : Machine) (p : nat) : list Z :=
  take page_size (drop (p * page_size) (mainMemory m)).

(** What a page holds when it is not in memory: [x] is the executable. *)
Definition backing (sf x : File) (e : PageTableEntry) : list Z :=
  if location e =? 1 then file_page x (byteOffset e)
  else if location e =? 0 then file_page sf (swapLocation e * PageSize)
  else replicate page_size 0.

(** Page [n] of address space [s]: its executable and its page table entry. *)
Definition page_of (v : VM) (s : positive) (n : nat) : option (File * PageTableEntry) :=
  a ← spaces v !! s; e ← pages a !! n; Some (executable a, e).

Definition page_content (m : Machine) (sf : File) (xe : File * PageTableEntry) : list Z :=
  if valid (entry xe.2) then frame m (Z.to_nat (physicalPage (entry xe.2)))
  else backing sf xe.1 xe.2.

(** The 128 bytes that page [n] of [s] holds, wherever they are. *)
Definition content (m : Machine) (v : VM) (s : positive) (n : nat) : option (list Z) :=
  page_content m (swapFile v) <$> page_of v s n.

(** Frame [p] holds what the page it belongs to has in its backing store. *)
Definition clean (m : Machine) (v : VM) (p : nat) : Prop :=
  forall ie s n x e, IPT v !! p = Some ie -> owner ie = Some s ->
    virtualPage (ientry ie) = Z.of_nat n -> page_of v s n = Some (x, e) ->
    frame m p = backing (swapFile v) x e.

Definition nfree (v : VM) : Z := Z.of_nat (length (clear_bits (mainMemoryBitMap v))).

(** Page faults until the FIFO pointer reaches frame [p], and until slot [j] of the
    TLB is reused. *)
Definition turns (v : VM) (p : nat) : Z := (Z.of_nat p - currentIPT v) mod NumPhysPages.
Definition age (v : VM) (j : nat) : Z := (Z.of_nat j - currentTLB v) mod TLBSize.

(** Page table entries are the ones the constructors make, or pages written to
    their own slot of the swap file. *)
Record entry_ok (sb : BitMap) (n : nat) (e : PageTableEntry) : Prop := {
  e_small : Z.of_nat n < 2^31;
  e_readOnly : readOnly (entry e) = false;
  e_dirty : dirty (entry e) = false;
  e_offset : location e = 1 -> 0 <= byteOffset e;
  e_swapped : location e = 0 ->
    0 <= swapLocation e < 4096 /\ bit sb (swapLocation e) = true
}.

(** Frame [p], entry [ie] of the inverted page table, holds page [n] of [s]. *)
Definition holds (v : VM) (p : nat) (s : positive) (n : nat) : Prop :=
  exists ie, IPT v !! p = Some ie /\ valid (ientry ie) = true /\ owner ie = Some s /\
    virtualPage (ientry ie) = Z.of_nat n.

(** The invariant of the memory system under FIFO replacement while one address
    space runs. [r] is the frame a fault has reserved and not yet filled, [k] is 1
    from then until its TLB slot is loaded. *)
Record core (r : option nat) (k : Z) (m : Machine) (v : VM) : Prop := {
  c_machine : wf_machine m;
  c_tlb : is_Some (tlb m);
  c_IPT : length (IPT v) = 256%nat;
  c_frames : wf (mainMemoryBitMap v) /\ numBits (mainMemoryBitMap v) = 256;
  c_swap : wf (swapFileBitMap v) /\ numBits (swapFileBitMap v) = 4096;
  c_next : 0 <= currentIPT v < 256 /\ 0 <= currentTLB v < 4;
  c_fifo : PRand v = false;
  c_files : Forall is_i8 (swapFile v) /\
    (forall s n x e, page_of v s n = Some (x, e) -> Forall is_i8 x);
  (* the inverted page table, the bit map and the page tables agree *)
  c_frame p ie : IPT v !! p = Some ie -> r <> Some p ->
    bit (mainMemoryBitMap v) (Z.of_nat p) = valid (ientry ie) /\
    (valid (ientry ie) = true ->
       physicalPage (ientry ie) = Z.of_nat p /\ readOnly (ientry ie) = false /\
       exists s n x e, owner ie = Some s /\ virtualPage (ientry ie) = Z.of_nat n /\
         page_of v s n = Some (x, e) /\ valid (entry e) = true /\
         physicalPage (entry e) = Z.of_nat p);
  c_reserved p : r = Some p -> (p < 256)%nat /\ bit (mainMemoryBitMap v) (Z.of_nat p) = true;
  c_page s n x e : page_of v s n = Some (x, e) ->
    entry_ok (swapFileBitMap v) n e /\
    (valid (entry e) = true ->
       exists p, physicalPage (entry e) = Z.of_nat p /\ r <> Some p /\ holds v p s n);
  (* a valid slot maps a page of the running space, and knows if it was written *)
  c_slot t j e : tlb m = Some t -> t !! j = Some e -> valid e = true ->
    readOnly e = false /\
    exists p s n, physicalPage e = Z.of_nat p /\ r <> Some p /\ space v = Some s /\
      virtualPage e = Z.of_nat n /\ holds v p s n /\ (clean m v p \/ dirty e = true);
  c_unique t i j e e' : tlb m = Some t -> t !! i = Some e -> t !! j = Some e' ->
    valid e = true -> valid e' = true -> physicalPage e = physicalPage e' -> i = j;
  (* a page with no slot has its dirty bit in the inverted page table *)
  c_unmapped t p ie : tlb m = Some t -> IPT v !! p = Some ie -> r <> Some p ->
    valid (ientry ie) = true ->
    (forall j e, t !! j = Some e -> valid e = true -> physicalPage e <> Z.of_nat p) ->
    clean m v p \/ dirty (ientry ie) = true;
  (* an invalid slot is reused before the frame it names can be evicted *)
  c_stale t j e p : tlb m = Some t -> t !! j = Some e -> valid e = false ->
    physicalPage e = Z.of_nat p -> (p < 256)%nat ->
    age v j < turns v p + nfree v + k;
  c_garbage t j e : tlb m = Some t -> t !! j = Some e -> dirty e = true ->
    0 <= physicalPage e < 256
}.

(** ** Lookups and updates *)

Lemma aref_nat {A} (l : list A) n a : l !! n = Some a -> aref l (Z.of_nat n) = Ret a.
Proof. intros. apply aref_Ret. split; [lia|]. by rewrite Nat2Z.id. Qed.

Lemma aset_nat {A} (l : list A) n a b :
  l !! n = Some a -> aset l (Z.of_nat n) b = Ret (<[n := b]> l).
Proof.
  intros H%lookup_lt_Some. rewrite aset_in by lia. by rewrite Nat2Z.id.
Qed.

Lemma update_IPT_spec v p ie f :
  IPT v !! p = Some ie ->
  update_IPT (Z.of_nat p) f v = Ret (set_IPT (<[p := f ie]> (IPT v)) v).
Proof.
  intros H. unfold update_IPT. rewrite (aref_nat _ _ _ H). cbn [bind].
  by rewrite (aset_nat _ _ _ _ H).
Qed.

Lemma page_of_Some v s n x e :
  page_of v s n = Some (x, e) <->
  exists a, spaces v !! s = Some a /\ pages a !! n = Some e /\ executable a = x.
Proof.
  unfold page_of. split.
  - intros (a & Ha & (y & Hy & [= <- <-])%bind_Some)%bind_Some. by exists a.
  - intros (a & -> & He & <-). cbn. by rewrite He.
Qed.

Lemma update_page_spec v s n x e f :
  page_of v s n = Some (x, e) ->
  exists sp, update_page s (Z.of_nat n) f v = Ret (set_spaces sp v) /\
    (forall s' n', page_of (set_spaces sp v) s' n' =
       if decide (s' = s /\ n' = n) then Some (x, f e) else page_of v s' n') /\
    (forall s', is_Some (sp !! s') <-> is_Some (spaces v !! s')).
Proof.
  intros (a & Ha & He & Hx)%page_of_Some. unfold update_page, deref. rewrite Ha. cbn [bind].
  rewrite (aref_nat _ _ _ He). cbn [bind]. rewrite (aset_nat _ _ _ _ He). cbn [bind].
  eexists. split; [reflexivity|]. split.
  - intros s' n'. unfold page_of. cbn. destruct (decide (s' = s)) as [->|Hs].
    + rewrite lookup_alter_eq, Ha. cbn. destruct (decide (n' = n)) as [->|Hn].
      * rewrite list_lookup_insert_eq by (by eapply lookup_lt_Some). cbn. subst x.
        by rewrite decide_True.
      * rewrite list_lookup_insert_ne by done. by rewrite decide_False by tauto.
    + rewrite lookup_alter_ne by done. by rewrite decide_False by tauto.
  - intros s'. destruct (decide (s' = s)) as [->|Hs].
    + rewrite lookup_alter_eq, Ha. cbn. split; eauto.
    + by rewrite lookup_alter_ne.
Qed.

Lemma Acquire_new l v : l ∉ locks v -> Acquire l v = set_locks (l :: locks v) v.
Proof. intros. unfold Acquire. by rewrite decide_False. Qed.

(** The running thread holds none of the locks of the memory system. *)
Definition unlocked (ls : list KLock) : Prop :=
  IPTLock ∉ ls /\ bitMapLock ∉ ls /\ TLBLock ∉ ls /\ swapFileLock ∉ ls.

Lemma unlocked_nil ls : ls = [] -> unlocked ls.
Proof. intros ->. repeat split; apply not_elem_of_nil. Qed.

(** [l ∉ l1 :: l2 :: ... :: ls] for another lock [l] that is not in [ls]. *)
Ltac lock_free :=
  cbn; repeat (apply not_elem_of_cons; split; [discriminate|]);
  solve [apply not_elem_of_nil | match goal with H : unlocked _ |- _ => apply H end].

Lemma filter_absent (l : KLock) (ls : list KLock) : l ∉ ls -> filter (.≠ l) ls = ls.
Proof. intros H. apply filter_all, Forall_forall. intros x Hx ->. done. Qed.

(** Releasing the lock that was acquired last. *)
Lemma Release_last l ls v : locks v = l :: ls -> l ∉ ls -> Release l v = set_locks ls v.
Proof.
  intros Hl Hn. unfold Release. rewrite Hl, filter_cons_False by (intros Hx; by apply Hx).
  by rewrite filter_absent.
Qed.

(** ** Frames *)

Lemma frame_lookup m p i :
  (i < page_size)%nat -> frame m p !! i = mainMemory m !! (p * page_size + i)%nat.
Proof. intros. unfold frame. by rewrite lookup_take_lt, lookup_drop. Qed.

Lemma frame_length m p : wf_machine m -> (p < 256)%nat -> length (frame m p) = page_size.
Proof.
  intros Hwf Hp. unfold frame. rewrite length_take, length_drop, (wf_memory m Hwf).
  unfold page_size. replace (Z.to_nat MemorySize) with (256 * 128)%nat by reflexivity. lia.
Qed.

Lemma frame_ext m m' p : mainMemory m' = mainMemory m -> frame m' p = frame m p.
Proof. unfold frame. by intros ->. Qed.

Lemma frame_inserts m bs p q :
  (length bs <= page_size)%nat -> q <> p ->
  frame (set_mainMemory (list_inserts (p * page_size) bs (mainMemory m)) m) q = frame m q.
Proof.
  intros Hb Hq. apply list_eq. intros i. destruct (decide (i < page_size)%nat) as [Hi|Hi].
  - rewrite !frame_lookup by done. cbn. unfold page_size in *.
    destruct (decide (q < p)%nat).
    + apply list_lookup_inserts_lt. lia.
    + apply list_lookup_inserts_ge. lia.
  - unfold frame. by rewrite !lookup_take_ge by lia.
Qed.

Lemma file_page_length f pos : length (file_page f pos) = page_size.
Proof.
  unfold file_page. rewrite length_app, length_replicate, length_take. lia.
Qed.

Lemma backing_length sf x e : length (backing sf x e) = page_size.
Proof.
  unfold backing. destruct (_ =? _); [apply file_page_length|].
  destruct (_ =? _); [apply file_page_length | apply length_replicate].
Qed.

Lemma list_inserts_app {A} i (bs cs l : list A) :
  list_inserts i (bs ++ cs) l = list_inserts i bs (list_inserts (i + length bs) cs l).
Proof.
  revert i. induction bs as [|b bs IH]; intros i; cbn; [by rewrite Nat.add_0_r|].
  rewrite IH. do 3 f_equal. lia.
Qed.

Lemma list_inserts_covered {A} i (bs cs l : list A) :
  (length cs <= length bs)%nat -> list_inserts i bs (list_inserts i cs l) = list_inserts i bs l.
Proof.
  intros Hl. apply list_eq. intros j.
  destruct (decide (j < i)%nat); [by rewrite !list_lookup_inserts_lt by lia|].
  destruct (decide (i + length bs <= j)%nat); [by rewrite !list_lookup_inserts_ge by lia|].
  destruct (decide (j < length l)%nat).
  - by rewrite !list_lookup_inserts by (rewrite ?length_inserts; lia).
  - rewrite !lookup_ge_None_2 by (rewrite !length_inserts; lia). done.
Qed.

(** Zeroing a range and then reading fewer bytes over it. *)
Lemma list_inserts_padded {A} i n (z : A) d l :
  (length d <= n)%nat ->
  list_inserts i d (list_inserts i (replicate n z) l) =
  list_inserts i (d ++ replicate (n - length d) z) l.
Proof.
  intros Hd. rewrite list_inserts_app.
  replace (replicate n z) with (replicate (length d) z ++ replicate (n - length d) z)
    by (rewrite <- replicate_add; f_equal; lia).
  rewrite list_inserts_app, list_inserts_covered by (by rewrite length_replicate).
  by rewrite length_replicate.
Qed.

Lemma frame_loaded m bs p :
  wf_machine m -> (p < 256)%nat -> length bs = page_size ->
  frame (set_mainMemory (list_inserts (p * page_size) bs (mainMemory m)) m) p = bs.
Proof.
  intros Hwf Hp Hb. pose proof (wf_memory m Hwf) as Hm. replace (Z.to_nat MemorySize) with (256 * 128)%nat in Hm by reflexivity.
  apply list_eq. intros i. destruct (decide (i < page_size)%nat) as [Hi|Hi].
  - rewrite frame_lookup by done. cbn. unfold page_size in *.
    rewrite list_lookup_inserts by lia. f_equal. lia.
  - unfold frame. rewrite lookup_take_ge by lia. symmetry. apply lookup_ge_None_2. lia.
Qed.

(** ** The invariant step by step *)

Lemma core_machine r k m m' v :
  core r k m v -> wf_machine m' -> tlb m' = tlb m -> mainMemory m' = mainMemory m ->
  core r k m' v.
Proof.
  intros [] Hwf Ht Hm.
  assert (forall p, clean m v p -> clean m' v p) as Hc
    by (intros p Hp ie s n x e ????; rewrite (frame_ext m m') by done; eauto).
  constructor; rewrite ?Ht; try done.
  - intros t j e Hj He Hv. destruct (c_slot0 t j e Hj He Hv) as (? & p & s & n & ?&?&?&?&?&Hd).
    split; [done|]. exists p, s, n. do 5 (split; [done|]). destruct Hd; auto.
  - intros t p ie Hj Hi Hr Hv Hn. destruct (c_unmapped0 t p ie); auto.
Qed.

Lemma core_locks r k m v ls : core r k m v -> core r k m (set_locks ls v).
Proof. intros []. constructor; assumption. Qed.

Lemma core_level r k m v b : core r k m v -> core r k m (set_intLevel b v).
Proof. intros []. constructor; assumption. Qed.

#[local] Hint Resolve core_locks core_level : core.

Lemma frames_range v p ie : length (IPT v) = 256%nat -> IPT v !! p = Some ie -> (p < 256)%nat.
Proof. intros <- H. by eapply lookup_lt_Some. Qed.

Lemma core_holds_bit r k m v p s n :
  core r k m v -> holds v p s n -> r <> Some p -> bit (mainMemoryBitMap v) (Z.of_nat p) = true.
Proof.
  intros K (ie & Hi & Hv & _) Hr. by destruct (c_frame _ _ _ _ K p ie Hi Hr) as [-> _].
Qed.

Definition no_slot (m : Machine) (p : nat) : Prop :=
  forall t j e, tlb m = Some t -> t !! j = Some e -> valid e = true -> physicalPage e <> Z.of_nat p.

(** A free frame is reserved. *)
Lemma find_core m v p rest :
  core None 0 m v -> clear_bits (mainMemoryBitMap v) = p :: rest ->
  exists q bm, p = Z.of_nat q /\ Find (mainMemoryBitMap v) = Ret (p, bm) /\
    core (Some q) 1 m (set_mainMemoryBitMap bm v) /\ no_slot m q.
Proof.
  intros K Hcl. pose proof (c_frames _ _ _ _ K) as [Hbm Hnb].
  pose proof (Find_allocates_least_spec _ Hbm) as Hf. rewrite Hcl in Hf.
  destruct Hf as (bm & Hf & Hwf & Hn & Hrest & Hp & Hb & _).
  assert (bit (mainMemoryBitMap v) p = false) as Hfree.
  { apply clear_bits_in. rewrite Hcl. by left. }
  destruct (Z_of_nat_complete p ltac:(lia)) as [q ->].
  assert (forall p' s n, holds v p' s n -> p' <> q) as Hne.
  { intros p' s n Hh ->. by rewrite (core_holds_bit _ _ _ _ _ _ _ K Hh) in Hfree. }
  exists q, bm. split; [done|]. split; [done|]. destruct K. split; [constructor; try done|].
  - cbn. by rewrite Hn.
  - intros p' ie Hi Hr. cbn. rewrite Hb by lia.
    destruct (Z.eqb_spec (Z.of_nat p') (Z.of_nat q)); [naive_solver lia|]. by apply c_frame0.
  - intros ? [= <-]. split; [lia|]. cbn. rewrite Hb, Z.eqb_refl by lia. done.
  - intros s n x e He. destruct (c_page0 s n x e He) as [[] Hv]. split; [done|].
    intros Hv'. destruct (Hv Hv') as (p' & ? & _ & Hh). exists p'. split; [done|].
    split; [|done]. intros [= ->]. by eapply Hne.
  - intros t j e Ht Hj Hv. destruct (c_slot0 t j e Ht Hj Hv) as (? & p' & s & n & ? & _ & ? & ? & Hh & ?).
    split; [done|]. exists p', s, n. repeat split; try done. intros [= ->]. by eapply Hne.
  - intros t p' ie Ht Hi Hr. by apply c_unmapped0.
  - intros t j e p' Ht Hj Hv Hpp Hlt. pose proof (c_stale0 t j e p' Ht Hj Hv Hpp Hlt).
    unfold nfree in *. cbn. rewrite Hcl in *. rewrite Hrest. cbn [length] in *.
    change (age (set_mainMemoryBitMap bm v) j) with (age v j).
    change (turns (set_mainMemoryBitMap bm v) p') with (turns v p'). lia.
  - intros t j e Ht Hj Hv Hpp. destruct (c_slot0 t j e Ht Hj Hv) as (_ & p' & s & n & Hp' & _ & _ & _ & Hh & _).
    apply (Hne _ _ _ Hh). lia.
Qed.

(** *** Files *)

Definition file_byte (f : File) (k : nat) : Z := default 0 (f !! k).

Lemma file_page_lookup f pos i : (i < page_size)%nat ->
  file_page f pos !! i = Some (file_byte f (Z.to_nat pos + i)).
Proof.
  intros Hi. unfold file_page, file_byte. set (d := take _ _).
  assert (forall j, (j < page_size)%nat -> d !! j = f !! (Z.to_nat pos + j)%nat) as Hd.
  { intros j Hj. unfold d. by rewrite lookup_take_lt, lookup_drop. }
  rewrite <- Hd by done. destruct (d !! i) as [x|] eqn:E.
  - by rewrite lookup_app_l, E by (by eapply lookup_lt_Some).
  - apply lookup_ge_None in E. rewrite lookup_app_r by done. rewrite lookup_replicate_2 by lia. done.
Qed.

Lemma file_page_ext f f' pos pos' :
  (forall i, (i < page_size)%nat -> file_byte f (Z.to_nat pos + i) = file_byte f' (Z.to_nat pos' + i)) ->
  file_page f pos = file_page f' pos'.
Proof.
  intros He. apply list_eq. intros i. destruct (decide (i < page_size)%nat).
  - rewrite !file_page_lookup by done. by rewrite He.
  - by rewrite !lookup_ge_None_2 by (rewrite file_page_length; lia).
Qed.

Lemma WriteAt_spec f d pos :
  0 <= pos -> exists f', WriteAt f d pos = Ret f' /\
    forall k, file_byte f' k =
      if decide (Z.to_nat pos <= k < Z.to_nat pos + length d)%nat
      then default 0 (d !! (k - Z.to_nat pos)%nat) else file_byte f k.
Proof.
  intros Hp. unfold WriteAt. rewrite (proj2 (Z.leb_le _ _)) by done. cbn [ASSERT bind].
  eexists. split; [reflexivity|]. intros k. unfold file_byte. set (p := Z.to_nat pos).
  destruct (decide (k < p)%nat) as [Hlt|Hge].
  - rewrite decide_False by lia. destruct (decide (k < length f)%nat).
    + rewrite lookup_app_l by (rewrite length_take; lia). by rewrite lookup_take_lt.
    + rewrite lookup_app_r by (rewrite length_take; lia). rewrite length_take.
      rewrite lookup_app_l by (rewrite length_replicate; lia).
      rewrite lookup_replicate_2 by lia. by rewrite (lookup_ge_None_2 f) by lia.
  - rewrite lookup_app_r by (rewrite length_take; lia). rewrite length_take.
    rewrite lookup_app_r by (rewrite length_replicate; lia). rewrite length_replicate.
    case_decide as Hin.
    + rewrite lookup_app_l by lia. do 2 f_equal. lia.
    + rewrite lookup_app_r by lia. rewrite lookup_drop. do 2 f_equal. lia.
Qed.

Lemma WriteAt_page f d w :
  0 <= w -> length d = page_size -> exists f', WriteAt f d (w * PageSize) = Ret f' /\
    file_page f' (w * PageSize) = d /\
    forall w', 0 <= w' -> w' <> w -> file_page f' (w' * PageSize) = file_page f (w' * PageSize).
Proof.
  intros Hw Hd. unfold PageSize, SectorSize.
  destruct (WriteAt_spec f d (w * 128) ltac:(lia)) as (f' & Hf & Hb).
  exists f'. split; [done|]. split.
  - apply list_eq. intros i. destruct (decide (i < page_size)%nat) as [Hi|Hi].
    + rewrite file_page_lookup, Hb, decide_True by lia.
      replace (_ + i - _)%nat with i by lia. destruct (lookup_lt_is_Some_2 d i) as [z ->]; [by rewrite Hd | done].
    + by rewrite !lookup_ge_None_2 by (rewrite ?file_page_length; lia).
  - intros w' Hw' Hne. apply file_page_ext. intros i Hi. rewrite Hb, decide_False; [done|].
    unfold page_size in *. nia.
Qed.

Lemma WriteAt_bytes f d pos f' :
  Forall is_i8 f -> Forall is_i8 d -> WriteAt f d pos = Ret f' -> Forall is_i8 f'.
Proof.
  intros Hf Hd Hw. unfold WriteAt in Hw. inv_ret.
  repeat apply Forall_app_2; auto using Forall_take, Forall_drop. by apply Forall_replicate.
Qed.

Lemma file_page_bytes f pos : Forall is_i8 f -> Forall is_i8 (file_page f pos).
Proof.
  intros Hf. apply Forall_app_2; [by apply Forall_take, Forall_drop | by apply Forall_replicate].
Qed.

Lemma backing_bytes sf x e : Forall is_i8 sf -> Forall is_i8 x -> Forall is_i8 (backing sf x e).
Proof.
  intros Hs Hx. unfold backing. destruct (_ =? _); [by apply file_page_bytes|].
  destruct (_ =? _); [by apply file_page_bytes | by apply Forall_replicate].
Qed.

Lemma frame_bytes m p : wf_machine m -> Forall is_i8 (frame m p).
Proof. intros H. apply Forall_take, Forall_drop, H. Qed.

Lemma ReadAt_page f w :
  0 <= w -> exists d, ReadAt f PageSize w = Ret d /\
    (length d <= page_size)%nat /\ d ++ replicate (page_size - length d) 0 = file_page f w.
Proof.
  intros Hw. unfold ReadAt. rewrite (proj2 (Z.leb_le _ _)) by done. cbn [ASSERT bind].
  eexists. split; [reflexivity|]. split; [|done].
  rewrite length_take. apply Nat.le_min_l.
Qed.

(** *** Eviction *)

Definition drop_entry (p : Z) (e : TranslationEntry) : TranslationEntry :=
  if physicalPage e =? p then set_valid false e else e.

(** The dirty bit the loop leaves: that of the last slot that names the frame. *)
Definition last_dirty (p : Z) (t : list TranslationEntry) (d : bool) : bool :=
  fold_left (fun d e => if physicalPage e =? p then dirty e else d) t d.

Definition with_dirty (d : bool) : IPTEntry -> IPTEntry := set_ientry (set_dirty d).

Lemma last_dirty_cases p t d :
  (exists j e, t !! j = Some e /\ physicalPage e = p /\ last_dirty p t d = dirty e) \/
  ((forall j e, t !! j = Some e -> physicalPage e <> p) /\ last_dirty p t d = d).
Proof.
  revert d. induction t as [|e t IH]; intros d; cbn; [by right|].
  destruct (IH (if physicalPage e =? p then dirty e else d)) as [(j & e' & ? & ? & Hl)|[Hn Hl]].
  - left. exists (S j), e'. auto.
  - destruct (Z.eqb_spec (physicalPage e) p) as [He|He].
    + left. exists 0%nat, e. auto.
    + right. split; [|exact Hl]. intros [|j] e' Hj; [by injection Hj as <- | by eapply Hn].
Qed.

Lemma drop_slots ts rest m v p ie d :
  IPT v !! p = Some ie ->
  for_upto (Z.of_nat (length ts)) (length rest) (drop_slot (Z.of_nat p))
    (set_tlb (Some ((drop_entry (Z.of_nat p) <$> ts) ++ rest)) m,
     set_IPT (<[p := with_dirty d ie]> (IPT v)) v) =
  Ret (set_tlb (Some (drop_entry (Z.of_nat p) <$> ts ++ rest)) m,
       set_IPT (<[p := with_dirty (last_dirty (Z.of_nat p) rest d) ie]> (IPT v)) v).
Proof.
  intros Hi. revert ts d. induction rest as [|e rest IH]; intros ts d; cbn [length for_upto].
  - by rewrite !app_nil_r.
  - unfold drop_slot at 1. cbn [set_tlb tlb]. set (t := _ ++ e :: rest).
    assert (t !! length ts = Some e) as He.
    { unfold t. rewrite list_lookup_middle; [done|]. by rewrite length_fmap. }
    rewrite (aref_nat _ _ _ He). cbn [bind].
    specialize (IH (ts ++ [e])). rewrite fmap_app, <- !app_assoc in IH.
    rewrite length_app, Nat2Z.inj_add in IH. cbn [app length fmap list_fmap] in IH.
    unfold drop_entry at 2 in IH. cbn [last_dirty fold_left].
    destruct (physicalPage e =? Z.of_nat p).
    + rewrite (aset_nat _ _ _ _ He). cbn [bind].
      rewrite (update_IPT_spec _ p (with_dirty d ie)) by
        (cbn; rewrite list_lookup_insert_eq; [done | by eapply lookup_lt_Some]).
      cbn [bind set_IPT IPT]. rewrite list_insert_insert_eq.
      replace (<[length ts := set_valid false e]> t)
        with ((drop_entry (Z.of_nat p) <$> ts) ++ set_valid false e :: rest);
        [exact (IH (dirty e))|].
      unfold t. by rewrite insert_app_r_alt, length_fmap, Nat.sub_diag by (by rewrite length_fmap).
    + cbn [bind]. apply (IH d).
Qed.

Lemma drop_loop m v t p ie :
  tlb m = Some t -> length t = 4%nat -> IPT v !! p = Some ie ->
  for_upto 0 (Z.to_nat TLBSize) (drop_slot (Z.of_nat p)) (m, v) =
  Ret (set_tlb (Some (drop_entry (Z.of_nat p) <$> t)) m,
       set_IPT (<[p := with_dirty (last_dirty (Z.of_nat p) t (dirty (ientry ie))) ie]> (IPT v)) v).
Proof.
  intros Ht Hl Hi. pose proof (drop_slots [] t m v p ie (dirty (ientry ie)) Hi) as H.
  rewrite Hl in H. change (Z.to_nat TLBSize) with 4%nat. cbn [app fmap list_fmap length Z.of_nat] in H.
  assert (set_tlb (Some t) m = m) as Em by (destruct m; cbn in *; by subst).
  assert (with_dirty (dirty (ientry ie)) ie = ie) as Ei by (by destruct ie as [[] ?]).
  assert (set_IPT (IPT v) v = v) as Ev by (by destruct v).
  rewrite Em, Ei, list_insert_id, Ev in H by done. exact H.
Qed.

Lemma drop_entry_valid p e : valid (drop_entry p e) = true ->
  drop_entry p e = e /\ physicalPage e <> p.
Proof. unfold drop_entry. destruct (Z.eqb_spec (physicalPage e) p); cbn; auto; done. Qed.

Lemma drop_entry_fields p e :
  physicalPage (drop_entry p e) = physicalPage e /\ dirty (drop_entry p e) = dirty e /\
  (valid (drop_entry p e) = false -> valid e = false \/ physicalPage e = p).
Proof. unfold drop_entry. destruct (Z.eqb_spec (physicalPage e) p); cbn; auto. Qed.

Lemma drop_entry_other p e : physicalPage e <> p -> drop_entry p e = e.
Proof. intros. unfold drop_entry. by rewrite (proj2 (Z.eqb_neq _ _)). Qed.

Lemma turns_next v v' p :
  (p < 256)%nat -> 0 <= currentIPT v < 256 -> currentIPT v' = Z.rem (currentIPT v + 1) 256 ->
  turns v' p = if decide (Z.of_nat p = currentIPT v) then 255 else turns v p - 1.
Proof.
  intros Hp Hc Hn. unfold turns, NumPhysPages. rewrite Hn, Z.rem_mod_nonneg by lia.
  rewrite Zminus_mod_idemp_r. case_decide as Hd.
  - rewrite Hd. replace (_ - _) with (-1) by lia. done.
  - replace (Z.of_nat p - (currentIPT v + 1)) with (Z.of_nat p - currentIPT v - 1) by lia.
    destruct (Z.lt_ge_cases (Z.of_nat p) (currentIPT v)).
    + rewrite <- (Zmod_unique (Z.of_nat p - currentIPT v) 256 (-1) (Z.of_nat p - currentIPT v + 256)) by lia.
      symmetry. apply Zmod_unique with (-1); lia.
    + rewrite !Z.mod_small by lia. lia.
Qed.

Lemma age_range v j : 0 <= age v j < 4.
Proof. apply Z.mod_pos_bound. done. Qed.

(** A page has one frame, a frame one page. *)
Lemma holds_page m v r k p s n :
  core r k m v -> holds v p s n -> r <> Some p ->
  exists x e, page_of v s n = Some (x, e) /\ valid (entry e) = true /\ physicalPage (entry e) = Z.of_nat p.
Proof.
  intros K (ie & Hi & Hv & Ho & Hvp) Hr.
  destruct (c_frame _ _ _ _ K p ie Hi Hr) as [_ Hf].
  destruct (Hf Hv) as (_ & _ & s' & n' & x & e & Ho' & Hvp' & He & Hve & Hpp).
  assert (s' = s) as -> by congruence. assert (n' = n) as -> by lia. by exists x, e.
Qed.

Lemma holds_frame m v r k p q s n :
  core r k m v -> holds v p s n -> holds v q s n -> r <> Some p -> r <> Some q -> p = q.
Proof.
  intros K Hp Hq Hrp Hrq.
  destruct (holds_page _ _ _ _ _ _ _ K Hp Hrp) as (x & e & He & _ & Hpp).
  destruct (holds_page _ _ _ _ _ _ _ K Hq Hrq) as (x' & e' & He' & _ & Hpq).
  rewrite He in He'. injection He' as <- <-. lia.
Qed.

Lemma holds_inj v p s n s' n' : holds v p s n -> holds v p s' n' -> s = s' /\ n = n'.
Proof.
  intros (ie & Hi & _ & Ho & Hn) (ie' & Hi' & _ & Ho' & Hn'). rewrite Hi in Hi'.
  injection Hi' as <-. split; [congruence | lia].
Qed.

(** What both ways of evicting the page in frame [p] have in common: its page
    table entry becomes [e'], not valid, whose backing store has the content of
    the frame; the swap file may have gained a page in a new slot. *)
Section Evict.
Context (m : Machine) (v v' : VM) (t : list TranslationEntry) (p : nat) (ie ie' : IPTEntry)
  (s : positive) (n : nat) (x : File) (e e' : PageTableEntry).
Context (K : core None 0 m v) (Ht : tlb m = Some t)
  (Hfull : clear_bits (mainMemoryBitMap v) = []) (Hp : currentIPT v = Z.of_nat p)
  (Hie : IPT v !! p = Some ie) (Hholds : holds v p s n) (He : page_of v s n = Some (x, e))
  (Hve : valid (entry e) = true) (Hpp : physicalPage (entry e) = Z.of_nat p).
Context (Hve' : valid (entry e') = false) (Hok' : entry_ok (swapFileBitMap v') n e')
  (Hback : backing (swapFile v') x e' = frame m p)
  (Hbacks : forall s' n' x' f, page_of v s' n' = Some (x', f) ->
     backing (swapFile v') x' f = backing (swapFile v) x' f)
  (Hsb : wf (swapFileBitMap v') /\ numBits (swapFileBitMap v') = 4096)
  (Hbits : forall w, 0 <= w -> bit (swapFileBitMap v) w = true -> bit (swapFileBitMap v') w = true)
  (HIPT : IPT v' = <[p := ie']> (IPT v)) (Hcur : currentIPT v' = Z.rem (currentIPT v + 1) 256)
  (Hctlb : currentTLB v' = currentTLB v) (Hbm : mainMemoryBitMap v' = mainMemoryBitMap v)
  (Hrand : PRand v' = PRand v) (Hspace : space v' = space v) (Hsf8 : Forall is_i8 (swapFile v'))
  (Hpages : forall s' n', page_of v' s' n' =
     if decide (s' = s /\ n' = n) then Some (x, e') else page_of v s' n').

Let m' := set_tlb (Some (drop_entry (Z.of_nat p) <$> t)) m.

Lemma ev_IPT q : q <> p -> IPT v' !! q = IPT v !! q.
Proof using HIPT. intros. rewrite HIPT. by apply list_lookup_insert_ne. Qed.

Lemma ev_holds q s' n' : q <> p -> holds v q s' n' -> holds v' q s' n' /\ page_of v' s' n' = page_of v s' n'.
Proof using K Hholds HIPT Hpages.
  intros Hq Hh. split.
  - destruct Hh as (i & Hi & ?). exists i. by rewrite ev_IPT.
  - rewrite Hpages, decide_False; [done|]. intros [-> ->]. apply Hq.
    by eapply (holds_frame m v None).
Qed.

Lemma ev_clean q s' n' : q <> p -> holds v q s' n' -> clean m v q -> clean m' v' q.
Proof using K Hholds HIPT Hpages Hbacks.
  intros Hq Hh Hc i s1 n1 x1 e1 Hi Ho Hn He1. rewrite ev_IPT in Hi by done.
  assert (holds v q s1 n1) as Hh1.
  { destruct Hh as (i' & Hi' & Hv & _). rewrite Hi in Hi'. injection Hi' as <-. by exists i. }
  destruct (ev_holds q s1 n1 Hq Hh1) as [_ Hsame]. rewrite Hsame in He1.
  rewrite (Hbacks _ _ _ _ He1). change (frame m' q) with (frame m q). by eapply Hc.
Qed.

Lemma ev_slot j f : (drop_entry (Z.of_nat p) <$> t) !! j = Some f ->
  exists g, t !! j = Some g /\ f = drop_entry (Z.of_nat p) g.
Proof using. rewrite list_lookup_fmap. destruct (t !! j); [|done]. intros [= <-]. eauto. Qed.

Lemma ev_stale j f q :
  (drop_entry (Z.of_nat p) <$> t) !! j = Some f -> valid f = false ->
  physicalPage f = Z.of_nat q -> (q < 256)%nat -> age v' j < turns v' q + nfree v' + 1.
Proof using K Ht Hfull Hp Hcur Hctlb Hbm.
  intros (g & Hj & ->)%ev_slot Hv Hq Hlt. destruct (drop_entry_fields (Z.of_nat p) g) as (Ep & _ & Hor).
  rewrite Ep in Hq. rewrite (turns_next v v' q) by (done || apply K).
  unfold nfree. rewrite Hbm, Hfull. cbn [length Z.of_nat].
  assert (age v' j = age v j) as -> by (unfold age; by rewrite Hctlb).
  pose proof (age_range v j). case_decide as Hd; [lia|].
  destruct (Hor Hv) as [Hv0|Hpq]; [|lia].
  pose proof (c_stale _ _ _ _ K t j g q Ht Hj Hv0 Hq Hlt). unfold nfree in *. rewrite Hfull in *.
  cbn [length Z.of_nat] in *. lia.
Qed.

Lemma ev_page s' n' x' f : page_of v' s' n' = Some (x', f) ->
  entry_ok (swapFileBitMap v') n' f /\
  (valid (entry f) = true ->
    exists q, physicalPage (entry f) = Z.of_nat q /\ Some p <> Some q /\ holds v' q s' n').
Proof using All.
  rewrite Hpages. case_decide as Hd; [destruct Hd as [-> ->]|]; intros Hf.
  - injection Hf as <- <-. split; [done | congruence].
  - destruct (c_page _ _ _ _ K _ _ _ _ Hf) as [[] Hv]. split.
    + split; auto. intros Hl. destruct (e_swapped0 Hl). split; auto. apply Hbits; [lia | done].
    + intros Hvf. destruct (Hv Hvf) as (q & Hq & _ & Hh). exists q. split; [done|].
      assert (q <> p) as Hqp by (intros ->; apply Hd; by apply (holds_inj v p)).
      split; [by intros [= ->] | by apply ev_holds].
Qed.

Lemma ev_bytes s' n' x' f : page_of v' s' n' = Some (x', f) -> Forall is_i8 x'.
Proof using K He Hpages.
  rewrite Hpages. case_decide; [intros [= <- <-]; by eapply K | by apply K].
Qed.

Lemma ev_no_slot : no_slot m' p.
Proof using.
  intros t' j f [= <-] (g & Hj & ->)%ev_slot Hv. by destruct (drop_entry_valid _ _ Hv) as [-> ?].
Qed.

Lemma ev_core : core (Some p) 1 m' v'.
Proof using All.
  pose proof (frames_range v p ie (c_IPT _ _ _ _ K) Hie) as Hp256. constructor.
  - apply (wf_set_tlb m t); [apply K | done | by rewrite length_fmap].
  - by eexists.
  - rewrite HIPT, length_insert. apply K.
  - rewrite Hbm. apply K.
  - done.
  - rewrite Hcur, Hctlb. split; [|apply K]. destruct (c_next _ _ _ _ K). apply Z.rem_bound_pos; lia.
  - rewrite Hrand. apply K.
  - split; [done | apply ev_bytes].
  - intros q i Hi Hq. rewrite ev_IPT in Hi by congruence. rewrite Hbm.
    destruct (c_frame _ _ _ _ K q i Hi) as [Hb Hv]; [done|]. split; [done|]. intros Hvi.
    destruct (Hv Hvi) as (? & ? & s1 & n1 & x1 & e1 & Ho & Hn & Hpg & ?). do 2 (split; [done|]).
    exists s1, n1, x1, e1. do 2 (split; [done|]). split; [|done].
    destruct (ev_holds q s1 n1) as [_ ->]; [congruence | by exists i | done].
  - intros ? [= <-]. split; [done|]. rewrite Hbm.
    destruct (c_frame _ _ _ _ K p ie Hie) as [-> _]; [done|].
    destruct Hholds as (i & Hi & Hv & _). rewrite Hie in Hi. by injection Hi as <-.
  - apply ev_page.
  - intros t' j f [= <-] (g & Hj & ->)%ev_slot Hv. destruct (drop_entry_valid _ _ Hv) as [Eg Hne].
    rewrite Eg in *. clear Eg.
    destruct (c_slot _ _ _ _ K t j g Ht Hj Hv) as (? & q & s1 & n1 & Hq & _ & Hs1 & ? & Hh & Hc).
    assert (q <> p) as Hqp by lia. split; [done|]. exists q, s1, n1. rewrite Hspace.
    split; [done|]. split; [congruence|]. do 2 (split; [done|]). split; [by apply ev_holds|].
    destruct Hc; [left; by eapply ev_clean | by right].
  - intros t' i j f f' [= <-] (g & Hi & ->)%ev_slot (g' & Hj & ->)%ev_slot Hv Hv' Heq.
    destruct (drop_entry_valid _ _ Hv) as [Eg _], (drop_entry_valid _ _ Hv') as [Eg' _].
    rewrite Eg in *. rewrite Eg' in *. by apply (c_unique _ _ _ _ K t i j g g').
  - intros t' q i [= <-] Hi Hq Hv Hno. assert (q <> p) as Hqp by congruence.
    rewrite ev_IPT in Hi by done.
    destruct (c_unmapped _ _ _ _ K t q i Ht Hi) as [Hc|Hd]; [done | done | | | by right].
    + intros j g Hj Hvg Hg. apply (Hno j g); [|done|done].
      rewrite list_lookup_fmap, Hj. cbn. rewrite drop_entry_other; [done | lia].
    + left. destruct (c_frame _ _ _ _ K q i Hi) as [_ Hf]; [done|].
      destruct (Hf Hv) as (_ & _ & s1 & n1 & x1 & e1 & ? & ? & ?). apply (ev_clean q s1 n1); [done | by exists i | done].
  - intros t' j f q [= <-] Hj. by apply ev_stale.
  - intros t' j f [= <-] (g & Hj & ->)%ev_slot. destruct (drop_entry_fields (Z.of_nat p) g) as (-> & -> & _).
    by apply (c_garbage _ _ _ _ K t j g).
Qed.

Lemma ev_content s' n' : content m' v' s' n' = content m v s' n'.
Proof using He Hve Hpp Hve' Hback Hbacks Hpages.
  unfold content. rewrite Hpages. case_decide as Hd.
  - destruct Hd as [-> ->]. rewrite He. cbn. unfold page_content. cbn. rewrite Hve, Hve', Hpp, Nat2Z.id.
    by rewrite Hback.
  - destruct (page_of v s' n') as [[x' f]|] eqn:Ef; [|done]. cbn. unfold page_content. cbn.
    by rewrite (Hbacks _ _ _ _ Ef).
Qed.
End Evict.

(** What the handler's steps leave alone: the content of every page, the running
    space, the locks held on return, the interrupt level, the registers. *)
Record keeps (m : Machine) (v : VM) (m' : Machine) (v' : VM) : Prop := {
  keep_content s n : content m' v' s n = content m v s n;
  keep_space : space v' = space v;
  keep_locks : locks v' = locks v;
  keep_level : intLevel v' = intLevel v;
  keep_registers : registers m' = registers m
}.

Lemma keeps_trans m1 v1 m2 v2 m3 v3 : keeps m1 v1 m2 v2 -> keeps m2 v2 m3 v3 -> keeps m1 v1 m3 v3.
Proof. intros [] []. constructor; intros; congruence. Qed.

(** Free pages of the swap file. *)
Definition swap_free (v : VM) : Z := Z.of_nat (length (clear_bits (swapFileBitMap v))).

(** The page in memory is the page of the frame's inverted page table entry. *)
Lemma full_valid m v p ie :
  core None 0 m v -> clear_bits (mainMemoryBitMap v) = [] -> IPT v !! p = Some ie ->
  valid (ientry ie) = true.
Proof.
  intros K Hfull Hi. destruct (c_frame _ _ _ _ K p ie Hi) as [<- _]; [done|].
  destruct (bit _ _) eqn:E; [done|]. exfalso.
  apply (not_elem_of_nil (Z.of_nat p)). rewrite <- Hfull. apply clear_bits_in.
  destruct (c_frames _ _ _ _ K) as [_ ->].
  pose proof (frames_range v p ie (c_IPT _ _ _ _ K) Hi). split; [lia | done].
Qed.

(** A victim whose dirty bit is off after the TLB was searched is clean. *)
Lemma victim_clean m v t p ie :
  core None 0 m v -> tlb m = Some t -> clear_bits (mainMemoryBitMap v) = [] ->
  currentIPT v = Z.of_nat p -> IPT v !! p = Some ie ->
  clean m v p \/ last_dirty (Z.of_nat p) t (dirty (ientry ie)) = true.
Proof.
  intros K Ht Hfull Hp Hi. pose proof (full_valid _ _ _ _ K Hfull Hi) as Hv.
  pose proof (frames_range v p ie (c_IPT _ _ _ _ K) Hi) as Hlt.
  destruct (last_dirty_cases (Z.of_nat p) t (dirty (ientry ie))) as [(j & g & Hj & Hg & ->)|[Hno ->]].
  - destruct (valid g) eqn:Hvg.
    + destruct (c_slot _ _ _ _ K t j g Ht Hj Hvg) as (_ & q & s & n & Hq & _ & _ & _ & _ & Hd).
      assert (q = p) as -> by lia. done.
    + pose proof (c_stale _ _ _ _ K t j g p Ht Hj Hvg Hg Hlt) as Hst. pose proof (age_range v j).
      unfold nfree, turns in Hst. rewrite Hfull, Hp, Z.sub_diag, Zmod_0_l in Hst.
      cbn [length Z.of_nat] in Hst. lia.
  - apply (c_unmapped _ _ _ _ K t p ie Ht Hi); [done | done|]. intros j g Hj _. by apply (Hno j).
Qed.

(** Writing a page to a new slot of the swap file. *)
Lemma swap_out v d :
  wf (swapFileBitMap v) /\ numBits (swapFileBitMap v) = 4096 -> 0 < swap_free v -> length d = page_size ->
  exists w bm f, Find (swapFileBitMap v) = Ret (w, bm) /\ WriteAt (swapFile v) d (w * PageSize) = Ret f /\
    0 <= w < 4096 /\ bit bm w = true /\ (wf bm /\ numBits bm = 4096) /\
    file_page f (w * PageSize) = d /\
    (forall w', 0 <= w' -> bit (swapFileBitMap v) w' = true -> bit bm w' = true) /\
    (forall s n x e, entry_ok (swapFileBitMap v) n e -> page_of v s n = Some (x, e) ->
       backing f x e = backing (swapFile v) x e) /\
    Z.of_nat (length (clear_bits bm)) = swap_free v - 1 /\
    (Forall is_i8 (swapFile v) -> Forall is_i8 d -> Forall is_i8 f).
Proof.
  intros [Hwf Hn] Hfree Hd. unfold swap_free in *. pose proof (Find_allocates_least_spec _ Hwf) as Hf.
  destruct (clear_bits (swapFileBitMap v)) as [|w rest] eqn:Hcl; [cbn in Hfree; lia|].
  destruct Hf as (bm & Hf & Hwf' & Hn' & Hrest & Hw & Hb & _).
  assert (bit (swapFileBitMap v) w = false) as Hw0 by (apply clear_bits_in; rewrite Hcl; by left).
  destruct (WriteAt_page (swapFile v) d w) as (f & Hwr & Hpage & Hother); [lia | done |].
  exists w, bm, f. split; [done|]. split; [done|]. split; [lia|].
  split; [by rewrite Hb, Z.eqb_refl by lia|]. split; [by rewrite Hn'|]. split; [done|].
  split; [|split; [|split]].
  - intros w' Hw' Hbw. rewrite Hb by done. by rewrite Hbw, orb_true_r.
  - intros s n x e [] _. unfold backing. destruct (_ =? 1); [done|].
    destruct (Z.eqb_spec (location e) 0) as [Hl|]; [|done]. destruct (e_swapped0 Hl) as [? Hbe].
    apply Hother; [lia|]. intros Heq. rewrite Heq in Hbe. congruence.
  - rewrite Hrest. cbn [length]. lia.
  - intros Hsf Hd8. exact (WriteAt_bytes _ _ _ _ Hsf Hd8 Hwr).
Qed.

Section Handler.
Context `{!VMEnv}.

Lemma HandleMemoryFull_spec m v :
  core None 0 m v -> clear_bits (mainMemoryBitMap v) = [] -> 0 < swap_free v ->
  TLBLock ∉ locks v -> swapFileLock ∉ locks v ->
  exists p m' v', HandleMemoryFull (m, v) = Ret (Z.of_nat p, (m', v')) /\
    core (Some p) 1 m' v' /\ no_slot m' p /\ keeps m v m' v' /\ swap_free v - 1 <= swap_free v' /\
    (forall s n x e, page_of v' s n = Some (x, e) -> valid (entry e) = true -> page_of v s n = Some (x, e)).
Proof.
  intros K Hfull Hswap Hl1 Hl2. destruct (c_tlb _ _ _ _ K) as [t Ht].
  destruct (c_next _ _ _ _ K) as [Hcur _]. destruct (Z_of_nat_complete (currentIPT v) ltac:(lia)) as [p Hp].
  destruct (lookup_lt_is_Some_2 (IPT v) p) as [ie Hi]; [rewrite (c_IPT _ _ _ _ K); lia|].
  pose proof (full_valid _ _ _ _ K Hfull Hi) as Hv.
  destruct (c_frame _ _ _ _ K p ie Hi) as [_ Hf]; [done|].
  destruct (Hf Hv) as (_ & _ & s & n & x & e & Ho & Hn & Hpg & Hve & Hpp). clear Hf.
  assert (holds v p s n) as Hh by (by exists ie).
  pose proof (victim_clean _ _ _ _ _ K Ht Hfull Hp Hi) as Hclean.
  unfold HandleMemoryFull. rewrite (c_fifo _ _ _ _ K), Hp, Acquire_new by done.
  change (locks (set_currentIPT _ v)) with (locks v).
  rewrite (drop_loop m _ t p ie) by (done || by apply (wf_tlb m (c_machine _ _ _ _ K))).
  cbn [bind]. rewrite (Release_last TLBLock (locks v)) by done.
  set (ie' := with_dirty _ ie).
  set (v2 := set_locks _ _). set (m' := set_tlb _ m).
  assert (IPT v2 !! p = Some ie') as Hi2
    by (cbn; rewrite list_lookup_insert_eq; [done | by eapply lookup_lt_Some]).
  rewrite (aref_nat _ _ _ Hi2). cbn [bind]. change (dirty (ientry ie')) with (last_dirty (Z.of_nat p) t (dirty (ientry ie))).
  destruct (last_dirty (Z.of_nat p) t (dirty (ientry ie))) eqn:Hd.
  - rewrite Acquire_new by done.
    destruct (swap_out v (frame m p)) as (w & bm & f & Hfind & Hwr & Hw & Hbw & Hbm & Hpage & Hmono & Hbk & Hfr & Hsf8);
      [apply K | done | apply frame_length; [apply K | by eapply frames_range, Hi; apply K]|].
    change (swapFileBitMap (set_locks _ v2)) with (swapFileBitMap v). rewrite Hfind. cbn [bind].
    rewrite (proj2 (Z.eqb_neq w (-1))) by lia.
    change (swapFile (set_locks _ v2)) with (swapFile v).
    replace (take _ (drop _ (mainMemory m'))) with (frame m p)
      by (unfold frame, PageSize, SectorSize, page_size; cbn; do 2 f_equal; lia).
    rewrite Hwr. cbn [bind]. unfold evict_owner. change (owner ie') with (owner ie). rewrite Ho.
    change (virtualPage (ientry ie')) with (virtualPage (ientry ie)). rewrite Hn. unfold swappedPage.
    set (v3 := set_swap bm f _). set (fe := fun e => mkPTE _ 0 _ w).
    destruct (update_page_spec v3 s n x e fe Hpg) as (sp & -> & Hpages & _). cbn [bind].
    rewrite (Release_last swapFileLock (locks v)) by done. set (v' := set_locks _ _).
    exists p, m', v'. split; [done|].
    assert (Hcore : core (Some p) 1 m' v' /\ forall s n, content m' v' s n = content m v s n).
    { assert (entry_ok bm n (fe e)) as Hok.
      { destruct (c_page _ _ _ _ K _ _ _ _ Hpg) as [[] _]. by split. }
      assert (forall s' n' x' g, page_of v s' n' = Some (x', g) -> backing f x' g = backing (swapFile v) x' g)
        as Hbk' by (intros s' n' x' g Hg; eapply Hbk; [apply (c_page _ _ _ _ K _ _ _ _ Hg) | done]).
      split; [eapply (ev_core m v v' t p ie ie' s n x e (fe e)) | eapply (ev_content m v v' t p s n x e (fe e))];
        try done; first [by rewrite Hp | apply Hsf8; [apply K | apply frame_bytes, K]]. }
    split; [apply Hcore|]. split; [apply ev_no_slot|]. split; [split; try done; apply Hcore|].
    split; [unfold swap_free at 2; cbn; lia|].
    intros s' n' x' g Hg Hvg. change (page_of v' s' n') with (page_of (set_spaces sp v3) s' n') in Hg.
    rewrite Hpages in Hg. case_decide; [injection Hg as <- <-; discriminate | done].
  - destruct Hclean as [Hclean|]; [|discriminate]. unfold evict_owner.
    change (owner ie') with (owner ie). rewrite Ho.
    change (virtualPage (ientry ie')) with (virtualPage (ientry ie)). rewrite Hn. unfold evictedPage.
    set (fe := set_entry _).
    destruct (update_page_spec v2 s n x e fe Hpg) as (sp & -> & Hpages & _). cbn [bind].
    set (v' := set_spaces sp v2). exists p, m', v'. split; [done|].
    assert (Hcore : core (Some p) 1 m' v' /\ forall s n, content m' v' s n = content m v s n).
    { assert (entry_ok (swapFileBitMap v) n (fe e)) as Hok
        by (destruct (c_page _ _ _ _ K _ _ _ _ Hpg) as [[] _]; by split).
      assert (backing (swapFile v) x (fe e) = frame m p) as Hb
        by (symmetry; exact (Hclean ie s n x e Hi Ho Hn Hpg)).
      split; [eapply (ev_core m v v' t p ie ie' s n x e (fe e)) | eapply (ev_content m v v' t p s n x e (fe e))];
        try done; first [by apply K | by rewrite Hp | exact Hb]. }
    split; [apply Hcore|]. split; [apply ev_no_slot|]. split; [split; try done; apply Hcore|].
    split; [cbn; unfold swap_free; cbn; lia|].
    intros s' n' x' g Hg Hvg. rewrite Hpages in Hg.
    case_decide; [injection Hg as <- <-; discriminate | done].
Qed.
End Handler.

(** *** Loading a page *)

Lemma store_frame m q d :
  wf_machine m -> (q < 256)%nat -> (length d <= page_size)%nat ->
  store_bytes (mainMemory m) (Z.of_nat q * PageSize) d =
  Ret (list_inserts (q * page_size) d (mainMemory m)).
Proof.
  intros Hwf Hq Hd. pose proof (wf_memory m Hwf) as Hm.
  replace (Z.to_nat MemorySize) with (256 * 128)%nat in Hm by reflexivity.
  unfold page_size, PageSize, SectorSize in *. rewrite store_bytes_spec by lia.
  do 2 f_equal. lia.
Qed.

Lemma Forall_file (P : Z -> Prop) (f : File) n pos : Forall P f -> Forall P (take n (drop pos f)).
Proof. intros. by apply Forall_take, Forall_drop. Qed.

Section Fill.
Context (m : Machine) (v v' : VM) (q : nat) (s : positive) (n : nat) (x : File) (e : PageTableEntry).
Context (bs : list Z) (ie' : IPTEntry).
Context (K : core (Some q) 1 m v) (Hno : no_slot m q) (Hs : space v = Some s)
  (Hpg : page_of v s n = Some (x, e)) (Hve : valid (entry e) = false)
  (Hbs : bs = backing (swapFile v) x e).
Let m' := set_mainMemory (list_inserts (q * page_size) bs (mainMemory m)) m.
Let e' := set_entry (fun y => set_physicalPage (Z.of_nat q) (set_valid true y)) e.
Context (Hie' : ie' = mkIPTE (mkTE (Z.of_nat n) (Z.of_nat q) true (readOnly (entry e)) (use (entry e)) (dirty (entry e))) (Some s)).
Context (HIPT : IPT v' = <[q := ie']> (IPT v)) (Hcur : currentIPT v' = currentIPT v)
  (Hctlb : currentTLB v' = currentTLB v) (Hbm : mainMemoryBitMap v' = mainMemoryBitMap v)
  (Hsb : swapFileBitMap v' = swapFileBitMap v) (Hsf : swapFile v' = swapFile v)
  (Hrand : PRand v' = PRand v) (Hspace : space v' = space v)
  (Hpages : forall s' n', page_of v' s' n' =
     if decide (s' = s /\ n' = n) then Some (x, e') else page_of v s' n').

Lemma fl_frame_q : frame m' q = bs.
Proof using K Hbs.
  apply frame_loaded; [apply K | by apply K | rewrite Hbs; apply backing_length].
Qed.

Lemma fl_frame p : p <> q -> frame m' p = frame m p.
Proof using Hbs. intros. apply frame_inserts; [|done]. rewrite Hbs, backing_length. lia. Qed.

Lemma fl_IPT p : p <> q -> IPT v' !! p = IPT v !! p.
Proof using HIPT. intros. rewrite HIPT. by apply list_lookup_insert_ne. Qed.

Lemma fl_IPT_q : IPT v' !! q = Some ie'.
Proof using K HIPT.
  rewrite HIPT. apply list_lookup_insert_eq. rewrite (c_IPT _ _ _ _ K). by apply K.
Qed.

Lemma fl_holds_q : holds v' q s n.
Proof using K HIPT Hie'. exists ie'. split; [apply fl_IPT_q|]. by rewrite Hie'. Qed.

Lemma fl_other p s' n' : p <> q -> holds v p s' n' -> ~ (s' = s /\ n' = n).
Proof using K Hpg Hve.
  intros Hp Hh [-> ->]. destruct (holds_page _ _ _ _ _ _ _ K Hh) as (x1 & e1 & He1 & Hv1 & _); [congruence|].
  rewrite Hpg in He1. injection He1 as <- <-. congruence.
Qed.

Lemma fl_holds p s' n' : p <> q -> holds v p s' n' -> holds v' p s' n' /\ page_of v' s' n' = page_of v s' n'.
Proof using K Hpg Hve HIPT Hpages.
  intros Hp Hh. split.
  - destruct Hh as (i & Hi & ?). exists i. by rewrite fl_IPT.
  - rewrite Hpages, decide_False; [done|]. by eapply fl_other.
Qed.

Lemma fl_clean p s' n' : p <> q -> holds v p s' n' -> clean m v p -> clean m' v' p.
Proof using K Hpg Hve HIPT Hpages Hsf Hbs.
  intros Hp Hh Hc i s1 n1 x1 e1 Hi Ho Hn He1. rewrite fl_IPT in Hi by done.
  assert (holds v p s1 n1) as Hh1.
  { destruct Hh as (i' & Hi' & Hv & _). rewrite Hi in Hi'. injection Hi' as <-. by exists i. }
  destruct (fl_holds p s1 n1 Hp Hh1) as [_ Hsame]. rewrite Hsame in He1.
  rewrite fl_frame, Hsf by done. by eapply Hc.
Qed.

Lemma fl_clean_q : clean m' v' q.
Proof using All.
  intros i s1 n1 x1 e1 Hi Ho Hn He1. rewrite fl_IPT_q in Hi. injection Hi as <-.
  rewrite Hie' in Ho, Hn. cbn in Ho, Hn. injection Ho as <-. assert (n1 = n) as -> by lia.
  rewrite Hpages, decide_True in He1 by done. injection He1 as <- <-.
  rewrite fl_frame_q, Hbs, Hsf. done.
Qed.

Lemma fl_page s' n' x' f : page_of v' s' n' = Some (x', f) ->
  entry_ok (swapFileBitMap v') n' f /\
  (valid (entry f) = true ->
    exists p, physicalPage (entry f) = Z.of_nat p /\ None <> Some p /\ holds v' p s' n').
Proof using All.
  rewrite Hpages, Hsb. case_decide as Hd; [destruct Hd as [-> ->]|]; intros Hf.
  - injection Hf as <- <-. destruct (c_page _ _ _ _ K _ _ _ _ Hpg) as [[] _].
    split; [by split|]. intros _. exists q. split; [done|]. split; [done | apply fl_holds_q].
  - destruct (c_page _ _ _ _ K _ _ _ _ Hf) as [Hok Hv]. split; [done|]. intros Hvf.
    destruct (Hv Hvf) as (p & Hp & Hr & Hh). exists p. split; [done|]. split; [done|].
    apply fl_holds; [congruence | done].
Qed.

Lemma fl_core : core None 1 m' v'.
Proof using All.
  constructor.
  - apply wf_set_mainMemory; [apply K|]. rewrite Hbs.
    apply backing_bytes; [apply K | by eapply (proj2 (c_files _ _ _ _ K))].
  - apply K.
  - rewrite HIPT, length_insert. apply K.
  - rewrite Hbm. apply K.
  - rewrite Hsb. apply K.
  - rewrite Hcur, Hctlb. apply K.
  - rewrite Hrand. apply K.
  - rewrite Hsf. split; [apply K|]. intros s' n' x' f. rewrite Hpages.
    case_decide; [intros [= <- <-] | intros Hf]; by eapply (proj2 (c_files _ _ _ _ K)).
  - intros p i Hi _. rewrite Hbm. destruct (decide (p = q)) as [->|Hp].
    + rewrite fl_IPT_q in Hi. injection Hi as <-. rewrite Hie'. cbn.
      split; [by apply K|]. intros _. destruct (c_page _ _ _ _ K _ _ _ _ Hpg) as [[] _].
      do 2 (split; [done|]). exists s, n, x, e'. do 2 (split; [done|]).
      rewrite Hpages, decide_True by done. done.
    + rewrite fl_IPT in Hi by done. destruct (c_frame _ _ _ _ K p i Hi) as [Hb Hv]; [congruence|].
      split; [done|]. intros Hvi. destruct (Hv Hvi) as (? & ? & s1 & n1 & x1 & e1 & Ho & Hn & Hpg1 & ?).
      do 2 (split; [done|]). exists s1, n1, x1, e1. do 2 (split; [done|]). split; [|done].
      destruct (fl_holds p s1 n1) as [_ ->]; [done | by exists i | done].
  - done.
  - apply fl_page.
  - intros t j f Ht Hj Hv.
    destruct (c_slot _ _ _ _ K t j f Ht Hj Hv) as (? & p & s1 & n1 & Hp & Hr & Hs1 & ? & Hh & Hc).
    split; [done|]. exists p, s1, n1. rewrite Hspace. do 4 (split; [done|]).
    assert (p <> q) as Hpq by congruence. split; [by apply fl_holds|].
    destruct Hc; [left; by eapply fl_clean | by right].
  - apply K.
  - intros t p i Ht Hi _ Hv Hns. destruct (decide (p = q)) as [->|Hp]; [left; apply fl_clean_q|].
    rewrite fl_IPT in Hi by done.
    destruct (c_unmapped _ _ _ _ K t p i Ht Hi) as [Hc|Hd]; [congruence | done | done | | by right].
    left. destruct (c_frame _ _ _ _ K p i Hi) as [_ Hf]; [congruence|].
    destruct (Hf Hv) as (_ & _ & s1 & n1 & x1 & e1 & ? & ? & ?). apply (fl_clean p s1 n1); [done | by exists i | done].
  - intros t j f p Ht Hj Hv Hp Hlt. pose proof (c_stale _ _ _ _ K t j f p Ht Hj Hv Hp Hlt).
    unfold age, turns, nfree in *. by rewrite Hcur, Hctlb, Hbm.
  - apply K.
Qed.

Lemma fl_content s' n' : content m' v' s' n' = content m v s' n'.
Proof using All.
  unfold content. rewrite Hpages. case_decide as Hd.
  - destruct Hd as [-> ->]. rewrite Hpg. cbn. unfold page_content. cbn. rewrite Hve, Nat2Z.id.
    f_equal. exact (eq_trans fl_frame_q Hbs).
  - destruct (page_of v s' n') as [[x' f]|] eqn:Ef; [|done]. cbn. unfold page_content. cbn.
    rewrite Hsf. destruct (valid (entry f)) eqn:Hvf; [|done].
    destruct (c_page _ _ _ _ K _ _ _ _ Ef) as [_ Hv]. destruct (Hv Hvf) as (p & -> & Hr & _).
    rewrite Nat2Z.id. f_equal. apply fl_frame. congruence.
Qed.
End Fill.

(** Reading a page of a file over a frame of zeros. *)
Lemma load_frame m q f pos :
  wf_machine m -> (q < 256)%nat -> 0 <= pos -> Forall is_i8 f ->
  let m0 := set_mainMemory (list_inserts (q * page_size) (replicate page_size 0) (mainMemory m)) m in
  exists d, ReadAt f PageSize pos = Ret d /\
    store_bytes (mainMemory m0) (Z.of_nat q * PageSize) d =
    Ret (list_inserts (q * page_size) (file_page f pos) (mainMemory m)).
Proof.
  intros Hwf Hq Hpos Hf m0. destruct (ReadAt_page f pos Hpos) as (d & Hr & Hl & Hd).
  exists d. split; [done|]. rewrite store_frame.
  - unfold m0, set_mainMemory, mainMemory at 1. by rewrite list_inserts_padded, Hd.
  - apply wf_set_mainMemory; [done | by apply Forall_replicate].
  - done.
  - done.
Qed.

Lemma load_page_spec m v q n x e :
  wf_machine m -> (q < 256)%nat -> entry_ok (swapFileBitMap v) n e ->
  Forall is_i8 (swapFile v) -> Forall is_i8 x -> swapFileLock ∉ locks v ->
  let m0 := set_mainMemory (list_inserts (q * page_size) (replicate page_size 0) (mainMemory m)) m in
  load_page x e (Z.of_nat q) (m0, v) =
  Ret (set_mainMemory (list_inserts (q * page_size) (backing (swapFile v) x e) (mainMemory m)) m, v).
Proof.
  intros Hwf Hq [] Hsf8 Hx8 Hl m0. unfold load_page, backing.
  destruct (Z.eqb_spec (location e) 1) as [H1|H1].
  - destruct (load_frame m q x (byteOffset e)) as (d & -> & Hd); auto. cbn [bind].
    unfold m0. rewrite Hd. done.
  - destruct (Z.eqb_spec (location e) 0) as [H0|H0]; [|done]. rewrite Acquire_new by done.
    destruct (e_swapped0 H0) as [? _].
    destruct (load_frame m q (swapFile v) (swapLocation e * PageSize)) as (d & Hr & Hd);
      [done | done | unfold PageSize, SectorSize; lia | done |].
    change (swapFile (set_locks _ v)) with (swapFile v). rewrite Hr. cbn [bind].
    unfold m0. rewrite Hd. cbn [bind].
    rewrite (Release_last swapFileLock (locks v)) by done. by destruct v.
Qed.

Lemma IPTMiss_spec m v q s n x e :
  core (Some q) 1 m v -> no_slot m q -> space v = Some s -> page_of v s n = Some (x, e) ->
  valid (entry e) = false -> swapFileLock ∉ locks v ->
  exists m' v', IPTMiss s (Z.of_nat n) (Z.of_nat q) (m, v) = Ret (m', v') /\
    core None 1 m' v' /\ keeps m v m' v' /\ holds v' q s n /\ no_slot m' q /\
    swap_free v' = swap_free v.
Proof.
  intros K Hno Hs Hpg Hve Hl. pose proof (c_machine _ _ _ _ K) as Hwf.
  assert (q < 256)%nat as Hq by (by apply (c_reserved _ _ _ _ K)).
  destruct (c_page _ _ _ _ K _ _ _ _ Hpg) as [Hok _].
  destruct (c_files _ _ _ _ K) as [Hsf8 Hx8]. specialize (Hx8 _ _ _ _ Hpg).
  pose proof Hpg as (a & Ha & He & Hx)%page_of_Some.
  unfold IPTMiss, bzero_frame. change (Z.to_nat PageSize) with page_size.
  rewrite store_frame by (done || by rewrite length_replicate). cbn [bind].
  unfold deref. rewrite Ha. cbn [bind]. rewrite (aref_nat _ _ _ He). cbn [bind]. rewrite Hx.
  set (bs := backing (swapFile v) x e).
  set (m' := set_mainMemory (list_inserts (q * page_size) bs (mainMemory m)) m).
  rewrite (load_page_spec m v q n x e) by done.
  cbn [bind]. set (f := set_entry _).
  destruct (update_page_spec v s n x e f Hpg) as (sp & -> & Hpages & _). cbn [bind].
  destruct (lookup_lt_is_Some_2 (IPT v) q) as [i Hi]; [by rewrite (c_IPT _ _ _ _ K)|].
  rewrite (update_IPT_spec (set_spaces sp v) q i) by done. cbn [bind].
  set (ie' := mkIPTE _ _). set (v' := set_IPT _ _).
  exists m', v'. split; [done|].
  split; [eapply (fl_core m v v' q s n x e bs ie'); done|]. split; [|split; [|split]].
  - split; try done. intros. eapply (fl_content m v v' q s n x e bs ie'); done.
  - eapply (fl_holds_q m v v' q s n e ie'); done.
  - exact Hno.
  - done.
Qed.

(** *** Loading the TLB *)

Lemma age_next v v' j :
  0 <= currentTLB v < 4 -> (j < 4)%nat -> Z.of_nat j <> currentTLB v ->
  currentTLB v' = Z.rem (currentTLB v + 1) TLBSize -> age v' j = age v j - 1.
Proof.
  intros Hc Hj Hne Hn. unfold age, TLBSize in *. rewrite Hn, Z.rem_mod_nonneg, Zminus_mod_idemp_r by lia.
  assert (currentTLB v = 0 \/ currentTLB v = 1 \/ currentTLB v = 2 \/ currentTLB v = 3) as Hv by lia.
  assert (j = 0 \/ j = 1 \/ j = 2 \/ j = 3)%nat as Hj' by lia.
  destruct Hj' as [-> | [-> | [-> | ->]]]; destruct Hv as [E | [E | [E | E]]]; rewrite E in *;
    try reflexivity; done.
Qed.

Section Load.
Context (m : Machine) (v v' : VM) (t : list TranslationEntry) (k : Z) (q j0 : nat)
  (s : positive) (n : nat) (f : TranslationEntry) (ie : IPTEntry).
Context (K : core None k m v) (Hk : k <= 1) (Ht : tlb m = Some t) (Hj0 : currentTLB v = Z.of_nat j0)
  (Hf : t !! j0 = Some f) (Hh : holds v q s n) (Hs : space v = Some s) (Hno : no_slot m q).
Context (HIPT : forall p i, IPT v' !! p = Some i ->
    exists i0, IPT v !! p = Some i0 /\ (i = i0 \/ i = with_dirty true i0))
  (HIPT' : forall p i0, IPT v !! p = Some i0 -> exists i, IPT v' !! p = Some i)
  (Hlen : length (IPT v') = length (IPT v))
  (Hprop : forall p i, dirty f = true -> physicalPage f = Z.of_nat p -> IPT v' !! p = Some i ->
    dirty (ientry i) = true)
  (Hie : IPT v' !! q = Some ie) (Hctlb : currentTLB v' = Z.rem (currentTLB v + 1) TLBSize)
  (Hrest : exists x l, v' = set_IPT x (set_currentTLB (currentTLB v') (set_locks l v))).
Let m' := set_tlb (Some (<[j0 := ientry ie]> t)) m.

Lemma ld_page_of s' n' : page_of v' s' n' = page_of v s' n'.
Proof using Hrest. clear -Hrest. destruct Hrest as (? & ? & ->). done. Qed.

Lemma ld_fields i i0 : i = i0 \/ i = with_dirty true i0 ->
  valid (ientry i) = valid (ientry i0) /\ owner i = owner i0 /\
  virtualPage (ientry i) = virtualPage (ientry i0) /\ physicalPage (ientry i) = physicalPage (ientry i0) /\
  readOnly (ientry i) = readOnly (ientry i0) /\ (dirty (ientry i0) = true -> dirty (ientry i) = true).
Proof using. by intros [-> | ->]. Qed.

Lemma ld_holds p s' n' : holds v p s' n' -> holds v' p s' n'.
Proof using HIPT HIPT'.
  intros (i0 & Hi & Hv & Ho & Hn). destruct (HIPT' _ _ Hi) as (i & Hi'). exists i. split; [done|].
  destruct (HIPT _ _ Hi') as (i1 & Hi1 & Hor). rewrite Hi in Hi1. injection Hi1 as <-.
  destruct (ld_fields _ _ Hor) as (-> & -> & -> & _). done.
Qed.

Lemma ld_clean p : clean m v p -> clean m' v' p.
Proof using HIPT Hrest.
  intros Hc i s1 n1 x1 e1 Hi Ho Hn He1. rewrite ld_page_of in He1.
  destruct (HIPT _ _ Hi) as (i0 & Hi0 & Hor). destruct (ld_fields _ _ Hor) as (_ & E1 & E2 & _).
  rewrite E1 in Ho. rewrite E2 in Hn.
  assert (swapFile v' = swapFile v) as -> by (destruct Hrest as (? & ? & ->); done). by eapply Hc.
Qed.

Lemma ld_loaded : valid (ientry ie) = true /\ physicalPage (ientry ie) = Z.of_nat q /\
  virtualPage (ientry ie) = Z.of_nat n /\ readOnly (ientry ie) = false /\
  (clean m' v' q \/ dirty (ientry ie) = true).
Proof using K Ht Hh Hno HIPT Hie Hrest.
  destruct (HIPT _ _ Hie) as (i0 & Hi0 & Hor). destruct (ld_fields _ _ Hor) as (E1 & E2 & E3 & E4 & E5 & Ed).
  rewrite E1, E4, E3, E5. destruct Hh as (i1 & Hi1 & Hv & Ho & Hn). rewrite Hi0 in Hi1. injection Hi1 as <-.
  destruct (c_frame _ _ _ _ K q i0 Hi0) as [_ Hc]; [done|]. destruct (Hc Hv) as (? & ? & _).
  do 4 (split; [done|]). destruct (c_unmapped _ _ _ _ K t q i0 Ht Hi0) as [Hcl|Hd]; [done | done | | |].
  - intros j g Hj Hvg. by apply (Hno t j g).
  - left. by apply ld_clean.
  - right. auto.
Qed.

Lemma ld_lookup j g : <[j0 := ientry ie]> t !! j = Some g ->
  (j = j0 /\ g = ientry ie) \/ (j <> j0 /\ t !! j = Some g).
Proof using Hf.
  destruct (decide (j = j0)) as [->|Hj].
  - rewrite list_lookup_insert_eq by (by eapply lookup_lt_Some). intros [= <-]. auto.
  - rewrite list_lookup_insert_ne by done. auto.
Qed.

Lemma ld_unmapped p i : IPT v' !! p = Some i -> valid (ientry i) = true ->
  (forall j e, <[j0 := ientry ie]> t !! j = Some e -> valid e = true -> physicalPage e <> Z.of_nat p) ->
  clean m' v' p \/ dirty (ientry i) = true.
Proof using All.
  intros Hi Hv Hn. destruct (HIPT _ _ Hi) as (i0 & Hi0 & Hor).
  destruct (ld_fields _ _ Hor) as (E1 & _ & _ & _ & _ & Ed). rewrite E1 in Hv.
  assert (forall j e, j <> j0 -> t !! j = Some e -> valid e = true -> physicalPage e <> Z.of_nat p) as Hoth.
  { intros j e Hj Hje. apply (Hn j). by rewrite list_lookup_insert_ne. }
  destruct (decide (valid f = true /\ physicalPage f = Z.of_nat p)) as [[Hvf Hpf]|Hnf].
  - destruct (c_slot _ _ _ _ K t j0 f Ht Hf Hvf) as (_ & p' & _ & _ & Hp' & _ & _ & _ & _ & Hc).
    assert (p' = p) as -> by lia. destruct Hc as [Hc|Hd]; [left; by apply ld_clean|].
    right. by apply (Hprop p i).
  - destruct (c_unmapped _ _ _ _ K t p i0 Ht Hi0) as [Hc|Hd]; [done | done | | |].
    + intros j e Hje Hve Hpe. destruct (decide (j = j0)) as [->|Hj]; [|by apply (Hoth j e)].
      rewrite Hf in Hje. injection Hje as <-. by apply Hnf.
    + left. by apply ld_clean.
    + right. auto.
Qed.

Lemma ld_slot j e : <[j0 := ientry ie]> t !! j = Some e -> valid e = true ->
  readOnly e = false /\
  exists p s n, physicalPage e = Z.of_nat p /\ None <> Some p /\ space v' = Some s /\
    virtualPage e = Z.of_nat n /\ holds v' p s n /\ (clean m' v' p \/ dirty e = true).
Proof using All.
  assert (space v' = space v) as Hsp by (destruct Hrest as (? & ? & ->); done).
  intros [[-> ->]|[Hj Hj']]%ld_lookup Hv.
  - destruct ld_loaded as (_ & Hp & Hn & Hr & Hc). split; [done|]. exists q, s, n.
    rewrite Hsp. do 4 (split; [done|]). split; [by apply ld_holds | done].
  - destruct (c_slot _ _ _ _ K t j e Ht Hj' Hv) as (? & p & s1 & n1 & ? & ? & ? & ? & ? & Hc).
    split; [done|]. exists p, s1, n1. rewrite Hsp. do 4 (split; [done|]).
    split; [by apply ld_holds|]. destruct Hc; [left; by apply ld_clean | by right].
Qed.

Lemma ld_unique i j e e' :
  <[j0 := ientry ie]> t !! i = Some e -> <[j0 := ientry ie]> t !! j = Some e' ->
  valid e = true -> valid e' = true -> physicalPage e = physicalPage e' -> i = j.
Proof using All.
  destruct ld_loaded as (_ & Hp & _).
  intros [[-> ->]|[Hi Hi']]%ld_lookup [[-> ->]|[Hj Hj']]%ld_lookup Hv Hv' Heq; [done | | |].
  - destruct (Hno t j e' Ht Hj' Hv'). congruence.
  - destruct (Hno t i e Ht Hi' Hv). congruence.
  - by apply (c_unique _ _ _ _ K t i j e e').
Qed.

Lemma ld_stale j e p : <[j0 := ientry ie]> t !! j = Some e -> valid e = false ->
  physicalPage e = Z.of_nat p -> (p < 256)%nat -> age v' j < turns v' p + nfree v' + 0.
Proof using All.
  destruct ld_loaded as (Hv0 & _). intros [[-> ->]|[Hj Hj']]%ld_lookup Hv Hp Hlt; [congruence|].
  assert (j < 4)%nat as Hj4.
  { apply lookup_lt_Some in Hj'. rewrite (wf_tlb m (c_machine _ _ _ _ K) t Ht) in Hj'.
    change (Z.to_nat TLBSize) with 4%nat in Hj'. done. }
  rewrite (age_next v v' j) by (done || lia || apply K).
  pose proof (c_stale _ _ _ _ K t j e p Ht Hj' Hv Hp Hlt).
  assert (turns v' p = turns v p) as -> by (destruct Hrest as (? & ? & ->); done).
  assert (nfree v' = nfree v) as -> by (destruct Hrest as (? & ? & ->); done). lia.
Qed.

Lemma ld_core : core None 0 m' v'.
Proof using All.
  assert (j0 < length t)%nat as Hlt by (by eapply lookup_lt_Some).
  assert (mainMemoryBitMap v' = mainMemoryBitMap v /\ swapFileBitMap v' = swapFileBitMap v /\
    currentIPT v' = currentIPT v /\ PRand v' = PRand v /\ swapFile v' = swapFile v) as (Eb & Es & Ec & Er & Ef)
    by (destruct Hrest as (? & ? & ->); done).
  constructor.
  - apply (wf_set_tlb m t); [apply K | done | by rewrite length_insert].
  - by eexists.
  - rewrite Hlen. apply K.
  - rewrite Eb. apply K.
  - rewrite Es. apply K.
  - rewrite Ec, Hctlb. split; [apply K|]. destruct (c_next _ _ _ _ K) as [_ ?]. apply Z.rem_bound_pos; unfold TLBSize; lia.
  - rewrite Er. apply K.
  - rewrite Ef. split; [apply K|]. intros s1 n1 x1 e1. rewrite ld_page_of. apply K.
  - intros p i Hi _. destruct (HIPT _ _ Hi) as (i0 & Hi0 & Hor).
    destruct (ld_fields _ _ Hor) as (E1 & E2 & E3 & E4 & E5 & _). rewrite Eb, E1, E2, E3, E4, E5.
    destruct (c_frame _ _ _ _ K p i0 Hi0) as [Hb Hv]; [done|]. split; [done|]. intros Hv0.
    destruct (Hv Hv0) as (? & ? & s1 & n1 & x1 & e1 & ?). do 2 (split; [done|]).
    exists s1, n1, x1, e1. by rewrite ld_page_of.
  - done.
  - intros s1 n1 x1 e1. rewrite ld_page_of, Es. intros Hpg.
    destruct (c_page _ _ _ _ K _ _ _ _ Hpg) as [? Hv]. split; [done|]. intros Hve.
    destruct (Hv Hve) as (p & ? & ? & ?). exists p. split; [done|]. split; [done | by apply ld_holds].
  - intros t' j e [= <-]. apply ld_slot.
  - intros t' i j e e' [= <-]. apply ld_unique.
  - intros t' p i [= <-] Hi _. by apply ld_unmapped.
  - intros t' j e p [= <-]. apply ld_stale.
  - intros t' j e [= <-] [[-> ->]|[Hj Hj']]%ld_lookup; [|by apply (c_garbage _ _ _ _ K t j e)].
    destruct ld_loaded as (_ & -> & _). apply lookup_lt_Some in Hie. rewrite Hlen, (c_IPT _ _ _ _ K) in Hie. lia.
Qed.
End Load.

(** A valid slot of the TLB maps page [n] of the running space to frame [q]. *)
Definition mapped (m : Machine) (n q : nat) : Prop :=
  exists t j e, tlb m = Some t /\ t !! j = Some e /\ valid e = true /\
    virtualPage e = Z.of_nat n /\ physicalPage e = Z.of_nat q.

Lemma mapped_unique m v n q q' s :
  core None 0 m v -> space v = Some s -> mapped m n q -> mapped m n q' -> q = q'.
Proof.
  intros K Hs (t & j & e & Ht & Hj & Hv & Hn & Hq) (t' & j' & e' & Ht' & Hj' & Hv' & Hn' & Hq').
  rewrite Ht in Ht'. injection Ht' as <-.
  destruct (c_slot _ _ _ _ K t j e Ht Hj Hv) as (_ & p & s1 & n1 & Hp & _ & Hs1 & Hvp & Hh & _).
  destruct (c_slot _ _ _ _ K t j' e' Ht Hj' Hv') as (_ & p' & s2 & n2 & Hp' & _ & Hs2 & Hvp' & Hh' & _).
  assert (n1 = n) as -> by lia. assert (n2 = n) as -> by lia. assert (s1 = s2) as -> by congruence.
  pose proof (holds_frame m v None 0 p p' s2 n K Hh Hh' ltac:(done) ltac:(done)). lia.
Qed.

(** The slot that maps the page, and the frame's owner. *)
Lemma mapped_holds m v n q s :
  core None 0 m v -> space v = Some s -> mapped m n q -> holds v q s n.
Proof.
  intros K Hs (t & j & e & Ht & Hj & Hv & Hn & Hq).
  destruct (c_slot _ _ _ _ K t j e Ht Hj Hv) as (_ & p & s1 & n1 & Hp & _ & Hs1 & Hvp & Hh & _).
  assert (n1 = n) as -> by lia. assert (p = q) as -> by lia. assert (s1 = s) as -> by congruence. done.
Qed.

Lemma mapped_content m v n q s :
  core None 0 m v -> space v = Some s -> mapped m n q -> content m v s n = Some (frame m q).
Proof.
  intros K Hs Hm. pose proof (mapped_holds _ _ _ _ _ K Hs Hm) as Hh.
  destruct (holds_page _ _ _ _ _ _ _ K Hh) as (x & e & Hp & Hv & Hq); [done|].
  unfold content. rewrite Hp. cbn. unfold page_content. cbn. by rewrite Hv, Hq, Nat2Z.id.
Qed.

Section Fault.
Context `{!VMEnv}.

Lemma updateTLB_spec m v k q s n :
  core None k m v -> k <= 1 -> holds v q s n -> space v = Some s -> no_slot m q -> TLBLock ∉ locks v ->
  exists m' v', updateTLB (Z.of_nat q) (m, v) = Ret (m', v') /\
    core None 0 m' v' /\ keeps m v m' v' /\ mapped m' n q /\ swap_free v' = swap_free v.
Proof.
  intros K Hk Hh Hs Hno Hl. destruct (c_tlb _ _ _ _ K) as [t Ht].
  destruct (c_next _ _ _ _ K) as [_ Hc]. destruct (Z_of_nat_complete (currentTLB v) ltac:(lia)) as [j0 Hj0].
  pose proof (wf_tlb m (c_machine _ _ _ _ K) t Ht) as Hlen. change (Z.to_nat TLBSize) with 4%nat in Hlen.
  destruct (lookup_lt_is_Some_2 t j0) as [f Hf]; [lia|].
  pose proof Hh as (iq & Hiq & _). unfold updateTLB. rewrite Ht, Acquire_new by done.
  set (v1 := set_locks _ v). change (currentTLB v1) with (currentTLB v). rewrite Hj0, (aref_nat _ _ _ Hf).
  cbn [bind].
  assert (exists ipt, (if dirty f then update_IPT (physicalPage f) (set_ientry (set_dirty (dirty f))) v1 else Ret v1)
      = Ret (set_IPT ipt v1) /\ length ipt = length (IPT v) /\
    (forall p i, ipt !! p = Some i -> exists i0, IPT v !! p = Some i0 /\ (i = i0 \/ i = with_dirty true i0)) /\
    (forall p i, dirty f = true -> physicalPage f = Z.of_nat p -> ipt !! p = Some i -> dirty (ientry i) = true))
    as (ipt & -> & Hli & HI & Hprop).
  { destruct (dirty f) eqn:Hd.
    - pose proof (c_garbage _ _ _ _ K t j0 f Ht Hf Hd) as Hr.
      destruct (Z_of_nat_complete (physicalPage f) ltac:(lia)) as [p Hp].
      destruct (lookup_lt_is_Some_2 (IPT v) p) as [i Hi]; [rewrite (c_IPT _ _ _ _ K); lia|].
      rewrite Hp, (update_IPT_spec v1 p i) by done. eexists. split; [reflexivity|].
      split; [by rewrite length_insert|]. split.
      + intros p' i'. destruct (decide (p' = p)) as [->|Hne].
        * rewrite list_lookup_insert_eq by (by eapply lookup_lt_Some). intros [= <-]. eauto.
        * rewrite list_lookup_insert_ne by done. eauto.
      + intros p' i' _ ?. assert (p' = p) as -> by lia.
        rewrite list_lookup_insert_eq by (by eapply lookup_lt_Some). by intros [= <-].
    - exists (IPT v). split; [by destruct v|]. split; [done|]. split; [eauto | discriminate]. }
  cbn [bind]. change (IPT (set_IPT ipt v1)) with ipt.
  destruct (lookup_lt_is_Some_2 ipt q) as [ie Hie]; [rewrite Hli; by eapply lookup_lt_Some|].
  rewrite (aref_nat _ _ _ Hie). cbn [bind]. change (currentTLB (set_IPT ipt v1)) with (currentTLB v).
  rewrite Hj0, (aset_nat _ _ _ _ Hf). cbn [bind].
  rewrite (Release_last TLBLock (locks v)) by done. set (m' := set_tlb _ m). set (v' := set_locks _ _).
  assert (forall p i0, IPT v !! p = Some i0 -> exists i, IPT v' !! p = Some i) as HI'.
  { intros p i0 Hi. apply lookup_lt_is_Some_2. cbn. rewrite Hli. by eapply lookup_lt_Some. }
  assert (exists x l, v' = set_IPT x (set_currentTLB (currentTLB v') (set_locks l v))) as Hrest
    by (by exists ipt, (locks v)).
  exists m', v'. split; [done|].
  split; [eapply (ld_core m v v' t k q j0 s n f ie); try done; by rewrite Hj0|].
  split; [by split|]. split; [|done].
  destruct (ld_loaded m v v' t k q j0 s n ie) as (? & ? & ? & _); try done.
  exists (<[j0 := ientry ie]> t), j0, (ientry ie). split; [done|].
  split; [apply list_lookup_insert_eq; lia | done].
Qed.

Lemma IPT_search_spec m v k s n i c :
  core None k m v -> space v = Some s -> (i + c = 256)%nat ->
  (exists q, IPT_search v (Z.of_nat n) (Z.of_nat i) c = Ret (Z.of_nat q) /\ holds v q s n) \/
  (IPT_search v (Z.of_nat n) (Z.of_nat i) c = Ret (-1) /\
     forall q, (i <= q < 256)%nat -> ~ holds v q s n).
Proof.
  intros K Hs. revert i. induction c as [|c IH]; intros i Hi; cbn [IPT_search].
  - right. split; [done | lia].
  - destruct (lookup_lt_is_Some_2 (IPT v) i) as [ie Hie]; [rewrite (c_IPT _ _ _ _ K); lia|].
    rewrite (aref_nat _ _ _ Hie). cbn [bind]. rewrite Hs.
    destruct (_ && _ && _) eqn:Etest.
    + left. apply andb_true_iff in Etest as [[Hn Ho%bool_decide_eq_true]%andb_true_iff Hv].
      apply Z.eqb_eq in Hn. exists i. destruct (c_frame _ _ _ _ K i ie Hie) as [_ Hc]; [done|].
      destruct (Hc Hv) as (-> & _). split; [done | by exists ie].
    + replace (Z.of_nat i + 1) with (Z.of_nat (S i)) by lia.
      destruct (IH (S i)) as [?|[-> Hno]]; [lia | by left |]. right. split; [done|].
      intros q Hq Hh. destruct (decide (q = i)) as [->|Hne]; [|apply (Hno q); [lia | done]].
      destruct Hh as (ie' & Hie' & Hv & Ho & Hn). rewrite Hie in Hie'. injection Hie' as <-.
      rewrite Ho, Hn, Hv, Z.eqb_refl, bool_decide_true in Etest by done. discriminate.
Qed.

Lemma content_page m v m' v' s n xe :
  keeps m v m' v' -> page_of v s n = Some xe -> exists xe', page_of v' s n = Some xe'.
Proof.
  intros Hk Hp. pose proof (keep_content _ _ _ _ Hk s n) as Hc. unfold content in Hc.
  rewrite Hp in Hc. destruct (page_of v' s n); [eauto | discriminate].
Qed.

(** A frame for the page: a free one, or the one of the FIFO victim. *)
Lemma frame_for m v s n x e :
  core None 0 m v -> page_of v s n = Some (x, e) -> valid (entry e) = false -> 0 < swap_free v ->
  TLBLock ∉ locks v -> swapFileLock ∉ locks v ->
  exists q m' v' x' e',
    (let! (ppn, bm) := Find (mainMemoryBitMap v) in
     let v := set_mainMemoryBitMap bm v in
     if ppn =? -1 then HandleMemoryFull (m, v) else Ret (ppn, (m, v))) = Ret (Z.of_nat q, (m', v')) /\
    core (Some q) 1 m' v' /\ no_slot m' q /\ keeps m v m' v' /\ swap_free v - 1 <= swap_free v' /\
    page_of v' s n = Some (x', e') /\ valid (entry e') = false.
Proof.
  intros K Hpg Hve Hsw Hl1 Hl2. destruct (clear_bits (mainMemoryBitMap v)) as [|p rest] eqn:Hcl.
  - pose proof (Find_allocates_least_spec _ (proj1 (c_frames _ _ _ _ K))) as Hf. rewrite Hcl in Hf.
    rewrite Hf. cbn [bind Z.eqb Pos.eqb].
    assert (set_mainMemoryBitMap (mainMemoryBitMap v) v = v) as -> by (by destruct v).
    destruct (HandleMemoryFull_spec m v) as (q & m' & v' & Hr & Kq & Hno & Hk & Hsf & Hback); [done..|].
    destruct (content_page _ _ _ _ s n _ Hk Hpg) as [[x' e'] Hpg'].
    exists q, m', v', x', e'. do 6 (split; [done|]). destruct (valid (entry e')) eqn:Hv'; [|done].
    specialize (Hback _ _ _ _ Hpg' Hv'). rewrite Hpg in Hback. injection Hback as <- <-. congruence.
  - destruct (find_core m v p rest K Hcl) as (q & bm & -> & Hf & Kq & Hno). rewrite Hf. cbn [bind].
    rewrite (proj2 (Z.eqb_neq _ _)) by lia. exists q, m, (set_mainMemoryBitMap bm v), x, e.
    do 3 (split; [done|]). split; [by split|]. split; [unfold swap_free; cbn; lia | done].
Qed.

Lemma HandleIPTMiss_spec m v s n x e :
  core None 0 m v -> space v = Some s -> page_of v s n = Some (x, e) -> valid (entry e) = false ->
  0 < swap_free v -> forall ls, locks v = IPTLock :: ls -> unlocked ls ->
  exists q m' v', HandleIPTMiss (Z.of_nat n) (m, v) = Ret (Z.of_nat q, (m', v')) /\
    core None 1 m' v' /\ keeps m v m' v' /\ holds v' q s n /\ no_slot m' q /\
    swap_free v - 1 <= swap_free v'.
Proof.
  intros K Hs Hpg Hve Hsw ls Hl Hun. unfold HandleIPTMiss. rewrite Acquire_new by (rewrite Hl; lock_free).
  rewrite Hl. set (v1 := set_locks _ v).
  destruct (frame_for m v1 s n x e) as (q & m2 & v2 & x' & e' & Hr & K2 & Hno & Hk & Hsf & Hpg2 & Hve2);
    [by apply core_locks | done | done | done | lock_free | lock_free |].
  destruct (Find (mainMemoryBitMap v1)) as [[ppn bm]| |]; cbn [bind] in Hr |- *; [|done|done].
  rewrite Hr. cbn [bind]. pose proof Hk as [Hk1 Hk2 Hk3 Hk4 Hk5]. rewrite Hk2. change (space v1) with (space v). rewrite Hs.
  assert (locks v2 = bitMapLock :: IPTLock :: ls) as Hl2 by done.
  destruct (IPTMiss_spec m2 v2 q s n x' e') as (m3 & v3 & -> & K3 & Hk' & Hh & Hno3 & Hsf3);
    [done | done | by rewrite Hk2 | done | done | rewrite Hl2; lock_free |].
  cbn [bind]. pose proof (keeps_trans _ _ _ _ _ _ Hk Hk') as [Hc1 Hc2 Hc3 Hc4 Hc5].
  rewrite (Release_last bitMapLock (IPTLock :: ls)) by (first [by rewrite Hc3 | lock_free]).
  exists q, m3, (set_locks (IPTLock :: ls) v3). split; [done|]. split; [by apply core_locks|].
  change (swap_free v1) with (swap_free v) in Hsf. change (swap_free (set_locks _ v3)) with (swap_free v3).
  split; [split; done|]. split; [done|]. split; [done | lia].
Qed.

(** No other thread is chosen at the tick that ends the handler. *)
Context (quiet : forall s, OneTick s = Ret s).

Lemma SetLevel_quiet b m v : SetLevel b (m, v) = Ret (intLevel v, (m, set_intLevel b v)).
Proof using quiet. unfold SetLevel. case_decide; [by rewrite quiet | done]. Qed.

(** No valid slot for page [n]. *)
Definition tlb_miss (m : Machine) (n : nat) : Prop :=
  forall t j e, tlb m = Some t -> t !! j = Some e -> valid e = true -> virtualPage e <> Z.of_nat n.

Lemma miss_no_slot m v k q s n :
  core None k m v -> space v = Some s -> tlb_miss m n -> holds v q s n -> no_slot m q.
Proof using.
  intros K Hs Hmiss Hh t j e Ht Hj Hv Hp.
  destruct (c_slot _ _ _ _ K t j e Ht Hj Hv) as (_ & p & s1 & n1 & Hp1 & _ & Hs1 & Hn & Hh1 & _).
  assert (p = q) as -> by lia. destruct (holds_inj _ _ _ _ _ _ Hh Hh1) as [_ <-].
  by apply (Hmiss t j e).
Qed.

(** The search of the inverted page table, and the loading of the page if it is
    not in memory. *)
Lemma find_or_load m v s n x e ls :
  core None 0 m v -> space v = Some s -> page_of v s n = Some (x, e) -> tlb_miss m n ->
  0 < swap_free v -> locks v = IPTLock :: ls -> unlocked ls ->
  exists q m' v' k,
    (let! ppn := IPT_search v (Z.of_nat n) 0 (Z.to_nat NumPhysPages) in
     if ppn =? -1 then HandleIPTMiss (Z.of_nat n) (m, v) else Ret (ppn, (m, v))) = Ret (Z.of_nat q, (m', v')) /\
    core None k m' v' /\ k <= 1 /\ keeps m v m' v' /\ holds v' q s n /\ no_slot m' q /\
    swap_free v - 1 <= swap_free v'.
Proof using.
  intros K Hs Hpg Hmiss Hsw Hl Hun.
  destruct (IPT_search_spec m v 0 s n 0 256 K Hs eq_refl) as [(q & Hq & Hh)|[Hq Hno]];
    change (Z.of_nat 0) with 0 in Hq; change (Z.to_nat NumPhysPages) with 256%nat; rewrite Hq; cbn [bind].
  - rewrite (proj2 (Z.eqb_neq _ _)) by lia. exists q, m, v, 0. do 3 (split; [done|]). split; [by split|].
    split; [done|]. split; [by eapply miss_no_slot | lia].
  - change (-1 =? -1) with true. cbv iota.
    assert (valid (entry e) = false) as Hve.
    { destruct (valid (entry e)) eqn:Hve; [|done]. exfalso.
      destruct (c_page _ _ _ _ K s n x e Hpg) as [_ Hc]. destruct (Hc Hve) as (p & _ & _ & Hh).
      apply (Hno p); [|done]. destruct Hh as (i & Hi & _). apply (frames_range v) in Hi; [lia | apply K]. }
    destruct (HandleIPTMiss_spec m v s n x e K Hs Hpg Hve Hsw ls Hl Hun) as (q & m3 & v3 & Hr & ? & ? & ? & ? & ?).
    by exists q, m3, v3, 1.
Qed.

Lemma HandlePageFault_spec m v s n bad :
  core None 0 m v -> unlocked (locks v) -> space v = Some s -> is_Some (content m v s n) ->
  reg m BadVAddrReg = Ret bad -> Z.quot bad PageSize = Z.of_nat n ->
  tlb_miss m n -> 0 < swap_free v ->
  exists q m' v', HandlePageFault (m, v) = Ret (m', v') /\
    core None 0 m' v' /\ keeps m v m' v' /\ mapped m' n q /\ swap_free v - 1 <= swap_free v'.
Proof using quiet.
  intros K Hun Hs Hcont Hbad Hn Hmiss Hsw.
  destruct (page_of v s n) as [[x e]|] eqn:Hpg; [|unfold content in Hcont; rewrite Hpg in Hcont; by destruct Hcont].
  unfold HandlePageFault. rewrite SetLevel_quiet. cbn [bind].
  unfold ReadRegister. cbn [bind ASSERT andb Z.leb Z.compare BadVAddrReg Z.ltb NumTotalRegs Pos.compare Pos.compare_cont].
  unfold reg in Hbad. rewrite Hbad. cbn [bind]. rewrite Hn.
  set (v1 := set_intLevel IntOff v). rewrite Acquire_new by lock_free.
  change (locks v1) with (locks v). set (v2 := set_locks _ v1).
  assert (core None 0 m v2) as K2 by (by apply core_locks, core_level).
  destruct (find_or_load m v2 s n x e (locks v)) as (q & m3 & v3 & k & Hr & K3 & Hk & Hk3 & Hh & Hno & Hsf); try done.
  destruct (IPT_search _ _ _ _) as [ppn| |]; cbn [bind] in Hr |- *; [|done|done]. rewrite Hr. cbn [bind].
  pose proof Hk3 as [_ Hs3 Hl3 Hv3 _].
  destruct (updateTLB_spec m3 v3 k q s n) as (m4 & v4 & -> & K4 & Hk4 & Hmap & Hsf4);
    [done | done | done | by rewrite Hs3 | done | rewrite Hl3; lock_free |].
  cbn [bind]. pose proof (keeps_trans _ _ _ _ _ _ Hk3 Hk4) as [Hc Hs4 Hl4 Hv4 Hr4].
  rewrite (Release_last IPTLock (locks v)) by (first [by rewrite Hl4 | lock_free]).
  rewrite SetLevel_quiet. cbn [bind].
  exists q, m4, (set_intLevel (intLevel v) (set_locks (locks v) v4)). split; [done|].
  split; [by apply core_level, core_locks|]. split; [|split; [done|]].
  - by split.
  - change (swap_free (set_intLevel _ _)) with (swap_free v4).
    change (swap_free v2) with (swap_free v) in Hsf. lia.
Qed.

(** C12: page faults are transparent. Under FIFO replacement, when the page of the
    faulting address exists and the swap file has a free page, HandlePageFault
    returns, keeps the invariant, and a process cannot tell: every page of every
    address space has the same content as before, whether the page was already in
    memory, came from the executable, from the swap file or is new, and whichever
    page was evicted for it, written to the swap file or not; registers locks
    and interrupt level are the same. The TLB then maps the page
    to a frame that holds its content. *)
Theorem page_fault_transparent m v s n bad :
  core None 0 m v -> unlocked (locks v) -> space v = Some s -> is_Some (content m v s n) ->
  reg m BadVAddrReg = Ret bad -> Z.quot bad PageSize = Z.of_nat n ->
  tlb_miss m n -> 0 < swap_free v ->
  exists q m' v', HandlePageFault (m, v) = Ret (m', v') /\ core None 0 m' v' /\
    (forall s' n', content m' v' s' n' = content m v s' n') /\
    mapped m' n q /\ content m' v' s n = Some (frame m' q) /\
    registers m' = registers m /\ locks v' = locks v /\ intLevel v' = intLevel v /\ space v' = space v.
Proof using quiet.
  intros K Hl Hs Hc Hbad Hn Hmiss Hsw.
  destruct (HandlePageFault_spec m v s n bad) as (q & m' & v' & Hr & K' & [Hk1 Hk2 Hk3 Hk4 Hk5] & Hmap & _);
    try done.
  exists q, m', v'. do 4 (split; [done|]). split; [|done].
  apply (mapped_content m' v' n q s); [done | by rewrite Hk2 | done].
Qed.
End Fault.

#[global] Arguments page_size : simpl never.
#[global] Arguments frame : simpl never.
