(* ===== verification/Boot.v ===== *)
(** * Start-up of the memory system and loading of programs
      (threads/system.cc:192-229, userprog/addrspace.cc:88-207)

    Initialize and the constructors of Machine and AddrSpace establish the
    invariant of Paging.v. A NOFF header is read the same way on hosts of both
    byte orders. *)

From S2P Require Import Prelude Interrupt BitMap Table Machine VM Paging.

(** ** The invariant *)

Lemma clear_all bm : wf bm -> (forall i, 0 <= i < numBits bm -> bit bm i = false) ->
  Z.of_nat (length (clear_bits bm)) = numBits bm.
Proof.
  intros Hwf Hb. unfold clear_bits. rewrite filter_all.
  - rewrite length_seqZ, Z2Nat.id; [done | apply (wf_numBits bm Hwf)].
  - apply Forall_forall. intros x Hx%elem_of_seqZ. apply Hb. lia.
Qed.

(** A machine at start-up: no slot of the TLB is valid; a dirty bit that happens
    to be set names a frame. *)
Record fresh_machine (m : Machine) : Prop := {
  fr_wf : wf_machine m;
  fr_tlb : is_Some (tlb m);
  fr_invalid t j e : tlb m = Some t -> t !! j = Some e -> valid e = false;
  fr_garbage t j e : tlb m = Some t -> t !! j = Some e -> dirty e = true -> 0 <= physicalPage e < 256
}.

Lemma Initialize_core g gw gs sd m :
  fresh_machine m -> exists v, Initialize g gw gs false sd = Ret v /\ core None 0 m v /\
    spaces v = ∅ /\ locks v = [] /\ swap_free v = 4096.
Proof.
  intros []. unfold Initialize.
  destruct (new_BitMap_spec NumPhysPages gw ltac:(done)) as (bm & -> & Hbm & Hn & Hb). cbn [bind].
  destruct (new_BitMap_spec 4096 gs ltac:(done)) as (sm & -> & Hsm & Hns & Hbs). cbn [bind].
  eexists. split; [reflexivity|].
  assert (forall n i, (((fun i => mkIPTE (mkTE (virtualPage (g i)) (Z.of_nat i) false
    (readOnly (g i)) (use (g i)) (dirty (g i))) None) <$> seq 0 256) !! n = Some i ->
    (n < 256)%nat /\ valid (ientry i) = false)) as HI.
  { intros n i (j & -> & Hj)%list_lookup_fmap_Some. split; [|done]. apply lookup_seq in Hj. lia. }
  split; [constructor; cbn [IPT]; try done|].
  - intros p ie Hi _. destruct (HI p ie Hi) as [Hlt ->]. split; [|discriminate].
    apply Hb. unfold NumPhysPages. lia.
  - intros t j e Ht Hj Hv. by rewrite (fr_invalid0 t j e Ht Hj) in Hv.
  - intros t i j e e' Ht Hi Hj Hv. by rewrite (fr_invalid0 t i e Ht Hi) in Hv.
  - intros t p ie _ Hi _ Hv. destruct (HI p ie Hi) as [_ Hf]. congruence.
  - intros t j e p _ _ _ _ _. unfold nfree. cbn [mainMemoryBitMap].
    rewrite clear_all, Hn by (done || by rewrite Hn). unfold NumPhysPages.
    match goal with |- age ?v j < turns ?v p + _ + _ => pose proof (age_range v j);
      pose proof (Z.mod_pos_bound (Z.of_nat p - currentIPT v) 256 ltac:(lia)); unfold turns, NumPhysPages; lia end.
  - do 2 (split; [done|]). unfold swap_free. cbn [swapFileBitMap]. rewrite clear_all; [done | done|].
    by rewrite Hns.
Qed.

(** A new address space, none of whose pages is in memory, keeps the invariant. *)
Lemma core_add_space m v s a :
  core None 0 m v -> spaces v !! s = None -> Forall is_i8 (executable a) ->
  (forall n e, pages a !! n = Some e -> valid (entry e) = false /\ entry_ok (swapFileBitMap v) n e) ->
  core None 0 m (set_spaces (<[s := a]> (spaces v)) v).
Proof.
  intros K Hnone Hx Ha. set (v' := set_spaces _ v).
  assert (forall s' n xe, page_of v s' n = Some xe -> page_of v' s' n = Some xe) as Hmono.
  { intros s' n xe Hp. unfold page_of in *. cbn. destruct (decide (s' = s)) as [->|Hne].
    - by rewrite Hnone in Hp.
    - by rewrite lookup_insert_ne. }
  assert (forall s' n x e, page_of v' s' n = Some (x, e) ->
    (s' = s /\ x = executable a /\ pages a !! n = Some e) \/ page_of v s' n = Some (x, e)) as Hcases.
  { intros s' n x e Hp. unfold page_of in *. cbn in Hp. destruct (decide (s' = s)) as [->|Hne].
    - rewrite lookup_insert_eq in Hp. cbn in Hp. apply bind_Some in Hp as (f & Hf & [= <- <-]). auto.
    - rewrite lookup_insert_ne in Hp by done. auto. }
  assert (forall p s' n, holds v p s' n -> clean m v p -> clean m v' p) as Hclean.
  { intros p s' n Hh Hc i s1 n1 x1 e1 Hi Ho Hn Hp. apply (Hc i s1 n1 x1 e1 Hi Ho Hn).
    destruct (Hcases _ _ _ _ Hp) as [(-> & _)|]; [|done]. exfalso.
    destruct (holds_page m v None 0 p s n1 K) as (x & e & Hpg & _); [|done|].
    { destruct Hh as (i' & Hi' & Hv & _). change (IPT v !! p = Some i) in Hi. rewrite Hi in Hi'.
      injection Hi' as <-. by exists i. }
    unfold page_of in Hpg. by rewrite Hnone in Hpg. }
  constructor; try apply K.
  - split; [apply K|]. intros s' n x e Hp.
    destruct (Hcases _ _ _ _ Hp) as [(_ & -> & _)|Hp']; [done | by eapply K].
  - intros p ie Hi Hr. destruct (c_frame _ _ _ _ K p ie Hi Hr) as [Hb Hv]. split; [done|].
    intros Hvi. destruct (Hv Hvi) as (? & ? & s1 & n1 & x1 & e1 & ? & ? & Hp & ?).
    do 2 (split; [done|]). exists s1, n1, x1, e1. do 2 (split; [done|]). split; [by apply Hmono | done].
  - intros s' n x e Hp. destruct (Hcases _ _ _ _ Hp) as [(-> & -> & He)|Hp'].
    + destruct (Ha n e He) as [Hv Hok]. split; [done | congruence].
    + by apply (c_page _ _ _ _ K _ _ _ _ Hp').
  - intros t j e Ht Hj Hv. destruct (c_slot _ _ _ _ K t j e Ht Hj Hv) as (? & p & s1 & n1 & ? & ? & ? & ? & Hh & Hc).
    split; [done|]. exists p, s1, n1. do 5 (split; [done|]). destruct Hc; [left; by eapply Hclean | by right].
  - intros t p i Ht Hi Hr Hv Hn.
    destruct (c_unmapped _ _ _ _ K t p i Ht Hi Hr Hv Hn) as [Hc|]; [left | by right].
    destruct (c_frame _ _ _ _ K p i Hi Hr) as [_ Hf].
    destruct (Hf Hv) as (_ & _ & s1 & n1 & x1 & e1 & ? & ? & ?). apply (Hclean p s1 n1); [by exists i | done].
Qed.

(** Another address space may run when no slot of the TLB is valid. *)
Lemma core_set_space m v x :
  core None 0 m v -> (forall t j e, tlb m = Some t -> t !! j = Some e -> valid e = false) ->
  core None 0 m (set_space x v).
Proof.
  intros K Hno. constructor; try apply K.
  intros t j e Ht Hj Hv. by rewrite (Hno t j e Ht Hj) in Hv.
Qed.

(** ** Object files *)

Definition noff_fields (h : NoffHeader) : list Z :=
  let seg s := [virtualAddr s; inFileAddr s; segSize s] in
  noffMagic h :: seg (code h) ++ seg (initData h) ++ seg (uninitData h).

(** The header as the linker writes it: ten little-endian words. *)
Definition noff_bytes (h : NoffHeader) : list Z := concat (le_bytes 4 <$> noff_fields h).

Lemma load_word_at big pre x post :
  load_word big (pre ++ le_bytes 4 x ++ post) (Z.of_nat (length pre)) =
  Ret (host_word big (i8 x) (i8 (x / 2^8)) (i8 (x / 2^8 / 2^8)) (i8 (x / 2^8 / 2^8 / 2^8))).
Proof.
  assert (forall k b, le_bytes 4 x !! k = Some b ->
    aref (pre ++ le_bytes 4 x ++ post) (Z.of_nat (length pre) + Z.of_nat k) = Ret b) as H.
  { intros k b Hk. rewrite <- Nat2Z.inj_add. apply aref_nat.
    rewrite lookup_app_r by lia. replace (_ + k - _)%nat with k by lia.
    rewrite lookup_app_l by (by eapply lookup_lt_Some). done. }
  unfold load_word. pose proof (H 0%nat _ eq_refl) as H0. rewrite Z.add_0_r in H0. rewrite H0. cbn [bind].
  pose proof (H 1%nat _ eq_refl) as H1. change (Z.of_nat 1) with 1 in H1. rewrite H1. cbn [bind].
  pose proof (H 2%nat _ eq_refl) as H2. change (Z.of_nat 2) with 2 in H2. rewrite H2. cbn [bind].
  pose proof (H 3%nat _ eq_refl) as H3. change (Z.of_nat 3) with 3 in H3. rewrite H3. done.
Qed.

(** Word [k] of a file that holds little-endian words, converted. *)
Lemma load_int_at big xs post k x :
  xs !! k = Some x -> is_i32 x ->
  exists y, load_word big (concat (le_bytes 4 <$> xs) ++ post) (4 * Z.of_nat k) = Ret y /\
    swap_int big (i32 y) = x.
Proof.
  intros Hk Hx. pose proof (take_drop_middle xs k x Hk) as Hs. rewrite <- Hs.
  rewrite fmap_app, concat_app, fmap_cons. cbn [concat]. rewrite <- !app_assoc.
  assert (length (concat (le_bytes 4 <$> take k xs)) = (4 * k)%nat) as Hl.
  { apply lookup_lt_Some in Hk. assert (length (take k xs) = k) as Ht by (rewrite length_take; lia).
    revert Ht. generalize (take k xs) as l. clear. intros l <-. induction l; [done|].
    rewrite fmap_cons. cbn [concat]. rewrite length_app, IHl, le_bytes_length. cbn [length]. lia. }
  replace (4 * Z.of_nat k) with (Z.of_nat (length (concat (le_bytes 4 <$> take k xs)))) by lia.
  rewrite load_word_at. eexists. split; [reflexivity|]. unfold swap_int.
  rewrite WordToHost_le. change [i8 x; _; _; _] with (le_bytes 4 x). rewrite le_bytes_value.
  change (8 * Z.of_nat 4) with 32. fold (u32 x). by rewrite i32_u32, i32_small.
Qed.

Lemma load_noff_spec big h post :
  Forall is_i32 (noff_fields h) ->
  exists h0, load_noff big (noff_bytes h ++ post) = Ret h0 /\ SwapHeader big h0 = h.
Proof.
  intros Hf. rewrite Forall_lookup in Hf.
  assert (forall k i x, noff_fields h !! k = Some x -> i = Z.of_nat k -> exists y,
    (let! z := load_word big (noff_bytes h ++ post) (4 * i) in Ret (i32 z)) = Ret (i32 y) /\
    swap_int big (i32 y) = x) as Hw.
  { intros k i x Hk ->. destruct (load_int_at big _ post k x Hk (Hf _ _ Hk)) as (y & Hy & Hs).
    exists y. unfold noff_bytes. by rewrite Hy. }
  unfold load_noff. revert Hw. generalize (fun i => let! z := load_word big (noff_bytes h ++ post) (4 * i) in Ret (i32 z)).
  intros word Hw. destruct h as [mg [va fa sz] [vb fb sb] [vc fc sc]].
  destruct (Hw 0%nat 0 mg eq_refl eq_refl) as (y0 & -> & E0).
  destruct (Hw 1%nat 1 va eq_refl eq_refl) as (y1 & -> & E1).
  destruct (Hw 2%nat (1 + 1) fa eq_refl eq_refl) as (y2 & -> & E2).
  destruct (Hw 3%nat (1 + 2) sz eq_refl eq_refl) as (y3 & -> & E3).
  destruct (Hw 4%nat 4 vb eq_refl eq_refl) as (y4 & -> & E4).
  destruct (Hw 5%nat (4 + 1) fb eq_refl eq_refl) as (y5 & -> & E5).
  destruct (Hw 6%nat (4 + 2) sb eq_refl eq_refl) as (y6 & -> & E6).
  destruct (Hw 7%nat 7 vc eq_refl eq_refl) as (y7 & -> & E7).
  destruct (Hw 8%nat (7 + 1) fc eq_refl eq_refl) as (y8 & -> & E8).
  destruct (Hw 9%nat (7 + 2) sc eq_refl eq_refl) as (y9 & -> & E9).
  cbn [bind]. eexists. split; [reflexivity|]. unfold SwapHeader, swap_segment. cbn. congruence.
Qed.

(** The magic number is recognised in either byte order, and then the header's
    fields are the numbers in the file. *)
Lemma swapped_header big h0 h :
  SwapHeader big h0 = h -> noffMagic h = NOFFMAGIC ->
  (if negb (noffMagic h0 =? NOFFMAGIC) && (swap_int big (noffMagic h0) =? NOFFMAGIC)
   then SwapHeader big h0 else h0) = h \/ big = false /\ noffMagic h0 = NOFFMAGIC.
Proof.
  intros <- Hm. cbn in Hm. destruct big.
  - left. destruct (Z.eqb_spec (noffMagic h0) NOFFMAGIC) as [He|]; cbn [negb andb].
    + rewrite He in Hm. vm_compute in Hm. discriminate.
    + by rewrite (proj2 (Z.eqb_eq _ _) Hm).
  - destruct (Z.eqb_spec (noffMagic h0) NOFFMAGIC) as [He|]; [by right|].
    left. cbn [negb andb]. by rewrite (proj2 (Z.eqb_eq _ _) Hm).
Qed.

Lemma little_header h0 h :
  SwapHeader false h0 = h -> Forall is_i32 (noff_fields h0) -> h0 = h.
Proof.
  intros <- Hf. destruct h0 as [mg [va fa sz] [vb fb sb] [vc fc sc]].
  unfold noff_fields in Hf. cbn in Hf. rewrite !Forall_cons in Hf. destruct Hf as (?&?&?&?&?&?&?&?&?&?&_).
  assert (forall x, is_i32 x -> swap_int false x = x) as Hs
    by (intros x Hx; unfold swap_int; cbn [WordToHost]; by rewrite i32_u32, i32_small).
  unfold SwapHeader, swap_segment. cbn [noffMagic code initData uninitData virtualAddr inFileAddr segSize].
  by rewrite !Hs.
Qed.

Lemma load_noff_i32 big buf h : load_noff big buf = Ret h -> Forall is_i32 (noff_fields h).
Proof.
  unfold load_noff. intros H. inv_ret. unfold noff_fields. cbn. repeat constructor; apply i32_range.
Qed.

(** The file table of a new process: handles 0 and 1, the console. *)
Lemma console_handles gt gp :
  exists T, (let! ft := new_Table MaxOpenFiles gt gp in
             let! (_, ft) := Put ft NULL in let! (_, ft) := Put ft NULL in Ret ft) = Ret T /\
    wf_table T /\ size T = 256 /\
    forall i, view T i = if decide (i = 0 \/ i = 1) then Some NULL else None.
Proof.
  destruct (new_Table_spec MaxOpenFiles gt gp ltac:(done)) as (T0 & -> & Hw0 & Hs0 & Hv0). cbn [bind].
  change MaxOpenFiles with 256 in Hs0.
  destruct (Put_spec T0 NULL Hw0) as (h0 & T1 & -> & Hw1 & Hs1 & H1). cbn [bind].
  destruct (decide (h0 = -1)) as [->|_].
  { destruct H1 as [_ H1]. destruct (H1 0) as [? Hx]; [lia|]. by rewrite Hv0 in Hx. }
  destruct H1 as (Hr0 & _ & Hlow & Hv1). assert (h0 = 0) as ->.
  { destruct (decide (h0 = 0)) as [|Hne]; [done|]. destruct (Hlow 0) as [? Hx]; [lia|]. by rewrite Hv0 in Hx. }
  destruct (Put_spec T1 NULL Hw1) as (h1 & T2 & -> & Hw2 & Hs2 & H2). cbn [bind].
  destruct (decide (h1 = -1)) as [->|_].
  { destruct H2 as [_ H2]. destruct (H2 1) as [? Hx]; [lia|]. rewrite Hv1, decide_False, Hv0 in Hx by lia. done. }
  destruct H2 as (Hr1 & Hf1 & Hlow1 & Hv2). assert (h1 = 1) as ->.
  { destruct (decide (h1 = 0)) as [->|]; [by rewrite Hv1, decide_True in Hf1|].
    destruct (decide (h1 = 1)) as [|]; [done|]. destruct (Hlow1 1) as [? Hx]; [lia|].
    rewrite Hv1, decide_False, Hv0 in Hx by lia. done. }
  exists T2. split; [done|]. split; [done|]. split; [lia|]. intros i. rewrite Hv2.
  destruct (decide (i = 1)) as [->|]; [by rewrite decide_True by auto|]. rewrite Hv1.
  destruct (decide (i = 0)) as [->|]; [by rewrite decide_True by auto|]. rewrite Hv0.
  by rewrite decide_False by naive_solver.
Qed.

(** Pages of code, data and stack. *)
Definition pages_for (h : NoffHeader) : Z :=
  (segSize (code h) + segSize (initData h) + segSize (uninitData h) + 127) / 128 + 8.

Lemma pages_for_spec h :
  0 <= segSize (code h) + segSize (initData h) + segSize (uninitData h) < 2^30 ->
  u32 (divRoundUp (u32 (segSize (code h) + segSize (initData h) + segSize (uninitData h))) PageSize +
       divRoundUp UserStackSize PageSize) = pages_for h /\ 8 <= pages_for h < 2^24.
Proof.
  intros Hsz. unfold pages_for. set (z := _ + segSize (uninitData h)) in *.
  rewrite (u32_small z) by (unfold is_u32; lia). unfold PageSize, SectorSize.
  change (divRoundUp UserStackSize 128) with 8.
  pose proof (divRoundUp_spec z 128 ltac:(lia) ltac:(lia)).
  assert (divRoundUp z 128 = (z + 127) / 128) as ->.
  { apply Z.div_unique with (z + 127 - divRoundUp z 128 * 128); lia. }
  pose proof (Z.div_mod (z + 127) 128 ltac:(lia)). pose proof (Z.mod_pos_bound (z + 127) 128 ltac:(lia)).
  rewrite u32_small by (unfold is_u32; lia). lia.
Qed.

(** A file whose header the constructor of AddrSpace understands as [h]. *)
Record executable_image (big : bool) (h : NoffHeader) (file : File) : Prop := {
  im_header buf : exists h0, load_noff big (take 40 file ++ drop (length (take 40 file)) buf) = Ret h0 /\
    (if negb (noffMagic h0 =? NOFFMAGIC) && (swap_int big (noffMagic h0) =? NOFFMAGIC) then SwapHeader big h0 else h0) = h;
  im_magic : noffMagic h = NOFFMAGIC;
  im_size : 0 <= segSize (code h) + segSize (initData h) + segSize (uninitData h) < 2^30
}.

Lemma noff_bytes_i8 h : Forall is_i8 (noff_bytes h).
Proof.
  apply Forall_concat, Forall_fmap, Forall_forall. intros x _. apply le_bytes_i8.
Qed.

Lemma noff_image big h rest : Forall is_i32 (noff_fields h) -> noffMagic h = NOFFMAGIC ->
  0 <= segSize (code h) + segSize (initData h) + segSize (uninitData h) < 2^30 ->
  executable_image big h (noff_bytes h ++ rest).
Proof.
  intros Hf Hm Hsz. split; [|done..]. intros buf.
  change (take 40 (noff_bytes h ++ rest)) with (noff_bytes h).
  destruct (load_noff_spec big h (drop (length (noff_bytes h)) buf) Hf) as (h0 & Hh0 & Hsw). exists h0. split; [done|].
  destruct (swapped_header big h0 h Hsw Hm) as [|[-> Hm0]]; [done|]. rewrite Hm0. cbn.
  apply little_header; [done | by eapply load_noff_i32].
Qed.

Lemma new_AddrSpace_image big h file buf g gt gp : executable_image big h file ->
  exists a, new_AddrSpace big file buf g gt gp = Ret a /\
    numPages a = pages_for h /\ numPageQueue a = [pages_for h] /\ executable a = file /\
    Z.of_nat (length (pages a)) = pages_for h /\
    (forall n e, pages a !! n = Some e ->
       virtualPage (entry e) = Z.of_nat n /\ valid (entry e) = false /\ dirty (entry e) = false /\
       readOnly (entry e) = false /\ location e = 1 /\ byteOffset e = 40 + Z.of_nat n * 128) /\
    wf_table (fileTable a) /\ size (fileTable a) = 256 /\
    forall i, view (fileTable a) i = if decide (i = 0 \/ i = 1) then Some NULL else None.
Proof.
  intros [Him Hm Hsz]. destruct (pages_for_spec h Hsz) as [Hnp Hr].
  destruct (console_handles gt gp) as (T & HT & HwT & HsT & HvT).
  unfold new_AddrSpace. destruct (new_Table _ _ _) as [ft| |]; cbn [bind] in HT |- *; [|done|done].
  destruct (Put ft NULL) as [[? ft1]| |]; cbn [bind] in HT |- *; [|done|done].
  destruct (Put ft1 NULL) as [[? ft2]| |]; cbn [bind] in HT |- *; [|done|done]. injection HT as ->.
  assert (ReadAt file 40 0 = Ret (take 40 file)) as -> by done.
  cbn [bind]. destruct (Him buf) as (h0 & Hh0 & Hsw). rewrite Hh0. cbn [bind]. rewrite Hsw.
  rewrite Hm. cbn [bind ASSERT]. change (NOFFMAGIC =? NOFFMAGIC) with true. cbn [bind ASSERT].
  rewrite Hnp. eexists. split; [reflexivity|]. cbn. split; [done|].
  split; [by rewrite i32_small by (unfold is_i32; lia)|]. split; [done|].
  split; [rewrite length_fmap, length_seq; lia|]. split; [|done].
  intros n e (i & -> & Hi)%list_lookup_fmap_Some. apply lookup_seq in Hi as [-> Hlt]. cbn.
  do 5 (split; [done|]). unfold PageSize, SectorSize.
  rewrite u32_small, i32_small by (unfold is_u32, is_i32; lia). lia.
Qed.

Lemma new_AddrSpace_spec big h rest buf g gt gp :
  Forall is_i32 (noff_fields h) -> noffMagic h = NOFFMAGIC ->
  0 <= segSize (code h) + segSize (initData h) + segSize (uninitData h) < 2^30 ->
  let file := noff_bytes h ++ rest in
  exists a, new_AddrSpace big file buf g gt gp = Ret a /\
    numPages a = pages_for h /\ numPageQueue a = [pages_for h] /\ executable a = file /\
    Z.of_nat (length (pages a)) = pages_for h /\
    (forall n e, pages a !! n = Some e ->
       virtualPage (entry e) = Z.of_nat n /\ valid (entry e) = false /\ dirty (entry e) = false /\
       readOnly (entry e) = false /\ location e = 1 /\ byteOffset e = 40 + Z.of_nat n * 128) /\
    wf_table (fileTable a) /\ size (fileTable a) = 256 /\
    forall i, view (fileTable a) i = if decide (i = 0 \/ i = 1) then Some NULL else None.
Proof. intros Hf Hm Hsz file. by apply new_AddrSpace_image, noff_image. Qed.

Lemma new_Machine_fresh debug g size until ticks :
  (dirty g = true -> 0 <= physicalPage g < 256) ->
  fresh_machine (new_Machine true debug g size until ticks).
Proof.
  intros Hg.
  assert (forall t, tlb (new_Machine true debug g size until ticks) = Some t ->
    forall j e, t !! j = Some e ->
    valid e = false /\ dirty e = dirty g /\ physicalPage e = physicalPage g) as Hslots.
  { intros t [= <-]. do 4 (intros [|j] e Hj; [by injection Hj as <-|]; revert j e Hj). done. }
  split.
  - apply new_Machine_wf.
  - by eexists.
  - intros t j e Ht Hj. destruct (Hslots t Ht j e Hj) as (-> & _). done.
  - intros t j e Ht Hj. destruct (Hslots t Ht j e Hj) as (_ & -> & ->). done.
Qed.

Lemma image_loaded big h file m gI gw gs sd buf g gt gp s : fresh_machine m -> executable_image big h file -> Forall is_i8 file ->
  exists v a, Initialize gI gw gs false sd = Ret v /\ new_AddrSpace big file buf g gt gp = Ret a /\
    let v' := set_space (Some s) (set_spaces (<[s := a]> (spaces v)) v) in
    core None 0 m v' /\ locks v' = [] /\ swap_free v' = 4096 /\
    numPages a = pages_for h /\ numPageQueue a = [pages_for h] /\
    (forall s' n, content m v' s' n =
       if decide (s' = s /\ Z.of_nat n < pages_for h)
       then Some (file_page file (40 + Z.of_nat n * 128)) else None) /\
    forall i, view (fileTable a) i = if decide (i = 0 \/ i = 1) then Some NULL else None.
Proof.
  intros Hm Him Hf8.
  destruct (Initialize_core gI gw gs sd m Hm) as (v & Hv & K & Hsp & Hl & Hsw).
  destruct (new_AddrSpace_image big h file buf g gt gp Him)
    as (a & Ha & Hnp & Hq & Hx & Hlen & Hpages & _ & _ & Hview).
  destruct (pages_for_spec h (im_size _ _ _ Him)) as [_ Hbound].
  exists v, a. split; [done|]. split; [done|]. intros v'. split.
  - apply core_set_space; [|by apply Hm]. apply core_add_space; [done | by rewrite Hsp | by rewrite Hx|].
    intros n e He. destruct (Hpages n e He) as (? & ? & ? & ? & Hloc & Hoff). apply lookup_lt_Some in He.
    split; [done|]. split; [lia | done | done | lia | by rewrite Hloc].
  - do 2 (split; [done|]). do 2 (split; [done|]). split; [|done]. intros s' n.
    unfold content, page_of, v'. cbn. rewrite Hsp. destruct (decide (s' = s)) as [->|Hs].
    + rewrite lookup_insert_eq. cbn. destruct (pages a !! n) as [e|] eqn:He.
      * pose proof (lookup_lt_Some _ _ _ He). rewrite decide_True by (split; [done | lia]).
        destruct (Hpages n e He) as (_ & Hve & _ & _ & Hloc & Hoff).
        cbn. unfold page_content. cbn. rewrite Hve. unfold backing. by rewrite Hloc, Hoff, Hx.
      * apply lookup_ge_None in He. rewrite decide_False; [done | lia].
    + rewrite lookup_insert_ne, decide_False by naive_solver. done.
Qed.

(** Start-up and program loading: after Initialize, the constructor accepts an
    executable with a little-endian NOFF header on hosts of either byte order; page
    [n] holds bytes 40 + 128 n to 40 + 128 n + 127 of the file. *)
Lemma program_loaded_spec big h rest m gI gw gs sd buf g gt gp s :
  fresh_machine m -> Forall is_i32 (noff_fields h) -> noffMagic h = NOFFMAGIC -> Forall is_i8 rest ->
  0 <= segSize (code h) + segSize (initData h) + segSize (uninitData h) < 2^30 ->
  let file := noff_bytes h ++ rest in
  exists v a, Initialize gI gw gs false sd = Ret v /\ new_AddrSpace big file buf g gt gp = Ret a /\
    let v' := set_space (Some s) (set_spaces (<[s := a]> (spaces v)) v) in
    core None 0 m v' /\ locks v' = [] /\ swap_free v' = 4096 /\
    numPages a = pages_for h /\ numPageQueue a = [pages_for h] /\
    (forall s' n, content m v' s' n =
       if decide (s' = s /\ Z.of_nat n < pages_for h)
       then Some (file_page file (40 + Z.of_nat n * 128)) else None) /\
    forall i, view (fileTable a) i = if decide (i = 0 \/ i = 1) then Some NULL else None.
Proof.
  intros Hm Hf Hmag Hr Hsz file. apply image_loaded; [done | by apply noff_image |].
  apply Forall_app_2; [apply noff_bytes_i8 | done].
Qed.

(** A program of one page of code and one of data. *)
Module Demo.
Definition noff : NoffHeader :=
  mkNoff NOFFMAGIC (mkSegment 0 40 100) (mkSegment 128 140 60) (mkSegment 256 200 20).
Definition text : list Z := (fun i => Z.of_nat (i mod 100)) <$> seq 0 200.
Definition no_entry : TranslationEntry := mkTE 0 (-1) false false false false.
Definition machine : Machine := new_Machine true false no_entry 0 0 0.
Definition garbage : nat -> PageTableEntry := fun _ => mkPTE no_entry 7 7 7.

Lemma machine_fresh : fresh_machine machine.
Proof. by apply new_Machine_fresh. Qed.

(** The program, started. *)
Definition started : C VM :=
  let! v := Initialize (fun _ => no_entry) (fun _ => 5) (fun _ => 6) false 1 in
  let! a := new_AddrSpace true (noff_bytes noff ++ text) [] garbage (fun _ => 9) (fun _ => 8) in
  Ret (set_space (Some 1%positive) (set_spaces (<[1%positive := a]> (spaces v)) v)).

Lemma booted : exists v, started = Ret v /\ core None 0 machine v /\ locks v = [] /\ space v = Some 1%positive /\
  swap_free v = 4096 /\ forall n, (n < 10)%nat -> is_Some (content machine v 1 n).
Proof.
  destruct (program_loaded_spec true noff text machine (fun _ => no_entry) (fun _ => 5) (fun _ => 6) 1 []
    garbage (fun _ => 9) (fun _ => 8) 1%positive machine_fresh) as (v & a & Hv & Ha & K & Hl & Hsw & _ & _ & Hc & _).
  - unfold noff_fields. cbn. repeat constructor; done.
  - done.
  - apply Forall_fmap, Forall_forall. intros i _. pose proof (Nat.mod_upper_bound i 100 ltac:(lia)).
    unfold compose, is_i8. lia.
  - cbn. lia.
  - eexists. split; [unfold started; rewrite Hv; cbn [bind]; rewrite Ha; reflexivity|].
    split; [exact K|]. do 3 (split; [done|]). intros n Hn. rewrite Hc, decide_True; [by eexists|].
    split; [done|]. change (pages_for noff) with 10. lia.
Qed.

(** No thread switch at the ticks, and a random number generator. *)
#[export] Instance env : VMEnv := {| OneTick s := Ret s; rand x := (x, x + 7) |}.

Lemma quiet (s : Machine * VM) : OneTick s = Ret s.
Proof. reflexivity. Qed.

Lemma page_fault_transparent_witness :
  exists v q m' v', core None 0 machine v /\ HandlePageFault (machine, v) = Ret (m', v') /\
    mapped m' 0 q /\ content m' v' 1 0 = Some (frame m' q).
Proof.
  destruct booted as (v & _ & K & Hl & Hs & Hsw & Hc).
  destruct (page_fault_transparent quiet machine v 1 0 0 K (unlocked_nil _ Hl) Hs (Hc 0%nat ltac:(lia))
    eq_refl eq_refl) as (q & m' & v' & Hr & _ & _ & Hm & Hq & _).
  - intros t j e Ht Hj Hv. rewrite (fr_invalid _ machine_fresh t j e Ht Hj) in Hv. discriminate.
  - lia.
  - exists v, q, m', v'. exact (conj K (conj Hr (conj Hm Hq))).
Defined.

(** A file with another magic number stops the process. *)
Example not_an_object_file :
  new_AddrSpace false (replicate 60 1) [] garbage (fun _ => 9) (fun _ => 8) = Abort.
Proof. vm_compute. reflexivity. Qed.
End Demo.
