(* ===== verification/UserMemory.v ===== *)
(** * User memory is a flat array of bytes (the contract of the memory system)

    User programs reach memory through Machine::ReadMem and WriteMem, which raise
    page faults that the kernel handles; the faulting instruction, or the loop of
    copyin (userprog/exception.cc:33-60), is then run again. The class [VMKernel]
    is what the memory system needs of the rest of the kernel; against it every
    access of the running program, whatever faults and evictions it causes, acts
    on a flat array of bytes. *)

From S2P Require Import Prelude Interrupt BitMap Table Machine Mips VM Paging Boot.

(** A kernel whose state has the memory system's globals as a part, and whose
    entry point passes page faults to HandlePageFault. *)
Class VMKernel (W : Type) `{!Kernel W, !VMEnv} := {
  vm : W -> VM;
  set_vm : VM -> W -> W;
  vm_set v w : vm (set_vm v w) = v;
  vm_status st w : vm (setMachineStatus st w) = vm w;
  vm_fault m w : ExceptionHandler PageFaultException (m, w) =
    let! (m', v') := HandlePageFault (m, vm w) in Ret (m', set_vm v' w)
}.

(** ** Repeating an access (exception.cc:33-83) *)

Section Copy.
Context {W : Type} `{!Kernel W}.
Variable big : bool.

(** The loop [while(!result)] around ReadMem; [None]: the fuel has run out. *)
Fixpoint read_until (fuel : nat) (vaddr : Z) (s : Machine * W) : C (option (Z * (Machine * W))) :=
  match fuel with
  | O => Ret None
  | S fuel =>
      let! (r, s) := ReadMem big (i32 vaddr) 1 s in
      match r with Some paddr => Ret (Some (paddr, s)) | None => read_until fuel vaddr s end
  end.

(** [n] more bytes; [buf] is what has been copied. *)
Fixpoint copyin_loop (fuel : nat) (vaddr : Z) (n : nat) (buf : list Z) (s : Machine * W) :
    C (option (list Z * (Machine * W))) :=
  match n with
  | O => Ret (Some (buf, s))
  | S n =>
      let! r := read_until fuel vaddr s in
      match r with
      | Some (paddr, s) => copyin_loop fuel (u32 (vaddr + 1)) n (buf ++ [i8 paddr]) s
      | None => Ret None
      end
  end.

(** The value returned and the bytes stored in the buffer. *)
Definition copyin (fuel : nat) (vaddr len : Z) (s : Machine * W) :
    C (option (Z * list Z * (Machine * W))) :=
  let! r := copyin_loop fuel vaddr (Z.to_nat len) [] s in
  match r with Some (buf, s) => Ret (Some (len, buf, s)) | None => Ret None end.

(** [k] more bytes, from [buf[n]] on. *)
Fixpoint copyout_loop (vaddr : Z) (buf : list Z) (n : Z) (k : nat) (s : Machine * W) : C (Z * (Machine * W)) :=
  match k with
  | O => Ret (n, s)
  | S k =>
      let! b := aref buf n in
      let! (result, s) := WriteMem big (i32 vaddr) 1 b s in
      if negb result then Ret (-1, s) else copyout_loop (u32 (vaddr + 1)) buf (n + 1) k s
  end.

Definition copyout (vaddr len : Z) (buf : list Z) (s : Machine * W) : C (Z * (Machine * W)) :=
  copyout_loop vaddr buf 0 (Z.to_nat len) s.

(** The loads and stores of a program; an instruction whose access faults is run
    again. *)
Inductive access := Load (vaddr size : Z) | Store (vaddr size value : Z).

Fixpoint do_access (fuel : nat) (a : access) (s : Machine * W) : C (option (option Z * (Machine * W))) :=
  match fuel with
  | O => Ret None
  | S fuel =>
      match a with
      | Load vaddr size =>
          let! (r, s) := ReadMem big vaddr size s in
          match r with Some x => Ret (Some (Some x, s)) | None => do_access fuel a s end
      | Store vaddr size value =>
          let! (ok, s) := WriteMem big vaddr size value s in
          if (ok : bool) then Ret (Some (None, s)) else do_access fuel a s
      end
  end.

Fixpoint do_accesses (fuel : nat) (l : list access) (s : Machine * W) : C (option (list (option Z) * (Machine * W))) :=
  match l with
  | [] => Ret (Some ([], s))
  | a :: l =>
      let! r := do_access fuel a s in
      match r with
      | None => Ret None
      | Some (x, s) =>
          let! r := do_accesses fuel l s in
          match r with None => Ret None | Some (xs, s) => Ret (Some (x :: xs, s)) end
      end
  end.
End Copy.

(** Specification: memory as a function from addresses to bytes. *)
Definition flat := Z -> option Z.

Definition flat_load (f : flat) (vaddr size : Z) : Z := of_bytes size (omap f (seqZ vaddr size)).

Definition flat_store (f : flat) (vaddr size value : Z) : flat := fun a =>
  if (vaddr <=? a) && (a <? vaddr + size) then le_bytes (Z.to_nat size) value !! Z.to_nat (a - vaddr)
  else f a.

Fixpoint flat_accesses (l : list access) (f : flat) : list (option Z) * flat :=
  match l with
  | [] => ([], f)
  | Load vaddr size :: l =>
      let '(xs, f') := flat_accesses l f in (Some (flat_load f vaddr size) :: xs, f')
  | Store vaddr size value :: l =>
      let '(xs, f') := flat_accesses l (flat_store f vaddr size value) in (None :: xs, f')
  end.

(** ** Single accesses of the machine *)

Definition page_number (vaddr : Z) : nat := Z.to_nat (vaddr / 128).
Definition offset (vaddr : Z) : nat := Z.to_nat (vaddr mod 128).

(** The TLB either maps the page of an address or the access faults. *)
Lemma access_cases m v s vaddr size writing :
  core None 0 m v -> space v = Some s -> 0 <= vaddr < 2^31 ->
  size = 1 \/ size = 2 \/ size = 4 -> vaddr mod size = 0 ->
  (exists t j e q, tlb m = Some t /\ t !! j = Some e /\ valid e = true /\
     list_find (matches (u32 vaddr / PageSize)) t = Some (j, e) /\
     physicalPage e = Z.of_nat q /\ (q < 256)%nat /\ mapped m (page_number vaddr) q /\
     expected m vaddr size writing = Phys (Z.of_nat (q * page_size + offset vaddr))) \/
  (tlb_miss m (page_number vaddr) /\ expected m vaddr size writing = Fault PageFaultException).
Proof.
  intros K Hs Ha Hsz Hal. destruct (c_tlb _ _ _ _ K) as [t Ht].
  unfold expected. rewrite Hal. cbn [Z.eqb negb]. unfold mapping. rewrite Ht. cbn [is_null andb].
  rewrite u32_small by (unfold is_u32; lia). unfold PageSize, SectorSize.
  pose proof (Z.div_pos vaddr 128 ltac:(lia) ltac:(lia)) as Hn0.
  pose proof (Z.mod_pos_bound vaddr 128 ltac:(lia)).
  destruct (list_find (matches (vaddr / 128)) t) as [[j e]|] eqn:Hf; cbn [fmap option_fmap option_map snd].
  - left. apply list_find_Some in Hf as Hf'. destruct Hf' as (Hj & [Hv Hn] & _).
    destruct (c_slot _ _ _ _ K t j e Ht Hj Hv) as (Hro & q & s1 & n1 & Hq & _ & Hs1 & Hvp & Hh & _).
    destruct (holds_page _ _ _ _ _ _ _ K Hh) as (x & pe & Hp & _ & _); [done|].
    destruct (c_page _ _ _ _ K _ _ _ _ Hp) as [[Hsmall _ _ _ _] _].
    rewrite Hvp, u32_small in Hn by (unfold is_u32; lia).
    pose proof Hh as (ie & Hie & _). apply (frames_range v) in Hie; [|apply K].
    exists t, j, e, q. do 5 (split; [done|]). split; [done|].
    split; [exists t, j, e; repeat split; try done; unfold page_number; lia|].
    rewrite Hro, Hq. rewrite u32_small by (unfold is_u32; lia). cbn [andb].
    unfold NumPhysPages. rewrite (proj2 (Z.leb_gt _ _)) by lia. f_equal. unfold offset, page_size. lia.
  - right. split; [|done]. intros t' j e Ht' Hj Hv Hvp. rewrite Ht in Ht'. injection Ht' as <-.
    apply list_find_None in Hf. rewrite Forall_lookup in Hf. apply (Hf j e Hj). split; [done|].
    rewrite Hvp, u32_small; unfold page_number; [lia|].
    assert (vaddr / 128 < 2^31) by (apply Z.div_lt_upper_bound; lia). unfold is_u32. lia.
Qed.

(** A translation that succeeds sets the use bit, and the dirty bit of a write. *)
Lemma Translate_hit m vaddr size writing t j e q a :
  wf_machine m -> size = 1 \/ size = 2 \/ size = 4 -> vaddr mod size = 0 ->
  tlb m = Some t -> list_find (matches (u32 vaddr / PageSize)) t = Some (j, e) ->
  physicalPage e = Z.of_nat q -> (q < 256)%nat ->
  expected m vaddr size writing = Phys a ->
  Translate m vaddr size writing = Ret (Phys a, set_tlb (Some (<[j := set_use_dirty writing e]> t)) m).
Proof.
  intros Hwf Hsz Hal Ht Hf Hq Hlt He. pose proof (wf_one_table m Hwf) as Hone.
  unfold Translate. rewrite misaligned_spec by done. rewrite Hal. cbn [Z.eqb negb]. rewrite Ht in *.
  destruct (pageTable m); [done|]. cbn [is_null negb orb ASSERT bind].
  rewrite tlb_lookup_spec by (rewrite ?(wf_tlb m Hwf t Ht); done). cbn [bind]. rewrite drop_0, Hf.
  cbn [fmap option_fmap option_map fst]. rewrite Z.add_0_l.
  apply list_find_Some in Hf as Hf'. destruct Hf' as (Hj & _). rewrite (aref_nat _ _ _ Hj). cbn [bind].
  rewrite u32_page. destruct (use_entry_spec e vaddr size writing Hsz Hal) as (r & -> & ->).
  unfold expected in He. rewrite Hal in He. cbn [Z.eqb negb] in He. unfold mapping in He.
  rewrite Ht, Hf in He. cbn in He. destruct (readOnly e && writing); [done|].
  destruct (_ <=? _); [done|]. cbn [bind]. rewrite (aset_nat _ _ _ _ Hj). cbn [bind].
  by injection He as ->.
Qed.

(** ** The invariant through an access *)

Section Use.
Context (m : Machine) (v : VM) (t : list TranslationEntry) (j : nat) (e : TranslationEntry) (b : bool).
Context (K : core None 0 m v) (Ht : tlb m = Some t) (Hj : t !! j = Some e) (Hv : valid e = true).
Let t' := <[j := set_use_dirty b e]> t.

Lemma use_lookup i f : t' !! i = Some f ->
  exists g, t !! i = Some g /\ valid f = valid g /\ readOnly f = readOnly g /\
    virtualPage f = virtualPage g /\ physicalPage f = physicalPage g /\
    (dirty g = true -> dirty f = true) /\ (dirty f = true -> valid g = true \/ dirty g = true).
Proof using Hj Hv.
  unfold t'. destruct (decide (i = j)) as [->|Hne].
  - rewrite list_lookup_insert_eq by (by eapply lookup_lt_Some). intros [= <-]. exists e. cbn.
    repeat split; auto. intros ->. by rewrite orb_true_r.
  - rewrite list_lookup_insert_ne by done. intros Hf. exists f. repeat split; auto.
Qed.

Lemma use_no_slot p :
  (forall i f, t' !! i = Some f -> valid f = true -> physicalPage f <> Z.of_nat p) ->
  forall i f, t !! i = Some f -> valid f = true -> physicalPage f <> Z.of_nat p.
Proof using Hj.
  intros Hn i f Hf Hvf. destruct (decide (i = j)) as [->|Hne].
  - rewrite Hj in Hf. injection Hf as <-. apply (Hn j (set_use_dirty b e)); [|done].
    unfold t'. apply list_lookup_insert_eq. by eapply lookup_lt_Some.
  - apply (Hn i f); [|done]. unfold t'. by rewrite list_lookup_insert_ne.
Qed.

Lemma core_use : core None 0 (set_tlb (Some t') m) v.
Proof using K Ht Hj Hv.
  assert (length t' = length t) as Hlen by (unfold t'; by rewrite length_insert).
  constructor; try apply K.
  - by apply (wf_set_tlb m t); [apply K|..].
  - by eexists.
  - intros t0 i f [= <-] (g & Hg & Evf & Er & En & Ep & Ed & _)%use_lookup Hvf. rewrite Evf in Hvf.
    destruct (c_slot _ _ _ _ K t i g Ht Hg Hvf) as (? & p & s & n & ? & ? & ? & ? & ? & Hc).
    rewrite Er, En, Ep. split; [done|]. exists p, s, n. do 5 (split; [done|]). destruct Hc; auto.
  - intros t0 i i' f f' [= <-] (g & Hg & Evf & _ & _ & Ep & _)%use_lookup
      (g' & Hg' & Evf' & _ & _ & Ep' & _)%use_lookup. rewrite Evf, Evf', Ep, Ep'. by apply (c_unique _ _ _ _ K t).
  - intros t0 p ie [= <-] Hi Hr Hvi Hn. apply (c_unmapped _ _ _ _ K t p ie Ht Hi Hr Hvi). by apply use_no_slot.
  - intros t0 i f p [= <-] (g & Hg & Evf & _ & _ & Ep & _)%use_lookup. rewrite Evf, Ep.
    by apply (c_stale _ _ _ _ K t i g p Ht Hg).
  - intros t0 i f [= <-] (g & Hg & _ & _ & _ & Ep & _ & Hor)%use_lookup Hd. rewrite Ep.
    destruct (Hor Hd) as [Hvg|Hdg]; [|by apply (c_garbage _ _ _ _ K t i g)].
    destruct (c_slot _ _ _ _ K t i g Ht Hg Hvg) as (_ & p & s & n & -> & _ & _ & _ & (ie & Hi & _) & _).
    apply (frames_range v) in Hi; [lia | apply K].
Qed.
End Use.

Lemma frame_store m bs q off :
  wf_machine m -> (q < 256)%nat -> (off + length bs <= page_size)%nat ->
  let m' := set_mainMemory (list_inserts (q * page_size + off) bs (mainMemory m)) m in
  frame m' q = list_inserts off bs (frame m q) /\ forall p, p <> q -> frame m' p = frame m p.
Proof.
  intros Hwf Hq Hl m'. pose proof (wf_memory m Hwf) as Hm.
  replace (Z.to_nat MemorySize) with (256 * 128)%nat in Hm by reflexivity.
  pose proof (frame_length m q Hwf Hq) as Hfl. split; [|intros p Hp];
    apply list_eq; intros i; destruct (decide (i < page_size)%nat) as [Hi|Hi].
  - rewrite frame_lookup by done. cbn. destruct (decide (off <= i < off + length bs)%nat).
    + rewrite !list_lookup_inserts by (unfold page_size in *; lia). f_equal. lia.
    + destruct (decide (i < off)%nat).
      * rewrite !list_lookup_inserts_lt by lia. by rewrite frame_lookup.
      * rewrite !list_lookup_inserts_ge by lia. by rewrite frame_lookup.
  - rewrite !lookup_ge_None_2; [done | ..]; unfold frame; rewrite ?length_inserts, length_take; lia.
  - rewrite !frame_lookup by done. cbn. unfold page_size in *. destruct (decide (p < q)%nat).
    + apply list_lookup_inserts_lt. lia.
    + apply list_lookup_inserts_ge. lia.
  - rewrite !lookup_ge_None_2; [done | ..]; unfold frame; rewrite length_take; lia.
Qed.

(** A store through a slot whose dirty bit is set. *)
Lemma core_store m v t j e s n q bs off :
  core None 0 m v -> tlb m = Some t -> t !! j = Some e -> valid e = true -> dirty e = true ->
  space v = Some s -> virtualPage e = Z.of_nat n -> physicalPage e = Z.of_nat q ->
  Forall is_i8 bs -> (off + length bs <= page_size)%nat ->
  let m' := set_mainMemory (list_inserts (q * page_size + off) bs (mainMemory m)) m in
  core None 0 m' v /\
  (forall s' n', content m' v s' n' =
     if decide (s' = s /\ n' = n) then list_inserts off bs <$> content m v s n else content m v s' n').
Proof.
  intros K Ht Hj Hv Hd Hs Hn Hq Hbs Hl m'. pose proof (c_machine _ _ _ _ K) as Hwf.
  assert (mapped m n q) as Hmap by (by exists t, j, e).
  pose proof (mapped_holds _ _ _ _ _ K Hs Hmap) as Hh.
  assert (q < 256)%nat as Hq256 by (destruct Hh as (ie & Hi & _); by eapply frames_range, Hi; apply K).
  destruct (frame_store m bs q off Hwf Hq256 Hl) as [Hfq Hfo]. fold m' in Hfq, Hfo.
  assert (forall p, p <> q -> clean m v p -> clean m' v p) as Hclean.
  { intros p Hp Hc i s1 n1 x1 e1 ????. rewrite Hfo by done. by eapply Hc. }
  split.
  - constructor; try apply K.
    + by apply wf_set_mainMemory.
    + intros t0 i f Ht0 Hf Hvf. change (tlb m = Some t0) in Ht0. destruct (c_slot _ _ _ _ K t0 i f Ht0 Hf Hvf)
        as (? & p & s1 & n1 & Hp & ? & ? & ? & ? & Hc).
      split; [done|]. exists p, s1, n1. do 5 (split; [done|]).
      destruct (decide (p = q)) as [->|Hne]; [|destruct Hc; auto]. right.
      rewrite Ht in Ht0. injection Ht0 as <-. assert (i = j) as ->.
      { apply (c_unique _ _ _ _ K t i j f e); try done. congruence. }
      rewrite Hj in Hf. by injection Hf as <-.
    + intros t0 p ie Ht0 Hi Hr Hvi Hno. change (tlb m = Some t0) in Ht0. rewrite Ht in Ht0. injection Ht0 as <-.
      assert (p <> q) as Hne by (intros ->; by apply (Hno j e)).
      destruct (c_unmapped _ _ _ _ K t p ie Ht Hi Hr Hvi Hno); auto.
  - intros s' n'. case_decide as Hc.
    + destruct Hc as [-> ->]. rewrite (mapped_content m v n q s K Hs Hmap). cbn. rewrite <- Hfq.
      destruct (holds_page _ _ _ _ _ _ _ K Hh) as (x & pe & Hp & Hvp & Hpp); [done|].
      unfold content. rewrite Hp. cbn. unfold page_content. cbn [fst snd]. by rewrite Hvp, Hpp, Nat2Z.id.
    + unfold content. destruct (page_of v s' n') as [[x pe]|] eqn:Hp; [|done]. cbn.
      unfold page_content. cbn [fst snd]. destruct (valid (entry pe)) eqn:Hvp; [|done].
      destruct (c_page _ _ _ _ K _ _ _ _ Hp) as [_ Hx]. destruct (Hx Hvp) as (p & -> & _ & Hh').
      rewrite Nat2Z.id, Hfo; [done|]. intros ->. apply Hc. by apply (holds_inj v q).
Qed.

(** ** The operations of the machine *)

Lemma setreg_only r x m m' : setreg r x m = Ret m' -> exists rs, m' = set_registers rs m.
Proof. unfold setreg. intros H. inv_ret. eauto. Qed.

Lemma DelayedLoad_only a b m m' : DelayedLoad a b m = Ret m' -> exists rs, m' = set_registers rs m.
Proof.
  unfold DelayedLoad. intros H. inv_ret.
  repeat match goal with H : setreg _ _ _ = Ret _ |- _ => apply setreg_only in H as [? ->] end. eauto.
Qed.

(** The registers at the kernel's entry point. *)
Lemma trap_state m vaddr :
  wf_machine m -> is_i32 vaddr -> exists m1 rs,
    (let! m := setreg BadVAddrReg vaddr m in DelayedLoad 0 0 m) = Ret m1 /\
    wf_machine m1 /\ m1 = set_registers rs m /\ reg m1 BadVAddrReg = Ret vaddr.
Proof.
  intros Hwf Hv. destruct (setreg_frame m BadVAddrReg vaddr Hwf) as (m1 & H1 & Hwf1 & E1);
    [done | done | by left |].
  destruct (DelayedLoad_spec m1 0 0 Hwf1) as (m2 & l & y & H2 & Hwf2 & _ & Hl & _ & E2); [done | done |].
  destruct (setreg_only _ _ _ _ H1) as [rs1 ->]. destruct (DelayedLoad_only _ _ _ _ H2) as [rs2 ->].
  exists (set_registers rs2 m), rs2. rewrite H1. cbn [bind]. split; [done|]. split; [done|]. split; [done|].
  apply aref_Ret. split; [done|]. cbn in E2, E1. cbn. rewrite E2, E1. unfold delayed.
  unfold NumGPRegs in Hl.
  rewrite !list_lookup_insert_ne by (unfold LoadValueReg, LoadReg, BadVAddrReg in *; lia).
  apply list_lookup_insert_eq. rewrite (wf_registers m Hwf). vm_compute. lia.
Qed.

Section Access.
Context {W : Type} `{!Kernel W, !VMEnv, !VMKernel W}.
Variable big : bool.
(** The tick that ends the page fault handler does not choose another thread. *)
Context (quiet : forall s, OneTick s = Ret s).
Implicit Types (m : Machine) (w : W).

(** [s] runs, the invariant holds and the kernel holds no lock of the memory system. *)
Definition runs (s : positive) m w : Prop :=
  core None 0 m (vm w) /\ unlocked (locks (vm w)) /\ space (vm w) = Some s.

(** The same contents of memory, at the cost of at most [k] pages of swap. *)
Definition same_memory (k : Z) m w m' w' : Prop :=
  (forall s n, content m' (vm w') s n = content m (vm w) s n) /\
  locks (vm w') = locks (vm w) /\ swap_free (vm w) - k <= swap_free (vm w').

Lemma fault_ok s m w vaddr :
  runs s m w -> 0 <= vaddr < 2^31 -> is_Some (content m (vm w) s (page_number vaddr)) ->
  tlb_miss m (page_number vaddr) -> 0 < swap_free (vm w) ->
  exists q m' w', RaiseException PageFaultException vaddr (m, w) = Ret (m', w') /\
    runs s m' w' /\ same_memory 1 m w m' w' /\ mapped m' (page_number vaddr) q.
Proof using quiet.
  intros (K & Hl & Hs) Ha Hc Hmiss Hsw. pose proof (c_machine _ _ _ _ K) as Hwf.
  destruct (trap_state m vaddr Hwf) as (m1 & rs & Htrap & Hwf1 & -> & Hbad); [unfold is_i32; lia|].
  set (m1 := set_registers rs m) in *.
  assert (core None 0 m1 (vm w)) as K1 by (by apply (core_machine None 0 m)).
  unfold RaiseException. destruct (setreg BadVAddrReg vaddr m) as [m0| |]; cbn [bind] in Htrap |- *; [|done|done].
  rewrite Htrap. cbn [bind]. rewrite vm_fault, vm_status.
  destruct (HandlePageFault_spec quiet m1 (vm w) s (page_number vaddr) vaddr)
    as (q & m2 & v2 & -> & K2 & [Hk1 Hk2 Hk3 _ _] & Hmap & Hsf); try done.
  { unfold page_number, PageSize, SectorSize. rewrite Z.quot_div_nonneg by lia.
    rewrite Z2Nat.id; [done | apply Z.div_pos; lia]. }
  cbn [bind]. exists q, m2, (setMachineStatus UserMode (set_vm v2 (setMachineStatus SystemMode w))).
  split; [done|]. unfold runs, same_memory. rewrite vm_status, vm_set.
  split; [split; [done|]; split; congruence|]. split; [|done]. split; [exact Hk1 | split; [congruence | lia]].
Qed.

Lemma runs_lastUsed s m w l : runs s m w -> wf_machine (set_lastUsed l m) -> runs s (set_lastUsed l m) w.
Proof using. intros (K & ? & ?) Hwf. split; [|done]. by apply (core_machine None 0 m). Qed.

Lemma ReadMem_state m w vaddr size a m1 x m' w' :
  Translate m vaddr size false = Ret (Phys a, m1) -> ReadMem big vaddr size (m, w) = Ret (x, (m', w')) ->
  exists l, m' = set_lastUsed l m1.
Proof using.
  intros Ht. unfold ReadMem. rewrite Ht. cbn [bind]. intros Hb.
  apply bind_Ret in Hb as (y & _ & Hb). apply bind_Ret in Hb as (m2 & Hb & [= _ <- _]).
  unfold touch in H. apply bind_Ret in Hb as (l & _ & [= <-]). eauto.
Qed.

Lemma WriteMem_state m w vaddr size value a m1 m' w' :
  Translate m vaddr size true = Ret (Phys a, m1) -> WriteMem big vaddr size value (m, w) = Ret (true, (m', w')) ->
  exists l mem, m' = set_lastUsed l (set_mainMemory mem m1).
Proof using.
  intros Ht. unfold WriteMem. rewrite Ht. cbn [bind]. intros Hb.
  apply bind_Ret in Hb as (y & _ & Hb). apply bind_Ret in Hb as (m2 & Hb & [= <- _]).
  unfold touch in H. apply bind_Ret in Hb as (l & _ & [= <-]). eauto.
Qed.

Lemma fault_again m vaddr size writing :
  wf_machine m -> size = 1 \/ size = 2 \/ size = 4 ->
  expected m vaddr size writing = Fault PageFaultException ->
  Translate m vaddr size writing = Ret (Fault PageFaultException, m).
Proof using.
  intros Hwf Hsz He. destruct (Translate_spec m vaddr size writing Hwf Hsz) as (m1 & Ht & _ & _ & Hm).
  rewrite He in Ht, Hm. by subst.
Qed.

Definition slice (off n : nat) (l : list Z) : list Z := take n (drop off l).

Lemma slice_frame m q off n :
  wf_machine m -> (q < 256)%nat -> (off + n <= page_size)%nat ->
  length (slice off n (frame m q)) = n /\ Forall is_i8 (slice off n (frame m q)) /\
  bytes_at (mainMemory m) (Z.of_nat (q * page_size + off)) (slice off n (frame m q)).
Proof using.
  intros Hwf Hq Hn. pose proof (frame_length m q Hwf Hq) as Hl.
  assert (length (slice off n (frame m q)) = n) as Hlen
    by (unfold slice; rewrite length_take, length_drop; lia).
  split; [done|]. split; [apply Forall_take, Forall_drop, frame_bytes, Hwf|].
  intros k Hk. rewrite Hlen in Hk. unfold slice. rewrite lookup_take_lt, lookup_drop by done.
  rewrite frame_lookup by lia. f_equal. lia.
Qed.

(** An aligned access lies in one page. *)
Lemma aligned_fits vaddr size :
  size = 1 \/ size = 2 \/ size = 4 -> vaddr mod size = 0 ->
  (offset vaddr + Z.to_nat size <= page_size)%nat.
Proof using.
  intros Hsz Hal. unfold offset, page_size.
  pose proof (Z.mod_pos_bound vaddr 128 ltac:(lia)).
  destruct Hsz as [-> | [-> | ->]]; [lia|..].
  - assert (vaddr mod 128 mod 2 = 0) by (rewrite Z.mod_mod_divide; [done | by exists 64]).
    pose proof (Z.div_mod (vaddr mod 128) 2 ltac:(lia)). lia.
  - assert (vaddr mod 128 mod 4 = 0) by (rewrite Z.mod_mod_divide; [done | by exists 32]).
    pose proof (Z.div_mod (vaddr mod 128) 4 ltac:(lia)). lia.
Qed.

Lemma mapped_hit m n q : mapped m n q -> ~ tlb_miss m n.
Proof using. intros (t & j & e & Ht & Hj & Hv & Hn & _) Hno. by apply (Hno t j e). Qed.

(** A read either gets the bytes of the page, or faults and maps the page. *)
Lemma ReadMem_vm s m w vaddr size pg :
  runs s m w -> 0 <= vaddr < 2^31 -> size = 1 \/ size = 2 \/ size = 4 -> vaddr mod size = 0 ->
  content m (vm w) s (page_number vaddr) = Some pg ->
  0 < swap_free (vm w) \/ ~ tlb_miss m (page_number vaddr) ->
  (~ tlb_miss m (page_number vaddr) /\
   exists m', ReadMem big vaddr size (m, w) =
     Ret (Some (of_bytes size (slice (offset vaddr) (Z.to_nat size) pg)), (m', w)) /\
     runs s m' w /\ same_memory 0 m w m' w) \/
  (tlb_miss m (page_number vaddr) /\
   exists m' w', ReadMem big vaddr size (m, w) = Ret (None, (m', w')) /\
     runs s m' w' /\ same_memory 1 m w m' w' /\ ~ tlb_miss m' (page_number vaddr)).
Proof using quiet.
  intros R Ha Hsz Hal Hpg Hsw. pose proof R as (K & Hl & Hs). pose proof (c_machine _ _ _ _ K) as Hwf.
  destruct (access_cases m (vm w) s vaddr size false K Hs Ha Hsz Hal)
    as [(t & j & e & q & Ht & Hj & Hv & Hf & Hq & Hlt & Hmap & He)|[Hmiss He]].
  - left. split; [by apply (mapped_hit m _ q)|]. rewrite (mapped_content _ _ _ _ _ K Hs Hmap) in Hpg. injection Hpg as <-.
    destruct (slice_frame m q (offset vaddr) (Z.to_nat size) Hwf Hlt) as (Hlen & Hi8 & Hat);
      [by apply aligned_fits|].
    destruct (ReadMem_spec big m w vaddr size _ _ Hwf Hsz He Hi8) as (m' & Hr & Hwf' & Hm' & _);
      [rewrite Hlen; lia | done |].
    pose proof (Translate_hit _ _ _ _ _ _ _ _ _ Hwf Hsz Hal Ht Hf Hq Hlt He) as Htr.
    destruct (ReadMem_state _ _ _ _ _ _ _ _ _ Htr Hr) as [l ->].
    exists (set_lastUsed l (set_tlb (Some (<[j := set_use_dirty false e]> t)) m)).
    split; [exact Hr|]. split; [|split; [done | split; [done | lia]]].
    apply runs_lastUsed; [|done]. split; [by apply core_use | done].
  - right. split; [done|]. destruct (fault_ok s m w vaddr R Ha) as (q & m' & w' & Hr & R' & Hsame & Hmap);
      [by eexists | done | by destruct Hsw |].
    exists m', w'. unfold ReadMem. rewrite (fault_again m vaddr size false Hwf Hsz He). cbn [bind].
    rewrite Hr. cbn [bind]. split; [done|]. do 2 (split; [done|]).
    by apply (mapped_hit m' _ q).
Qed.

(** A write stores the bytes in the page, or faults and maps the page. *)
Lemma WriteMem_vm s m w vaddr size value pg :
  runs s m w -> 0 <= vaddr < 2^31 -> size = 1 \/ size = 2 \/ size = 4 -> vaddr mod size = 0 ->
  content m (vm w) s (page_number vaddr) = Some pg ->
  0 < swap_free (vm w) \/ ~ tlb_miss m (page_number vaddr) ->
  (~ tlb_miss m (page_number vaddr) /\
   exists m', WriteMem big vaddr size value (m, w) = Ret (true, (m', w)) /\ runs s m' w /\
     forall s' n, content m' (vm w) s' n =
       if decide (s' = s /\ n = page_number vaddr)
       then Some (list_inserts (offset vaddr) (le_bytes (Z.to_nat size) value) pg)
       else content m (vm w) s' n) \/
  (tlb_miss m (page_number vaddr) /\
   exists m' w', WriteMem big vaddr size value (m, w) = Ret (false, (m', w')) /\
     runs s m' w' /\ same_memory 1 m w m' w' /\ ~ tlb_miss m' (page_number vaddr)).
Proof using quiet.
  intros R Ha Hsz Hal Hpg Hsw. pose proof R as (K & Hl & Hs). pose proof (c_machine _ _ _ _ K) as Hwf.
  destruct (access_cases m (vm w) s vaddr size true K Hs Ha Hsz Hal)
    as [(t & j & e & q & Ht & Hj & Hv & Hf & Hq & Hlt & Hmap & He)|[Hmiss He]].
  - left. split; [by apply (mapped_hit m _ q)|]. destruct (WriteMem_spec big m w vaddr size value _ Hwf Hsz He) as (m' & Hr & Hwf' & _ & Hm' & _).
    pose proof (Translate_hit _ _ _ _ _ _ _ _ _ Hwf Hsz Hal Ht Hf Hq Hlt He) as Htr.
    destruct (WriteMem_state _ _ _ _ _ _ _ _ _ Htr Hr) as (l & mem & ->).
    set (t' := <[j := set_use_dirty true e]> t) in *. set (m1 := set_tlb (Some t') m) in *.
    assert (core None 0 m1 (vm w)) as K1 by (by apply core_use).
    cbn in Hm'. rewrite Nat2Z.id in Hm'. subst mem.
    assert (exists n, virtualPage e = Z.of_nat n /\ n = page_number vaddr) as (n & Hn & ->).
    { destruct (c_slot _ _ _ _ K t j e Ht Hj Hv) as (_ & p & s1 & n & Hp & _ & Hs1 & Hn & Hh & _).
      exists n. split; [done|]. assert (p = q) as -> by lia.
      by apply (holds_inj (vm w) q s1 n s _ Hh), (mapped_holds _ _ _ _ _ K Hs Hmap). }
    destruct (core_store m1 (vm w) t' j (set_use_dirty true e) s (page_number vaddr) q
      (le_bytes (Z.to_nat size) value) (offset vaddr)) as [K2 Hcont]; try done.
    { apply list_lookup_insert_eq. by eapply lookup_lt_Some. }
    { apply le_bytes_i8. }
    { rewrite le_bytes_length. by apply aligned_fits. }
    eexists. split; [exact Hr|]. split.
    + split; [|done]. by apply (core_machine None 0 (set_mainMemory (list_inserts (q * page_size + offset vaddr)
        (le_bytes (Z.to_nat size) value) (mainMemory m1)) m1)).
    + intros s' n'. etransitivity; [apply (Hcont s' n')|]. case_decide; [|done].
      change (content m1 (vm w) s (page_number vaddr)) with (content m (vm w) s (page_number vaddr)). by rewrite Hpg.
  - right. split; [done|]. destruct (fault_ok s m w vaddr R Ha) as (q & m' & w' & Hr & R' & Hsame & Hmap);
      [by eexists | done | by destruct Hsw |].
    exists m', w'. unfold WriteMem. rewrite (fault_again m vaddr size true Hwf Hsz He). cbn [bind].
    rewrite Hr. cbn [bind]. split; [done|]. do 2 (split; [done|]).
    by apply (mapped_hit m' _ q).
Qed.

(** The byte at an address of the running space. *)
Definition byte_at (s : positive) m w : flat := fun a =>
  if decide (0 <= a) then content m (vm w) s (page_number a) ≫= (.!! offset a) else None.

Lemma in_page vaddr size i :
  0 <= vaddr -> size = 1 \/ size = 2 \/ size = 4 -> vaddr mod size = 0 -> 0 <= i < size ->
  page_number (vaddr + i) = page_number vaddr /\ offset (vaddr + i) = (offset vaddr + Z.to_nat i)%nat.
Proof using.
  intros H0 Hsz Hal Hi. pose proof (aligned_fits vaddr size Hsz Hal) as Hfit.
  unfold page_number, offset, page_size in *. pose proof (Z.mod_pos_bound vaddr 128 ltac:(lia)).
  pose proof (Z.div_mod vaddr 128 ltac:(lia)) as Hd.
  assert (vaddr / 128 = (vaddr + i) / 128) as <- by (apply Z.div_unique with (vaddr mod 128 + i); lia).
  assert (vaddr mod 128 + i = (vaddr + i) mod 128) as <- by (apply Z.mod_unique with (vaddr / 128); lia).
  split; [done | lia].
Qed.

Lemma page_length s m w n pg : runs s m w -> content m (vm w) s n = Some pg -> length pg = page_size.
Proof using.
  intros (K & _ & _) Hc. unfold content in Hc. apply fmap_Some in Hc as ((x & e) & Hp & ->).
  unfold page_content. cbn [fst snd]. destruct (valid (entry e)) eqn:Hv; [|apply backing_length].
  destruct (c_page _ _ _ _ K _ _ _ _ Hp) as [_ Hx]. destruct (Hx Hv) as (p & -> & _ & ie & Hi & _).
  rewrite Nat2Z.id. apply frame_length; [apply K|]. eapply frames_range, Hi. apply K.
Qed.

Lemma flat_load_slice s m w vaddr size pg :
  runs s m w -> 0 <= vaddr -> size = 1 \/ size = 2 \/ size = 4 -> vaddr mod size = 0 ->
  content m (vm w) s (page_number vaddr) = Some pg ->
  omap (byte_at s m w) (seqZ vaddr size) = slice (offset vaddr) (Z.to_nat size) pg.
Proof using.
  intros R H0 Hsz Hal Hpg. pose proof (page_length _ _ _ _ _ R Hpg) as Hl.
  pose proof (aligned_fits vaddr size Hsz Hal) as Hfit.
  assert (forall i, 0 <= i < size -> byte_at s m w (vaddr + i) = pg !! (offset vaddr + Z.to_nat i)%nat) as Hb.
  { intros i Hi. unfold byte_at. rewrite decide_True by lia.
    destruct (in_page vaddr size i H0 Hsz Hal Hi) as [-> ->]. by rewrite Hpg. }
  unfold slice.
  assert (forall k j, 0 <= j -> j + Z.of_nat k <= size ->
    omap (byte_at s m w) (seqZ (vaddr + j) (Z.of_nat k)) = take k (drop (offset vaddr + Z.to_nat j) pg)) as Hk.
  { intros k. induction k as [|k IH]; intros j Hj Hjk; [done|].
    rewrite seqZ_cons by lia. cbn [omap list_omap]. rewrite Hb by lia.
    destruct (lookup_lt_is_Some_2 pg (offset vaddr + Z.to_nat j)) as [b Hbj]; [lia|].
    rewrite Hbj, (drop_S pg b) by done. cbn [take]. f_equal.
    replace (Z.pred (Z.of_nat (S k))) with (Z.of_nat k) by lia.
    replace (Z.succ (vaddr + j)) with (vaddr + (j + 1)) by lia. rewrite IH by lia.
    do 2 f_equal. lia. }
  specialize (Hk (Z.to_nat size) 0). rewrite Z.add_0_r, Nat.add_0_r in Hk. rewrite Z2Nat.id in Hk by lia.
  apply Hk; lia.
Qed.

Lemma byte_at_page s m w n pg i :
  content m (vm w) s n = Some pg -> (i < page_size)%nat -> length pg = page_size ->
  byte_at s m w (Z.of_nat (n * page_size + i)) = pg !! i.
Proof using.
  intros Hc Hi Hl. unfold byte_at. rewrite decide_True by lia.
  assert (page_number (Z.of_nat (n * page_size + i)) = n) as ->.
  { unfold page_number, page_size in *.
    rewrite <- (Z.div_unique (Z.of_nat (n * 128 + i)) 128 (Z.of_nat n) (Z.of_nat i)) by lia. lia. }
  assert (offset (Z.of_nat (n * page_size + i)) = i) as ->; [|by rewrite Hc].
  unfold offset, page_size in *.
  rewrite <- (Z.mod_unique (Z.of_nat (n * 128 + i)) 128 (Z.of_nat n) (Z.of_nat i)) by lia. lia.
Qed.

(** An aligned access to an existing page of the lower half of the address space. *)
Definition address (a : access) : Z := match a with Load x _ => x | Store x _ _ => x end.
Definition width (a : access) : Z := match a with Load _ n => n | Store _ n _ => n end.

Definition access_ok (s : positive) m w (a : access) : Prop :=
  0 <= address a < 2^31 /\ (width a = 1 \/ width a = 2 \/ width a = 4) /\ address a mod width a = 0 /\
  is_Some (content m (vm w) s (page_number (address a))).

(** The pages of other spaces, and which pages there are. *)
Definition others_kept (s : positive) m w m' w' : Prop :=
  (forall s' n, s' <> s -> content m' (vm w') s' n = content m (vm w) s' n) /\
  (forall n, is_Some (content m (vm w) s n) -> is_Some (content m' (vm w') s n)) /\
  locks (vm w') = locks (vm w).

Definition flat_access (a : access) (f : flat) : option Z * flat :=
  match a with
  | Load vaddr size => (Some (flat_load f vaddr size), f)
  | Store vaddr size value => (None, flat_store f vaddr size value)
  end.

Lemma same_byte_at k s m w m' w' : same_memory k m w m' w' -> forall a, byte_at s m' w' a = byte_at s m w a.
Proof using. intros [Hc _] a. unfold byte_at. by rewrite Hc. Qed.

Lemma same_others k s m w m' w' : same_memory k m w m' w' -> others_kept s m w m' w'.
Proof using. intros (Hc & Hl & _). split; [|split; [|done]]; intros; by rewrite Hc. Qed.

Lemma store_flat s m w m' vaddr size value pg :
  runs s m w -> 0 <= vaddr -> size = 1 \/ size = 2 \/ size = 4 -> vaddr mod size = 0 ->
  content m (vm w) s (page_number vaddr) = Some pg ->
  (forall s' n, content m' (vm w) s' n =
     if decide (s' = s /\ n = page_number vaddr)
     then Some (list_inserts (offset vaddr) (le_bytes (Z.to_nat size) value) pg)
     else content m (vm w) s' n) ->
  forall b, byte_at s m' w b = flat_store (byte_at s m w) vaddr size value b.
Proof using.
  intros R H0 Hsz Hal Hpg Hc b. pose proof (page_length _ _ _ _ _ R Hpg) as Hl.
  pose proof (aligned_fits vaddr size Hsz Hal) as Hfit.
  unfold flat_store. destruct ((vaddr <=? b) && (b <? vaddr + size)) eqn:Hin.
  - zbool. assert (Hr : 0 <= b - vaddr < size) by lia.
    destruct (in_page vaddr size (b - vaddr) H0 Hsz Hal Hr) as [Ep Eo].
    replace (vaddr + (b - vaddr)) with b in Ep, Eo by lia.
    unfold byte_at. rewrite decide_True by lia. rewrite Ep, Eo, Hc, decide_True by done. cbn.
    rewrite list_lookup_inserts by (rewrite ?le_bytes_length; lia). f_equal. lia.
  - unfold byte_at. case_decide as Hb; [|done]. rewrite Hc. case_decide as Hp; [|done].
    destruct Hp as [_ Hp]. rewrite Hp, Hpg. cbn.
    assert (Hoff : Z.of_nat (offset b) - Z.of_nat (offset vaddr) = b - vaddr).
    { unfold page_number, offset in *. pose proof (Z.mod_pos_bound b 128 ltac:(lia)).
      pose proof (Z.mod_pos_bound vaddr 128 ltac:(lia)). pose proof (Z.div_pos b 128 ltac:(lia) ltac:(lia)).
      pose proof (Z.div_pos vaddr 128 ltac:(lia) ltac:(lia)).
      pose proof (Z.div_mod b 128 ltac:(lia)). pose proof (Z.div_mod vaddr 128 ltac:(lia)). lia. }
    apply andb_false_iff in Hin. rewrite Z.leb_gt, Z.ltb_ge in Hin. destruct Hin.
    + apply list_lookup_inserts_lt. lia.
    + apply list_lookup_inserts_ge. rewrite le_bytes_length. lia.
Qed.

(** An access that does not fault. *)
Lemma access_hit s m w a fuel :
  runs s m w -> access_ok s m w a ->
  ~ tlb_miss m (page_number (address a)) ->
  exists m', do_access big (S fuel) a (m, w) = Ret (Some ((flat_access a (byte_at s m w)).1, (m', w))) /\
    runs s m' w /\ others_kept s m w m' w /\
    forall b, byte_at s m' w b = (flat_access a (byte_at s m w)).2 b.
Proof using quiet.
  intros R Hok Hhit. destruct a as [vaddr size|vaddr size value]; unfold access_ok in Hok;
    cbn [address width] in *; destruct Hok as (Ha & Hsz & Hal & [pg Hpg]); cbn [do_access].
  - destruct (ReadMem_vm s m w vaddr size pg R Ha Hsz Hal Hpg (or_intror Hhit)) as [(_ & m' & Hr & R' & Hs)|[? _]]; [|done].
    exists m'. rewrite Hr. cbn [bind flat_access fst snd]. split; [|split; [done|]].
    + unfold flat_load. by rewrite (flat_load_slice s m w vaddr size pg) by (done || lia).
    + split; [by eapply same_others | by eapply same_byte_at].
  - destruct (WriteMem_vm s m w vaddr size value pg R Ha Hsz Hal Hpg (or_intror Hhit)) as [(_ & m' & Hr & R' & Hc)|[? _]]; [|done].
    exists m'. rewrite Hr. cbn [bind flat_access fst snd]. split; [done|]. split; [done|]. split.
    + split; [intros; rewrite Hc, decide_False by naive_solver; done|].
      split; [|done]. intros n Hn. rewrite Hc. case_decide; eauto.
    + exact (store_flat s m w m' vaddr size value pg R (proj1 Ha) Hsz Hal Hpg Hc).
Qed.

(** An access either does not fault, or faults once. *)
Lemma access_or_fault s m w a :
  runs s m w -> access_ok s m w a -> 0 < swap_free (vm w) ->
  ~ tlb_miss m (page_number (address a)) \/
  exists m' w', (forall fuel, do_access big (S fuel) a (m, w) = do_access big fuel a (m', w')) /\
    runs s m' w' /\ same_memory 1 m w m' w' /\ ~ tlb_miss m' (page_number (address a)).
Proof using quiet.
  intros R (Ha & Hsz & Hal & [pg Hpg]) Hsw.
  destruct a as [vaddr size|vaddr size value]; cbn [address width do_access] in *.
  - destruct (ReadMem_vm s m w vaddr size pg R Ha Hsz Hal Hpg (or_introl Hsw))
      as [[? _]|(_ & m' & w' & Hr & ?)]; [by left|]. right.
    exists m', w'. split; [intros; by rewrite Hr | done].
  - destruct (WriteMem_vm s m w vaddr size value pg R Ha Hsz Hal Hpg (or_introl Hsw))
      as [[? _]|(_ & m' & w' & Hr & ?)]; [by left|]. right.
    exists m', w'. split; [intros; by rewrite Hr | done].
Qed.

Lemma flat_access_ext a (f g : flat) :
  (forall x, f x = g x) -> (flat_access a f).1 = (flat_access a g).1 /\
    forall x, (flat_access a f).2 x = (flat_access a g).2 x.
Proof using.
  intros Hfg. destruct a; cbn; [|split; [done|]; intros x; unfold flat_store; by rewrite Hfg].
  split; [|done]. unfold flat_load. do 2 f_equal.
  generalize (seqZ vaddr size). intros l. induction l as [|x l IH]; [done|]. cbn. by rewrite Hfg, IH.
Qed.

Lemma access_ok_kept s m w m' w' a : others_kept s m w m' w' -> access_ok s m w a -> access_ok s m' w' a.
Proof using. intros (_ & Hk & _) (? & ? & ? & ?). unfold access_ok. auto. Qed.

Lemma others_trans s m1 w1 m2 w2 m3 w3 :
  others_kept s m1 w1 m2 w2 -> others_kept s m2 w2 m3 w3 -> others_kept s m1 w1 m3 w3.
Proof using.
  intros (A1 & A2 & A3) (B1 & B2 & B3). split; [intros; by rewrite B1, A1 | split; [auto | congruence]].
Qed.

(** Every access ends after at most one fault, and acts on the flat memory. *)
Lemma access_flat s m w a k :
  runs s m w -> access_ok s m w a -> 0 < swap_free (vm w) ->
  exists m' w', do_access big (S (S k)) a (m, w) = Ret (Some ((flat_access a (byte_at s m w)).1, (m', w'))) /\
    runs s m' w' /\ others_kept s m w m' w' /\ swap_free (vm w) - 1 <= swap_free (vm w') /\
    forall b, byte_at s m' w' b = (flat_access a (byte_at s m w)).2 b.
Proof using quiet.
  intros R Hok Hsw. destruct (access_or_fault s m w a R Hok Hsw) as [Hhit|(m1 & w1 & Hr & R1 & Hsame & Hhit)].
  - destruct (access_hit s m w a (S k) R Hok Hhit) as (m' & Hd & R' & Ho & Hb).
    exists m', w. do 3 (split; [done|]). split; [lia | done].
  - pose proof (same_others 1 s m w m1 w1 Hsame) as Ho1.
    destruct (access_hit s m1 w1 a k R1 (access_ok_kept _ _ _ _ _ _ Ho1 Hok) Hhit) as (m' & Hd & R' & Ho & Hb).
    destruct (flat_access_ext a _ _ (same_byte_at 1 s m w m1 w1 Hsame)) as [E1 E2].
    exists m', w1. rewrite (Hr (S k)), Hd, E1. split; [done|]. split; [done|].
    split; [by eapply others_trans|]. split; [apply Hsame|]. intros b. by rewrite Hb, E2.
Qed.

Lemma flat_accesses_cons a l f :
  flat_accesses (a :: l) f =
  ((flat_access a f).1 :: (flat_accesses l (flat_access a f).2).1, (flat_accesses l (flat_access a f).2).2).
Proof using. destruct a as [v n|v n x]; cbn [flat_accesses flat_access fst snd]; by destruct (flat_accesses l _). Qed.

Lemma flat_accesses_ext l (f g : flat) :
  (forall x, f x = g x) -> (flat_accesses l f).1 = (flat_accesses l g).1 /\
    forall x, (flat_accesses l f).2 x = (flat_accesses l g).2 x.
Proof using.
  revert f g. induction l as [|a l IH]; intros f g Hfg; [done|].
  destruct (flat_access_ext a f g Hfg) as [E1 E2]. destruct (IH _ _ E2) as [I1 I2].
  rewrite !flat_accesses_cons. cbn [fst snd]. split; [by rewrite E1, I1 | done].
Qed.

(** C1: virtual memory is a flat array of bytes. Any sequence of aligned loads and
    stores of 1, 2 or 4 bytes to existing pages of the running address space,
    each run again after a page fault, returns what the same sequence returns on
    a plain map from addresses to bytes, and leaves the bytes that map then has;
    no access needs more than two attempts, whatever pages are brought in,
    written to the swap file and evicted on the way, as long as the swap file has
    a free page per access; the pages of other address spaces keep their content,
    and the invariant holds at the end. *)
Theorem memory_is_flat s l m w k :
  runs s m w -> Forall (access_ok s m w) l -> Z.of_nat (length l) <= swap_free (vm w) ->
  exists m' w', do_accesses big (S (S k)) l (m, w) = Ret (Some ((flat_accesses l (byte_at s m w)).1, (m', w'))) /\
    runs s m' w' /\ (forall a, byte_at s m' w' a = (flat_accesses l (byte_at s m w)).2 a) /\
    others_kept s m w m' w'.
Proof using quiet.
  revert m w. induction l as [|a l IH]; intros m w R Hok Hsw.
  { exists m, w. split; [done|]. split; [done|]. by split. }
  apply Forall_cons in Hok as [Ha Hok]. cbn [length] in Hsw.
  destruct (access_flat s m w a k R Ha) as (m1 & w1 & Hd & R1 & Ho & Hsw1 & Hb); [lia|].
  destruct (IH m1 w1 R1) as (m' & w' & Hds & R' & Hb' & Ho'); [|lia|].
  { eapply Forall_impl; [exact Hok|]. intros x. by apply access_ok_kept. }
  destruct (flat_accesses_ext l _ _ Hb) as [E1 E2].
  exists m', w'. cbn [do_accesses]. rewrite Hd. cbn [bind]. rewrite Hds. cbn [bind].
  split; [|split; [done | split; [|exact (others_trans _ _ _ _ _ _ _ Ho Ho')]]].
  - by rewrite flat_accesses_cons, E1.
  - intros x. by rewrite flat_accesses_cons, Hb', E2.
Qed.

(** ** copyin and copyout *)

Lemma read_until_load fuel vaddr st :
  read_until big fuel vaddr st =
  (let! r := do_access big fuel (Load (i32 vaddr) 1) st in
   match r with Some (Some x, s') => Ret (Some (x, s')) | _ => Ret None end).
Proof using.
  revert st. induction fuel as [|fuel IH]; intros st; [done|]. cbn [read_until do_access].
  destruct (ReadMem big (i32 vaddr) 1 st) as [[[x|] st']| |]; cbn [bind]; [done | apply IH | done | done].
Qed.

(** The bytes of existing pages are there, as chars. *)
Lemma page_bytes s m w n pg : runs s m w -> content m (vm w) s n = Some pg -> Forall is_i8 pg.
Proof using.
  intros (K & _ & _) Hc. unfold content in Hc. apply fmap_Some in Hc as ((x & e) & Hp & ->).
  unfold page_content. destruct (valid _); [apply frame_bytes, K|].
  apply backing_bytes; [apply K | by eapply (proj2 (c_files _ _ _ _ K))].
Qed.

Lemma byte_exists s m w a :
  runs s m w -> 0 <= a -> is_Some (content m (vm w) s (page_number a)) ->
  exists b, byte_at s m w a = Some b /\ is_i8 b.
Proof using.
  intros R Ha [pg Hpg]. unfold byte_at. rewrite decide_True, Hpg by done. cbn.
  destruct (lookup_lt_is_Some_2 pg (offset a)) as [b Hb].
  { rewrite (page_length _ _ _ _ _ R Hpg). unfold offset, page_size. pose proof (Z.mod_pos_bound a 128). lia. }
  exists b. split; [done|]. by eapply Forall_lookup_1 in Hb; [|by eapply page_bytes].
Qed.

Lemma flat_load_byte (f : flat) a b : f a = Some b -> is_i8 b -> flat_load f a 1 = b.
Proof using.
  intros Hf Hb. unfold flat_load. rewrite seqZ_cons by lia. change (Z.pred 1) with 0. cbn. rewrite Hf.
  unfold of_bytes. cbn. rewrite Z.add_0_r. rewrite <- (i8_small b Hb) at 2. apply i8_eq. unfold u8. by rewrite Z.mod_mod.
Qed.

Definition mapped_range (s : positive) m w (vaddr len : Z) : Prop :=
  forall a, vaddr <= a < vaddr + len -> is_Some (content m (vm w) s (page_number a)).

Lemma copyin_loop_ok s n m w vaddr buf k :
  runs s m w -> 0 <= vaddr -> vaddr + Z.of_nat n <= 2^31 -> mapped_range s m w vaddr (Z.of_nat n) ->
  Z.of_nat n <= swap_free (vm w) ->
  exists bs m' w', copyin_loop big (S (S k)) vaddr n buf (m, w) = Ret (Some (buf ++ bs, (m', w'))) /\
    length bs = n /\ (forall i, (i < n)%nat -> bs !! i = byte_at s m w (vaddr + Z.of_nat i)) /\
    runs s m' w' /\ others_kept s m w m' w' /\ (forall a, byte_at s m' w' a = byte_at s m w a) /\
    swap_free (vm w) - Z.of_nat n <= swap_free (vm w').
Proof using quiet.
  revert m w vaddr buf. induction n as [|n IH]; intros m w vaddr buf R H0 Hend Hpages Hsw.
  { exists [], m, w. cbn [copyin_loop]. rewrite app_nil_r. do 2 (split; [done|]). split; [lia|]. split; [done|]. split; [by split|]. split; [done | lia]. }
  cbn [copyin_loop]. rewrite read_until_load, i32_small by (unfold is_i32; lia).
  destruct (byte_exists s m w vaddr R H0) as (b & Hb & Hb8); [apply Hpages; lia|].
  assert (access_ok s m w (Load vaddr 1)) as Hok.
  { unfold access_ok. cbn. split; [lia|]. split; [auto|]. split; [apply Z.mod_1_r | apply Hpages; lia]. }
  destruct (access_flat s m w _ k R Hok) as (m1 & w1 & -> & R1 & Ho & Hsw1 & Hsame); [lia|].
  cbn [bind flat_access fst snd] in Hsame |- *. rewrite (flat_load_byte _ _ _ Hb Hb8), i8_small by done.
  rewrite u32_small by (unfold is_u32; lia).
  destruct (IH m1 w1 (vaddr + 1) (buf ++ [b])) as (bs & m' & w' & Hr & Hlen & Hbs & R' & Ho' & Hsame' & Hsw');
    [done | lia | lia | | lia |].
  { intros a Ha. apply Ho. apply Hpages. lia. }
  exists (b :: bs), m', w'. rewrite Hr, <- app_assoc. split; [done|]. split; [cbn; lia|]. split; [|split; [done|]].
  - intros [|i] Hi; [cbn; by rewrite Z.add_0_r|]. cbn. rewrite Hbs, Hsame by lia. f_equal. lia.
  - split; [by eapply others_trans|]. split; [|lia]. intros a. by rewrite Hsame'.
Qed.

Lemma copyin_spec s m w vaddr len k :
  runs s m w -> 0 <= vaddr -> 0 <= len -> vaddr + len <= 2^31 -> mapped_range s m w vaddr len ->
  len <= swap_free (vm w) ->
  exists buf m' w', copyin big (S (S k)) vaddr len (m, w) = Ret (Some (len, buf, (m', w'))) /\
    Z.of_nat (length buf) = len /\
    (forall i, 0 <= i < len -> buf !! Z.to_nat i = byte_at s m w (vaddr + i)) /\
    runs s m' w' /\ others_kept s m w m' w' /\ (forall a, byte_at s m' w' a = byte_at s m w a) /\
    swap_free (vm w) - len <= swap_free (vm w').
Proof using quiet.
  intros R H0 Hlen Hend Hpages Hsw. unfold copyin.
  destruct (copyin_loop_ok s (Z.to_nat len) m w vaddr [] k R H0) as (bs & m' & w' & -> & Hl & Hbs & R' & Ho & Hb & Hsw');
    rewrite ?Z2Nat.id by lia; [done..|].
  cbn [bind]. exists bs, m', w'. split; [done|]. split; [lia|].
  split; [|split; [done|split; [done|split; [done | rewrite Z2Nat.id in Hsw' by lia; exact Hsw']]]].
  intros i Hi. rewrite Hbs by lia. by rewrite Z2Nat.id by lia.
Qed.

(** C39: copyin terminates and copies the user's bytes. For a range of existing
    pages in the lower half of the address space, and with a free swap page per
    byte, the kernel's copy loop returns [len] and stores in its buffer exactly
    the bytes of the range, however many pages of it are not mapped, in the
    executable or swapped out; the inner retry loop never runs more than twice (any fuel of two or
    more gives the result). User memory and the other address spaces are
    unchanged, and at most [len] more pages of the swap file are in use. *)
Theorem copyin_copies s m w vaddr len k :
  runs s m w -> 0 <= vaddr -> 0 <= len -> vaddr + len <= 2^31 -> mapped_range s m w vaddr len ->
  len <= swap_free (vm w) ->
  exists buf m' w', copyin big (S (S k)) vaddr len (m, w) = Ret (Some (len, buf, (m', w'))) /\
    Z.of_nat (length buf) = len /\
    (forall i, 0 <= i < len -> buf !! Z.to_nat i = byte_at s m w (vaddr + i)) /\
    runs s m' w' /\ others_kept s m w m' w' /\ (forall a, byte_at s m' w' a = byte_at s m w a) /\
    swap_free (vm w) - len <= swap_free (vm w').
Proof using quiet. apply copyin_spec. Qed.

(** Bytes written from [vaddr] on. *)
Definition flat_write (f : flat) (vaddr : Z) (bs : list Z) : flat := fun a =>
  if (vaddr <=? a) && (a <? vaddr + Z.of_nat (length bs)) then bs !! Z.to_nat (a - vaddr) else f a.

Lemma flat_write_nil f vaddr a : flat_write f vaddr [] a = f a.
Proof using.
  unfold flat_write. cbn [length]. destruct (Z.leb_spec vaddr a), (Z.ltb_spec a (vaddr + Z.of_nat 0));
    cbn [andb]; done || lia.
Qed.

Lemma flat_write_cons f vaddr b bs a :
  is_i8 b -> flat_write (flat_store f vaddr 1 b) (vaddr + 1) bs a = flat_write f vaddr (b :: bs) a.
Proof using.
  intros Hb. unfold flat_write, flat_store. cbn [length]. change (Z.to_nat 1) with 1%nat. cbn [le_bytes].
  rewrite (i8_small b) by done.
  destruct (Z.leb_spec (vaddr + 1) a), (Z.ltb_spec a (vaddr + 1 + Z.of_nat (length bs))),
    (Z.leb_spec vaddr a), (Z.ltb_spec a (vaddr + Z.of_nat (S (length bs)))), (Z.ltb_spec a (vaddr + 1));
    cbn [andb]; try lia; try done.
  - replace (Z.to_nat (a - vaddr)) with (S (Z.to_nat (a - (vaddr + 1)))) by lia. done.
  - assert (a = vaddr) as -> by lia. by rewrite Z.sub_diag.
Qed.

Lemma copyout_loop_ok s k m w vaddr buf n :
  runs s m w -> 0 <= vaddr -> vaddr + Z.of_nat k <= 2^31 -> mapped_range s m w vaddr (Z.of_nat k) ->
  0 < swap_free (vm w) -> Forall is_i8 buf -> 0 <= n -> n + Z.of_nat k <= Z.of_nat (length buf) ->
  exists r j m' w', copyout_loop big vaddr buf n k (m, w) = Ret (r, (m', w')) /\
    runs s m' w' /\ others_kept s m w m' w' /\
    (forall a, byte_at s m' w' a = flat_write (byte_at s m w) vaddr (take j (drop (Z.to_nat n) buf)) a) /\
    (r = n + Z.of_nat k /\ j = k \/
     r = -1 /\ (j < k)%nat /\ ~ tlb_miss m' (page_number (vaddr + Z.of_nat j))).
Proof using quiet.
  revert m w vaddr n. induction k as [|k IH]; intros m w vaddr n R H0 Hend Hpages Hsw H8 Hn Hlen.
  { exists n, 0%nat, m, w. cbn [copyout_loop take]. split; [done|]. split; [done|]. split; [by split|].
    split; [|left; lia]. intros a. by rewrite take_0, flat_write_nil. }
  cbn [copyout_loop]. destruct (lookup_lt_is_Some_2 buf (Z.to_nat n)) as [b Hb]; [lia|].
  rewrite (proj2 (aref_Ret buf n b)) by done. cbn [bind]. rewrite i32_small by (unfold is_i32; lia).
  assert (is_i8 b) as Hb8 by (eapply Forall_lookup_1; done).
  destruct (Hpages vaddr ltac:(lia)) as [pg Hpg].
  destruct (WriteMem_vm s m w vaddr 1 b pg R) as [(_ & m1 & -> & R1 & Hc)|(_ & m1 & w1 & -> & R1 & Hs & Hhit)];
    [lia | auto | apply Z.mod_1_r | done | by left | |]; cbn [bind negb].
  - rewrite u32_small by (unfold is_u32; lia).
    destruct (IH m1 w (vaddr + 1) (n + 1)) as (r & j & m' & w' & Hr & R' & Ho & Hby & Hor);
      [done | lia | lia | | done | done | lia | lia |].
    { intros a Ha. rewrite Hc. case_decide; [done|]. apply Hpages. lia. }
    exists r, (S j), m', w'. split; [done|]. split; [done|]. split; [|split].
    + eapply others_trans; [|exact Ho]. split; [intros; rewrite Hc, decide_False by naive_solver; done|].
      split; [|done]. intros n0 Hn0. rewrite Hc. case_decide; eauto.
    + intros a. rewrite (drop_S buf b) by done. cbn [take]. rewrite <- flat_write_cons by done. rewrite Hby.
      replace (Z.to_nat (n + 1)) with (S (Z.to_nat n)) by lia. unfold flat_write. case_match; [done|].
      exact (store_flat s m w m1 vaddr 1 b pg R H0 (or_introl eq_refl) (Z.mod_1_r vaddr) Hpg Hc a).
    + destruct Hor as [[-> ->]|(-> & Hj & Hhit)]; [left; lia | right]. split; [done|]. split; [lia|].
      by replace (vaddr + Z.of_nat (S j)) with (vaddr + 1 + Z.of_nat j) by lia.
  - exists (-1), 0%nat, m1, w1. split; [done|]. split; [done|]. split; [by eapply same_others|].
    split; [|right; split; [done|split; [lia|by rewrite Z.add_0_r]]].
    intros a. by rewrite (same_byte_at 1 s m w m1 w1 Hs), take_0, flat_write_nil.
Qed.

Lemma copyout_spec s m w vaddr len buf :
  runs s m w -> 0 <= vaddr -> 0 <= len <= Z.of_nat (length buf) -> vaddr + len <= 2^31 ->
  mapped_range s m w vaddr len -> 0 < swap_free (vm w) -> Forall is_i8 buf ->
  exists r j m' w', copyout big vaddr len buf (m, w) = Ret (r, (m', w')) /\
    runs s m' w' /\ others_kept s m w m' w' /\
    (forall a, byte_at s m' w' a = flat_write (byte_at s m w) vaddr (take j buf) a) /\
    (r = len /\ Z.of_nat j = len \/
     r = -1 /\ Z.of_nat j < len /\ ~ tlb_miss m' (page_number (vaddr + Z.of_nat j))).
Proof using quiet.
  intros R H0 Hlen Hend Hpages Hsw H8. unfold copyout.
  destruct (copyout_loop_ok s (Z.to_nat len) m w vaddr buf 0 R H0)
    as (r & j & m' & w' & -> & R' & Ho & Hb & Hor); rewrite ?Z2Nat.id by lia; try done; [lia|].
  exists r, j, m', w'. do 4 (split; [done|]). rewrite Z2Nat.id in Hor by lia. destruct Hor as [[-> ->]|(-> & ? & ?)]; [left | right]; [lia|].
  split; [done|]. split; [lia | done].
Qed.

(** copyout stores the kernel's bytes until a page is missing. It either
    stores all [len] bytes of the buffer in user memory and returns [len], or
    stops with -1 at the first byte whose page is not mapped: the bytes before it
    are stored, the page fault has been handled and the page is now mapped, but
    the byte is not tried again. Nothing else in user memory changes. *)
Theorem copyout_stops_at_fault s m w vaddr len buf :
  runs s m w -> 0 <= vaddr -> 0 <= len <= Z.of_nat (length buf) -> vaddr + len <= 2^31 ->
  mapped_range s m w vaddr len -> 0 < swap_free (vm w) -> Forall is_i8 buf ->
  exists r j m' w', copyout big vaddr len buf (m, w) = Ret (r, (m', w')) /\
    runs s m' w' /\ others_kept s m w m' w' /\
    (forall a, byte_at s m' w' a = flat_write (byte_at s m w) vaddr (take j buf) a) /\
    (r = len /\ Z.of_nat j = len \/
     r = -1 /\ Z.of_nat j < len /\ ~ tlb_miss m' (page_number (vaddr + Z.of_nat j))).
Proof using quiet. apply copyout_spec. Qed.
End Access.

(** ** The program of Boot.v *)

Module Demo.
Import Boot.Demo.

(** A kernel with nothing but the memory system. *)
#[export] Instance vm_only : Kernel VM :=
  {| ExceptionHandler e s := match e with PageFaultException => HandlePageFault s | _ => Abort end;
     setMachineStatus _ v := v; kernelTicks _ := 0 |}.

Lemma vm_only_fault m (v : VM) : ExceptionHandler PageFaultException (m, v) =
  let! (m', v') := HandlePageFault (m, v) in Ret (m', v').
Proof. cbn [ExceptionHandler vm_only]. destruct (HandlePageFault (m, v)) as [[]| |]; reflexivity. Qed.

#[export] Instance vm_only_kernel : VMKernel VM :=
  {| vm v := v; set_vm v _ := v; vm_set v w := eq_refl; vm_status st w := eq_refl; vm_fault := vm_only_fault |}.

Definition demo_program : list access := [Store 260 4 305419896; Load 260 2; Load 0 1; Load 262 1].

Lemma demo_runs (v : VM) : core None 0 machine v -> locks v = [] -> space v = Some 1%positive ->
  runs 1 machine v.
Proof. intros K Hl Hs. exact (conj K (conj (unlocked_nil _ Hl) Hs)). Qed.

Lemma demo_ok (v : VM) :
  (forall n, (n < 10)%nat -> is_Some (content machine v 1 n)) ->
  Forall (access_ok 1 machine v) demo_program.
Proof.
  intros Hc. unfold demo_program. rewrite !Forall_cons, Forall_nil. unfold access_ok. cbn [address width].
  repeat split; try lia; apply Hc; vm_compute; lia.
Qed.

Lemma demo_range (v : VM) a len :
  (forall n, (n < 10)%nat -> is_Some (content machine v 1 n)) -> 0 <= a -> a + len <= 1280 ->
  mapped_range 1 machine v a len.
Proof.
  intros Hc Ha Hlen x Hx. apply Hc. unfold page_number.
  assert (x / 128 < 10) by (apply Z.div_lt_upper_bound; lia). pose proof (Z.div_pos x 128). lia.
Qed.

Lemma memory_is_flat_witness :
  exists v x m' v', core None 0 machine v /\
    do_accesses true 2 demo_program (machine, v) = Ret (Some ([None; Some 22136; x; Some 52], (m', v'))).
Proof.
  destruct booted as (v & _ & K & Hl & Hs & Hsw & Hc).
  destruct (memory_is_flat true quiet 1 demo_program machine v 0 (demo_runs v K Hl Hs) (demo_ok v Hc))
    as (m' & v' & Hr & _); [change (4 <= swap_free v); lia|].
  exists v, (Some (flat_load (flat_store (byte_at 1 machine v) 260 4 305419896) 0 1)), m', v'.
  split; [exact K|]. rewrite Hr. reflexivity.
Defined.

Lemma copyin_copies_witness :
  exists v buf m' v', core None 0 machine v /\
    copyin true 2 100 200 (machine, v) = Ret (Some (200, buf, (m', v'))) /\ length buf = 200%nat.
Proof.
  destruct booted as (v & _ & K & Hl & Hs & Hsw & Hc).
  destruct (copyin_copies true quiet 1 machine v 100 200 0 (demo_runs v K Hl Hs) ltac:(lia) ltac:(lia)
    ltac:(lia) (demo_range v 100 200 Hc ltac:(lia) ltac:(lia))) as (buf & m' & v' & Hr & Hlen & _); [change (200 <= swap_free v); lia|].
  exists v, buf, m', v'. split; [exact K|]. split; [exact Hr|]. lia.
Defined.

Lemma copyout_stops_at_fault_witness :
  exists v r m' v', core None 0 machine v /\ copyout true 126 4 [1; 2; 3; 4] (machine, v) = Ret (r, (m', v')).
Proof.
  destruct booted as (v & _ & K & Hl & Hs & Hsw & Hc).
  destruct (copyout_stops_at_fault true quiet 1 machine v 126 4 [1; 2; 3; 4] (demo_runs v K Hl Hs) ltac:(lia)
    ltac:(cbn; lia) ltac:(lia) (demo_range v 126 4 Hc ltac:(lia) ltac:(lia))) as (r & j & m' & v' & Hr & _).
  - change (0 < swap_free v). lia.
  - repeat constructor; unfold is_i8; lia.
  - exists v, r, m', v'. exact (conj K Hr).
Defined.
End Demo.
