(* ===== verification/SafeRun.v ===== *)
(** * The simulator on the kernel's page-fault handler

    Mips.v shows that the fetch-execute loop is safe on every kernel that leaves the
    machine well-formed when it comes back from a trap. This file shows it of the
    kernel of exception.cc for programs without system calls: a page fault runs
    [HandlePageFault], and every other trap ends the program, as Interrupt::Halt does
    at the end of ExceptionHandler. No invariant of the tables is needed, only that
    the files hold bytes: whatever the tables say, the handler either does not come
    back or leaves a well-formed machine. *)

From S2P Require Import Prelude Interrupt BitMap Table Machine Mips VM Paging Boot UserMemory.

(** The swap file and the executables hold bytes. *)
Definition files_ok (v : VM) : Prop :=
  Forall is_i8 (swapFile v) /\ forall s n x e, page_of v s n = Some (x, e) -> Forall is_i8 x.

Definition fine (m : Machine) (v : VM) : Prop := wf_machine m /\ files_ok v.

Lemma store_bytes_keeps mem a bs mem' : store_bytes mem a bs = Ret mem' ->
  length mem' = length mem /\ (Forall is_i8 mem -> Forall is_i8 bs -> Forall is_i8 mem').
Proof.
  revert mem a. induction bs as [|b bs IH]; intros mem a; cbn [store_bytes]; [by intros [= <-]|].
  intros (mem1 & [_ ->]%aset_Ret & [Hl H]%IH)%bind_Ret. rewrite length_insert in Hl. split; [done|].
  intros Hm [Hb Hbs]%Forall_cons. apply H; [by apply Forall_insert | done].
Qed.

Lemma wf_store m a bs mem : wf_machine m -> Forall is_i8 bs -> store_bytes (mainMemory m) a bs = Ret mem ->
  wf_machine (set_mainMemory mem m).
Proof.
  intros [[] ?] Hb [Hl H]%store_bytes_keeps. split; [split|]; cbn; try done; [by rewrite Hl | by apply H].
Qed.

Lemma wf_aset_tlb m t i e t' : wf_machine m -> tlb m = Some t -> aset t i e = Ret t' -> wf_machine (set_tlb (Some t') m).
Proof. intros Hm Ht [_ ->]%aset_Ret. eapply wf_set_tlb; [done | done | apply length_insert]. Qed.

Lemma bzero_frame_wf p m m' : wf_machine m -> bzero_frame p m = Ret m' -> wf_machine m'.
Proof.
  intros Hm (mem & H & [= <-])%bind_Ret. eapply wf_store; [done | | exact H]. apply Forall_replicate. unfold is_i8. lia.
Qed.

(** The tables change; the files do not. *)
Lemma files_same v v' : swapFile v' = swapFile v -> spaces v' = spaces v -> files_ok v -> files_ok v'.
Proof. intros E1 E2 [H1 H2]. split; [by rewrite E1|]. unfold page_of. by rewrite E2. Qed.

Lemma update_IPT_files p f v v' : update_IPT p f v = Ret v' -> files_ok v -> files_ok v'.
Proof. intros (e & _ & (t & _ & [= <-])%bind_Ret)%bind_Ret. by apply files_same. Qed.

Lemma update_page_files s n f v v' : update_page s n f v = Ret v' -> files_ok v -> files_ok v'.
Proof.
  unfold update_page. intros (a & Ha & (e & _ & (ps & [_ ->]%aset_Ret & [= <-])%bind_Ret)%bind_Ret)%bind_Ret [H1 H2].
  unfold deref in Ha. destruct (spaces v !! s) as [a0|] eqn:Hs; [|done]. injection Ha as ->. split; [done|].
  intros s' n' x e' Hp. unfold page_of in *. cbn in Hp. destruct (decide (s' = s)) as [->|].
  - rewrite lookup_alter_eq, Hs in Hp. cbn in Hp.
    destruct (<[Z.to_nat n := f e]> (pages a) !! n') as [g|] eqn:Hg; [|done]. cbn in Hp. injection Hp as <- <-.
    destruct (lookup_lt_is_Some_2 (pages a) n') as [g' Hg'];
      [rewrite <- (length_insert (pages a) (Z.to_nat n) (f e)); by eapply lookup_lt_Some|].
    apply (H2 s n' (executable a) g'). by rewrite Hs; cbn; rewrite Hg'.
  - rewrite lookup_alter_ne in Hp by done. by eapply H2.
Qed.

Lemma ReadAt_i8 f n pos d : ReadAt f n pos = Ret d -> Forall is_i8 f -> Forall is_i8 d.
Proof. intros ([] & _ & [= <-])%bind_Ret Hf. by apply Forall_take, Forall_drop. Qed.

Section Handler.
Context {env : VMEnv}.
Context (tick : forall m v m' v', fine m v -> OneTick (m, v) = Ret (m', v') -> fine m' v').

Lemma SetLevel_fine l m v l' m' v' : SetLevel l (m, v) = Ret (l', (m', v')) -> fine m v -> fine m' v'.
Proof using tick.
  unfold SetLevel. intros H [Hm Hv]. assert (fine m (set_intLevel l v)) as Hf by (split; [done | by apply (files_same v)]).
  case_decide; [|by injection H as _ <- <-]. apply bind_Ret in H as ([m1 v1] & H & [= _ <- <-]). by eapply tick.
Qed.

Lemma drop_slot_fine p i m v m' v' : drop_slot p i (m, v) = Ret (m', v') -> fine m v -> fine m' v'.
Proof using.
  unfold drop_slot. destruct (tlb m) as [t|] eqn:Ht; [|done]. intros (e & _ & H)%bind_Ret [Hm Hv].
  destruct (physicalPage e =? p); [|by injection H as <- <-].
  apply bind_Ret in H as (t' & Ha & (v1 & H1 & [= <- <-])%bind_Ret). split; [by eapply wf_aset_tlb | by eapply update_IPT_files].
Qed.

Lemma drop_slots_fine p i n m v m' v' : for_upto i n (drop_slot p) (m, v) = Ret (m', v') -> fine m v -> fine m' v'.
Proof using.
  revert i m v. induction n as [|n IH]; intros i m v; cbn [for_upto]; [by intros [= <- <-]|].
  intros ([m1 v1] & H1 & H)%bind_Ret Hf. eapply IH; [exact H | by eapply drop_slot_fine].
Qed.

Lemma HandleMemoryFull_fine m v p m' v' : HandleMemoryFull (m, v) = Ret (p, (m', v')) -> fine m v -> fine m' v'.
Proof using.
  unfold HandleMemoryFull. intros H Hf. destruct (if PRand v then _ else _) as [ppn v1] eqn:E.
  assert (fine m v1) as Hf1.
  { destruct Hf as [Hm Hv]. split; [done|]. assert (swapFile v1 = swapFile v /\ spaces v1 = spaces v) as [E1 E2].
    { destruct (PRand v); [destruct (rand (seed v))|]; by injection E as _ <-. }
    by apply (files_same v). }
  apply bind_Ret in H as ([m2 v2] & H2 & (ie & _ & H)%bind_Ret).
  assert (fine m2 v2) as [Hm2 Hv2].
  { eapply drop_slots_fine; [exact H2|]. destruct Hf1. split; [done|]. unfold Acquire. case_decide; [done | by apply (files_same v1)]. }
  assert (forall f v v', (forall s n v v', f s n v = Ret v' -> files_ok v -> files_ok v') ->
    evict_owner ie f v = Ret v' -> files_ok v -> files_ok v') as Howner.
  { intros f u u' Hk. unfold evict_owner. destruct (owner ie); [apply Hk | done]. }
  destruct (dirty (ientry ie)); cbv zeta in H.
  - apply bind_Ret in H as ([w bm] & _ & H). destruct (w =? -1); [done|].
    apply bind_Ret in H as (f & HW & (v4 & H4 & [= <- <- <-])%bind_Ret). split; [done|].
    apply (files_same v4); [done..|]. eapply Howner; [|exact H4 |]; [intros s n u u' Hu; exact (update_page_files _ _ _ _ _ Hu)|].
    assert (swapFile (Acquire swapFileLock (Release TLBLock v2)) = swapFile v2) as Es by (unfold Acquire; by case_decide).
    rewrite Es in HW. split; [|intros s n x e Hp; apply (proj2 Hv2 s n x e); revert Hp; unfold Acquire; by case_decide].
    eapply WriteAt_bytes; [apply Hv2 | | exact HW]. by apply Forall_take, Forall_drop, (wf_bytes m2 Hm2).
  - apply bind_Ret in H as (v4 & H4 & [= <- <- <-]). split; [done|].
    eapply Howner; [|exact H4 | by apply (files_same v2)]. intros s n u u' Hu. exact (update_page_files _ _ _ _ _ Hu).
Qed.

Lemma Acquire_files l v : files_ok v -> files_ok (Acquire l v).
Proof using. unfold Acquire. case_decide; [done | by apply files_same]. Qed.

Lemma IPTMiss_fine s n p m v m' v' : IPTMiss s n p (m, v) = Ret (m', v') -> fine m v -> fine m' v'.
Proof using.
  unfold IPTMiss. intros H [Hm Hv]. apply bind_Ret in H as (m1 & H1 & (a & Ha & (e & He & ([m2 v2] & H2 & H)%bind_Ret)%bind_Ret)%bind_Ret).
  apply (bzero_frame_wf p m m1 Hm) in H1.
  assert (Forall is_i8 (executable a)) as Hx.
  { unfold deref in Ha. destruct (spaces v !! s) as [a0|] eqn:Hs; [|done]. injection Ha as ->.
    apply aref_Ret in He as [_ He]. apply (proj2 Hv s (Z.to_nat n) (executable a) e). unfold page_of. rewrite Hs. cbn. by rewrite He. }
  assert (fine m2 v2) as [Hm2 Hv2].
  { unfold load_page in H2. destruct (location e =? 1); [|destruct (location e =? 0); [|by injection H2 as <- <-]].
    - apply bind_Ret in H2 as (d & Hd & (mem & Hs & [= <- <-])%bind_Ret). split; [|done].
      eapply wf_store; [done | by eapply ReadAt_i8 | done].
    - apply bind_Ret in H2 as (d & Hd & (mem & Hs & [= <- <-])%bind_Ret).
      apply (Acquire_files swapFileLock) in Hv. split; [|by apply (files_same (Acquire swapFileLock v))].
      eapply wf_store; [done | eapply ReadAt_i8; [exact Hd | apply Hv] | done]. }
  apply bind_Ret in H as (v3 & H3 & (v4 & H4 & [= <- <-])%bind_Ret). split; [done|].
  eapply update_IPT_files; [exact H4|]. by eapply update_page_files.
Qed.

Lemma HandleIPTMiss_fine n m v q m' v' : HandleIPTMiss n (m, v) = Ret (q, (m', v')) -> fine m v -> fine m' v'.
Proof using.
  unfold HandleIPTMiss. intros H [Hm Hv]. apply bind_Ret in H as ([q1 bm] & _ & ([q2 [m5 v5]] & H5 & H)%bind_Ret).
  assert (fine m (set_mainMemoryBitMap bm (Acquire bitMapLock v))) as Hf.
  { split; [done|]. by apply (files_same (Acquire bitMapLock v)), Acquire_files. }
  assert (fine m5 v5) as Hf5 by (destruct (q1 =? -1); [by eapply HandleMemoryFull_fine | by injection H5 as _ <- <-]).
  destruct (space v5); [|done]. apply bind_Ret in H as ([m6 v6] & H6 & [= _ <- <-]).
  apply IPTMiss_fine in H6 as [Hm6 Hv6]; [|done]. split; [done | by apply (files_same v6)].
Qed.

Lemma updateTLB_fine p m v m' v' : updateTLB p (m, v) = Ret (m', v') -> fine m v -> fine m' v'.
Proof using.
  unfold updateTLB. destruct (tlb m) as [t|] eqn:Ht; [|done]. intros H [Hm Hv].
  apply bind_Ret in H as (e & _ & (v2 & H2 & (ie & _ & (t' & Hs & [= <- <-])%bind_Ret)%bind_Ret)%bind_Ret).
  split; [by eapply wf_aset_tlb|]. apply (files_same v2); [done..|]. apply (Acquire_files TLBLock) in Hv.
  destruct (dirty e); [by eapply update_IPT_files | by injection H2 as <-].
Qed.

Lemma HandlePageFault_fine m v m' v' : HandlePageFault (m, v) = Ret (m', v') -> fine m v -> fine m' v'.
Proof using tick.
  unfold HandlePageFault. intros H Hf. apply bind_Ret in H as ([l [m1 v1]] & H1 & H).
  apply bind_Ret in H as (bad & _ & (p & _ & ([q [m2 v2]] & H2 & ([m3 v3] & H3 & ([l' [m4 v4]] & H4 & [= <- <-])%bind_Ret)%bind_Ret)%bind_Ret)%bind_Ret).
  apply SetLevel_fine in H1 as [Hm1 Hv1]; [|done].
  assert (fine m2 v2) as Hf2.
  { apply (Acquire_files IPTLock) in Hv1. destruct (p =? -1); [by eapply HandleIPTMiss_fine | by injection H2 as _ <- <-]. }
  apply updateTLB_fine in H3 as [Hm3 Hv3]; [|done]. eapply SetLevel_fine; [exact H4|]. split; [done | by apply (files_same v3)].
Qed.
End Handler.

(** ** The kernel of Boot.v *)

Module Demo.
Import Boot.Demo UserMemory.Demo.

#[export] Instance fault_laws : KernelLaws VM.
Proof.
  refine {| kernel_ok := files_ok |}; [done|]. intros e m v m' v' Hm Hv E. cbn in E.
  destruct e; try done. apply (HandlePageFault_fine (env := env)) in E; [exact E | | by split].
  intros m1 v1 m2 v2 Hf Ht. rewrite quiet in Ht. by injection Ht as <- <-.
Defined.

(** The first two rounds of a booted program, whose pages are not in memory yet. *)
Lemma Run_safe_witness : exists v, core None 0 machine v /\
  ((exists m' v', Run true Ret Ret 2 (machine, v) = Ret (m', v') /\ wf_machine m' /\ files_ok v') \/
   exists k m' v', (k < 2)%nat /\ Run true Ret Ret k (machine, v) = Ret (m', v') /\ wf_machine m' /\
     (stuck true m' v' \/ ended true Ret Ret m' v')).
Proof.
  destruct booted as (v & _ & K & _). exists v. split; [exact K|].
  refine (Run_safe true Ret Ret 2 machine v _ _ _ _).
  - intros m w m' w' Hm Hw E. injection E as <- <-. exact (conj Hm Hw).
  - intros m w m' w' Hm Hw E. injection E as <- <-. exact (conj Hm Hw).
  - exact (c_machine _ _ _ _ K).
  - exact (c_files _ _ _ _ K).
Defined.
End Demo.
