(* ===== verification/ContextSwitch.v ===== *)
(** * Context switches and the TLB (AddrSpace::SaveState, userprog/addrspace.cc:262-272)

    SaveState invalidates the TLB but leaves the dirty bits of its entries to the
    stale slots. The page tables and every page's content survive; but a page that
    was written before the switch, and only read after it, is then evicted as
    clean: the entry reloaded from the inverted page table is not dirty, and
    HandleMemoryFull lets it overwrite the dirty bit of the stale one. *)

From S2P Require Import Prelude Interrupt BitMap Table Machine VM Paging Boot UserMemory.

Section Switch.
Context `{!VMEnv}.
Context (quiet : forall s, OneTick s = Ret s).

Lemma SaveState_spec m v t :
  tlb m = Some t -> length t = 4%nat -> locks v = [] ->
  SaveState (m, v) = Ret (set_tlb (Some (set_valid false <$> t)) m, v).
Proof using quiet.
  intros Ht Hl Hlk. unfold SaveState. rewrite SetLevel_quiet by done. cbn [bind].
  rewrite Acquire_new by (cbn; rewrite Hlk; lock_free).
  match goal with |- context [for_upto ?i ?n ?f ?x] =>
    assert (for_upto i n f x = Ret (set_tlb (Some (set_valid false <$> t)) m)) as -> end.
  { destruct t as [|a [|b [|c [|d [|]]]]]; try discriminate.
    change (Z.to_nat TLBSize) with 4%nat. cbn [for_upto]. rewrite Ht. reflexivity. }
  cbn [bind]. rewrite (Release_last TLBLock []) by (first [by cbn; rewrite Hlk | lock_free]).
  rewrite SetLevel_quiet by done. cbn [bind]. do 2 f_equal. destruct v; cbn in *. by subst.
Qed.

(** The last slot that names a frame. *)
Lemma last_dirty_at p t c f d :
  t !! c = Some f -> physicalPage f = p ->
  (forall i g, (c < i)%nat -> t !! i = Some g -> physicalPage g <> p) ->
  last_dirty p t d = dirty f.
Proof using.
  revert c d. induction t as [|g t IH]; intros [|c] d Hc Hp Hlast; try discriminate; cbn.
  - injection Hc as <-. rewrite (proj2 (Z.eqb_eq _ _) Hp).
    destruct (last_dirty_cases p t (dirty g)) as [(j & e & Hj & He & _)|[_ Hd]]; [|exact Hd].
    destruct (Hlast (S j) e); [lia | done | done].
  - apply (IH c); [done | done|]. intros i g' Hi. apply (Hlast (S i)). lia.
Qed.

(** The whole round: the page is mapped by slot [j], written, and its dirty bit is
    only there; after the switch the page is touched again, which loads slot [c];
    then its frame is the FIFO victim. *)
Section Lost.
Context (m : Machine) (v : VM) (s : positive) (n p j c : nat) (t : list TranslationEntry)
  (e f : TranslationEntry) (ie : IPTEntry) (x : File) (pe : PageTableEntry) (bad : Z).
Context (K : core None 0 m v) (Hl : locks v = []) (Hs : space v = Some s)
  (Ht : tlb m = Some t) (Hj : t !! j = Some e) (Hep : physicalPage e = Z.of_nat p)
  (Hh : holds v p s n) (Hi : IPT v !! p = Some ie) (Hclean : dirty (ientry ie) = false)
  (Hpg : page_of v s n = Some (x, pe))
  (Hc : t !! c = Some f) (Hcur : currentTLB v = Z.of_nat c) (Hjc : (j < c)%nat)
  (Honly : forall i g, t !! i = Some g -> physicalPage g = Z.of_nat p -> i = j)
  (Hvictim : currentIPT v = Z.of_nat p)
  (Hbad : reg m BadVAddrReg = Ret bad) (Hn : Z.quot bad PageSize = Z.of_nat n).

Lemma switched_tlb : length (set_valid false <$> t) = 4%nat /\ (set_valid false <$> t) !! c = Some (set_valid false f).
Proof using K Ht Hc.
  rewrite length_fmap, (wf_tlb m (c_machine _ _ _ _ K) t Ht), list_lookup_fmap, Hc. done.
Qed.

(** The fault after the switch finds the page in the inverted page table. *)
Lemma refault ipt :
  (if dirty f then update_IPT (physicalPage f) (set_ientry (set_dirty (dirty f)))
                     (set_locks [TLBLock; IPTLock] (set_intLevel IntOff v))
   else Ret (set_locks [TLBLock; IPTLock] (set_intLevel IntOff v))) =
    Ret (set_IPT ipt (set_locks [TLBLock; IPTLock] (set_intLevel IntOff v))) ->
  ipt !! p = Some ie ->
  HandlePageFault (set_tlb (Some (set_valid false <$> t)) m, v) =
  Ret (set_tlb (Some (<[c := ientry ie]> (set_valid false <$> t))) m,
       set_IPT ipt (set_currentTLB (Z.rem (Z.of_nat c + 1) TLBSize) v)).
Proof using All.
  intros Hprop Hip. unfold HandlePageFault. rewrite SetLevel_quiet by done. cbn [bind].
  unfold ReadRegister. cbn [bind ASSERT andb Z.leb Z.compare BadVAddrReg Z.ltb NumTotalRegs Pos.compare Pos.compare_cont].
  unfold reg in Hbad. change (registers (set_tlb _ m)) with (registers m). rewrite Hbad. cbn [bind]. rewrite Hn.
  rewrite Acquire_new by (cbn; rewrite Hl; lock_free). change (locks (set_intLevel _ v)) with (locks v). rewrite Hl.
  destruct (IPT_search_spec m (set_locks [IPTLock] (set_intLevel IntOff v)) 0 s n 0 256) as [(q & Hq & Hhq)|[_ Hno]];
    [by apply core_locks, core_level | done | done | |].
  2:{ exfalso. apply (Hno p); [|done]. destruct Hh as (i & Hi' & _). split; [lia|]. by eapply frames_range, Hi'; apply K. }
  assert (q = p) as -> by (by eapply (holds_frame m v None 0)).
  change (Z.to_nat NumPhysPages) with 256%nat. change (Z.of_nat 0) with 0 in Hq. rewrite Hq. cbn [bind].
  rewrite (proj2 (Z.eqb_neq _ _)) by lia. cbn [bind].
  destruct switched_tlb as [_ Hc']. unfold updateTLB. cbn [set_tlb tlb].
  rewrite Acquire_new by (lock_free).
  change (set_locks (TLBLock :: _) _) with (set_locks [TLBLock; IPTLock] (set_intLevel IntOff v)).
  change (currentTLB (set_locks _ _)) with (currentTLB v). rewrite Hcur, (aref_nat _ _ _ Hc'). cbn [bind].
  change (dirty (set_valid false f)) with (dirty f). change (physicalPage (set_valid false f)) with (physicalPage f).
  rewrite Hprop. cbn [bind]. change (IPT (set_IPT ipt _)) with ipt. rewrite (aref_nat _ _ _ Hip). cbn [bind].
  change (currentTLB (set_IPT ipt _)) with (currentTLB v). rewrite Hcur, (aset_nat _ _ _ _ Hc'). cbn [bind].
  rewrite (Release_last TLBLock [IPTLock]) by (done || lock_free).
  rewrite (Release_last IPTLock []) by (done || lock_free).
  rewrite SetLevel_quiet by done. cbn [bind]. do 2 f_equal. destruct v; cbn in *. by subst.
Qed.

Lemma propagated : exists ipt,
  (if dirty f then update_IPT (physicalPage f) (set_ientry (set_dirty (dirty f)))
                     (set_locks [TLBLock; IPTLock] (set_intLevel IntOff v))
   else Ret (set_locks [TLBLock; IPTLock] (set_intLevel IntOff v))) =
    Ret (set_IPT ipt (set_locks [TLBLock; IPTLock] (set_intLevel IntOff v))) /\
  ipt !! p = Some ie.
Proof using All.
  destruct (dirty f) eqn:Hd; [|by exists (IPT v)].
  pose proof (c_garbage _ _ _ _ K t c f Ht Hc Hd) as Hr.
  destruct (Z_of_nat_complete (physicalPage f) ltac:(lia)) as [q Hq].
  destruct (lookup_lt_is_Some_2 (IPT v) q) as [i Hiq]; [rewrite (c_IPT _ _ _ _ K); lia|].
  rewrite Hq, (update_IPT_spec _ q i) by done. eexists. split; [reflexivity|].
  rewrite list_lookup_insert_ne; [done|]. intros ->. assert (c = j) by (by apply (Honly c f)). lia.
Qed.

(** The victim's TLB entries say it is clean. *)
Lemma stale_loses m1 v1 ipt t1 :
  m1 = set_tlb (Some t1) m -> t1 = <[c := ientry ie]> (set_valid false <$> t) ->
  v1 = set_IPT ipt (set_currentTLB (Z.rem (Z.of_nat c + 1) TLBSize) v) -> ipt !! p = Some ie ->
  exists m' v', HandleMemoryFull (m1, v1) = Ret (Z.of_nat p, (m', v')) /\
    content m' v' s n = Some (backing (swapFile v) x pe).
Proof using All.
  intros Em Et Ev Hip. destruct switched_tlb as [Hl4 Hc'].
  destruct (c_frame _ _ _ _ K p ie Hi) as [_ Hf]; [done|].
  destruct Hh as (ie0 & Hi0 & Hv & Ho & Hvp). rewrite Hi in Hi0. injection Hi0 as <-.
  destruct (Hf Hv) as (Hpp & _).
  assert (last_dirty (Z.of_nat p) t1 (dirty (ientry ie)) = false) as Hld.
  { rewrite (last_dirty_at _ _ c (ientry ie)); [done | | done |].
    - rewrite Et. apply list_lookup_insert_eq. by eapply lookup_lt_Some.
    - intros i g Hci Hg Hgp. rewrite Et, list_lookup_insert_ne, list_lookup_fmap in Hg by lia.
      destruct (t !! i) as [g'|] eqn:Hti; [|done]. injection Hg as <-.
      assert (i = j) by (by apply (Honly i g')). lia. }
  unfold HandleMemoryFull. rewrite Ev. change (PRand (set_IPT _ _)) with (PRand v).
  change (currentIPT (set_IPT _ _)) with (currentIPT v). rewrite (c_fifo _ _ _ _ K), Hvictim.
  rewrite Acquire_new by (cbn; rewrite Hl; lock_free). cbn [locks set_currentIPT set_IPT set_currentTLB]. rewrite Hl.
  rewrite (drop_loop m1 _ t1 p ie) by (first [by rewrite Em | by rewrite Et, length_insert | done]).
  cbn [bind]. rewrite Hld, (Release_last TLBLock []) by (done || lock_free).
  set (v2 := set_locks _ _). assert (IPT v2 !! p = Some (with_dirty false ie)) as Hi2.
  { cbn. apply list_lookup_insert_eq. by eapply lookup_lt_Some. }
  rewrite (aref_nat _ _ _ Hi2). cbn [bind]. change (dirty (ientry (with_dirty false ie))) with false. cbv iota.
  unfold evict_owner. change (owner (with_dirty false ie)) with (owner ie). rewrite Ho.
  change (virtualPage (ientry (with_dirty false ie))) with (virtualPage (ientry ie)). rewrite Hvp. unfold evictedPage.
  destruct (update_page_spec v2 s n x pe (set_entry (set_valid false)) Hpg) as (sp & -> & Hpages & _).
  cbn [bind]. eexists _, _. split; [reflexivity|]. unfold content. rewrite Hpages, decide_True by done.
  cbn. unfold page_content. cbn [entry set_entry set_valid valid fst snd]. done.
Qed.

(** a page written before a context switch and only read after it is lost. The
    running space has written page [n], which slot [j] of the TLB maps to frame
    [p]; the dirty bit is only in that slot. SaveState at a context switch
    invalidates the slot; when the page is next touched the page fault handler
    finds it in the inverted page table and maps it again, through slot [c > j],
    as not written; when its frame is then the FIFO victim HandleMemoryFull reads
    the dirty bit of slot [c] last, so that the page is dropped and not written to
    the swap file. Its content goes back to what the executable or the swap file
    had: every byte written is lost. *)
Theorem write_lost_on_switch :
  dirty e = true ->
  exists s2 m3 v3,
    (let! s1 := SaveState (m, v) in HandlePageFault s1) = Ret s2 /\ mapped s2.1 n p /\
    HandleMemoryFull s2 = Ret (Z.of_nat p, (m3, v3)) /\
    content m v s n = Some (frame m p) /\ content m3 v3 s n = Some (backing (swapFile v) x pe).
Proof using All.
  intros _. destruct propagated as (ipt & Hprop & Hip). destruct switched_tlb as [Hl4 Hc'].
  rewrite (SaveState_spec m v t Ht) by (done || by apply (wf_tlb m (c_machine _ _ _ _ K))). cbn [bind].
  rewrite (refault ipt Hprop Hip).
  set (t1 := <[c := _]> _). set (m1 := set_tlb _ _). set (v1 := set_IPT _ _).
  destruct (stale_loses (set_tlb (Some t1) m) v1 ipt t1 eq_refl eq_refl eq_refl Hip) as (m3 & v3 & Hr & Hcont).
  exists (m1, v1), m3, v3. split; [done|]. split; [|split; [exact Hr|split; [|done]]].
  - destruct (c_frame _ _ _ _ K p ie Hi) as [_ Hf]; [done|].
    destruct Hh as (ie0 & Hi0 & Hv & Ho & Hvp). rewrite Hi in Hi0. injection Hi0 as <-.
    destruct (Hf Hv) as (Hpp & _). exists t1, c, (ientry ie). split; [done|].
    split; [apply list_lookup_insert_eq; by eapply lookup_lt_Some | done].
  - destruct (holds_page _ _ _ _ _ _ _ K Hh) as (x' & e' & Hp' & Hve & Hpp); [done|].
    unfold content. rewrite Hp'. cbn. unfold page_content. cbn. by rewrite Hve, Hpp, Nat2Z.id.
Qed.
End Lost.
End Switch.

(** A store to address 4 of the program of Boot.v, and then a switch. *)
Module Demo.
Import Boot.Demo UserMemory.Demo.

Definition slot0 : TranslationEntry := mkTE 0 0 true false true true.
Definition frame0 : IPTEntry := mkIPTE (mkTE 0 0 true false false false) (Some 1%positive).

Lemma stored_facts :
  (let! v := started in
   let! r := do_access true 2 (Store 4 4 77) (machine, v) in
   match r with
   | Some (_, (m, v)) =>
       let! b := reg m BadVAddrReg in
       Ret (tlb m, IPT v !! 0%nat, currentTLB v, currentIPT v, b)
   | None => Abort
   end) = Ret (Some [slot0; no_entry; no_entry; no_entry], Some frame0, 1, 0, 4).
Proof. vm_compute. reflexivity. Qed.

Lemma slot0_only i g :
  [slot0; no_entry; no_entry; no_entry] !! i = Some g -> physicalPage g = Z.of_nat 0 -> i = 0%nat.
Proof.
  destruct i as [|[|[|[|i]]]]; intros Hg Hp; try discriminate Hg; injection Hg as <-;
    first [reflexivity | discriminate Hp].
Qed.

Lemma write_lost_on_switch_witness :
  exists m v s2 m3 v3, core None 0 m v /\ (let! s1 := SaveState (m, v) in HandlePageFault s1) = Ret s2 /\
    HandleMemoryFull s2 = Ret (0, (m3, v3)).
Proof.
  destruct booted as (v0 & Hv0 & K0 & Hl0 & Hs0 & Hsw0 & Hc0). pose proof stored_facts as Hf.
  rewrite Hv0 in Hf. cbn [bind] in Hf.
  destruct (access_flat true quiet 1 machine v0 (Store 4 4 77) 0 (demo_runs v0 K0 Hl0 Hs0))
    as (m & v & Hr & (K & _ & Hs) & (_ & _ & Hl) & _).
  { unfold access_ok. cbn [address width]. repeat split; try lia. apply Hc0. vm_compute. lia. }
  { change (0 < swap_free v0). lia. }
  rewrite Hr in Hf. clear Hr. cbn [bind] in Hf. apply bind_Ret in Hf as (bad & Hbad & Hf).
  injection Hf as Ht Hi Hct Hci ->.
  assert (holds v 0 1 0) as Hh by (exists frame0; repeat split; done).
  destruct (holds_page m v None 0 0 1 0 K Hh ltac:(discriminate)) as (x & pe & Hpg & _).
  destruct (write_lost_on_switch quiet m v 1 0 0 0 1 [slot0; no_entry; no_entry; no_entry] slot0 no_entry frame0
    x pe 4 K (eq_trans Hl Hl0) Hs Ht eq_refl eq_refl Hh Hi eq_refl Hpg eq_refl Hct ltac:(lia) slot0_only Hci Hbad eq_refl eq_refl)
    as (s2 & m3 & v3 & Hr2 & _ & Hr3 & _).
  exists m, v, s2, m3, v3. exact (conj K (conj Hr2 Hr3)).
Defined.
End Demo.
