(* ===== verification/Freeing.v ===== *)
(** * Giving memory back (AddrSpace::clearMem and AddrSpace::clearStack,
      userprog/addrspace.cc:293-320)

    The end of a process frees the frames of its address space; the end of another
    thread frees the frames its stack's page table entries name. Both go through
    the bit map of the frames, the frame itself and the inverted page table. *)

From S2P Require Import Prelude Interrupt BitMap Table Machine VM Paging Boot.

Definition zeros : list Z := replicate page_size 0.
Arguments zeros : simpl never.

(** From (m, v) to (m', v'), the frames of [P] have been freed and no other. *)
Record freed (P : nat -> Prop) (m : Machine) (v : VM) (m' : Machine) (v' : VM) : Prop := {
  fr_machine : wf_machine m';
  fr_IPT : length (IPT v') = 256%nat;
  fr_frames : wf (mainMemoryBitMap v') /\ numBits (mainMemoryBitMap v') = 256;
  fr_swap : swapFile v' = swapFile v;
  fr_in p : P p -> (p < 256)%nat -> bit (mainMemoryBitMap v') (Z.of_nat p) = false /\ frame m' p = zeros /\
    exists ie, IPT v' !! p = Some ie /\ valid (ientry ie) = false;
  fr_out p : ~ P p -> (p < 256)%nat ->
    bit (mainMemoryBitMap v') (Z.of_nat p) = bit (mainMemoryBitMap v) (Z.of_nat p) /\
    frame m' p = frame m p /\ IPT v' !! p = IPT v !! p
}.

Lemma freed_none m v : wf_machine m -> length (IPT v) = 256%nat ->
  wf (mainMemoryBitMap v) /\ numBits (mainMemoryBitMap v) = 256 -> freed (fun _ => False) m v m v.
Proof. by constructor. Qed.

Lemma freed_locks P m v m' v' ls : freed P m v m' v' -> freed P m v m' (set_locks ls v').
Proof. intros []. by constructor. Qed.

(** Clearing the bit of a frame and its bytes. *)
Lemma clear_frame_spec m v p : wf_machine m -> wf (mainMemoryBitMap v) ->
  numBits (mainMemoryBitMap v) = 256 -> (p < 256)%nat ->
  exists bm, clear_frame (Z.of_nat p) (m, v) =
      Ret (set_mainMemory (list_inserts (p * page_size) zeros (mainMemory m)) m, set_mainMemoryBitMap bm v) /\
    wf bm /\ numBits bm = 256 /\
    forall q, bit bm (Z.of_nat q) = negb (Z.of_nat q =? Z.of_nat p) && bit (mainMemoryBitMap v) (Z.of_nat q).
Proof.
  intros Hwf Hbm Hn Hp. unfold clear_frame.
  destruct (Clear_spec (mainMemoryBitMap v) (Z.of_nat p) Hbm ltac:(lia)) as (bm & -> & Hw & Hn' & Hb).
  cbn [bind]. unfold bzero_frame. change (Z.to_nat PageSize) with page_size.
  rewrite store_frame by (done || by rewrite length_replicate). cbn [bind]. exists bm.
  split; [done|]. split; [done|]. split; [congruence|]. intros q. apply Hb. lia.
Qed.

Definition page_dropped (v : VM) (s : positive) (n : nat) (v' : VM) : Prop :=
  forall s' n', page_of v' s' n' =
    if decide (s' = s /\ n' = n) then (fun xe => (xe.1, set_entry (set_valid false) xe.2)) <$> page_of v s n
    else page_of v s' n'.

(** The frame and the entry, the locks aside. *)
Lemma freed_step P m v m1 v1 s n x e p bm sp ie ls :
  freed P m v m1 v1 -> page_of v1 s n = Some (x, e) -> (p < 256)%nat -> wf bm -> numBits bm = 256 ->
  (forall q, bit bm (Z.of_nat q) = negb (Z.of_nat q =? Z.of_nat p) && bit (mainMemoryBitMap v1) (Z.of_nat q)) ->
  IPT v1 !! p = Some ie ->
  freed (fun q => P q \/ q = p) m v (set_mainMemory (list_inserts (p * page_size) zeros (mainMemory m1)) m1)
    (set_locks ls (set_spaces sp (set_IPT (<[p := set_ientry (set_valid false) ie]> (IPT v1)) (set_mainMemoryBitMap bm v1)))).
Proof.
  intros F Hp Hlt Hbm Hn Hbits Hie. pose proof (fr_machine _ _ _ _ _ F) as Hwf.
  assert (length zeros <= page_size)%nat as Hz by (unfold zeros; rewrite length_replicate; lia).
  constructor; cbn.
  - apply wf_set_mainMemory; [done|]. apply Forall_replicate. unfold is_i8. lia.
  - rewrite length_insert. apply F.
  - done.
  - apply F.
  - intros q Hq Hq'. rewrite Hbits. destruct (decide (q = p)) as [->|Hne].
    + rewrite Z.eqb_refl. split; [done|]. split; [by apply frame_loaded; [..|apply length_replicate]|].
      eexists. split; [apply list_lookup_insert_eq; rewrite (fr_IPT _ _ _ _ _ F); lia | done].
    + destruct Hq as [Hq|]; [|done]. destruct (fr_in _ _ _ _ _ F q Hq Hq') as (Hb & Hf & Hi).
      rewrite Hb, andb_false_r, (frame_inserts _ _ _ _ Hz Hne), list_lookup_insert_ne by congruence. done.
  - intros q Hq Hq'. rewrite Hbits. destruct (fr_out _ _ _ _ _ F q) as (Hb & Hf & Hi); [tauto|done|].
    assert (q <> p) as Hne by tauto. destruct (Z.eqb_spec (Z.of_nat q) (Z.of_nat p)); [lia|].
    rewrite (frame_inserts _ _ _ _ Hz Hne), list_lookup_insert_ne by congruence. done.
Qed.

(** What both loops do with an entry, the locks of the memory system in [ls]. *)
Lemma drop_entry_step P m v m1 v1 s n x e p ls :
  freed P m v m1 v1 -> page_of v1 s n = Some (x, e) -> physicalPage (entry e) = Z.of_nat p -> (p < 256)%nat ->
  locks v1 = ls -> IPTLock ∉ ls ->
  exists bm ie sp,
    clear_frame (physicalPage (entry e)) (m1, v1) =
      Ret (set_mainMemory (list_inserts (p * page_size) zeros (mainMemory m1)) m1, set_mainMemoryBitMap bm v1) /\
    (forall v2 ls', v2 = set_locks ls' (set_mainMemoryBitMap bm v1) -> IPTLock ∉ ls' ->
       (let v2 := VM.Acquire IPTLock v2 in
        let! v2 := update_IPT (physicalPage (entry e)) (set_ientry (set_valid false)) v2 in
        let v2 := VM.Release IPTLock v2 in
        update_page s (Z.of_nat n) (set_entry (set_valid false)) v2) =
       Ret (set_locks ls' (set_spaces sp (set_IPT (<[p := set_ientry (set_valid false) ie]> (IPT v1))
              (set_mainMemoryBitMap bm v1))))) /\
    forall ls', let v2 := set_locks ls' (set_spaces sp (set_IPT (<[p := set_ientry (set_valid false) ie]> (IPT v1))
              (set_mainMemoryBitMap bm v1))) in
      freed (fun q => P q \/ q = p) m v (set_mainMemory (list_inserts (p * page_size) zeros (mainMemory m1)) m1) v2 /\
      page_dropped v1 s n v2.
Proof.
  intros F Hpg Hpp Hlt Hl Hfree. rewrite Hpp.
  destruct (clear_frame_spec m1 v1 p) as (bm & Hcf & Hbm & Hn & Hbits); try apply F; [done|].
  destruct (lookup_lt_is_Some_2 (IPT v1) p) as [ie Hie]; [by rewrite (fr_IPT _ _ _ _ _ F)|].
  destruct (update_page_spec v1 s n x e (set_entry (set_valid false)) Hpg) as (sp & Hu & Hpages & _).
  exists bm, ie, sp. split; [done|]. split.
  - intros v2 ls' -> Hls'. cbv zeta. rewrite Acquire_new by done.
    rewrite (update_IPT_spec _ p ie) by done. cbn [bind].
    rewrite (Release_last IPTLock ls') by done.
    revert Hu. unfold update_page, VM.deref. cbn.
    destruct (spaces v1 !! s) as [a|]; [|done]. cbn [bind]. destruct (aref (pages a) (Z.of_nat n)); [|done..].
    cbn [bind]. destruct (aset (pages a) (Z.of_nat n) _); [|done..]. cbn [bind]. intros E.
    injection E as E. unfold update_space, set_spaces in *. cbn in *. 
    assert (spaces (set_spaces sp v1) = alter (set_pages a1) s (spaces v1)) as E2 by (by rewrite E).
    cbn in E2. by rewrite E2.
  - intros ls' v2. split; [by eapply freed_step|].
    intros s' n'. etransitivity; [exact (Hpages s' n')|]. case_decide; [|done]. by rewrite Hpg.
Qed.

Lemma freed_iff P Q m v m' v' : (forall p, P p <-> Q p) -> freed P m v m' v' -> freed Q m v m' v'.
Proof.
  intros Hpq []. constructor; try done.
  - intros p Hq. apply fr_in0. by apply Hpq.
  - intros p Hq. apply fr_out0. by rewrite Hpq.
Qed.

(** ** clearMem *)

Section ClearMem.
Context (m : Machine) (v : VM) (s : positive).
Context (K : core None 0 m v).

(** After the first [i] pages. *)
Definition cleared (i : Z) '((m1, v1) : Machine * VM) : Prop :=
  freed (fun p => exists n, Z.of_nat n < i /\ holds v p s n) m v m1 v1 /\ locks v1 = locks v /\
  (forall s' n, s' <> s -> page_of v1 s' n = page_of v s' n) /\
  (forall n, i <= Z.of_nat n -> page_of v1 s n = page_of v s n) /\
  (forall n x e, Z.of_nat n < i -> page_of v1 s n = Some (x, e) -> valid (entry e) = false).

Lemma cleared_start : cleared 0 (m, v).
Proof using K.
  split; [|split; [done|split; [done|split; [done | lia]]]].
  eapply freed_iff, freed_none; try apply K. intros p. split; [done|]. intros (n & ? & _). lia.
Qed.

(** A page that is not in memory is passed over. *)
Lemma cleared_skip i m1 v1 e x : cleared (Z.of_nat i) (m1, v1) -> page_of v s i = Some (x, e) ->
  valid (entry e) = false -> cleared (Z.of_nat i + 1) (m1, v1).
Proof using K.
  intros (F & ? & ? & Hsame & Hdone) Hp Hv. split; [|split; [done|split; [done|split]]].
  - eapply freed_iff; [|exact F]. intros p. split; intros (n & Hn & Hh); exists n; (split; [|done]); [lia|].
    destruct (decide (n = i)) as [->|]; [|lia]. exfalso.
    destruct (holds_page _ _ _ _ _ _ _ K Hh) as (x' & e' & Hp' & Hv' & _); [done|].
    rewrite Hp in Hp'. injection Hp' as <- <-. congruence.
  - intros n Hn. apply Hsame. lia.
  - intros n x' e' Hn Hp'. destruct (decide (n = i)) as [->|]; [|eapply Hdone, Hp'; lia].
    rewrite Hsame, Hp in Hp' by lia. by injection Hp' as <- <-.
Qed.

Lemma cleared_free i m1 v1 m2 v2 p : cleared (Z.of_nat i) (m1, v1) -> holds v p s i ->
  freed (fun q => (exists n, Z.of_nat n < Z.of_nat i /\ holds v q s n) \/ q = p) m v m2 v2 -> page_dropped v1 s i v2 ->
  locks v2 = locks v -> cleared (Z.of_nat i + 1) (m2, v2).
Proof using K.
  intros (F & _ & Hother & Hsame & Hdone) Hh HF Hd Hl2. split; [|split; [done|split; [|split]]].
  - eapply freed_iff; [|exact HF]. intros q. split.
    + intros [(n & Hn & Hq)| ->]; [exists n | exists i]; (split; [lia | done]).
    + intros (n & Hn & Hq). destruct (decide (n = i)) as [->|]; [|left; exists n; (split; [lia|done])]. right.
      destruct (holds_page _ _ _ _ _ _ _ K Hh) as (x1 & e1 & Hp1 & _ & E1); [done|].
      destruct (holds_page _ _ _ _ _ _ _ K Hq) as (x2 & e2 & Hp2 & _ & E2); [done|]. 
      rewrite Hp1 in Hp2. injection Hp2 as <- <-. lia.
  - intros s' n Hs. rewrite Hd, decide_False by tauto. by apply Hother.
  - intros n Hn. rewrite Hd, decide_False by (intros [_ ->]; lia). apply Hsame. lia.
  - intros n x e Hn. rewrite Hd. case_decide as Hc; [|intros Hp; eapply Hdone, Hp].
    + intros Hp. apply fmap_Some in Hp as ([x' e'] & _ & E). injection E as -> ->. done.
    + destruct (decide (n = i)) as [->|]; [tauto | lia].
Qed.

Context {env : VMEnv} (a : AddrSpace) (Hl : unlocked (locks v)) (Ha : spaces v !! s = Some a)
  (Hnum : numPages a = Z.of_nat (length (pages a))).

Lemma clearMem_spec : exists m' v', clearMem s (m, v) = Ret (m', v') /\
  freed (fun p => exists n, holds v p s n) m v m' v' /\ locks v' = locks v /\
  (forall s' n, s' <> s -> page_of v' s' n = page_of v s' n) /\
  (forall n x e, page_of v' s n = Some (x, e) -> valid (entry e) = false).
Proof using K Hl Ha Hnum.
  unfold clearMem. unfold VM.deref at 1. rewrite Ha. cbn [bind].
  match goal with |- context [for_upto 0 ?n ?f (m, v)] =>
    destruct (for_upto_inv cleared 0 n f (m, v) cleared_start) as ([m' v'] & -> & (F & ? & ? & Hs & Hd)) end.
  - rewrite Hnum, Nat2Z.id. intros j [m1 v1] Hj Hc. destruct (Z_of_nat_complete j ltac:(lia)) as [i ->].
    pose proof Hc as (F & Hl1 & _ & Hsame & _).
    destruct (lookup_lt_is_Some_2 (pages a) i) as [e He]; [lia|].
    assert (page_of v s i = Some (executable a, e)) as Hp by (apply page_of_Some; eauto).
    pose proof Hp as Hp1. rewrite <- Hsame in Hp1 by lia. pose proof Hp1 as (a1 & Ha1 & He1 & _)%page_of_Some.
    unfold VM.deref. rewrite Ha1. cbn [bind]. rewrite (aref_nat _ _ _ He1). cbn [bind].
    destruct (valid (entry e)) eqn:Hv; [|exists (m1, v1); split; [done | by eapply cleared_skip]].
    destruct (c_page _ _ _ _ K _ _ _ _ Hp) as [_ Hx]. destruct (Hx Hv) as (p & Hpp & _ & Hh).
    assert (p < 256)%nat as Hlt by (destruct Hh as (ie & Hi & _); eapply frames_range, Hi; apply K).
    assert (VM.Acquire bitMapLock v1 = set_locks (bitMapLock :: locks v) v1) as ->
      by (rewrite Acquire_new, Hl1 by (rewrite Hl1; apply Hl); done).
    destruct (drop_entry_step (fun p => exists n, Z.of_nat n < Z.of_nat i /\ holds v p s n) m v m1
        (set_locks (bitMapLock :: locks v) v1) s i (executable a) e p (bitMapLock :: locks v))
      as (bm & ie & sp & -> & Hu & Hf); [by apply freed_locks | done | done | done | done | lock_free |].
    cbn [bind]. rewrite (Release_last bitMapLock (locks v)) by (done || apply Hl).
    specialize (Hu _ (locks v) eq_refl ltac:(apply Hl)). cbv zeta in Hu.
    destruct (update_IPT (physicalPage (entry e)) (set_ientry (set_valid false)) _) as [v3| |]; cbn [bind] in Hu |- *; [|done..].
    rewrite Hu. cbn [bind]. eexists. split; [reflexivity|]. destruct (Hf (locks v)) as [Hf1 Hf2].
    exact (cleared_free i m1 v1 _ _ p Hc Hh Hf1 Hf2 eq_refl).
  - rewrite Hnum, Nat2Z.id in *. exists m', v'.
    assert (forall n xe, page_of v s n = Some xe -> Z.of_nat n < 0 + Z.of_nat (length (pages a))) as Hin.
    { intros n [x e] (a1 & Ha1 & Hn%lookup_lt_Some & _)%page_of_Some. rewrite Ha in Ha1. injection Ha1 as <-. lia. }
    split; [done|]. split; [|split; [done|split; [done|]]].
    + eapply freed_iff; [|exact F]. intros p. split; [intros (n & _ & Hh); by exists n|]. intros (n & Hh).
      exists n. split; [|done]. by destruct (holds_page _ _ _ _ _ _ _ K Hh) as (x & e & Hp & _); [|eapply Hin].
    + intros n x e Hp. destruct (decide (Z.of_nat n < 0 + Z.of_nat (length (pages a)))); [by eapply Hd|].
      rewrite Hs in Hp by lia. apply Hin in Hp. lia.
Qed.
End ClearMem.

(** ** clearStack *)

Section ClearStack.
Context (m : Machine) (v : VM) (s : positive) (k : nat).
Context (K : core None 0 m v) (Hk : (7 <= k)%nat).
(** The frames the page table names for the 8 pages of the stack, resident or not. *)
Context (Hnames : forall n, (k - 7 <= n <= k)%nat -> exists x e p,
  page_of v s n = Some (x, e) /\ physicalPage (entry e) = Z.of_nat p /\ (p < 256)%nat).

Definition named (i : Z) (p : nat) : Prop := exists n x e, (k - 7 <= n)%nat /\ Z.of_nat n < i /\
  page_of v s n = Some (x, e) /\ physicalPage (entry e) = Z.of_nat p.

Definition unstacked (ls : list KLock) (i : Z) '((m1, v1) : Machine * VM) : Prop :=
  freed (named i) m v m1 v1 /\ locks v1 = ls /\
  (forall s' n, (s' <> s \/ ~ (k - 7 <= n <= k)%nat) -> page_of v1 s' n = page_of v s' n) /\
  (forall n, (i <= Z.of_nat n) -> page_of v1 s n = page_of v s n).

Lemma unstacked_next ls i m1 v1 m2 v2 x e p : unstacked ls (Z.of_nat i) (m1, v1) -> (k - 7 <= i <= k)%nat ->
  page_of v s i = Some (x, e) -> physicalPage (entry e) = Z.of_nat p ->
  freed (fun q => named (Z.of_nat i) q \/ q = p) m v m2 v2 -> page_dropped v1 s i v2 ->
  locks v2 = ls -> unstacked ls (Z.of_nat i + 1) (m2, v2).
Proof using Hk.
  intros (_ & _ & Hother & Hsame) Hi Hp Hpp HF Hd Hl. split; [|split; [done|split]].
  - eapply freed_iff; [|exact HF]. intros q. split.
    + intros [(n & y & f & ? & ? & ? & ?)| ->]; [exists n, y, f | exists i, x, e]; repeat split; done || lia.
    + intros (n & y & f & H1 & H2 & H3 & H4). destruct (decide (n = i)) as [->|]; [|left; exists n, y, f; repeat split; done || lia].
      right. rewrite Hp in H3. injection H3 as <- <-. lia.
  - intros s' n Hn. rewrite Hd, decide_False by (intros [-> ->]; destruct Hn; [done | lia]). by apply Hother.
  - intros n Hn. rewrite Hd, decide_False by (intros [_ ->]; lia). apply Hsame. lia.
Qed.

Context {env : VMEnv} (Hl : unlocked (locks v)).

Lemma clearStack_spec stack : Z.quot stack PageSize = Z.of_nat k ->
  exists m' v', clearStack s stack (m, v) = Ret (m', v') /\
  freed (named (Z.of_nat k + 1)) m v m' v' /\ locks v' = locks v /\
  (forall s' n, (s' <> s \/ ~ (k - 7 <= n <= k)%nat) -> page_of v' s' n = page_of v s' n).
Proof using K Hk Hnames Hl.
  intros Hst. unfold clearStack. rewrite Hst. cbv zeta. rewrite Acquire_new by apply Hl.
  match goal with |- context [for_upto ?i ?n ?f (m, ?v0)] =>
    destruct (for_upto_inv (unstacked (bitMapLock :: locks v)) i n f (m, v0)) as ([m' v'] & -> & (F & Hl' & Ho & _)) end.
  - split; [|split; [done|split; [done | done]]]. apply freed_locks. eapply freed_iff, freed_none; try apply K.
    intros p. split; [done|]. intros (n & x & e & ? & ? & _). lia.
  - intros j [m1 v1] Hj Hc. destruct (Z_of_nat_complete j ltac:(lia)) as [i ->].
    pose proof Hc as (F & Hl1 & _ & Hsame).
    destruct (Hnames i ltac:(lia)) as (x & e & p & Hp & Hpp & Hlt).
    pose proof Hp as Hp1. rewrite <- Hsame in Hp1 by lia. pose proof Hp1 as (a1 & Ha1 & He1 & _)%page_of_Some.
    unfold VM.deref. rewrite Ha1. cbn [bind]. rewrite (aref_nat _ _ _ He1). cbn [bind].
    destruct (drop_entry_step (named (Z.of_nat i)) m v m1 v1 s i x e p (bitMapLock :: locks v))
      as (bm & ie & sp & -> & Hu & Hf); [done | done | done | done | done | lock_free |]. cbn [bind].
    assert (set_mainMemoryBitMap bm v1 = set_locks (bitMapLock :: locks v) (set_mainMemoryBitMap bm v1)) as Hv1
      by (destruct v1; cbn in *; by subst).
    specialize (Hu _ (bitMapLock :: locks v) Hv1 ltac:(lock_free)). cbv zeta in Hu.
    destruct (update_IPT (physicalPage (entry e)) (set_ientry (set_valid false)) _) as [v3| |]; cbn [bind] in Hu |- *; [|done..].
    rewrite Hu. cbn [bind]. eexists. split; [reflexivity|]. destruct (Hf (bitMapLock :: locks v)) as [Hf1 Hf2].
    apply (unstacked_next _ i m1 v1 _ _ x e p Hc); try done. lia.
  - cbn [bind]. eexists _, _. split; [reflexivity|].
    rewrite (Release_last bitMapLock (locks v)) by (done || apply Hl).
    split; [|split; [done | exact Ho]]. apply freed_locks. eapply freed_iff, F. intros p. split.
    + intros (n & x & e & ? & ? & ?). exists n, x, e. split; [done|]. split; [lia | done].
    + intros (n & x & e & ? & ? & ?). exists n, x, e. split; [done|]. split; [lia | done].
Qed.

(** The end of a thread can wipe a page it does not own. clearStack frees the
    frames that the page table names for the eight pages of the thread's stack,
    also for pages that are not in memory, whose entries still name the frame they
    had before they were evicted, or what [new] left there. If one of these names
    the frame [q] of another page, of this or any other process, then after
    clearStack that page is all zeros for its process, and frame [q] is marked free
    although the page still uses it, so that the next page fault shares it. *)
Theorem clearStack_frees_others stack n x e q s' n' :
  Z.quot stack PageSize = Z.of_nat k ->
  (k - 7 <= n <= k)%nat -> page_of v s n = Some (x, e) -> physicalPage (entry e) = Z.of_nat q ->
  holds v q s' n' -> (s' <> s \/ ~ (k - 7 <= n' <= k)%nat) ->
  valid (entry e) = false /\ content m v s' n' = Some (frame m q) /\
  exists m' v', clearStack s stack (m, v) = Ret (m', v') /\
    content m' v' s' n' = Some zeros /\ bit (mainMemoryBitMap v') (Z.of_nat q) = false.
Proof using K Hk Hnames Hl.
  intros Hst Hn Hp Hpp Hh Hne. split.
  { destruct (valid (entry e)) eqn:Hv; [|done]. destruct (c_page _ _ _ _ K _ _ _ _ Hp) as [_ Hx].
    destruct (Hx Hv) as (q' & Hq' & _ & Hh'). assert (q' = q) as -> by lia.
    destruct (holds_inj _ _ _ _ _ _ Hh Hh') as [-> ->]. destruct Hne; [done | lia]. }
  destruct (holds_page _ _ _ _ _ _ _ K Hh) as (y & f & Hp' & Hv' & Hpf); [done|].
  assert (q < 256)%nat as Hq by (destruct Hh as (ie & Hi & _); eapply frames_range, Hi; apply K).
  split; [unfold content; rewrite Hp'; cbn; unfold page_content; cbn; by rewrite Hv', Hpf, Nat2Z.id|].
  destruct (clearStack_spec stack Hst) as (m' & v' & -> & F & _ & Ho). exists m', v'. split; [done|].
  destruct (fr_in _ _ _ _ _ F q) as (Hb & Hz & _); [|done|split; [|done]].
  - exists n, x, e. split; [lia|]. split; [lia | done].
  - unfold content. rewrite Ho, Hp' by done. cbn. unfold page_content. cbn. by rewrite Hv', Hpf, Nat2Z.id, Hz.
Qed.
End ClearStack.

(** ** The program of Boot.v with a page table from zeroed memory *)

Module Demo.
Import Boot.Demo.

Definition zeroed : nat -> PageTableEntry := fun _ => mkPTE (mkTE 0 0 false false false false) 0 0 0.

Definition started : C VM :=
  let! v := Initialize (fun _ => no_entry) (fun _ => 5) (fun _ => 6) false 1 in
  let! a := new_AddrSpace true (noff_bytes noff ++ text) [] zeroed (fun _ => 9) (fun _ => 8) in
  Ret (set_space (Some 1%positive) (set_spaces (<[1%positive := a]> (spaces v)) v)).

Lemma zeroed_booted : exists v, started = Ret v /\ core None 0 machine v /\ locks v = [] /\ space v = Some 1%positive /\
  swap_free v = 4096 /\ forall n, (n < 10)%nat -> is_Some (content machine v 1 n).
Proof.
  destruct (program_loaded_spec true noff text machine (fun _ => no_entry) (fun _ => 5) (fun _ => 6) 1 []
    zeroed (fun _ => 9) (fun _ => 8) 1%positive machine_fresh) as (v & a & Hv & Ha & K & Hl & Hsw & _ & _ & Hc & _).
  - unfold noff_fields. cbn. repeat constructor; done.
  - done.
  - apply Forall_fmap, Forall_forall. intros i _. pose proof (Nat.mod_upper_bound i 100 ltac:(lia)).
    unfold compose, is_i8. lia.
  - cbn. lia.
  - eexists. split; [unfold started; rewrite Hv; cbn [bind]; rewrite Ha; reflexivity|].
    split; [exact K|]. do 3 (split; [done|]). intros n Hn. rewrite Hc, decide_True; [by eexists|].
    split; [done|]. change (pages_for noff) with 10. lia.
Qed.

Lemma Ret_pair {A B} (a a' : A) (b b' : B) : Ret (a, b) = Ret (a', b') -> a = a' /\ b = b'.
Proof. intros E. by injection E. Qed.

Definition names (v : VM) (n : nat) : option Z := physicalPage ∘ entry ∘ snd <$> page_of v 1 n.

(** Page 0 has been brought into frame 0. *)
Lemma faulted_facts :
  (let! v := started in let! (m, v) := HandlePageFault (machine, v) in
   Ret (IPT v !! 0%nat, names v <$> seq 0 10)) =
  Ret (Some (mkIPTE (mkTE 0 0 true false false false) (Some 1%positive)), replicate 10 (Some 0)).
Proof. vm_compute. reflexivity. Qed.

Lemma faulted : exists m v, core None 0 m v /\ locks v = [] /\ holds v 0 1 0 /\
  names v <$> seq 0 10 = replicate 10 (Some 0).
Proof.
  destruct zeroed_booted as (v & Hv & K & Hl & Hs & Hsw & Hc). pose proof faulted_facts as Hf.
  rewrite Hv in Hf. cbn [bind] in Hf.
  assert (tlb_miss machine 0) as Hmiss.
  { intros t j e Ht Hj He. rewrite (Boot.fr_invalid _ machine_fresh t j e Ht Hj) in He. discriminate He. }
  destruct (HandlePageFault_spec quiet machine v 1 0 0 K (unlocked_nil _ Hl) Hs (Hc 0%nat ltac:(lia)) eq_refl eq_refl
    Hmiss ltac:(lia)) as (q & m' & v' & Hr & K' & [_ _ Hk _ _] & _ & _).
  rewrite Hr in Hf. cbn [bind] in Hf. apply Ret_pair in Hf as [Hi Hn]. exists m', v'. split; [exact K'|].
  split; [exact (eq_trans Hk Hl)|]. split; [|exact Hn].
  exists (mkIPTE (mkTE 0 0 true false false false) (Some 1%positive)).
  split; [exact Hi|]. split; [reflexivity|]. split; reflexivity.
Qed.

Lemma clearStack_frees_others_witness :
  exists m v m' v', core None 0 m v /\ clearStack 1 1264 (m, v) = Ret (m', v') /\
    content m v 1 0 = Some (frame m 0) /\ content m' v' 1 0 = Some zeros.
Proof.
  destruct faulted as (m & v & K & Hl & Hh & Hn).
  assert (forall n, (n < 10)%nat -> names v n = Some 0) as Hnames.
  { intros n Hn'. apply (f_equal (.!! n)) in Hn. rewrite list_lookup_fmap, lookup_seq_lt, lookup_replicate_2 in Hn by done.
    by injection Hn. }
  assert (forall n, (n < 10)%nat -> exists x e, page_of v 1 n = Some (x, e) /\ physicalPage (entry e) = 0) as Hp.
  { intros n Hn'. specialize (Hnames n Hn'). unfold names in Hnames.
    apply fmap_Some in Hnames as ([x e] & Hp & E). exists x, e. split; [exact Hp | exact (eq_sym E)]. }
  destruct (Hp 5%nat ltac:(lia)) as (x & e & Hp5 & Hpp5).
  destruct (clearStack_frees_others m v 1 9 K ltac:(lia)) with (stack := 1264) (n := 5%nat) (x := x) (e := e)
    (q := 0%nat) (s' := 1%positive) (n' := 0%nat) as (_ & Hc & m' & v' & Hr & Hc' & _).
  - intros n Hn'. destruct (Hp n ltac:(lia)) as (y & f & Hpn & Hppn). exists y, f, 0%nat. split; [exact Hpn|]. split; [exact Hppn | lia].
  - exact (unlocked_nil _ Hl).
  - reflexivity.
  - lia.
  - exact Hp5.
  - exact Hpp5.
  - exact Hh.
  - right. lia.
  - exists m, v, m', v'. exact (conj K (conj Hr (conj Hc Hc'))).
Defined.
End Demo.
