(* ===== verification/Server.v ===== *)
(** * The lock, condition-variable and monitor-variable server (network/nettest.cc)

    A Nachos machine that runs [Server] keeps tables of locks, condition variables
    and arrays of integers for user programs on other machines. Each message is
    handled by one iteration of the loop, which changes the tables and sends
    replies; a reply that has to wait is parked in the queue of a lock or of a
    condition variable. Here a handler returns the new tables and the list of the
    messages it passes to [postOffice->Send], in order.

    A table entry that was [delete]d stays in its vector as a dangling pointer
    that is not [NULL]: it is [None] below, and reading through it is [Undef]. The
    reply mailbox field of outgoing messages, which no receiver of a reply reads,
    and the texts printed on the console are left out. *)

From S2P Require Import Prelude NachosList.

(** ** Tables *)

Record ReplyMsg := mkReply {
  idToSendTo : Z; boxToSendTo : Z; msgLength : Z; responseMsg : list Z
}.

Record ServerLock := mkLock {
  owner : Z; lock_id : Z; available : bool; ownerMailBoxNum : Z;
  lock_queue : list (Z * ReplyMsg); lock_name : list Z; lock_waiters : Z; lock_doomed : bool
}.

Record ServerCV := mkCV {
  serverLockIndex : Z; cv_id : Z; cv_queue : list (Z * ReplyMsg); cv_name : list Z;
  cv_doomed : bool; cv_waiters : Z
}.

Record ServerMV := mkMV { values : list Z; mv_id : Z; mv_name : list Z; numElements : Z }.

Record PendingRequest := mkPendingRequest {
  noCount : Z; pr_opCode : Z; clientID : Z; clientMail : Z; pr_name : list Z
}.

Definition new_ServerLock (name : list Z) (id : Z) : ServerLock := mkLock (-1) id true (-1) [] name 0 false.
Definition new_ServerCV (name : list Z) (id : Z) : ServerCV := mkCV (-1) id [] name false 0.
Definition new_ServerMV (size : Z) (name : list Z) (id : Z) : C ServerMV :=
  if size <? 0 then Undef else Ret (mkMV (replicate (Z.to_nat size) 0) id name size).
Definition new_PendingRequest (op client mail : Z) (name : list Z) : PendingRequest :=
  mkPendingRequest 0 op client mail name.

(** The globals [serverLockTable], [serverCVTable], [serverMVTable] and
    [pendingRequestTable]. *)
Record State := mkState {
  locks : list (option ServerLock);
  cvs : list (option ServerCV);
  mvs : list (option ServerMV);
  requests : list PendingRequest
}.

Definition set_locks v s := mkState v (cvs s) (mvs s) (requests s).
Definition set_cvs v s := mkState (locks s) v (mvs s) (requests s).
Definition set_mvs v s := mkState (locks s) (cvs s) v (requests s).
Definition set_requests v s := mkState (locks s) (cvs s) (mvs s) v.

(** A message passed to [postOffice->Send]. *)
Record Message := mkMessage { to_machine : Z; to_box : Z; payload : list Z }.

(** [serverID] and [numServers] of system.cc. *)
Record Config := mkConfig { serverID : Z; numServers : Z }.

(** ** Helpers *)

(** [table.at(i)] and a dereference of the result: [at] throws out of range. *)
Definition deref {A} (t : list (option A)) (i : Z) : C A :=
  if (0 <=? i) && (i <? Z.of_nat (length t)) then
    match t !! Z.to_nat i with Some (Some a) => Ret a | _ => Undef end
  else Abort.

Definition store {A} (t : list (option A)) (i : Z) (a : option A) : list (option A) := <[Z.to_nat i := a]> t.

(** [index > -1 && (unsigned)index < table.size()]; no pointer in a table is NULL. *)
Definition in_table {A} (t : list A) (i : Z) : bool := (-1 <? i) && (i <? Z.of_nat (length t)).

(** A C string: up to the first zero. *)
Fixpoint cstr (s : list Z) : list Z :=
  match s with [] => [] | c :: s => if c =? 0 then [] else c :: cstr s end.

Definition strcmp_eq (a b : list Z) : bool := bool_decide (cstr a = cstr b).

(** The name loops: [length] characters of the request from [start] on. *)
Definition read_name (request : list Z) (start length : Z) : C (list Z) :=
  if length <? 0 then Undef
  else for_upto 0 (Z.to_nat length) (fun i (name : list Z) => let! c := aref request (i + start) in Ret (name ++ [c])) [].

Section Ops.
Variable cfg : Config.

Definition new_id {A} (t : list A) : Z := u32 (Z.of_nat (length t) + u32 (serverID cfg * 50)).

(** ** Locks *)

Definition updatePendingRequestTable (requestID : Z) (s : State) : C (Z * State) :=
  let! p := aref (requests s) requestID in
  let n := noCount p + 1 in
  let! t := aset (requests s) requestID (mkPendingRequest n (pr_opCode p) (clientID p) (clientMail p) (pr_name p)) in
  Ret (n, set_requests t s).

Definition CreateLock (lockName : list Z) (s : State) : Z * State :=
  let uniqueID := new_id (locks s) in
  (i32 uniqueID, set_locks (locks s ++ [Some (new_ServerLock lockName uniqueID)]) s).

Fixpoint getLockFromTable_loop (lockName : list Z) (t : list (option ServerLock)) : C Z :=
  match t with
  | [] => Ret (-1)
  | None :: _ => Undef
  | Some l :: t => if strcmp_eq lockName (lock_name l) then Ret (i32 (lock_id l)) else getLockFromTable_loop lockName t
  end.

Definition getLockFromTable (lockName : list Z) (s : State) : C Z := getLockFromTable_loop lockName (locks s).

Definition set_available b l := mkLock (owner l) (lock_id l) b (ownerMailBoxNum l) (lock_queue l) (lock_name l) (lock_waiters l) (lock_doomed l).
Definition set_owner o l := mkLock o (lock_id l) (available l) (ownerMailBoxNum l) (lock_queue l) (lock_name l) (lock_waiters l) (lock_doomed l).
Definition set_lock_queue q n l := mkLock (owner l) (lock_id l) (available l) (ownerMailBoxNum l) q (lock_name l) n (lock_doomed l).
Definition set_lock_doomed b l := mkLock (owner l) (lock_id l) (available l) (ownerMailBoxNum l) (lock_queue l) (lock_name l) (lock_waiters l) b.

Definition DestroyLock (index : Z) (s : State) : C State :=
  if in_table (locks s) index then
    let! l := deref (locks s) index in
    Ret (set_locks (store (locks s) index
      (if (lock_waiters l =? 0) && available l then None else Some (set_lock_doomed true l))) s)
  else Ret s.

Definition Acquire (index : Z) (s : State) : C (Z * State) :=
  if in_table (locks s) index then
    let! l := deref (locks s) index in
    if available l then Ret (0, set_locks (store (locks s) index (Some (set_available false l))) s)
    else Ret (1, s)
  else Ret (-1, s).

(** [waitQueue->Append(reply); numWaiters++] on a lock. *)
Definition enqueue (r : ReplyMsg) (l : ServerLock) : ServerLock :=
  set_lock_queue (Seq.Append r (lock_queue l)) (lock_waiters l + 1) l.

(** The hand-over to the first waiter, shared by Release and Wait. *)
Definition hand_over (l : ServerLock) : C (ServerLock * Message) :=
  match Seq.Remove (lock_queue l) with
  | (Some r, q) =>
      Ret (set_owner (idToSendTo r) (set_lock_queue q (lock_waiters l - 1) l),
           mkMessage (idToSendTo r) (boxToSendTo r) (take (Z.to_nat (msgLength r)) (responseMsg r)))
  | (None, _) => Undef
  end.

Definition Release (index : Z) (s : State) : C (State * list Message) :=
  let! l := deref (locks s) index in
  if 0 <? lock_waiters l then
    let! (l, m) := hand_over l in
    Ret (set_locks (store (locks s) index (Some l)) s, [m])
  else if lock_doomed l then Ret (set_locks (store (locks s) index None) s, [])
  else Ret (set_locks (store (locks s) index (Some (set_available true (set_owner (-1) l)))) s, []).

(** ** Condition variables *)

Fixpoint find_cv (cvName : list Z) (t : list (option ServerCV)) (i : Z) : C (option Z) :=
  match t with
  | [] => Ret None
  | None :: _ => Undef
  | Some c :: t => if strcmp_eq cvName (cv_name c) then Ret (Some i) else find_cv cvName t (i + 1)
  end.

Definition CreateCV (cvName : list Z) (s : State) : C (Z * State) :=
  let! found := find_cv cvName (cvs s) 0 in
  match found with
  | Some i => Ret (i, s)
  | None =>
      let uniqueID := new_id (cvs s) in
      Ret (i32 uniqueID, set_cvs (cvs s ++ [Some (new_ServerCV cvName uniqueID)]) s)
  end.

Definition set_cv_queue q n c := mkCV (serverLockIndex c) (cv_id c) q (cv_name c) (cv_doomed c) n.
Definition set_cv_doomed b c := mkCV (serverLockIndex c) (cv_id c) (cv_queue c) (cv_name c) b (cv_waiters c).
Definition set_cv_lock i c := mkCV i (cv_id c) (cv_queue c) (cv_name c) (cv_doomed c) (cv_waiters c).

(** Moving the first waiter of the condition to the queue of its lock. *)
Definition transfer (c : ServerCV) (lockIndex : Z) (s : State) : C (ServerCV * State) :=
  match Seq.Remove (cv_queue c) with
  | (Some r, q) =>
      let c := set_cv_queue q (cv_waiters c - 1) c in
      let! l := deref (locks s) lockIndex in
      Ret (c, set_locks (store (locks s) lockIndex (Some (enqueue r l))) s)
  | (None, _) => Undef
  end.

Definition Signal (condIndex lockIndex : Z) (s : State) : C State :=
  if in_table (cvs s) condIndex then
    let! c := deref (cvs s) condIndex in
    if serverLockIndex c =? lockIndex then
      if 0 <? cv_waiters c then
        let! (c, s) := transfer c lockIndex s in
        Ret (set_cvs (store (cvs s) condIndex
               (if (cv_waiters c =? 0) && cv_doomed c then None else Some c)) s)
      else if cv_doomed c then Ret (set_cvs (store (cvs s) condIndex None) s)
      else Ret s
    else Ret s
  else Ret s.

(** [while (toSignal->numWaiters > 0)]; the fuel is the number of waiters. *)
Fixpoint Broadcast_loop (fuel : nat) (c : ServerCV) (lockIndex : Z) (s : State) : C (ServerCV * State) :=
  if 0 <? cv_waiters c then
    match fuel with
    | O => Undef
    | S fuel => let! (c, s) := transfer c lockIndex s in Broadcast_loop fuel c lockIndex s
    end
  else Ret (c, s).

Definition Broadcast (condIndex lockIndex : Z) (s : State) : C State :=
  if in_table (cvs s) condIndex then
    let! c := deref (cvs s) condIndex in
    if serverLockIndex c =? lockIndex then
      let! (c, s) := Broadcast_loop (Z.to_nat (cv_waiters c)) c lockIndex s in
      Ret (set_cvs (store (cvs s) condIndex (if cv_doomed c then None else Some c)) s)
    else Ret s
  else Ret s.

Definition Wait (condIndex lockIndex : Z) (s : State) : C (State * list Message) :=
  let! c := deref (cvs s) condIndex in
  let s := set_cvs (store (cvs s) condIndex (Some (set_cv_lock lockIndex c))) s in
  let! l := deref (locks s) lockIndex in
  if 0 <? lock_waiters l then
    let! (l, m) := hand_over l in
    Ret (set_locks (store (locks s) lockIndex (Some l)) s, [m])
  else Ret (set_locks (store (locks s) lockIndex (Some (set_available true (set_owner (-1) l)))) s, []).

Definition DestroyCV (index : Z) (s : State) : C State :=
  if in_table (cvs s) index then
    let! c := deref (cvs s) index in
    Ret (set_cvs (store (cvs s) index (if cv_waiters c =? 0 then None else Some (set_cv_doomed true c))) s)
  else Ret s.

(** ** Monitor variables *)

Fixpoint find_mv (name : list Z) (t : list (option ServerMV)) (i : Z) : C (option Z) :=
  match t with
  | [] => Ret None
  | None :: _ => Undef
  | Some v :: t => if strcmp_eq name (mv_name v) then Ret (Some i) else find_mv name t (i + 1)
  end.

Definition CreateMV (mv_Name : list Z) (numElements : Z) (s : State) : C (Z * State) :=
  let! found := find_mv mv_Name (mvs s) 0 in
  match found with
  | Some i => Ret (i, s)
  | None =>
      let uniqueID := new_id (mvs s) in
      let! v := new_ServerMV numElements mv_Name uniqueID in
      Ret (i32 uniqueID, set_mvs (mvs s ++ [Some v]) s)
  end.

Definition SetMV (index arrayIndex value : Z) (s : State) : C State :=
  if in_table (mvs s) index then
    let! v := deref (mvs s) index in
    if (-1 <? arrayIndex) && (arrayIndex <? numElements v) then
      let! vs := aset (values v) arrayIndex value in
      Ret (set_mvs (store (mvs s) index (Some (mkMV vs (mv_id v) (mv_name v) (numElements v)))) s)
    else Ret s
  else Ret s.

Definition GetMV (index arrayIndex : Z) (s : State) : C Z :=
  if in_table (mvs s) index then
    let! v := deref (mvs s) index in
    if (-1 <? arrayIndex) && (arrayIndex <? numElements v) then aref (values v) arrayIndex else Ret (-1)
  else Ret (-1).

Definition DestroyMV (index : Z) (s : State) : C State :=
  if in_table (mvs s) index then
    let! _ := deref (mvs s) index in Ret (set_mvs (store (mvs s) index None) s)
  else Ret s.

(** ** One message: a case of the switch each

    [from] and [box] are [inPktHdr.from] and [inMailHdr.from]. *)

(** [response[0] = c; outMailHdr.length = 1; postOffice->Send(...)] *)
Definition reply (from box c : Z) : Message := mkMessage from box [i8 c].

(** The parked reply of a client that has to wait. *)
Definition parked_reply (from box : Z) : ReplyMsg := mkReply from box 1 [i8 255].

Definition handle_CreateLock (from box : Z) (request : list Z) (s : State) : C (State * list Message) :=
  let! nameLength := aref request 1 in
  let! lockName := read_name request 2 nameLength in
  let! index := getLockFromTable lockName s in
  if negb (index =? -1) then Ret (s, [reply from box index])
  else if numServers cfg =? 1 then
    let '(index, s) := CreateLock lockName s in
    Ret (s, [reply from box index])
  else if 40 <? 5 + nameLength then Undef
  else
    let response := [13; i8 from; i8 box; nameLength; i8 (Z.of_nat (length (requests s)))] ++ lockName in
    let s := set_requests (requests s ++ [new_PendingRequest 0 from box lockName]) s in
    Ret (s, (fun i => mkMessage i 0 response) <$>
              filter (fun i => i <> serverID cfg) (seqZ 0 (numServers cfg))).

Definition handle_Acquire (from box : Z) (request : list Z) (s : State) : C (State * list Message) :=
  let! index := aref request 1 in
  let! (canAcquire, s) := Acquire index s in
  if canAcquire =? 0 then
    let! l := deref (locks s) index in
    Ret (set_locks (store (locks s) index (Some (set_owner from l))) s, [reply from box 255])
  else if canAcquire =? 1 then
    let! l := deref (locks s) index in
    Ret (set_locks (store (locks s) index (Some (enqueue (parked_reply from box) l))) s, [])
  else Ret (s, [reply from box 255]).

(** [lockIndex > -1 && ... && serverLockTable.at(lockIndex)->owner == inPktHdr.from] *)
Definition owned_by (from lockIndex : Z) (s : State) : C bool :=
  if in_table (locks s) lockIndex then
    let! l := deref (locks s) lockIndex in Ret (owner l =? from)
  else Ret false.

Definition handle_Release (from box : Z) (request : list Z) (s : State) : C (State * list Message) :=
  let! index := aref request 1 in
  let! mine := owned_by from index s in
  let! (s, out) := (if (mine : bool) then Release index s else Ret (s, [])) in
  Ret (s, out ++ [reply from box 255]).

Definition handle_DestroyLock (from box : Z) (request : list Z) (s : State) : C (State * list Message) :=
  let! index := aref request 1 in
  let! s := DestroyLock index s in
  Ret (s, [reply from box 255]).

Definition handle_CreateCV (from box : Z) (request : list Z) (s : State) : C (State * list Message) :=
  let! nameLength := aref request 1 in
  let! cvName := read_name request 2 nameLength in
  let! (index, s) := CreateCV cvName s in
  Ret (s, [reply from box index]).

Definition handle_Signal (from box : Z) (request : list Z) (s : State) : C (State * list Message) :=
  let! condIndex := aref request 1 in
  let! lockIndex := aref request 2 in
  let! mine := owned_by from lockIndex s in
  let! s := (if (mine : bool) then Signal condIndex lockIndex s else Ret s) in
  Ret (s, [reply from box 255]).

Definition handle_Broadcast (from box : Z) (request : list Z) (s : State) : C (State * list Message) :=
  let! condIndex := aref request 1 in
  let! lockIndex := aref request 2 in
  let! mine := owned_by from lockIndex s in
  let! s := (if (mine : bool) then Broadcast condIndex lockIndex s else Ret s) in
  Ret (s, [reply from box 255]).

(** The condition exists and is bound to this lock or to none. *)
Definition waitable (condIndex lockIndex : Z) (s : State) : C bool :=
  if in_table (cvs s) condIndex then
    let! c := deref (cvs s) condIndex in
    Ret ((serverLockIndex c =? lockIndex) || (serverLockIndex c =? -1))
  else Ret false.

Definition handle_Wait (from box : Z) (request : list Z) (s : State) : C (State * list Message) :=
  let! condIndex := aref request 1 in
  let! lockIndex := aref request 2 in
  let! mine := owned_by from lockIndex s in
  let! good := (if (mine : bool) then waitable condIndex lockIndex s else Ret false) in
  if (good : bool) then
    let! (s, out) := Wait condIndex lockIndex s in
    let! c := deref (cvs s) condIndex in
    let c := set_cv_queue (Seq.Append (parked_reply from box) (cv_queue c)) (cv_waiters c + 1) c in
    Ret (set_cvs (store (cvs s) condIndex (Some c)) s, out)
  else Ret (s, [reply from box 255]).

Definition handle_DestroyCV (from box : Z) (request : list Z) (s : State) : C (State * list Message) :=
  let! index := aref request 1 in
  let! s := DestroyCV index s in
  Ret (s, [reply from box 255]).

Definition handle_CreateMV (from box : Z) (request : list Z) (s : State) : C (State * list Message) :=
  let! length := aref request 1 in
  let! mv_Name := read_name request 2 length in
  let! numElements := aref request (length + 2) in
  let! (index, s) := CreateMV mv_Name numElements s in
  Ret (s, [reply from box index]).

Definition handle_SetMV (from box : Z) (request : list Z) (s : State) : C (State * list Message) :=
  let! index := aref request 1 in
  let! arrayIndex := aref request 2 in
  let! value := aref request 3 in
  let! s := SetMV index arrayIndex value s in
  Ret (s, [reply from box 127]).

Definition handle_GetMV (from box : Z) (request : list Z) (s : State) : C (State * list Message) :=
  let! index := aref request 1 in
  let! mv_arrayIndex := aref request 2 in
  let! returnval := GetMV index mv_arrayIndex s in
  Ret (s, [reply from box returnval]).

Definition handle_DestroyMV (from box : Z) (request : list Z) (s : State) : C (State * list Message) :=
  let! index := aref request 1 in
  let! s := DestroyMV index s in
  Ret (s, [reply from box 127]).

(** Another server asks for a lock by name on behalf of a client. *)
Definition handle_server_request (from box : Z) (request : list Z) (s : State) : C (State * list Message) :=
  let! requestingClientID := aref request 1 in
  let! requestingClientMail := aref request 2 in
  let! length := aref request 3 in
  let! responseID := aref request 4 in
  let! locksName := read_name request 5 length in
  let! index := getLockFromTable locksName s in
  if negb (index =? -1) then
    Ret (s, [mkMessage from box [14; 1; i8 responseID]; reply requestingClientID requestingClientMail index])
  else Ret (s, [mkMessage from box [14; 0; i8 responseID]]).

(** The answer of another server. [stale] is what the new response buffer holds:
    the source takes the request number from it. *)
Definition handle_server_response (stale : list Z) (request : list Z) (s : State) : C (State * list Message) :=
  let! no := aref request 1 in
  if no =? 0 then
    let! responseID := aref stale 2 in
    let! (numNos, s) := updatePendingRequestTable responseID s in
    if numNos =? numServers cfg - 1 then
      let! pr := aref (requests s) responseID in
      let '(index, s) := CreateLock (pr_name pr) s in
      Ret (s, [reply (clientID pr) (clientMail pr) index])
    else Ret (s, [])
  else Ret (s, []).

(** The switch. *)
Definition handle (stale : list Z) (from box : Z) (request : list Z) (s : State) : C (State * list Message) :=
  let! opCode := aref request 0 in
  match opCode with
  | 0 => handle_CreateLock from box request s
  | 1 => handle_Acquire from box request s
  | 2 => handle_Release from box request s
  | 3 => handle_DestroyLock from box request s
  | 4 => handle_CreateCV from box request s
  | 5 => handle_Signal from box request s
  | 6 => handle_Broadcast from box request s
  | 7 => handle_Wait from box request s
  | 8 => handle_DestroyCV from box request s
  | 9 => handle_CreateMV from box request s
  | 10 => handle_SetMV from box request s
  | 11 => handle_GetMV from box request s
  | 12 => handle_DestroyMV from box request s
  | 13 => handle_server_request from box request s
  | 14 => handle_server_response stale request s
  | _ => Ret (s, [])
  end.

(** The 40-byte buffer, cleared and then filled by [postOffice->Receive]. *)
Definition buffer (data : list Z) : list Z := take 40 (data ++ replicate 40 0).

(** [while (true)], for the messages in mailbox 0. *)
Fixpoint Server (stale : list Z) (inbox : list (Z * Z * list Z)) (s : State) : C (State * list Message) :=
  match inbox with
  | [] => Ret (s, [])
  | (from, box, data) :: inbox =>
      let! (s, out) := handle stale from box (buffer data) s in
      let! (s, outs) := Server stale inbox s in
      Ret (s, out ++ outs)
  end.
End Ops.

Definition new_State : State := mkState [] [] [] [].

(** ** The contract: monitors *)

Module Monitor.

(** A lock has a holding machine and a queue of clients (machine, mailbox); a
    condition variable is bound to the lock it was first waited on with. *)
Record MLock := mkMLock { holder : option Z; queue : list (Z * Z) }.
Record MCond := mkMCond { bound : option Z; sleepers : list (Z * Z) }.
Record Monitors := mkMonitors { mlocks : list MLock; mconds : list MCond }.

Inductive op :=
| OAcquire (lock : Z) | ORelease (lock : Z) | OSignal (cond lock : Z) | OBroadcast (cond lock : Z)
| OWait (cond lock : Z).

Definition at_ {A} (l : list A) (i : Z) : option A := if 0 <=? i then l !! Z.to_nat i else None.
Definition put_lock (i : Z) (l : MLock) (M : Monitors) : Monitors :=
  mkMonitors (<[Z.to_nat i := l]> (mlocks M)) (mconds M).
Definition put_cond (i : Z) (c : MCond) (M : Monitors) : Monitors :=
  mkMonitors (mlocks M) (<[Z.to_nat i := c]> (mconds M)).

(** The lock goes to the first client of the queue, or becomes free. *)
Definition pass_on (l : MLock) : MLock * list (Z * Z) :=
  match queue l with
  | [] => (mkMLock None [], [])
  | c :: q => (mkMLock (Some c.1) q, [c])
  end.

(** Lock [i], when machine [m] holds it. *)
Definition held (m i : Z) (M : Monitors) : option MLock :=
  match at_ (mlocks M) i with
  | Some l => if decide (holder l = Some m) then Some l else None
  | None => None
  end.

(** One request of [client]: the new monitors and the clients that are answered. *)
Definition step (client : Z * Z) (o : op) (M : Monitors) : Monitors * list (Z * Z) :=
  match o with
  | OAcquire i =>
      match at_ (mlocks M) i with
      | None => (M, [client])
      | Some l =>
          match holder l with
          | None => (put_lock i (mkMLock (Some client.1) (queue l)) M, [client])
          | Some _ => (put_lock i (mkMLock (holder l) (queue l ++ [client])) M, [])
          end
      end
  | ORelease i =>
      match held client.1 i M with
      | None => (M, [client])
      | Some l => let '(l, granted) := pass_on l in (put_lock i l M, granted ++ [client])
      end
  | OSignal c i =>
      match held client.1 i M, at_ (mconds M) c with
      | Some l, Some v =>
          match sleepers v with
          | x :: xs =>
              if decide (bound v = Some i) then
                (put_cond c (mkMCond (bound v) xs) (put_lock i (mkMLock (holder l) (queue l ++ [x])) M), [client])
              else (M, [client])
          | [] => (M, [client])
          end
      | _, _ => (M, [client])
      end
  | OBroadcast c i =>
      match held client.1 i M, at_ (mconds M) c with
      | Some l, Some v =>
          if decide (bound v = Some i) then
            (put_cond c (mkMCond (bound v) []) (put_lock i (mkMLock (holder l) (queue l ++ sleepers v)) M), [client])
          else (M, [client])
      | _, _ => (M, [client])
      end
  | OWait c i =>
      match held client.1 i M, at_ (mconds M) c with
      | Some l, Some v =>
          if decide (bound v = Some i \/ bound v = None) then
            let '(l, granted) := pass_on l in
            (put_cond c (mkMCond (Some i) (sleepers v ++ [client])) (put_lock i l M), granted)
          else (M, [client])
      | _, _ => (M, [client])
      end
  end.

(** Every client that has asked and has not been answered. *)
Definition parked (M : Monitors) : list (Z * Z) :=
  (mlocks M ≫= queue) ++ (mconds M ≫= sleepers).

Lemma bind_insert {A B} (f : A -> list B) (l : list A) (i : nat) (x y : A) (zs : list B) :
  l !! i = Some x -> f y ≡ₚ f x ++ zs -> (<[i := y]> l) ≫= f ≡ₚ (l ≫= f) ++ zs.
Proof.
  revert i. induction l as [|a l IH]; intros [|i] Hi Hf; simplify_eq/=.
  - rewrite Hf. by rewrite <- !app_assoc, (Permutation_app_comm zs).
  - by rewrite (IH i Hi Hf), app_assoc.
Qed.

Lemma bind_remove {A B} (f : A -> list B) (l : list A) (i : nat) (x y : A) (zs : list B) :
  l !! i = Some x -> f x ≡ₚ f y ++ zs -> l ≫= f ≡ₚ ((<[i := y]> l) ≫= f) ++ zs.
Proof.
  intros Hi Hf. rewrite <- (list_insert_id l i x Hi) at 1. rewrite <- (list_insert_insert_eq l i x y).
  apply bind_insert with y; [|done]. apply list_lookup_insert_eq. by eapply lookup_lt_Some.
Qed.

Lemma at_Some {A} (l : list A) i a : at_ l i = Some a <-> 0 <= i /\ l !! Z.to_nat i = Some a.
Proof. unfold at_. destruct (Z.leb_spec 0 i); naive_solver lia. Qed.

Lemma held_Some m i M l : held m i M = Some l <-> at_ (mlocks M) i = Some l /\ holder l = Some m.
Proof. unfold held. destruct (at_ _ _); [destruct (decide _)|]; naive_solver. Qed.

(** Handing a lock on answers exactly the client that leaves its queue. *)
Lemma parked_pass_on M i l :
  at_ (mlocks M) i = Some l ->
  (pass_on l).2 ++ parked (put_lock i (pass_on l).1 M) ≡ₚ parked M.
Proof.
  intros [_ Hl]%at_Some. unfold parked, pass_on. cbn.
  destruct (queue l) as [|c q] eqn:E; cbn.
  - pose proof (bind_remove queue (mlocks M) _ l (mkMLock None []) [] Hl) as H.
    rewrite E in H. rewrite (H ltac:(done)), app_nil_r. done.
  - pose proof (bind_remove queue (mlocks M) _ l (mkMLock (Some c.1) q) [c] Hl) as H.
    rewrite E in H. rewrite H by (cbn; by rewrite Permutation_app_comm).
    rewrite <- app_assoc. symmetry. cbn. by rewrite <- Permutation_middle.
Qed.

(** The locks do not change when a condition does, and the other way round. *)
Lemma parked_put_cond M c v v' zs :
  at_ (mconds M) c = Some v -> sleepers v' ≡ₚ sleepers v ++ zs ->
  parked (put_cond c v' M) ≡ₚ parked M ++ zs.
Proof.
  intros [_ Hv]%at_Some Hz. unfold parked. cbn. rewrite (bind_insert sleepers _ _ v v' zs) by done.
  by rewrite app_assoc.
Qed.

Lemma parked_put_lock M i l l' zs :
  at_ (mlocks M) i = Some l -> queue l' ≡ₚ queue l ++ zs ->
  parked (put_lock i l' M) ≡ₚ parked M ++ zs.
Proof.
  intros [_ Hl]%at_Some Hz. unfold parked. cbn. rewrite (bind_insert queue _ _ l l' zs) by done.
  rewrite <- !app_assoc. apply Permutation_app_head, Permutation_app_comm.
Qed.

(** Taking sleepers away. *)
Lemma parked_wake M c v v' zs :
  at_ (mconds M) c = Some v -> sleepers v ≡ₚ sleepers v' ++ zs ->
  parked (put_cond c v' M) ++ zs ≡ₚ parked M.
Proof.
  intros [_ Hv]%at_Some Hz. unfold parked. cbn.
  rewrite (bind_remove sleepers (mconds M) _ v v' zs) by done. by rewrite app_assoc.
Qed.

(** No client is forgotten and none is answered twice: after a request, the
    clients answered and those still waiting are those that waited before and the
    one that asked. *)
Lemma step_conserves client o M :
  (step client o M).2 ++ parked (step client o M).1 ≡ₚ client :: parked M.
Proof.
  destruct o as [i|i|c i|c i|c i]; cbn [step].
  - destruct (at_ (mlocks M) i) as [l|] eqn:El; [|done]. destruct (holder l) eqn:Eh; cbn [fst snd].
    + rewrite (parked_put_lock M i l _ [client] El) by reflexivity. symmetry. apply Permutation_cons_append.
    + rewrite (parked_put_lock M i l _ [] El) by (cbn; by rewrite app_nil_r). by rewrite app_nil_r.
  - destruct (held client.1 i M) as [l|] eqn:Eh; [|done]. apply held_Some in Eh as [El _].
    pose proof (parked_pass_on M i l El) as Hp. destruct (pass_on l) as [l' granted]. cbn [fst snd] in *.
    rewrite <- Hp. rewrite <- app_assoc. cbn [app]. by rewrite <- Permutation_middle.
  - destruct (held client.1 i M) as [l|] eqn:Eh; [|done]. apply held_Some in Eh as [El _].
    destruct (at_ (mconds M) c) as [v|] eqn:Ev; [|done]. destruct (sleepers v) as [|x xs] eqn:Es; [done|].
    destruct (decide _); [|done]. cbn [fst snd app]. constructor.
    pose proof (parked_put_lock M i l (mkMLock (holder l) (queue l ++ [x])) [x] El ltac:(reflexivity)) as H1.
    pose proof (parked_wake (put_lock i (mkMLock (holder l) (queue l ++ [x])) M) c v (mkMCond (bound v) xs) [x] Ev) as H2.
    rewrite Es in H2. specialize (H2 ltac:(cbn; by rewrite (Permutation_app_comm xs))).
    eapply Permutation_app_inv_r. by rewrite H2, H1.
  - destruct (held client.1 i M) as [l|] eqn:Eh; [|done]. apply held_Some in Eh as [El _].
    destruct (at_ (mconds M) c) as [v|] eqn:Ev; [|done]. destruct (decide _); [|done]. cbn [fst snd app]. constructor.
    pose proof (parked_put_lock M i l (mkMLock (holder l) (queue l ++ sleepers v)) (sleepers v) El ltac:(reflexivity)) as H1.
    pose proof (parked_wake (put_lock i (mkMLock (holder l) (queue l ++ sleepers v)) M) c v (mkMCond (bound v) []) (sleepers v) Ev ltac:(reflexivity)) as H2.
    eapply Permutation_app_inv_r. by rewrite H2, H1.
  - destruct (held client.1 i M) as [l|] eqn:Eh; [|done]. apply held_Some in Eh as [El _].
    destruct (at_ (mconds M) c) as [v|] eqn:Ev; [|done]. destruct (decide _); [|done].
    pose proof (parked_pass_on M i l El) as Hp. destruct (pass_on l) as [l' granted]. cbn [fst snd] in *.
    rewrite (parked_put_cond (put_lock i l' M) c v _ [client]) by (done || reflexivity).
    rewrite app_assoc, Hp. symmetry. apply Permutation_cons_append.
Qed.
End Monitor.

(** ** The server implements monitors *)

Section Refinement.
Variable cfg : Config.

Definition client_of (e : Z * ReplyMsg) : Z * Z := (idToSendTo e.2, boxToSendTo e.2).
Definition dest (m : Message) : Z * Z := (to_machine m, to_box m).

(** A parked reply is the one-byte acknowledgement of a real machine. *)
Definition ok_parked (e : Z * ReplyMsg) : Prop :=
  msgLength e.2 = 1 /\ responseMsg e.2 = [-1] /\ 0 <= idToSendTo e.2.

Record wf_lock (l : ServerLock) : Prop := {
  lock_count : lock_waiters l = Z.of_nat (length (lock_queue l));
  lock_parked : Forall ok_parked (lock_queue l);
  lock_free : available l = (owner l =? -1);
  lock_idle : available l = true -> lock_queue l = [];
  lock_owner : -1 <= owner l
}.

Record wf_cv (c : ServerCV) : Prop := {
  cv_count : cv_waiters c = Z.of_nat (length (cv_queue c));
  cv_parked : Forall ok_parked (cv_queue c)
}.

(** Nothing destroyed, nothing about to be. *)
Definition ok_lock (e : option ServerLock) : Prop := exists l, e = Some l /\ wf_lock l /\ lock_doomed l = false.
Definition ok_cv (e : option ServerCV) : Prop := exists c, e = Some c /\ wf_cv c /\ cv_doomed c = false.
Definition pristine (s : State) : Prop := Forall ok_lock (locks s) /\ Forall ok_cv (cvs s).

Definition abs_lock (l : ServerLock) : Monitor.MLock :=
  Monitor.mkMLock (if available l then None else Some (owner l)) (client_of <$> lock_queue l).
Definition abs_cv (c : ServerCV) : Monitor.MCond :=
  Monitor.mkMCond (if serverLockIndex c =? -1 then None else Some (serverLockIndex c)) (client_of <$> cv_queue c).
Definition the_lock (e : option ServerLock) : ServerLock := default (new_ServerLock [] 0) e.
Definition the_cv (e : option ServerCV) : ServerCV := default (new_ServerCV [] 0) e.
Definition abs (s : State) : Monitor.Monitors :=
  Monitor.mkMonitors (abs_lock ∘ the_lock <$> locks s) (abs_cv ∘ the_cv <$> cvs s).

(** A request on the wire. *)
Definition encode_op (o : Monitor.op) : list Z :=
  match o with
  | Monitor.OAcquire i => [1; i]
  | Monitor.ORelease i => [2; i]
  | Monitor.OSignal c i => [5; c; i]
  | Monitor.OBroadcast c i => [6; c; i]
  | Monitor.OWait c i => [7; c; i]
  end.

Lemma in_table_spec {A} (t : list A) i : in_table t i = true <-> 0 <= i < Z.of_nat (length t).
Proof. unfold in_table. rewrite andb_true_iff, !Z.ltb_lt. lia. Qed.

Lemma deref_live {A} (t : list (option A)) i a :
  0 <= i -> t !! Z.to_nat i = Some (Some a) -> deref t i = Ret a.
Proof.
  intros Hi Ha. unfold deref. pose proof (lookup_lt_Some _ _ _ Ha).
  rewrite (proj2 (Z.leb_le 0 i)), (proj2 (Z.ltb_lt i _)) by lia. cbn. by rewrite Ha.
Qed.

(** An index of the lock table, seen from both sides. *)
Lemma lock_at s i : pristine s ->
  match Monitor.at_ (Monitor.mlocks (abs s)) i with
  | None => in_table (locks s) i = false
  | Some a => exists l, in_table (locks s) i = true /\ deref (locks s) i = Ret l /\
      locks s !! Z.to_nat i = Some (Some l) /\ wf_lock l /\ lock_doomed l = false /\ a = abs_lock l
  end.
Proof.
  intros [Hl _]. destruct (Monitor.at_ _ i) as [a|] eqn:E.
  - apply Monitor.at_Some in E as [Hi Ha]. cbn in Ha. rewrite list_lookup_fmap in Ha.
    destruct (locks s !! Z.to_nat i) as [e|] eqn:Ee; [|done]. injection Ha as <-.
    destruct (Forall_lookup_1 _ _ _ _ Hl Ee) as (l & -> & Hwf & Hd). exists l.
    split; [apply in_table_spec; pose proof (lookup_lt_Some _ _ _ Ee); lia|].
    split; [by apply deref_live|]. done.
  - apply not_true_is_false. intros Ht%in_table_spec. unfold Monitor.at_ in E.
    rewrite (proj2 (Z.leb_le 0 i)) in E by lia. cbn in E. rewrite list_lookup_fmap, fmap_None in E.
    apply lookup_ge_None in E. lia.
Qed.

Lemma cv_at s c : pristine s ->
  match Monitor.at_ (Monitor.mconds (abs s)) c with
  | None => in_table (cvs s) c = false
  | Some a => exists v, in_table (cvs s) c = true /\ deref (cvs s) c = Ret v /\
      cvs s !! Z.to_nat c = Some (Some v) /\ wf_cv v /\ cv_doomed v = false /\ a = abs_cv v
  end.
Proof.
  intros [_ Hc]. destruct (Monitor.at_ _ c) as [a|] eqn:E.
  - apply Monitor.at_Some in E as [Hi Ha]. cbn in Ha. rewrite list_lookup_fmap in Ha.
    destruct (cvs s !! Z.to_nat c) as [e|] eqn:Ee; [|done]. injection Ha as <-.
    destruct (Forall_lookup_1 _ _ _ _ Hc Ee) as (v & -> & Hwf & Hd). exists v.
    split; [apply in_table_spec; pose proof (lookup_lt_Some _ _ _ Ee); lia|].
    split; [by apply deref_live|]. done.
  - apply not_true_is_false. intros Ht%in_table_spec. unfold Monitor.at_ in E.
    rewrite (proj2 (Z.leb_le 0 c)) in E by lia. cbn in E. rewrite list_lookup_fmap, fmap_None in E.
    apply lookup_ge_None in E. lia.
Qed.

Lemma pristine_lock s i l :
  pristine s -> wf_lock l -> lock_doomed l = false -> pristine (set_locks (store (locks s) i (Some l)) s).
Proof. intros [Hl Hc] Hwf Hd. split; [|done]. apply Forall_insert; [done|]. by exists l. Qed.

Lemma pristine_cv s i c :
  pristine s -> wf_cv c -> cv_doomed c = false -> pristine (set_cvs (store (cvs s) i (Some c)) s).
Proof. intros [Hl Hc] Hwf Hd. split; [done|]. apply Forall_insert; [done|]. by exists c. Qed.

Lemma abs_put_lock s i l :
  abs (set_locks (store (locks s) i (Some l)) s) = Monitor.put_lock i (abs_lock l) (abs s).
Proof. unfold abs, Monitor.put_lock, store. cbn. by rewrite list_fmap_insert. Qed.

Lemma abs_put_cv s i c :
  abs (set_cvs (store (cvs s) i (Some c)) s) = Monitor.put_cond i (abs_cv c) (abs s).
Proof. unfold abs, Monitor.put_cond, store. cbn. by rewrite list_fmap_insert. Qed.

(** What a handler achieves, against the step of the contract. *)
Definition refines (r : C (State * list Message)) (m : Monitor.Monitors * list (Z * Z)) (s : State) : Prop :=
  exists s' out, r = Ret (s', out) /\ pristine s' /\ m = (abs s', dest <$> out) /\
    Forall (fun m => payload m = [-1]) out /\ mvs s' = mvs s /\ requests s' = requests s.

Lemma refines_nop s from box : pristine s -> refines (Ret (s, [reply from box 255])) (abs s, [(from, box)]) s.
Proof. intros Hs. exists s, [reply from box 255]. do 3 (split; [done|]). by split; [repeat constructor|]. Qed.

(** The hand-over of a lock. *)
Lemma hand_over_spec l :
  wf_lock l -> lock_doomed l = false -> lock_queue l <> [] ->
  exists l' m, hand_over l = Ret (l', m) /\ wf_lock l' /\ lock_doomed l' = false /\ payload m = [-1] /\
    Monitor.pass_on (abs_lock l) = (abs_lock l', [dest m]).
Proof.
  intros [Hc Hp Hf Hi Ho] Hd Hq. unfold hand_over, Monitor.pass_on, abs_lock.
  destruct (lock_queue l) as [|[k r] q] eqn:E; [done|]. cbn [Seq.Remove Seq.SortedRemove fst snd].
  apply Forall_cons in Hp as [(Hl & Hm & Hid) Hp]. cbn [snd] in *.
  assert (available l = false) as Ha by (destruct (available l); [by discriminate Hi | done]).
  do 2 eexists. split; [done|]. split; [|split; [done|split]].
  - split; cbn; try done.
    + rewrite Hc. cbn. lia.
    + rewrite Ha. symmetry. apply Z.eqb_neq. lia.
    + by rewrite Ha.
    + lia.
  - cbn. by rewrite Hl, Hm.
  - cbn. by rewrite Ha.
Qed.

Definition freed (l : ServerLock) : ServerLock := set_available true (set_owner (-1) l).

(** Giving up a lock, in Release and in Wait. *)
Lemma lock_given_up l :
  wf_lock l -> lock_doomed l = false -> available l = false ->
  (0 <? lock_waiters l = true /\ exists l' m, hand_over l = Ret (l', m) /\ wf_lock l' /\
     lock_doomed l' = false /\ payload m = [-1] /\
     Monitor.pass_on (abs_lock l) = (abs_lock l', [dest m])) \/
  (0 <? lock_waiters l = false /\ wf_lock (freed l) /\ Monitor.pass_on (abs_lock l) = (abs_lock (freed l), [])).
Proof.
  intros Hwf Hd Ha. pose proof (lock_count l Hwf) as Hc. destruct (lock_queue l) as [|e q] eqn:E.
  - right. rewrite Hc. split; [done|]. split.
    + pose proof (lock_parked l Hwf). split; cbn; try done. by rewrite E.
    + unfold Monitor.pass_on, abs_lock, freed. cbn. by rewrite E.
  - left. rewrite Hc. split; [done|]. apply hand_over_spec; [done..|]. by rewrite E.
Qed.

Lemma owned_by_spec s from i :
  pristine s -> 0 <= from ->
  match Monitor.held from i (abs s) with
  | None => owned_by from i s = Ret false
  | Some a => owned_by from i s = Ret true /\ exists l, deref (locks s) i = Ret l /\ wf_lock l /\
      lock_doomed l = false /\ available l = false /\ a = abs_lock l /\ 0 <= i /\ in_table (locks s) i = true
  end.
Proof.
  intros Hs Hfrom. unfold Monitor.held, owned_by. pose proof (lock_at s i Hs) as H.
  destruct (Monitor.at_ _ _) as [a|]; [|by rewrite H].
  destruct H as (l & Hin & Hd & _ & Hwf & Hdoom & ->). rewrite Hin, Hd. cbn [bind].
  pose proof (lock_free l Hwf) as Hf. cbn. destruct (available l) eqn:Ha.
  - rewrite decide_False by done. symmetry in Hf. apply Z.eqb_eq in Hf.
    rewrite (proj2 (Z.eqb_neq _ _)) by lia. done.
  - destruct (decide (Some (owner l) = Some from)) as [[= ->]|Hne].
    + rewrite Z.eqb_refl. split; [done|]. exists l. apply in_table_spec in Hin as Hin'. repeat (split; [done|]).
      split; [lia|done].
    + rewrite (proj2 (Z.eqb_neq _ _)) by congruence. done.
Qed.

Lemma wf_enqueue r l : wf_lock l -> available l = false -> ok_parked (0, r) -> wf_lock (enqueue r l).
Proof.
  intros [Hc Hp Hf Hi Ho] Ha Hr. split; cbn; try done.
  - rewrite Hc. unfold Seq.Append. rewrite length_app. cbn. lia.
  - unfold Seq.Append. apply Forall_app. split; [done|]. by constructor.
  - by rewrite Ha.
Qed.

Lemma abs_enqueue r l :
  abs_lock (enqueue r l) = Monitor.mkMLock (Monitor.holder (abs_lock l)) (Monitor.queue (abs_lock l) ++ [client_of (0, r)]).
Proof. unfold abs_lock. cbn. unfold Seq.Append. by rewrite fmap_app. Qed.

Lemma ok_parked_reply from box : 0 <= from -> ok_parked (0, parked_reply from box).
Proof. by repeat split. Qed.

Lemma Acquire_refines s from box i :
  pristine s -> 0 <= from ->
  refines (handle_Acquire from box (buffer [1; i]) s) (Monitor.step (from, box) (Monitor.OAcquire i) (abs s)) s.
Proof.
  intros Hs Hfrom. unfold handle_Acquire, Acquire. change (aref (buffer [1; i]) 1) with (Ret i). cbn [bind Monitor.step].
  pose proof (lock_at s i Hs) as H. destruct (Monitor.at_ _ _) as [a|]; [|rewrite H; by apply refines_nop].
  destruct H as (l & Hin & Hd & Hl & Hwf & Hdoom & ->). rewrite Hin, Hd. cbn [bind]. 
  apply in_table_spec in Hin. cbn [abs_lock Monitor.holder Monitor.queue].
  destruct (available l) eqn:Ha; cbn [bind Z.eqb].
  - rewrite (deref_live _ i (set_available false l)) by (try lia; apply list_lookup_insert_eq; lia). cbn [bind].
    set (l' := set_owner from (set_available false l)).
    assert (wf_lock l') as Hwf'.
    { destruct Hwf as [Hc Hp Hf Hi Ho]. split; cbn; try done; [|lia].
      symmetry. apply Z.eqb_neq. lia. }
    exists (set_locks (store (locks s) i (Some l')) s), [reply from box 255].
    split; [unfold store; cbn; by rewrite list_insert_insert_eq|].
    split; [by apply pristine_lock|]. rewrite abs_put_lock. by split; [|split; [repeat constructor|]].
  - rewrite Hd. cbn [bind].
    exists (set_locks (store (locks s) i (Some (enqueue (parked_reply from box) l))) s), [].
    split; [done|]. split; [apply pristine_lock; [done| |done]; apply wf_enqueue; [done..|by apply ok_parked_reply]|].
    rewrite abs_put_lock, abs_enqueue. cbn. rewrite Ha. by split; [|split; [constructor|]].
Qed.

Lemma Release_refines s from box i :
  pristine s -> 0 <= from ->
  refines (handle_Release from box (buffer [2; i]) s) (Monitor.step (from, box) (Monitor.ORelease i) (abs s)) s.
Proof.
  intros Hs Hfrom. unfold handle_Release. change (aref (buffer [2; i]) 1) with (Ret i). cbn [bind Monitor.step fst].
  pose proof (owned_by_spec s from i Hs Hfrom) as H. destruct (Monitor.held _ _ _) as [a|];
    [|rewrite H; by apply refines_nop].
  destruct H as (-> & l & Hd & Hwf & Hdoom & Ha & -> & Hi & _). cbn [bind]. unfold Release. rewrite Hd. cbn [bind].
  destruct (lock_given_up l Hwf Hdoom Ha) as [(-> & l' & m & -> & Hwf' & Hd' & Hpay & ->) | (-> & Hwf' & ->)].
  - cbn [bind]. exists (set_locks (store (locks s) i (Some l')) s), [m; reply from box 255].
    split; [done|]. split; [by apply pristine_lock|]. rewrite abs_put_lock.
    split; [done|]. split; [by repeat constructor|done].
  - rewrite Hdoom. cbn [bind]. exists (set_locks (store (locks s) i (Some (freed l))) s), [reply from box 255].
    split; [done|]. split; [by apply pristine_lock|]. rewrite abs_put_lock.
    split; [done|]. split; [by repeat constructor|done].
Qed.

(** The lock a condition is bound to. *)
Lemma bound_spec c i : 0 <= i ->
  (Monitor.bound (abs_cv c) = Some i <-> serverLockIndex c = i).
Proof.
  intros Hi. cbn. destruct (Z.eqb_spec (serverLockIndex c) (-1)); [|naive_solver].
  split; [done|]. lia.
Qed.

(** One transfer from the condition to the lock. *)
Lemma transfer_spec s v i l e q :
  pristine s -> 0 <= i -> in_table (locks s) i = true -> deref (locks s) i = Ret l -> wf_lock l -> lock_doomed l = false ->
  available l = false -> wf_cv v -> cv_queue v = e :: q ->
  transfer v i s = Ret (set_cv_queue q (cv_waiters v - 1) v, set_locks (store (locks s) i (Some (enqueue e.2 l))) s) /\
  wf_cv (set_cv_queue q (cv_waiters v - 1) v) /\ wf_lock (enqueue e.2 l) /\
  pristine (set_locks (store (locks s) i (Some (enqueue e.2 l))) s) /\ ok_parked (0, e.2) /\
  cvs (set_locks (store (locks s) i (Some (enqueue e.2 l))) s) = cvs s.
Proof.
  intros Hs Hi Hin Hd Hwf Hdoom Ha [Hc Hp] E. unfold transfer. rewrite E. destruct e as [k r].
  cbn [Seq.Remove Seq.SortedRemove fst snd]. rewrite Hd. cbn [bind]. rewrite E in *.
  apply Forall_cons in Hp as [Hr Hp].
  assert (wf_lock (enqueue r l)) by (by apply wf_enqueue).
  split; [done|]. split; [split; cbn; [rewrite Hc; cbn; lia | done]|]. split; [done|].
  split; [by apply pristine_lock|]. done.
Qed.

Lemma Signal_refines s from box c i :
  pristine s -> 0 <= from ->
  refines (handle_Signal from box (buffer [5; c; i]) s) (Monitor.step (from, box) (Monitor.OSignal c i) (abs s)) s.
Proof.
  intros Hs Hfrom. unfold handle_Signal. change (aref (buffer [5; c; i]) 1) with (Ret c).
  change (aref (buffer [5; c; i]) 2) with (Ret i). cbn [bind Monitor.step fst].
  pose proof (owned_by_spec s from i Hs Hfrom) as H. destruct (Monitor.held _ _ _) as [a|];
    [|rewrite H; by apply refines_nop].
  destruct H as (-> & l & Hd & Hwf & Hdoom & Ha & -> & Hi & Hin). cbn [bind]. unfold Signal.
  pose proof (cv_at s c Hs) as H. destruct (Monitor.at_ _ _) as [a|]; [|rewrite H; by apply refines_nop].
  destruct H as (v & Hcin & Hcd & Hcl & Hcwf & Hcdoom & ->). rewrite Hcin, Hcd. cbn [bind].
  pose proof (bound_spec v i Hi) as Hb. pose proof (cv_count v Hcwf) as Hcount.
  change (Monitor.sleepers (abs_cv v)) with (client_of <$> cv_queue v).
  destruct (cv_queue v) as [|e q] eqn:E; cbn [fmap list_fmap].
  - rewrite Hcount, Hcdoom. destruct (_ =? i); by apply refines_nop.
  - destruct (Z.eqb_spec (serverLockIndex v) i) as [Hbound|Hbound];
      [rewrite decide_True by tauto | rewrite decide_False by tauto; by apply refines_nop].
    rewrite (proj2 (Z.ltb_lt _ _)) by (rewrite Hcount; cbn; lia).
    destruct (transfer_spec s v i l e q Hs Hi Hin Hd Hwf Hdoom Ha Hcwf E)
      as (-> & Hwfv & Hwfl & Hs' & Hok & Hcvs). cbn [bind cv_doomed set_cv_queue]. rewrite Hcdoom, andb_false_r. cbn [bind].
    eexists _, _. split; [done|]. split; [by apply pristine_cv|].
    rewrite abs_put_cv, abs_put_lock, abs_enqueue. split; [done|]. split; [by repeat constructor|done].
Qed.

(** The loop of Broadcast moves the whole queue. *)
Lemma Broadcast_loop_spec n : forall s v i l,
  pristine s -> 0 <= i -> in_table (locks s) i = true -> deref (locks s) i = Ret l -> wf_lock l ->
  lock_doomed l = false -> available l = false -> wf_cv v -> n = length (cv_queue v) ->
  exists v' s', Broadcast_loop n v i s = Ret (v', s') /\ wf_cv v' /\ pristine s' /\ cvs s' = cvs s /\
    mvs s' = mvs s /\ requests s' = requests s /\ cv_doomed v' = cv_doomed v /\
    abs_cv v' = Monitor.mkMCond (Monitor.bound (abs_cv v)) [] /\
    abs s' = Monitor.put_lock i (Monitor.mkMLock (Monitor.holder (abs_lock l))
               (Monitor.queue (abs_lock l) ++ Monitor.sleepers (abs_cv v))) (abs s).
Proof.
  induction n as [|n IH]; intros s v i l Hs Hi Hin Hd Hwf Hdoom Ha Hcwf Hn;
    pose proof (cv_count v Hcwf) as Hcount; rewrite <- Hn in Hcount; cbn [Broadcast_loop].
  - rewrite Hcount. cbn [Z.of_nat Z.ltb Z.compare]. exists v, s. symmetry in Hn. apply nil_length_inv in Hn.
    do 7 (split; [done|]). split; [unfold abs_cv; by rewrite Hn|].
    pose proof (lock_at s i Hs) as H. destruct (Monitor.at_ _ _) as [a|] eqn:E; [|congruence].
    destruct H as (l0 & _ & Hd0 & Hl0 & _ & _ & ->). assert (l0 = l) as -> by congruence.
    apply Monitor.at_Some in E as [_ E].
    assert (Monitor.sleepers (abs_cv v) = []) as -> by (unfold abs_cv; by rewrite Hn).
    rewrite app_nil_r. unfold Monitor.put_lock. change (Monitor.mkMLock _ _) with (abs_lock l).
    by rewrite list_insert_id.
  - rewrite (proj2 (Z.ltb_lt _ _)) by (rewrite Hcount; lia).
    destruct (cv_queue v) as [|e q] eqn:E; [done|].
    destruct (transfer_spec s v i l e q Hs Hi Hin Hd Hwf Hdoom Ha Hcwf E)
      as (-> & Hwfv & Hwfl & Hs' & Hok & Hcvs). cbn [bind].
    apply in_table_spec in Hin as Hin'.
    destruct (IH _ (set_cv_queue q (cv_waiters v - 1) v) i (enqueue e.2 l) Hs' Hi)
      as (v' & s' & Hr & Hwfv' & Hps & Hc & Hm & Hq & Hdo & Hav & Has).
    + apply in_table_spec. cbn. unfold store. rewrite length_insert. lia.
    + apply deref_live; [done|]. apply list_lookup_insert_eq. lia.
    + done.
    + done.
    + done.
    + done.
    + cbn. cbn in Hn. lia.
    + exists v', s'. split; [done|]. do 6 (split; [done|]). split; [done|].
      rewrite Has, abs_put_lock, abs_enqueue. cbn [Monitor.holder Monitor.queue abs_cv Monitor.sleepers cv_queue set_cv_queue].
      unfold Monitor.put_lock. cbn. rewrite E. cbn. rewrite list_insert_insert_eq, <- app_assoc. done.
Qed.

Lemma Broadcast_refines s from box c i :
  pristine s -> 0 <= from ->
  refines (handle_Broadcast from box (buffer [6; c; i]) s) (Monitor.step (from, box) (Monitor.OBroadcast c i) (abs s)) s.
Proof.
  intros Hs Hfrom. unfold handle_Broadcast. change (aref (buffer [6; c; i]) 1) with (Ret c).
  change (aref (buffer [6; c; i]) 2) with (Ret i). cbn [bind Monitor.step fst].
  pose proof (owned_by_spec s from i Hs Hfrom) as H. destruct (Monitor.held _ _ _) as [a|];
    [|rewrite H; by apply refines_nop].
  destruct H as (-> & l & Hd & Hwf & Hdoom & Ha & -> & Hi & Hin). cbn [bind]. unfold Broadcast.
  pose proof (cv_at s c Hs) as H. destruct (Monitor.at_ _ _) as [a|]; [|rewrite H; by apply refines_nop].
  destruct H as (v & Hcin & Hcd & Hcl & Hcwf & Hcdoom & ->). rewrite Hcin, Hcd. cbn [bind].
  pose proof (bound_spec v i Hi) as Hb.
  destruct (Z.eqb_spec (serverLockIndex v) i) as [Hbound|Hbound];
    [rewrite decide_True by tauto | rewrite decide_False by tauto; by apply refines_nop].
  rewrite (cv_count v Hcwf), Nat2Z.id.
  destruct (Broadcast_loop_spec _ s v i l Hs Hi Hin Hd Hwf Hdoom Ha Hcwf eq_refl)
    as (v' & s' & -> & Hwfv & Hps & Hc & Hm & Hq & Hdo & Hav & Has). cbn [bind].
  rewrite Hdo, Hcdoom. eexists _, _. split; [done|].
  split; [apply pristine_cv; [done|done|congruence]|]. rewrite abs_put_cv, Hav, Has.
  split; [done|]. split; [by repeat constructor|done].
Qed.

Lemma Wait_refines s from box c i :
  pristine s -> 0 <= from ->
  refines (handle_Wait from box (buffer [7; c; i]) s) (Monitor.step (from, box) (Monitor.OWait c i) (abs s)) s.
Proof.
  intros Hs Hfrom. unfold handle_Wait. change (aref (buffer [7; c; i]) 1) with (Ret c).
  change (aref (buffer [7; c; i]) 2) with (Ret i). cbn [bind Monitor.step fst].
  pose proof (owned_by_spec s from i Hs Hfrom) as H. destruct (Monitor.held _ _ _) as [a|];
    [|rewrite H; by apply refines_nop].
  destruct H as (-> & l & Hd & Hwf & Hdoom & Ha & -> & Hi & Hin). cbn [bind]. unfold waitable.
  pose proof (cv_at s c Hs) as H. destruct (Monitor.at_ _ _) as [a|]; [|rewrite H; by apply refines_nop].
  destruct H as (v & Hcin & Hcd & Hcl & Hcwf & Hcdoom & ->). rewrite Hcin, Hcd. cbn [bind].
  apply in_table_spec in Hcin as Hcin'.
  assert ((serverLockIndex v =? i) || (serverLockIndex v =? -1) =
    bool_decide (Monitor.bound (abs_cv v) = Some i \/ Monitor.bound (abs_cv v) = None)) as ->.
  { cbn. destruct (Z.eqb_spec (serverLockIndex v) (-1)) as [->|Hn].
    - rewrite orb_true_r, bool_decide_true by tauto. done.
    - rewrite orb_false_r. destruct (Z.eqb_spec (serverLockIndex v) i) as [->|Hn'];
        [rewrite bool_decide_true by tauto | rewrite bool_decide_false by naive_solver]; done. }
  case_bool_decide as Hcan; [rewrite decide_True by done | rewrite decide_False by done; by apply refines_nop].
  unfold Wait. rewrite Hcd. cbn [bind set_cvs locks]. rewrite Hd. cbn [bind].
  set (v1 := set_cv_lock i v).
  set (v2 := set_cv_queue (Seq.Append (parked_reply from box) (cv_queue v)) (cv_waiters v + 1) v1).
  assert (wf_cv v2) as Hwf2.
  { destruct Hcwf as [Hc Hp]. split; cbn; unfold Seq.Append.
    - rewrite length_app. cbn. lia.
    - apply Forall_app. split; [done|]. constructor; [|done]. by apply ok_parked_reply. }
  assert (forall l', wf_lock l' -> lock_doomed l' = false ->
    let s' := set_cvs (store (store (cvs s) c (Some v1)) c (Some v2)) (set_locks (store (locks s) i (Some l')) s) in
    pristine s' /\ abs s' = Monitor.put_cond c (abs_cv v2) (Monitor.put_lock i (abs_lock l') (abs s))) as Hend.
  { intros l' Hwf' Hd'. cbn zeta. unfold store. rewrite list_insert_insert_eq. split.
    - destruct Hs as [Hsl Hsc]. split; cbn.
      + apply Forall_insert; [done|]. by exists l'.
      + apply Forall_insert; [done|]. by exists v2.
    - unfold abs, Monitor.put_cond, Monitor.put_lock, store. cbn. by rewrite !list_fmap_insert. }
  assert (abs_cv v2 = Monitor.mkMCond (Some i) (Monitor.sleepers (abs_cv v) ++ [(from, box)])) as Hv2.
  { unfold abs_cv. cbn. rewrite (proj2 (Z.eqb_neq i (-1))) by lia. unfold Seq.Append. by rewrite fmap_app. }
  assert (forall l', deref (cvs (set_locks (store (locks s) i (Some l')) (set_cvs (store (cvs s) c (Some v1)) s))) c = Ret v1) as Hderef
    by (intros; apply deref_live; [lia|]; apply list_lookup_insert_eq; lia).
  destruct (lock_given_up l Hwf Hdoom Ha) as [(-> & l' & m & -> & Hwf' & Hd' & Hpay & ->) | (-> & Hwf' & ->)]; cbn [bind].
  - destruct (Hend l' Hwf' Hd') as [Hps Habs]. rewrite <- Hv2, <- Habs.
    eexists _, [m]. split; [by rewrite Hderef|]. split; [done|]. split; [done|]. split; [by repeat constructor|done].
  - destruct (Hend (freed l) Hwf' Hdoom) as [Hps Habs]. rewrite <- Hv2, <- Habs.
    change (set_available true (set_owner (-1) l)) with (freed l).
    eexists _, []. split; [by rewrite (Hderef (freed l))|]. split; [done|]. split; [done|]. split; [by repeat constructor|done].
Qed.

Lemma handle_refines stale s from box o :
  pristine s -> 0 <= from ->
  refines (handle cfg stale from box (buffer (encode_op o)) s) (Monitor.step (from, box) o (abs s)) s.
Proof.
  intros Hs Hfrom. destruct o as [i|i|c i|c i|c i]; unfold handle; cbn [encode_op].
  - by apply Acquire_refines.
  - by apply Release_refines.
  - by apply Signal_refines.
  - by apply Broadcast_refines.
  - by apply Wait_refines.
Qed.

(** C3: the message loop of the server implements monitors. On tables in which
    nothing has been destroyed, each Acquire, Release, Signal, Broadcast and Wait
    request (with any index, from any machine) is handled without an error, keeps
    the tables consistent, and has exactly the effect and sends exactly the
    acknowledgements that the monitor contract prescribes: a lock has at most one
    holding machine, waiters get it in FIFO order, only the holder can release,
    signal or wait, Signal moves the first sleeper to the lock's queue and
    Broadcast all of them, and Wait gives the lock up and sleeps. *)
Theorem Server_refines_monitors stale s from box o :
  pristine s -> 0 <= from ->
  exists s' out, handle cfg stale from box (buffer (encode_op o)) s = Ret (s', out) /\ pristine s' /\
    Monitor.step (from, box) o (abs s) = (abs s', dest <$> out) /\
    Forall (fun m => payload m = [-1]) out /\ mvs s' = mvs s /\ requests s' = requests s.
Proof. apply handle_refines. Qed.

(** C29: no client is forgotten and none is answered twice. Over any sequence of
    lock and condition requests, the acknowledgements the server has sent and the
    replies it still has parked are together those that were parked at the start
    and one per request. *)
Theorem Server_answers_once stale (inbox : list ((Z * Z) * Monitor.op)) s :
  pristine s -> Forall (fun r => 0 <= r.1.1) inbox ->
  exists s' out,
    Server cfg stale ((fun r => (r.1, encode_op r.2)) <$> inbox) s = Ret (s', out) /\ pristine s' /\
    (dest <$> out) ++ Monitor.parked (abs s') ≡ₚ (fst <$> inbox) ++ Monitor.parked (abs s).
Proof.
  revert s. induction inbox as [|[[from box] o] inbox IH]; intros s Hs Hall.
  { by exists s, []. }
  apply Forall_cons in Hall as [Hfrom Hall]. cbn [fst] in Hfrom.
  destruct (handle_refines stale s from box o Hs Hfrom) as (s1 & out1 & H1 & Hs1 & Hstep & _).
  destruct (IH s1 Hs1 Hall) as (s2 & out2 & H2 & Hs2 & Hperm).
  exists s2, (out1 ++ out2). cbn [Server fmap list_fmap fst snd]. rewrite H1. cbn [bind]. rewrite H2. cbn [bind].
  do 2 (split; [done|]). rewrite fmap_app, <- app_assoc, Hperm.
  pose proof (Monitor.step_conserves (from, box) o (abs s)) as Hc. rewrite Hstep in Hc. cbn [fst snd] in Hc.
  rewrite app_assoc, (Permutation_app_comm (dest <$> out1)), <- app_assoc, Hc. cbn [app].
  symmetry. apply Permutation_middle.
Qed.
End Refinement.

(** ** Monitor variables *)

Definition wf_mv (v : ServerMV) : Prop := Z.of_nat (length (values v)) = numElements v.

(** The value a client would read. *)
Definition mv_value (s : State) (index pos : Z) : option Z :=
  if in_table (mvs s) index then
    v ← mvs s !! Z.to_nat index ≫= id;
    if (-1 <? pos) && (pos <? numElements v) then values v !! Z.to_nat pos else None
  else None.

Definition ok_mvs (s : State) : Prop := Forall (fun e => exists v, e = Some v /\ wf_mv v) (mvs s).

Lemma GetMV_spec s index pos : ok_mvs s -> GetMV index pos s = Ret (default (-1) (mv_value s index pos)).
Proof.
  intros Hok. unfold GetMV, mv_value. destruct (in_table (mvs s) index) eqn:Hin; [|done].
  apply in_table_spec in Hin. destruct (mvs s !! Z.to_nat index) as [e|] eqn:He;
    [|apply lookup_ge_None in He; lia].
  destruct (Forall_lookup_1 _ _ _ _ Hok He) as (v & -> & Hwf). cbn.
  rewrite (deref_live _ index v) by (done || lia). cbn [bind].
  destruct ((-1 <? pos) && (pos <? numElements v)) eqn:Hp; [|done]. zbool. unfold wf_mv in Hwf.
  destruct (aref_in (values v) pos) as [x Hx]; [lia|]. rewrite Hx. apply aref_Ret in Hx as [_ ->]. done.
Qed.

Lemma SetMV_spec s index pos value : ok_mvs s ->
  exists s', SetMV index pos value s = Ret s' /\ ok_mvs s' /\ locks s' = locks s /\ cvs s' = cvs s /\
    forall i p, mv_value s' i p =
      if decide (i = index /\ p = pos /\ is_Some (mv_value s index pos)) then Some value else mv_value s i p.
Proof.
  intros Hok. unfold SetMV. destruct (in_table (mvs s) index) eqn:Hin.
  2:{ exists s. do 4 (split; [done|]). intros i p. rewrite decide_False; [done|].
      intros (_ & _ & [x Hx]). unfold mv_value in Hx. by rewrite Hin in Hx. }
  apply in_table_spec in Hin as Hin'. destruct (mvs s !! Z.to_nat index) as [e|] eqn:He;
    [|apply lookup_ge_None in He; lia].
  destruct (Forall_lookup_1 _ _ _ _ Hok He) as (v & -> & Hwf).
  rewrite (deref_live _ index v) by (done || lia). cbn [bind].
  assert (Hany : forall p, mv_value s index p =
    if (-1 <? p) && (p <? numElements v) then values v !! Z.to_nat p else None)
    by (intros; unfold mv_value; rewrite Hin, He; done).
  pose proof (Hany pos) as Hhere.
  destruct ((-1 <? pos) && (pos <? numElements v)) eqn:Hp.
  2:{ exists s. do 4 (split; [done|]). intros i p. rewrite decide_False; [done|].
      intros (_ & _ & [x Hx]). by rewrite Hhere in Hx. }
  zbool. unfold wf_mv in Hwf. rewrite aset_in by lia. cbn [bind].
  set (v' := mkMV (<[Z.to_nat pos := value]> (values v)) (mv_id v) (mv_name v) (numElements v)).
  exists (set_mvs (store (mvs s) index (Some v')) s). split; [done|]. split; [|split; [done|split; [done|]]].
  - apply Forall_insert; [done|]. exists v'. split; [done|]. unfold wf_mv. cbn. by rewrite length_insert.
  - intros i p. unfold mv_value at 1. cbn. unfold store, in_table. rewrite length_insert. fold (in_table (mvs s) i).
    destruct (in_table (mvs s) i) eqn:Hi.
    2:{ rewrite decide_False; [unfold mv_value; by rewrite Hi|]. intros (-> & _ & _). congruence. }
    apply in_table_spec in Hi as Hi'. destruct (decide (i = index)) as [->|Hne].
    + rewrite list_lookup_insert_eq by lia. cbn.
      destruct (decide (p = pos)) as [->|Hnp].
      * rewrite (proj2 (Z.ltb_lt (-1) pos)), (proj2 (Z.ltb_lt pos _)) by lia. cbn.
        rewrite list_lookup_insert_eq by lia. rewrite decide_True; [done|]. split; [done|]. split; [done|].
        rewrite Hhere. destruct (lookup_lt_is_Some_2 (values v) (Z.to_nat pos)) as [x ->]; [lia|done].
      * rewrite decide_False, Hany by tauto. destruct ((-1 <? p) && (p <? numElements v)) eqn:Hpp; [|done]. zbool.
        by rewrite list_lookup_insert_ne by lia.
    + rewrite decide_False by tauto. rewrite list_lookup_insert_ne by lia. unfold mv_value. by rewrite Hi.
Qed.

(** Monitor variables on the wire. Setting element [pos] of array [index] to a
    byte value and reading any element back: the element set reads as the new
    value, every other element of every array as before, and an index or position
    out of range changes nothing and reads as -1. *)
Theorem SetMV_GetMV cfg stale s from box index pos value i p :
  ok_mvs s -> is_i8 value ->
  exists s' out, handle cfg stale from box (buffer [10; index; pos; value]) s = Ret (s', [mkMessage from box [127]]) /\
    ok_mvs s' /\ locks s' = locks s /\ cvs s' = cvs s /\
    handle cfg stale from box (buffer [11; i; p]) s' = Ret (s', [mkMessage from box [out]]) /\
    out = if decide (i = index /\ p = pos /\ is_Some (mv_value s index pos)) then value
          else i8 (default (-1) (mv_value s i p)).
Proof.
  intros Hok Hval. unfold handle at 1. change (aref (buffer [10; index; pos; value]) 0) with (Ret 10).
  cbn [bind]. unfold handle_SetMV. change (aref (buffer [10; index; pos; value]) 1) with (Ret index).
  change (aref (buffer [10; index; pos; value]) 2) with (Ret pos).
  change (aref (buffer [10; index; pos; value]) 3) with (Ret value). cbn [bind].
  destruct (SetMV_spec s index pos value Hok) as (s' & -> & Hok' & Hl & Hc & Hv). cbn [bind].
  exists s'. eexists. split; [done|]. split; [done|]. split; [done|]. split; [done|].
  unfold handle. change (aref (buffer [11; i; p]) 0) with (Ret 11). cbn [bind]. unfold handle_GetMV.
  change (aref (buffer [11; i; p]) 1) with (Ret i). change (aref (buffer [11; i; p]) 2) with (Ret p). cbn [bind].
  rewrite GetMV_spec by done. cbn [bind]. split; [done|]. rewrite Hv.
  destruct (decide _); [by apply i8_small | done].
Qed.

(** ** Names *)

Lemma buffer_lookup data j : (j < 40)%nat -> (j < length data)%nat -> buffer data !! j = data !! j.
Proof. intros H1 H2. unfold buffer. by rewrite lookup_take_lt, lookup_app_l. Qed.

Lemma read_name_prefix (prefix name rest : list Z) :
  (length prefix + length name <= 40)%nat ->
  read_name (buffer (prefix ++ name ++ rest)) (Z.of_nat (length prefix)) (Z.of_nat (length name)) = Ret name.
Proof.
  intros Hlen. unfold read_name. rewrite (proj2 (Z.ltb_ge _ _)) by lia. rewrite Nat2Z.id.
  destruct (for_upto_inv (fun j acc => acc = take (Z.to_nat j) name) 0 (length name)
    (fun i name0 => let! c := aref (buffer (prefix ++ name ++ rest)) (i + Z.of_nat (length prefix)) in Ret (name0 ++ [c])) [])
    as (acc & Hacc & ->).
  - done.
  - intros j t Hj ->. destruct (lookup_lt_is_Some_2 name (Z.to_nat j)) as [c Hc]; [lia|].
    assert (aref (buffer (prefix ++ name ++ rest)) (j + Z.of_nat (length prefix)) = Ret c) as ->.
    { apply aref_Ret. split; [lia|]. rewrite buffer_lookup by (rewrite ?length_app; lia).
      rewrite lookup_app_r, lookup_app_l by lia. by replace (Z.to_nat (j + Z.of_nat (length prefix)) - length prefix)%nat with (Z.to_nat j) by lia. }
    cbn [bind]. eexists. split; [done|]. replace (Z.to_nat (j + 1)) with (S (Z.to_nat j)) by lia.
    by rewrite (take_S_r _ _ c).
  - rewrite Hacc. f_equal. apply take_ge. lia.
Qed.

Lemma read_name_2 op name : (length name <= 38)%nat ->
  read_name (buffer (op :: Z.of_nat (length name) :: name)) 2 (Z.of_nat (length name)) = Ret name.
Proof.
  intros. pose proof (read_name_prefix [op; Z.of_nat (length name)] name [] ltac:(cbn; lia)) as Hr.
  by rewrite app_nil_r in Hr.
Qed.

(** The tables hold no destroyed lock, ids are positions, and names are unique. *)
Record named (cfg : Config) (s : State) : Prop := {
  named_ids : forall k e, locks s !! k = Some e ->
    exists l, e = Some l /\ lock_id l = Z.of_nat k + serverID cfg * 50;
  named_unique : forall k k' l l', locks s !! k = Some (Some l) -> locks s !! k' = Some (Some l') ->
    cstr (lock_name l) = cstr (lock_name l') -> k = k'
}.

Lemma getLockFromTable_spec name t :
  (forall k e, t !! k = Some e -> exists l, e = Some l) ->
  (exists k l, t !! k = Some (Some l) /\ cstr (lock_name l) = cstr name /\
     getLockFromTable_loop name t = Ret (i32 (lock_id l))) \/
  ((forall k l, t !! k = Some (Some l) -> cstr (lock_name l) <> cstr name) /\
     getLockFromTable_loop name t = Ret (-1)).
Proof.
  induction t as [|e t IH]; intros Hlive; [by right|].
  destruct (Hlive 0%nat e eq_refl) as [l ->]. cbn. unfold strcmp_eq. case_bool_decide as Heq.
  - left. by exists 0%nat, l.
  - destruct IH as [(k & l' & Hk & Hn & Hr) | [Hno Hr]].
    + intros k e. apply (Hlive (S k)).
    + left. by exists (S k), l'.
    + right. split; [|done]. intros [|k] l' Hl'; [|by eapply Hno]. simplify_eq/=. congruence.
Qed.

Lemma named_snoc cfg s name id :
  named cfg s -> id = Z.of_nat (length (locks s)) + serverID cfg * 50 ->
  (forall k l, locks s !! k = Some (Some l) -> cstr (lock_name l) <> cstr name) ->
  named cfg (set_locks (locks s ++ [Some (new_ServerLock name id)]) s).
Proof.
  intros [Hids Huniq] -> Hno. split; cbn.
  - intros k e [[_ Hk]|[-> <-]]%lookup_snoc_Some; [by apply Hids|]. by eexists.
  - intros k k' l l' [[_ Hk]|[-> [= <-]]]%lookup_snoc_Some [[_ Hk']|[-> [= <-]]]%lookup_snoc_Some Heq; try done.
    + by eapply Huniq.
    + by apply Hno in Hk.
    + symmetry in Heq. by apply Hno in Hk'.
Qed.

(** Scanning past a destroyed entry. *)
Lemma dangling_scan name t i :
  (forall k e, t !! k = Some e -> exists l, e = Some l) ->
  (forall k l, t !! k = Some (Some l) -> cstr (lock_name l) <> cstr name) -> (i < length t)%nat ->
  getLockFromTable_loop name (<[i := None]> t) = Undef.
Proof.
  revert i. induction t as [|e t IH]; intros i Hlive Hno Hi; [cbn in Hi; lia|].
  destruct i as [|i]; [done|]. destruct (Hlive 0%nat e eq_refl) as [l ->]. cbn.
  unfold strcmp_eq. rewrite bool_decide_false.
  - apply IH; [intros k e; apply (Hlive (S k)) | intros k l'; apply (Hno (S k)) | cbn in Hi; lia].
  - intros Heq. by apply (Hno 0%nat l eq_refl).
Qed.

(** CreateLock is by name. A lone server answers a CreateLock request with the
    number of the lock of that name: the existing one when there is one, and then
    nothing changes, otherwise a new lock, free and without waiters, at the end of
    the table. Names stay unique, so two requests get the same number exactly when
    they ask for the same name. *)
Theorem CreateLock_by_name cfg stale s from box name :
  named cfg s -> numServers cfg = 1 -> 0 <= serverID cfg ->
  Z.of_nat (length (locks s)) + serverID cfg * 50 < 2^31 -> (length name <= 38)%nat ->
  exists s' k l,
    handle cfg stale from box (buffer (0 :: Z.of_nat (length name) :: name)) s =
      Ret (s', [mkMessage from box [i8 (Z.of_nat k + serverID cfg * 50)]]) /\
    named cfg s' /\ cvs s' = cvs s /\ mvs s' = mvs s /\
    locks s' !! k = Some (Some l) /\ cstr (lock_name l) = cstr name /\
    (locks s' = locks s \/
     (k = length (locks s) /\ locks s' = locks s ++ [Some l] /\
      l = new_ServerLock name (Z.of_nat k + serverID cfg * 50))).
Proof.
  intros [Hids Huniq] Hone Hid Hbound Hlen. unfold handle.
  change (aref (buffer (0 :: Z.of_nat (length name) :: name)) 0) with (Ret 0). cbn [bind].
  unfold handle_CreateLock.
  change (aref (buffer (0 :: Z.of_nat (length name) :: name)) 1) with (Ret (Z.of_nat (length name))). cbn [bind].
  rewrite read_name_2 by done. cbn [bind]. unfold getLockFromTable.
  destruct (getLockFromTable_spec name (locks s)) as [(k & l & Hk & Hn & ->) | [Hno ->]].
  { intros k e Hk. destruct (Hids k e Hk) as (l & ? & _). by exists l. }
  - cbn [bind]. destruct (Hids k _ Hk) as (l' & [= <-] & Hlid). pose proof (lookup_lt_Some _ _ _ Hk).
    rewrite Hlid, i32_small by (unfold is_i32; lia). rewrite (proj2 (Z.eqb_neq _ _)) by lia. cbn [negb].
    exists s, k, l. do 6 (split; [done|]). by left.
  - cbn [bind Z.eqb negb Pos.eqb]. rewrite Hone. cbn [Z.eqb Pos.eqb]. unfold CreateLock.
    assert (new_id cfg (locks s) = Z.of_nat (length (locks s)) + serverID cfg * 50) as ->.
    { unfold new_id. rewrite (u32_small (serverID cfg * 50)) by (unfold is_u32; lia).
      apply u32_small. unfold is_u32. lia. }
    rewrite i32_small by (unfold is_i32; lia).
    set (l := new_ServerLock name _). exists (set_locks (locks s ++ [Some l]) s), (length (locks s)), l.
    split; [done|]. split; [by apply named_snoc|]. do 2 (split; [done|]).
    split; [apply lookup_snoc_Some; by right|]. split; [done|]. by right.
Qed.

(** Destroying a lock leaves its pointer in the table. After a client
    destroys a free lock, the next request to create a lock under a new name
    dereferences the deleted object. *)
Theorem DestroyLock_dangles cfg stale s from box i l from' box' name :
  named cfg s -> (length name <= 38)%nat -> 0 <= i -> locks s !! Z.to_nat i = Some (Some l) ->
  available l = true -> lock_waiters l = 0 ->
  (forall k l', locks s !! k = Some (Some l') -> cstr (lock_name l') <> cstr name) ->
  exists s', handle cfg stale from box (buffer [3; i]) s = Ret (s', [mkMessage from box [-1]]) /\
    handle cfg stale from' box' (buffer (0 :: Z.of_nat (length name) :: name)) s' = Undef.
Proof.
  intros [Hids _] Hlen Hi Hl Ha Hw Hno. unfold handle at 1. change (aref (buffer [3; i]) 0) with (Ret 3). cbn [bind].
  unfold handle_DestroyLock. change (aref (buffer [3; i]) 1) with (Ret i). cbn [bind]. unfold DestroyLock.
  pose proof (lookup_lt_Some _ _ _ Hl). rewrite (proj2 (in_table_spec _ _)) by lia.
  rewrite (deref_live _ i l) by done. cbn [bind]. rewrite Hw, Ha. cbn [Z.eqb andb].
  exists (set_locks (store (locks s) i None) s). split; [done|]. unfold handle.
  change (aref (buffer (0 :: Z.of_nat (length name) :: name)) 0) with (Ret 0). cbn [bind].
  unfold handle_CreateLock.
  change (aref (buffer (0 :: Z.of_nat (length name) :: name)) 1) with (Ret (Z.of_nat (length name))). cbn [bind].
  rewrite read_name_2 by done. cbn [bind].
  unfold getLockFromTable, store. cbn [locks set_locks].
  rewrite (dangling_scan name (locks s) (Z.to_nat i)); [done | | done | lia].
  intros k e Hk. destruct (Hids k e Hk) as (l' & -> & _). by exists l'.
Qed.

(** ** A concrete server *)

Definition lone : Config := mkConfig 0 1.

(** One lock, "L1", one condition, "C", and an array of three zeros. *)
Definition one_lock : State :=
  mkState [Some (new_ServerLock [76; 49] 0)] [Some (new_ServerCV [67] 0)] [Some (mkMV [0; 0; 0] 0 [77] 3)] [].

Lemma one_lock_pristine : pristine one_lock.
Proof.
  split; (constructor; [|constructor]); eexists; (split; [reflexivity|]); (split; [|reflexivity]);
    (split; cbn; try constructor; try done; lia).
Qed.

Lemma one_lock_named : named lone one_lock.
Proof.
  split.
  - intros [|k] e He; [|done]. injection He as <-. by eexists.
  - intros [|k] [|k'] l l' Hk Hk' _; try done; by rewrite lookup_nil in *.
Qed.

(** Machine 6 takes the lock, machine 7 queues, 6 waits, 7 signals and releases. *)
Example one_lock_run :
  (let! (s, out) := Server lone [] [(6, 1, [1; 0]); (7, 2, [1; 0]); (6, 1, [7; 0; 0]); (7, 2, [5; 0; 0]); (7, 2, [2; 0])] one_lock in
   Ret (abs s, dest <$> out))
  = Ret (Monitor.mkMonitors [Monitor.mkMLock (Some 6) []] [Monitor.mkMCond (Some 0) []],
         [(6, 1); (7, 2); (7, 2); (6, 1); (7, 2)]).
Proof. vm_compute. reflexivity. Qed.

Lemma Server_refines_monitors_witness :
  exists s' out, handle lone [] 6 1 (buffer [1; 0]) one_lock = Ret (s', out) /\ pristine s' /\
    Monitor.step (6, 1) (Monitor.OAcquire 0) (abs one_lock) = (abs s', dest <$> out).
Proof.
  destruct (Server_refines_monitors lone [] one_lock 6 1 (Monitor.OAcquire 0) one_lock_pristine ltac:(lia))
    as (s' & out & Hh & Hp & Hs & _).
  exists s', out. split; [exact Hh|]. split; [exact Hp | exact Hs].
Defined.

Lemma Server_answers_once_witness :
  exists s' out, Server lone [] [(6, 1, [1; 0]); (7, 2, [1; 0])] one_lock = Ret (s', out) /\ pristine s' /\
    (dest <$> out) ++ Monitor.parked (abs s') ≡ₚ [(6, 1); (7, 2)].
Proof.
  refine (Server_answers_once lone [] [((6, 1), Monitor.OAcquire 0); ((7, 2), Monitor.OAcquire 0)] one_lock one_lock_pristine _).
  repeat constructor; cbn; lia.
Defined.

Lemma SetMV_GetMV_witness :
  exists s', handle lone [] 6 1 (buffer [10; 0; 2; -5]) one_lock = Ret (s', [mkMessage 6 1 [127]]) /\
    handle lone [] 6 1 (buffer [11; 0; 2]) s' = Ret (s', [mkMessage 6 1 [-5]]).
Proof.
  destruct (SetMV_GetMV lone [] one_lock 6 1 0 2 (-5) 0 2) as (s' & out & Hset & _ & _ & _ & Hget & Hout).
  - constructor; [|constructor]. eexists. split; reflexivity.
  - unfold is_i8. lia.
  - exists s'. split; [exact Hset|]. rewrite Hget, Hout. reflexivity.
Defined.

Lemma CreateLock_by_name_witness :
  exists s' k, handle lone [] 6 1 (buffer [0; 2; 76; 50]) one_lock
    = Ret (s', [mkMessage 6 1 [i8 (Z.of_nat k + serverID lone * 50)]]) /\ named lone s'.
Proof.
  destruct (CreateLock_by_name lone [] one_lock 6 1 [76; 50] one_lock_named eq_refl ltac:(done) ltac:(vm_compute; done) ltac:(cbn; lia))
    as (s' & k & l & Hh & Hn & _).
  exists s', k. split; [exact Hh | exact Hn].
Defined.

Lemma DestroyLock_dangles_witness :
  exists s', handle lone [] 6 1 (buffer [3; 0]) one_lock = Ret (s', [mkMessage 6 1 [-1]]) /\
    handle lone [] 7 2 (buffer [0; 1; 65]) s' = Undef.
Proof.
  refine (DestroyLock_dangles lone [] one_lock 6 1 0 _ 7 2 [65] one_lock_named _ _ eq_refl eq_refl eq_refl _).
  - cbn. lia.
  - lia.
  - intros [|k] l' Hk; [|done]. injection Hk as <-. done.
Defined.
