(* ===== verification/Rpc.v ===== *)
(** * The client side of the server protocol (userprog/exception.cc)

    The lock, condition and monitor-variable system calls build a request in a
    40-byte buffer, send it to one of the servers and block until the reply
    arrives in the thread's mailbox. Each is a function from its arguments to the
    exchange it makes. The name a call takes from user memory is given here as the
    kernel buffer [buf] that copyin filled; the code that uses copyin is in
    Syscalls. *)

From S2P Require Import Prelude NachosList Server.

(** [postOffice->Send(outPktHdr, outMailHdr, request)], the value the call returns
    when it fails, and what it makes of the reply; a call that returns nothing
    leaves the 0 of the exception handler. *)
Record Rpc := mkRpc {
  server : Z; reply_box : Z; message : list Z; on_failure : Z; on_reply : list Z -> C Z
}.

Section Stubs.
(** [rand()], [numServers], [currentThread->getMailBox()], and what [new char[40]]
    returns. *)
Variables (rand numServers mailBox : Z) (g : list Z).

(** The headers and the message of [len] bytes. *)
Definition exchange (request : list Z) (len : Z) (on_failure : Z) (on_reply : list Z -> C Z) : Rpc :=
  mkRpc (Z.rem rand numServers) mailBox (take (Z.to_nat len) request) on_failure on_reply.

(** [int index = (unsigned int)response[0]] *)
Definition first_byte (response : list Z) : C Z := aref response 0.
Definition no_value (response : list Z) : C Z := Ret 0.

(** [for(int i = 0; i < size; i++) request[2+i] = buf[i];] *)
Definition copy_name (buf : list Z) (size : Z) (r : list Z) : C (list Z) :=
  for_upto 0 (Z.to_nat size) (fun i (r : list Z) => let! c := aref buf i in aset r (2 + i) c) r.

(** Opcode, length and name, with a blank and a digit after the name when [id] is
    not zero: the same code in CreateLock, CreateCondition and CreateMV. *)
Definition put_name (op : Z) (buf : list Z) (size id : Z) : C (list Z) :=
  let! r := aset g 0 op in
  let! r := aset r 1 (if negb (id =? 0) then i8 (size + 2) else i8 size) in
  let! r := copy_name buf size r in
  if negb (id =? 0) then
    let! r := aset r (2 + size) 32 in aset r (3 + size) (i8 (id + 48))
  else Ret r.

Definition CreateLock_Syscall (buf : list Z) (size id : Z) : C Rpc :=
  let! r := put_name 0 buf size id in
  Ret (exchange r (if negb (id =? 0) then 4 + size else 2 + size) (-1) first_byte).

Definition DestroyLock_Syscall (index : Z) : C Rpc :=
  let! r := aset g 0 3 in
  let! r := aset r 1 (i8 index) in
  Ret (exchange r 2 0 no_value).

Definition Acquire_Syscall (index : Z) : C Rpc :=
  let! r := aset g 0 1 in
  let! r := aset r 1 (i8 index) in
  Ret (exchange r 2 0 no_value).

Definition Release_Syscall (index : Z) : C Rpc :=
  let! r := aset g 0 2 in
  let! r := aset r 1 (i8 index) in
  Ret (exchange r 2 0 no_value).

Definition CreateCondition_Syscall (buf : list Z) (size id : Z) : C Rpc :=
  let! r := put_name 4 buf size id in
  Ret (exchange r (if negb (id =? 0) then 4 + size else 2 + size) (-1) first_byte).

Definition DestroyCondition_Syscall (index : Z) : C Rpc :=
  let! r := aset g 0 8 in
  let! r := aset r 1 (i8 index) in
  Ret (exchange r 2 0 no_value).

(** Opcode, condition and lock. *)
Definition put_pair (op cvIndex lockIndex : Z) : C (list Z) :=
  let! r := aset g 0 op in
  let! r := aset r 1 (i8 cvIndex) in
  aset r 2 (i8 lockIndex).

Definition Wait_Syscall (cvIndex lockIndex : Z) : C Rpc :=
  let! r := put_pair 7 cvIndex lockIndex in Ret (exchange r 3 0 no_value).

Definition Signal_Syscall (cvIndex lockIndex : Z) : C Rpc :=
  let! r := put_pair 5 cvIndex lockIndex in Ret (exchange r 3 0 no_value).

Definition Broadcast_Syscall (cvIndex lockIndex : Z) : C Rpc :=
  let! r := put_pair 6 cvIndex lockIndex in Ret (exchange r 3 0 no_value).

Definition CreateMV_Syscall (buf : list Z) (size numElements id : Z) : C Rpc :=
  let! r := put_name 9 buf size id in
  let! r := (if negb (id =? 0) then aset r (4 + size) (i8 numElements) else aset r (size + 2) (i8 numElements)) in
  Ret (exchange r (if negb (id =? 0) then 5 + size else 3 + size) (-1) first_byte).

(** The buffers are deleted before the reply is received into one of them. *)
Definition DestroyMV_Syscall (index : Z) : C Rpc :=
  let! r := aset g 0 12 in
  let! r := aset r 1 (i8 index) in
  Ret (exchange r 2 0 (fun _ => Undef)).

Definition SetMV_Syscall (index position val : Z) : C Rpc :=
  let! r := aset g 0 10 in
  let! r := aset r 1 (i8 index) in
  let! r := aset r 2 (i8 position) in
  let! r := aset r 3 (i8 val) in
  Ret (exchange r 4 0 no_value).

Definition GetMV_Syscall (index position : Z) : C Rpc :=
  let! r := aset g 0 11 in
  let! r := aset r 1 (i8 index) in
  let! r := aset r 2 (i8 position) in
  Ret (exchange r 3 (-1) first_byte).
End Stubs.

(** ** Requests are what the server parses *)

(** The name on the wire: threads with a number get their own. *)
Definition wire_name (buf : list Z) (id : Z) : list Z :=
  buf ++ (if id =? 0 then [] else [32; i8 (id + 48)]).

Section Requests.
Variables (rand numServers mailBox : Z) (g : list Z).
Hypothesis Hg : length g = 40%nat.

Lemma aset_take (r : list Z) i x r' :
  aset r i x = Ret r' -> length r' = length r /\ take (Z.to_nat (i + 1)) r' = take (Z.to_nat i) r ++ [x].
Proof.
  intros [Hi ->]%aset_Ret. split; [by rewrite length_insert|].
  replace (Z.to_nat (i + 1)) with (S (Z.to_nat i)) by lia.
  rewrite (take_S_r _ _ x) by (apply list_lookup_insert_eq; lia). by rewrite take_insert_ge.
Qed.

(** Appending a byte at the end of what has been written. *)
Lemma aset_push (r done : list Z) i x :
  length r = 40%nat -> take (Z.to_nat i) r = done -> 0 <= i < 40 ->
  exists r', aset r i x = Ret r' /\ length r' = 40%nat /\ take (Z.to_nat (i + 1)) r' = done ++ [x].
Proof.
  intros Hl Hd Hi. destruct (aset r i x) as [r'| |] eqn:E.
  - apply aset_take in E as [Hl' Ht]. exists r'. split; [done|]. split; [lia|]. by rewrite Ht, Hd.
  - by rewrite aset_in in E by lia.
  - by rewrite aset_in in E by lia.
Qed.

Lemma copy_name_spec buf r op n :
  (length buf <= 38)%nat -> length r = 40%nat -> take 2 r = [op; n] ->
  exists r', copy_name buf (Z.of_nat (length buf)) r = Ret r' /\ length r' = 40%nat /\
    take (Z.to_nat (2 + Z.of_nat (length buf))) r' = op :: n :: buf.
Proof.
  intros Hb Hl Ht. unfold copy_name. rewrite Nat2Z.id.
  destruct (for_upto_inv (fun i r => length r = 40%nat /\ take (Z.to_nat (2 + i)) r = op :: n :: take (Z.to_nat i) buf)
    0 (length buf) (fun i (r : list Z) => let! c := aref buf i in aset r (2 + i) c) r) as (r' & -> & L2 & T2).
  - split; [done|]. exact Ht.
  - intros j t Hj [Lt Tt]. destruct (lookup_lt_is_Some_2 buf (Z.to_nat j)) as [c Hc]; [lia|].
    assert (aref buf j = Ret c) as -> by (apply aref_Ret; split; [lia|done]). cbn [bind].
    destruct (aset_push t _ (2 + j) c Lt Tt) as (t' & Ht' & Lt' & Tt'); [lia|].
    exists t'. split; [done|]. split; [done|]. replace (2 + (j + 1)) with (2 + j + 1) by lia.
    rewrite Tt'. replace (Z.to_nat (j + 1)) with (S (Z.to_nat j)) by lia. by rewrite (take_S_r _ _ c).
  - exists r'. rewrite Z.add_0_l in T2. rewrite T2, take_ge by lia. done.
Qed.

Lemma put_name_spec op buf id :
  (length (wire_name buf id) <= 38)%nat ->
  exists r, put_name g op buf (Z.of_nat (length buf)) id = Ret r /\ length r = 40%nat /\
    take (Z.to_nat (2 + Z.of_nat (length (wire_name buf id)))) r
      = op :: Z.of_nat (length (wire_name buf id)) :: wire_name buf id.
Proof.
  unfold wire_name. intros Hlen. rewrite length_app in *. unfold put_name.
  destruct (aset_push g [] 0 op Hg eq_refl) as (r0 & -> & L0 & T0); [lia|]. cbn [bind].
  set (n := if negb (id =? 0) then _ else _).
  destruct (aset_push r0 _ 1 n L0 T0) as (r1 & -> & L1 & T1); [lia|]. cbn [bind].
  assert (n = Z.of_nat (length buf + length (if id =? 0 then [] else [32; i8 (id + 48)]))) as Hn.
  { unfold n. destruct (id =? 0); cbn [negb length] in *; rewrite i8_small by (unfold is_i8; lia); lia. }
  destruct (copy_name_spec buf r1 op n) as (r2 & -> & L2 & T2); [lia | done | exact T1|].
  cbn [bind]. rewrite <- Hn. clearbody n.
  destruct (id =? 0) eqn:Hid; cbn [negb length] in *.
  - exists r2. split; [done|]. split; [done|]. rewrite app_nil_r.
    replace n with (Z.of_nat (length buf)) at 1 by lia. exact T2.
  - destruct (aset_push r2 _ (2 + Z.of_nat (length buf)) 32 L2 T2) as (r3 & -> & L3 & T3); [lia|]. cbn [bind].
    replace (2 + Z.of_nat (length buf) + 1) with (3 + Z.of_nat (length buf)) in T3 by lia.
    destruct (aset_push r3 _ (3 + Z.of_nat (length buf)) (i8 (id + 48)) L3 T3) as (r4 & -> & L4 & T4); [lia|].
    exists r4. split; [done|]. split; [done|].
    replace (2 + n) with (3 + Z.of_nat (length buf) + 1) by lia. rewrite T4. cbn. by rewrite <- app_assoc.
Qed.

(** Requests survive the wire. Whatever garbage the request buffer holds, the
    message CreateLock, CreateCondition and CreateMV send is the opcode, the length
    of the name and the name (with a blank and the caller's digit when it has a
    number), followed for CreateMV by the element count; and the server parses the
    same name, and count, back out of its own buffer. *)
Theorem name_requests buf id numElements :
  (length (wire_name buf id) <= 37)%nat -> is_i8 numElements ->
  let name := wire_name buf id in
  let n := Z.of_nat (length name) in
  (exists c, CreateLock_Syscall rand numServers mailBox g buf (Z.of_nat (length buf)) id = Ret c /\
     message c = 0 :: n :: name) /\
  (exists c, CreateCondition_Syscall rand numServers mailBox g buf (Z.of_nat (length buf)) id = Ret c /\
     message c = 4 :: n :: name) /\
  (exists c, CreateMV_Syscall rand numServers mailBox g buf (Z.of_nat (length buf)) numElements id = Ret c /\
     message c = 9 :: n :: name ++ [numElements] /\
     aref (buffer (message c)) (n + 2) = Ret numElements) /\
  (forall op rest, (length rest <= 1)%nat ->
     aref (buffer (op :: n :: name ++ rest)) 1 = Ret n /\
     read_name (buffer (op :: n :: name ++ rest)) 2 n = Ret name).
Proof.
  intros Hlen Hne name n.
  assert (Hmsg : forall op, exists r, put_name g op buf (Z.of_nat (length buf)) id = Ret r /\ length r = 40%nat /\
    take (Z.to_nat (2 + n)) r = op :: n :: name) by (intros; apply put_name_spec; lia).
  assert (Hn : n = if negb (id =? 0) then 2 + Z.of_nat (length buf) else Z.of_nat (length buf)).
  { unfold n, name, wire_name. rewrite length_app. destruct (id =? 0); cbn [negb length]; lia. }
  assert (0 <= n <= 37) as Hn37 by (unfold n, name; lia).
  split; [|split; [|split]].
  - destruct (Hmsg 0) as (r & E & _ & T). unfold CreateLock_Syscall. rewrite E. cbn [bind].
    eexists. split; [done|]. unfold exchange. cbn [message]. rewrite <- T. f_equal.
    destruct (id =? 0); cbn [negb] in *; lia.
  - destruct (Hmsg 4) as (r & E & _ & T). unfold CreateCondition_Syscall. rewrite E. cbn [bind].
    eexists. split; [done|]. unfold exchange. cbn [message]. rewrite <- T. f_equal.
    destruct (id =? 0); cbn [negb] in *; lia.
  - destruct (Hmsg 9) as (r & E & L & T). unfold CreateMV_Syscall. rewrite E. cbn [bind].
    assert (exists r', (if negb (id =? 0) then aset r (4 + Z.of_nat (length buf)) (i8 numElements)
      else aset r (Z.of_nat (length buf) + 2) (i8 numElements)) = Ret r' /\
      take (Z.to_nat (3 + n)) r' = 9 :: n :: name ++ [numElements]) as (r' & -> & T').
    { destruct (aset_push r _ (2 + n) (i8 numElements) L T) as (r' & E' & _ & T'); [lia|].
      exists r'. rewrite i8_small in T' by done. rewrite i8_small in E' |- * by done.
      replace (2 + n + 1) with (3 + n) in T' by lia. split; [|exact T'].
      rewrite <- E'. destruct (id =? 0); cbn [negb] in *; f_equal; lia. }
    cbn [bind]. eexists. split; [done|]. unfold exchange. cbn [message].
    assert (take (Z.to_nat (if negb (id =? 0) then 5 + Z.of_nat (length buf) else 3 + Z.of_nat (length buf))) r'
      = 9 :: n :: name ++ [numElements]) as ->.
    { rewrite <- T'. f_equal. destruct (id =? 0); cbn [negb] in *; lia. }
    split; [done|]. apply aref_Ret. split; [lia|].
    rewrite buffer_lookup by (rewrite ?length_cons, ?length_app; cbn; unfold n in *; lia).
    change (9 :: n :: name ++ [numElements]) with ([9; n] ++ name ++ [numElements]).
    rewrite !lookup_app_r by (cbn; unfold n; lia).
    by replace (Z.to_nat (n + 2) - length [9%Z; n] - length name)%nat with 0%nat by (cbn; unfold n; lia).
  - intros op rest Hrest. split; [done|].
    apply (read_name_prefix [op; n] name rest). cbn. unfold n, name in *. lia.
Qed.

Lemma two_bytes op x f k : exists r,
  (let! r := aset g 0 op in let! r := aset r 1 x in Ret (exchange rand numServers mailBox r 2 f k)) = Ret r /\
  message r = [op; x].
Proof.
  destruct (aset_push g [] 0 op Hg eq_refl) as (r0 & -> & L0 & T0); [lia|]. cbn [bind].
  destruct (aset_push r0 _ 1 x L0 T0) as (r1 & -> & L1 & T1); [lia|]. by eexists.
Qed.

Lemma three_bytes op x y f k : exists r,
  (let! r := put_pair g op x y in Ret (exchange rand numServers mailBox r 3 f k)) = Ret r /\
  message r = [op; i8 x; i8 y].
Proof.
  unfold put_pair. destruct (aset_push g [] 0 op Hg eq_refl) as (r0 & -> & L0 & T0); [lia|]. cbn [bind].
  destruct (aset_push r0 _ 1 (i8 x) L0 T0) as (r1 & -> & L1 & T1); [lia|]. cbn [bind].
  destruct (aset_push r1 _ 2 (i8 y) L1 T1) as (r2 & -> & L2 & T2); [lia|]. by eexists.
Qed.

(** The stub of a monitor operation. *)
Definition stub (o : Monitor.op) : C Rpc :=
  match o with
  | Monitor.OAcquire i => Acquire_Syscall rand numServers mailBox g i
  | Monitor.ORelease i => Release_Syscall rand numServers mailBox g i
  | Monitor.OSignal c i => Signal_Syscall rand numServers mailBox g c i
  | Monitor.OBroadcast c i => Broadcast_Syscall rand numServers mailBox g c i
  | Monitor.OWait c i => Wait_Syscall rand numServers mailBox g c i
  end.

Definition op_bytes (o : Monitor.op) : Prop :=
  match o with
  | Monitor.OAcquire i | Monitor.ORelease i => is_i8 i
  | Monitor.OSignal c i | Monitor.OBroadcast c i | Monitor.OWait c i => is_i8 c /\ is_i8 i
  end.

Lemma stub_message o : op_bytes o -> exists r, stub o = Ret r /\ message r = encode_op o.
Proof.
  destruct o as [i|i|c i|c i|c i]; cbn [op_bytes stub encode_op]; intros Hb.
  - destruct (two_bytes 1 (i8 i) 0 no_value) as (r & E & M). exists r. by rewrite M, i8_small.
  - destruct (two_bytes 2 (i8 i) 0 no_value) as (r & E & M). exists r. by rewrite M, i8_small.
  - destruct (three_bytes 5 c i 0 no_value) as (r & E & M). exists r. by rewrite M, !i8_small by tauto.
  - destruct (three_bytes 6 c i 0 no_value) as (r & E & M). exists r. by rewrite M, !i8_small by tauto.
  - destruct (three_bytes 7 c i 0 no_value) as (r & E & M). exists r. by rewrite M, !i8_small by tauto.
Qed.

Lemma stub_box o r : stub o = Ret r -> reply_box r = mailBox.
Proof using Type.
  intros Hr. destruct o; cbn [stub] in Hr; unfold Acquire_Syscall, Release_Syscall, Signal_Syscall, Broadcast_Syscall, Wait_Syscall in Hr; inv_ret; done.
Qed.

(** A system call is an operation on the server's monitors. The message that
    the Acquire, Release, Signal, Broadcast or Wait system call sends, from a
    buffer with any content, is handled by the server as that very operation of the
    monitor contract, on behalf of the calling machine and mailbox, provided the
    indices fit in a byte. *)
Theorem syscall_is_monitor_op cfg stale s from o :
  pristine s -> 0 <= from -> op_bytes o ->
  exists r s' out, stub o = Ret r /\ reply_box r = mailBox /\
    handle cfg stale from (reply_box r) (buffer (message r)) s = Ret (s', out) /\ pristine s' /\
    Monitor.step (from, mailBox) o (abs s) = (abs s', dest <$> out).
Proof.
  intros Hs Hfrom Hb. destruct (stub_message o Hb) as (r & Hr & Hm). pose proof (stub_box o r Hr) as Hbox.
  destruct (handle_refines cfg stale s from mailBox o Hs Hfrom) as (s' & out & Hh & Hp & Hst & _).
  exists r, s', out. rewrite Hbox, Hm. done.
Qed.
End Requests.

(** ** Witnesses *)

Definition junk : list Z := replicate 40 (-86).

Lemma name_requests_witness :
  exists c, CreateLock_Syscall 7 1 3 junk [76; 49] 2 5 = Ret c /\ message c = [0; 4; 76; 49; 32; 53].
Proof.
  destruct (name_requests 7 1 3 junk eq_refl [76; 49] 5 9) as [H _].
  - vm_compute. lia.
  - unfold is_i8. lia.
  - exact H.
Defined.

Lemma syscall_is_monitor_op_witness :
  exists r s' out, stub 7 1 3 junk (Monitor.OAcquire 0) = Ret r /\ reply_box r = 3 /\
    handle (mkConfig 0 1) [] 6 (reply_box r) (buffer (message r)) one_lock = Ret (s', out) /\ pristine s' /\
    (Monitor.mkMonitors [Monitor.mkMLock (Some 6) []] [Monitor.mkMCond None []], [(6, 3)]) = (abs s', dest <$> out).
Proof.
  apply (syscall_is_monitor_op 7 1 3 junk eq_refl (mkConfig 0 1) [] one_lock 6 (Monitor.OAcquire 0)).
  - exact one_lock_pristine.
  - lia.
  - cbn. unfold is_i8. lia.
Defined.
