(* ===== verification/SpaceFrame.v ===== *)
(** * What the memory system leaves alone in an address space

    Page faults change pages; the file table, the number of pages, the stacks
    handed out and the executable of every address space stay, whatever the
    replacement policy and without any invariant. *)

From S2P Require Import Prelude Interrupt BitMap Table Machine VM.

(** Everything of an address space but its page table. *)
Definition outline (a : AddrSpace) : Table * Z * list Z * File :=
  (fileTable a, numPages a, numPageQueue a, executable a).

Definition memory_locks : list KLock := [IPTLock; bitMapLock; TLBLock; swapFileLock].

(** The running space, the outlines of the spaces and the locks of other parts of
    the kernel are the same. *)
Definition same_outlines (v v' : VM) : Prop :=
  space v' = space v /\
  (forall s, outline <$> spaces v' !! s = outline <$> spaces v !! s) /\
  (forall l, l ∉ memory_locks -> l ∈ locks v' <-> l ∈ locks v).

#[export] Instance same_outlines_preorder : PreOrder same_outlines.
Proof.
  split; [done|]. intros u v w (? & H1 & L1) (? & H2 & L2). split; [congruence|]. split.
  - intros s. by rewrite H2, H1.
  - intros l Hl. by rewrite L2, L1.
Qed.

(** Inversion of a sequence of steps, pairs included. *)
Ltac inv_steps :=
  repeat match goal with
  | H : bind _ _ = Ret _ |- _ => apply bind_Ret in H; destruct H as (? & ? & ?)
  | H : (let '(_, _) := ?p in _) = Ret _ |- _ => destruct p
  | H : Ret _ = Ret _ |- _ => injection H as H
  | H : Undef = Ret _ |- _ => discriminate H
  | H : Abort = Ret _ |- _ => discriminate H
  | p : (_ * _)%type |- _ => destruct p
  end.

Lemma update_page_outline s n f v v' : update_page s n f v = Ret v' -> same_outlines v v'.
Proof.
  unfold update_page, deref. intros H. destruct (spaces v !! s) as [a|] eqn:Ha; [|done].
  inv_steps. simplify_eq. cbn. split; [done|]. split; [|done]. intros s'. cbn. destruct (decide (s' = s)) as [->|Hs].
  - by rewrite lookup_alter_eq, Ha.
  - by rewrite lookup_alter_ne.
Qed.

Lemma update_IPT_outline p f v v' : update_IPT p f v = Ret v' -> same_outlines v v'.
Proof. unfold update_IPT. intros H. inv_steps. by simplify_eq. Qed.

Section Outline.
Context {env : VMEnv}.
Context (quiet : forall s, OneTick s = Ret s).

Lemma Acquire_outline l v : l ∈ memory_locks -> same_outlines v (Acquire l v).
Proof using.
  intros Hl. unfold Acquire. case_decide; [done|]. split; [done|]. split; [done|].
  intros l' Hl'. cbn. rewrite elem_of_cons. split; [intros [->|]; [contradiction|done] | by right].
Qed.

Lemma Release_outline l v : l ∈ memory_locks -> same_outlines v (Release l v).
Proof using.
  intros Hl. split; [done|]. split; [done|]. intros l' Hl'. cbn. rewrite list_elem_of_filter.
  split; [by intros [_ ?]|]. intros ?. split; [|done]. by intros ->.
Qed.

Ltac memory_lock := unfold memory_locks; rewrite !elem_of_cons; tauto.

Lemma drop_slot_outline p i m v m' v' : drop_slot p i (m, v) = Ret (m', v') -> same_outlines v v'.
Proof using.
  unfold drop_slot. destruct (tlb m); [|done]. intros H. apply bind_Ret in H as (e & _ & H).
  destruct (physicalPage e =? p); inv_steps; simplify_eq; [by eapply update_IPT_outline | done].
Qed.

Lemma for_upto_outline i n (f : Z -> Machine * VM -> C (Machine * VM)) m v m' v' :
  (forall j m v m' v', f j (m, v) = Ret (m', v') -> same_outlines v v') ->
  for_upto i n f (m, v) = Ret (m', v') -> same_outlines v v'.
Proof using.
  intros Hf. revert i m v. induction n as [|n IH]; intros i m v; cbn [for_upto]; intros H.
  - by injection H as <- <-.
  - apply bind_Ret in H as ([m1 v1] & H1 & H). etransitivity; [by eapply Hf | by eapply IH].
Qed.

Lemma evict_owner_outline ie f v v' :
  (forall s n v v', f s n v = Ret v' -> same_outlines v v') ->
  evict_owner ie f v = Ret v' -> same_outlines v v'.
Proof using. intros Hf. unfold evict_owner. destruct (owner ie); [apply Hf | done]. Qed.

Lemma swap_out_outline p ie m v q m' v' :
  (if dirty (ientry ie) then
     let v := Acquire swapFileLock v in
     let! (swapLoc, bm) := Find (swapFileBitMap v) in
     if swapLoc =? -1 then Abort
     else
       let! f := WriteAt (swapFile v)
         (take (Z.to_nat PageSize) (drop (Z.to_nat (p * PageSize)) (mainMemory m)))
         (swapLoc * PageSize) in
       let v := set_swap bm f v in
       let! v := evict_owner ie (fun s vpn => swappedPage s vpn swapLoc) v in
       Ret (p, (m, Release swapFileLock v))
   else
     let! v := evict_owner ie evictedPage v in Ret (p, (m, v))) = Ret (q, (m', v')) ->
  same_outlines v v'.
Proof using.
  destruct (dirty (ientry ie)); cbv zeta; intros H.
  - apply bind_Ret in H as ([w bm] & _ & H). destruct (w =? -1); [done|].
    apply bind_Ret in H as (f & _ & H). apply bind_Ret in H as (v3 & H3 & H). injection H as _ _ <-.
    apply evict_owner_outline in H3; [|intros; by eapply update_page_outline].
    transitivity (Acquire swapFileLock v); [apply Acquire_outline; memory_lock|].
    transitivity v3; [exact H3 | apply Release_outline; memory_lock].
  - apply bind_Ret in H as (v3 & H3 & H). injection H as _ _ <-.
    by apply evict_owner_outline in H3; [|intros; by eapply update_page_outline].
Qed.

Lemma HandleMemoryFull_outline m v p m' v' :
  HandleMemoryFull (m, v) = Ret (p, (m', v')) -> same_outlines v v'.
Proof using.
  unfold HandleMemoryFull. destruct (if PRand v then _ else _) as [ppn v1] eqn:E.
  assert (same_outlines v v1) as H1.
  { destruct (PRand v); [destruct (rand (seed v))|]; by injection E as <- <-. }
  intros H. apply bind_Ret in H as ([m2 v2] & H2 & H). apply bind_Ret in H as (ie & _ & H).
  transitivity v1; [exact H1|].
  transitivity (Acquire TLBLock v1); [apply Acquire_outline; memory_lock|].
  transitivity v2; [eapply for_upto_outline, H2; intros; by eapply drop_slot_outline|].
  transitivity (Release TLBLock v2); [apply Release_outline; memory_lock|].
  by eapply swap_out_outline.
Qed.

Lemma load_page_outline x e p m v m' v' : load_page x e p (m, v) = Ret (m', v') -> same_outlines v v'.
Proof using.
  unfold load_page. intros H. destruct (location e =? 1); [inv_steps; by simplify_eq|].
  destruct (location e =? 0); [|by injection H as _ <-].
  apply bind_Ret in H as (d & _ & H). apply bind_Ret in H as (mem & _ & H). injection H as _ <-.
  transitivity (Acquire swapFileLock v); [apply Acquire_outline | apply Release_outline]; memory_lock.
Qed.

Lemma IPTMiss_outline s n p m v m' v' : IPTMiss s n p (m, v) = Ret (m', v') -> same_outlines v v'.
Proof using.
  unfold IPTMiss. intros H. apply bind_Ret in H as (m1 & _ & H). apply bind_Ret in H as (a & _ & H).
  apply bind_Ret in H as (e & _ & H). apply bind_Ret in H as ([m2 v2] & H2 & H).
  apply bind_Ret in H as (v3 & H3 & H). apply bind_Ret in H as (v4 & H4 & H). injection H as <- <-.
  etransitivity; [by eapply load_page_outline|]. etransitivity; [by eapply update_page_outline|].
  by eapply update_IPT_outline.
Qed.

Lemma updateTLB_outline p m v m' v' : updateTLB p (m, v) = Ret (m', v') -> same_outlines v v'.
Proof using.
  unfold updateTLB. destruct (tlb m) as [t|]; [|done]. intros H.
  apply bind_Ret in H as (e & _ & H). apply bind_Ret in H as (v2 & H2 & H).
  apply bind_Ret in H as (ie & _ & H). apply bind_Ret in H as (t' & _ & H). injection H as _ <-.
  transitivity (Acquire TLBLock v); [apply Acquire_outline; memory_lock|].
  transitivity v2; [destruct (dirty e); [by eapply update_IPT_outline | by injection H2 as <-]|].
  exact (Release_outline TLBLock v2 ltac:(memory_lock)).
Qed.

Lemma HandleIPTMiss_outline n m v q m' v' :
  HandleIPTMiss n (m, v) = Ret (q, (m', v')) -> same_outlines v v'.
Proof using.
  unfold HandleIPTMiss. intros H. apply bind_Ret in H as ([q1 bm] & _ & H).
  apply bind_Ret in H as ([q2 [m5 v5]] & H5 & H).
  destruct (space v5); [|done]. apply bind_Ret in H as ([m6 v6] & H6 & H). injection H as _ _ <-.
  apply IPTMiss_outline in H6.
  transitivity (Acquire bitMapLock v); [apply Acquire_outline; memory_lock|].
  transitivity v5; [|transitivity v6; [exact H6 | apply Release_outline; memory_lock]].
  destruct (q1 =? -1); [by apply HandleMemoryFull_outline in H5 | by injection H5 as _ _ <-].
Qed.

Lemma SetLevel_outline l m v l' m' v' : SetLevel l (m, v) = Ret (l', (m', v')) -> same_outlines v v'.
Proof using quiet.
  unfold SetLevel. intros H. case_decide; rewrite ?quiet in H; cbn [bind] in H; by injection H as _ _ <-.
Qed.

Lemma HandlePageFault_outline m v m' v' :
  HandlePageFault (m, v) = Ret (m', v') -> same_outlines v v'.
Proof using quiet.
  unfold HandlePageFault. intros H. apply bind_Ret in H as ([l [m1 v1]] & H1 & H).
  apply bind_Ret in H as (bad & _ & H). apply bind_Ret in H as (p & _ & H).
  apply bind_Ret in H as ([q [m2 v2]] & H2 & H). apply bind_Ret in H as ([m3 v3] & H3 & H).
  apply bind_Ret in H as ([l' [m4 v4]] & H4 & H). injection H as _ <-.
  apply SetLevel_outline in H1, H4. apply updateTLB_outline in H3.
  transitivity v1; [exact H1|]. transitivity (Acquire IPTLock v1); [apply Acquire_outline; memory_lock|].
  transitivity v2; [|transitivity v3; [exact H3|transitivity (Release IPTLock v3); [|exact H4]]].
  2: apply Release_outline; memory_lock.
  destruct (p =? -1); [by apply HandleIPTMiss_outline in H2 | by injection H2 as _ _ <-].
Qed.

Lemma clear_frame_outline p m v m' v' : clear_frame p (m, v) = Ret (m', v') -> same_outlines v v'.
Proof using.
  unfold clear_frame. intros H. apply bind_Ret in H as (bm & _ & H). apply bind_Ret in H as (m1 & _ & H).
  by injection H as _ <-.
Qed.

(** Dropping a frame from the inverted page table and from the page table. *)
Lemma drop_frame_outline s p i f g v v' :
  (let v := Acquire IPTLock v in
   let! v := update_IPT p f v in
   let v := Release IPTLock v in update_page s i g v) = Ret v' -> same_outlines v v'.
Proof using.
  cbv zeta. intros H. apply bind_Ret in H as (v1 & H1 & H).
  apply update_IPT_outline in H1. apply update_page_outline in H.
  transitivity (Acquire IPTLock v); [apply Acquire_outline; memory_lock|].
  transitivity v1; [exact H1|]. transitivity (Release IPTLock v1); [|exact H].
  apply Release_outline; memory_lock.
Qed.

Lemma clearMem_outline s m v m' v' : clearMem s (m, v) = Ret (m', v') -> same_outlines v v'.
Proof using.
  unfold clearMem. intros H. apply bind_Ret in H as (a & _ & H). eapply for_upto_outline, H.
  clear. intros i m v m' v' H. apply bind_Ret in H as (a & _ & H). apply bind_Ret in H as (e & _ & H).
  destruct (valid (entry e)); [|by injection H as _ <-].
  apply bind_Ret in H as ([m1 v1] & H1 & H). apply clear_frame_outline in H1.
  transitivity (Acquire bitMapLock v); [apply Acquire_outline; memory_lock|].
  transitivity v1; [exact H1|]. transitivity (Release bitMapLock v1); [apply Release_outline; memory_lock|].
  apply bind_Ret in H as (v2 & H2 & H). apply bind_Ret in H as (v3 & H3 & H). injection H as _ <-.
  eapply (drop_frame_outline s). cbv zeta. rewrite H2. exact H3.
Qed.

Lemma clearStack_outline s n m v m' v' : clearStack s n (m, v) = Ret (m', v') -> same_outlines v v'.
Proof using.
  unfold clearStack. intros H. apply bind_Ret in H as ([m1 v1] & H1 & H). injection H as _ <-.
  transitivity (Acquire bitMapLock v); [apply Acquire_outline; memory_lock|].
  transitivity v1; [|apply Release_outline; memory_lock]. eapply for_upto_outline, H1.
  clear. intros i m v m' v' H. apply bind_Ret in H as (a & _ & H). apply bind_Ret in H as (e & _ & H).
  apply bind_Ret in H as ([m1 v1] & H1 & H). apply clear_frame_outline in H1.
  transitivity v1; [exact H1|].
  apply bind_Ret in H as (v2 & H2 & H). apply bind_Ret in H as (v3 & H3 & H). injection H as _ <-.
  eapply (drop_frame_outline s). cbv zeta. rewrite H2. exact H3.
Qed.
End Outline.
