(* ===== verification/Syscalls.v ===== *)
(** * System calls and processes (userprog/exception.cc, userprog/progtest.cc,
      threads/system.h)

    The kernel's entry point ExceptionHandler with every system call: files and
    console, processes and threads, the calls to the lock server (Rpc.v), page
    faults (VM.v). The state has the memory system's globals as a part; threads are
    known by their number, the switch between them is in Threads.v. *)

From S2P Require Import Prelude Interrupt BitMap Table Machine VM UserMemory Server Rpc.

(** ** State *)

(** What a system call needs of class Thread. *)
Record UThread := mkUThread { tname : list Z; mailBox : Z; tspace : option positive }.

(** system.h: struct Process; a thread is its number. *)
Record Process := mkProcess {
  pspace : positive;
  numThreads : Z;
  threadStacks : list (Z * Z)
}.

(** The function and argument of a forked thread. *)
Inductive Start := Exec_start | Fork_start (vaddr : Z).

(** The UNIX files under the stub file system, the OpenFile objects (file,
    currentOffset) by address, the processes and threads, the output, the words
    left to read on the standard input. [forked] are the threads given to the
    scheduler, in order; the kernel lock and condition tables (no longer filled)
    are the owners of their entries. *)
Record KState := mkK {
  kvm : VM;
  names : gmap (list Z) Z;
  inodes : gmap Z File;
  opens : gmap Z (Z * Z);
  nextPtr : Z;
  stdin : list (list Z);
  console : list Z;
  threads : gmap Z UThread;
  currentThread : Z;
  processTable : list Process;
  numMailBox : Z;
  forked : list (Z * Start);
  kernelLockTable : list positive;
  kernelCVTable : list positive;
  kstatus : MachineStatus;
  ticks : Z
}.

Definition set_kvm x k := mkK x (names k) (inodes k) (opens k) (nextPtr k) (stdin k) (console k) (threads k) (currentThread k) (processTable k) (numMailBox k) (forked k) (kernelLockTable k) (kernelCVTable k) (kstatus k) (ticks k).
Definition set_files nm ino op nx k := mkK (kvm k) nm ino op nx (stdin k) (console k) (threads k) (currentThread k) (processTable k) (numMailBox k) (forked k) (kernelLockTable k) (kernelCVTable k) (kstatus k) (ticks k).
Definition set_stdin x k := mkK (kvm k) (names k) (inodes k) (opens k) (nextPtr k) x (console k) (threads k) (currentThread k) (processTable k) (numMailBox k) (forked k) (kernelLockTable k) (kernelCVTable k) (kstatus k) (ticks k).
Definition set_console x k := mkK (kvm k) (names k) (inodes k) (opens k) (nextPtr k) (stdin k) x (threads k) (currentThread k) (processTable k) (numMailBox k) (forked k) (kernelLockTable k) (kernelCVTable k) (kstatus k) (ticks k).
Definition set_threads x n k := mkK (kvm k) (names k) (inodes k) (opens k) n (stdin k) (console k) x (currentThread k) (processTable k) (numMailBox k) (forked k) (kernelLockTable k) (kernelCVTable k) (kstatus k) (ticks k).
Definition set_processTable x k := mkK (kvm k) (names k) (inodes k) (opens k) (nextPtr k) (stdin k) (console k) (threads k) (currentThread k) x (numMailBox k) (forked k) (kernelLockTable k) (kernelCVTable k) (kstatus k) (ticks k).
Definition set_numMailBox x k := mkK (kvm k) (names k) (inodes k) (opens k) (nextPtr k) (stdin k) (console k) (threads k) (currentThread k) (processTable k) x (forked k) (kernelLockTable k) (kernelCVTable k) (kstatus k) (ticks k).
Definition set_forked x k := mkK (kvm k) (names k) (inodes k) (opens k) (nextPtr k) (stdin k) (console k) (threads k) (currentThread k) (processTable k) (numMailBox k) x (kernelLockTable k) (kernelCVTable k) (kstatus k) (ticks k).
Definition set_kstatus x k := mkK (kvm k) (names k) (inodes k) (opens k) (nextPtr k) (stdin k) (console k) (threads k) (currentThread k) (processTable k) (numMailBox k) (forked k) (kernelLockTable k) (kernelCVTable k) x (ticks k).

(** What the system calls use of the rest: [new char[n]] (the content of the new
    array), the new page tables' garbage, Thread::Yield, and one exchange with a
    server through the post office ([None]: Send failed). *)
Class KernelEnv := {
  newmem : Z -> list Z;
  newpages : nat -> PageTableEntry;
  newwords : nat -> Z;
  serversCount : Z;
  Yield : Machine * KState -> C (Machine * KState);
  transact : Rpc -> KState -> C (option (list Z) * KState)
}.

Definition lift (f : VM -> VM) (k : KState) : KState := set_kvm (f (kvm k)) k.
Definition lock (l : KLock) : KState -> KState := lift (VM.Acquire l).
Definition unlock (l : KLock) : KState -> KState := lift (VM.Release l).

(** [new char[n]]: a negative size has no meaning. *)
Definition new_chars `{!KernelEnv} (n : Z) : C (list Z) :=
  if n <? 0 then Undef else Ret (newmem n).

(** Bytes copied over the beginning of a buffer. *)
Definition fill (bs buf : list Z) : list Z := bs ++ drop (length bs) buf.

(** A char array as a C string. *)
Fixpoint c_string (buf : list Z) : C (list Z) :=
  match buf with
  | [] => Undef
  | c :: buf => if c =? 0 then Ret [] else let! s := c_string buf in Ret (c :: s)
  end.

(** [printf] and [cout] of a literal. *)
Definition newline : list Z := [10].
Definition say (str : string) (k : KState) : KState := set_console (console k ++ chars str ++ newline) k.

(** ** The stub file system (filesys/filesys.h:42-65, filesys/openfile.h:29-59) *)

(** OpenForWrite creates or truncates; that UNIX allows it is assumed. *)
Definition fs_Create (name : list Z) (k : KState) : KState :=
  match names k !! name with
  | Some i => set_files (names k) (<[i := []]> (inodes k)) (opens k) (nextPtr k) k
  | None =>
      let i := nextPtr k in
      set_files (<[name := i]> (names k)) (<[i := []]> (inodes k)) (opens k) (i + 1) k
  end.

(** The address of a new OpenFile, or NULL. *)
Definition fs_Open (name : list Z) (k : KState) : Z * KState :=
  match names k !! name with
  | None => (NULL, k)
  | Some i =>
      let p := nextPtr k in
      (p, set_files (names k) (inodes k) (<[p := (i, 0)]> (opens k)) (p + 1) k)
  end.

Definition open_file (p : Z) (k : KState) : C (Z * Z * File) :=
  match opens k !! p with
  | Some (i, off) => match inodes k !! i with Some f => Ret (i, off, f) | None => Undef end
  | None => Undef
  end.

(** OpenFile::Read and OpenFile::Write. *)
Definition file_Read (p n : Z) (k : KState) : C (list Z * KState) :=
  let! (i, off, f) := open_file p k in
  let! d := VM.ReadAt f n off in
  let off := off + Z.of_nat (length d) in
  Ret (d, set_files (names k) (inodes k) (<[p := (i, off)]> (opens k)) (nextPtr k) k).

Definition file_Write (p : Z) (from : list Z) (k : KState) : C KState :=
  let! (i, off, f) := open_file p k in
  let! f := VM.WriteAt f from off in
  let off := off + Z.of_nat (length from) in
  Ret (set_files (names k) (<[i := f]> (inodes k)) (<[p := (i, off)]> (opens k)) (nextPtr k) k).

Definition file_delete (p : Z) (k : KState) : KState :=
  set_files (names k) (inodes k) (delete p (opens k)) (nextPtr k) k.

(** ** Traps that are not system calls (exception.cc:1177-1182) *)

Section Kernel.
Context `{!VMEnv, !KernelEnv}.

Definition fault_handler (which : ExceptionType) '((m, k) : Machine * KState) : C (Machine * KState) :=
  match which with
  | PageFaultException => let! (m, v) := HandlePageFault (m, kvm k) in Ret (m, set_kvm v k)
  | SyscallException => Undef
  | _ => Abort
  end.

(** The kernel as the copy loops of a system call meet it: an access to user
    memory raises no system call. *)
#[export] Instance fault_kernel : Kernel KState :=
  {| ExceptionHandler := fault_handler; setMachineStatus st k := set_kstatus st k; kernelTicks k := ticks k |}.

Lemma fault_kernel_fault m k : ExceptionHandler PageFaultException (m, k) =
  let! (m', v') := HandlePageFault (m, kvm k) in Ret (m', set_kvm v' k).
Proof. done. Qed.

#[export] Instance fault_kernel_vm : VMKernel KState :=
  {| vm k := kvm k; set_vm v k := set_kvm v k; vm_set v k := eq_refl; vm_status st k := eq_refl;
     vm_fault := fault_kernel_fault |}.

Variable big : bool.
(** How often a copy loop may retry; [Undef] if it does not end. *)
Variable fuel : nat.

Definition copy_in (vaddr len : Z) (s : Machine * KState) : C (Z * list Z * (Machine * KState)) :=
  let! r := copyin big fuel (u32 vaddr) len s in
  match r with Some x => Ret x | None => Undef end.

Definition copy_out (vaddr len : Z) (buf : list Z) (s : Machine * KState) : C (Z * (Machine * KState)) :=
  copyout big (u32 vaddr) len buf s.

Definition thread_of (t : Z) (k : KState) : C UThread :=
  match threads k !! t with Some x => Ret x | None => Undef end.

(** [currentThread->space->fileTable = f(...)] *)
Definition with_fileTable {A} (f : Table -> C (A * Table)) (k : KState) : C (A * KState) :=
  match space (kvm k) with
  | None => Undef
  | Some s =>
      let! a := VM.deref (Some s) (kvm k) in
      let! (x, t) := f (fileTable a) in
      Ret (x, lift (update_space s (set_fileTable t)) k)
  end.

(** [currentThread->space->fileTable.Get(id)] *)
Definition get_file (id : Z) : KState -> C (Z * KState) :=
  with_fileTable (fun t => let! f := Get t id in Ret (f, t)).

(** ** Files and console *)

(** A name of [len] bytes from user memory, as a C string; [None]: the copy failed. *)
Definition user_name (vaddr len : Z) (s : Machine * KState) : C (option (list Z) * (Machine * KState)) :=
  let! buf := new_chars (len + 1) in
  let! (r, bs, s) := copy_in vaddr len s in
  if r =? -1 then Ret (None, s)
  else
    let! buf := aset (fill bs buf) len 0 in
    let! name := c_string buf in Ret (Some name, s).

Definition Create_Syscall (vaddr len : Z) (s : Machine * KState) : C (Machine * KState) :=
  let! (name, (m, k)) := user_name vaddr len s in
  match name with
  | None => Ret (m, say "Bad pointer passed to Create" k)
  | Some name => Ret (m, fs_Create name k)
  end.

Definition Open_Syscall (vaddr len : Z) (s : Machine * KState) : C (Z * (Machine * KState)) :=
  let! (name, (m, k)) := user_name vaddr len s in
  match name with
  | None => Ret (-1, (m, say "Bad pointer passed to Open" k))
  | Some name =>
      let '(f, k) := fs_Open name k in
      if f =? NULL then Ret (-1, (m, k))
      else
        let! (id, k) := with_fileTable (fun t => Put t f) k in
        Ret (id, (m, if id =? -1 then file_delete f k else k))
  end.

Definition ConsoleInput : Z := 0.
Definition ConsoleOutput : Z := 1.

Definition Write_Syscall (vaddr len id : Z) (s : Machine * KState) : C (Machine * KState) :=
  if id =? ConsoleInput then Ret s
  else
    let! buf := new_chars len in
    let! (r, bs, (m, k)) := copy_in vaddr len s in
    if r =? -1 then Ret (m, say "Bad pointer passed to to write: data not written" k)
    else
      let buf := fill bs buf in
      if id =? ConsoleOutput then Ret (m, set_console (console k ++ buf) k)
      else
        let! (f, k) := get_file id k in
        if f =? NULL then Ret (m, say "Bad OpenFileId passed to Write" k)
        else let! k := file_Write f buf k in Ret (m, k).

(** [scanf] writes the next word and its NUL into the buffer. *)
Definition scanf (buf : list Z) (k : KState) : C (list Z * KState) :=
  match stdin k with
  | [] => Ret (buf, k)
  | w :: ws =>
      if Z.of_nat (length w) <? Z.of_nat (length buf) then Ret (fill (w ++ [0]) buf, set_stdin ws k) else Undef
  end.

(** [copyout] of what was read, with the message if it fails. *)
Definition copy_read (vaddr len : Z) (buf : list Z) (s : Machine * KState) : C (Z * (Machine * KState)) :=
  let! (r, (m, k)) := copy_out vaddr len buf s in
  Ret (len, (m, if r =? -1 then say "Bad pointer passed to Read: data not copied" k else k)).

Definition Read_Syscall (vaddr len id : Z) (s : Machine * KState) : C (Z * (Machine * KState)) :=
  let '(m, k) := s in
  if id =? ConsoleOutput then Ret (-1, s)
  else
    let! buf := new_chars len in
    if id =? ConsoleInput then
      let! (buf, k) := scanf buf k in
      copy_read vaddr len buf (m, k)
    else
      let! (f, k) := get_file id k in
      if f =? NULL then Ret (-1, (m, say "Bad OpenFileId passed to Read" k))
      else
        let! (d, k) := file_Read f len k in
        let len := Z.of_nat (length d) in
        if 0 <? len then copy_read vaddr len (fill d buf) (m, k) else Ret (len, (m, k)).

Definition Close_Syscall (fd : Z) '((m, k) : Machine * KState) : C (Machine * KState) :=
  let! (f, k) := with_fileTable (fun t => Remove t fd) k in
  if f =? NULL then Ret (m, say "Tried to close an unopen file" k) else Ret (m, file_delete f k).

(** The decimal digits that [cout << n] prints. *)
Fixpoint digits (n : nat) (z : Z) (acc : list Z) : list Z :=
  match n with
  | O => acc
  | S n => let acc := (48 + z mod 10) :: acc in if z <? 10 then acc else digits n (z / 10) acc
  end.
Definition decimal (z : Z) : list Z := if z <? 0 then 45 :: digits 11 (- z) [] else digits 11 z [].

Definition Print_Syscall (vaddr size : Z) '((m, k) : Machine * KState) : C (Machine * KState) :=
  let k := lock outputLock k in
  let! buf := new_chars (size + 1) in
  let! (_, bs, (m, k)) := copy_in vaddr size (m, k) in
  let! buf := aset (fill bs buf) size 0 in
  let! str := c_string buf in
  Ret (m, unlock outputLock (set_console (console k ++ str) k)).

Definition PrintInt_Syscall (toPrint : Z) '((m, k) : Machine * KState) : Machine * KState :=
  let k := lock outputLock k in
  (m, unlock outputLock (set_console (console k ++ decimal toPrint) k)).

(** The digit at the end of the thread's name. *)
Definition GetID_Syscall (k : KState) : C Z :=
  let! t := thread_of (currentThread k) k in
  let! c := aref (tname t) (Z.of_nat (length (tname t)) - 1) in Ret (c - 48).

(** ** Processes *)

(** The loops over the process table: the index of the first process of a space. *)
Fixpoint find_process (sp : option positive) (l : list Process) (i : Z) : option Z :=
  match l with
  | [] => None
  | p :: l => if bool_decide (sp = Some (pspace p)) then Some i else find_process sp l (i + 1)
  end.

Definition update_process (i : Z) (f : Process -> Process) (k : KState) : KState :=
  set_processTable (alter f (Z.to_nat i) (processTable k)) k.

(** [f] on the first process of the space, if there is one. *)
Definition for_process (sp : option positive) (f : Process -> Process) (k : KState) : KState :=
  match find_process sp (processTable k) 0 with Some i => update_process i f k | None => k end.

Definition push_stack (t stack : Z) (p : Process) : Process :=
  mkProcess (pspace p) (numThreads p) (threadStacks p ++ [(t, stack)]).
Definition add_threads (d : Z) (p : Process) : Process :=
  mkProcess (pspace p) (numThreads p + d) (threadStacks p).

(** [new Thread(name, mailBox)] *)
Definition new_UThread (name : list Z) (mb : Z) (k : KState) : Z * KState :=
  let t := nextPtr k in
  (t, set_threads (<[t := mkUThread name mb None]> (threads k)) (t + 1) k).

Definition set_tspace (t : Z) (sp : option positive) (k : KState) : KState :=
  set_threads (alter (fun x => mkUThread (tname x) (mailBox x) sp) t (threads k)) (nextPtr k) k.

(** [t->Fork(func, arg)] *)
Definition fork_thread (t : Z) (st : Start) (k : KState) : KState :=
  set_forked (forked k ++ [(t, st)]) k.

(** [space->getNumPages()*PageSize - 16], an unsigned. *)
Definition next_stack (sp : positive) (k : KState) : C (Z * KState) :=
  let! (n, v) := getNumPages sp (kvm k) in
  Ret (u32 (n * PageSize - 16), set_kvm v k).

Definition record_stack (sp : option positive) (t stack : Z) (k : KState) : KState :=
  unlock processLock (for_process sp (push_stack t stack) (lock processLock k)).

Definition Exec_Thread '((m, k) : Machine * KState) : C (Machine * KState) :=
  let! a := VM.deref (space (kvm k)) (kvm k) in
  let! m := InitRegisters a m in
  Ret (RestoreState a m, k).

(** A new address space for the executable; [None]: the file cannot be opened. *)
Definition exec_space (name : list Z) (k : KState) : C (option positive * KState) :=
  let '(f, k) := fs_Open name k in
  if f =? NULL then Ret (None, k)
  else
    let! (_, _, file) := open_file f k in
    let! a := new_AddrSpace big file (newmem 40) newpages newwords newwords in
    let sp := fresh (dom (spaces (kvm k))) in
    Ret (Some sp, lift (fun v => set_spaces (<[sp := a]> (spaces v)) v) k).

(** The process with its first thread, the kernel lock held by Exec given back. *)
Definition new_process (sp : positive) (name : list Z) (k : KState) : Z * KState :=
  let k := set_processTable (processTable k ++ [mkProcess sp 1 []]) k in
  let k := unlock processLock k in
  let k := lock mailBoxLock k in
  let '(t, k) := new_UThread name (numMailBox k) k in
  let k := set_numMailBox (numMailBox k + 1) k in
  let k := unlock mailBoxLock k in
  (t, set_tspace t (Some sp) k).

Definition Exec_Syscall (vaddr size : Z) '((m, k) : Machine * KState) : C (Z * (Machine * KState)) :=
  let k := lock processLock k in
  let! (name, (m, k)) := user_name vaddr size (m, k) in
  match name with
  | None => Ret (-1, (m, say "Unable to read file name for Exec." k))
  | Some name =>
      let! (sp, k) := exec_space name k in
      match sp with
      | None =>
          let out := chars "Unable to open file - " ++ name ++ chars " - for Exec." in
          Ret (-1, (m, set_console (console k ++ out ++ newline) k))
      | Some sp =>
          let '(t, k) := new_process sp name k in
          let! (stack, k) := next_stack sp k in
          let k := record_stack (Some sp) t stack k in
          Ret (0, (m, fork_thread t Exec_start k))
      end
  end.

Definition Fork_Thread (vaddr : Z) '((m, k) : Machine * KState) : C (Machine * KState) :=
  match space (kvm k) with
  | None => Undef
  | Some sp =>
      let! (stack, k) := next_stack sp k in
      let k := record_stack (Some sp) (currentThread k) stack k in
      let! a := VM.deref (Some sp) (kvm k) in
      let m := RestoreState a m in
      let! m := WriteRegister m PCReg (i32 vaddr) in
      let! m := WriteRegister m NextPCReg (i32 (vaddr + 4)) in
      let! m := WriteRegister m StackReg (i32 stack) in
      Ret (m, k)
  end.

Definition Fork_Syscall (addr vaddr size id : Z) '((m, k) : Machine * KState) : C (Machine * KState) :=
  let k := lock processLock k in
  let k := for_process (space (kvm k)) (add_threads 1) k in
  let! buf := new_chars (size + 3) in
  let! (_, bs, (m, k)) := copy_in vaddr size (m, k) in
  let! buf := aset (fill bs buf) size 32 in
  let! buf := aset buf (size + 1) (i8 (id + 48)) in
  let! buf := aset buf (size + 2) 0 in
  let! name := c_string buf in
  let '(t, k) := new_UThread name 0 k in
  match space (kvm k) with
  | None => Undef
  | Some sp =>
      let! (m, v) := allocateStack sp newpages (m, kvm k) in
      let k := set_tspace t (Some sp) (set_kvm v k) in
      let k := unlock processLock k in
      Ret (m, fork_thread t (Fork_start (u32 addr)) k)
  end.

(** progtest.cc: StartProcess, up to machine->Run; [None]: no such file. *)
Definition StartProcess (filename : list Z) '((m, k) : Machine * KState) : C (option (Machine * KState)) :=
  let! (sp, k) := exec_space filename k in
  match sp with
  | None => Ret None
  | Some sp =>
      let k := set_tspace (currentThread k) (Some sp) (lift (set_space (Some sp)) k) in
      let! (stack, k) := next_stack sp k in
      let k := lock processLock k in
      let k := set_processTable (processTable k ++ [mkProcess sp 1 [(currentThread k, stack)]]) k in
      let k := unlock processLock k in
      let! s := Exec_Thread (m, k) in Ret (Some s)
  end.

(** ** Calls to a server *)

(** The request goes out with rand() and the thread's mailbox; a call that cannot
    send returns its failure value. *)
Definition rpc (f : Z -> Z -> Z -> list Z -> C Rpc) '((m, k) : Machine * KState) : C (Z * (Machine * KState)) :=
  let! t := thread_of (currentThread k) k in
  let '(r, sd) := rand (seed (kvm k)) in
  let k := lift (set_seed sd) k in
  let! c := f r serversCount (mailBox t) (newmem 40) in
  let! (reply, k) := transact c k in
  match reply with
  | None => Ret (on_failure c, (m, k))
  | Some response => let! v := on_reply c response in Ret (v, (m, k))
  end.

(** The calls that take a name copy it first. *)
Definition rpc_named (f : list Z -> Z -> Z -> Z -> list Z -> C Rpc) (vaddr size : Z) (s : Machine * KState) :
    C (Z * (Machine * KState)) :=
  let! buf := new_chars size in
  let! (r, bs, s) := copy_in vaddr size s in
  if r =? -1 then Ret (-1, s) else rpc (f (fill bs buf)) s.

(** ** Exit *)

(** The index and stack of the first entry of the thread. *)
Fixpoint find_stack (t : Z) (l : list (Z * Z)) (i : nat) : option (nat * Z) :=
  match l with
  | [] => None
  | (t', stack) :: l => if t =? t' then Some (i, stack) else find_stack t l (S i)
  end.

(** Destroying the entries of a space in a kernel table, with calls to a server. *)
Definition destroy_entries (table : KState -> list positive) (f : Z -> Z -> Z -> Z -> list Z -> C Rpc) (sp : positive)
    (s : Machine * KState) : C (Machine * KState) :=
  for_upto 0 (length (table s.2)) (fun i '(m, k) =>
    let! o := aref (table k) i in
    if decide (o = sp) then let! (_, s) := rpc (f i) (m, k) in Ret s else Ret (m, k)) s.

(** [currentThread->Finish()]: the thread is gone when another one runs. *)
Definition finish_thread (k : KState) : KState :=
  set_threads (delete (currentThread k) (threads k)) (nextPtr k) k.

Definition erase_process (i : Z) (k : KState) : KState :=
  set_processTable (delete (Z.to_nat i) (processTable k)) k.

(** The last thread of a process that is not the last process. *)
Definition exit_process (i : Z) (sp : positive) '((m, k) : Machine * KState) : C (Machine * KState) :=
  let! (m, v) := clearMem sp (m, kvm k) in
  let k := lock kernelLockLock (set_kvm v k) in
  let! (m, k) := destroy_entries kernelLockTable
    (fun i r n mb g => DestroyLock_Syscall r n mb g i) sp (m, k) in
  let k := unlock kernelLockLock k in
  let k := lock kernelCVLock k in
  let! (m, k) := destroy_entries kernelCVTable
    (fun i r n mb g => DestroyCondition_Syscall r n mb g i) sp (m, k) in
  let k := unlock kernelCVLock k in
  let k := lift (fun v => set_spaces (delete sp (spaces v)) v) k in
  Ret (m, finish_thread (unlock processLock (erase_process i k))).

(** A thread that is not the last of its process. *)
Definition exit_thread (i : Z) (p : Process) '((m, k) : Machine * KState) : C (Machine * KState) :=
  let k := update_process i (add_threads (-1)) k in
  match find_stack (currentThread k) (threadStacks p) 0 with
  | None => Undef
  | Some (j, stack) =>
      let! (m, v) := clearStack (pspace p) (i32 stack) (m, kvm k) in
      let k := set_kvm v k in
      let k := update_process i (fun p => mkProcess (pspace p) (numThreads p) (delete j (threadStacks p))) k in
      Ret (m, finish_thread (unlock processLock k))
  end.

(** [currentThread->Finish()] does not return. *)
Definition Exit_Syscall (status : Z) '((m, k) : Machine * KState) : C (Machine * KState) :=
  let k := set_console (console k ++ chars "Exit with status " ++ decimal status ++ newline) k in
  let k := lock processLock k in
  match find_process (space (kvm k)) (processTable k) 0 with
  | None => Undef
  | Some i =>
      let! p := aref (processTable k) i in
      if 1 <? numThreads p then exit_thread i p (m, k)
      else if Z.of_nat (length (processTable k)) =? 1 then Abort
      else exit_process i (pspace p) (m, k)
  end.

(** ** The entry point *)

(** syscall.h. *)
Definition SC_Halt : Z := 0.
Definition SC_Exit : Z := 1.
Definition SC_Exec : Z := 2.
Definition SC_Create : Z := 4.
Definition SC_Open : Z := 5.
Definition SC_Read : Z := 6.
Definition SC_Write : Z := 7.
Definition SC_Close : Z := 8.
Definition SC_Fork : Z := 9.
Definition SC_Yield : Z := 10.
Definition SC_CreateLock : Z := 11.
Definition SC_DestroyLock : Z := 12.
Definition SC_Acquire : Z := 13.
Definition SC_Release : Z := 14.
Definition SC_CreateCondition : Z := 15.
Definition SC_DestroyCondition : Z := 16.
Definition SC_Wait : Z := 17.
Definition SC_Signal : Z := 18.
Definition SC_Broadcast : Z := 19.
Definition SC_Print : Z := 20.
Definition SC_PrintInt : Z := 21.
Definition SC_GetID : Z := 22.
Definition SC_CreateMV : Z := 23.
Definition SC_DestroyMV : Z := 24.
Definition SC_SetMV : Z := 25.
Definition SC_GetMV : Z := 26.

(** The calls that return nothing leave 0 in [rv]. *)
Definition void (r : C (Machine * KState)) : C (Z * (Machine * KState)) := let! s := r in Ret (0, s).
Definition rpc_void (f : Z -> Z -> Z -> list Z -> C Rpc) (s : Machine * KState) : C (Z * (Machine * KState)) :=
  let! (_, s) := rpc f s in Ret (0, s).

(** The switch of ExceptionHandler, [r4] to [r7] the argument registers. Halt, an
    unknown type and Exit do not come back. *)
Definition system_call (type r4 r5 r6 r7 : Z) (s : Machine * KState) : C (Z * (Machine * KState)) :=
  if type =? SC_Exec then Exec_Syscall (u32 r4) r5 s
  else if type =? SC_Create then void (Create_Syscall (u32 r4) r5 s)
  else if type =? SC_Open then Open_Syscall (u32 r4) r5 s
  else if type =? SC_Write then void (Write_Syscall (u32 r4) r5 r6 s)
  else if type =? SC_Read then Read_Syscall (u32 r4) r5 r6 s
  else if type =? SC_Close then void (Close_Syscall r4 s)
  else if type =? SC_Fork then void (Fork_Syscall (u32 r4) (u32 r5) r6 r7 s)
  else if type =? SC_Yield then void (Yield s)
  else if type =? SC_CreateLock then
    rpc_named (fun b r n mb g => CreateLock_Syscall r n mb g b r5 r6) (u32 r4) r5 s
  else if type =? SC_DestroyLock then rpc_void (fun r n mb g => DestroyLock_Syscall r n mb g r4) s
  else if type =? SC_Acquire then rpc_void (fun r n mb g => Acquire_Syscall r n mb g r4) s
  else if type =? SC_Release then rpc_void (fun r n mb g => Release_Syscall r n mb g r4) s
  else if type =? SC_CreateCondition then
    rpc_named (fun b r n mb g => CreateCondition_Syscall r n mb g b r5 r6) (u32 r4) r5 s
  else if type =? SC_DestroyCondition then rpc_void (fun r n mb g => DestroyCondition_Syscall r n mb g r4) s
  else if type =? SC_Wait then rpc_void (fun r n mb g => Wait_Syscall r n mb g r4 r5) s
  else if type =? SC_Signal then rpc_void (fun r n mb g => Signal_Syscall r n mb g r4 r5) s
  else if type =? SC_Broadcast then rpc_void (fun r n mb g => Broadcast_Syscall r n mb g r4 r5) s
  else if type =? SC_Print then void (Print_Syscall (u32 r4) r5 s)
  else if type =? SC_PrintInt then Ret (0, PrintInt_Syscall r4 s)
  else if type =? SC_GetID then let! v := GetID_Syscall s.2 in Ret (v, s)
  else if type =? SC_CreateMV then
    rpc_named (fun b r n mb g => CreateMV_Syscall r n mb g b r5 r6 r7) (u32 r4) r5 s
  else if type =? SC_DestroyMV then rpc_void (fun r n mb g => DestroyMV_Syscall r n mb g r4) s
  else if type =? SC_SetMV then rpc_void (fun r n mb g => SetMV_Syscall r n mb g r4 r5 r6) s
  else if type =? SC_GetMV then rpc (fun r n mb g => GetMV_Syscall r n mb g r4 r5) s
  else Abort.

(** The return value, and the program counter past the system call. *)
Definition finish_syscall (rv : Z) (m : Machine) : C Machine :=
  let! m := WriteRegister m 2 rv in
  let! pc := ReadRegister m PCReg in
  let! m := WriteRegister m PrevPCReg pc in
  let! next := ReadRegister m NextPCReg in
  let! m := WriteRegister m PCReg next in
  let! pc := ReadRegister m PCReg in
  WriteRegister m NextPCReg (i32 (pc + 4)).

Definition ExceptionHandler_ (which : ExceptionType) (s : Machine * KState) : C (Machine * KState) :=
  let! type := ReadRegister s.1 2 in
  match which with
  | SyscallException =>
      let! r4 := ReadRegister s.1 4 in let! r5 := ReadRegister s.1 5 in
      let! r6 := ReadRegister s.1 6 in let! r7 := ReadRegister s.1 7 in
      if type =? SC_Exit then Exit_Syscall r4 s
      else
        let! (rv, (m, k)) := system_call type r4 r5 r6 r7 s in
        let! m := finish_syscall rv m in Ret (m, k)
  | _ => fault_handler which s
  end.
End Kernel.
