(* ===== verification/KernelFrame.v ===== *)
(** * What copying user memory leaves alone in the kernel

    System calls copy names and buffers with copyin and copyout, which may raise
    page faults. Whatever the addresses, only the memory system and the machine's
    status change, and of the memory system no more than SpaceFrame.v says. *)

From S2P Require Import Prelude Interrupt BitMap Table Machine VM UserMemory Server Rpc SpaceFrame Syscalls.

(** Only the memory system's part and the machine's status differ. *)
Definition only_memory (k k' : KState) : Prop :=
  k' = set_kstatus (kstatus k') (set_kvm (kvm k') k) /\ same_outlines (kvm k) (kvm k').

#[export] Instance only_memory_preorder : PreOrder only_memory.
Proof.
  split.
  - intros k. split; [by destruct k | reflexivity].
  - intros k1 k2 k3 [E1 O1] [E2 O2]. split; [|by transitivity (kvm k2)].
    rewrite E2, E1. done.
Qed.

Lemma only_status k st : only_memory k (set_kstatus st k).
Proof. split; [by destruct k | reflexivity]. Qed.

Section Frame.
Context {env : VMEnv}.
Context (quiet : forall s, OneTick s = Ret s).
Variable big : bool.
Variable fuel : nat.

Lemma RaiseException_only e a m k m' k' :
  RaiseException e a (m, k) = Ret (m', k') -> only_memory k k'.
Proof using quiet.
  unfold RaiseException. intros E. apply bind_Ret in E as (m1 & _ & E). apply bind_Ret in E as (m2 & _ & E).
  apply bind_Ret in E as ([m3 k3] & E3 & E). injection E as _ <-.
  cbn [ExceptionHandler setMachineStatus fault_kernel] in *. transitivity k3; [|apply only_status].
  destruct e; try done. cbn [fault_handler] in E3. apply bind_Ret in E3 as ([m4 v4] & E4 & E3). injection E3 as _ <-.
  apply (HandlePageFault_outline quiet) in E4. split; [done | exact E4].
Qed.

Lemma ReadMem_only a n m k r m' k' :
  ReadMem big a n (m, k) = Ret (r, (m', k')) -> only_memory k k'.
Proof using quiet.
  unfold ReadMem. intros E. apply bind_Ret in E as ([t m1] & _ & E). destruct t as [e|p].
  - apply bind_Ret in E as ([m2 k2] & E2 & E). injection E as _ _ <-. by eapply RaiseException_only.
  - apply bind_Ret in E as (x & _ & E). apply bind_Ret in E as (m2 & _ & E). by injection E as _ _ <-.
Qed.

Lemma WriteMem_only a n x m k r m' k' :
  WriteMem big a n x (m, k) = Ret (r, (m', k')) -> only_memory k k'.
Proof using quiet.
  unfold WriteMem. intros E. apply bind_Ret in E as ([t m1] & _ & E). destruct t as [e|p].
  - apply bind_Ret in E as ([m2 k2] & E2 & E). injection E as _ _ <-. by eapply RaiseException_only.
  - apply bind_Ret in E as (y & _ & E). apply bind_Ret in E as (m2 & _ & E). by injection E as _ _ <-.
Qed.

Lemma read_until_only n a m k x m' k' :
  read_until big n a (m, k) = Ret (Some (x, (m', k'))) -> only_memory k k'.
Proof using quiet.
  revert m k. induction n as [|n IH]; intros m k; cbn [read_until]; [done|]. intros E.
  apply bind_Ret in E as ([[p|] [m1 k1]] & E1 & E); apply ReadMem_only in E1.
  - injection E as _ _ <-. exact E1.
  - transitivity k1; [exact E1 | by eapply IH].
Qed.

Lemma copyin_loop_only n a buf m k r m' k' :
  copyin_loop big fuel a n buf (m, k) = Ret (Some (r, (m', k'))) -> only_memory k k'.
Proof using quiet.
  revert a buf m k. induction n as [|n IH]; intros a buf m k; cbn [copyin_loop]; intros E.
  - by injection E as _ _ <-.
  - apply bind_Ret in E as ([[x [m1 k1]]|] & E1 & E); [|done].
    transitivity k1; [by eapply read_until_only | by eapply IH].
Qed.

Lemma copy_in_only a n m k r bs m' k' :
  copy_in big fuel a n (m, k) = Ret (r, bs, (m', k')) -> only_memory k k' /\ r = n.
Proof using quiet.
  unfold copy_in, copyin. intros E. apply bind_Ret in E as (o & E1 & E).
  apply bind_Ret in E1 as ([[b [m1 k1]]|] & E2 & E1); injection E1 as <-; [|done].
  injection E as <- _ _ <-. split; [by eapply copyin_loop_only | done].
Qed.

Lemma copy_out_only a n buf m k r m' k' :
  copy_out big a n buf (m, k) = Ret (r, (m', k')) -> only_memory k k'.
Proof using quiet.
  unfold copy_out, copyout. generalize 0 at 1 as i. generalize (u32 a).
  revert m k. induction (Z.to_nat n) as [|j IH]; intros m k x i; cbn [copyout_loop]; intros E.
  - by injection E as _ _ <-.
  - apply bind_Ret in E as (b & _ & E). apply bind_Ret in E as ([ok [m1 k1]] & E1 & E).
    apply WriteMem_only in E1. destruct (negb ok); [by injection E as _ _ <-|].
    transitivity k1; [exact E1 | by eapply IH].
Qed.

Context {kenv : KernelEnv}.

Lemma user_name_only a n m k o m' k' :
  user_name big fuel a n (m, k) = Ret (o, (m', k')) -> only_memory k k'.
Proof using quiet.
  unfold user_name. intros E. apply bind_Ret in E as (buf & _ & E).
  apply bind_Ret in E as ([[r bs] [m1 k1]] & E1 & E). apply copy_in_only in E1 as [O1 _].
  destruct (r =? -1); [by injection E as _ _ <-|].
  apply bind_Ret in E as (b1 & _ & E). apply bind_Ret in E as (nm & _ & E). by injection E as _ _ <-.
Qed.
End Frame.
