(* ===== verification/Processes.v ===== *)
(** * The process table (userprog/exception.cc:235-339, 879-941; progtest.cc:24-57)

    The kernel decides when to free an address space and when to halt from the
    thread counts of the process table. Here: every count is the number of live
    threads of its space, through every system call. *)

From S2P Require Import Prelude Interrupt BitMap Table Machine VM UserMemory Server Rpc SpaceFrame Syscalls KernelFrame.

(** ** The invariant *)

(** A process table without the stacks. *)
Definition cores (l : list Process) : list (positive * Z) := (fun p => (pspace p, numThreads p)) <$> l.

(** The number of threads that run in a space. *)
Definition members (sp : positive) (ts : gmap Z UThread) : Z :=
  Z.of_nat (base.size (filter (fun tx => tspace tx.2 = Some sp) ts)).

Record counted_in (l : list (positive * Z)) (ts : gmap Z UThread) (live : gset positive) (next : Z) : Prop := {
  n_once : NoDup l.*1;
  n_count : forall i sp n, l !! i = Some (sp, n) -> n = members sp ts /\ 0 < n;
  n_live : forall sp, sp ∈ l.*1 -> sp ∈ live;
  n_home : forall t x sp, ts !! t = Some x -> tspace x = Some sp -> sp ∈ l.*1;
  n_ids : forall t, is_Some (ts !! t) -> t < next
}.

Definition live_spaces (k : KState) : gset positive := dom (spaces (kvm k)).

(** One process per space, its count the number of its threads; every thread that
    has a space has a process; nothing is registered in the kernel's old lock
    tables. *)
Definition counted (k : KState) : Prop :=
  counted_in (cores (processTable k)) (threads k) (live_spaces k) (nextPtr k) /\
  kernelLockTable k = [] /\ kernelCVTable k = [].

(** The running thread is known and runs in the current space. *)
Definition in_space (k : KState) : Prop :=
  exists x, threads k !! currentThread k = Some x /\ tspace x = space (kvm k).

(** ** Threads of a space *)

Lemma members_insert_new sp t x ts : ts !! t = None ->
  members sp (<[t := x]> ts) = members sp ts + (if decide (tspace x = Some sp) then 1 else 0).
Proof.
  intros Hn. unfold members. case_decide as Hx.
  - rewrite map_filter_insert_True, map_size_insert_None by (done || by apply map_lookup_filter_None_2; left). lia.
  - rewrite map_filter_insert_False, delete_id by done. lia.
Qed.

Lemma members_delete sp t x ts : ts !! t = Some x ->
  members sp (delete t ts) = members sp ts - (if decide (tspace x = Some sp) then 1 else 0).
Proof.
  intros Ht. rewrite <- (insert_delete_id ts t x Ht) at 2.
  rewrite members_insert_new by apply lookup_delete_eq. lia.
Qed.

(** A thread without a space gets one. *)
Lemma members_insert sp t x ts : (forall y, ts !! t = Some y -> tspace y = None) ->
  members sp (<[t := x]> ts) = members sp ts + (if decide (tspace x = Some sp) then 1 else 0).
Proof.
  intros Hn. destruct (ts !! t) as [y|] eqn:Hy; [|by apply members_insert_new].
  rewrite <- insert_delete_eq, members_insert_new by apply lookup_delete_eq.
  rewrite (members_delete sp t y), (Hn y), (decide_False (P := None = Some sp)) by done. lia.
Qed.

Lemma members_pos sp t x ts : ts !! t = Some x -> tspace x = Some sp -> 0 < members sp ts.
Proof.
  intros Ht Hx. rewrite <- (insert_delete_id ts t x Ht), members_insert_new, decide_True by (done || apply lookup_delete_eq).
  unfold members. lia.
Qed.

Lemma members_none sp ts : (forall t x, ts !! t = Some x -> tspace x <> Some sp) -> members sp ts = 0.
Proof.
  intros Hn. unfold members. assert (filter (fun tx : Z * UThread => tspace tx.2 = Some sp) ts = ∅) as ->.
  { apply map_empty. intros t. apply map_lookup_filter_None. destruct (ts !! t) eqn:E; [right|by left].
    intros y [= <-]. by eapply Hn. }
  by rewrite map_size_empty.
Qed.

(** ** What each operation does to the counts *)

Section Steps.
Context (l : list (positive * Z)) (ts : gmap Z UThread) (live : gset positive) (next : Z).
Context (N : counted_in l ts live next).

Definition homeless (t : Z) : Prop := forall y, ts !! t = Some y -> tspace y = None.

Lemma unused_id next' : next <= next' -> homeless next'.
Proof using N. intros Hn y Hy. enough (next' < next) by lia. apply N. by eexists. Qed.

Lemma counted_weaken live' next' : live ⊆ live' -> next <= next' -> counted_in l ts live' next'.
Proof using N.
  intros Hl Hn. constructor; try apply N; [intros; by apply Hl, N|].
  intros t Ht%N. lia.
Qed.

(** A new process with one thread. *)
Lemma counted_new sp t x next' : sp ∉ live -> tspace x = Some sp -> homeless t -> t < next' -> next <= next' ->
  counted_in (l ++ [(sp, 1)]) (<[t := x]> ts) ({[sp]} ∪ live) next'.
Proof using N.
  intros Hsp Hx Hid Ht Hnext. assert (sp ∉ l.*1) as Hl by (intros Hin; by apply Hsp, N).
  constructor.
  - rewrite fmap_app. apply NoDup_app. split; [apply N|]. split; [|apply NoDup_singleton].
    intros y Hy ->%list_elem_of_singleton. by apply Hl.
  - intros i sp' n Hi. rewrite members_insert by done. rewrite Hx.
    apply lookup_app_Some in Hi as [Hi|[_ Hi]].
    + destruct (n_count _ _ _ _ N _ _ _ Hi) as [-> Hpos]. rewrite decide_False; [lia|].
      intros [= ->]. apply Hl, list_elem_of_fmap. exists (sp', members sp' ts). split; [done|]. by eapply list_elem_of_lookup_2.
    + apply list_lookup_singleton_Some in Hi as [_ [= <- <-]]. rewrite decide_True by done.
      rewrite members_none; [lia|]. intros t' y Ht' Hy. by apply Hl, (n_home _ _ _ _ N t' y).
  - intros s'. rewrite fmap_app, elem_of_app; change [(sp, 1)].*1 with [sp]; rewrite list_elem_of_singleton. intros [Hin| ->]; [|set_solver].
    apply elem_of_union_r, N, Hin.
  - intros t' y s' Ht' Hy. rewrite fmap_app, elem_of_app; change [(sp, 1)].*1 with [sp]; rewrite list_elem_of_singleton.
    apply lookup_insert_Some in Ht' as [[<- <-]|[_ Ht']]; [right; congruence | left; by eapply (n_home _ _ _ _ N)].
  - intros t' [y Ht']. apply lookup_insert_Some in Ht' as [[<- _]|[_ Ht']]; [lia|].
    enough (t' < next) by lia. apply N. by eexists.
Qed.

Definition add_count (d : Z) (e : positive * Z) : positive * Z := (e.1, e.2 + d).

Lemma add_count_spaces d i : (alter (add_count d) i l).*1 = l.*1.
Proof using.
  apply list_eq. intros j. rewrite !list_lookup_fmap, list_lookup_alter.
  case_decide as Hij; [subst|]; by destruct (l !! _) as [[]|].
Qed.

Lemma same_index i j sp n n' : l !! i = Some (sp, n) -> l !! j = Some (sp, n') -> i = j.
Proof using N.
  intros Hi Hj. apply (NoDup_lookup l.*1 i j sp); [apply N|..]; by rewrite list_lookup_fmap, ?Hi, ?Hj.
Qed.

Lemma counted_alter_count d i sp n ts' :
  l !! i = Some (sp, n) -> (forall s, members s ts' = members s ts + (if decide (s = sp) then d else 0)) ->
  0 < n + d -> forall j s m, alter (add_count d) i l !! j = Some (s, m) -> m = members s ts' /\ 0 < m.
Proof using N.
  intros Hi Hm Hpos j s m Hj. rewrite Hm. rewrite list_lookup_alter in Hj. case_decide as Hij.
  - subst j. rewrite Hi in Hj. injection Hj as <- <-. rewrite decide_True by done.
    destruct (n_count _ _ _ _ N _ _ _ Hi) as [-> _]. lia.
  - destruct (n_count _ _ _ _ N _ _ _ Hj) as [-> Hp]. rewrite decide_False; [lia|].
    intros ->. apply Hij. by eapply same_index.
Qed.

(** A new thread of a process. *)
Lemma counted_fork i sp n t x next' :
  l !! i = Some (sp, n) -> tspace x = Some sp -> homeless t -> t < next' -> next <= next' ->
  counted_in (alter (add_count 1) i l) (<[t := x]> ts) live next'.
Proof using N.
  intros Hi Hx Hid Ht Hnext. constructor.
  - rewrite add_count_spaces. apply N.
  - eapply counted_alter_count; [exact Hi | | destruct (n_count _ _ _ _ N _ _ _ Hi); lia].
    intros s. rewrite members_insert by done. rewrite Hx. f_equal. repeat case_decide; congruence.
  - rewrite add_count_spaces. apply N.
  - intros t' y s Ht' Hy. rewrite add_count_spaces.
    apply lookup_insert_Some in Ht' as [[<- <-]|[_ Ht']]; [|by eapply N].
    rewrite Hx in Hy. injection Hy as <-. apply list_elem_of_fmap. exists (sp, n). split; [done|]. by eapply list_elem_of_lookup_2.
  - intros t' [y Ht']. apply lookup_insert_Some in Ht' as [[<- _]|[_ Ht']]; [lia|].
    enough (t' < next) by lia. apply N. by eexists.
Qed.

(** A thread that is not the last of its process ends. *)
Lemma counted_leave i sp n t x : l !! i = Some (sp, n) -> 1 < n -> ts !! t = Some x -> tspace x = Some sp ->
  counted_in (alter (add_count (-1)) i l) (delete t ts) live next.
Proof using N.
  intros Hi Hn Ht Hx. constructor.
  - rewrite add_count_spaces. apply N.
  - eapply counted_alter_count; [exact Hi | | lia].
    intros s. rewrite (members_delete s t x) by done. rewrite Hx. repeat case_decide; congruence || lia.
  - rewrite add_count_spaces. apply N.
  - intros t' y s Ht' Hy. rewrite add_count_spaces. apply lookup_delete_Some in Ht' as [_ Ht']. by eapply N.
  - intros t' [y Ht']. apply lookup_delete_Some in Ht' as [_ Ht']. apply N. by eexists.
Qed.

(** The last thread of a process ends, and the process with it. *)
Lemma counted_last i sp n t x : l !! i = Some (sp, n) -> n <= 1 -> ts !! t = Some x -> tspace x = Some sp ->
  counted_in (delete i l) (delete t ts) (live ∖ {[sp]}) next.
Proof using N.
  intros Hi Hn Ht Hx. destruct (n_count _ _ _ _ N _ _ _ Hi) as [En Hpos].
  assert (l.*1 ≡ₚ sp :: (delete i l).*1) as Hp
    by exact (fmap_Permutation fst _ _ (delete_Permutation l i (sp, n) Hi)).
  pose proof (n_once _ _ _ _ N) as Hnd. rewrite Hp in Hnd. apply NoDup_cons in Hnd as [Hnot Hnd].
  assert (forall s, s ∈ (delete i l).*1 <-> s ∈ l.*1 /\ s <> sp) as Hin.
  { intros s. rewrite Hp, elem_of_cons. split; [|by intros [[->|]?]].
    intros Hs. split; [by right|]. by intros ->. }
  constructor.
  - exact Hnd.
  - intros j s m Hj. assert (s <> sp) as Hs.
    { apply Hin, list_elem_of_fmap. exists (s, m). split; [done|]. by eapply list_elem_of_lookup_2. }
    assert (exists j', l !! j' = Some (s, m)) as [j' Hj'].
    { apply list_elem_of_lookup. rewrite (delete_Permutation l i (sp, n) Hi). right. by eapply list_elem_of_lookup_2. }
    destruct (n_count _ _ _ _ N _ _ _ Hj') as [-> ?]. rewrite (members_delete s t x), decide_False by congruence. lia.
  - intros s [Hs Hne]%Hin. apply elem_of_difference. split; [by apply N | by intros ->%elem_of_singleton].
  - intros t' y s Ht' Hy. apply lookup_delete_Some in Ht' as [Htt Ht']. apply Hin. split; [by eapply N|].
    intros ->. assert (0 < members sp (delete t ts)) as Hgt.
    { eapply (members_pos sp t' y); [|done]. by rewrite lookup_delete_ne. }
    rewrite (members_delete sp t x), decide_True in Hgt by done. lia.
  - intros t' [y Ht']. apply lookup_delete_Some in Ht' as [_ Ht']. apply N. by eexists.
Qed.
End Steps.

(** ** Calls that leave processes alone *)

Definition same_procs (k k' : KState) : Prop :=
  cores (processTable k') = cores (processTable k) /\ threads k' = threads k /\ nextPtr k <= nextPtr k' /\
  currentThread k' = currentThread k /\ space (kvm k') = space (kvm k) /\ live_spaces k' = live_spaces k /\
  kernelLockTable k' = kernelLockTable k /\ kernelCVTable k' = kernelCVTable k.

#[export] Instance same_procs_preorder : PreOrder same_procs.
Proof.
  split; [intros k; unfold same_procs; split_and!; done || lia|].
  intros k1 k2 k3 (A1 & A2 & A3 & A4 & A5 & A6 & A7 & A8) (B1 & B2 & B3 & B4 & B5 & B6 & B7 & B8).
  unfold same_procs; split_and!; congruence || lia.
Qed.

(** What a system call may do to the processes. *)
Definition stable (k k' : KState) : Prop := counted k /\ in_space k -> counted k' /\ in_space k'.

#[export] Instance stable_preorder : PreOrder stable.
Proof. split; [intros k Hk; exact Hk | intros k1 k2 k3 H1 H2 Hk; exact (H2 (H1 Hk))]. Qed.

Lemma same_procs_counted k k' : same_procs k k' -> counted k -> counted k'.
Proof.
  intros (E1 & E2 & E3 & _ & _ & E6 & E7 & E8) (N & T1 & T2). unfold counted.
  rewrite E1, E2, E6, E7, E8. split; [|done]. by eapply counted_weaken.
Qed.

Lemma same_procs_stable k k' : same_procs k k' -> stable k k'.
Proof.
  intros E [N (x & Hx & Hs)]. split; [by eapply same_procs_counted|].
  destruct E as (_ & E2 & _ & E4 & E5 & _). exists x. by rewrite E2, E4, E5.
Qed.

Lemma same_outlines_live v v' : same_outlines v v' -> dom (spaces v') = dom (spaces v).
Proof.
  intros (_ & Ho & _). apply set_eq. intros s. rewrite !elem_of_dom. specialize (Ho s).
  destruct (spaces v !! s), (spaces v' !! s); cbn in Ho; try done; split; eauto.
Qed.

Ltac procs := unfold same_procs; split_and!; try reflexivity; cbn; lia.

Lemma only_memory_procs k k' : only_memory k k' -> same_procs k k'.
Proof.
  intros [E O]. pose proof (same_outlines_live _ _ O) as Hd. destruct O as (Hs & _).
  unfold same_procs, live_spaces. rewrite Hs, Hd. rewrite E. procs.
Qed.

Lemma Acquire_space l v : space (VM.Acquire l v) = space v /\ spaces (VM.Acquire l v) = spaces v.
Proof. unfold VM.Acquire. by case_decide. Qed.

Lemma lock_procs l k : same_procs k (lock l k).
Proof.
  unfold same_procs, live_spaces, lock, lift. destruct (Acquire_space l (kvm k)) as [E1 E2].
  cbn [kvm set_kvm]. rewrite E1, E2. procs.
Qed.

Lemma unlock_procs l k : same_procs k (unlock l k).
Proof. procs. Qed.

Lemma fs_Create_procs nm k : same_procs k (fs_Create nm k).
Proof. unfold fs_Create. destruct (names k !! nm); procs. Qed.

Lemma fs_Open_procs nm k p k' : fs_Open nm k = (p, k') -> same_procs k k'.
Proof. unfold fs_Open. intros E. destruct (names k !! nm); injection E as _ <-; procs. Qed.

Lemma with_fileTable_procs {A} (f : Table -> C (A * Table)) k x k' :
  with_fileTable f k = Ret (x, k') -> same_procs k k'.
Proof.
  unfold with_fileTable. intros E. destruct (space (kvm k)) as [s|]; [|done].
  apply bind_Ret in E as (a & _ & E). apply bind_Ret in E as ([y t] & _ & E). injection E as _ <-.
  unfold same_procs, live_spaces. cbn. rewrite dom_alter_L. procs.
Qed.

Lemma file_Read_procs p n k d k' : file_Read p n k = Ret (d, k') -> same_procs k k'.
Proof.
  unfold file_Read. intros E. apply bind_Ret in E as ([[i off] f] & _ & E).
  apply bind_Ret in E as (d' & _ & E). injection E as _ <-. procs.
Qed.

Lemma file_Write_procs p d k k' : file_Write p d k = Ret k' -> same_procs k k'.
Proof.
  unfold file_Write. intros E. apply bind_Ret in E as ([[i off] f] & _ & E).
  apply bind_Ret in E as (d' & _ & E). injection E as <-. procs.
Qed.

Lemma getNumPages_live s v n v' : getNumPages s v = Ret (n, v') -> space v' = space v /\ dom (spaces v') = dom (spaces v).
Proof.
  unfold getNumPages. intros E. apply bind_Ret in E as (a & _ & E). destruct (numPageQueue a); [done|].
  injection E as _ <-. cbn. rewrite dom_alter_L. by destruct (Acquire_space (queueLock s) v) as [-> ->].
Qed.

Lemma next_stack_procs s k n k' : next_stack s k = Ret (n, k') -> same_procs k k'.
Proof.
  unfold next_stack. intros E. apply bind_Ret in E as ([x v] & E1 & E). injection E as _ <-.
  apply getNumPages_live in E1 as [Es Ed]. unfold same_procs, live_spaces. cbn. rewrite Es, Ed. procs.
Qed.

Lemma cores_alter f i l : (forall p, pspace (f p) = pspace p /\ numThreads (f p) = numThreads p) ->
  cores (alter f i l) = cores l.
Proof.
  intros Hf. apply list_eq. intros j. unfold cores. rewrite !list_lookup_fmap, list_lookup_alter.
  case_decide as Hij; [subst|done]. destruct (l !! j) as [p|]; [|done]. cbn. by destruct (Hf p) as [-> ->].
Qed.

Lemma record_stack_procs sp t stack k : same_procs k (record_stack sp t stack k).
Proof.
  unfold record_stack. transitivity (lock processLock k); [apply lock_procs|].
  etransitivity; [|apply unlock_procs]. unfold for_process. destruct (find_process _ _ _) as [i|]; [|done].
  split; [|procs]. cbn. by apply cores_alter.
Qed.

(** ** System calls on files and the console *)

Section Calls.
Context {env : VMEnv} {kenv : KernelEnv}.
Context (quiet : forall s, OneTick s = Ret s).
Variable big : bool.
Variable fuel : nat.

Lemma user_name_procs a n m k o m' k' : user_name big fuel a n (m, k) = Ret (o, (m', k')) -> same_procs k k'.
Proof using quiet. intros E. by eapply only_memory_procs, user_name_only. Qed.

Lemma copy_in_procs a n m k r bs m' k' : copy_in big fuel a n (m, k) = Ret (r, bs, (m', k')) -> same_procs k k'.
Proof using quiet. intros E. by apply (copy_in_only quiet) in E as [? _]; apply only_memory_procs. Qed.

Lemma Create_procs a n m k m' k' : Create_Syscall big fuel a n (m, k) = Ret (m', k') -> same_procs k k'.
Proof using quiet.
  unfold Create_Syscall. intros E. apply bind_Ret in E as ([o [m1 k1]] & E1 & E). apply user_name_procs in E1.
  transitivity k1; [exact E1|]. destruct o as [nm|]; injection E as _ <-; [apply fs_Create_procs | procs].
Qed.

Lemma Open_procs a n m k r m' k' : Open_Syscall big fuel a n (m, k) = Ret (r, (m', k')) -> same_procs k k'.
Proof using quiet.
  unfold Open_Syscall. intros E. apply bind_Ret in E as ([o [m1 k1]] & E1 & E). apply user_name_procs in E1.
  transitivity k1; [exact E1|]. destruct o as [nm|]; [|injection E as _ _ <-; procs].
  destruct (fs_Open nm k1) as [f k2] eqn:E2. apply fs_Open_procs in E2. transitivity k2; [exact E2|].
  destruct (f =? NULL); [by injection E as _ _ <-|].
  apply bind_Ret in E as ([id k3] & E3 & E). apply with_fileTable_procs in E3. injection E as _ _ <-.
  transitivity k3; [exact E3|]. destruct (id =? -1); procs.
Qed.

Lemma Write_procs a n id m k m' k' : Write_Syscall big fuel a n id (m, k) = Ret (m', k') -> same_procs k k'.
Proof using quiet.
  unfold Write_Syscall. intros E. destruct (id =? ConsoleInput); [by injection E as _ <-|].
  apply bind_Ret in E as (buf & _ & E). apply bind_Ret in E as ([[r bs] [m1 k1]] & E1 & E).
  apply copy_in_procs in E1. transitivity k1; [exact E1|]. destruct (r =? -1); [injection E as _ <-; procs|].
  destruct (id =? ConsoleOutput); [injection E as _ <-; procs|].
  apply bind_Ret in E as ([f k2] & E2 & E). apply with_fileTable_procs in E2. transitivity k2; [exact E2|].
  destruct (f =? NULL); [injection E as _ <-; procs|].
  apply bind_Ret in E as (k3 & E3 & E). apply file_Write_procs in E3. by injection E as _ <-.
Qed.

Lemma copy_read_procs a n buf m k r m' k' : copy_read big a n buf (m, k) = Ret (r, (m', k')) -> same_procs k k'.
Proof using quiet.
  unfold copy_read. intros E. apply bind_Ret in E as ([x [m1 k1]] & E1 & E). injection E as _ _ <-.
  apply (copy_out_only quiet), only_memory_procs in E1. transitivity k1; [exact E1|]. destruct (x =? -1); procs.
Qed.

Lemma scanf_procs buf k r k' : scanf buf k = Ret (r, k') -> same_procs k k'.
Proof using.
  unfold scanf. intros E. destruct (stdin k) as [|w ws]; [by injection E as _ <-|].
  destruct (_ <? _); [|done]. injection E as _ <-. procs.
Qed.

Lemma Read_procs a n id m k r m' k' : Read_Syscall big a n id (m, k) = Ret (r, (m', k')) -> same_procs k k'.
Proof using quiet.
  unfold Read_Syscall. intros E. destruct (id =? ConsoleOutput); [by injection E as _ _ <-|].
  apply bind_Ret in E as (buf & _ & E). destruct (id =? ConsoleInput).
  - apply bind_Ret in E as ([b k1] & E1 & E). apply scanf_procs in E1.
    transitivity k1; [exact E1 | by eapply copy_read_procs].
  - apply bind_Ret in E as ([f k1] & E1 & E). apply with_fileTable_procs in E1. transitivity k1; [exact E1|].
    destruct (f =? NULL); [injection E as _ _ <-; procs|].
    apply bind_Ret in E as ([d k2] & E2 & E). apply file_Read_procs in E2. transitivity k2; [exact E2|].
    cbv zeta in E. destruct (0 <? _); [by eapply copy_read_procs | by injection E as _ _ <-].
Qed.

Lemma Close_procs fd m k m' k' : Close_Syscall fd (m, k) = Ret (m', k') -> same_procs k k'.
Proof using.
  unfold Close_Syscall. intros E. apply bind_Ret in E as ([f k1] & E1 & E). apply with_fileTable_procs in E1.
  transitivity k1; [exact E1|]. destruct (f =? NULL); injection E as _ <-; procs.
Qed.

Lemma Print_procs a n m k m' k' : Print_Syscall big fuel a n (m, k) = Ret (m', k') -> same_procs k k'.
Proof using quiet.
  unfold Print_Syscall. intros E. apply bind_Ret in E as (buf & _ & E).
  apply bind_Ret in E as ([[r bs] [m1 k1]] & E1 & E). apply copy_in_procs in E1.
  apply bind_Ret in E as (b & _ & E). apply bind_Ret in E as (str & _ & E). injection E as _ <-.
  transitivity (lock outputLock k); [apply lock_procs|]. transitivity k1; [exact E1 | procs].
Qed.

Lemma PrintInt_procs z m k m' k' : PrintInt_Syscall z (m, k) = (m', k') -> same_procs k k'.
Proof using.
  unfold PrintInt_Syscall. intros E. injection E as _ <-.
  transitivity (lock outputLock k); [apply lock_procs | procs].
Qed.
End Calls.

(** ** Finding a process *)

Lemma find_process_Some sp l i j : find_process (Some sp) l i = Some j ->
  exists n p, j = i + Z.of_nat n /\ l !! n = Some p /\ pspace p = sp.
Proof.
  revert i. induction l as [|p l IH]; intros i; cbn [find_process]; [done|]. case_bool_decide as Hp; intros E.
  - injection E as <-. injection Hp as ->. exists 0%nat, p. split; [lia | done].
  - destruct (IH _ E) as (n & q & -> & Hn & Hq). exists (S n), q. split; [lia | done].
Qed.

Lemma find_process_None sp l i : find_process (Some sp) l i = None -> sp ∉ (cores l).*1.
Proof.
  revert i. induction l as [|p l IH]; intros i; cbn [find_process]; [intros _; apply not_elem_of_nil|].
  case_bool_decide as Hp; [done|]. intros E. cbn. rewrite elem_of_cons. intros [->|Hin]; [done|]. by eapply IH.
Qed.

Lemma find_process_in sp l : sp ∈ (cores l).*1 ->
  exists n p, find_process (Some sp) l 0 = Some (Z.of_nat n) /\ l !! n = Some p /\ pspace p = sp.
Proof.
  intros Hin. destruct (find_process (Some sp) l 0) as [j|] eqn:E; [|by apply find_process_None in E].
  destruct (find_process_Some _ _ _ _ E) as (n & p & -> & ?). by exists n, p.
Qed.

Lemma cores_add d i l : cores (alter (add_threads d) i l) = alter (add_count d) i (cores l).
Proof.
  apply list_eq. intros j. unfold cores. rewrite list_lookup_fmap, !list_lookup_alter, !list_lookup_fmap.
  case_decide as Hij; [subst|done]. by destruct (l !! j).
Qed.

Lemma cores_lookup l n p : l !! n = Some p -> cores l !! n = Some (pspace p, numThreads p).
Proof. intros Hn. unfold cores. by rewrite list_lookup_fmap, Hn. Qed.

(** The process of the running thread. *)
Lemma current_process k sp : counted k -> in_space k -> space (kvm k) = Some sp ->
  exists n p x, find_process (space (kvm k)) (processTable k) 0 = Some (Z.of_nat n) /\
    processTable k !! n = Some p /\ pspace p = sp /\
    threads k !! currentThread k = Some x /\ tspace x = Some sp.
Proof.
  intros [N _] (x & Hx & Hs) E. rewrite E in *.
  destruct (find_process_in sp (processTable k)) as (n & p & Hf & Hn & Hp); [by eapply N|].
  by exists n, p, x.
Qed.

(** ** Creating processes and threads *)

Section Creation.
Context {env : VMEnv} {kenv : KernelEnv}.
Context (quiet : forall s, OneTick s = Ret s).
Variable big : bool.
Variable fuel : nat.

Lemma exec_space_Some nm k sp k' : exec_space big nm k = Ret (Some sp, k') ->
  exists k1 a, same_procs k k1 /\ sp ∉ live_spaces k1 /\ k' = lift (fun v => set_spaces (<[sp := a]> (spaces v)) v) k1.
Proof using.
  unfold exec_space. intros E. destruct (fs_Open nm k) as [f k1] eqn:E1. apply fs_Open_procs in E1.
  destruct (f =? NULL); [done|]. apply bind_Ret in E as ([[? ?] file] & _ & E).
  apply bind_Ret in E as (a & _ & E). injection E as <- <-. exists k1, a. split; [exact E1|].
  split; [apply is_fresh | reflexivity].
Qed.

Lemma exec_space_None nm k k' : exec_space big nm k = Ret (None, k') -> same_procs k k'.
Proof using.
  unfold exec_space. intros E. destruct (fs_Open nm k) as [f k1] eqn:E1. apply fs_Open_procs in E1.
  destruct (f =? NULL); [by injection E as <-|]. apply bind_Ret in E as ([[? ?] file] & _ & E).
  by apply bind_Ret in E as (a & _ & E).
Qed.

Lemma lift_procs f k : space (f (kvm k)) = space (kvm k) -> spaces (f (kvm k)) = spaces (kvm k) ->
  same_procs k (lift f k).
Proof using. intros E1 E2. unfold same_procs, live_spaces. cbn [lift set_kvm kvm]. rewrite E1, E2. procs. Qed.

(** Exec's table entry, thread and space, without the locks. *)
Definition spawned (sp : positive) (a : AddrSpace) (nm : list Z) (k : KState) : KState :=
  set_kvm (set_spaces (<[sp := a]> (spaces (kvm k))) (kvm k))
    (set_processTable (processTable k ++ [mkProcess sp 1 []])
      (set_threads (<[nextPtr k := mkUThread nm (numMailBox k) (Some sp)]> (threads k)) (nextPtr k + 1) k)).

Lemma new_process_procs sp a nm k :
  let k' := lift (fun v => set_spaces (<[sp := a]> (spaces v)) v) k in
  same_procs (spawned sp a nm k) (new_process sp nm k').2.
Proof using.
  intros k'. unfold new_process, lock.
  set (k1 := unlock processLock _).
  assert (same_procs (set_threads (threads k) (nextPtr k) (spawned sp a nm k)) (lift (VM.Acquire mailBoxLock) k1)) as Hp.
  { transitivity k1; [procs | apply lock_procs]. }
  assert (numMailBox (lift (VM.Acquire mailBoxLock) k1) = numMailBox k) as Em by reflexivity.
  assert (nextPtr (lift (VM.Acquire mailBoxLock) k1) = nextPtr k) as En by reflexivity.
  revert Hp Em En. generalize (lift (VM.Acquire mailBoxLock) k1). clear.
  intros k2 (E1 & E2 & _ & E4 & E5 & E6 & E7 & E8) Em En.
  cbn [new_UThread snd]. rewrite Em. unfold same_procs.
  split_and!; [exact E1 | | cbn; lia | exact E4 | exact E5 | exact E6 | exact E7 | exact E8].
  cbn. rewrite En, alter_insert_eq. cbn in E2. by rewrite E2.
Qed.

Lemma spawned_stable sp a nm k : sp ∉ live_spaces k -> stable k (spawned sp a nm k).
Proof using.
  intros Hsp [[N [T1 T2]] (x & Hx & Hs)]. split; [split; [|done]|].
  - unfold live_spaces, spawned. cbn. rewrite dom_insert_L. unfold cores. rewrite fmap_app.
    apply (counted_new _ _ _ _ N); [done | done | by eapply unused_id | lia | lia].
  - exists x. split; [|done]. apply lookup_insert_Some. right. split; [|done]. cbn.
    intros E. enough (currentThread k < nextPtr k) by lia. apply N. by eexists.
Qed.

Lemma Exec_stable a n m k r m' k' : Exec_Syscall big fuel a n (m, k) = Ret (r, (m', k')) -> stable k k'.
Proof using quiet.
  unfold Exec_Syscall. intros E. apply bind_Ret in E as ([o [m1 k1]] & E1 & E).
  apply (user_name_procs quiet) in E1.
  transitivity k1; [apply same_procs_stable; transitivity (lock processLock k); [apply lock_procs | exact E1]|].
  destruct o as [nm|]; [|injection E as _ _ <-; apply same_procs_stable; procs].
  apply bind_Ret in E as ([[sp|] k2] & E2 & E).
  - destruct (exec_space_Some _ _ _ _ E2) as (k3 & a' & E3 & Hsp & ->).
    pose proof (new_process_procs sp a' nm k3) as Hn. cbv zeta in Hn.
    destruct (new_process sp nm _) as [t k4]. apply bind_Ret in E as ([stack k5] & E5 & E).
    injection E as _ _ <-. apply next_stack_procs in E5.
    transitivity k3; [by apply same_procs_stable|].
    transitivity (spawned sp a' nm k3); [by apply spawned_stable|]. apply same_procs_stable.
    transitivity k4; [exact Hn|]. transitivity k5; [exact E5|].
    etransitivity; [apply record_stack_procs | procs].
  - injection E as _ _ <-. apply exec_space_None in E2. apply same_procs_stable.
    transitivity k2; [exact E2 | procs].
Qed.
End Creation.

(** ** Threads that start, and threads that leave *)

Lemma allocateStack_live s g m v m' v' : allocateStack s g (m, v) = Ret (m', v') ->
  space v' = space v /\ dom (spaces v') = dom (spaces v).
Proof.
  unfold allocateStack. intros E. apply bind_Ret in E as (a & Ha & E).
  apply bind_Ret in E as (t1 & _ & E). apply bind_Ret in E as (t2 & _ & E). injection E as _ <-.
  assert (is_Some (spaces v !! s)) as Hs.
  { unfold VM.deref in Ha. rewrite (proj2 (Acquire_space _ _)), (proj2 (Acquire_space _ _)) in Ha. by destruct (spaces v !! s). }
  cbn -[VM.Acquire]. rewrite (proj1 (Acquire_space _ _)), (proj2 (Acquire_space _ _)).
  rewrite (proj1 (Acquire_space _ _)), (proj2 (Acquire_space _ _)). split; [done|].
  rewrite dom_insert_L. apply elem_of_dom in Hs. set_solver.
Qed.

Section Forking.
Context {env : VMEnv} {kenv : KernelEnv}.
Context (quiet : forall s, OneTick s = Ret s).
Variable big : bool.
Variable fuel : nat.

Lemma Fork_Thread_stable a m k m' k' : Fork_Thread a (m, k) = Ret (m', k') -> stable k k'.
Proof using.
  unfold Fork_Thread. intros E. destruct (space (kvm k)) as [sp|]; [|done].
  apply bind_Ret in E as ([stack k1] & E1 & E). apply next_stack_procs in E1.
  apply bind_Ret in E as (x & _ & E). apply bind_Ret in E as (m1 & _ & E).
  apply bind_Ret in E as (m2 & _ & E). apply bind_Ret in E as (m3 & _ & E). injection E as _ <-.
  apply same_procs_stable. transitivity k1; [exact E1 | apply record_stack_procs].
Qed.

(** The process of the running thread gets one more thread. *)
Definition forked_in (i : nat) (sp : positive) (nm : list Z) (k : KState) : KState :=
  set_processTable (alter (add_threads 1) i (processTable k))
    (set_threads (<[nextPtr k := mkUThread nm 0 (Some sp)]> (threads k)) (nextPtr k + 1) k).

Lemma forked_in_stable i p nm k : processTable k !! i = Some p -> stable k (forked_in i (pspace p) nm k).
Proof using.
  intros Hi [[N [T1 T2]] (x & Hx & Hs)]. split; [split; [|done]|].
  - cbn [forked_in set_processTable set_threads processTable threads nextPtr]. rewrite cores_add.
    eapply (counted_fork _ _ _ _ N _ _ _ _ _ _ (cores_lookup _ _ _ Hi)); [done | by eapply unused_id | lia | lia].
  - exists x. split; [|done]. apply lookup_insert_Some. right. split; [|done]. cbn.
    intros E. enough (currentThread k < nextPtr k) by lia. apply N. by eexists.
Qed.

Lemma for_process_current k n : find_process (space (kvm k)) (processTable k) 0 = Some (Z.of_nat n) -> forall f,
  for_process (space (kvm (lock processLock k))) f (lock processLock k) =
  lock processLock (update_process (Z.of_nat n) f k).
Proof using.
  intros E f. unfold for_process, lock. cbn [lift set_kvm processTable kvm].
  by rewrite (proj1 (Acquire_space _ _)), E.
Qed.

Lemma Fork_stable a va n id m k m' k' : Fork_Syscall big fuel a va n id (m, k) = Ret (m', k') -> stable k k'.
Proof using quiet.
  unfold Fork_Syscall. intros E Hst. pose proof Hst as [Hc Hin].
  apply bind_Ret in E as (buf & _ & E). apply bind_Ret in E as ([[r bs] [m1 k2]] & E2 & E).
  apply (copy_in_only quiet) in E2 as [E2 _].
  apply bind_Ret in E as (b1 & _ & E). apply bind_Ret in E as (b2 & _ & E). apply bind_Ret in E as (b3 & _ & E).
  apply bind_Ret in E as (nm & _ & E). cbn [new_UThread] in E.
  set (k3 := set_threads _ _ k2) in E. destruct (space (kvm k3)) as [sp|] eqn:Esp; [|done].
  apply bind_Ret in E as ([m4 v4] & E4 & E). injection E as _ <-. apply allocateStack_live in E4 as [Es4 Ed4].
  assert (space (kvm k) = Some sp) as Esp0.
  { rewrite <- Esp. change (space (kvm k3)) with (space (kvm k2)). destruct E2 as [_ (-> & _)].
    unfold for_process. destruct (find_process _ _ _); cbn -[VM.Acquire]; by rewrite (proj1 (Acquire_space _ _)). }
  destruct (current_process k sp Hc Hin Esp0) as (i & p & x & Hf & Hi & Hp & _).
  rewrite (for_process_current k i Hf) in E2.
  pose proof (forked_in_stable i p nm k Hi Hst) as Hst2. revert Hst2. apply same_procs_stable. rewrite Hp.
  assert (nextPtr k2 = nextPtr k) as En by (destruct E2 as [-> _]; reflexivity).
  apply only_memory_procs in E2 as (F1 & F2 & _ & F4 & F5 & F6 & F7 & F8).
  assert (space (kvm (lock processLock (update_process (Z.of_nat i) (add_threads 1) k))) = space (kvm k)) as Hs1
    by exact (proj1 (Acquire_space _ _)).
  assert (live_spaces (lock processLock (update_process (Z.of_nat i) (add_threads 1) k)) = live_spaces k) as Hd1
    by exact (f_equal dom (proj2 (Acquire_space _ _))).
  unfold same_procs.
  split_and!; [| | | exact F4 | | | exact F7 | exact F8].
  - etransitivity; [exact F1|]. cbn. by rewrite Nat2Z.id.
  - cbn [unlock lift fork_thread set_forked set_tspace set_kvm set_threads threads nextPtr k3 forked_in set_processTable].
    rewrite F2, En, alter_insert_eq. reflexivity.
  - cbn. lia.
  - etransitivity; [exact Es4|]. etransitivity; [exact F5|]. exact Hs1.
  - etransitivity; [exact Ed4|]. etransitivity; [exact F6|]. exact Hd1.
Qed.
End Forking.

(** ** The first process *)

Section First.
Context {env : VMEnv} {kenv : KernelEnv}.
Variable big : bool.

Lemma Exec_Thread_kernel m k m' k' : Exec_Thread (m, k) = Ret (m', k') -> k' = k.
Proof using.
  unfold Exec_Thread. intros E. apply bind_Ret in E as (a & _ & E). apply bind_Ret in E as (m1 & _ & E).
  by injection E as _ <-.
Qed.

(** Process, space and current thread of StartProcess, without locks and stack. *)
Definition started (sp : positive) (a : AddrSpace) (x : UThread) (k : KState) : KState :=
  set_kvm (set_space (Some sp) (set_spaces (<[sp := a]> (spaces (kvm k))) (kvm k)))
    (set_processTable (processTable k ++ [mkProcess sp 1 []])
      (set_threads (<[currentThread k := mkUThread (tname x) (mailBox x) (Some sp)]> (threads k)) (nextPtr k) k)).

Lemma started_counted sp a x k : sp ∉ live_spaces k -> counted k ->
  threads k !! currentThread k = Some x -> tspace x = None ->
  counted (started sp a x k) /\ in_space (started sp a x k).
Proof using.
  intros Hsp (N & T) Hx Hn. split; [split; [|done]|].
  - unfold live_spaces, started. cbn. rewrite dom_insert_L. unfold cores. rewrite fmap_app.
    apply (counted_new _ _ _ _ N); [done | done | intros y; congruence | apply N; by eexists | lia].
  - eexists. split; [apply lookup_insert_eq | done].
Qed.

Lemma StartProcess_counted nm m k x m' k' : counted k ->
  threads k !! currentThread k = Some x -> tspace x = None ->
  StartProcess big nm (m, k) = Ret (Some (m', k')) -> counted k' /\ in_space k'.
Proof using.
  unfold StartProcess. intros Hc Hx Hn E. apply bind_Ret in E as ([[sp|] k1] & E1 & E); [|done].
  destruct (exec_space_Some _ _ _ _ _ E1) as (k0 & a & E0 & Hsp & ->). clear E1.
  apply bind_Ret in E as ([stack k2] & E2 & E). apply next_stack_procs in E2.
  apply bind_Ret in E as ([m3 k3] & E3 & E). apply Exec_Thread_kernel in E3. injection E as _ <-. subst k3.
  pose proof (same_procs_counted _ _ E0 Hc) as Hc0. destruct E0 as (_ & Et & _ & Ec & _).
  destruct (started_counted sp a x k0 Hsp Hc0) as [Hc1 Hi1]; [by rewrite Et, Ec | done |].
  assert (same_procs (started sp a x k0)
    (set_processTable (processTable k0 ++ [mkProcess sp 1 []])
      (set_tspace (currentThread k0) (Some sp) (lift (set_space (Some sp))
        (lift (fun v => set_spaces (<[sp := a]> (spaces v)) v) k0))))) as Ha.
  { unfold same_procs. split_and!; try reflexivity.
    cbn [started set_processTable set_tspace set_kvm set_threads lift threads nextPtr currentThread kvm set_spaces].
    symmetry. apply map_eq. intros t. rewrite lookup_alter, lookup_insert. rewrite Et, Ec. 
    case_decide as Ht; [|done]. subst t. by rewrite Hx. }
  match type of E2 with same_procs ?k _ => set (k4 := k) in * end.
  match goal with |- counted ?k /\ in_space ?k => assert (same_procs (started sp a x k0) k) as Hb end.
  2: { apply (same_procs_stable _ _ Hb). by split. }
  destruct E2 as (F1 & F2 & F3 & F4 & F5 & F6 & F7 & F8). transitivity (set_processTable (processTable k0 ++ [mkProcess sp 1 []]) k4); [exact Ha|].
  transitivity (set_processTable (processTable k2 ++ [mkProcess sp 1 [(currentThread k2, stack)]]) k2).
  { unfold same_procs. split_and!; [| exact F2 | exact F3 | exact F4 | exact F5 | exact F6 | exact F7 | exact F8].
    cbn. unfold cores in F1 |- *. rewrite !fmap_app, F1. done. }
  etransitivity; [|apply unlock_procs].
  match goal with |- same_procs _ (set_processTable _ ?k) => transitivity (lock processLock (set_processTable (processTable k2 ++ [mkProcess sp 1 [(currentThread k2, stack)]]) k2)) end.
  { apply lock_procs. } procs.
Qed.
End First.

(** ** Exit *)

Section Exiting.
Context {env : VMEnv} {kenv : KernelEnv}.
Context (quiet : forall s, OneTick s = Ret s).

Lemma cores_delete i l : cores (delete i l) = delete i (cores l).
Proof. apply list_fmap_delete. Qed.

(** A thread that is not the last of its process: the count goes down by one. *)
Lemma exit_thread_counted i p x m k m' k' :
  counted k -> processTable k !! i = Some p -> 1 < numThreads p ->
  threads k !! currentThread k = Some x -> tspace x = Some (pspace p) ->
  exit_thread (Z.of_nat i) p (m, k) = Ret (m', k') ->
  counted k' /\ cores (processTable k') = alter (add_count (-1)) i (cores (processTable k)) /\
  threads k' = delete (currentThread k) (threads k) /\ live_spaces k' = live_spaces k.
Proof using.
  intros [N [T1 T2]] Hi Hn Hx Hs. unfold exit_thread. destruct (find_stack _ _ _) as [[j stack]|]; [|done].
  intros E. apply bind_Ret in E as ([m1 v1] & E1 & E). injection E as _ <-.
  apply clearStack_outline in E1. apply same_outlines_live in E1.
  match goal with |- counted ?k1 /\ _ => set (k' := k1) end.
  assert (cores (processTable k') = alter (add_count (-1)) i (cores (processTable k))) as Ec.
  { unfold k'. cbn. rewrite cores_alter by done. by rewrite Nat2Z.id, cores_add. }
  assert (threads k' = delete (currentThread k) (threads k)) as Et by reflexivity.
  assert (live_spaces k' = live_spaces k) as El by exact E1.
  split; [|done]. split; [|done]. rewrite Ec, Et, El.
  change (nextPtr k') with (nextPtr k).
  exact (counted_leave _ _ _ _ N i _ _ _ _ (cores_lookup _ _ _ Hi) Hn Hx Hs).
Qed.

(** The last thread of a process: process and space are gone. *)
Lemma exit_process_counted i p x m k m' k' :
  counted k -> processTable k !! i = Some p -> numThreads p <= 1 ->
  threads k !! currentThread k = Some x -> tspace x = Some (pspace p) ->
  exit_process (Z.of_nat i) (pspace p) (m, k) = Ret (m', k') ->
  counted k' /\ processTable k' = delete i (processTable k) /\
  threads k' = delete (currentThread k) (threads k) /\ live_spaces k' = live_spaces k ∖ {[pspace p]}.
Proof using.
  intros [N [T1 T2]] Hi Hn Hx Hs. unfold exit_process, destroy_entries. intros E.
  apply bind_Ret in E as ([m1 v1] & E1 & E). apply clearMem_outline in E1. apply same_outlines_live in E1.
  cbn -[VM.Acquire] in E. rewrite T1 in E. cbn -[VM.Acquire] in E. rewrite T2 in E. cbn -[VM.Acquire] in E.
  injection E as _ <-. 
  match goal with |- counted ?k1 /\ _ => set (k' := k1) end.
  assert (processTable k' = delete i (processTable k)) as Ec by (unfold k'; cbn; by rewrite Nat2Z.id).
  assert (threads k' = delete (currentThread k) (threads k)) as Et by reflexivity.
  assert (live_spaces k' = live_spaces k ∖ {[pspace p]}) as El.
  { unfold k', live_spaces. cbn -[VM.Acquire]. rewrite !(proj2 (Acquire_space _ _)). cbn -[VM.Acquire].
    rewrite !(proj2 (Acquire_space _ _)). by rewrite dom_delete_L, E1. }
  split; [|done]. split; [|done]. rewrite Ec, Et, El, cores_delete.
  change (nextPtr k') with (nextPtr k).
  exact (counted_last _ _ _ _ N i _ _ _ _ (cores_lookup _ _ _ Hi) Hn Hx Hs).
Qed.
End Exiting.

(** ** Every trap *)

Section Traps.
Context {env : VMEnv} {kenv : KernelEnv}.
Context (quiet : forall s, OneTick s = Ret s).
Variable big : bool.
Variable fuel : nat.
(** While the thread waits in Yield or for a server, other threads run; what they
    do to the processes is what the theorem below says of every thread. *)
Context (yield_ok : forall m k m' k', Yield (m, k) = Ret (m', k') -> stable k k').
Context (transact_ok : forall c k r k', transact c k = Ret (r, k') -> stable k k').

Lemma rpc_stable f m k r m' k' : rpc f (m, k) = Ret (r, (m', k')) -> stable k k'.
Proof using transact_ok.
  unfold rpc. intros E. apply bind_Ret in E as (t & _ & E). destruct (rand (seed (kvm k))) as [x sd].
  apply bind_Ret in E as (c & _ & E). apply bind_Ret in E as ([o k1] & E1 & E).
  transitivity (lift (set_seed sd) k); [apply same_procs_stable; procs|].
  transitivity k1; [by eapply transact_ok|].
  destruct o; [apply bind_Ret in E as (v & _ & E)|]; by injection E as _ _ <-.
Qed.

Lemma rpc_named_stable f a n m k r m' k' :
  rpc_named big fuel f a n (m, k) = Ret (r, (m', k')) -> stable k k'.
Proof using quiet transact_ok.
  unfold rpc_named. intros E. apply bind_Ret in E as (buf & _ & E).
  apply bind_Ret in E as ([[x bs] [m1 k1]] & E1 & E).
  transitivity k1; [by eapply same_procs_stable, (copy_in_procs quiet)|].
  destruct (x =? -1); [by injection E as _ _ <- | by eapply rpc_stable].
Qed.

Lemma void_Ret (r : C (Machine * KState)) v m' k' : void r = Ret (v, (m', k')) -> r = Ret (m', k').
Proof using. unfold void. intros E. apply bind_Ret in E as (s & -> & E). by injection E as _ ->. Qed.

Lemma rpc_void_Ret f s v m' k' : rpc_void f s = Ret (v, (m', k')) -> exists x, rpc f s = Ret (x, (m', k')).
Proof using. unfold rpc_void. intros E. apply bind_Ret in E as ([x s'] & -> & E). injection E as _ ->. eauto. Qed.

#[local] Hint Extern 1 (stable _ _) => eapply Exec_stable; eassumption : procs.
#[local] Hint Extern 1 (stable _ _) => eapply rpc_named_stable; eassumption : procs.
#[local] Hint Extern 1 (stable _ _) => eapply rpc_stable; eassumption : procs.
#[local] Hint Extern 1 (stable _ _) => eapply Fork_stable; eassumption : procs.
#[local] Hint Extern 1 (stable _ _) => eapply yield_ok; eassumption : procs.
#[local] Hint Extern 1 (stable _ _) => eapply same_procs_stable, Create_procs; eassumption : procs.
#[local] Hint Extern 1 (stable _ _) => eapply same_procs_stable, Open_procs; eassumption : procs.
#[local] Hint Extern 1 (stable _ _) => eapply same_procs_stable, Write_procs; eassumption : procs.
#[local] Hint Extern 1 (stable _ _) => eapply same_procs_stable, Read_procs; eassumption : procs.
#[local] Hint Extern 1 (stable _ _) => eapply same_procs_stable, Close_procs; eassumption : procs.
#[local] Hint Extern 1 (stable _ _) => eapply same_procs_stable, Print_procs; eassumption : procs.
#[local] Hint Extern 1 (stable _ _) => eapply same_procs_stable, PrintInt_procs; eassumption : procs.

Lemma system_call_stable type r4 r5 r6 r7 m k v m' k' :
  system_call big fuel type r4 r5 r6 r7 (m, k) = Ret (v, (m', k')) -> stable k k'.
Proof using quiet yield_ok transact_ok.
  unfold system_call. intros E.
  repeat match type of E with
  | (if ?b then _ else _) = Ret _ => destruct b
  end; try discriminate E; try (apply void_Ret in E); try (apply rpc_void_Ret in E as [? E]);
    try solve [eauto 2 with procs].
  - assert (PrintInt_Syscall r4 (m, k) = (m', k')) as E' by congruence. eauto with procs.
  - apply bind_Ret in E as (x & _ & E). by injection E as _ _ <-.
Qed.

Lemma Exit_counted st m k m' k' : counted k -> in_space k -> is_Some (space (kvm k)) ->
  Exit_Syscall st (m, k) = Ret (m', k') ->
  exists sp i n, space (kvm k) = Some sp /\ cores (processTable k) !! i = Some (sp, n) /\ counted k' /\
    threads k' = delete (currentThread k) (threads k) /\
    ((1 < n /\ cores (processTable k') = alter (add_count (-1)) i (cores (processTable k)) /\
        live_spaces k' = live_spaces k) \/
     (n = 1 /\ (1 < length (processTable k))%nat /\
        cores (processTable k') = delete i (cores (processTable k)) /\
        live_spaces k' = live_spaces k ∖ {[sp]})).
Proof using.
  intros Hc Hin [sp Hsp]. destruct (current_process k sp Hc Hin Hsp) as (i & p & x & Hf & Hi & Hp & Hx & Hxs).
  unfold Exit_Syscall. set (k0 := set_console _ k).
  assert (same_procs k (lock processLock k0)) as Hs by (transitivity k0; [procs | apply lock_procs]).
  destruct Hs as (F1 & F2 & F3 & F4 & F5 & F6 & F7 & F8).
  assert (counted (lock processLock k0)) as Hc0 by (by eapply (same_procs_counted k); [split_and!|]).
  change (processTable (lock processLock k0)) with (processTable k) in *. rewrite F5, Hf. intros E.
  assert (aref (processTable k) (Z.of_nat i) = Ret p) as Ha by (apply aref_Ret; rewrite Nat2Z.id; split; [lia|done]).
  rewrite Ha in E. cbn [bind] in E. rewrite <- F2, <- F4, <- F6. exists sp, i, (numThreads p).
  split; [done|]. split; [by rewrite <- Hp; apply cores_lookup|]. rewrite <- F4, <- F2 in Hx. subst sp.
  destruct (n_count _ _ _ _ (proj1 Hc) _ _ _ (cores_lookup _ _ _ Hi)) as [_ Hpos].
  destruct (Z.ltb_spec 1 (numThreads p)) as [Hn|Hn].
  - destruct (exit_thread_counted i p x m _ m' k' Hc0 Hi Hn Hx Hxs E) as (? & ? & ? & ?). eauto 10.
  - destruct (Z.eqb_spec (Z.of_nat (length (processTable k))) 1) as [|Hl]; [done|].
    destruct (exit_process_counted i p x m _ m' k' Hc0 Hi Hn Hx Hxs E) as (? & Ec & ? & ?).
    split; [done|]. split; [done|]. right. split; [lia|].
    apply lookup_lt_Some in Hi. split; [lia|]. rewrite Ec, cores_delete. done.
Qed.

Lemma fault_handler_procs which m k m' k' : fault_handler which (m, k) = Ret (m', k') -> same_procs k k'.
Proof using quiet.
  intros E. destruct which; try discriminate E. cbn [fault_handler] in E.
  apply bind_Ret in E as ([m1 v1] & E1 & E). injection E as _ <-.
  apply (HandlePageFault_outline quiet) in E1. apply only_memory_procs. split; [done | exact E1].
Qed.

(** C7: the thread counts of the process table are right after every trap. Start
    from a state in which the process table has one entry per address space, every
    entry's space exists and its count is the number of live threads of the space.
    After any trap that comes back to a thread (a page fault, or any of the 24
    system calls, whatever its arguments, user memory and file system, on success
    and on every error return), this is so again. If the trapping thread still
    exists it runs in the space the machine has; otherwise the trap was Exit and
    the thread is gone. What other threads do while this one waits in Yield or for
    a server is taken to keep the same invariant. *)
Theorem processes_counted which m k m' k' :
  counted k -> in_space k -> is_Some (space (kvm k)) ->
  ExceptionHandler_ big fuel which (m, k) = Ret (m', k') ->
  counted k' /\ (in_space k' \/ threads k' = delete (currentThread k) (threads k)).
Proof using quiet yield_ok transact_ok.
  intros Hc Hin Hsp E. unfold ExceptionHandler_ in E. apply bind_Ret in E as (type & _ & E).
  assert (stable k k' -> counted k' /\ (in_space k' \/ threads k' = delete (currentThread k) (threads k))) as Hst.
  { intros Hst. destruct (Hst (conj Hc Hin)). auto. }
  destruct (decide (which = SyscallException)) as [->|Hw].
  - apply bind_Ret in E as (r4 & _ & E). apply bind_Ret in E as (r5 & _ & E).
    apply bind_Ret in E as (r6 & _ & E). apply bind_Ret in E as (r7 & _ & E).
    destruct (type =? SC_Exit).
    + destruct (Exit_counted _ _ _ _ _ Hc Hin Hsp E) as (sp & i & n & _ & _ & ? & ? & _). auto.
    + apply bind_Ret in E as ([rv [m1 k1]] & E1 & E). apply bind_Ret in E as (m2 & _ & E).
      injection E as _ <-. by eapply Hst, system_call_stable.
  - assert (fault_handler which (m, k) = Ret (m', k')) as E' by (destruct which; exact E || done).
    by eapply Hst, same_procs_stable, fault_handler_procs.
Qed.

(** Exit stops the machine for the last thread of the last process, and nothing
    else than one thread, and its process if it was the process's last, goes
    otherwise. When the process table has one process and the running thread is
    its only thread, Exit halts. When Exit comes back (to another thread), the
    running thread is gone and either its space had other threads, all processes and
    spaces are still there and the count of its process is one less; or it was
    the only thread of its space, its process and space are gone, every other
    process has its count and its space, and there was another process. *)
Theorem Exit_outcome st m k sp :
  counted k -> in_space k -> space (kvm k) = Some sp ->
  (members sp (threads k) = 1 -> length (processTable k) = 1%nat -> Exit_Syscall st (m, k) = Abort) /\
  forall m' k', Exit_Syscall st (m, k) = Ret (m', k') ->
    counted k' /\ threads k' = delete (currentThread k) (threads k) /\
    exists i, cores (processTable k) !! i = Some (sp, members sp (threads k)) /\
    ((1 < members sp (threads k) /\ cores (processTable k') = alter (add_count (-1)) i (cores (processTable k)) /\
        live_spaces k' = live_spaces k) \/
     (members sp (threads k) = 1 /\ (1 < length (processTable k))%nat /\
        cores (processTable k') = delete i (cores (processTable k)) /\
        live_spaces k' = live_spaces k ∖ {[sp]})).
Proof using.
  intros Hc Hin Hsp. split.
  - intros Hm Hl. destruct (current_process k sp Hc Hin Hsp) as (i & p & x & Hf & Hi & Hp & _).
    unfold Exit_Syscall. set (k0 := lock processLock _).
    assert (space (kvm k0) = space (kvm k)) as -> by exact (proj1 (Acquire_space _ _)).
    change (processTable k0) with (processTable k). rewrite Hf.
    assert (aref (processTable k) (Z.of_nat i) = Ret p) as -> by (apply aref_Ret; rewrite Nat2Z.id; split; [lia|done]).
    cbn [bind]. destruct (n_count _ _ _ _ (proj1 Hc) _ _ _ (cores_lookup _ _ _ Hi)) as [En _].
    rewrite Hp, Hm in En. by rewrite En, Hl.
  - intros m' k' E. assert (is_Some (space (kvm k))) as Hs by eauto.
    destruct (Exit_counted _ _ _ _ _ Hc Hin Hs E) as (sp' & i & n & E1 & E2 & E3 & E4 & E5).
    rewrite Hsp in E1. injection E1 as <-. destruct (n_count _ _ _ _ (proj1 Hc) _ _ _ E2) as [-> _]. eauto 10.
Qed.
End Traps.

(** ** A kernel with one process *)

Module Demo.

#[export] Instance env : VMEnv := {| OneTick s := Ret s; rand s := (s, s + 1) |}.
#[export] Instance kenv : KernelEnv :=
  {| newmem n := replicate (Z.to_nat n) 0; newpages _ := mkPTE (mkTE 0 0 false false false false) 0 0 0;
     newwords _ := 0; serversCount := 1; Yield s := Ret s; transact _ k := Ret (None, k) |}.

Definition one_space : AddrSpace := mkAddrSpace (mkTable (mkBitMap 0 0 []) [] 0) [] 0 [] [].
Definition one_vm : VM :=
  mkVM [] 0 0 (mkBitMap 0 0 []) (mkBitMap 0 0 []) [] false 0 {[1%positive := one_space]} (Some 1%positive) [] IntOn.
Definition one_thread : gmap Z UThread := {[7 := mkUThread [109] 0 (Some 1%positive)]}.
Definition one_process : KState :=
  mkK one_vm ∅ ∅ ∅ 8 [] [] one_thread 7 [mkProcess 1 1 [(7, 1264)]] 1 [] [] []
    SystemMode 0.

(** A machine whose register 2 asks for PrintInt(42). *)
Definition trapping : Machine := mkMachine [] (<[4%nat := 42]> (<[2%nat := 21]> (replicate 40 0))) None None 0 false 0 [].

Lemma one_counted : counted one_process.
Proof.
  split; [|done]. constructor.
  - apply NoDup_singleton.
  - intros [|i] sp n E; [|done]. injection E as <- <-. split; [reflexivity | lia].
  - intros sp [= ->]%list_elem_of_singleton. by apply elem_of_dom.
  - intros t x sp Ht Hx. change (one_thread !! t = Some x) in Ht. unfold one_thread in Ht. apply lookup_singleton_Some in Ht as [<- <-]. injection Hx as <-. by apply list_elem_of_singleton.
  - intros t [x Ht]. change (one_thread !! t = Some x) in Ht. unfold one_thread in Ht. apply lookup_singleton_Some in Ht as [<- _]. done.
Qed.

Lemma one_in_space : in_space one_process.
Proof. eexists. split; [apply lookup_singleton_eq | done]. Qed.

Lemma processes_counted_witness :
  exists m' k', ExceptionHandler_ true 2 SyscallException (trapping, one_process) = Ret (m', k') /\
    console k' = [52; 50] /\ counted k'.
Proof.
  destruct (ExceptionHandler_ true 2 SyscallException (trapping, one_process)) as [[m' k']| |] eqn:E;
    [| vm_compute in E; discriminate E ..].
  exists m', k'. split; [reflexivity|]. split.
  - assert (console <$> (snd <$> Some (m', k')) = Some [52; 50]) as Hcon; [|by injection Hcon].
    transitivity (match ExceptionHandler_ true 2 SyscallException (trapping, one_process) with
                  | Ret (_, k) => Some (console k) | _ => None end); [by rewrite E | vm_compute; reflexivity].
  - refine (proj1 (processes_counted _ true 2 _ _ SyscallException trapping one_process m' k'
      one_counted one_in_space _ E)); [done | | | by eexists].
    + intros m k m1 k1 [= _ <-] Hk. exact Hk.
    + intros c k r k1 [= _ <-] Hk. exact Hk.
Defined.

Lemma Exit_outcome_witness : Exit_Syscall 0 (trapping, one_process) = Abort.
Proof.
  apply (proj1 (Exit_outcome 0 trapping one_process 1%positive one_counted one_in_space eq_refl)); reflexivity.
Defined.
End Demo.
