(* ===== verification/ExecProgram.v ===== *)
(** * Starting a process from user space (Exec_Syscall, userprog/exception.cc:242-293)

    The name of the executable is copied from user memory, wherever its pages are;
    the file is loaded into a new address space; process table, thread and stack
    are set up. *)

From S2P Require Import Prelude Interrupt BitMap Table Server Rpc Machine VM Paging Boot UserMemory SpaceFrame Syscalls KernelFrame Processes.

Section Buffers.
Context {env : VMEnv} {kenv : KernelEnv}.
Context (quiet : forall s, OneTick s = Ret s).
Context (newmem_length : forall n, 0 <= n -> Z.of_nat (length (newmem n)) = n).
Variable big : bool.
Implicit Types (m : Machine) (k : KState).

(** The bytes [bs] are in the running space at address [a]. *)
Definition has_bytes (s : positive) m k (a : Z) (bs : list Z) : Prop :=
  0 <= a /\ a + Z.of_nat (length bs) <= 2^31 /\
  forall i, (i < length bs)%nat -> byte_at s m k (a + Z.of_nat i) = bs !! i.

Lemma has_bytes_mapped s m k a bs : has_bytes s m k a bs -> mapped_range s m k a (Z.of_nat (length bs)).
Proof using.
  intros (Ha & _ & Hb) x Hx. specialize (Hb (Z.to_nat (x - a)) ltac:(lia)).
  rewrite Z2Nat.id in Hb by lia. replace (a + (x - a)) with x in Hb by lia. unfold byte_at in Hb.
  rewrite decide_True in Hb by lia.
  destruct (content m (vm k) s (page_number x)); [by eexists|]. cbn in Hb.
  symmetry in Hb. apply lookup_ge_None in Hb. lia.
Qed.

Lemma copy_in_ok s m k a bs f :
  runs s m k -> has_bytes s m k a bs -> Z.of_nat (length bs) <= swap_free (kvm k) ->
  exists m' k', copy_in big (S (S f)) a (Z.of_nat (length bs)) (m, k) = Ret (Z.of_nat (length bs), bs, (m', k')) /\
    runs s m' k' /\ others_kept s m k m' k' /\ (forall x, byte_at s m' k' x = byte_at s m k x) /\ only_memory k k' /\
    swap_free (kvm k) - Z.of_nat (length bs) <= swap_free (kvm k').
Proof using quiet.
  intros R Hb Hsw. pose proof (has_bytes_mapped _ _ _ _ _ Hb) as Hmap. destruct Hb as (Ha & Hend & Hb).
  destruct (copyin_spec big quiet s m k a (Z.of_nat (length bs)) f R Ha ltac:(lia) Hend Hmap Hsw)
    as (buf & m' & k' & Hr & Hlen & Hbuf & R' & Ho & Hsame & Hfree).
  assert (buf = bs) as ->.
  { apply list_eq. intros i. destruct (decide (i < length bs)%nat) as [Hi|Hi].
    - specialize (Hbuf (Z.of_nat i) ltac:(lia)). rewrite Nat2Z.id in Hbuf. by rewrite Hbuf, Hb.
    - rewrite !lookup_ge_None_2 by lia. done. }
  assert (copy_in big (S (S f)) a (Z.of_nat (length bs)) (m, k) = Ret (Z.of_nat (length bs), bs, (m', k'))) as Hc.
  { unfold copy_in. destruct (decide (a < 2^32)).
    - rewrite u32_small by (unfold is_u32; lia). by rewrite Hr.
    - lia. }
  exists m', k'. split; [exact Hc|]. split; [done|]. split; [done|]. split; [done|].
  apply (copy_in_only quiet) in Hc as [? _]. by split.
Qed.

Lemma new_chars_ok n : 0 <= n -> new_chars n = Ret (newmem n).
Proof using. intros Hn. unfold new_chars. by rewrite (proj2 (Z.ltb_ge _ _)). Qed.

Lemma c_string_ok bs post : Forall (fun c => c <> 0) bs -> c_string (bs ++ 0 :: post) = Ret bs.
Proof using.
  induction 1 as [|c bs Hc _ IH]; [done|]. cbn [app c_string]. rewrite (proj2 (Z.eqb_neq _ _)) by done. by rewrite IH.
Qed.

Lemma user_name_ok s m k a nm f :
  runs s m k -> has_bytes s m k a nm -> Forall (fun c => c <> 0) nm -> Z.of_nat (length nm) <= swap_free (kvm k) ->
  exists m' k', user_name big (S (S f)) a (Z.of_nat (length nm)) (m, k) = Ret (Some nm, (m', k')) /\
    runs s m' k' /\ others_kept s m k m' k' /\ (forall x, byte_at s m' k' x = byte_at s m k x) /\ only_memory k k'.
Proof using quiet newmem_length.
  intros R Hb Hnz Hsw. destruct (copy_in_ok s m k a nm f R Hb Hsw) as (m' & k' & Hr & R' & Ho & Hsame & Hk & _).
  exists m', k'. split; [|exact (conj R' (conj Ho (conj Hsame Hk)))]. unfold user_name. rewrite new_chars_ok by lia. cbn [bind].
  rewrite Hr. cbn [bind]. rewrite (proj2 (Z.eqb_neq _ (-1))) by lia.
  pose proof (newmem_length (Z.of_nat (length nm) + 1) ltac:(lia)) as Hl.
  assert (exists c, drop (length nm) (newmem (Z.of_nat (length nm) + 1)) = [c]) as [c Hd].
  { destruct (drop (length nm) (newmem _)) as [|c [|c' l]] eqn:E;
      apply (f_equal length) in E; rewrite length_drop in E; cbn [length] in E; [lia | by exists c | lia]. }
  unfold fill. rewrite Hd, aset_in by (rewrite length_app; cbn [length]; lia). cbn [bind].
  rewrite Nat2Z.id, insert_app_r_alt, Nat.sub_diag by lia. cbn [list_insert insert].
  change (<[0%nat := 0]> [c]) with [0]. by rewrite c_string_ok.
Qed.
End Buffers.

(** ** The memory system while a space is added *)

(** The invariant depends on the pages of the spaces only. *)
Lemma core_same_pages m v sps :
  core None 0 m v -> (forall s n, page_of (set_spaces sps v) s n = page_of v s n) -> core None 0 m (set_spaces sps v).
Proof.
  intros K Hp. set (v' := set_spaces sps v) in *.
  assert (forall p, clean m v p -> clean m v' p) as Hc.
  { intros p Hc ie s n x e Hi Ho Hn He. rewrite Hp in He. by apply (Hc ie s n x e). }
  constructor; try apply K.
  - split; [apply K|]. intros s n x e. rewrite Hp. apply K.
  - intros p ie Hi Hr. destruct (c_frame _ _ _ _ K p ie Hi Hr) as [Hb Hv]. split; [done|]. intros Hvi.
    destruct (Hv Hvi) as (? & ? & s & n & x & e & ? & ? & ? & ?). do 2 (split; [done|]).
    exists s, n, x, e. by rewrite Hp.
  - intros s n x e. rewrite Hp. apply K.
  - intros t j e Ht Hj Hv. destruct (c_slot _ _ _ _ K t j e Ht Hj Hv) as (? & p & s & n & ? & ? & ? & ? & ? & Hor).
    split; [done|]. exists p, s, n. do 5 (split; [done|]). destruct Hor; auto.
  - intros t p ie Ht Hi Hr Hv Hno. destruct (c_unmapped _ _ _ _ K t p ie Ht Hi Hr Hv Hno); auto.
Qed.

Lemma page_of_added v sp a s n : spaces v !! sp = None ->
  page_of (set_spaces (<[sp := a]> (spaces v)) v) s n =
  if decide (s = sp) then (fun e => (executable a, e)) <$> pages a !! n else page_of v s n.
Proof.
  intros Hn. unfold page_of. cbn. case_decide as Hs.
  - subst s. rewrite lookup_insert_eq. cbn. by destruct (pages a !! n).
  - by rewrite lookup_insert_ne.
Qed.

(** Taking a lock and giving it back around a change of the spaces. *)
Lemma bracket l v f : l ∉ locks v ->
  VM.Release l (update_space f.1 f.2 (VM.Acquire l v)) = update_space f.1 f.2 v.
Proof.
  intros Hl. rewrite Acquire_new by done. rewrite (Release_last l (locks v)) by done.
  by destruct v.
Qed.

Lemma getNumPages_spec sp v a n q : spaces v !! sp = Some a -> numPageQueue a = n :: q -> queueLock sp ∉ locks v ->
  getNumPages sp v = Ret (n, update_space sp (fun a => mkAddrSpace (fileTable a) (pages a) (numPages a) q (executable a)) v).
Proof.
  intros Ha Hq Hl. unfold getNumPages, VM.deref. rewrite (proj2 (Acquire_space _ _)), Ha. cbn [bind].
  rewrite Hq. do 2 f_equal. apply (bracket _ _ (sp, _) Hl).
Qed.

Lemma page_of_update v sp f s n :
  (forall a, pages (f a) = pages a /\ executable (f a) = executable a) ->
  page_of (update_space sp f v) s n = page_of v s n.
Proof.
  intros Hf. unfold page_of. cbn. destruct (decide (s = sp)) as [->|Hs]; [|by rewrite lookup_alter_ne].
  rewrite lookup_alter_eq. destruct (spaces v !! sp) as [a|]; [|done]. cbn. by destruct (Hf a) as [-> ->].
Qed.

(** ** The parts of Exec *)

Section Parts.
Context {env : VMEnv} {kenv : KernelEnv}.
Variable big : bool.

Lemma exec_space_ok nm k i h rest : names k !! nm = Some i -> inodes k !! i = Some (noff_bytes h ++ rest) ->
  0 < nextPtr k -> Forall is_i32 (noff_fields h) -> noffMagic h = NOFFMAGIC ->
  0 <= segSize (code h) + segSize (initData h) + segSize (uninitData h) < 2^30 ->
  exists a, new_AddrSpace big (noff_bytes h ++ rest) (newmem 40) newpages newwords newwords = Ret a /\
    exec_space big nm k = Ret (Some (fresh (live_spaces k)),
      lift (fun v => set_spaces (<[fresh (live_spaces k) := a]> (spaces v)) v)
        (set_files (names k) (inodes k) (<[nextPtr k := (i, 0)]> (opens k)) (nextPtr k + 1) k)).
Proof using.
  intros Hnm Hi Hp Hf Hm Hsz.
  destruct (new_AddrSpace_spec big h rest (newmem 40) newpages newwords newwords Hf Hm Hsz) as (a & Ha & _).
  exists a. split; [done|]. unfold exec_space, fs_Open. rewrite Hnm.
  rewrite (proj2 (Z.eqb_neq _ NULL)) by (unfold NULL; lia). unfold open_file. cbn [opens set_files inodes].
  rewrite lookup_insert_eq, Hi. cbn [bind]. rewrite Ha. reflexivity.
Qed.

Lemma exec_space_missing nm k : names k !! nm = None -> exec_space big nm k = Ret (None, k).
Proof using. intros Hnm. unfold exec_space, fs_Open. by rewrite Hnm. Qed.

(** The fields after new_process. *)
Lemma new_process_fields sp nm k : let r := new_process sp nm k in
  r.1 = nextPtr k /\ processTable r.2 = processTable k ++ [mkProcess sp 1 []] /\
  threads r.2 = <[nextPtr k := mkUThread nm (numMailBox k) (Some sp)]> (threads k) /\
  forked r.2 = forked k /\ numMailBox r.2 = numMailBox k + 1 /\
  kvm r.2 = VM.Release mailBoxLock (VM.Acquire mailBoxLock (VM.Release processLock (kvm k))).
Proof using.
  cbv zeta. do 2 (split; [reflexivity|]). split; [|do 2 (split; [reflexivity|]); reflexivity].
  cbn [new_process snd set_tspace threads set_threads nextPtr unlock lift set_kvm set_numMailBox new_UThread].
  by rewrite alter_insert_eq.
Qed.

(** The new process is the last of the table, and the only one of its space. *)
Lemma find_new sp l j : sp ∉ pspace <$> l -> forall p, pspace p = sp ->
  find_process (Some sp) (l ++ [p]) j = Some (j + Z.of_nat (length l)).
Proof using.
  revert j. induction l as [|q l IH]; intros j Hn p Hp; cbn [app find_process length].
  - rewrite bool_decide_eq_true_2 by congruence. f_equal. lia.
  - rewrite fmap_cons, not_elem_of_cons in Hn. destruct Hn as [Hq Hn].
    rewrite bool_decide_eq_false_2 by congruence. rewrite IH by done. f_equal. lia.
Qed.

Lemma record_new sp t stack l k : processTable k = l ++ [mkProcess sp 1 []] -> sp ∉ pspace <$> l ->
  processLock ∉ locks (kvm k) ->
  record_stack (Some sp) t stack k = set_processTable (l ++ [mkProcess sp 1 [(t, stack)]]) k.
Proof using.
  intros Hl Hn Hp. unfold record_stack, for_process, lock. cbn [lift set_kvm processTable].
  rewrite Hl, (find_new sp l 0 Hn) by done. unfold update_process, unlock, lift.
  cbn [set_kvm set_processTable processTable kvm]. rewrite Z.add_0_l, Nat2Z.id, Hl, alter_app_r_alt by lia.
  rewrite Nat.sub_diag. rewrite Acquire_new by done. rewrite (Release_last processLock (locks (kvm k))) by done.
  assert (set_locks (locks (kvm k)) (set_locks (processLock :: locks (kvm k)) (kvm k)) = kvm k) as -> by (by destruct (kvm k)).
  by destruct k.
Qed.
End Parts.

(** ** Exec *)

(** An executable: a NOFF header, of reasonable sizes, and the rest of the file. *)
Record executable_file (h : NoffHeader) (rest : list Z) : Prop := {
  x_fields : Forall is_i32 (noff_fields h);
  x_magic : noffMagic h = NOFFMAGIC;
  x_size : 0 <= segSize (code h) + segSize (initData h) + segSize (uninitData h) < 2^30;
  x_bytes : Forall is_i8 rest
}.

Section Exec.
Context {env : VMEnv} {kenv : KernelEnv}.
Context (quiet : forall s, OneTick s = Ret s).
Context (newmem_length : forall n, 0 <= n -> Z.of_nat (length (newmem n)) = n).
Variable big : bool.
Implicit Types (m : Machine) (k : KState).

(** The space that the constructor makes of the file. *)
Definition loaded (h : NoffHeader) (rest : list Z) (a : AddrSpace) : Prop :=
  new_AddrSpace big (noff_bytes h ++ rest) (newmem 40) newpages newwords newwords = Ret a.

Lemma loaded_core h rest a m v sp : executable_file h rest -> loaded h rest a ->
  core None 0 m v -> spaces v !! sp = None -> core None 0 m (set_spaces (<[sp := a]> (spaces v)) v).
Proof using.
  intros [Hf Hm Hsz Hr] Ha K Hn.
  destruct (new_AddrSpace_spec big h rest (newmem 40) newpages newwords newwords Hf Hm Hsz)
    as (a' & Ha' & _ & _ & Hx & Hlen & Hp & _). unfold loaded in Ha. rewrite Ha in Ha'. injection Ha' as <-.
  destruct (pages_for_spec h Hsz) as [_ Hb].
  apply core_add_space; [done | done | rewrite Hx; apply Forall_app_2; [apply noff_bytes_i8 | done] |].
  intros n e He. destruct (Hp n e He) as (? & ? & ? & ? & Hloc & Hoff). apply lookup_lt_Some in He.
  split; [done|]. split; [lia | done | done | lia | by rewrite Hloc].
Qed.

Lemma loaded_queue h rest a : executable_file h rest -> loaded h rest a ->
  numPageQueue a = [pages_for h] /\ 8 <= pages_for h < 2^24.
Proof using.
  intros [Hf Hm Hsz Hr] Ha.
  destruct (new_AddrSpace_spec big h rest (newmem 40) newpages newwords newwords Hf Hm Hsz) as (a' & Ha' & _ & Hq & _).
  unfold loaded in Ha. rewrite Ha in Ha'. injection Ha' as <-. split; [done|]. by apply pages_for_spec.
Qed.

Lemma loaded_content h rest a n sf m : executable_file h rest -> loaded h rest a ->
  page_content m sf <$> ((fun e => (executable a, e)) <$> pages a !! n) =
  if decide (Z.of_nat n < pages_for h) then Some (file_page (noff_bytes h ++ rest) (40 + Z.of_nat n * 128)) else None.
Proof using.
  intros [Hf Hm Hsz Hr] Ha.
  destruct (new_AddrSpace_spec big h rest (newmem 40) newpages newwords newwords Hf Hm Hsz)
    as (a' & Ha' & _ & _ & Hx & Hlen & Hp & _). unfold loaded in Ha. rewrite Ha in Ha'. injection Ha' as <-.
  destruct (pages a !! n) as [e|] eqn:He.
  - rewrite decide_True by (apply lookup_lt_Some in He; lia). destruct (Hp n e He) as (_ & Hv & _ & _ & Hloc & Hoff).
    cbn. unfold page_content. cbn. rewrite Hv. unfold backing. by rewrite Hloc, Hoff, Hx.
  - apply lookup_ge_None in He. by rewrite decide_False by lia.
Qed.

(** The last stack handed out. *)
Definition no_stacks (a : AddrSpace) : AddrSpace := mkAddrSpace (fileTable a) (pages a) (numPages a) [] (executable a).

(** The kernel after the name has been copied; [v'] is its memory system at the end. *)
Lemma Exec_after_name sp a nm i h rest m k1 :
  executable_file h rest -> loaded h rest a -> names k1 !! nm = Some i -> inodes k1 !! i = Some (noff_bytes h ++ rest) ->
  0 < nextPtr k1 -> sp = fresh (live_spaces k1) -> sp ∉ pspace <$> processTable k1 -> locks (kvm k1) = [processLock] ->
  let v' := update_space sp no_stacks
              (set_locks [] (set_spaces (<[sp := a]> (spaces (kvm k1))) (kvm k1))) in
  exists k', kvm k' = v' /\
    processTable k' = processTable k1 ++ [mkProcess sp 1 [(nextPtr k1 + 1, pages_for h * 128 - 16)]] /\
    threads k' = <[nextPtr k1 + 1 := mkUThread nm (numMailBox k1) (Some sp)]> (threads k1) /\
    forked k' = forked k1 ++ [(nextPtr k1 + 1, Exec_start)] /\
    (let! (sp, k) := exec_space big nm k1 in
     match sp with
     | None => Ret (-1, (m, set_console (console k ++ (chars "Unable to open file - " ++ nm ++ chars " - for Exec.") ++ newline) k))
     | Some sp =>
         let '(t, k) := new_process sp nm k in
         let! (stack, k) := next_stack sp k in
         let k := record_stack (Some sp) t stack k in Ret (0, (m, fork_thread t Exec_start k))
     end) = Ret (0, (m, k')).
Proof using.
  intros Hx Ha Hnm Hi Hpos Hsp Hnew Hl v'. pose proof Hx as [Hf Hm Hsz Hr].
  destruct (loaded_queue h rest a Hx Ha) as [Hq Hpg].
  destruct (exec_space_ok big nm k1 i h rest Hnm Hi Hpos Hf Hm Hsz) as (a' & Ha' & ->).
  unfold loaded in Ha. rewrite Ha in Ha'. injection Ha' as <-. rewrite <- Hsp. cbn [bind].
  set (k3 := lift _ _). assert (locks (kvm k3) = [processLock]) as Hl3 by exact Hl.
  destruct (new_process_fields sp nm k3) as (E1 & E2 & E3 & E4 & E5 & E6).
  destruct (new_process sp nm k3) as [t k4]. cbn [fst snd] in *.
  assert (kvm k4 = set_locks [] (kvm k3)) as Ev.
  { rewrite E6. generalize (kvm k3) Hl3. clear. intros v Hl. rewrite (Release_last processLock [] v Hl) by apply not_elem_of_nil.
    rewrite Acquire_new by apply not_elem_of_nil. rewrite (Release_last mailBoxLock []) by (reflexivity || apply not_elem_of_nil).
    reflexivity. }
  unfold next_stack. rewrite (getNumPages_spec sp (kvm k4) a (pages_for h) []);
    [| rewrite Ev; apply lookup_insert_eq | done | rewrite Ev; apply not_elem_of_nil]. cbn [bind].
  rewrite u32_small by (unfold is_u32, PageSize, SectorSize; lia).
  rewrite (record_new sp t _ (processTable k1)); [| exact E2 | done |].
  2: { cbn. rewrite Ev. apply not_elem_of_nil. }
  eexists. split; [|split; [|split; [|split; [|reflexivity]]]].
  - cbn [fork_thread set_forked kvm set_processTable set_kvm]. rewrite Ev. reflexivity.
  - cbn [fork_thread set_forked processTable set_processTable]. rewrite E1. reflexivity.
  - cbn [fork_thread set_forked threads set_processTable set_kvm]. rewrite E3. reflexivity.
  - cbn [fork_thread set_forked forked set_processTable set_kvm]. rewrite E4, E1. reflexivity.
Qed.

(** The memory system with the new space. *)
Lemma Exec_memory h rest b m v sp : executable_file h rest -> loaded h rest b -> core None 0 m v -> spaces v !! sp = None ->
  let v' := update_space sp no_stacks
              (set_locks [] (set_spaces (<[sp := b]> (spaces v)) v)) in
  core None 0 m v' /\
  (forall n, content m v' sp n = if decide (Z.of_nat n < pages_for h)
     then Some (file_page (noff_bytes h ++ rest) (40 + Z.of_nat n * 128)) else None) /\
  (forall s n, s <> sp -> content m v' s n = content m v s n).
Proof using.
  intros Hx Hld K Hn v'. set (v1 := set_locks [] (set_spaces (<[sp := b]> (spaces v)) v)) in *.
  assert (forall s n, page_of v' s n = page_of v1 s n) as Hp
    by exact (fun s n => page_of_update v1 sp no_stacks s n (fun a => conj eq_refl eq_refl)).
  assert (forall s n, page_of v1 s n = if decide (s = sp) then (fun e => (executable b, e)) <$> pages b !! n else page_of v s n) as Hp1
    by exact (fun s n => page_of_added v sp b s n Hn).
  split; [|split].
  - apply (core_same_pages m v1); [apply core_locks; by apply (loaded_core h rest) | exact Hp].
  - intros n. unfold content. rewrite Hp, Hp1, decide_True by done. by apply loaded_content.
  - intros s n Hs. unfold content. by rewrite Hp, Hp1, decide_False.
Qed.

(** Exec up to the copied name. *)
Lemma Exec_name s m k a nm f :
  runs s m k -> locks (kvm k) = [] -> has_bytes s m k a nm -> Forall (fun c => c <> 0) nm ->
  Z.of_nat (length nm) <= swap_free (kvm k) ->
  exists m' k1, user_name big (S (S f)) a (Z.of_nat (length nm)) (m, lock processLock k) = Ret (Some nm, (m', k1)) /\
    runs s m' k1 /\ (forall s' n, s' <> s -> content m' (kvm k1) s' n = content m (kvm k) s' n) /\ (forall x, byte_at s m' k1 x = byte_at s m k x) /\
    only_memory (lock processLock k) k1 /\ locks (kvm k1) = [processLock].
Proof using quiet newmem_length.
  intros R Hl Hb Hnz Hsw.
  assert (kvm (lock processLock k) = set_locks [processLock] (kvm k)) as Ev.
  { cbn. rewrite Acquire_new by (rewrite Hl; apply not_elem_of_nil). by rewrite Hl. }
  assert (forall m' s n, content m' (kvm (lock processLock k)) s n = content m' (kvm k) s n) as Hc by (intros; by rewrite Ev).
  assert (forall x, byte_at s m (lock processLock k) x = byte_at s m k x) as Hby.
  { intros x. unfold byte_at. cbn [vm fault_kernel_vm]. by rewrite (Hc m s (page_number x)). }
  assert (runs s m (lock processLock k)) as R'.
  { destruct R as (K & _ & Hs). unfold runs. change (vm (lock processLock k)) with (kvm (lock processLock k)).
    rewrite Ev. split; [by apply core_locks|]. split; [|exact Hs]. repeat split; lock_free. }
  destruct (user_name_ok quiet newmem_length big s m (lock processLock k) a nm f R') as (m' & k1 & Hr & R1 & Ho & Hsame & Hk);
    [| done | by rewrite Ev |].
  { destruct Hb as (? & ? & Hb). split; [done|]. split; [done|]. intros j Hj. by rewrite Hby, Hb. }
  exists m', k1. split; [done|]. split; [done|]. destruct Ho as (O1 & O2 & O3).
  change (vm (lock processLock k)) with (kvm (lock processLock k)) in *. rewrite Ev in O3.
  split; [|split; [intros x; by rewrite Hsame, Hby | by split]].
  intros s' n Hs'. etransitivity; [exact (O1 s' n Hs') | apply Hc].
Qed.

(** C16: Exec starts a process. When the running thread calls Exec with the address
    and length of a name in its memory, resident or not, and the file of that name
    is an executable, Exec returns 0. The process table has one more entry, for a
    new address space, with one thread, the new thread, whose stack ends 16 bytes
    below the top of the space; the thread is given to the scheduler; page [n] of
    the new space holds bytes 40 + 128 n on of the file, up to the last page of
    code, data and stack. The caller's memory and every other space are as before,
    the invariant of the memory system holds and no lock is held. The 0 is what the
    code returns for every program; userprog/syscall.h (lines 72-78) promises the
    identifier of the new address space there, unique to the program, which the caller
    does not get. *)
Theorem Exec_starts_process s m k a nm f i h rest :
  runs s m k -> counted k -> in_space k -> locks (kvm k) = [] -> 0 < nextPtr k ->
  has_bytes s m k a nm -> Forall (fun c => c <> 0) nm -> Z.of_nat (length nm) <= swap_free (kvm k) ->
  names k !! nm = Some i -> inodes k !! i = Some (noff_bytes h ++ rest) -> executable_file h rest ->
  exists m' k' sp t, Exec_Syscall big (S (S f)) a (Z.of_nat (length nm)) (m, k) = Ret (0, (m', k')) /\
    sp ∉ live_spaces k /\ threads k !! t = None /\
    processTable k' = processTable k ++ [mkProcess sp 1 [(t, pages_for h * 128 - 16)]] /\
    threads k' = <[t := mkUThread nm (numMailBox k) (Some sp)]> (threads k) /\
    forked k' = forked k ++ [(t, Exec_start)] /\
    (forall n, content m' (kvm k') sp n = if decide (Z.of_nat n < pages_for h)
       then Some (file_page (noff_bytes h ++ rest) (40 + Z.of_nat n * 128)) else None) /\
    runs s m' k' /\ locks (kvm k') = [] /\ (forall x, byte_at s m' k' x = byte_at s m k x) /\
    (forall s' n, s' <> s -> s' <> sp -> content m' (kvm k') s' n = content m (kvm k) s' n).
Proof using quiet newmem_length.
  intros R Hcnt Hin Hl Hpos Hb Hnz Hsw Hnm Hi Hx. pose proof R as (_ & _ & Hs). change (vm k) with (kvm k) in Hs.
  destruct (Exec_name s m k a nm f R Hl Hb Hnz Hsw) as (m' & k1 & Hr & (K1 & _ & Hs1) & Ho & Hby & Hmem & Hl1).
  destruct Hmem as [Ek Ol]. assert (live_spaces k1 = live_spaces k) as Hlive.
  { etransitivity; [exact (same_outlines_live _ _ Ol) | exact (f_equal dom (proj2 (Acquire_space processLock (kvm k))))]. }
  assert (exists b, loaded h rest b) as [b Hld].
  { destruct (exec_space_ok big nm k i h rest Hnm Hi Hpos) as (b & Hb' & _); try apply Hx. by exists b. }
  set (sp := fresh (live_spaces k)).
  assert (sp ∉ live_spaces k) as Hfresh by apply is_fresh.
  assert (sp = fresh (live_spaces k1)) as Esp by (unfold sp; by rewrite Hlive).
  assert (sp ∉ pspace <$> processTable k) as Hnew.
  { intros Hin'. apply Hfresh, (proj1 Hcnt). unfold cores. by rewrite <- list_fmap_compose. }
  assert (spaces (kvm k1) !! sp = None) as Hnone.
  { apply not_elem_of_dom. change (sp ∉ live_spaces k1). rewrite Hlive. exact Hfresh. }
  destruct (Exec_after_name sp b nm i h rest m' k1) as (k' & Ev & Ept & Eth & Efk & Hex);
    [exact Hx | exact Hld | rewrite Ek; exact Hnm | rewrite Ek; exact Hi | rewrite Ek; exact Hpos | exact Esp
    | rewrite Ek; exact Hnew | exact Hl1 |].
  exists m', k', sp, (nextPtr k1 + 1).
  assert (nextPtr k1 = nextPtr k) as En by (rewrite Ek; reflexivity).
  split; [unfold Exec_Syscall; rewrite Hr; cbn [bind]; exact Hex|]. split; [exact Hfresh|].
  split. { apply eq_None_not_Some. intros Ht. apply (n_ids _ _ _ _ (proj1 Hcnt)) in Ht. lia. }
  split; [rewrite Ept, En; rewrite Ek at 1; reflexivity|].
  split; [rewrite Eth, En; rewrite Ek at 1 2; reflexivity|].
  split; [rewrite Efk, En; rewrite Ek at 1; reflexivity|].
  destruct (Exec_memory h rest b m' (kvm k1) sp Hx Hld K1 Hnone) as (K' & Hc1 & Hc2). rewrite <- Ev in K', Hc1, Hc2.
  split; [exact Hc1|]. assert (sp <> s) as Hne.
  { intros ->. destruct (current_process k s Hcnt Hin Hs) as (j & p & x & _ & Hj & Hp & _).
    apply Hnew, list_elem_of_fmap. exists p. split; [done|]. by eapply list_elem_of_lookup_2. }
  split.
  { split; [exact K'|]. change (vm k') with (kvm k'). rewrite Ev. split; [by apply unlocked_nil | exact Hs1]. }
  split; [by rewrite Ev|]. split.
  - intros x. rewrite <- Hby. unfold byte_at. change (vm k') with (kvm k'). change (vm k1) with (kvm k1).
    by rewrite Hc2 by congruence.
  - intros s' n Hs' Hsp. by rewrite Hc2, Ho by done.
Qed.

(** Exec returns with the process lock held when it fails. If there is no file
    of the name, Exec returns -1 and starts nothing: processes, threads and user
    memory are as before. But the process lock, taken at the beginning, is not given
    back, so that the next Exec, Fork or Exit of any other thread waits for ever. *)
Theorem Exec_error_keeps_lock s m k a nm f :
  runs s m k -> locks (kvm k) = [] -> has_bytes s m k a nm -> Forall (fun c => c <> 0) nm ->
  Z.of_nat (length nm) <= swap_free (kvm k) -> names k !! nm = None ->
  exists m' k', Exec_Syscall big (S (S f)) a (Z.of_nat (length nm)) (m, k) = Ret (-1, (m', k')) /\
    locks (kvm k') = [processLock] /\ same_procs k k' /\ forked k' = forked k /\ runs s m' k' /\
    forall x, byte_at s m' k' x = byte_at s m k x.
Proof using quiet newmem_length.
  intros R Hl Hb Hnz Hsw Hnm.
  destruct (Exec_name s m k a nm f R Hl Hb Hnz Hsw) as (m' & k1 & Hr & R1 & _ & Hby & Hmem & Hl1).
  pose proof Hmem as [Ek _]. assert (names k1 !! nm = None) as Hnm1 by (rewrite Ek; exact Hnm).
  eexists m', _. split.
  { unfold Exec_Syscall. rewrite Hr. cbn [bind]. rewrite (exec_space_missing big nm k1 Hnm1). reflexivity. }
  split; [exact Hl1|]. split.
  { transitivity (lock processLock k); [apply lock_procs|].
    transitivity k1; [by apply only_memory_procs | unfold same_procs; split_and!; try reflexivity; cbn; lia]. }
  split; [cbn [forked set_console]; rewrite Ek; reflexivity|]. split; [exact R1 | exact Hby].
Qed.
End Exec.

(** ** A shell that runs a copy of itself *)

Module Demo.
Import Boot.Demo.
#[local] Existing Instance Processes.Demo.kenv.

Lemma newmem_replicate n : 0 <= n -> Z.of_nat (length (newmem n)) = n.
Proof. intros Hn. cbn. rewrite length_replicate. lia. Qed.

Definition shell_threads : gmap Z UThread := {[7 := mkUThread [109] 0 (Some 1%positive)]}.
Definition shell (v : VM) : KState :=
  mkK v {[[1; 2] := 5]} {[5 := noff_bytes noff ++ text]} ∅ 8 [] [] shell_threads 7 [mkProcess 1 1 [(7, 1264)]] 1 [] [] []
    SystemMode 0.

Lemma shell_counted v : is_Some (content machine v 1 0) -> counted (shell v).
Proof.
  intros [pg Hc]. split; [|done]. constructor.
  - apply NoDup_singleton.
  - intros [|i] sp n E; [|discriminate E]. injection E as <- <-. split; [reflexivity | lia].
  - intros sp Hsp. apply list_elem_of_singleton in Hsp as ->. apply elem_of_dom.
    unfold content, page_of in Hc. cbn. destruct (spaces v !! 1%positive); [by eexists | discriminate Hc].
  - intros t x sp Ht Hx. change (shell_threads !! t = Some x) in Ht. unfold shell_threads in Ht.
    apply lookup_singleton_Some in Ht as [<- <-]. injection Hx as <-. by apply list_elem_of_singleton.
  - intros t [x Ht]. change (shell_threads !! t = Some x) in Ht. unfold shell_threads in Ht.
    apply lookup_singleton_Some in Ht as [<- _]. reflexivity.
Qed.

Lemma shell_in_space v : space v = Some 1%positive -> in_space (shell v).
Proof. intros Hs. eexists. split; [apply lookup_singleton_eq | exact (eq_sym Hs)]. Qed.

Lemma text_facts :
  (let! v := started in Ret (content machine v 1 0 ≫= (.!! 1%nat), content machine v 1 0 ≫= (.!! 2%nat),
     content machine v 1 0 ≫= (.!! 3%nat))) = Ret (Some 1, Some 2, Some 3).
Proof. vm_compute. reflexivity. Qed.

(** The bytes 1, 2, 3 of the program. *)
Lemma shell_bytes v : started = Ret v ->
  has_bytes 1 machine (shell v) 1 [1; 2] /\ has_bytes 1 machine (shell v) 2 [2; 3].
Proof.
  intros Hv. pose proof text_facts as Hf. rewrite Hv in Hf. cbn [bind] in Hf.
  assert (content machine v 1 0 ≫= (.!! 1%nat) = Some 1) as H1 by congruence.
  assert (content machine v 1 0 ≫= (.!! 2%nat) = Some 2) as H2 by congruence.
  assert (content machine v 1 0 ≫= (.!! 3%nat) = Some 3) as H3 by congruence. clear Hf.
  split; (split; [lia|]; split; [cbn; lia|]); intros [|[|i]] Hi; try (cbn in Hi; lia); assumption.
Qed.

Lemma nonzero2 x y : x <> 0 -> y <> 0 -> Forall (fun c : Z => c <> 0) [x; y].
Proof. intros. by repeat constructor. Qed.

Lemma shell_executable : executable_file noff text.
Proof.
  constructor.
  - unfold noff_fields. cbn. repeat constructor; done.
  - reflexivity.
  - cbn. lia.
  - apply Forall_fmap, Forall_forall. intros i _. pose proof (Nat.mod_upper_bound i 100 ltac:(lia)).
    unfold compose, is_i8. lia.
Qed.

Lemma Exec_starts_process_witness :
  exists v m' k' sp t, started = Ret v /\ Exec_Syscall true 2 1 2 (machine, shell v) = Ret (0, (m', k')) /\
    processTable k' = [mkProcess 1 1 [(7, 1264)]; mkProcess sp 1 [(t, 1264)]].
Proof.
  destruct booted as (v & Hv & K & Hl & Hs & Hsw & Hc). destruct (shell_bytes v Hv) as [Hb _].
  destruct (Exec_starts_process quiet newmem_replicate true 1 machine (shell v) 1 [1; 2] 0 5 noff text
    (conj K (conj (unlocked_nil _ Hl) Hs)) (shell_counted v (Hc 0%nat ltac:(lia))) (shell_in_space v Hs) Hl eq_refl
    Hb (nonzero2 1 2 ltac:(lia) ltac:(lia)))
    as (m' & k' & sp & t & Hr & _ & _ & Hp & _).
  - change (2 <= swap_free v). lia.
  - apply lookup_singleton_eq.
  - apply lookup_singleton_eq.
  - exact shell_executable.
  - exists v, m', k', sp, t. exact (conj Hv (conj Hr Hp)).
Defined.

Lemma Exec_error_keeps_lock_witness :
  exists v m' k', started = Ret v /\ Exec_Syscall true 2 2 2 (machine, shell v) = Ret (-1, (m', k')) /\
    locks (kvm k') = [processLock].
Proof.
  destruct booted as (v & Hv & K & Hl & Hs & Hsw & Hc). destruct (shell_bytes v Hv) as [_ Hb].
  destruct (Exec_error_keeps_lock quiet newmem_replicate true 1 machine (shell v) 2 [2; 3] 0
    (conj K (conj (unlocked_nil _ Hl) Hs)) Hl Hb (nonzero2 2 3 ltac:(lia) ltac:(lia)))
    as (m' & k' & Hr & Hk & _).
  - change (2 <= swap_free v). lia.
  - reflexivity.
  - exists v, m', k'. exact (conj Hv (conj Hr Hk)).
Defined.
End Demo.
