(* ===== verification/ExitProcess.v ===== *)
(** * The end of a process (Exit_Syscall, userprog/exception.cc:911-939)

    When its last thread exits, a process that is not the last gives back its
    frames, its address space and its entry in the process table. *)

From S2P Require Import Prelude Interrupt BitMap Table Server Rpc Machine VM Paging Boot UserMemory Freeing SpaceFrame Syscalls KernelFrame Processes ExecProgram.

(** Freeing the frames of one space leaves the pages of the others. *)
Lemma freed_content sp m v m' v' s n : core None 0 m v -> s <> sp ->
  freed (fun p => exists n, holds v p sp n) m v m' v' -> page_of v' s n = page_of v s n ->
  content m' v' s n = content m v s n.
Proof.
  intros K Hs F Hp. unfold content. rewrite Hp. destruct (page_of v s n) as [[x e]|] eqn:Hpg; [|done]. cbn. f_equal.
  unfold page_content. cbn. destruct (valid (entry e)) eqn:Hv; [|by rewrite (fr_swap _ _ _ _ _ F)].
  destruct (c_page _ _ _ _ K _ _ _ _ Hpg) as [_ Hx]. destruct (Hx Hv) as (p & -> & _ & Hh). rewrite Nat2Z.id.
  destruct (fr_out _ _ _ _ _ F p) as (_ & Hf & _); [| |exact Hf].
  - intros (n' & Hh'). by destruct (holds_inj _ _ _ _ _ _ Hh Hh').
  - destruct Hh as (ie & Hi & _). eapply frames_range, Hi. apply K.
Qed.

Section Exit.
Context {env : VMEnv} {kenv : KernelEnv}.
Implicit Types (m : Machine) (k : KState).

(** The kernel after clearMem. *)
Lemma exit_process_ok i p m k m1 v1 :
  kernelLockTable k = [] -> kernelCVTable k = [] -> processTable k !! i = Some p ->
  clearMem (pspace p) (m, kvm k) = Ret (m1, v1) -> locks v1 = [processLock] ->
  exists k', exit_process (Z.of_nat i) (pspace p) (m, k) = Ret (m1, k') /\
    kvm k' = set_locks [] (set_spaces (delete (pspace p) (spaces v1)) v1) /\
    processTable k' = delete i (processTable k) /\ threads k' = delete (currentThread k) (threads k).
Proof using.
  intros T1 T2 Hi Hc Hl. unfold exit_process, destroy_entries. rewrite Hc. cbn [bind].
  set (k1 := lock kernelLockLock (set_kvm v1 k)).
  change (kernelLockTable (m1, k1).2) with (kernelLockTable k). rewrite T1. cbn [length for_upto bind].
  set (k2 := lock kernelCVLock (unlock kernelLockLock k1)).
  change (kernelCVTable (m1, k2).2) with (kernelCVTable k). rewrite T2. cbn [length for_upto bind].
  assert (kvm (unlock kernelLockLock k1) = v1) as Ev1.
  { cbn. rewrite Acquire_new by (rewrite Hl; lock_free). rewrite (Release_last kernelLockLock [processLock]);
      [rewrite <- Hl; by destruct v1 | by rewrite Hl | lock_free]. }
  assert (kvm (unlock kernelCVLock k2) = v1) as Ev2.
  { unfold k2. cbn [unlock lock lift set_kvm kvm]. cbn [unlock lift set_kvm kvm] in Ev1. rewrite Ev1.
    rewrite Acquire_new by (rewrite Hl; lock_free). rewrite (Release_last kernelCVLock [processLock]);
      [rewrite <- Hl; by destruct v1 | by rewrite Hl | lock_free]. }
  revert Ev2. generalize (unlock kernelCVLock k2) (eq_refl : processTable (unlock kernelCVLock k2) = processTable k)
    (eq_refl : threads (unlock kernelCVLock k2) = threads k)
    (eq_refl : currentThread (unlock kernelCVLock k2) = currentThread k). clear -Hl Hi.
  intros k3 E1 E2 E3 Ev. eexists. split; [reflexivity|].
  split; [|split; cbn; rewrite ?E1, ?E2, ?E3, ?Nat2Z.id; done].
  cbn [finish_thread set_threads kvm unlock lift set_kvm erase_process set_processTable].
  rewrite Ev. by rewrite (Release_last processLock []) by (exact Hl || apply not_elem_of_nil).
Qed.

(** C26: the end of a process gives its memory back and touches no other. When the
    only thread of a process that is not the last calls Exit, it does end: exactly
    the frames that held pages of its space are marked free and zeroed and their
    entries in the inverted page table are invalid; every page of every other
    space has the content it had, in memory or not; the space is gone, the process
    table stays right, and no lock is held. *)
Theorem Exit_frees_memory st m k sp a :
  runs sp m k -> counted k -> in_space k -> locks (kvm k) = [] ->
  members sp (threads k) = 1 -> (1 < length (processTable k))%nat ->
  spaces (kvm k) !! sp = Some a -> numPages a = Z.of_nat (length (pages a)) ->
  exists m' k', Exit_Syscall st (m, k) = Ret (m', k') /\ counted k' /\ locks (kvm k') = [] /\
    live_spaces k' = live_spaces k ∖ {[sp]} /\
    freed (fun p => exists n, holds (kvm k) p sp n) m (kvm k) m' (kvm k') /\
    forall s' n, s' <> sp -> content m' (kvm k') s' n = content m (kvm k) s' n.
Proof using.
  intros (K & _ & Hsp) Hc Hin Hl Hm Hlen Ha Hnum. change (vm k) with (kvm k) in *.
  destruct (current_process k sp Hc Hin Hsp) as (i & p & x & Hf & Hi & Hp & Hx & Hxs).
  set (k0 := set_console (console k ++ chars "Exit with status " ++ decimal st ++ newline) k).
  assert (kvm (lock processLock k0) = set_locks [processLock] (kvm k)) as Ev.
  { cbn. rewrite Acquire_new by (rewrite Hl; apply not_elem_of_nil). by rewrite Hl. }
  destruct (n_count _ _ _ _ (proj1 Hc) _ _ _ (cores_lookup _ _ _ Hi)) as [En _]. rewrite Hp, Hm in En.
  destruct (clearMem_spec m (set_locks [processLock] (kvm k)) sp) with (a := a) as (m' & v' & Hr & F & Hl' & Ho & _);
    [by apply core_locks | repeat split; lock_free | exact Ha | exact Hnum |].
  rewrite <- Ev, <- Hp in Hr.
  destruct (exit_process_ok i p m (lock processLock k0) m' v') as (k' & Hex & Ek & Ept & Eth);
    [apply Hc | apply Hc | exact Hi | exact Hr | exact Hl' |].
  assert (Exit_Syscall st (m, k) = Ret (m', k')) as Hexit.
  { unfold Exit_Syscall. fold k0. rewrite Ev. change (space (set_locks _ (kvm k))) with (space (kvm k)).
    change (processTable (lock processLock k0)) with (processTable k). rewrite Hf.
    assert (aref (processTable k) (Z.of_nat i) = Ret p) as -> by (apply aref_Ret; rewrite Nat2Z.id; split; [lia|done]).
    cbn [bind]. rewrite En. change (1 <? 1) with false. cbv iota. rewrite (proj2 (Z.eqb_neq _ _)) by lia. exact Hex. }
  exists m', k'. split; [exact Hexit|].
  destruct (Exit_counted st m k m' k' Hc Hin (ltac:(by eexists)) Hexit) as (sp' & j & n & E1 & E2 & Hc' & _ & Hor).
  rewrite Hsp in E1. injection E1 as <-. split; [exact Hc'|]. split; [by rewrite Ek|].
  split. { destruct Hor as [(Hn & _)|(_ & _ & _ & Hlive)]; [|exact Hlive].
    destruct (n_count _ _ _ _ (proj1 Hc) _ _ _ E2) as [-> _]. lia. }
  assert (forall s n, page_of (kvm k') s n = if decide (s = sp) then None else page_of v' s n) as Hpg.
  { intros s n'. rewrite Ek, Hp. unfold page_of. cbn. case_decide as Hs; [subst; by rewrite lookup_delete_eq|].
    by rewrite lookup_delete_ne. }
  assert (freed (fun p => exists n, holds (kvm k) p sp n) m (kvm k) m' (kvm k')) as F'.
  { rewrite Ek. destruct F as [F1 F2 F3 F4 F5 F6]. constructor; [exact F1 | exact F2 | exact F3 | exact F4 | exact F5 | exact F6]. }
  split; [exact F'|]. intros s' n' Hs. apply (freed_content sp); [exact K | exact Hs | exact F' |].
  rewrite Hpg, decide_False by done. exact (Ho s' n' Hs).
Qed.
End Exit.

(** ** Two processes *)

Module Demo.
Import Boot.Demo ExecProgram.Demo.
#[local] Existing Instance Processes.Demo.kenv.

Definition no_pages : AddrSpace := mkAddrSpace (mkTable (mkBitMap 0 0 []) [] 0) [] 0 [] [].
Definition two_spaces (v : VM) : VM := set_spaces (<[2%positive := no_pages]> (spaces v)) v.
Definition two_threads : gmap Z UThread := <[8 := mkUThread [110] 1 (Some 2%positive)]> shell_threads.
Definition two_processes (v : VM) : KState :=
  mkK (two_spaces v) ∅ ∅ ∅ 9 [] [] two_threads 7 [mkProcess 1 1 [(7, 1264)]; mkProcess 2 1 [(8, 1008)]] 2 [] [] []
    SystemMode 0.

Lemma started_spaces :
  (let! v := started in Ret ((fun a => numPages a =? Z.of_nat (length (pages a))) <$> spaces v !! 1%positive,
     negb (bool_decide (is_Some (spaces v !! 2%positive))))) = Ret (Some true, true).
Proof. vm_compute. reflexivity. Qed.

Lemma two_cases t x : two_threads !! t = Some x ->
  (t = 7 /\ x = mkUThread [109] 0 (Some 1%positive)) \/ (t = 8 /\ x = mkUThread [110] 1 (Some 2%positive)).
Proof.
  unfold two_threads, shell_threads. intros Ht. apply lookup_insert_Some in Ht as [[<- <-]|[_ Ht]]; [by right|].
  apply lookup_singleton_Some in Ht as [<- <-]. by left.
Qed.

Lemma two_counted v a : spaces v !! 1%positive = Some a -> counted (two_processes v).
Proof.
  intros Ha. assert (live_spaces (two_processes v) = {[2%positive]} ∪ dom (spaces v)) as Hd by exact (dom_insert_L _ _ _).
  split; [|done]. constructor.
  - apply NoDup_cons. split; [|apply NoDup_singleton]. intros Hin. by apply list_elem_of_singleton in Hin.
  - intros [|[|i]] sp n E; [| |discriminate E]; injection E as <- <-; (split; [reflexivity | lia]).
  - rewrite Hd. intros sp Hsp. apply list_elem_of_In in Hsp as [<-|[<-|[]]]; [|set_solver].
    apply elem_of_union_r, elem_of_dom. by exists a.
  - intros t x sp Ht Hx. apply list_elem_of_In. destruct (two_cases t x Ht) as [[-> ->]|[-> ->]]; injection Hx as <-; cbn; auto.
  - intros t [x Ht]. by destruct (two_cases t x Ht) as [[-> _]|[-> _]].
Qed.

Lemma Exit_frees_memory_witness :
  exists v m' k', started = Ret v /\ Exit_Syscall 0 (machine, two_processes v) = Ret (m', k') /\
    live_spaces k' = live_spaces (two_processes v) ∖ {[1%positive]}.
Proof.
  destruct booted as (v & Hv & K & Hl & Hs & Hsw & Hc). pose proof started_spaces as Hf. rewrite Hv in Hf. cbn [bind] in Hf.
  destruct (spaces v !! 1%positive) as [a|] eqn:Ha; [|discriminate Hf].
  assert ((numPages a =? Z.of_nat (length (pages a))) = true) as Hnum by (cbn in Hf; congruence).
  assert (spaces v !! 2%positive = None) as H2 by (destruct (spaces v !! 2%positive); [cbn in Hf; congruence | reflexivity]).
  destruct (Exit_frees_memory 0 machine (two_processes v) 1 a) as (m' & k' & Hr & _ & _ & Hlive & _).
  - split; [|exact (conj (unlocked_nil _ Hl) Hs)].
    apply (core_add_space machine v 2 no_pages K H2); [by apply Forall_nil | intros n e He; discriminate He].
  - exact (two_counted v a Ha).
  - eexists. split; [reflexivity | exact (eq_sym Hs)].
  - exact Hl.
  - reflexivity.
  - cbn. lia.
  - cbn. rewrite lookup_insert_ne by discriminate. exact Ha.
  - apply Z.eqb_eq. exact Hnum.
  - exists v, m', k'. exact (conj Hv (conj Hr Hlive)).
Defined.
End Demo.
