(* ===== verification/Files.v ===== *)
(** * Files of user programs (Write_Syscall and Read_Syscall,
      userprog/exception.cc:141-222)

    A file handle of a process names an open file of the kernel, which names a file
    and an offset in it. Write and Read move bytes between user memory and the file
    at the offset. *)

From S2P Require Import Prelude Interrupt BitMap Table Server Rpc Machine VM Paging Boot UserMemory SpaceFrame Syscalls KernelFrame Processes ExecProgram.

(** Handle [fd] of space [s] is open, with file [i] of content [f] at offset [off]. *)
Record opened (s : positive) (k : KState) (fd p i off : Z) (f : File) : Prop := {
  op_space : exists a, spaces (kvm k) !! s = Some a /\ wf_table (fileTable a) /\ view (fileTable a) fd = Some p;
  op_pointer : p <> NULL;
  op_handle : fd <> ConsoleInput /\ fd <> ConsoleOutput;
  op_open : opens k !! p = Some (i, off);
  op_inode : inodes k !! i = Some f;
  op_offset : 0 <= off
}.

(** The file with [bs] written at [off]. *)
Definition written (f : File) (off : Z) (bs : list Z) : File :=
  let p := Z.to_nat off in take p f ++ replicate (p - length f) 0 ++ bs ++ drop (p + length bs) f.

Lemma read_written f off bs : 0 <= off -> VM.ReadAt (written f off bs) (Z.of_nat (length bs)) off = Ret bs.
Proof.
  intros Ho. unfold VM.ReadAt, written. rewrite (proj2 (Z.leb_le _ _)) by done. cbn [ASSERT bind].
  rewrite Nat2Z.id, app_assoc, drop_app_length', take_app_length; [done|].
  rewrite length_app, length_take, length_replicate. lia.
Qed.

Lemma only_memory_opened s k k' fd p i off f : only_memory k k' -> opened s k fd p i off f -> opened s k' fd p i off f.
Proof.
  intros [Ek (_ & Ho & _)] [(a & Ha & Hw & Hv) Hp Hh Hop Hi Hoff]. constructor; try done; try (rewrite Ek; done).
  specialize (Ho s). rewrite Ha in Ho. destruct (spaces (kvm k') !! s) as [a'|]; [|done]. cbn in Ho.
  assert (fileTable a' = fileTable a) as E by (unfold outline in Ho; congruence). exists a'. by rewrite E.
Qed.

Section Files.
Context {env : VMEnv} {kenv : KernelEnv}.
Context (quiet : forall s, OneTick s = Ret s).
Context (newmem_length : forall n, 0 <= n -> Z.of_nat (length (newmem n)) = n).
Variable big : bool.
Implicit Types (m : Machine) (k : KState).

(** Looking a handle up changes nothing. *)
Lemma with_Get s k fd p i off f : space (kvm k) = Some s -> opened s k fd p i off f ->
  get_file fd k = Ret (p, k).
Proof using.
  intros Hs [(a & Ha & Hw & Hv) _ _ _ _ _]. unfold get_file, with_fileTable, VM.deref. rewrite Hs, Ha. cbn [bind].
  rewrite (Get_view _ _ Hw), Hv. cbn [bind default]. do 2 f_equal. unfold lift, update_space.
  assert (alter (set_fileTable (fileTable a)) s (spaces (kvm k)) = spaces (kvm k)) as ->.
  { apply map_eq. intros s'. rewrite lookup_alter. case_decide as Hs'; [|done]. subst s'. rewrite Ha. cbn. by destruct a. }
  assert (set_spaces (spaces (kvm k)) (kvm k) = kvm k) as -> by (by destruct (kvm k)). by destruct k.
Qed.

Definition after_write (p i off : Z) (f : File) (bs : list Z) (k : KState) : KState :=
  set_files (names k) (<[i := written f off bs]> (inodes k))
    (<[p := (i, off + Z.of_nat (length bs))]> (opens k)) (nextPtr k) k.

Lemma Write_spec s m k a bs fd p i off f n :
  runs s m k -> has_bytes s m k a bs -> Z.of_nat (length bs) <= swap_free (kvm k) -> opened s k fd p i off f ->
  exists m' k1, Write_Syscall big (S (S n)) a (Z.of_nat (length bs)) fd (m, k) = Ret (m', after_write p i off f bs k1) /\
    runs s m' k1 /\ (forall x, byte_at s m' k1 x = byte_at s m k x) /\ others_kept s m k m' k1 /\ only_memory k k1 /\
    swap_free (kvm k) - Z.of_nat (length bs) <= swap_free (kvm k1).
Proof using quiet newmem_length.
  intros R Hb Hsw Hop. destruct (copy_in_ok quiet big s m k a bs n R Hb Hsw) as (m' & k1 & Hr & R' & Ho & Hsame & Hk & Hfree).
  exists m', k1. split; [|exact (conj R' (conj Hsame (conj Ho (conj Hk Hfree))))].
  destruct (op_handle _ _ _ _ _ _ _ Hop) as [H0 H1].
  unfold Write_Syscall. rewrite (proj2 (Z.eqb_neq _ _) H0), new_chars_ok by lia. cbn [bind]. rewrite Hr. cbn [bind].
  rewrite (proj2 (Z.eqb_neq _ (-1))), (proj2 (Z.eqb_neq _ _) H1) by lia.
  pose proof (only_memory_opened _ _ _ _ _ _ _ _ Hk Hop) as Hop1. destruct R' as (_ & _ & Hs).
  rewrite (with_Get s k1 fd p i off f Hs Hop1). cbn [bind].
  rewrite (proj2 (Z.eqb_neq _ _) (op_pointer _ _ _ _ _ _ _ Hop)).
  assert (fill bs (newmem (Z.of_nat (length bs))) = bs) as ->.
  { unfold fill. pose proof (newmem_length (Z.of_nat (length bs)) ltac:(lia)). rewrite drop_ge, app_nil_r by lia. done. }
  unfold file_Write, open_file. rewrite (op_open _ _ _ _ _ _ _ Hop1), (op_inode _ _ _ _ _ _ _ Hop1). cbn [bind].
  unfold VM.WriteAt. rewrite (proj2 (Z.leb_le _ _)) by apply Hop. reflexivity.
Qed.

Definition after_read (p i off n : Z) (k : KState) : KState :=
  set_files (names k) (inodes k) (<[p := (i, off + n)]> (opens k)) (nextPtr k) k.

Definition read_message : list Z := chars "Bad pointer passed to Read: data not copied" ++ newline.

Lemma has_bytes_i8 s m k a bs : runs s m k -> has_bytes s m k a bs -> Forall is_i8 bs.
Proof using.
  intros R Hb. pose proof (has_bytes_mapped _ _ _ _ _ Hb) as Hm. destruct Hb as (H0 & _ & Hb).
  apply Forall_lookup. intros j b Hj. apply lookup_lt_Some in Hj as Hlt.
  destruct (byte_exists s m k (a + Z.of_nat j) R ltac:(lia)) as (b' & Hb' & H8); [apply Hm; lia|].
  rewrite Hb, Hj in Hb' by done. by injection Hb' as ->.
Qed.

(** What copyout leaves: a prefix of the bytes, all of them or up to a page fault. *)
Definition delivered s (m : Machine) (k : KState) (b : Z) (bs : list Z) (m' : Machine) (k' : KState) : Prop :=
  exists j, (forall x, byte_at s m' k' x = flat_write (byte_at s m k) b (take j bs) x) /\
    (j = length bs /\ console k' = console k \/
     (j < length bs)%nat /\ console k' = console k ++ read_message /\ ~ tlb_miss m' (page_number (b + Z.of_nat j))).

Lemma copy_read_ok s m k b bs :
  runs s m k -> 0 <= b -> b + Z.of_nat (length bs) <= 2^31 -> mapped_range s m k b (Z.of_nat (length bs)) ->
  0 < swap_free (kvm k) -> Forall is_i8 bs ->
  exists m' k', copy_read big b (Z.of_nat (length bs)) bs (m, k) = Ret (Z.of_nat (length bs), (m', k')) /\
    runs s m' k' /\ delivered s m k b bs m' k' /\ inodes k' = inodes k /\ opens k' = opens k.
Proof using quiet.
  intros R Hb Hend Hm Hsw H8.
  destruct (copyout_spec big quiet s m k b (Z.of_nat (length bs)) bs R Hb ltac:(lia) Hend Hm Hsw H8)
    as (r & j & m' & k' & Hr & R' & _ & Hby & Hor).
  assert (copy_out big b (Z.of_nat (length bs)) bs (m, k) = Ret (r, (m', k'))) as Hc.
  { unfold copy_out. destruct bs; [exact Hr|]. by rewrite u32_small by (unfold is_u32; cbn [length] in *; lia). }
  pose proof (copy_out_only quiet _ _ _ _ _ _ _ _ _ Hc) as [Ek _].
  unfold copy_read. rewrite Hc. cbn [bind]. eexists m', _. split; [reflexivity|]. destruct Hor as [[-> Hj]|(-> & Hj & Hhit)].
  - rewrite (proj2 (Z.eqb_neq _ _)) by lia. split; [done|]. split; [|rewrite Ek; done].
    exists j. split; [done|]. left. split; [lia | rewrite Ek; done].
  - rewrite Z.eqb_refl. split; [done|]. split; [|rewrite Ek; done].
    exists j. split; [done|]. right. split; [lia|]. split; [|done]. cbn [say set_console console].
    rewrite Ek. cbn [console set_kstatus set_kvm]. reflexivity.
Qed.

Lemma Read_spec s m k b bs fd p i off f :
  runs s m k -> opened s k fd p i off f -> VM.ReadAt f (Z.of_nat (length bs)) off = Ret bs -> (0 < length bs)%nat ->
  0 <= b -> b + Z.of_nat (length bs) <= 2^31 -> mapped_range s m k b (Z.of_nat (length bs)) ->
  0 < swap_free (kvm k) -> Forall is_i8 bs ->
  exists m' k', Read_Syscall big b (Z.of_nat (length bs)) fd (m, k) = Ret (Z.of_nat (length bs), (m', k')) /\
    runs s m' k' /\ delivered s m k b bs m' k' /\ inodes k' = inodes k /\
    opens k' = <[p := (i, off + Z.of_nat (length bs))]> (opens k).
Proof using quiet newmem_length.
  intros R Hop Hread Hpos Hb Hend Hm Hsw H8. destruct (op_handle _ _ _ _ _ _ _ Hop) as [H0 H1].
  pose proof R as (_ & _ & Hs). unfold Read_Syscall.
  rewrite (proj2 (Z.eqb_neq _ _) H1), new_chars_ok by lia. cbn [bind]. rewrite (proj2 (Z.eqb_neq _ _) H0).
  rewrite (with_Get s k fd p i off f Hs Hop). cbn [bind].
  rewrite (proj2 (Z.eqb_neq _ _) (op_pointer _ _ _ _ _ _ _ Hop)).
  unfold file_Read, open_file. rewrite (op_open _ _ _ _ _ _ _ Hop), (op_inode _ _ _ _ _ _ _ Hop). cbn [bind].
  rewrite Hread. cbn [bind]. cbv zeta. rewrite (proj2 (Z.ltb_lt _ _)) by lia.
  assert (fill bs (newmem (Z.of_nat (length bs))) = bs) as ->.
  { unfold fill. pose proof (newmem_length (Z.of_nat (length bs)) ltac:(lia)). rewrite drop_ge, app_nil_r by lia. done. }
  destruct (copy_read_ok s m (after_read p i off (Z.of_nat (length bs)) k) b bs R Hb Hend Hm Hsw H8)
    as (m' & k' & Hr & R' & Hd & Hi & Ho).
  exists m', k'. split; [exact Hr|]. split; [exact R'|]. split; [exact Hd | exact (conj Hi Ho)].
Qed.

(** C25: what a process writes to a file is what it reads back. The process has the
    same file open under two handles, at the same offset. After Write of a range
    of its memory through the first, the file is the old one with the bytes put at
    the offset (a gap past the old end filled with zeros); Read of as many bytes
    through the second returns their number and stores at the target address the
    bytes that were written, pages in or out of memory on both sides, and both
    offsets have moved past them. If copyout stops at a page that is not mapped, a
    prefix has been stored, a message is printed, and Read still returns the full
    number. *)
Theorem write_read s m k a b bs fd p fd2 p2 i off f n :
  runs s m k -> has_bytes s m k a bs -> (0 < length bs)%nat -> Z.of_nat (length bs) < swap_free (kvm k) ->
  opened s k fd p i off f -> opened s k fd2 p2 i off f -> p <> p2 ->
  0 <= b -> b + Z.of_nat (length bs) <= 2^31 -> mapped_range s m k b (Z.of_nat (length bs)) ->
  exists m1 k1 m2 k2, Write_Syscall big (S (S n)) a (Z.of_nat (length bs)) fd (m, k) = Ret (m1, k1) /\
    Read_Syscall big b (Z.of_nat (length bs)) fd2 (m1, k1) = Ret (Z.of_nat (length bs), (m2, k2)) /\
    runs s m2 k2 /\ inodes k2 !! i = Some (written f off bs) /\
    opens k2 !! p = Some (i, off + Z.of_nat (length bs)) /\ opens k2 !! p2 = Some (i, off + Z.of_nat (length bs)) /\
    delivered s m k b bs m2 k2.
Proof using quiet newmem_length.
  intros R Hb Hpos Hsw Hop Hop2 Hne H0 Hend Hm.
  destruct (Write_spec s m k a bs fd p i off f n R Hb ltac:(lia) Hop) as (m1 & k0 & Hw & R1 & Hsame & Ho & Hk & Hfree).
  set (k1 := after_write p i off f bs k0) in *.
  assert (opened s k1 fd2 p2 i off (written f off bs)) as Hop1.
  { destruct (only_memory_opened _ _ _ _ _ _ _ _ Hk Hop2) as [Hsp Hp Hh Hopn Hin Hoff].
    constructor; try done; unfold k1, after_write; cbn [opens inodes set_files].
    - by rewrite lookup_insert_ne.
    - by rewrite lookup_insert_eq. }
  destruct (Read_spec s m1 k1 b bs fd2 p2 i off (written f off bs)) as (m2 & k2 & Hr & R2 & Hd & Hi & Hopens);
    [exact R1 | exact Hop1 | by apply read_written, Hop | done | done | done | | | by eapply (has_bytes_i8 s m k) |].
  { intros x Hx. apply Ho, Hm, Hx. }
  { change (0 < swap_free (kvm k0)). lia. }
  exists m1, k1, m2, k2. split; [exact Hw|]. split; [exact Hr|]. split; [exact R2|].
  split; [rewrite Hi; apply lookup_insert_eq|].
  split; [rewrite Hopens, lookup_insert_ne by done; apply lookup_insert_eq|].
  split; [rewrite Hopens; apply lookup_insert_eq|].
  destruct Hd as (j & Hby & Hor). exists j. split.
  - intros x. rewrite Hby. unfold flat_write. case_match; [done | exact (Hsame x)].
  - assert (console k1 = console k) as <- by (destruct Hk as [Ek _]; unfold k1; rewrite Ek; reflexivity). exact Hor.
Qed.
End Files.

(** ** The program of Boot.v with a file open twice *)

Module Demo.
Import Boot.Demo ExecProgram.Demo.
#[local] Existing Instance Processes.Demo.kenv.

Definition handles : Table := mkTable (mkBitMap 4 1 [15]) [NULL; NULL; 100; 101] 4.

Lemma handles_wf : wf_table handles.
Proof. split; [split; try done; repeat constructor; done | done | done]. Qed.

Definition with_handles (v : VM) : VM := update_space 1 (set_fileTable handles) v.
Definition two_handles : gmap Z (Z * Z) := <[100 := (5, 0)]> {[101 := (5, 0)]}.
Definition editor (v : VM) : KState :=
  mkK (with_handles v) ∅ {[5 := []]} two_handles 200 [] [] shell_threads 7 [mkProcess 1 1 [(7, 1264)]] 1 [] [] []
    SystemMode 0.

Lemma handles_pages v s n : page_of (with_handles v) s n = page_of v s n.
Proof. exact (page_of_update v 1 (set_fileTable handles) s n (fun a => conj eq_refl eq_refl)). Qed.

Lemma handles_content v s n : content machine (with_handles v) s n = content machine v s n.
Proof. unfold content. by rewrite handles_pages. Qed.

Lemma editor_opened v fd p : is_Some (content machine v 1 0) -> (fd = 2 /\ p = 100) \/ (fd = 3 /\ p = 101) ->
  opened 1 (editor v) fd p 5 0 [].
Proof.
  intros [pg Hc] Hfd. constructor.
  - unfold content, page_of in Hc. destruct (spaces v !! 1%positive) as [a|] eqn:Ha; [|discriminate Hc].
    exists (set_fileTable handles a). split; [|split; [exact handles_wf | by destruct Hfd as [[-> ->]|[-> ->]]]].
    unfold editor, with_handles. cbn. by rewrite lookup_alter_eq, Ha.
  - by destruct Hfd as [[-> ->]|[-> ->]].
  - by destruct Hfd as [[-> ->]|[-> ->]].
  - by destruct Hfd as [[-> ->]|[-> ->]].
  - reflexivity.
  - done.
Qed.

Lemma write_read_witness :
  exists v m1 k1 m2 k2, started = Ret v /\ Write_Syscall true 2 1 2 2 (machine, editor v) = Ret (m1, k1) /\
    Read_Syscall true 200 2 3 (m1, k1) = Ret (2, (m2, k2)) /\ inodes k2 !! 5 = Some [1; 2].
Proof.
  destruct booted as (v & Hv & K & Hl & Hs & Hsw & Hc). destruct (shell_bytes v Hv) as [(Hb1 & Hb2 & Hb) _].
  assert (core None 0 machine (with_handles v)) as K'.
  { exact (core_same_pages machine v (alter (set_fileTable handles) 1%positive (spaces v)) K (handles_pages v)). }
  assert (has_bytes 1 machine (editor v) 1 [1; 2]) as Hb'.
  { split; [exact Hb1|]. split; [exact Hb2|]. intros j Hj. rewrite <- Hb by done. unfold byte_at.
    cbn [vm fault_kernel_vm]. change (kvm (editor v)) with (with_handles v). by rewrite handles_content. }
  destruct (write_read quiet newmem_replicate true 1 machine (editor v) 1 200 [1; 2] 2 100 3 101 5 0 [] 0
    (conj K' (conj (unlocked_nil _ Hl) Hs)) Hb')
    as (m1 & k1 & m2 & k2 & Hw & Hr & _ & Hi & _).
  - cbn. lia.
  - change (2 < swap_free v). lia.
  - exact (editor_opened v 2 100 (Hc 0%nat ltac:(lia)) (or_introl (conj eq_refl eq_refl))).
  - exact (editor_opened v 3 101 (Hc 0%nat ltac:(lia)) (or_intror (conj eq_refl eq_refl))).
  - lia.
  - lia.
  - cbn. lia.
  - intros x Hx. cbn [vm fault_kernel_vm]. change (kvm (editor v)) with (with_handles v). rewrite handles_content. apply Hc.
    cbn in Hx. unfold page_number. assert (x / 128 < 10) by (apply Z.div_lt_upper_bound; lia). pose proof (Z.div_pos x 128). lia.
  - exists v, m1, k1, m2, k2. exact (conj Hv (conj Hw (conj Hr Hi))).
Defined.
End Demo.
