(* ===== verification/Disk.v ===== *)
(** * The disk device (machine/disk.h, machine/disk.cc)

    The disk is a UNIX file of 1024 sectors behind a magic number. A request
    moves one sector at once and schedules the interrupt that announces its end;
    the delay is computed from the position of the head, with a track buffer. The
    theorems: a request reads or writes one cell of an array of sectors and
    schedules one interrupt; the delay is that of the first passage of the sector
    under the head after the seek, or one sector time when the track buffer has
    seen the sector. *)

From S2P Require Import Prelude NachosList Interrupt Machine.

Definition SectorsPerTrack : Z := 32.
Definition NumTracks : Z := 32.
Definition NumSectors : Z := SectorsPerTrack * NumTracks.
Definition MagicNumber : Z := 0x456789ab.
Definition MagicSize : Z := 4.
Definition DiskSize : Z := MagicSize + NumSectors * SectorSize.

(** ** UNIX files (machine/sysdep.cc)

    A file is its bytes; [read] stops at the end, [write] behind the end leaves a
    hole of zeros. *)

Definition unix_read (f : list Z) (off n : Z) : list Z := take (Z.to_nat n) (drop (Z.to_nat off) f).

Definition unix_write (f : list Z) (off : Z) (bs : list Z) : list Z :=
  let p := Z.to_nat off in take p f ++ replicate (p - length f) 0 ++ bs ++ drop (p + length bs) f.

(** [Lseek(fd, off, 0); Read(fd, buffer, n)]. *)
Definition Read_at (f : list Z) (off n : Z) : C (list Z) :=
  let! _ := ASSERT (0 <=? off) in
  let bs := unix_read f off n in
  let! _ := ASSERT (Z.of_nat (length bs) =? n) in Ret bs.

(** [Lseek(fd, off, 0); WriteFile(fd, bs, n)], on a UNIX disk that is not full. *)
Definition WriteFile_at (f : list Z) (off : Z) (bs : list Z) : C (list Z) :=
  let! _ := ASSERT (0 <=? off) in Ret (unix_write f off bs).

(** A copy of [bs] into the array [buf] from index [at_]. *)
Definition copy_into (buf : list Z) (at_ : Z) (bs : list Z) : C (list Z) :=
  if (0 <=? at_) && (at_ + Z.of_nat (length bs) <=? Z.of_nat (length buf))
  then Ret (take (Z.to_nat at_) buf ++ bs ++ drop (Z.to_nat at_ + length bs) buf) else Undef.

(** [n] elements of the array [buf] from index [at_]. *)
Definition copy_from (buf : list Z) (at_ n : Z) : C (list Z) :=
  if (0 <=? at_) && (0 <=? n) && (at_ + n <=? Z.of_nat (length buf))
  then Ret (take (Z.to_nat n) (drop (Z.to_nat at_) buf)) else Undef.

Lemma copy_into_no_abort buf at_ bs : copy_into buf at_ bs <> Abort.
Proof. unfold copy_into. by case_match. Qed.

Lemma copy_from_no_abort buf at_ n : copy_from buf at_ n <> Abort.
Proof. unfold copy_from. by case_match. Qed.

(** ** The device *)

Record Disk := mkDisk {
  fileno : list Z;  (* the UNIX file *)
  active : bool;
  lastSector : Z;
  bufferInit : Z
}.

Section Device.
Context {H : Type} (DiskDone : H) (this : Z).
Implicit Types (s : IState H) (D : Disk).

Section Constructor.
Variable big : bool.

(** The [int] that four bytes hold. *)
Definition int_of (bs : list Z) : Z :=
  match bs with [b0; b1; b2; b3] => i32 (host_word big b0 b1 b2 b3) | _ => 0 end.

(** The constructor; [name] is the content of the UNIX file, if there is one. *)
Definition new_Disk (name : option (list Z)) : C Disk :=
  let! f :=
    match name with
    | Some f =>
        let! magic := Read_at f 0 MagicSize in
        let! _ := ASSERT (int_of magic =? MagicNumber) in Ret f
    | None =>
        let! f := WriteFile_at [] 0 (word_bytes big MagicNumber) in
        WriteFile_at f (DiskSize - 4) (word_bytes big 0)
    end in
  Ret (mkDisk f false 0 0).
End Constructor.

Definition TimeToSeek (newSector : Z) D s : Z * Z :=
  let newTrack := Z.quot newSector SectorsPerTrack in
  let oldTrack := Z.quot (lastSector D) SectorsPerTrack in
  let seek := Z.abs (newTrack - oldTrack) * SeekTime in
  let over := Z.rem (now s + seek) RotationTime in
  (seek, if 0 <? over then RotationTime - over else 0).

Definition ModuloDiff (to from : Z) : Z :=
  let toOffset := Z.rem to SectorsPerTrack in
  let fromOffset := Z.rem from SectorsPerTrack in
  Z.rem ((toOffset - fromOffset) + SectorsPerTrack) SectorsPerTrack.

Definition ComputeLatency (newSector : Z) (writing : bool) D s : Z :=
  let '(seek, rotation) := TimeToSeek newSector D s in
  let timeAfter := now s + seek + rotation in
  if negb writing && (seek =? 0)
     && (ModuloDiff newSector (Z.quot (bufferInit D) RotationTime)
         <? Z.quot (timeAfter - bufferInit D) RotationTime)
  then RotationTime
  else seek + (rotation + ModuloDiff newSector (Z.quot timeAfter RotationTime) * RotationTime) + RotationTime.

Definition UpdateLast (newSector : Z) D s : Disk :=
  let '(seek, rotate) := TimeToSeek newSector D s in
  mkDisk (fileno D) (active D) newSector (if seek =? 0 then bufferInit D else now s + seek + rotate).

Definition set_active b D : Disk := mkDisk (fileno D) b (lastSector D) (bufferInit D).
Definition set_fileno f D : Disk := mkDisk f (active D) (lastSector D) (bufferInit D).

Definition count_disk (reads writes : Z) (st : Statistics) : Statistics :=
  mkStats (totalTicks st) (idleTicks st) (systemTicks st) (userTicks st) (numDiskReads st + reads)
    (numDiskWrites st + writes) (numConsoleCharsRead st) (numConsoleCharsWritten st)
    (numPageFaults st) (numPacketsSent st) (numPacketsRecvd st).

(** The data go to [data], from index [at_]. *)
Definition ReadRequest (sectorNumber : Z) (data : list Z) (at_ : Z) '((D, s) : Disk * IState H)
  : C (list Z * (Disk * IState H)) :=
  let ticks := ComputeLatency sectorNumber false D s in
  let! _ := ASSERT (negb (active D)) in
  let! _ := ASSERT ((0 <=? sectorNumber) && (sectorNumber <? NumSectors)) in
  let! bs := Read_at (fileno D) (SectorSize * sectorNumber + MagicSize) SectorSize in
  let! data := copy_into data at_ bs in
  let D := UpdateLast sectorNumber (set_active true D) s in
  let s := set_stats (count_disk 1 0 (stats s)) s in
  let! s := Schedule DiskDone this ticks DiskInt s in
  Ret (data, (D, s)).

Definition WriteRequest (sectorNumber : Z) (data : list Z) (at_ : Z) '((D, s) : Disk * IState H)
  : C (Disk * IState H) :=
  let ticks := ComputeLatency sectorNumber true D s in
  let! _ := ASSERT (negb (active D)) in
  let! _ := ASSERT ((0 <=? sectorNumber) && (sectorNumber <? NumSectors)) in
  let! bs := copy_from data at_ SectorSize in
  let! f := WriteFile_at (fileno D) (SectorSize * sectorNumber + MagicSize) bs in
  let D := UpdateLast sectorNumber (set_active true (set_fileno f D)) s in
  let s := set_stats (count_disk 0 1 (stats s)) s in
  let! s := Schedule DiskDone this ticks DiskInt s in
  Ret (D, s).

(** HandleInterrupt: the request is over, then the handler of the owner runs. *)
Definition HandleInterrupt {St : Type} (handler : St -> C St) '((D, st) : Disk * St) : C (Disk * St) :=
  let D := set_active false D in
  let! st := handler st in Ret (D, st).
End Device.

Arguments NumSectors : simpl never.

(** ** Sectors *)

(** The content of the disk: every sector, in order. *)
Definition wf_sectors (ss : list (list Z)) : Prop :=
  Z.of_nat (length ss) = NumSectors /\ Forall (fun s => length s = 128%nat) ss.

Definition stores D_file (ss : list (list Z)) : Prop :=
  wf_sectors ss /\ exists magic, length magic = 4%nat /\ D_file = magic ++ concat ss.

Lemma length_concat_uniform {A} k (ls : list (list A)) :
  Forall (fun l => length l = k) ls -> length (concat ls) = (k * length ls)%nat.
Proof. induction 1 as [|l ls Hl _ IH]; cbn; [lia|]. rewrite length_app, IH, Hl. lia. Qed.

Lemma drop_concat_uniform {A} k i (ls : list (list A)) :
  Forall (fun l => length l = k) ls -> drop (k * i) (concat ls) = concat (drop i ls).
Proof.
  intros Hl. revert i. induction Hl as [|l ls Hl _ IH]; intros i; [cbn; by rewrite !drop_nil|].
  destruct i as [|i]; [by rewrite Nat.mul_0_r|]. cbn [concat drop].
  replace (k * S i)%nat with (length l + k * i)%nat by lia. by rewrite drop_app_add, IH.
Qed.

Lemma take_concat_uniform {A} k i (ls : list (list A)) :
  Forall (fun l => length l = k) ls -> take (k * i) (concat ls) = concat (take i ls).
Proof.
  intros Hl. revert i. induction Hl as [|l ls Hl _ IH]; intros i; [cbn; by rewrite !take_nil|].
  destruct i as [|i]; [by rewrite Nat.mul_0_r|]. cbn [concat take].
  replace (k * S i)%nat with (length l + k * i)%nat by lia. by rewrite take_app_add, IH.
Qed.

Lemma piece_concat_uniform {A} k i (ls : list (list A)) l :
  Forall (fun l => length l = k) ls -> ls !! i = Some l -> take k (drop (k * i) (concat ls)) = l.
Proof.
  intros Hf Hi. rewrite drop_concat_uniform by done. rewrite (drop_S ls l i Hi). cbn [concat].
  apply take_app_length'. symmetry. exact (Forall_lookup_1 _ _ _ _ Hf Hi).
Qed.

Lemma splice_concat_uniform {A} k i (ls : list (list A)) l l0 :
  Forall (fun l => length l = k) ls -> ls !! i = Some l0 -> length l = k ->
  take (k * i) (concat ls) ++ l ++ drop (k * i + k) (concat ls) = concat (<[i := l]> ls).
Proof.
  intros Hf Hi Hl. replace (k * i + k)%nat with (k * S i)%nat by lia.
  rewrite take_concat_uniform, drop_concat_uniform by done.
  rewrite insert_take_drop by (by eapply lookup_lt_Some). by rewrite concat_app.
Qed.

Lemma sector_exists ss n : wf_sectors ss -> 0 <= n < NumSectors ->
  exists s, ss !! Z.to_nat n = Some s /\ length s = 128%nat.
Proof.
  intros [Hl Hf] Hn. destruct (lookup_lt_is_Some_2 ss (Z.to_nat n)) as [s Hs]; [lia|].
  exists s. split; [done|]. by apply (Forall_lookup_1 _ _ _ _ Hf Hs).
Qed.

Lemma wf_sectors_insert ss n bs : wf_sectors ss -> length bs = 128%nat -> wf_sectors (<[n := bs]> ss).
Proof. intros [Hl Hf] Hb. split; [by rewrite length_insert | by apply Forall_insert]. Qed.

Lemma Read_at_sector f ss n s : stores f ss -> ss !! Z.to_nat n = Some s -> 0 <= n ->
  Read_at f (SectorSize * n + MagicSize) SectorSize = Ret s.
Proof.
  intros ([Hl Hf] & magic & Hm & ->) Hs Hn. unfold Read_at, unix_read, SectorSize, MagicSize.
  rewrite (proj2 (Z.leb_le _ _)) by lia. cbn [ASSERT bind].
  replace (Z.to_nat (128 * n + 4)) with (length magic + 128 * Z.to_nat n)%nat by lia.
  rewrite drop_app_add. change (Z.to_nat 128) with 128%nat.
  rewrite (piece_concat_uniform 128 _ ss s Hf Hs).
  rewrite (Forall_lookup_1 _ _ _ _ Hf Hs : length s = 128%nat). reflexivity.
Qed.

Lemma WriteFile_at_sector f ss n bs : stores f ss -> 0 <= n < NumSectors -> length bs = 128%nat ->
  exists f', WriteFile_at f (SectorSize * n + MagicSize) bs = Ret f' /\ stores f' (<[Z.to_nat n := bs]> ss).
Proof.
  intros (Hw & magic & Hm & ->) Hn Hb. pose proof Hw as [Hl Hf].
  destruct (sector_exists ss n Hw Hn) as (s0 & Hs0 & _).
  unfold WriteFile_at, unix_write, SectorSize, MagicSize. rewrite (proj2 (Z.leb_le _ _)) by lia. cbn [ASSERT bind].
  eexists. split; [reflexivity|]. split; [by apply wf_sectors_insert|]. exists magic. split; [done|].
  pose proof (length_concat_uniform 128 ss Hf) as Hc. unfold NumSectors, SectorsPerTrack, NumTracks in *.
  replace (Z.to_nat (128 * n + 4)) with (length magic + 128 * Z.to_nat n)%nat by lia.
  rewrite take_app_add, length_app, Hc. replace (_ - _)%nat with 0%nat by lia. cbn [replicate app].
  rewrite <- !app_assoc. f_equal. rewrite Hb, <- Nat.add_assoc, drop_app_add.
  by apply (splice_concat_uniform 128 _ ss bs s0).
Qed.

(** ** Delays *)

(** The head reaches the start of sector [n]'s place on its track at time [t]. *)
Definition passes (n t : Z) : Prop := t mod RotationTime = 0 /\ (t / RotationTime) mod SectorsPerTrack = n mod SectorsPerTrack.

Definition first_passage (n from t : Z) : Prop :=
  passes n t /\ from <= t /\ forall t', passes n t' -> from <= t' -> t <= t'.

Definition track (n : Z) : Z := n / SectorsPerTrack.

(** The first boundary between two sectors at [t] or later. *)
Definition boundary (t : Z) : Z := (t + RotationTime - 1) / RotationTime * RotationTime.

(** Sector [n] has passed under the head, in full, between [since] and [until]. *)
Definition seen (n since until : Z) : Prop := exists t, passes n t /\ since <= t /\ t + RotationTime <= until.

(** The time to move the head to the track of [n]. *)
Definition seek_time (n : Z) (D : Disk) : Z := Z.abs (track n - track (lastSector D)) * SeekTime.

Record head_ok (D : Disk) : Prop := {
  head_sector : 0 <= lastSector D < NumSectors;
  head_loaded : 0 <= bufferInit D /\ bufferInit D mod RotationTime = 0
}.

Section DeviceFacts.
Context {H : Type} (DiskDone : H) (this : Z).
Implicit Types (s : IState H) (D : Disk).

Lemma ModuloDiff_spec to from : 0 <= to -> 0 <= from -> ModuloDiff to from = (to - from) mod 32.
Proof.
  intros Ht Hf. unfold ModuloDiff, SectorsPerTrack. rewrite (Z.rem_mod_nonneg to), (Z.rem_mod_nonneg from) by lia.
  pose proof (Z.mod_pos_bound to 32). pose proof (Z.mod_pos_bound from 32).
  rewrite Z.rem_mod_nonneg by lia. rewrite (Zminus_mod to from), <- Zplus_mod_idemp_r, Z_mod_same_full, Z.add_0_r. done.
Qed.

(** The first boundary between sectors after the seek. *)
Lemma TimeToSeek_spec n D s : 0 <= now s -> 0 <= n < NumSectors -> head_ok D ->
  exists rotation q, TimeToSeek n D s = (seek_time n D, rotation) /\ 0 <= rotation < 500 /\
    now s + seek_time n D + rotation = 500 * q /\ 0 <= q.
Proof.
  intros Ht Hn [Hl _]. unfold TimeToSeek, seek_time, track, NumSectors, SectorsPerTrack, NumTracks, SeekTime, RotationTime in *.
  rewrite !Z.quot_div_nonneg by lia. set (seek := Z.abs _ * _). assert (0 <= seek) by (unfold seek; lia).
  rewrite Z.rem_mod_nonneg by lia. set (over := (now s + seek) mod 500).
  pose proof (Z.mod_pos_bound (now s + seek) 500 ltac:(lia)) as Ho. fold over in Ho.
  pose proof (Z.div_mod (now s + seek) 500 ltac:(lia)) as Hd. fold over in Hd.
  pose proof (Z.div_pos (now s + seek) 500 ltac:(lia) ltac:(lia)).
  destruct (Z.ltb_spec 0 over).
  - eexists _, ((now s + seek) / 500 + 1). split; [reflexivity|]. lia.
  - eexists _, ((now s + seek) / 500). split; [reflexivity|]. lia.
Qed.

Lemma passes_slot n k : passes n (500 * k) <-> k mod 32 = n mod 32.
Proof.
  unfold passes, RotationTime, SectorsPerTrack. rewrite (Z.mul_comm 500 k), Z_mod_mult, Z.div_mul by lia. tauto.
Qed.

Lemma next_slot n q : (q + (n - q) mod 32) mod 32 = n mod 32.
Proof. rewrite Zplus_mod_idemp_r. f_equal. lia. Qed.

Lemma next_slot_least n q k : k mod 32 = n mod 32 -> q <= k -> q + (n - q) mod 32 <= k.
Proof.
  intros Hk Hq. assert ((n - q) mod 32 = (k - q) mod 32) as -> by (by rewrite Zminus_mod, <- Hk, <- Zminus_mod).
  pose proof (Z.mod_le (k - q) 32). lia.
Qed.

Lemma first_passage_slot n from q : 500 * (q - 1) < from <= 500 * q ->
  first_passage n from (500 * (q + (n - q) mod 32)).
Proof.
  intros Hq. pose proof (Z.mod_pos_bound (n - q) 32 ltac:(lia)). split; [|split].
  - rewrite passes_slot. apply next_slot.
  - lia.
  - intros t' [Hm Hp] Hf. unfold RotationTime, SectorsPerTrack in *.
    pose proof (Z.div_mod t' 500 ltac:(lia)). pose proof (next_slot_least n q (t' / 500) Hp). lia.
Qed.

Lemma seek_time_bound n D : 0 <= n < NumSectors -> head_ok D -> 0 <= seek_time n D <= 31 * SeekTime.
Proof.
  intros Hn [Hl _]. unfold seek_time, track, NumSectors, SectorsPerTrack, NumTracks, SeekTime in *.
  pose proof (Z.div_lt_upper_bound n 32 32). pose proof (Z.div_lt_upper_bound (lastSector D) 32 32).
  pose proof (Z.div_pos n 32). pose proof (Z.div_pos (lastSector D) 32). lia.
Qed.

(** The sector has passed between two boundaries exactly when there are enough
    sector times between them. *)
Lemma passed_between n b q : 0 <= b -> 0 <= n ->
  (exists t, passes n t /\ 500 * b <= t /\ t + 500 <= 500 * q) <-> (n - b) mod 32 < q - b.
Proof.
  intros Hb Hn. pose proof (Z.mod_pos_bound (n - b) 32 ltac:(lia)). split.
  - intros (t & [Hm Hp] & Ht1 & Ht2). unfold RotationTime, SectorsPerTrack in *.
    pose proof (Z.div_mod t 500 ltac:(lia)). pose proof (next_slot_least n b (t / 500) Hp). lia.
  - intros Hlt. exists (500 * (b + (n - b) mod 32)). split; [rewrite passes_slot; apply next_slot | lia].
Qed.

Lemma boundary_spec t rotation q : 0 <= rotation < 500 -> t + rotation = 500 * q -> boundary t = 500 * q.
Proof.
  intros Hr Hq. unfold boundary, RotationTime. rewrite Z.mul_comm. f_equal. symmetry.
  apply (Z.div_unique _ _ _ (499 - rotation)); lia.
Qed.

(** Whether the track buffer has the sector, and the delay. *)
Lemma ComputeLatency_spec n writing D s : 0 <= now s -> 0 <= n < NumSectors -> head_ok D ->
  let latency := ComputeLatency n writing D s in
  let buffered := writing = false /\ seek_time n D = 0 /\ seen n (bufferInit D) (boundary (now s)) in
  (RotationTime <= latency <= 31 * SeekTime + 499 + 32 * RotationTime) /\
  (buffered -> latency = RotationTime) /\
  (~ buffered -> first_passage n (now s + seek_time n D) (now s + latency - RotationTime)).
Proof.
  intros Ht Hn Hh. destruct (TimeToSeek_spec n D s Ht Hn Hh) as (rotation & q & Hs & Hr & Hq & Hq0).
  pose proof (seek_time_bound n D Hn Hh) as Hb. destruct Hh as [_ [Hb0 Hbm]].
  unfold ComputeLatency, seen. rewrite Hs, Hq. cbv zeta.
  change RotationTime with 500 in *. change SeekTime with 500 in *.
  pose proof (Z.div_mod (bufferInit D) 500 ltac:(lia)) as Eb. rewrite Hbm, Z.add_0_r in Eb. set (b := bufferInit D / 500) in *.
  pose proof (Z.div_pos (bufferInit D) 500 Hb0 ltac:(lia)) as Hbp. fold b in Hbp.
  assert (Z.quot (500 * q - bufferInit D) 500 = q - b) as -> by (rewrite Eb, <- Z.mul_sub_distr_l, (Z.mul_comm 500), Z.quot_mul; lia).
  rewrite (Z.quot_div_nonneg (bufferInit D)) by lia. fold b.
  rewrite (Z.mul_comm 500 q), Z.quot_mul, !ModuloDiff_spec by lia.
  pose proof (Z.mod_pos_bound (n - q) 32 ltac:(lia)).
  destruct (negb writing && _ && _) eqn:E.
  - split; [lia|]. split; [done|]. intros Hnb. exfalso. apply Hnb.
    apply andb_true_iff in E as [[Ew%negb_true_iff Es%Z.eqb_eq]%andb_true_iff El%Z.ltb_lt].
    split; [done|]. split; [done|]. rewrite (boundary_spec _ rotation q) by lia. rewrite Eb. by apply passed_between; [|lia|].
  - split; [lia|]. split.
    + intros (-> & Hs0 & Hseen). exfalso. rewrite (boundary_spec _ rotation q), Eb in Hseen by lia.
      apply passed_between in Hseen; [|lia..]. apply Z.ltb_lt in Hseen. rewrite Hseen, Hs0 in E. done.
    + intros _. replace (now s + _ - 500) with (500 * (q + (n - q) mod 32)) by lia. apply first_passage_slot. lia.
Qed.

Lemma UpdateLast_ok n D s : 0 <= now s -> 0 <= n < NumSectors -> head_ok D -> head_ok (UpdateLast n D s).
Proof.
  intros Ht Hn Hh. destruct (TimeToSeek_spec n D s Ht Hn Hh) as (rotation & q & Hs & Hr & Hq & Hq0).
  unfold UpdateLast. rewrite Hs, Hq. split; [done|]. cbn [bufferInit]. case_match; [apply Hh|].
  unfold RotationTime. rewrite (Z.mul_comm 500 q), Z_mod_mult. lia.
Qed.

Lemma UpdateLast_fields n D s :
  fileno (UpdateLast n D s) = fileno D /\ active (UpdateLast n D s) = active D /\ lastSector (UpdateLast n D s) = n.
Proof. unfold UpdateLast. by destruct (TimeToSeek n D s). Qed.

(** The request for sector [n] has been made: the device is busy until the
    interrupt, which is the only change to the list of interrupts. *)
Record requested (n : Z) (writing : bool) (D : Disk) s (D' : Disk) s' : Prop := {
  rq_active : active D' = true;
  rq_head : head_ok D' /\ lastSector D' = n;
  rq_pending : let w := now s + ComputeLatency n writing D s in
    pending s' = Seq.SortedInsert (mkPending DiskDone this w DiskInt) w (pending s);
  rq_stats : stats s' = count_disk (if writing then 0 else 1) (if writing then 1 else 0) (stats s);
  rq_rest : level s' = level s /\ inHandler s' = inHandler s /\ yieldOnReturn s' = yieldOnReturn s /\ status s' = status s
}.

Lemma requested_ok n (writing : bool) f D s : 0 <= now s -> 0 <= n < NumSectors -> head_ok D ->
  let D' := UpdateLast n (set_active true (set_fileno f D)) s in
  let s1 := set_stats (count_disk (if writing then 0 else 1) (if writing then 1 else 0) (stats s)) s in
  exists s', Schedule DiskDone this (ComputeLatency n writing D s) DiskInt s1 = Ret s' /\
    requested n writing D s D' s' /\ fileno D' = f.
Proof.
  intros Ht Hn Hh. cbv zeta.
  pose proof (ComputeLatency_spec n writing D s Ht Hn Hh) as [Hl _]. unfold RotationTime in Hl.
  pose proof (UpdateLast_fields n (set_active true (set_fileno f D)) s) as (Hf & Ha & Hs).
  pose proof (UpdateLast_ok n (set_active true (set_fileno f D)) s Ht Hn (Build_head_ok (set_active true (set_fileno f D)) (head_sector D Hh) (head_loaded D Hh))).
  unfold Schedule. rewrite (proj2 (Z.ltb_lt _ _)) by lia. cbn [ASSERT bind].
  eexists. split; [reflexivity|]. split; [|by rewrite Hf]. by constructor.
Qed.

Lemma ReadRequest_spec n data at_ ss sec D s data' :
  stores (fileno D) ss -> head_ok D -> 0 <= now s -> active D = false -> 0 <= n < NumSectors ->
  ss !! Z.to_nat n = Some sec -> copy_into data at_ sec = Ret data' ->
  exists D' s', ReadRequest DiskDone this n data at_ (D, s) = Ret (data', (D', s')) /\
    requested n false D s D' s' /\ fileno D' = fileno D.
Proof.
  intros Hd Hh Ht Ha Hn Hs Hc. unfold ReadRequest. rewrite Ha. cbn [negb ASSERT bind].
  rewrite (proj2 (Z.leb_le _ _)), (proj2 (Z.ltb_lt _ _)) by lia. cbn [andb ASSERT bind].
  rewrite (Read_at_sector _ ss n sec Hd Hs) by lia. cbn [bind]. rewrite Hc. cbn [bind].
  destruct (requested_ok n false (fileno D) D s Ht Hn Hh) as (s' & Hr & Hq & Hf).
  assert (set_active true D = set_active true (set_fileno (fileno D) D)) as -> by (by destruct D).
  rewrite Hr. cbn [bind]. eexists _, s'. split; [reflexivity|]. by split.
Qed.

Lemma WriteRequest_spec n data at_ ss bs D s :
  stores (fileno D) ss -> head_ok D -> 0 <= now s -> active D = false -> 0 <= n < NumSectors ->
  copy_from data at_ SectorSize = Ret bs ->
  exists D' s', WriteRequest DiskDone this n data at_ (D, s) = Ret (D', s') /\
    requested n true D s D' s' /\ stores (fileno D') (<[Z.to_nat n := bs]> ss).
Proof.
  intros Hd Hh Ht Ha Hn Hc. unfold WriteRequest. rewrite Ha. cbn [negb ASSERT bind].
  rewrite (proj2 (Z.leb_le _ _)), (proj2 (Z.ltb_lt _ _)) by lia. cbn [andb ASSERT bind].
  rewrite Hc. cbn [bind]. assert (length bs = 128%nat) as Hb.
  { unfold copy_from, SectorSize in Hc. destruct (_ && _ && _) eqn:E; [|done]. injection Hc as <-. zbool.
    rewrite length_take, length_drop. lia. }
  destruct (WriteFile_at_sector (fileno D) ss n bs Hd Hn Hb) as (f' & -> & Hst). cbn [bind].
  destruct (requested_ok n true f' D s Ht Hn Hh) as (s' & Hr & Hq & Hf).
  rewrite Hr. cbn [bind]. eexists _, s'. split; [reflexivity|]. split; [done|]. by rewrite Hf.
Qed.

Lemma request_refused n data at_ D s :
  active D = true \/ ~ (0 <= n < NumSectors) ->
  ReadRequest DiskDone this n data at_ (D, s) = Abort /\ WriteRequest DiskDone this n data at_ (D, s) = Abort.
Proof.
  intros Hr. unfold ReadRequest, WriteRequest. destruct (active D); [done|]. cbn [negb ASSERT bind].
  destruct (Z.leb_spec 0 n), (Z.ltb_spec n NumSectors); try done. destruct Hr as [|[]]; [done | lia].
Qed.

(** ** The head

    The requests that a disk has taken, the last one first: when each was made, and
    for which sector. *)
Notation requests := (list (Z * Z)).

Inductive worked : requests -> Disk -> Prop :=
| worked_new big name D : new_Disk big name = Ret D -> worked [] D
| worked_read rs n data at_ data' D s D' s' : worked rs D -> 0 <= now s ->
    ReadRequest DiskDone this n data at_ (D, s) = Ret (data', (D', s')) -> worked ((now s, n) :: rs) D'
| worked_write rs n data at_ D s D' s' : worked rs D -> 0 <= now s ->
    WriteRequest DiskDone this n data at_ (D, s) = Ret (D', s') -> worked ((now s, n) :: rs) D'
| worked_interrupt rs {St : Type} (handler : St -> C St) (st st' : St) D D' : worked rs D ->
    HandleInterrupt handler (D, st) = Ret (D', st') -> worked rs D'.

(** The sector the head was last sent to. *)
Definition head_at (rs : requests) : Z := match rs with (_, n) :: _ => n | [] => 0 end.

(** The time the head takes to the track of [n]. *)
Definition seek_to (n : Z) (rs : requests) : Z := Z.abs (track n - track (head_at rs)) * SeekTime.

(** Since when the head has been over its track, counting from a boundary. *)
Fixpoint on_track_since (rs : requests) : Z :=
  match rs with
  | (t, n) :: rs => if track n =? track (head_at rs) then on_track_since rs else boundary (t + seek_to n rs)
  | [] => 0
  end.

Record tracked (rs : requests) D : Prop := {
  td_head : head_ok D;
  td_sector : lastSector D = head_at rs;
  td_since : bufferInit D = on_track_since rs
}.

Lemma tracked_request rs n D s : tracked rs D -> 0 <= now s -> 0 <= n < NumSectors ->
  tracked ((now s, n) :: rs) (UpdateLast n D s).
Proof.
  intros [Hh Hl Hs] Ht Hn. pose proof (UpdateLast_fields n D s) as (_ & _ & Hn1). split; [by apply UpdateLast_ok | done |].
  destruct (TimeToSeek_spec n D s Ht Hn Hh) as (rotation & q & Hk & Hr & Hq & _).
  unfold UpdateLast. rewrite Hk. cbn [bufferInit on_track_since]. unfold seek_time in *. rewrite Hl in *. fold (seek_to n rs) in *.
  unfold seek_to in *. change SeekTime with 500 in *.
  destruct (Z.eqb_spec (track n) (track (head_at rs))), (Z.eqb_spec (Z.abs (track n - track (head_at rs)) * 500) 0); try lia.
  rewrite (boundary_spec _ rotation q); lia.
Qed.

Lemma tracked_set b f rs D : tracked rs D -> tracked rs (set_active b (set_fileno f D)).
Proof. intros [[] ? ?]. split; [by split | done..]. Qed.

Lemma set_fileno_same D : set_fileno (fileno D) D = D.
Proof. by destruct D. Qed.

Lemma worked_tracked rs D : worked rs D -> tracked rs D.
Proof.
  induction 1 as [big name D Hn|rs n data at_ data' D s D' s' _ IH Ht Hr|rs n data at_ D s D' s' _ IH Ht Hr|rs St handler st st' D D' _ IH Hi].
  - apply bind_Ret in Hn as (f & _ & [= <-]). split; [|done..]. split; cbn; [|done]. unfold NumSectors, SectorsPerTrack, NumTracks. lia.
  - apply bind_Ret in Hr as ([] & _ & ([] & Hn%ASSERT_Ret & (bs & _ & (d & _ & (s1 & _ & [= _ <- _])%bind_Ret)%bind_Ret)%bind_Ret)%bind_Ret).
    apply tracked_request; [|done | zbool; lia]. rewrite <- (set_fileno_same D). by apply tracked_set.
  - apply bind_Ret in Hr as ([] & _ & ([] & Hn%ASSERT_Ret & (bs & _ & (f & _ & (s1 & _ & [= <- _])%bind_Ret)%bind_Ret)%bind_Ret)%bind_Ret).
    apply tracked_request; [|done | zbool; lia]. by apply tracked_set.
  - apply bind_Ret in Hi as (st1 & _ & [= <- _]). rewrite <- (set_fileno_same D). by apply tracked_set.
Qed.

(** C36: the delay of a disk request is that of the hardware it simulates, whatever
    the requests before it. It is at least one sector time and bounded. A read is
    served from the track buffer, in one sector time, exactly when the head stays on
    its track and the sector has passed under it in full since the head came to that
    track (from the first sector boundary after the seek of the last request that
    changed tracks, up to the next boundary from now). Otherwise the transfer starts
    when the head, having moved to the track, first reaches the start of the sector. *)
Theorem latency_is_first_passage rs D n writing s :
  worked rs D -> 0 <= now s -> 0 <= n < NumSectors ->
  let latency := ComputeLatency n writing D s in
  let buffered := writing = false /\ track n = track (head_at rs) /\ seen n (on_track_since rs) (boundary (now s)) in
  (RotationTime <= latency <= 31 * SeekTime + 499 + 32 * RotationTime) /\
  (buffered -> latency = RotationTime) /\
  (~ buffered -> first_passage n (now s + seek_to n rs) (now s + latency - RotationTime)).
Proof.
  intros Hw Ht Hn. destruct (worked_tracked rs D Hw) as [Hh Hl Hs].
  destruct (ComputeLatency_spec n writing D s Ht Hn Hh) as (Hb & H1 & H2). unfold seek_time in *. rewrite Hl, Hs in *.
  assert (seek_to n rs = 0 <-> track n = track (head_at rs)) as Hk by (unfold seek_to, SeekTime; lia). unfold seek_to in *.
  split; [exact Hb|]. split; [intros (? & ? & ?); apply H1; tauto | intros Hnb; apply H2; tauto].
Qed.
End DeviceFacts.

(** The handler of the example: one number. *)
Definition example_state : IState nat := set_stats (set_ticks 1234 0 1234 0 new_Statistics) (new_Interrupt new_Statistics).
Definition example_disk : Disk := mkDisk [] false 33 1000.

Example example_latencies :
  (ComputeLatency 40 true example_disk example_state, ComputeLatency 700 false example_disk example_state,
   ComputeLatency 34 false example_disk example_state, ComputeLatency 35 false example_disk example_state) =
  (3266, 13266, 500, 766).
Proof. vm_compute. reflexivity. Qed.

(** A disk that is only its magic number, a write to sector 33 at time 0, and its
    interrupt: the head is over track 1 from time 500 on. *)
Definition blank_disk : Disk := mkDisk (word_bytes true MagicNumber) false 0 0.
Definition at_time (t : Z) : IState nat := set_stats (set_ticks t 0 t 0 new_Statistics) (new_Interrupt new_Statistics).
Definition written : Disk * IState nat :=
  match WriteRequest 0%nat 0 33 (replicate 128 7) 0 (blank_disk, at_time 0) with Ret r => r | _ => (blank_disk, at_time 0) end.
Definition idle_disk : Disk := set_active false written.1.

Lemma idle_disk_worked : worked 0%nat 0 [(0, 33)] idle_disk.
Proof.
  apply (worked_interrupt _ _ [(0, 33)] (St := unit) Ret tt tt written.1); [|reflexivity].
  apply (worked_write _ _ [] 33 (replicate 128 7) 0 blank_disk (at_time 0) written.1 written.2).
  - apply (worked_new _ _ true (Some (word_bytes true MagicNumber))). vm_compute. reflexivity.
  - vm_compute. discriminate.
  - vm_compute. reflexivity.
Qed.

Lemma latency_is_first_passage_witness :
  ComputeLatency 34 false idle_disk (at_time 1700) = 500 /\
  first_passage 36 (1700 + 0) (1700 + ComputeLatency 36 false idle_disk (at_time 1700) - 500).
Proof.
  split.
  - destruct (latency_is_first_passage 0%nat 0 [(0, 33)] idle_disk 34 false (at_time 1700)) as (_ & Hb & _);
      [exact idle_disk_worked | vm_compute; discriminate | vm_compute; split; [discriminate | reflexivity] |].
    apply Hb. split; [reflexivity|]. split; [reflexivity|]. exists 1000. vm_compute. repeat split; discriminate.
  - destruct (latency_is_first_passage 0%nat 0 [(0, 33)] idle_disk 36 false (at_time 1700)) as (_ & _ & Hf);
      [exact idle_disk_worked | vm_compute; discriminate | vm_compute; split; [discriminate | reflexivity] |].
    apply Hf. intros (_ & _ & t & [Hm Hp] & H1 & H2). change (on_track_since [(0, 33)]) with 500 in H1.
    change (boundary (now (at_time 1700))) with 2000 in H2. unfold RotationTime, SectorsPerTrack in *. change (36 mod 32) with 4 in Hp.
    assert (t / 500 = 1 \/ t / 500 = 2 \/ t / 500 = 3) as [E | [E | E]] by (pose proof (Z.div_mod t 500 ltac:(lia)); lia);
      rewrite E in Hp; vm_compute in Hp; discriminate Hp.
Defined.
