(* ===== verification/SynchDisk.v ===== *)
(** * The synchronous disk (filesys/synchdisk.h, filesys/synchdisk.cc)

    Threads call ReadSector and WriteSector at any time; a lock admits one request
    to the device, and a semaphore makes the caller wait for the interrupt. A call
    is a sequence of four steps, one per statement of the source, which interleave
    with those of other threads and with the clock of Interrupt.v. The lock and the
    semaphore behave as Threads.v proves them to: Acquire takes a free lock or joins
    the queue, Release hands the lock to the first of the queue, P goes on when the
    value is positive. The theorems: the calls take effect one at a time on an array
    of sectors, whatever the interleaving (in particular the assertion that the
    device is idle never fails), and no schedule leaves a caller waiting for ever. *)

From S2P Require Import Prelude NachosList Interrupt Machine Disk.

(** ** The contract: an array of sectors *)

Notation Sectors := (list (list Z)).

(** [&data[at_]] is the buffer of a call. *)
Definition ReadSector (sectorNumber : Z) (data : list Z) (at_ : Z) (ss : Sectors) : C (list Z) :=
  let! _ := ASSERT ((0 <=? sectorNumber) && (sectorNumber <? NumSectors)) in
  let! s := aref ss sectorNumber in copy_into data at_ s.

Definition WriteSector (sectorNumber : Z) (data : list Z) (at_ : Z) (ss : Sectors) : C Sectors :=
  let! _ := ASSERT ((0 <=? sectorNumber) && (sectorNumber <? NumSectors)) in
  let! bs := copy_from data at_ SectorSize in aset ss sectorNumber bs.

(** ** The code *)

(** The statement a call is about to run; in [Waiting] it is asleep in Acquire. *)
Inductive place := AtAcquire | Waiting | AtRequest | AtP | AtRelease.

Record operation := mkOp { writing : bool; sectorNumber : Z; at_ : Z }.

(** A call in progress, with the caller's buffer. *)
Record request := mkRequest { where_ : place; op : operation; data : list Z }.

(** The members of class SynchDisk, the lock with its owner and its queue, and the
    calls in progress. *)
Record SynchDisk := mkSD {
  lock : option positive;
  waiting : list positive;
  semaphore : Z;
  disk : Disk;
  calls : gmap positive request
}.

(** The one handler that is scheduled: DiskDone. *)
Inductive handlers := DiskDone.

Definition new_SynchDisk (D : Disk) : SynchDisk := mkSD None [] 0 D ∅.

Definition set_semaphore v w := mkSD (lock w) (waiting w) v (disk w) (calls w).
Definition set_disk D w := mkSD (lock w) (waiting w) (semaphore w) D (calls w).
Definition set_lock l q w := mkSD l q (semaphore w) (disk w) (calls w).
Definition set_calls cs w := mkSD (lock w) (waiting w) (semaphore w) (disk w) cs.
Definition set_call t c w := set_calls (<[t := c]> (calls w)) w.
Definition end_call t w := set_calls (delete t (calls w)) w.
Definition at_place p (c : request) := mkRequest p (op c) (data c).

(** lock->Acquire() and lock->Release(). *)
Definition acquire (t : positive) (c : request) (w : SynchDisk) : SynchDisk :=
  match lock w with
  | None => set_call t (at_place AtRequest c) (set_lock (Some t) (waiting w) w)
  | Some h => set_call t (at_place Waiting c) (set_lock (Some h) (waiting w ++ [t]) w)
  end.

Definition release (w : SynchDisk) : SynchDisk :=
  match waiting w with
  | [] => set_lock None [] w
  | t :: q => set_calls (alter (at_place AtRequest) t (calls w)) (set_lock (Some t) q w)
  end.

(** RequestDone: [semaphore->V()]. *)
Definition RequestDone (w : SynchDisk) : C SynchDisk := Ret (set_semaphore (semaphore w + 1) w).

(** DiskRequestDone, as the device's handler. *)
Definition DiskRequestDone (w : SynchDisk) : C SynchDisk :=
  let! (D, w) := HandleInterrupt RequestDone (disk w, w) in Ret (set_disk D w).

#[export] Instance disk_devices : Devices handlers SynchDisk := {
  call h a sw := let '(s, w) := sw in let! w := DiskRequestDone w in Ret (s, w);
  delayed_load w := w;
  yield sw := Ret sw
}.

Definition World : Type := IState handlers * SynchDisk.

(** [disk->ReadRequest(sectorNumber, data)] or [disk->WriteRequest(sectorNumber, data)]. *)
Definition issue (c : request) '((s, w) : World) : C (request * World) :=
  let o := op c in
  if writing o then
    let! (D, s) := WriteRequest DiskDone 0 (sectorNumber o) (data c) (at_ o) (disk w, s) in
    Ret (mkRequest AtP o (data c), (s, set_disk D w))
  else
    let! (d, (D, s)) := ReadRequest DiskDone 0 (sectorNumber o) (data c) (at_ o) (disk w, s) in
    Ret (mkRequest AtP o d, (s, set_disk D w)).

(** The next statement of the call of [t]. *)
Definition statement (t : positive) (c : request) '((s, w) : World) : C World :=
  match where_ c with
  | AtAcquire => Ret (s, acquire t c w)
  | Waiting => Undef
  | AtRequest => let! (c, (s, w)) := issue c (s, w) in Ret (s, set_call t c w)
  | AtP => Ret (s, set_call t (at_place AtRelease c) (set_semaphore (semaphore w - 1) w))
  | AtRelease => Ret (s, release (end_call t w))
  end.

Inductive event :=
| Enter (t : positive) (o : operation) (buf : list Z)   (* a call begins *)
| Step (t : positive)                                    (* its next statement *)
| Tick                                                   (* the clock advances *)
| AllSleep.                                              (* nothing is ready: Interrupt::Idle *)

Definition can_run (c : request) (w : SynchDisk) : bool :=
  match where_ c with
  | Waiting => false
  | AtP => 0 <? semaphore w
  | _ => true
  end.

(** What can happen: a thread in a call sleeps in Acquire and in P; the processor
    sleeps when no call can run a statement. *)
Definition enabled (e : event) '((s, w) : World) : bool :=
  match e with
  | Enter t _ _ => bool_decide (calls w !! t = None)
  | Step t => match calls w !! t with Some c => can_run c w | None => false end
  | Tick => true
  | AllSleep => bool_decide (map_Forall (fun _ c => can_run c w = false) (calls w)) && negb (bool_decide (calls w = ∅))
  end.

Definition exec (e : event) '((s, w) : World) : C World :=
  match e with
  | Enter t o buf => Ret (s, set_call t (mkRequest AtAcquire o buf) w)
  | Step t => match calls w !! t with Some c => statement t c (s, w) | None => Undef end
  | Tick => OneTick (s, w)
  | AllSleep =>
      let! (b, (s, w)) := Idle (Interrupt.ChangeLevel (level s) IntOff s, w) in
      if (b : bool) then Ret (Interrupt.ChangeLevel IntOff IntOn s, w) else Abort
  end.

Fixpoint run (es : list event) (sw : World) : C World :=
  match es with [] => Ret sw | e :: es => let! sw := exec e sw in run es sw end.

(** Every event of the list can happen when its turn comes. *)
Fixpoint happens (es : list event) (sw : World) : bool :=
  match es with
  | [] => true
  | e :: es => enabled e sw && match exec e sw with Ret sw => happens es sw | _ => true end
  end.

(** ** The abstract disk

    A call begins, takes effect on the array at one instant, and returns what its
    buffer held after that instant. *)

Record Array := mkArray {
  content : Sectors;
  ongoing : gmap positive (bool * operation * list Z)  (* served or not *)
}.

Definition serve (o : operation) (d : list Z) (ss : Sectors) : C (list Z * Sectors) :=
  if writing o then let! ss := WriteSector (sectorNumber o) d (at_ o) ss in Ret (d, ss)
  else let! d := ReadSector (sectorNumber o) d (at_ o) ss in Ret (d, ss).

Inductive action := Begin (t : positive) (o : operation) (buf : list Z) | Serve (t : positive) | Return (t : positive).

Definition act (a : action) (A : Array) : C Array :=
  match a with
  | Begin t o buf => Ret (mkArray (content A) (<[t := (false, o, buf)]> (ongoing A)))
  | Serve t =>
      match ongoing A !! t with
      | Some (false, o, d) =>
          let! (d, ss) := serve o d (content A) in Ret (mkArray ss (<[t := (true, o, d)]> (ongoing A)))
      | _ => Undef
      end
  | Return t =>
      match ongoing A !! t with
      | Some (true, _, _) => Ret (mkArray (content A) (delete t (ongoing A)))
      | _ => Undef
      end
  end.

Fixpoint acts (l : list action) (A : Array) : C Array :=
  match l with [] => Ret A | a :: l => let! A := act a A in acts l A end.

(** What an event does to the array: a call takes effect at its request. *)
Definition action_of (e : event) (w : SynchDisk) : list action :=
  match e with
  | Enter t o buf => [Begin t o buf]
  | Step t =>
      match calls w !! t with
      | Some (mkRequest AtRequest _ _) => [Serve t]
      | Some (mkRequest AtRelease _ _) => [Return t]
      | _ => []
      end
  | _ => []
  end.

Fixpoint trace (es : list event) (sw : World) : list action :=
  match es with
  | [] => []
  | e :: es => action_of e sw.2 ++ match exec e sw with Ret sw => trace es sw | _ => [] end
  end.

Definition is_served (p : place) : bool := match p with AtP | AtRelease => true | _ => false end.

(** The call has the lock. *)
Definition past (p : place) : bool := match p with AtAcquire | Waiting => false | _ => true end.

(** A call as the array sees it. *)
Definition seen (c : request) : bool * operation * list Z := (is_served (where_ c), op c, data c).

(** The clock and the list of interrupts: at most the one of the disk. *)
Record quiet (s : IState handlers) : Prop := {
  q_level : level s = IntOn;
  q_handler : inHandler s = false;
  q_status : status s = SystemMode;
  q_now : 0 <= now s
}.

(** The device, the semaphore and the interrupt go together. *)
Definition resting (s : IState handlers) (w : SynchDisk) : Prop :=
  active (disk w) = false /\ pending s = [] /\ semaphore w = 0.
Definition busy (s : IState handlers) (w : SynchDisk) : Prop :=
  active (disk w) = true /\ semaphore w = 0 /\
  exists t, pending s = [(t, mkPending DiskDone 0 t DiskInt)].
Definition announced (s : IState handlers) (w : SynchDisk) : Prop :=
  active (disk w) = false /\ pending s = [] /\ semaphore w = 1.

Definition phase (s : IState handlers) (w : SynchDisk) : Prop :=
  match lock w with
  | None => resting s w
  | Some t => exists c, calls w !! t = Some c /\
      match where_ c with
      | AtAcquire | Waiting => False
      | AtP => busy s w \/ announced s w
      | _ => resting s w
      end
  end.

(** The queue of the lock: the calls that wait for it, in the order they came. *)
Record queue_ok (l : option positive) (q : list positive) (m : gmap positive request) : Prop := {
  qo_NoDup : NoDup q;
  qo_in : forall t, t ∈ q <-> exists c, m !! t = Some c /\ where_ c = Waiting;
  qo_free : l = None -> q = []
}.

Record implements (sw : World) (A : Array) : Prop := {
  im_quiet : quiet sw.1;
  im_head : head_ok (disk sw.2);
  im_stores : stores (fileno (disk sw.2)) (content A);
  im_calls : ongoing A = seen <$> calls sw.2;
  im_lock : forall t c, calls sw.2 !! t = Some c -> past (where_ c) = true -> lock sw.2 = Some t;
  im_queue : queue_ok (lock sw.2) (waiting sw.2) (calls sw.2);
  im_phase : phase sw.1 sw.2
}.

Lemma in_range_dec n : (0 <= n < NumSectors /\ (0 <=? n) && (n <? NumSectors) = true) \/
  (~ (0 <= n < NumSectors) /\ (0 <=? n) && (n <? NumSectors) = false).
Proof. destruct (Z.leb_spec 0 n), (Z.ltb_spec n NumSectors); [left | right..]; lia. Qed.

Section Requests.
Context (ss : Sectors) (D : Disk) (s : IState handlers).
Context (Hst : stores (fileno D) ss) (Hh : head_ok D) (Ht : 0 <= now s) (Ha : active D = false).

Lemma ReadRequest_array n buf k :
  match ReadSector n buf k ss with
  | Ret d => exists D' s', ReadRequest DiskDone 0 n buf k (D, s) = Ret (d, (D', s')) /\
      requested DiskDone 0 n false D s D' s' /\ stores (fileno D') ss
  | Abort => ReadRequest DiskDone 0 n buf k (D, s) = Abort
  | Undef => ReadRequest DiskDone 0 n buf k (D, s) = Undef
  end.
Proof using Hst Hh Ht Ha.
  unfold ReadSector. destruct (in_range_dec n) as [[Hn ->]|[Hn ->]]; cbn [ASSERT bind].
  2:{ apply request_refused. by right. }
  destruct (sector_exists ss n (proj1 Hst) Hn) as (sec & Hs & _).
  rewrite (proj2 (aref_Ret ss n sec)) by (split; [lia | done]). cbn [bind].
  destruct (copy_into buf k sec) as [d| |] eqn:Hc.
  - destruct (ReadRequest_spec DiskDone 0 n buf k ss sec D s d) as (D' & s' & Hr & Hq & Hf); try done.
    exists D', s'. by rewrite Hf.
  - by destruct (copy_into_no_abort buf k sec).
  - unfold ReadRequest. rewrite Ha. cbn [negb ASSERT bind].
    rewrite (proj2 (Z.leb_le _ _)), (proj2 (Z.ltb_lt _ _)) by lia. cbn [andb ASSERT bind].
    rewrite (Read_at_sector _ ss n sec) by (done || lia). cbn [bind]. by rewrite Hc.
Qed.

Lemma WriteRequest_array n buf k :
  match WriteSector n buf k ss with
  | Ret ss' => exists D' s', WriteRequest DiskDone 0 n buf k (D, s) = Ret (D', s') /\
      requested DiskDone 0 n true D s D' s' /\ stores (fileno D') ss'
  | Abort => WriteRequest DiskDone 0 n buf k (D, s) = Abort
  | Undef => WriteRequest DiskDone 0 n buf k (D, s) = Undef
  end.
Proof using Hst Hh Ht Ha.
  unfold WriteSector. destruct (in_range_dec n) as [[Hn ->]|[Hn ->]]; cbn [ASSERT bind].
  2:{ apply (request_refused DiskDone 0 n buf k D s). by right. }
  destruct (copy_from buf k SectorSize) as [bs| |] eqn:Hc; cbn [bind].
  - rewrite aset_in by (destruct Hst as [[-> _] _]; lia).
    by apply (WriteRequest_spec DiskDone 0 n buf k ss bs D s).
  - by destruct (copy_from_no_abort buf k SectorSize).
  - unfold WriteRequest. rewrite Ha. cbn [negb ASSERT bind].
    rewrite (proj2 (Z.leb_le _ _)), (proj2 (Z.ltb_lt _ _)) by lia. cbn [andb ASSERT bind]. by rewrite Hc.
Qed.
End Requests.

Lemma requested_busy n wr D s w D' s' : requested DiskDone 0 n wr D s D' s' -> quiet s -> resting s w ->
  quiet s' /\ busy s' (set_disk D' w).
Proof.
  intros [Ha _ Hp Hstat (Hl & Hi & _ & Hst)] [Ql Qi Qs Qt] (_ & Hn & Hsem). rewrite Hn in Hp. split.
  - split; [congruence | congruence | congruence |]. unfold now. rewrite Hstat. exact Qt.
  - split; [done|]. split; [done|]. by eexists.
Qed.

Lemma issue_serves c s w ss : quiet s -> head_ok (disk w) -> stores (fileno (disk w)) ss -> resting s w ->
  match serve (op c) (data c) ss with
  | Ret (d, ss') => exists s' D', issue c (s, w) = Ret (mkRequest AtP (op c) d, (s', set_disk D' w)) /\
      quiet s' /\ head_ok D' /\ stores (fileno D') ss' /\ busy s' (set_disk D' w)
  | Abort => issue c (s, w) = Abort
  | Undef => issue c (s, w) = Undef
  end.
Proof.
  intros Q Hh Hst Hr. pose proof (q_now s Q) as Ht. pose proof Hr as (Ha & _).
  unfold serve, issue. destruct (writing (op c)).
  - pose proof (WriteRequest_array ss (disk w) s Hst Hh Ht Ha (sectorNumber (op c)) (data c) (at_ (op c))) as Hw.
    destruct (WriteSector _ _ _ _) as [ss'| |]; cbn [bind]; [|by rewrite Hw..].
    destruct Hw as (D' & s' & -> & Hq & Hst'). cbn [bind]. exists s', D'. split; [done|].
    destruct (requested_busy _ _ _ _ w _ _ Hq Q Hr). by destruct Hq as [_ [? _] _ _ _].
  - pose proof (ReadRequest_array ss (disk w) s Hst Hh Ht Ha (sectorNumber (op c)) (data c) (at_ (op c))) as Hw.
    destruct (ReadSector _ _ _ _) as [d| |]; cbn [bind]; [|by rewrite Hw..].
    destruct Hw as (D' & s' & -> & Hq & Hst'). cbn [bind]. exists s', D'. split; [done|].
    destruct (requested_busy _ _ _ _ w _ _ Hq Q Hr). by destruct Hq as [_ [? _] _ _ _].
Qed.

(** ** The clock *)

(** Only the semaphore and the flag of the device change, when the interrupt
    fires. *)
Definition fired (s : IState handlers) (w : SynchDisk) (s' : IState handlers) (w' : SynchDisk) : Prop :=
  (w' = w /\ pending s' = pending s) \/
  (busy s w /\ w' = set_semaphore 1 (set_disk (set_active false (disk w)) w) /\ pending s' = []).

Definition held s w : Prop := resting s w \/ busy s w \/ announced s w.

Lemma held_pending s w : held s w -> pending s = [] \/ busy s w.
Proof. intros [(_ & ? & _)|[Hb|(_ & ? & _)]]; auto. Qed.

(** The interrupt's handler. *)
Lemma fire_disk t s w : semaphore w = 0 ->
  fire (mkPending DiskDone 0 t DiskInt) (s, w) =
  Ret (set_inHandler false (setStatus (status s) (setStatus SystemMode (set_inHandler true s))),
    set_semaphore 1 (set_disk (set_active false (disk w)) w)).
Proof. intros Hs. unfold fire. cbn. by rewrite Hs. Qed.

Lemma advance_quiet s : quiet s -> quiet (advance_time s) /\ pending (advance_time s) = pending s.
Proof.
  intros [Ql Qi Qs Qt]. unfold advance_time. rewrite decide_True by done. split; [|done].
  split; try done. unfold add_system, now, SystemTick in *. cbn. lia.
Qed.

(** The state with interrupts off, where pending interrupts are looked at. *)
Record looking (s : IState handlers) : Prop := {
  k_level : level s = IntOff;
  k_handler : inHandler s = false;
  k_now : 0 <= now s
}.

Definition same_status (s s' : IState handlers) : Prop := status s' = status s.

Lemma CheckIfDue_none adv s w : looking s -> pending s = [] -> CheckIfDue adv (s, w) = Ret (false, (s, w)).
Proof. intros [Hl _ _] Hp. unfold CheckIfDue. by rewrite Hl, Hp. Qed.

Lemma CheckIfDue_busy adv s w t : looking s -> semaphore w = 0 -> pending s = [(t, mkPending DiskDone 0 t DiskInt)] ->
  if adv || (t <=? now s) then
    exists s', CheckIfDue adv (s, w) = Ret (true, (s', set_semaphore 1 (set_disk (set_active false (disk w)) w))) /\
      looking s' /\ pending s' = [] /\ same_status s s'
  else CheckIfDue adv (s, w) = Ret (false, (s, w)).
Proof.
  intros [Hl Hi Hn] Hsem Hp. destruct s as [lv pend inh yld st sts]. cbn [level pending inHandler] in Hl, Hp, Hi. subst.
  unfold CheckIfDue. cbn [level pending Seq.SortedRemove]. rewrite bool_decide_true by done. cbn [ASSERT bind].
  set (s := mkIState _ _ _ _ _ _) in *.
  destruct adv, (Z.leb_spec t (now s)); cbn [orb andb negb]; try (rewrite andb_false_r; cbn [andb]).
  4: reflexivity.
  all: rewrite fire_disk by done; cbn [bind]; eexists; (split; [reflexivity|]); (split; [|done]); split; try done;
    unfold now in *; cbn in *; lia.
Qed.

Lemma fired_not s w : looking s -> looking s /\ same_status s s /\ fired s w s w.
Proof. intros K. split; [exact K|]. split; [reflexivity|]. left. by split. Qed.

Lemma drain_disk s w : looking s -> held s w ->
  exists s' w', drain_all (s, w) = Ret (s', w') /\ looking s' /\ same_status s s' /\ fired s w s' w'.
Proof.
  intros K Hw. unfold drain_all. cbn [fst drain]. destruct (held_pending s w Hw) as [Hp|(Ha & Hsem & t & Hp)].
  - rewrite CheckIfDue_none by done. cbn [bind]. exists s, w. split; [reflexivity | by apply fired_not].
  - pose proof (CheckIfDue_busy false s w t K Hsem Hp) as Hc. cbn [orb] in Hc.
    unfold due. rewrite Hp. destruct (Z.leb_spec t (now s)) as [Ht|].
    + destruct Hc as (s' & -> & K' & Hp' & Hs). rewrite filter_cons_True by (cbn; lia). cbn [bind length drain].
      rewrite CheckIfDue_none by done. cbn [bind]. eexists s', _. split; [reflexivity|]. split; [done|]. split; [done|].
      right. split; [|done]. split; [done|]. split; [done|]. by exists t.
    + rewrite Hc. cbn [bind]. exists s, w. split; [reflexivity | by apply fired_not].
Qed.

Lemma looking_off s : quiet s -> looking (ChangeLevel IntOn IntOff s).
Proof. intros [? ? ? ?]. by split. Qed.

Lemma quiet_on s st : looking s -> quiet (ChangeLevel IntOff IntOn (setStatus SystemMode (set_yield st s))).
Proof. intros [? ? ?]. by split. Qed.

Lemma OneTick_disk s w : quiet s -> held s w ->
  exists s' w', OneTick (s, w) = Ret (s', w') /\ quiet s' /\ fired s w s' w'.
Proof.
  intros Q Hw. destruct (advance_quiet s Q) as [Qa Hpa]. unfold OneTick, tick. cbn [fst].
  set (s1 := ChangeLevel IntOn IntOff (advance_time s)).
  assert (held s1 w) as Hw1 by (unfold held, resting, busy, announced in *; unfold s1; cbn [pending ChangeLevel set_level]; by rewrite Hpa).
  destruct (drain_disk s1 w (looking_off _ Qa) Hw1) as (s2 & w2 & -> & [Kl Ki Kn] & Hs & F). cbn [bind].
  assert (fired s w s2 w2) as F'.
  { unfold fired, busy in *. unfold s1 in F. cbn [pending ChangeLevel set_level] in F. by rewrite Hpa in F. }
  assert (status s2 = SystemMode) as Hst by (rewrite Hs; apply Qa).
  destruct (yieldOnReturn _); cbn [bind yield disk_devices]; eexists _, w2; (split; [reflexivity|]); (split; [|exact F']);
    split; try done. apply Q.
Qed.

Lemma Idle_disk s w : quiet s -> busy s w ->
  exists s', exec AllSleep (s, w) = Ret (s', set_semaphore 1 (set_disk (set_active false (disk w)) w)) /\
    quiet s' /\ pending s' = [].
Proof.
  intros Q (Ha & Hsem & t & Hp). unfold exec, Idle.
  set (s1 := setStatus IdleMode (ChangeLevel _ _ s)). assert (looking s1) as K1 by (by destruct Q).
  destruct (CheckIfDue_busy true s1 w t K1 Hsem Hp) as (s2 & -> & K2 & Hp2 & _). cbn [bind].
  unfold drain_all. cbn [fst drain]. rewrite CheckIfDue_none by done. cbn [bind].
  eexists. split; [reflexivity|]. split; [by apply quiet_on | done].
Qed.

(** ** The simulation *)

Lemma not_both s w : resting s w -> busy s w -> False.
Proof. intros [Ha _] [Hb _]. congruence. Qed.

Lemma phase_held s w : phase s w -> held s w.
Proof.
  unfold phase. destruct (lock w) as [t|]; [|by left]. intros (c & _ & Hc). destruct (where_ c); [done | done | by left | | by left].
  destruct Hc; [by right; left | by right; right].
Qed.

(** The phase of a world in which only the holder's call has changed. *)
Lemma phase_holder s w t c : lock w = Some t -> calls w !! t = Some c ->
  match where_ c with AtAcquire | Waiting => False | AtP => busy s w \/ announced s w | _ => resting s w end -> phase s w.
Proof. intros Hl Hc Hp. unfold phase. rewrite Hl. by exists c. Qed.

Lemma phase_at s w t c : phase s w -> lock w = Some t -> calls w !! t = Some c ->
  match where_ c with AtAcquire | Waiting => False | AtP => busy s w \/ announced s w | _ => resting s w end.
Proof. unfold phase. intros Hp Hl Hc. rewrite Hl in Hp. destruct Hp as (c' & Hc' & Hp). by simplify_eq. Qed.

(** The holder is a call in progress, and not a waiting one. *)
Lemma phase_lock s w t : phase s w -> lock w = Some t -> exists c, calls w !! t = Some c /\ past (where_ c) = true.
Proof. unfold phase. intros Hp Hl. rewrite Hl in Hp. destruct Hp as (c & Hc & Hp). exists c. by destruct (where_ c). Qed.

Lemma lock_insert t c w l :
  (forall t' c', calls w !! t' = Some c' -> past (where_ c') = true -> t' <> t -> l = Some t') ->
  (past (where_ c) = true -> l = Some t) ->
  forall t' c', <[t := c]> (calls w) !! t' = Some c' -> past (where_ c') = true -> l = Some t'.
Proof.
  intros Hold Hnew t' c' [[<- <-]|[Hne Hc]]%lookup_insert_Some Hw; [by apply Hnew | by apply (Hold t' c')].
Qed.

Lemma queue_insert l q m t c : queue_ok l q m -> (forall c0, m !! t = Some c0 -> where_ c0 <> Waiting) -> where_ c <> Waiting ->
  queue_ok l q (<[t := c]> m).
Proof.
  intros [Hn Hi Hf] Hold Hc. split; [done | | done]. intros t'. rewrite Hi. destruct (decide (t' = t)) as [->|Hne].
  - rewrite lookup_insert_eq. split; [intros (c0 & H0 & Hw); by destruct (Hold c0) | intros (? & [= <-] & ?); done].
  - by rewrite lookup_insert_ne.
Qed.

Lemma queue_join l h q m t c c0 : queue_ok l q m -> m !! t = Some c0 -> where_ c0 <> Waiting -> where_ c = Waiting ->
  queue_ok (Some h) (q ++ [t]) (<[t := c]> m).
Proof.
  intros [Hn Hi _] Ht H0 Hc. split; [| |done].
  - apply NoDup_app. split; [done|]. split; [|apply NoDup_singleton]. intros x (c1 & ? & ?)%Hi ->%list_elem_of_singleton. congruence.
  - intros t'. rewrite elem_of_app, list_elem_of_singleton, Hi. destruct (decide (t' = t)) as [->|Hne].
    + rewrite lookup_insert_eq. naive_solver.
    + rewrite lookup_insert_ne by done. naive_solver.
Qed.

Lemma queue_delete l q m t c : queue_ok l q m -> m !! t = Some c -> where_ c <> Waiting -> queue_ok l q (delete t m).
Proof.
  intros [Hn Hi Hf] Ht Hc. split; [done | | done]. intros t'. rewrite Hi. destruct (decide (t' = t)) as [->|Hne].
  - rewrite lookup_delete_eq. naive_solver congruence.
  - by rewrite lookup_delete_ne.
Qed.

Lemma queue_hand_over l t q m : queue_ok l (t :: q) m -> queue_ok (Some t) q (alter (at_place AtRequest) t m).
Proof.
  intros [[Ht Hn]%NoDup_cons Hi _]. split; [done | | done]. intros t'. destruct (decide (t' = t)) as [->|Hne].
  - rewrite lookup_alter_eq. split; [done|]. intros (c & Hc%fmap_Some & Hw). destruct Hc as (? & _ & ->). done.
  - rewrite lookup_alter_ne by done. rewrite <- Hi. set_solver.
Qed.

Lemma seen_same t c c' (m : gmap positive request) : m !! t = Some c -> seen c' = seen c ->
  seen <$> <[t := c']> m = seen <$> m.
Proof. intros Hc Hs. rewrite fmap_insert, Hs. apply insert_id. by rewrite lookup_fmap, Hc. Qed.

Section Simulation.
Context (s : IState handlers) (w : SynchDisk) (A : Array) (I : implements (s, w) A).

(** A call at [c] that has not the lock has not the lock after [c'] either. *)
Lemma phase_other t c' : (forall c, calls w !! t = Some c -> past (where_ c) = false) -> phase s w ->
  forall q, phase s (set_call t c' (set_lock (lock w) q w)).
Proof using.
  intros Hn Hp q. unfold phase in *. cbn [lock set_lock set_call set_calls calls]. destruct (lock w) as [h|]; [|exact Hp].
  destruct Hp as (c & Hc & Hp). exists c. destruct (decide (h = t)) as [->|Hne].
  - specialize (Hn c Hc). by destruct (where_ c).
  - by rewrite lookup_insert_ne.
Qed.

Lemma sim_Enter t o buf : calls w !! t = None ->
  implements (s, set_call t (mkRequest AtAcquire o buf) w) (mkArray (content A) (<[t := (false, o, buf)]> (ongoing A))).
Proof using I.
  intros Hn. destruct I as [Q Hh Hst Hc Hl Hq Hp]. cbn [fst snd] in *. split; try done; cbn [snd fst calls lock waiting set_calls set_call ongoing].
  - by rewrite Hc, fmap_insert.
  - apply lock_insert; [|done]. intros t' c' ? ? _. by apply (Hl t' c').
  - apply queue_insert; [done | by rewrite Hn | done].
  - apply (phase_other t (mkRequest AtAcquire o buf)) with (q := waiting w) in Hp; [exact Hp | by rewrite Hn].
Qed.

Lemma sim_Acquire t c : calls w !! t = Some c -> where_ c = AtAcquire -> implements (s, acquire t c w) A.
Proof using I.
  intros Ht Hw. destruct I as [Q Hh Hst Hc Hl Hq Hp]. cbn [fst snd] in *. unfold acquire. destruct (lock w) as [h|] eqn:El.
  - split; try done; cbn [snd fst calls set_call set_calls set_lock lock waiting].
    + rewrite (seen_same t c); [done | done |]. unfold seen. by rewrite Hw.
    + apply (lock_insert t _ w); [|done]. intros t' c' ? ? _. by apply (Hl t' c').
    + apply (queue_join (Some h) h _ _ t _ c); [done | done | by rewrite Hw | done].
    + rewrite <- El. apply phase_other; [|done]. intros c' Hc'. rewrite Ht in Hc'. injection Hc' as <-. by rewrite Hw.
  - split; try done; cbn [snd fst calls set_call set_calls set_lock lock waiting].
    + rewrite (seen_same t c); [done | done |]. unfold seen. by rewrite Hw.
    + apply (lock_insert t _ w); [|done]. intros t' c' ? Hw' _. by specialize (Hl t' c' ltac:(done) Hw').
    + destruct (qo_free _ _ _ Hq eq_refl). apply (queue_insert None) with (t := t) (c := at_place AtRequest c) in Hq as [? ? ?];
        [by split | intros c0 H0; rewrite Ht in H0; injection H0 as <-; by rewrite Hw | done].
    + eapply phase_holder; [done | apply lookup_insert_eq |]. cbn. unfold phase in Hp. by rewrite El in Hp.
Qed.

Lemma sim_P t c : calls w !! t = Some c -> where_ c = AtP -> 0 < semaphore w ->
  implements (s, set_call t (at_place AtRelease c) (set_semaphore (semaphore w - 1) w)) A.
Proof using I.
  intros Ht Hw Hs. destruct I as [Q Hh Hst Hc Hl Hq Hp]. cbn [fst snd] in *.
  assert (lock w = Some t) as Hlt by (apply (Hl t c); [done | by rewrite Hw]).
  pose proof (phase_at s w t c Hp Hlt Ht) as Hph. rewrite Hw in Hph.
  split; try done; cbn [snd fst calls set_call set_calls set_semaphore lock waiting].
  - rewrite (seen_same t c); [done | done |]. unfold seen. by rewrite Hw.
  - apply (lock_insert t _ w); [|done]. intros t' c' ? ? _. by apply (Hl t' c').
  - apply queue_insert; [done | | done]. intros c0 H0. rewrite Ht in H0. injection H0 as <-. by rewrite Hw.
  - eapply phase_holder; [exact Hlt | apply lookup_insert_eq |]. cbn.
    destruct Hph as [(_ & Hz & _)|(Ha & Hpe & Ho)]; [lia|]. split; [done|]. split; [done|]. cbn. lia.
Qed.

Lemma sim_Release t c : calls w !! t = Some c -> where_ c = AtRelease ->
  implements (s, release (end_call t w)) (mkArray (content A) (delete t (ongoing A))).
Proof using I.
  intros Ht Hw. destruct I as [Q Hh Hst Hc Hl Hq Hp]. cbn [fst snd] in *.
  assert (lock w = Some t) as Hlt by (apply (Hl t c); [done | by rewrite Hw]).
  pose proof (phase_at s w t c Hp Hlt Ht) as Hph. rewrite Hw in Hph.
  assert (queue_ok (lock w) (waiting w) (delete t (calls w))) as Hq' by (apply (queue_delete _ _ _ _ c); [done | done | by rewrite Hw]).
  assert (forall t' c', delete t (calls w) !! t' = Some c' -> past (where_ c') = false) as Hno.
  { intros t' c' [Hne Hc']%lookup_delete_Some. destruct (past (where_ c')) eqn:E; [|done]. pose proof (Hl t' c' Hc' E). congruence. }
  unfold release. cbn [waiting end_call set_calls]. destruct (waiting w) as [|t1 q] eqn:Eq.
  - split; try done; cbn [snd fst calls end_call set_calls set_lock lock waiting ongoing].
    + by rewrite Hc, fmap_delete.
    + intros t' c' Hc' Hw'. by rewrite (Hno t' c' Hc') in Hw'.
    + destruct Hq' as [? ? ?]. by split.
  - pose proof Hq' as [_ Hin _]. destruct (proj1 (Hin t1) ltac:(left)) as (c1 & Hc1 & Hw1).
    split; try done; cbn [snd fst calls end_call set_calls set_lock lock waiting ongoing].
    + rewrite Hc, <- fmap_delete. apply map_eq. intros t'. rewrite !lookup_fmap. destruct (decide (t' = t1)) as [->|Hne].
      * rewrite lookup_alter_eq, Hc1. cbn. unfold seen. by rewrite Hw1.
      * by rewrite lookup_alter_ne.
    + intros t' c' Hc' Hw'. destruct (decide (t' = t1)) as [->|Hne]; [done|]. rewrite lookup_alter_ne in Hc' by done.
      by rewrite (Hno t' c' Hc') in Hw'.
    + by apply (queue_hand_over (lock w)).
    + apply (phase_holder s _ t1 (at_place AtRequest c1)); [done | | done]. cbn. by rewrite lookup_alter_eq, Hc1.
Qed.

(** A request takes effect on the array. *)
Lemma sim_Request t c : calls w !! t = Some c -> where_ c = AtRequest ->
  match serve (op c) (data c) (content A) with
  | Ret (d, ss) => exists sw', statement t c (s, w) = Ret sw' /\
      implements sw' (mkArray ss (<[t := (true, op c, d)]> (ongoing A)))
  | Abort => statement t c (s, w) = Abort
  | Undef => statement t c (s, w) = Undef
  end.
Proof using I.
  intros Ht Hw. destruct I as [Q Hh Hst Hc Hl Hq Hp]. cbn [fst snd] in *.
  assert (lock w = Some t) as Hlt by (apply (Hl t c); [done | by rewrite Hw]).
  pose proof (phase_at s w t c Hp Hlt Ht) as Hph. rewrite Hw in Hph.
  pose proof (issue_serves c s w (content A) Q Hh Hst Hph) as Hi. unfold statement. rewrite Hw.
  destruct (serve _ _ _) as [[d ss]| |]; [|by rewrite Hi..].
  destruct Hi as (s' & D' & -> & Q' & Hh' & Hst' & Hb). cbn [bind]. eexists. split; [reflexivity|].
  split; try done; cbn [snd fst calls set_call set_calls set_disk lock waiting ongoing].
  - by rewrite Hc, fmap_insert.
  - apply (lock_insert t _ w); [|done]. intros t' c' ? ? _. by apply (Hl t' c').
  - apply queue_insert; [done | | done]. intros c0 H0. rewrite Ht in H0. injection H0 as <-. by rewrite Hw.
  - eapply phase_holder; [exact Hlt | apply lookup_insert_eq |]. cbn. by left.
Qed.

Lemma sim_clock s' w' : quiet s' -> fired s w s' w' -> implements (s', w') A.
Proof using I.
  intros Q' F. destruct I as [Q Hh Hst Hc Hl Hq Hp]. cbn [fst snd] in *. destruct F as [[-> Hpe]|(Hb & -> & Hpe)].
  - split; try done. unfold phase, resting, busy, announced in *. cbn [fst snd]. by rewrite Hpe.
  - split; try done; cbn [fst snd]; [by destruct Hh|]. unfold phase in *. cbn [lock set_semaphore set_disk calls].
    destruct (lock w) as [t|]; [|by destruct (not_both s w)].
    destruct Hp as (c & Ht & Hp). exists c. split; [done|].
    destruct (where_ c); [done | done | by destruct (not_both s w) | | by destruct (not_both s w)]. right. by split.
Qed.

Lemma sleeping_busy : enabled AllSleep (s, w) = true -> busy s w.
Proof using I.
  intros He. destruct I as [Q Hh Hst Hc Hl Hq Hp]. cbn [fst snd enabled] in *.
  apply andb_true_iff in He as [Hall%bool_decide_eq_true Hne%negb_true_iff%bool_decide_eq_false].
  unfold phase in Hp. destruct (lock w) as [t|] eqn:El.
  - destruct Hp as (c & Ht & Hp). pose proof (map_Forall_lookup_1 _ _ _ _ Hall Ht) as Hr. unfold can_run in Hr.
    destruct (where_ c); try done. destruct Hp as [Hb|(_ & _ & Ho)]; [done|]. by rewrite Ho in Hr.
  - destruct (map_choose _ Hne) as (t & c & Ht). pose proof (map_Forall_lookup_1 _ _ _ _ Hall Ht) as Hr.
    unfold can_run in Hr. specialize (Hl t c Ht). destruct (where_ c) eqn:Ew; [done | | by specialize (Hl eq_refl)..].
    assert (t ∈ waiting w) as Hin by (apply (qo_in _ _ _ Hq); by exists c). rewrite (qo_free _ _ _ Hq eq_refl) in Hin. by apply elem_of_nil in Hin.
Qed.

Lemma exec_simulates e : enabled e (s, w) = true ->
  match acts (action_of e w) A with
  | Ret A' => exists sw', exec e (s, w) = Ret sw' /\ implements sw' A'
  | Abort => exec e (s, w) = Abort
  | Undef => exec e (s, w) = Undef
  end.
Proof using I.
  destruct e as [t o buf|t| |]; intros He; cbn [action_of].
  - apply bool_decide_eq_true in He. cbn. eexists. split; [reflexivity|]. by apply sim_Enter.
  - cbn [enabled exec] in *. destruct (calls w !! t) as [c|] eqn:Ht; [|done].
    assert (ongoing A !! t = Some (seen c)) as Hs by (rewrite (im_calls _ _ I), lookup_fmap; cbn; by rewrite Ht).
    unfold can_run in He. pose proof (sim_Request t c Ht) as HR. destruct c as [[] o d]; cbn [where_] in *.
    + cbn. eexists. split; [reflexivity|]. by apply (sim_Acquire t (mkRequest AtAcquire o d)).
    + done.
    + cbn [acts act]. rewrite Hs. cbn [seen is_served where_ op data] in *. specialize (HR eq_refl).
      destruct (serve o d (content A)) as [[d' ss]| |]; exact HR.
    + apply Z.ltb_lt in He. cbn. eexists. split; [reflexivity|]. by apply (sim_P t (mkRequest AtP o d)).
    + cbn [acts act]. rewrite Hs. cbn [seen is_served where_ op data bind]. eexists. split; [reflexivity|].
      by apply (sim_Release t (mkRequest AtRelease o d)).
  - cbn [acts]. destruct (OneTick_disk s w (im_quiet _ _ I) (phase_held _ _ (im_phase _ _ I))) as (s' & w' & Hr & Q' & F).
    exists (s', w'). split; [exact Hr | by apply sim_clock].
  - pose proof (sleeping_busy He) as Hb. destruct (Idle_disk s w (im_quiet _ _ I) Hb) as (s' & Hr & Q' & Hpe).
    cbn [acts]. eexists. split; [exact Hr|]. apply sim_clock; [done|]. right. split; [exact Hb | by split].
Qed.
End Simulation.

Lemma acts_app l1 l2 A : acts (l1 ++ l2) A = (let! A := acts l1 A in acts l2 A).
Proof. revert A. induction l1 as [|a l1 IH]; intros A; [done|]. cbn [acts app]. destruct (act a A); cbn [bind]; [apply IH | done..]. Qed.

Lemma run_simulates es sw A : implements sw A -> happens es sw = true ->
  match acts (trace es sw) A with
  | Ret A' => exists sw', run es sw = Ret sw' /\ implements sw' A'
  | Abort => run es sw = Abort
  | Undef => run es sw = Undef
  end.
Proof.
  revert sw A. induction es as [|e es IH]; intros [s w] A I Hh; cbn [trace acts run]; [by exists (s, w)|].
  cbn [happens] in Hh. apply andb_true_iff in Hh as [He Hh].
  pose proof (exec_simulates s w A I e He) as Hs. rewrite acts_app. cbn [snd].
  destruct (acts (action_of e w) A) as [A1| |]; cbn [bind]; [|by rewrite Hs..].
  destruct Hs as (sw1 & Hr & I1). rewrite Hr in Hh |- *. cbn [bind]. by apply IH.
Qed.

(** The disk before the first call. *)
Record idle_disk (s : IState handlers) (D : Disk) (ss : Sectors) : Prop := {
  id_quiet : quiet s;
  id_pending : pending s = [];
  id_head : head_ok D;
  id_active : active D = false;
  id_stores : stores (fileno D) ss
}.

Lemma idle_implements s D ss : idle_disk s D ss -> implements (s, new_SynchDisk D) (mkArray ss ∅).
Proof.
  intros [Q Hp Hh Ha Hst]. split; try done. split; [constructor | | done]. intros t. rewrite elem_of_nil. split; [done|].
  by intros (c & Hc & _).
Qed.

(** ** Liveness *)

Definition fits (o : operation) (d : list Z) : Prop :=
  0 <= sectorNumber o < NumSectors /\ 0 <= at_ o /\ at_ o + SectorSize <= Z.of_nat (length d).

Lemma serve_fits o d ss : wf_sectors ss -> fits o d -> exists d' ss', serve o d ss = Ret (d', ss') /\ length d' = length d.
Proof.
  intros Hw (Hn & Hk & Hlen). unfold serve, ReadSector, WriteSector, SectorSize in *.
  destruct (in_range_dec (sectorNumber o)) as [[_ ->]|[]]; [|done]. cbn [ASSERT bind].
  destruct (sector_exists ss _ Hw Hn) as (sec & Hs & Hl). destruct (writing o).
  - unfold copy_from. rewrite !(proj2 (Z.leb_le _ _)) by lia. cbn [andb bind].
    rewrite aset_in by (destruct Hw; lia). cbn [bind]. by eexists _, _.
  - rewrite (proj2 (aref_Ret ss _ sec)) by (split; [lia | done]). cbn [bind]. unfold copy_into.
    rewrite !(proj2 (Z.leb_le _ _)) by lia. cbn [andb bind]. eexists _, _. split; [reflexivity|].
    rewrite !length_app, length_take, length_drop. lia.
Qed.

Definition all_fit (w : SynchDisk) : Prop := map_Forall (fun _ c => fits (op c) (data c)) (calls w).

Definition event_fits (e : event) : Prop := match e with Enter _ o buf => fits o buf | _ => True end.

(** The statements a call has to run, and the sleep of the processor while the device
    works for it. *)
Definition cost (c : request) : Z :=
  match where_ c with AtAcquire => 5 | Waiting | AtRequest => 4 | AtP => 3 | AtRelease => 1 end.

(** The calls in the order in which they get the lock. *)
Definition line (w : SynchDisk) : list positive := option_list (lock w) ++ waiting w.

(** Events in which the processor works for a call that has come to the lock: all its
    statements but Acquire, and the sleeps. *)
Definition works (e : event) (w : SynchDisk) : Z :=
  match e with
  | Step t => match calls w !! t with Some (mkRequest AtAcquire _ _) => 0 | _ => 1 end
  | AllSleep => 1
  | _ => 0
  end.

Fixpoint work (es : list event) (sw : World) : Z :=
  match es with
  | [] => 0
  | e :: es => works e sw.2 + match exec e sw with Ret sw => work es sw | _ => 0 end
  end.

(** Statements and sleeps, and calls that begin. *)
Definition is_work (e : event) : Prop := match e with Step _ | AllSleep => True | _ => False end.
Definition is_enter (e : event) : Prop := match e with Enter _ _ _ => True | _ => False end.
#[export] Instance is_work_dec e : Decision (is_work e).
Proof. destruct e; cbn; apply _. Defined.
#[export] Instance is_enter_dec e : Decision (is_enter e).
Proof. destruct e; cbn; apply _. Defined.

(** What an event changes in the calls, in the line and in the semaphore. *)
Inductive changed (w : SynchDisk) : event -> SynchDisk -> Prop :=
| Ch_enter t o buf : calls w !! t = None -> fits o buf ->
    changed w (Enter t o buf) (set_call t (mkRequest AtAcquire o buf) w)
| Ch_acquire t c : calls w !! t = Some c -> where_ c = AtAcquire -> changed w (Step t) (acquire t c w)
| Ch_holder t c c' w' : lock w = Some t -> calls w !! t = Some c -> where_ c <> AtAcquire ->
    calls w' = <[t := c']> (calls w) -> line w' = line w -> op c' = op c -> length (data c') = length (data c) ->
    cost c' - semaphore w' + 1 = cost c - semaphore w -> changed w (Step t) w'
| Ch_release t c : lock w = Some t -> calls w !! t = Some c -> where_ c = AtRelease ->
    changed w (Step t) (release (end_call t w))
| Ch_tick w' : calls w' = calls w -> line w' = line w -> semaphore w <= semaphore w' -> changed w Tick w'
| Ch_sleep w' : calls w' = calls w -> line w' = line w -> semaphore w' = semaphore w + 1 -> changed w AllSleep w'.

Lemma all_fit_insert t c c' (m : gmap positive request) : map_Forall (fun _ c => fits (op c) (data c)) m -> m !! t = Some c ->
  op c' = op c -> length (data c') = length (data c) -> map_Forall (fun _ c => fits (op c) (data c)) (<[t := c']> m).
Proof.
  intros Hf Ht Ho Hl. apply map_Forall_insert_2; [|done].
  pose proof (map_Forall_lookup_1 _ _ _ _ Hf Ht). unfold fits in *. by rewrite Ho, Hl.
Qed.

Lemma changed_fit w e w' : changed w e w' -> all_fit w -> all_fit w'.
Proof.
  intros Hc Hf. unfold all_fit in *. destruct Hc as [t o buf ? Hb|t c Ht ?|t c c' w' ? Ht ? -> ? ? ?|t c ? Ht ?|w' -> ? ?|w' -> ? ?]; try done.
  - by apply map_Forall_insert_2.
  - unfold acquire. destruct (lock w); by apply (all_fit_insert t c).
  - by apply (all_fit_insert t c).
  - apply (map_Forall_delete _ _ t) in Hf. unfold release. cbn [waiting end_call set_calls]. destruct (waiting w) as [|t1 q]; [done|].
    cbn [calls set_calls end_call]. intros t' c' Hc'. destruct (decide (t' = t1)) as [->|Hne].
    + rewrite lookup_alter_eq in Hc'. apply fmap_Some in Hc' as (c1 & H1 & ->). exact (Hf _ _ H1).
    + rewrite lookup_alter_ne in Hc' by done. exact (Hf _ _ Hc').
Qed.

(** *** Every event that can happen succeeds *)

Lemma request_changes s w A t c : implements (s, w) A -> all_fit w -> calls w !! t = Some c -> where_ c = AtRequest ->
  exists s' w' A', statement t c (s, w) = Ret (s', w') /\ implements (s', w') A' /\ changed w (Step t) w'.
Proof.
  intros I Hf Ht Ew. pose proof (map_Forall_lookup_1 _ _ _ _ Hf Ht) as Hfc.
  pose proof (sim_Request s w A I t c Ht Ew) as HR.
  destruct (serve_fits _ _ (content A) (proj1 (im_stores _ _ I)) Hfc) as (d & ss & Hsv & Hl).
  pose proof (issue_serves c s w (content A) (im_quiet _ _ I) (im_head _ _ I) (im_stores _ _ I)) as Hi.
  rewrite Hsv in Hi, HR. destruct HR as ([s' w'] & Hst & I'). exists s', w'. eexists. split; [exact Hst|]. split; [exact I'|].
  assert (lock w = Some t) as Hlt by (apply (im_lock _ _ I t c); [done | by rewrite Ew]).
  pose proof (phase_at s w t c (im_phase _ _ I) Hlt Ht) as Hph. rewrite Ew in Hph.
  destruct (Hi Hph) as (s1 & D1 & Hi1 & _). unfold statement in Hst. rewrite Ew, Hi1 in Hst. cbn [bind] in Hst.
  injection Hst as <- <-. apply (Ch_holder w t c (mkRequest AtP (op c) d)); try done; [by rewrite Ew|].
  unfold cost. rewrite Ew. cbn. lia.
Qed.

Lemma statement_changes s w A t c : implements (s, w) A -> all_fit w -> calls w !! t = Some c -> can_run c w = true ->
  exists s' w' A', statement t c (s, w) = Ret (s', w') /\ implements (s', w') A' /\ changed w (Step t) w'.
Proof.
  intros I Hf Ht Hr. assert (past (where_ c) = true -> lock w = Some t) as Hl by by apply (im_lock _ _ I t c).
  destruct (where_ c) eqn:Ew.
  3: by eapply request_changes.
  all: unfold statement, can_run in *; rewrite Ew in *; try done; eexists _, _, _; (split; [reflexivity|]).
  - split; [by apply (sim_Acquire s w A I t c) | by apply Ch_acquire].
  - split; [apply (sim_P s w A I t c); [done | done | by apply Z.ltb_lt]|].
    apply (Ch_holder w t c (at_place AtRelease c)); try done; [by apply Hl | by rewrite Ew |]. unfold cost. rewrite Ew. cbn. lia.
  - split; [by apply (sim_Release s w A I t c) | by apply (Ch_release w t c); [apply Hl|..]].
Qed.

Lemma exec_changes s w A e : implements (s, w) A -> all_fit w -> event_fits e -> enabled e (s, w) = true ->
  exists s' w' A', exec e (s, w) = Ret (s', w') /\ implements (s', w') A' /\ changed w e w'.
Proof.
  intros I Hf He Hen. destruct e as [t o buf|t| |]; cbn [enabled exec event_fits] in *.
  - apply bool_decide_eq_true in Hen. eexists _, _, _. split; [reflexivity|]. split; [by apply sim_Enter | by apply Ch_enter].
  - destruct (calls w !! t) as [c|] eqn:Ht; [|done]. by eapply statement_changes.
  - destruct (OneTick_disk s w (im_quiet _ _ I) (phase_held _ _ (im_phase _ _ I))) as (s' & w' & Hr & Q' & F).
    exists s', w', A. split; [exact Hr|]. split; [by apply (sim_clock s w A I)|].
    destruct F as [[-> _]|((_ & Hs & _) & -> & _)]; [by apply Ch_tick|]. apply Ch_tick; [done | done |]. cbn. lia.
  - pose proof (sleeping_busy s w A I Hen) as Hb. destruct (Idle_disk s w (im_quiet _ _ I) Hb) as (s' & Hr & Q' & Hpe).
    eexists _, _, A. split; [exact Hr|]. split; [apply (sim_clock s w A I); [done|]; right; split; [exact Hb | by split]|].
    destruct Hb as (_ & Hs & _). apply Ch_sleep; [done | done |]. cbn. lia.
Qed.

(** *** The line *)

Definition cost_at (w : SynchDisk) (t : positive) : Z := from_option cost 0 (calls w !! t).

(** What is left to do for the calls [l] of the line. *)
Definition rank (l : list positive) (w : SynchDisk) : Z := foldr (fun t n => cost_at w t + n) 0 l - semaphore w.

Lemma rank_cons t l w : rank (t :: l) w = cost_at w t + rank l w.
Proof. unfold rank. cbn [foldr]. lia. Qed.

Lemma rank_same l w w' : (forall t, t ∈ l -> cost_at w' t = cost_at w t) -> rank l w' = rank l w + semaphore w - semaphore w'.
Proof.
  intros H. induction l as [|t l IH]; [unfold rank; cbn; lia|]. rewrite !rank_cons, IH by (intros; apply H; by right).
  rewrite (H t) by left. lia.
Qed.

(** Who is in line. *)
Lemma line_past s w A t : implements (s, w) A -> t ∈ line w -> exists c, calls w !! t = Some c /\ where_ c <> AtAcquire.
Proof.
  intros I [Ht|Ht]%elem_of_app.
  - destruct (lock w) as [h|] eqn:El; [|by apply elem_of_nil in Ht]. apply list_elem_of_singleton in Ht as ->.
    destruct (phase_lock s w h (im_phase _ _ I) El) as (c & Hc & Hp). exists c. split; [done|]. by destruct (where_ c).
  - destruct (proj1 (qo_in _ _ _ (im_queue _ _ I) t) Ht) as (c & Hc & Hw). exists c. cbn in Hw. by rewrite Hw.
Qed.

Lemma line_locked s w A t : implements (s, w) A -> lock w = Some t -> line w = t :: waiting w /\ t ∉ waiting w.
Proof.
  intros I El. split; [unfold line; by rewrite El|]. intros Ht.
  destruct (proj1 (qo_in _ _ _ (im_queue _ _ I) t) Ht) as (c & Hc & Hw).
  destruct (phase_lock s w t (im_phase _ _ I) El) as (c' & Hc' & Hp). cbn in Hc. rewrite Hc in Hc'. injection Hc' as <-. by rewrite Hw in Hp.
Qed.

Lemma cost_insert w t t' c : t' <> t -> cost_at (set_call t c w) t' = cost_at w t'.
Proof. intros. unfold cost_at. cbn. by rewrite lookup_insert_ne. Qed.

(** One event: the part [l] of the line stays, with less to do, or its head has
    returned. *)
Definition advanced (l : list positive) (e : event) (w w' : SynchDisk) : Prop :=
  exists l' r, line w' = l' ++ r /\ rank l' w' + works e w <= rank l w /\
    (l' = l \/ exists t, l = t :: l' /\ Return t ∈ action_of e w).

Lemma advanced_outside l r t c w w' e : line w = l ++ r -> t ∉ l -> calls w' = <[t := c]> (calls w) -> semaphore w' = semaphore w ->
  (exists x, line w' = line w ++ x) -> works e w = 0 -> advanced l e w w'.
Proof.
  intros Hl Hn Hc Hs [x Hx] He. exists l, (r ++ x). split; [by rewrite Hx, Hl, app_assoc|]. split; [|by left].
  rewrite (rank_same l w w'); [lia|]. intros t' Ht'. unfold cost_at. rewrite Hc, lookup_insert_ne; [done | congruence].
Qed.

Lemma release_advances s w A t c l r : implements (s, w) A -> lock w = Some t -> calls w !! t = Some c -> where_ c = AtRelease ->
  line w = l ++ r -> l <> [] -> advanced l (Step t) w (release (end_call t w)).
Proof.
  intros I El Ht Hw Hl Hne. destruct (line_locked _ _ _ _ I El) as [Hln Hn]. rewrite Hln in Hl.
  destruct l as [|t0 l]; [done|]. injection Hl as <- Hl. exists l, r. split; [|split].
  - rewrite <- Hl. unfold release, line. cbn [waiting end_call set_calls]. by destruct (waiting w).
  - rewrite rank_cons, (rank_same l w).
    + cbn [works]. unfold cost_at. rewrite Ht. destruct c as [[] ? ?]; try done. cbn. unfold release. cbn. destruct (waiting w); cbn; lia.
    + intros t' Ht'. assert (t' ∈ waiting w) as Hin by (rewrite Hl; apply elem_of_app; by left).
      assert (t' <> t) as Hne' by congruence. destruct (proj1 (qo_in _ _ _ (im_queue _ _ I) t') Hin) as (c' & Hc' & Hw').
      unfold release, cost_at. cbn [waiting end_call set_calls snd] in *. destruct (waiting w) as [|t1 q]; [by apply elem_of_nil in Hin|].
      cbn [calls set_calls set_lock end_call]. destruct (decide (t' = t1)) as [->|?].
      * rewrite lookup_alter_eq, lookup_delete_ne, Hc' by done. cbn. unfold cost. by rewrite Hw'.
      * by rewrite lookup_alter_ne, lookup_delete_ne by done.
  - right. exists t. split; [done|]. cbn [action_of]. rewrite Ht. destruct c as [[] ? ?]; try done. by left.
Qed.

Lemma changed_advances s w A e w' l r : implements (s, w) A -> changed w e w' -> line w = l ++ r -> l <> [] -> advanced l e w w'.
Proof.
  intros I Hc Hl Hne. assert (forall t c, calls w !! t = Some c -> where_ c = AtAcquire -> t ∉ l) as Hout.
  { intros t c Ht Hw Hin. destruct (line_past _ _ _ t I) as (c' & Hc' & Hw'); [rewrite Hl; apply elem_of_app; by left | congruence]. }
  destruct Hc as [t o buf Hn _|t c Ht Hw|t c c' w' El Ht Hw Hcs Hln _ _ Hcost|t c El Ht Hw|w' Hcs Hln Hs|w' Hcs Hln Hs].
  - apply (advanced_outside l r t (mkRequest AtAcquire o buf)); try done.
    + intros Hin. destruct (line_past _ _ _ t I) as (c & Hc & _); [rewrite Hl; apply elem_of_app; by left | congruence].
    + exists []. by rewrite app_nil_r.
  - unfold acquire. destruct (lock w) as [h|] eqn:El.
    + apply (advanced_outside l r t (at_place Waiting c)); try done; [by apply (Hout t c)| |].
      * exists [t]. unfold line. cbn. by rewrite El.
      * cbn. rewrite Ht. destruct c as [[] ? ?]; done.
    + pose proof (qo_free _ _ _ (im_queue _ _ I) El) as Hq. cbn in Hq. unfold line in Hl. rewrite El, Hq in Hl. by destruct l.
  - destruct (line_locked _ _ _ _ I El) as [Hln' Hn]. exists l, r. split; [congruence|]. split; [|by left].
    rewrite Hln' in Hl. destruct l as [|t0 l]; [done|]. injection Hl as <- Hl. rewrite !rank_cons, (rank_same l w w').
    + unfold cost_at. rewrite Hcs, lookup_insert_eq, Ht. cbn [from_option works]. rewrite Ht. destruct c as [[] ? ?]; try done; lia.
    + intros t' Ht'. unfold cost_at. rewrite Hcs, lookup_insert_ne; [done|]. intros <-. apply Hn. rewrite Hl. apply elem_of_app. by left.
  - by eapply release_advances.
  - exists l, r. split; [congruence|]. split; [|by left]. rewrite (rank_same l w w') by (intros; unfold cost_at; by rewrite Hcs). cbn. lia.
  - exists l, r. split; [congruence|]. split; [|by left]. rewrite (rank_same l w w') by (intros; unfold cost_at; by rewrite Hcs). cbn. lia.
Qed.

Lemma semaphore_held s w A : implements (s, w) A -> 0 <= semaphore w <= 1.
Proof.
  intros I. destruct (phase_held _ _ (im_phase _ _ I)) as [(_ & _ & H)|[(_ & H & _)|(_ & _ & H)]]; cbn in H; lia.
Qed.

Lemma cost_pos c : 1 <= cost c.
Proof. unfold cost. destruct (where_ c); lia. Qed.

Lemma cost_at_nonneg w t : 0 <= cost_at w t.
Proof. unfold cost_at. destruct (calls w !! t) as [c|]; [pose proof (cost_pos c); cbn; lia | done]. Qed.

Lemma rank_bounds s w A l r : implements (s, w) A -> line w = l ++ r -> l <> [] -> 1 <= rank l w <= 4 * Z.of_nat (length l).
Proof.
  intros I Hl Hne. pose proof (semaphore_held _ _ _ I) as Hs.
  assert (forall l', (forall t, t ∈ l' -> t ∈ l) -> - semaphore w <= rank l' w <= 4 * Z.of_nat (length l') - semaphore w) as Hr.
  { induction l' as [|t l' IH]; intros Hin; [unfold rank; cbn; lia|]. rewrite rank_cons. cbn [length].
    specialize (IH ltac:(intros; apply Hin; by right)). pose proof (cost_at_nonneg w t).
    destruct (line_past _ _ _ t I) as (c & Hc & Hw); [rewrite Hl; apply elem_of_app; left; apply Hin; left|].
    unfold cost_at in *. rewrite Hc in *. cbn in *. unfold cost in *. destruct (where_ c); (done || lia). }
  split; [|pose proof (Hr l ltac:(done)); lia]. destruct (lock w) as [t|] eqn:El.
  - rewrite (proj1 (line_locked _ _ _ _ I El)) in Hl. destruct l as [|t0 l]; [done|]. injection Hl as <- _. rewrite rank_cons.
    pose proof (Hr l ltac:(by right)). pose proof (im_phase _ _ I) as Hp. unfold phase in Hp. cbn [fst snd] in Hp. rewrite El in Hp.
    destruct Hp as (c & Hc & Hp). unfold cost_at. rewrite Hc. cbn. unfold cost. destruct (where_ c); [done | done | | lia |];
      destruct Hp as (_ & _ & Hp); lia.
  - pose proof (qo_free _ _ _ (im_queue _ _ I) El) as Hq. cbn in Hq. unfold line in Hl. rewrite El, Hq in Hl. by destruct l.
Qed.

(** *** All calls together *)

Definition costs (m : gmap positive request) : Z := map_fold (fun _ c n => cost c + n) 0 m.
Definition total (w : SynchDisk) : Z := costs (calls w) - semaphore w.

Lemma costs_delete t c m : m !! t = Some c -> costs m = cost c + costs (delete t m).
Proof. intros Ht. unfold costs. apply (map_fold_delete_L (fun _ c n => cost c + n)); [intros; lia | done]. Qed.

Lemma costs_insert t c c' m : m !! t = Some c -> costs (<[t := c']> m) = costs m - cost c + cost c'.
Proof.
  intros Ht. rewrite (costs_delete t c m Ht), (costs_delete t c' (<[t := c']> m)) by apply lookup_insert_eq. rewrite delete_insert_eq. lia.
Qed.

Lemma costs_alter t c f m : m !! t = Some c -> costs (alter f t m) = costs m - cost c + cost (f c).
Proof.
  intros Ht. rewrite (costs_delete t c m Ht), (costs_delete t (f c) (alter f t m)) by (by rewrite lookup_alter_eq, Ht).
  rewrite delete_alter_eq. lia.
Qed.

Lemma costs_new t c m : m !! t = None -> costs (<[t := c]> m) = costs m + cost c.
Proof. intros Ht. rewrite (costs_delete t c (<[t := c]> m)) by apply lookup_insert_eq. rewrite delete_insert_id by done. lia. Qed.

Lemma costs_bounds m : 0 <= costs m <= 5 * Z.of_nat (base.size m).
Proof.
  induction m as [|t c m Ht IH] using map_ind; [done|]. rewrite costs_new, map_size_insert_None by done.
  pose proof (cost_pos c). assert (cost c <= 5) by (unfold cost; destruct (where_ c); lia). lia.
Qed.

Lemma total_nonneg s w A : implements (s, w) A -> 0 <= total w.
Proof.
  intros I. unfold total. pose proof (costs_bounds (calls w)). pose proof (im_phase _ _ I) as Hp. unfold phase in Hp. cbn [fst snd] in Hp.
  destruct (lock w) as [t|]; [|destruct Hp as (_ & _ & ->); lia]. destruct Hp as (c & Hc & Hp). pose proof (semaphore_held _ _ _ I).
  pose proof (costs_delete t c _ Hc). pose proof (costs_bounds (delete t (calls w))). pose proof (cost_pos c). lia.
Qed.

Definition one (P : Prop) `{Decision P} : Z := if decide P then 1 else 0.

Lemma changed_total s w A e w' : implements (s, w) A -> changed w e w' -> total w' + one (is_work e) <= total w + 5 * one (is_enter e).
Proof.
  intros I Hc. unfold total, one. destruct Hc as [t o buf Hn _|t c Ht Hw|t c c' w' El Ht Hw -> Hln _ _ Hcost|t c El Ht Hw|w' -> Hln Hs|w' -> Hln Hs];
    cbn [is_work is_enter]; try (rewrite decide_True, decide_False by tauto); try (rewrite decide_False, decide_False by tauto).
  - rewrite decide_False, decide_True by tauto. cbn. rewrite costs_new by done. cbn. lia.
  - unfold acquire. destruct (lock w); cbn; rewrite (costs_insert t c) by done; unfold cost; rewrite Hw; cbn; lia.
  - rewrite (costs_insert t c) by done. lia.
  - unfold release. cbn [waiting end_call set_calls]. destruct (waiting w) as [|t1 q] eqn:Eq.
    + cbn. rewrite (costs_delete t c _ Ht). unfold cost. rewrite Hw. lia.
    + cbn. destruct (proj1 (qo_in _ _ _ (im_queue _ _ I) t1)) as (c1 & H1 & Hw1); [cbn; rewrite Eq; left|]. cbn in H1.
      assert (t1 <> t) by congruence. assert (delete t (calls w) !! t1 = Some c1) as H1' by by rewrite lookup_delete_ne.
      rewrite (costs_alter t1 c1) by done. rewrite (costs_delete t c _ Ht). unfold cost. rewrite Hw, Hw1. cbn. lia.
  - lia.
  - lia.
Qed.

Lemma run_total es s w A : implements (s, w) A -> all_fit w -> Forall event_fits es -> happens es (s, w) = true ->
  exists s' w' A', run es (s, w) = Ret (s', w') /\ implements (s', w') A' /\
    Z.of_nat (length (filter is_work es)) + total w' <= total w + 5 * Z.of_nat (length (filter is_enter es)).
Proof.
  revert s w A. induction es as [|e es IH]; intros s w A I Hf Hes Hh; [exists s, w, A; split; [done|]; split; [done | cbn; lia]|].
  cbn [happens run] in *. apply andb_true_iff in Hh as [He Hh]. apply Forall_cons in Hes as [Hfe Hes].
  destruct (exec_changes s w A e I Hf Hfe He) as (s1 & w1 & A1 & Hx & I1 & Hc). rewrite Hx in *. cbn [bind].
  destruct (IH s1 w1 A1 I1 (changed_fit _ _ _ Hc Hf) Hes Hh) as (s' & w' & A' & Hr & I' & Hm). exists s', w', A'.
  split; [exact Hr|]. split; [exact I'|]. pose proof (changed_total _ _ _ _ _ I Hc) as H1. unfold one in H1.
  rewrite !filter_cons. destruct (decide (is_work e)), (decide (is_enter e)); cbn [length]; lia.
Qed.

(** The last of a part [l] of the line returns after as much work as [l] needs. *)
Lemma line_returns es s w A l0 t r : let l := l0 ++ [t] in implements (s, w) A -> all_fit w -> Forall event_fits es -> happens es (s, w) = true ->
  line w = l ++ r -> rank l w <= work es (s, w) -> Return t ∈ trace es (s, w).
Proof.
  revert s w A l0 r. induction es as [|e es IH]; intros s w A l0 r l I Hf Hes Hh Hl Hr; (assert (l <> []) as Hne by (unfold l; by destruct l0)).
  { pose proof (rank_bounds _ _ _ _ _ I Hl Hne). cbn in Hr. lia. }
  cbn [happens work trace snd] in *. apply andb_true_iff in Hh as [He Hh]. apply Forall_cons in Hes as [Hfe Hes].
  destruct (exec_changes s w A e I Hf Hfe He) as (s1 & w1 & A1 & Hx & I1 & Hc). rewrite Hx in *. apply elem_of_app.
  destruct (changed_advances _ _ _ _ _ _ _ I Hc Hl Hne) as (l' & r' & Hl' & Hr' & Hcase).
  assert (forall l1, l' = l1 ++ [t] -> Return t ∈ trace es (s1, w1)) as Hrest.
  { intros l1 ->. apply (IH s1 w1 A1 l1 r' I1 (changed_fit _ _ _ Hc Hf) Hes Hh Hl'). lia. }
  destruct Hcase as [E|(h & E & Hin)]; [right; by apply (Hrest l0)|]. unfold l in E.
  destruct l0 as [|x l0]; injection E as -> E; [by left | right; by apply (Hrest l0)].
Qed.

(** While a call is in progress, a statement can run or the processor sleeps. *)
Lemma never_stuck s w : calls w <> ∅ -> exists e, is_work e /\ enabled e (s, w) = true.
Proof.
  intros Hne. destruct (decide (map_Forall (fun _ c => can_run c w = false) (calls w))) as [Hall|Hno].
  - exists AllSleep. split; [done|]. cbn. by rewrite bool_decide_true, bool_decide_false.
  - apply map_not_Forall in Hno; [|intros; solve_decision]. destruct Hno as (t & c & Ht & Hc).
    exists (Step t). split; [done|]. cbn. rewrite Ht. by apply not_false_iff_true.
Qed.

(** ** Properties *)

(** C8: the synchronous disk is an atomic array of sectors. Threads call ReadSector
    and WriteSector in any interleaving of their statements, of clock ticks and of
    interrupts. Every call takes effect at one instant between its beginning and
    its return: the run succeeds exactly when the same operations succeed one after
    the other on the array, the disk then holds that array, and every buffer is
    what the array gave. The device is never asked while it is active, and a call
    fails only where the operation on the array does (a sector out of range, a
    buffer that is too short). *)
Theorem SynchDisk_refines_array s D ss es :
  idle_disk s D ss -> happens es (s, new_SynchDisk D) = true ->
  match acts (trace es (s, new_SynchDisk D)) (mkArray ss ∅) with
  | Ret A => exists s' w, run es (s, new_SynchDisk D) = Ret (s', w) /\
      stores (fileno (disk w)) (content A) /\ ongoing A = seen <$> calls w
  | Abort => run es (s, new_SynchDisk D) = Abort
  | Undef => run es (s, new_SynchDisk D) = Undef
  end.
Proof.
  intros Hd Hh. pose proof (run_simulates es _ _ (idle_implements s D ss Hd) Hh) as Hr.
  destruct (acts _ _) as [A| |]; [|exact Hr..]. destruct Hr as ([s' w] & Hr & [_ _ Hst Hc _ _]).
  exists s', w. exact (conj Hr (conj Hst Hc)).
Qed.

(** C20: no call waits for ever, whatever the schedule. From every state that a run
    reaches, and for every continuation of the run, with new calls that begin in
    between, all of them with sectors and buffers in range: no statement fails; while
    a call is in progress a statement can run or the processor sleeps, and the sleep
    ends with an interrupt; there are at most five statements and sleeps for every
    call, so that calls that are followed by no others all return in every schedule
    that goes on; and new calls do not overtake: the call at place [p] of the line of
    the lock (0 is the owner) has returned when the processor has spent [4 * (p + 1)]
    statements and sleeps on calls in the line, however many have come after it. No
    wake-up is lost. *)
Theorem disk_calls_return s D ss es s' w es' :
  idle_disk s D ss -> happens es (s, new_SynchDisk D) = true -> run es (s, new_SynchDisk D) = Ret (s', w) -> all_fit w ->
  happens es' (s', w) = true -> Forall event_fits es' ->
  exists s2 w2, run es' (s', w) = Ret (s2, w2) /\
    (calls w2 <> ∅ -> exists e, is_work e /\ enabled e (s2, w2) = true) /\
    Z.of_nat (length (filter is_work es')) <= 5 * (Z.of_nat (base.size (calls w)) + Z.of_nat (length (filter is_enter es'))) /\
    (forall p t, line w !! p = Some t -> 4 * (Z.of_nat p + 1) <= work es' (s', w) -> Return t ∈ trace es' (s', w)).
Proof.
  intros Hd Hh Hr Hf Hh' Hes. pose proof (run_simulates es _ _ (idle_implements s D ss Hd) Hh) as Hs.
  destruct (acts _ _) as [A| |]; [|congruence..]. destruct Hs as (sw & Hr' & I). rewrite Hr in Hr'. injection Hr' as <-.
  destruct (run_total es' s' w A I Hf Hes Hh') as (s2 & w2 & A2 & Hrun & I2 & Hm). exists s2, w2. split; [exact Hrun|].
  split; [apply never_stuck|]. split.
  - pose proof (total_nonneg _ _ _ I2). pose proof (costs_bounds (calls w)). pose proof (semaphore_held _ _ _ I). unfold total in Hm at 2. lia.
  - intros p t Hp Hw. assert (line w = (take p (line w) ++ [t]) ++ drop (S p) (line w)) as Hl
      by (rewrite <- (take_S_r _ _ t Hp); by rewrite take_drop).
    apply (line_returns es' s' w A (take p (line w)) t (drop (S p) (line w)) I Hf Hes Hh' Hl).
    destruct (rank_bounds _ _ _ _ _ I Hl) as [_ Hb]; [by destruct (take _ _)|]. rewrite length_app, length_take in Hb. cbn in Hb. lia.
Qed.

(** ** A writer and a reader of one sector *)

Module Demo.

Definition blank : Sectors := replicate 1024 (replicate 128 0).
Definition device : Disk := mkDisk (replicate 4 0 ++ concat blank) false 0 0.
Definition clock : IState handlers := set_level IntOn (new_Interrupt new_Statistics).

Lemma device_idle : idle_disk clock device blank.
Proof.
  split; [by split | done | by repeat split | done |]. split.
  - split; [unfold blank; by rewrite length_replicate | by apply Forall_replicate].
  - by exists (replicate 4 0).
Qed.

(** Thread 2 asks for the sector while thread 1 writes it. *)
Definition meeting : list event :=
  [Enter 1 (mkOp true 3 0) (replicate 128 7); Step 1; Enter 2 (mkOp false 3 0) (replicate 128 9); Step 2; Tick].
Definition rest : list event := [Step 1; AllSleep; Enter 3 (mkOp false 4 0) (replicate 128 9); Step 1; Step 3; Step 1; Step 2; AllSleep; Step 2].

Lemma meeting_happens : happens (meeting ++ rest) (clock, new_SynchDisk device) = true.
Proof. vm_compute. reflexivity. Qed.

(** On the array the read comes after the write. *)
Lemma meeting_array :
  match acts (trace (meeting ++ rest) (clock, new_SynchDisk device)) (mkArray blank ∅) with
  | Ret A => ongoing A !! 2%positive = Some (true, mkOp false 3 0, replicate 128 7)
  | _ => False
  end.
Proof. vm_compute. reflexivity. Qed.

Lemma SynchDisk_refines_array_witness : exists s w,
  run (meeting ++ rest) (clock, new_SynchDisk device) = Ret (s, w) /\
  data <$> calls w !! 2%positive = Some (replicate 128 7).
Proof.
  pose proof (SynchDisk_refines_array clock device blank (meeting ++ rest) device_idle meeting_happens) as Hr.
  pose proof meeting_array as Ha. destruct (acts _ _) as [A| |]; [|destruct Ha..].
  destruct Hr as (s & w & Hrun & _ & Ho). exists s, w. split; [exact Hrun|].
  rewrite Ho, lookup_fmap in Ha. destruct (calls w !! 2%positive) as [[p o d]|]; [|discriminate Ha].
  cbn in Ha. injection Ha as _ _ ->. reflexivity.
Defined.

Lemma meeting_calls :
  match run meeting (clock, new_SynchDisk device) with
  | Ret (_, w) => line w = [1%positive; 2%positive] /\
      calls w = {[1%positive := mkRequest AtRequest (mkOp true 3 0) (replicate 128 7);
                   2%positive := mkRequest Waiting (mkOp false 3 0) (replicate 128 9)]}
  | _ => False
  end.
Proof. vm_compute. by split. Qed.

(** A third call comes, but the second returns before it. *)
Definition ending : list event := rest ++ [Step 2].

Lemma ending_happens : match run meeting (clock, new_SynchDisk device) with
  | Ret sw => happens ending sw = true /\ work ending sw = 8 | _ => False end.
Proof. vm_compute. by split. Qed.

Lemma ending_fits : Forall event_fits ending.
Proof. repeat (apply Forall_cons; split); [..| by apply Forall_nil]; first [exact I | vm_compute; repeat split; intros [=]]. Qed.

Lemma disk_calls_return_witness : exists s w s2 w2, run meeting (clock, new_SynchDisk device) = Ret (s, w) /\
  run ending (s, w) = Ret (s2, w2) /\ Return 2 ∈ trace ending (s, w).
Proof.
  assert (happens meeting (clock, new_SynchDisk device) = true) as Hh by (vm_compute; reflexivity).
  pose proof meeting_calls as Hc. pose proof ending_happens as He. destruct (run meeting _) as [[s w]| |] eqn:Hr; [|destruct Hc..].
  destruct Hc as [Hl Hc]. destruct He as [He Hw].
  destruct (disk_calls_return clock device blank meeting s w ending device_idle Hh Hr) as (s2 & w2 & Hrun & _ & _ & Hret).
  - unfold all_fit. rewrite Hc. apply map_Forall_insert_2; [|apply map_Forall_singleton]; vm_compute; repeat split; intros [=].
  - exact He.
  - exact ending_fits.
  - exists s, w, s2, w2. split; [reflexivity|]. split; [exact Hrun|]. apply (Hret 1%nat); [by rewrite Hl | rewrite Hw; done].
Defined.
End Demo.
