(* ===== verification/Ints.v ===== *)
(** * [int]s as memory

    Objects are copied to the disk and to the network as the bytes they have in
    memory: a sequence of [int]s, in the byte order of the host. *)

From S2P Require Import Prelude Machine Disk.

Section Bytes.
Variable big : bool.

Definition ints_bytes (ws : list Z) : list Z := concat (word_bytes big <$> ws).

Fixpoint ints_of (bs : list Z) : list Z :=
  match bs with
  | b0 :: b1 :: b2 :: b3 :: bs => i32 (host_word big b0 b1 b2 b3) :: ints_of bs
  | _ => []
  end.

Lemma length_ints_bytes ws : length (ints_bytes ws) = (4 * length ws)%nat.
Proof.
  unfold ints_bytes. rewrite (length_concat_uniform 4), length_fmap; [done|].
  apply Forall_fmap, Forall_true. intros w. unfold word_bytes. cbn. by destruct big.
Qed.

Lemma host_word_bytes w :
  exists b0 b1 b2 b3, word_bytes big w = [b0; b1; b2; b3] /\ host_word big b0 b1 b2 b3 = u32 w.
Proof.
  assert (u8 w + u8 (Z.shiftr w 8) * 2^8 + u8 (Z.shiftr w 16) * 2^16 + u8 (Z.shiftr w 24) * 2^24 = u32 w) as E.
  { rewrite !Z.shiftr_div_pow2 by lia. unfold u32, u8. change (2^32) with (2^8 * (2^8 * (2^8 * 2^8))).
    rewrite !(Z.rem_mul_r w (2^8)), !(Z.rem_mul_r (w / 2^8) (2^8)), !(Z.rem_mul_r (w / 2^8 / 2^8) (2^8)) by lia.
    rewrite !Z.div_div by lia. change (2^8 * 2^8) with (2^16). change (2^16 * 2^8) with (2^24). lia. }
  unfold word_bytes, host_word. destruct big; cbn [reverse rev_append]; eexists _, _, _, _; (split; [reflexivity|]);
    rewrite !i8_u8; lia.
Qed.

Lemma ints_roundtrip ws rest : Forall is_i32 ws -> length rest = 0%nat -> ints_of (ints_bytes ws ++ rest) = ws.
Proof.
  intros Hw Hr. apply nil_length_inv in Hr as ->. rewrite app_nil_r. unfold ints_bytes.
  induction Hw as [|w ws Hi _ IH]; [done|]. destruct (host_word_bytes w) as (b0 & b1 & b2 & b3 & E & Hv).
  cbn [fmap list_fmap concat]. rewrite E. cbn [app ints_of]. by rewrite Hv, i32_u32, i32_small, IH.
Qed.
End Bytes.
