(* ===== verification/Coff.v ===== *)
(** * The converter of object files (bin/coff2noff.c, bin/coff.h)

    A program of its own, run on the host: it reads the COFF file that the linker
    has made and writes the NOFF file that the kernel runs. The host has 32-bit
    longs (the file formats depend on it). A [read] of a regular file gives all
    bytes there are; a [write] fails only for a file that was not opened. The
    program's messages are left out. CoffLoad.v has the theorem: together with the
    constructor of AddrSpace it puts every section at its address. *)

From S2P Require Import Prelude Interrupt BitMap Table Machine VM Ints.

Definition MIPSELMAGIC : Z := 0x0162.
Definition OMAGIC : Z := 263.  (* 0407 *)

(** sizeof(struct filehdr), sizeof(struct aouthdr), sizeof(struct scnhdr) *)
Definition filehdr_size : Z := 20.
Definition aouthdr_size : Z := 56.
Definition scnhdr_size : Z := 40.
Definition NoffHeader_size : Z := 40.

(** What main uses of a struct scnhdr, in the order of the host. *)
Record scnhdr := mkScnhdr { s_name : list Z; s_paddr : Z; s_size : Z; s_scnptr : Z }.

(** The open files and their positions; [None]: open has failed. *)
Record Files := mkFiles { fdIn : list Z; inPos : Z; fdOut : option (list Z); outPos : Z }.

(** Code of the program: [None] for exit(1), which follows the removal of the
    output file. *)
Definition M (A : Type) : Type := Files -> C (option (A * Files)).

Definition ret {A} (a : A) : M A := fun s => Ret (Some (a, s)).
Definition exit_1 {A} : M A := fun _ => Ret None.
Definition seq_ {A B} (m : M A) (f : A -> M B) : M B :=
  fun s => let! r := m s in match r with Some (a, s) => f a s | None => Ret None end.
Definition of_C {A} (c : C A) : M A := fun s => let! a := c in Ret (Some (a, s)).

Declare Scope coff_scope.
Delimit Scope coff_scope with coff.
Notation "x <-- m ;; k" := (seq_ m (fun x => k)) (at level 62, m at next level, right associativity) : coff_scope.
Notation "m ;;; k" := (seq_ m (fun _ => k)) (at level 62, right associativity) : coff_scope.
Local Open Scope coff_scope.

(** *** Input and output *)

(** read(2), of [n] bytes: how many are read. *)
Definition read_count (n : Z) (s : Files) : Z :=
  if n <? 0 then -1 else Z.min n (Z.max 0 (Z.of_nat (length (fdIn s)) - inPos s)).

Definition Read (nBytes : Z) : M (list Z) := fun s =>
  if negb (read_count nBytes s =? nBytes) then exit_1 s
  else Ret (Some (take (Z.to_nat nBytes) (drop (Z.to_nat (inPos s)) (fdIn s)),
                  mkFiles (fdIn s) (inPos s + Z.max 0 nBytes) (fdOut s) (outPos s))).

(** A file after a write at [pos]; a gap is filled with zeros. *)
Definition overwrite (f : list Z) (pos : nat) (bs : list Z) : list Z :=
  take pos f ++ replicate (pos - length f) 0 ++ bs ++ drop (pos + length bs) f.

Definition Write (buf : list Z) (nBytes : Z) : M unit := fun s =>
  match fdOut s with
  | None => if nBytes =? -1 then Ret (Some (tt, s)) else exit_1 s
  | Some f =>
      if nBytes <? 0 then (if nBytes =? -1 then Ret (Some (tt, s)) else exit_1 s)
      else Ret (Some (tt, mkFiles (fdIn s) (inPos s) (Some (overwrite f (Z.to_nat (outPos s)) (take (Z.to_nat nBytes) buf))) (outPos s + nBytes)))
  end.

(** lseek(fd, pos, 0), which leaves the position alone when it fails. *)
Definition seek_in (pos : Z) : M unit := fun s =>
  Ret (Some (tt, if pos <? 0 then s else mkFiles (fdIn s) pos (fdOut s) (outPos s))).
Definition seek_out (pos : Z) : M unit := fun s =>
  Ret (Some (tt, if pos <? 0 then s else mkFiles (fdIn s) (inPos s) (fdOut s) pos)).

Section Convert.
Variable big : bool.

Definition i16 (x : Z) : Z := (x + 2^15) mod 2^16 - 2^15.

(** A short and a long of a structure that was read, converted. *)
Definition short_at (bs : list Z) (off : Z) : C Z :=
  let! w := load_short big bs off in Ret (ShortToHost big (u16 w)).
Definition long_at (bs : list Z) (off : Z) : C Z :=
  let! w := load_word big bs off in Ret (swap_int big (i32 w)).

Definition section_at (bs : list Z) (i : Z) : C scnhdr :=
  let off := i * scnhdr_size in
  let! paddr := long_at bs (off + 8) in
  let! size := long_at bs (off + 16) in
  let! scnptr := long_at bs (off + 20) in
  Ret (mkScnhdr (take 8 (drop (Z.to_nat off) bs)) paddr size scnptr).

Fixpoint read_sections (n : nat) (bs : list Z) (i : Z) : C (list scnhdr) :=
  match n with
  | O => Ret []
  | S n => let! sec := section_at bs i in let! l := read_sections n bs (i + 1) in Ret (sec :: l)
  end.

(** [!strcmp(sections[i].s_name, name)], for a name of less than eight characters. *)
Fixpoint c_string (bs : list Z) : list Z :=
  match bs with [] => [] | b :: bs => if b =? 0 then [] else b :: c_string bs end.

Definition is_name (sec : scnhdr) (name : string) : bool := bool_decide (c_string (s_name sec) = chars name).

Definition set_code s h := mkNoff (noffMagic h) s (initData h) (uninitData h).
Definition set_initData s h := mkNoff (noffMagic h) (code h) s (uninitData h).
Definition set_uninitData s h := mkNoff (noffMagic h) (code h) (initData h) s.

(** The copy of a section: from its place in the COFF file to the end of the NOFF
    file. *)
Definition copy_section (sec : scnhdr) : M unit :=
  seek_in (s_scnptr sec);;;
  buffer <-- Read (s_size sec);;
  Write buffer (s_size sec).

(** One turn of the for loop of main, on the header and [inNoffFile]. *)
Definition convert_section (sec : scnhdr) (h : NoffHeader) (inNoffFile : Z) : M (NoffHeader * Z) :=
  if s_size sec =? 0 then ret (h, inNoffFile)
  else if is_name sec ".text" then
    copy_section sec;;;
    ret (set_code (mkSegment (s_paddr sec) inNoffFile (s_size sec)) h, i32 (inNoffFile + s_size sec))
  else if is_name sec ".data" || is_name sec ".rdata" then
    if negb (segSize (initData h) =? 0) then exit_1
    else
      copy_section sec;;;
      ret (set_initData (mkSegment (s_paddr sec) inNoffFile (s_size sec)) h, i32 (inNoffFile + s_size sec))
  else if is_name sec ".bss" || is_name sec ".sbss" then
    let u := uninitData h in
    if negb (segSize u =? 0) then
      if s_paddr sec =? i32 (virtualAddr u + segSize u) then exit_1
      else ret (set_uninitData (mkSegment (virtualAddr u) (inFileAddr u) (i32 (segSize u + s_size sec))) h, inNoffFile)
    else ret (set_uninitData (mkSegment (s_paddr sec) (inFileAddr u) (s_size sec)) h, inNoffFile)
  else exit_1.

Fixpoint convert_sections (secs : list scnhdr) (h : NoffHeader) (inNoffFile : Z) : M (NoffHeader * Z) :=
  match secs with
  | [] => ret (h, inNoffFile)
  | sec :: secs =>
      r <-- convert_section sec h inNoffFile;;
      let '(h, inNoffFile) := r in convert_sections secs h inNoffFile
  end.

(** The bytes of a NoffHeader in the host's memory. *)
Definition header_bytes (h : NoffHeader) : list Z :=
  let seg s := [virtualAddr s; inFileAddr s; segSize s] in
  ints_bytes big (noffMagic h :: seg (code h) ++ seg (initData h) ++ seg (uninitData h)).

(** [g]: what is in the memory of noffH. *)
Definition empty_header (g : NoffHeader) : NoffHeader :=
  let clear s := mkSegment (virtualAddr s) (inFileAddr s) 0 in
  mkNoff NOFFMAGIC (clear (code g)) (clear (initData g)) (clear (uninitData g)).

Definition convert (g : NoffHeader) : M unit :=
  fileh <-- Read filehdr_size;;
  f_magic <-- of_C (short_at fileh 0);;
  f_nscns <-- of_C (short_at fileh 2);;
  if negb (f_magic =? MIPSELMAGIC) then exit_1
  else
    systemh <-- Read aouthdr_size;;
    magic <-- of_C (short_at systemh 0);;
    if negb (i16 magic =? OMAGIC) then exit_1
    else
      headers <-- Read (f_nscns * scnhdr_size);;
      sections <-- of_C (read_sections (Z.to_nat f_nscns) headers 0);;
      seek_out NoffHeader_size;;;
      r <-- convert_sections sections (empty_header g) NoffHeader_size;;
      let '(noffH, _) := r in
      seek_out 0;;;
      Write (header_bytes noffH) NoffHeader_size.

(** main, with [argc] arguments; [inp]: the file argv[1], if it can be opened, and
    [opened]: whether argv[2] can be. The result is the NOFF file that exit(0)
    leaves; [None] for exit(1). *)
Definition coff2noff (argc : Z) (inp : option (list Z)) (opened : bool) (g : NoffHeader) : C (option (list Z)) :=
  if argc <? 2 then Ret None
  else match inp with
  | None => Ret None
  | Some f =>
      let! r := convert g (mkFiles f 0 (if opened then Some [] else None) 0) in
      Ret (match r with Some (_, s) => fdOut s | None => None end)
  end.
End Convert.
