(* ===== verification/CoffLoad.v ===== *)
(** * From the linker to the memory of a process

    coff2noff.c and the constructor of AddrSpace together: the sections of a COFF
    file, linked from address 0 on as the comments ask for, are in the memory of
    the new process at their addresses. *)

From S2P Require Import Prelude Interrupt BitMap Table Machine VM Paging Boot Ints Coff.

Local Open Scope coff_scope.

(** ** COFF files

    All numbers are little-endian. *)

Definition le_at (f : list Z) (off n : nat) : Z := le_value (take n (drop off f)).

Definition is_section (f : list Z) (off : nat) (sec : scnhdr) : Prop :=
  s_name sec = take 8 (drop off f) /\ s_paddr sec = i32 (le_at f (off + 8) 4) /\
  s_size sec = i32 (le_at f (off + 16) 4) /\ s_scnptr sec = i32 (le_at f (off + 20) 4).

Record is_coff (f : list Z) (secs : list scnhdr) : Prop := {
  cf_length : (76 + 40 * length secs <= length f)%nat;
  cf_magic : le_at f 0 2 = MIPSELMAGIC;
  cf_nscns : le_at f 2 2 = Z.of_nat (length secs);
  cf_omagic : le_at f 20 2 = OMAGIC;
  cf_sections i sec : secs !! i = Some sec -> is_section f (76 + 40 * i) sec
}.

(** ** Reading the headers *)

Section Headers.
Variable big : bool.

Lemma take_drop_2 (l : list Z) n : (n + 2 <= length l)%nat -> exists a b, take 2 (drop n l) = [a; b] /\ l !! n = Some a /\ l !! S n = Some b.
Proof.
  intros Hl. destruct (drop n l) as [|a [|b r]] eqn:E; try (apply (f_equal length) in E; rewrite length_drop in E; cbn in E; lia).
  exists a, b. split; [done|]. pose proof (lookup_drop l n 0) as H0. pose proof (lookup_drop l n 1) as H1. rewrite E in H0, H1.
  rewrite Nat.add_0_r in H0. replace (S n) with (n + 1)%nat by lia. by rewrite <- H0, <- H1.
Qed.

Lemma aref_at (l : list Z) n a : l !! n = Some a -> aref l (Z.of_nat n) = Ret a.
Proof. intros Hl. apply aref_Ret. rewrite Nat2Z.id. split; [lia | done]. Qed.

Lemma short_at_le l n : (n + 2 <= length l)%nat -> short_at big l (Z.of_nat n) = Ret (le_at l n 2).
Proof.
  intros Hl. destruct (take_drop_2 l n Hl) as (a & b & E & Ha & Hb). unfold short_at, load_short, le_at. rewrite E.
  rewrite (aref_at _ _ _ Ha). replace (Z.of_nat n + 1) with (Z.of_nat (S n)) by lia. rewrite (aref_at _ _ _ Hb). cbn [bind].
  by rewrite ShortToHost_le.
Qed.

Lemma long_at_le l n : (n + 4 <= length l)%nat -> long_at big l (Z.of_nat n) = Ret (i32 (le_at l n 4)).
Proof.
  intros Hl. destruct (take_drop_2 l n ltac:(lia)) as (a & b & _ & Ha & Hb).
  destruct (take_drop_2 l (n + 2) ltac:(lia)) as (c & d & _ & Hc & Hd).
  assert (take 4 (drop n l) = [a; b; c; d]) as E.
  { apply list_eq. intros [|[|[|[|i]]]]; rewrite ?lookup_take_lt by lia; rewrite ?lookup_drop.
    - by rewrite Nat.add_0_r.
    - by replace (n + 1)%nat with (S n) by lia.
    - done.
    - by replace (n + 3)%nat with (S (n + 2)) by lia.
    - by rewrite lookup_take_ge by lia. }
  unfold long_at, load_word, le_at. rewrite E.
  rewrite (aref_at _ _ _ Ha). replace (Z.of_nat n + 1) with (Z.of_nat (S n)) by lia. rewrite (aref_at _ _ _ Hb).
  replace (Z.of_nat n + 2) with (Z.of_nat (n + 2)) by lia. rewrite (aref_at _ _ _ Hc).
  replace (Z.of_nat n + 3) with (Z.of_nat (S (n + 2))) by lia. rewrite (aref_at _ _ _ Hd). cbn [bind].
  unfold swap_int. by rewrite WordToHost_le.
Qed.

Lemma le_at_part f k n off m : (off + m <= n)%nat -> le_at (take n (drop k f)) off m = le_at f (k + off) m.
Proof.
  intros Hn. unfold le_at. f_equal. rewrite skipn_firstn_comm, take_take, drop_drop. f_equal. lia.
Qed.

(** The section headers, after [k] bytes of the file. *)
Lemma read_sections_ok f k secs : (k + 40 * length secs <= length f)%nat ->
  (forall i sec, secs !! i = Some sec -> is_section f (k + 40 * i) sec) ->
  forall n j, (j + n = length secs)%nat ->
  read_sections big n (take (40 * length secs) (drop k f)) (Z.of_nat j) = Ret (drop j secs).
Proof.
  intros Hl Hs. set (bs := take _ (drop k f)). assert (length bs = 40 * length secs)%nat as Hb by (unfold bs; rewrite length_take, length_drop; lia).
  induction n as [|n IH]; intros j Hj; cbn [read_sections]; [by rewrite drop_ge by lia|].
  destruct (lookup_lt_is_Some_2 secs j ltac:(lia)) as [sec Es]. destruct (Hs j sec Es) as (En & Ep & Ez & Ec).
  unfold section_at, scnhdr_size. replace (Z.of_nat j * 40) with (Z.of_nat (40 * j)) by lia.
  replace (Z.of_nat (40 * j) + 8) with (Z.of_nat (40 * j + 8)) by lia.
  replace (Z.of_nat (40 * j) + 16) with (Z.of_nat (40 * j + 16)) by lia.
  replace (Z.of_nat (40 * j) + 20) with (Z.of_nat (40 * j + 20)) by lia.
  rewrite !long_at_le by lia. cbn [bind]. replace (Z.of_nat j + 1) with (Z.of_nat (S j)) by lia. rewrite IH by lia. cbn [bind].
  rewrite (drop_S _ _ _ Es). do 2 f_equal. unfold bs. rewrite !le_at_part by lia. rewrite Nat2Z.id.
  destruct sec as [nm pa sz sp]. cbn [s_name s_paddr s_size s_scnptr] in *. rewrite !Nat.add_assoc, <- Ep, <- Ez, <- Ec. f_equal.
  rewrite En. rewrite skipn_firstn_comm, take_take, drop_drop. f_equal. lia.
Qed.
End Headers.

(** ** Sections *)

Inductive section_kind := Text | Data | Bss | Other.

Definition kind_of (sec : scnhdr) : section_kind :=
  if is_name sec ".text" then Text
  else if is_name sec ".data" || is_name sec ".rdata" then Data
  else if is_name sec ".bss" || is_name sec ".sbss" then Bss
  else Other.

#[export] Instance section_kind_eq_dec : EqDecision section_kind.
Proof. solve_decision. Defined.

(** Sections that take space, and those whose bytes are in the file. *)
Definition live (k : section_kind) (sec : scnhdr) : Prop := kind_of sec = k /\ s_size sec <> 0.
#[export] Instance live_dec k sec : Decision (live k sec).
Proof. unfold live. apply _. Defined.

Definition count (k : section_kind) (secs : list scnhdr) : nat := length (filter (live k) secs).

Definition in_file (sec : scnhdr) : bool := bool_decide (kind_of sec = Text) || bool_decide (kind_of sec = Data).

Definition bytes_of (f : list Z) (sec : scnhdr) : list Z :=
  if in_file sec then take (Z.to_nat (s_size sec)) (drop (Z.to_nat (s_scnptr sec)) f) else [].

Definition image (f : list Z) (secs : list scnhdr) : list Z := concat (bytes_of f <$> secs).

(** A section that the program can copy. *)
Definition readable (f : list Z) (sec : scnhdr) : Prop :=
  s_size sec <> 0 -> kind_of sec <> Other /\ 0 < s_size sec /\
    (in_file sec = true -> 0 <= s_scnptr sec /\ s_scnptr sec + s_size sec <= Z.of_nat (length f)).

Definition total (h : NoffHeader) : Z := segSize (code h) + segSize (initData h) + segSize (uninitData h).
Definition sizes (secs : list scnhdr) : Z := foldr (fun sec n => s_size sec + n) 0 secs.

Lemma sizes_nonneg secs : Forall (fun sec => 0 <= s_size sec) secs -> 0 <= sizes secs.
Proof. induction 1 as [|sec secs Hs _ IH]; [done|]. change (0 <= s_size sec + sizes secs). lia. Qed.

(** The output file so far: [body] after the place of the header. *)
Definition written (out body : list Z) : Prop := out = replicate 40 0 ++ body \/ (out = [] /\ body = []).

Section Convert.
Variable f : list Z.

Definition state_ok (s : Files) (body : list Z) : Prop :=
  fdIn s = f /\ outPos s = 40 + Z.of_nat (length body) /\ exists out, fdOut s = Some out /\ written out body.

Lemma overwrite_end out body bs : written out body -> overwrite out (40 + length body) bs = replicate 40 0 ++ body ++ bs.
Proof.
  intros [->|[-> ->]]; unfold overwrite; [|by rewrite take_nil, drop_nil, app_nil_r].
  rewrite take_ge, drop_ge by (rewrite length_app, length_replicate; lia).
  replace (40 + length body - length (replicate 40 0%Z ++ body))%nat with O by (rewrite length_app, length_replicate; lia).
  by rewrite app_nil_r, <- app_assoc.
Qed.

Lemma copy_section_ok sec s body : state_ok s body -> in_file sec = true -> 0 < s_size sec ->
  0 <= s_scnptr sec -> s_scnptr sec + s_size sec <= Z.of_nat (length f) ->
  exists s', copy_section sec s = Ret (Some (tt, s')) /\ state_ok s' (body ++ bytes_of f sec) /\
    Z.of_nat (length (bytes_of f sec)) = s_size sec.
Proof.
  intros (Hf & Hp & out & Ho & Hw) Hin H0 Hs Hl. unfold bytes_of. rewrite Hin.
  assert (length (take (Z.to_nat (s_size sec)) (drop (Z.to_nat (s_scnptr sec)) f)) = Z.to_nat (s_size sec)) as Hlen
    by (rewrite length_take, length_drop; lia).
  unfold copy_section, seq_, seek_in. rewrite (proj2 (Z.ltb_ge _ _) Hs). cbn [bind].
  unfold Read, read_count. rewrite Hf. cbn [fdIn inPos]. rewrite (proj2 (Z.ltb_ge (s_size sec) 0)) by lia.
  rewrite Z.min_l, Z.eqb_refl by lia. cbn [negb bind]. unfold Write. cbn [fdOut outPos inPos fdIn]. rewrite Ho.
  rewrite (proj2 (Z.ltb_ge (s_size sec) 0)) by lia. eexists. split; [reflexivity|]. split; [|lia].
  split; [done|]. cbn [outPos fdOut]. split; [rewrite length_app; lia|]. eexists. split; [reflexivity|]. left.
  rewrite take_ge by lia. rewrite Hp. replace (Z.to_nat (40 + Z.of_nat (length body))) with (40 + length body)%nat by lia.
  by apply overwrite_end.
Qed.

(** The counts of sections that are still to come leave room in the header. *)
Definition room (h : NoffHeader) (secs : list scnhdr) : Prop :=
  (count Text secs <= 1 /\ count Data secs <= 1 /\ count Bss secs <= 1)%nat /\
  (segSize (code h) = 0 \/ count Text secs = O) /\ (segSize (initData h) = 0 \/ count Data secs = O) /\
  (segSize (uninitData h) = 0 \/ count Bss secs = O).

Definition header_ok (h : NoffHeader) : Prop :=
  noffMagic h = NOFFMAGIC /\ Forall is_i32 (noff_fields h) /\
  0 <= segSize (code h) /\ 0 <= segSize (initData h) /\ 0 <= segSize (uninitData h).

Lemma count_cons k sec secs : count k (sec :: secs) = if decide (live k sec) then S (count k secs) else count k secs.
Proof. unfold count. rewrite filter_cons. by case_decide. Qed.

Lemma bytes_of_nothing sec : in_file sec = false \/ s_size sec = 0 -> bytes_of f sec = [].
Proof. unfold bytes_of. intros [->| ->]; [done|]. by destruct (in_file sec). Qed.

Lemma room_skip h sec secs : s_size sec = 0 -> room h (sec :: secs) -> room h secs.
Proof.
  intros Hz. unfold room. rewrite !count_cons. by rewrite !decide_False by (intros [_ ?]; done).
Qed.

(** A live section of kind [k] is the last of its kind, and its place is free. *)
Lemma room_take h sec secs k : kind_of sec = k -> s_size sec <> 0 -> room h (sec :: secs) ->
  match k with
  | Text => segSize (code h) = 0 /\ forall g, room (set_code g h) secs
  | Data => segSize (initData h) = 0 /\ forall g, room (set_initData g h) secs
  | Bss => segSize (uninitData h) = 0 /\ forall g, room (set_uninitData g h) secs
  | Other => True
  end.
Proof.
  intros Hk Hz. unfold room. rewrite !count_cons.
  assert (forall k', live k' sec <-> k' = k) as Hl by (intros k'; unfold live; naive_solver).
  destruct k; [..|done]; 
    repeat match goal with |- context [decide (live ?k' sec)] => let E := fresh in
      destruct (decide (live k' sec)) as [E|E]; [apply Hl in E; try discriminate E | try (exfalso; by apply E, Hl)] end;
    intros ((?&?&?)&?&?&?); (split; [lia|]); intros g; cbn; lia.
Qed.

Lemma header_set h g : header_ok h -> is_i32 (virtualAddr g) -> is_i32 (inFileAddr g) -> is_i32 (segSize g) -> 0 <= segSize g ->
  header_ok (set_code g h) /\ header_ok (set_initData g h) /\ header_ok (set_uninitData g h).
Proof.
  intros (Hm & Hf & H1 & H2 & H3) ? ? ? ?. unfold noff_fields in Hf. cbn in Hf. rewrite !Forall_cons in Hf.
  unfold header_ok, noff_fields. cbn. rewrite !Forall_cons. tauto.
Qed.

Lemma convert_section_ok sec secs h s body : state_ok s body -> readable f sec -> room h (sec :: secs) -> header_ok h ->
  is_i32 (s_paddr sec) -> 40 + Z.of_nat (length body) + s_size sec < 2^30 ->
  exists h' s', convert_section sec h (40 + Z.of_nat (length body)) s = Ret (Some ((h', 40 + Z.of_nat (length (body ++ bytes_of f sec))), s')) /\
    state_ok s' (body ++ bytes_of f sec) /\ room h' secs /\ header_ok h' /\ total h' = total h + s_size sec.
Proof.
  intros S Hr Hroom Hh Hp Hlt. unfold convert_section. destruct (Z.eqb_spec (s_size sec) 0) as [Hz|Hz].
  { rewrite (bytes_of_nothing sec), app_nil_r by auto. exists h, s. do 2 (split; [done|]). split; [by eapply room_skip|]. split; [done | lia]. }
  destruct (Hr Hz) as (Hk & H0 & Hin). pose proof (fun k E => room_take h sec secs k E Hz Hroom) as Ht.
  assert (is_i32 (40 + Z.of_nat (length body)) /\ is_i32 (s_size sec)) as [Hi1 Hi2] by (unfold is_i32; lia).
  destruct Hh as (Hm & Hf & Hnn). pose proof Hf as Hf'. unfold noff_fields in Hf'. cbn in Hf'. rewrite !Forall_cons in Hf'.
  assert (header_ok h) as Hh by (by split).
  unfold kind_of in *. destruct (is_name sec ".text") eqn:E1; [|destruct (is_name sec ".data" || is_name sec ".rdata") eqn:E2;
    [|destruct (is_name sec ".bss" || is_name sec ".sbss") eqn:E3; [|done]]].
  - destruct (Ht Text eq_refl) as [Hc Hrm]. assert (in_file sec = true) as Hif by (unfold in_file, kind_of; by rewrite E1).
    destruct (Hin Hif) as [Hs Hl]. destruct (copy_section_ok sec s body S Hif H0 Hs Hl) as (s' & Ec & S' & Hlen).
    unfold seq_. rewrite Ec. cbn [bind ret]. rewrite length_app, Nat2Z.inj_add, Hlen, Z.add_assoc, i32_small by (unfold is_i32; lia).
    eexists _, s'. split; [reflexivity|]. split; [done|]. split; [apply Hrm|]. split; [apply header_set; first [done | cbn; lia]|].
    unfold total. cbn. lia.
  - destruct (Ht Data eq_refl) as [Hc Hrm]. assert (in_file sec = true) as Hif by (unfold in_file, kind_of; by rewrite E1, E2).
    destruct (Hin Hif) as [Hs Hl]. destruct (copy_section_ok sec s body S Hif H0 Hs Hl) as (s' & Ec & S' & Hlen).
    rewrite Hc. cbn [Z.eqb negb]. unfold seq_. rewrite Ec. cbn [bind ret].
    rewrite length_app, Nat2Z.inj_add, Hlen, Z.add_assoc, i32_small by (unfold is_i32; lia).
    eexists _, s'. split; [reflexivity|]. split; [done|]. split; [apply Hrm|]. split; [apply header_set; first [done | cbn; lia]|].
    unfold total. cbn. lia.
  - destruct (Ht Bss eq_refl) as [Hc Hrm]. rewrite Hc. cbn [Z.eqb negb].
    rewrite (bytes_of_nothing sec), app_nil_r by (left; unfold in_file, kind_of; by rewrite E1, E2, E3).
    eexists _, s. split; [reflexivity|]. split; [done|]. split; [apply Hrm|]. split; [apply header_set; first [done | tauto | cbn; lia]|].
    unfold total. cbn. lia.
Qed.

Lemma convert_sections_ok secs h s body : state_ok s body -> Forall (readable f) secs -> room h secs -> header_ok h ->
  Forall (fun sec => is_i32 (s_paddr sec) /\ 0 <= s_size sec) secs -> 40 + Z.of_nat (length body) + sizes secs < 2^30 ->
  exists h' s' p, convert_sections secs h (40 + Z.of_nat (length body)) s = Ret (Some ((h', p), s')) /\
    state_ok s' (body ++ image f secs) /\ header_ok h' /\ total h' = total h + sizes secs.
Proof.
  revert h s body. induction secs as [|sec secs IH]; intros h s body S Hr Hroom Hh Hp Hlt; cbn [convert_sections sizes foldr] in *.
  - exists h, s, (40 + Z.of_nat (length body)). unfold image. cbn. rewrite app_nil_r. do 3 (split; [done|]). lia.
  - apply Forall_cons in Hr as [Hr1 Hr], Hp as [[Hp1 Hz1] Hp].
    pose proof (sizes_nonneg secs ltac:(eapply Forall_impl; [exact Hp | naive_solver])) as H0. fold (sizes secs) in *.
    destruct (convert_section_ok sec secs h s body S Hr1 Hroom Hh Hp1 ltac:(lia)) as (h1 & s1 & E & S1 & Hroom1 & Hh1 & Ht1).
    assert (Z.of_nat (length (bytes_of f sec)) <= s_size sec) as Hb.
    { unfold bytes_of. destruct (in_file sec); cbn; [rewrite length_take; lia | lia]. }
    destruct (IH h1 s1 (body ++ bytes_of f sec) S1 Hr Hroom1 Hh1 Hp) as (h2 & s2 & p & E2 & S2 & Hh2 & Ht2); [rewrite length_app; lia|].
    exists h2, s2, p. unfold seq_. rewrite E. cbn [bind]. rewrite E2. split; [done|]. unfold image. cbn. rewrite app_assoc. split; [done|].
    split; [done|]. rewrite Ht2, Ht1. lia.
Qed.
End Convert.

(** ** The whole program *)

Section Program.
Variable big : bool.

Lemma length_noff_bytes h : length (header_bytes big h) = 40%nat.
Proof. unfold header_bytes. by rewrite length_ints_bytes. Qed.

Lemma write_header out body h : written out body -> overwrite out 0 (header_bytes big h) = header_bytes big h ++ body.
Proof.
  intros Hw. assert (drop 40 out = body) as Hd.
  { destruct Hw as [->|[-> ->]]; [by rewrite drop_app_length' by (by rewrite length_replicate) | by rewrite drop_nil]. }
  unfold overwrite. rewrite length_noff_bytes, Nat.sub_0_l, Nat.add_0_l, Hd. by rewrite take_0.
Qed.

Record convertible (f : list Z) (secs : list scnhdr) : Prop := {
  cv_coff : is_coff f secs;
  cv_readable : Forall (readable f) secs;
  cv_single k : k <> Other -> (count k secs <= 1)%nat;
  cv_sizes : Forall (fun sec => 0 <= s_size sec) secs;
  cv_small : sizes secs < 2^29
}.

Lemma read_ok f pos n out op : 0 <= pos -> 0 <= n -> pos + n <= Z.of_nat (length f) ->
  Read n (mkFiles f pos out op) = Ret (Some (take (Z.to_nat n) (drop (Z.to_nat pos) f), mkFiles f (pos + n) out op)).
Proof.
  intros Hp Hn Hl. unfold Read, read_count. cbn [fdIn inPos fdOut outPos]. rewrite (proj2 (Z.ltb_ge _ _) Hn), Z.min_l, Z.eqb_refl by lia.
  cbn [negb]. by rewrite Z.max_r.
Qed.

Lemma short_part f k n off : 0 <= k -> 0 <= off -> off + 2 <= n -> k + n <= Z.of_nat (length f) ->
  short_at big (take (Z.to_nat n) (drop (Z.to_nat k) f)) off = Ret (le_at f (Z.to_nat (k + off)) 2).
Proof.
  intros Hk Ho Hn Hl. rewrite <- (Z2Nat.id off) at 1 by done.
  rewrite short_at_le by (rewrite length_take, length_drop; lia). rewrite le_at_part by lia. do 2 f_equal. lia.
Qed.

Lemma empty_header_ok g secs : Forall is_i32 (noff_fields g) -> (forall k, k <> Other -> (count k secs <= 1)%nat) ->
  header_ok (empty_header g) /\ room (empty_header g) secs /\ total (empty_header g) = 0.
Proof.
  intros Hg Hc. unfold noff_fields in Hg. cbn in Hg. rewrite !Forall_cons in Hg. split; [|split; [|done]].
  - unfold header_ok, noff_fields. cbn. rewrite !Forall_cons. assert (is_i32 0) by done. assert (is_i32 NOFFMAGIC) by done. naive_solver lia.
  - unfold room. cbn. split; [split; [|split]; by apply Hc|]. auto.
Qed.

Lemma coff2noff_ok f secs argc g : convertible f secs -> 2 <= argc -> Forall is_i32 (noff_fields g) ->
  exists h, coff2noff big argc (Some f) true g = Ret (Some (header_bytes big h ++ image f secs)) /\ header_ok h /\ total h = sizes secs.
Proof.
  intros [[Hlen Hmag Hn Hom Hsec] Hr Hsing Hz Hs] Hargc Hg. unfold coff2noff. rewrite (proj2 (Z.ltb_ge _ _) Hargc).
  destruct (empty_header_ok g secs Hg Hsing) as (Hh & Hroom & Ht).
  unfold convert, seq_, of_C, filehdr_size, aouthdr_size, scnhdr_size. rewrite read_ok by lia. cbn [bind].
  rewrite !short_part by lia. cbn [bind]. change (Z.to_nat (0 + 0)) with O. change (Z.to_nat (0 + 2)) with 2%nat.
  rewrite Hmag, Hn, Z.eqb_refl. cbn [negb]. rewrite read_ok by lia. cbn [bind]. rewrite short_part by lia. cbn [bind].
  change (Z.to_nat (0 + 20 + 0)) with 20%nat. rewrite Hom. change (i16 OMAGIC =? OMAGIC) with true. cbn [negb].
  rewrite read_ok by lia. cbn [bind]. rewrite Nat2Z.id. change (Z.to_nat (0 + 20 + 56)) with 76%nat.
  replace (Z.to_nat (Z.of_nat (length secs) * 40)) with (40 * length secs)%nat by lia.
  rewrite (read_sections_ok big f 76 secs Hlen Hsec (length secs) 0 ltac:(lia) : read_sections big _ _ 0 = _). cbn [bind].
  rewrite drop_0. unfold seek_out at 1, NoffHeader_size. cbn [Z.ltb Z.compare bind fdIn inPos fdOut].
  set (s0 := mkFiles f _ _ 40). assert (state_ok f s0 []) as S0 by (split; [done|]; split; [done|]; eexists; split; [done | by right]).
  assert (Forall (fun sec => is_i32 (s_paddr sec) /\ 0 <= s_size sec) secs) as Hp.
  { apply Forall_lookup. intros i sec Hi. split; [destruct (Hsec i sec Hi) as (_ & -> & _); apply i32_range|].
    rewrite Forall_lookup in Hz. by eapply Hz. }
  destruct (convert_sections_ok f secs _ s0 [] S0 Hr Hroom Hh Hp) as (h & s1 & p & E & (Hf1 & Hp1 & out & Ho & Hw) & Hh1 & Ht1); [cbn; lia|].
  change (40 + Z.of_nat (length [])) with 40 in E. rewrite E. cbn [bind]. unfold seek_out. cbn [Z.ltb Z.compare bind].
  unfold Write. cbn [fdOut]. rewrite Ho. cbn [Z.ltb Z.compare bind fdOut outPos]. exists h.
  rewrite take_ge by (by rewrite length_noff_bytes). change (Z.to_nat 0) with O. rewrite (write_header _ _ _ Hw). cbn [app].
  split; [done|]. split; [done|]. by rewrite Ht1, Ht.
Qed.

(** *** The file as the kernel reads it *)

Lemma host_int_at ws post k x : ws !! k = Some x -> is_i32 x ->
  (let! z := load_word big (ints_bytes big ws ++ post) (4 * Z.of_nat k) in Ret (i32 z)) = Ret x.
Proof.
  intros Hk Hx. rewrite <- (take_drop_middle ws k x Hk). unfold ints_bytes. rewrite fmap_app, concat_app, fmap_cons. cbn [concat].
  destruct (host_word_bytes big x) as (b0 & b1 & b2 & b3 & E & Hv). rewrite E, <- !app_assoc.
  assert (length (concat (word_bytes big <$> take k ws)) = (4 * k)%nat) as Hl.
  { pose proof (length_ints_bytes big (take k ws)) as H4. unfold ints_bytes in H4. rewrite H4, length_take. apply lookup_lt_Some in Hk. lia. }
  assert (forall j b, [b0; b1; b2; b3] !! j = Some b ->
    aref (concat (word_bytes big <$> take k ws) ++ [b0; b1; b2; b3] ++ concat (word_bytes big <$> drop (S k) ws) ++ post) (4 * Z.of_nat k + Z.of_nat j) = Ret b) as Ha.
  { intros j b Hj. replace (4 * Z.of_nat k + Z.of_nat j) with (Z.of_nat (4 * k + j)) by lia. apply aref_at.
    rewrite lookup_app_r by lia. rewrite Hl. replace (4 * k + j - 4 * k)%nat with j by lia. by apply lookup_app_l_Some. }
  unfold load_word. pose proof (Ha 0%nat b0 eq_refl) as H0. rewrite Z.add_0_r in H0.
  rewrite H0. cbn [bind]. rewrite (Ha 1%nat b1 eq_refl : aref _ (4 * Z.of_nat k + 1) = _). cbn [bind].
  rewrite (Ha 2%nat b2 eq_refl : aref _ (4 * Z.of_nat k + 2) = _). cbn [bind]. rewrite (Ha 3%nat b3 eq_refl : aref _ (4 * Z.of_nat k + 3) = _). cbn [bind].
  by rewrite Hv, i32_u32, i32_small.
Qed.

Lemma load_header h post : Forall is_i32 (noff_fields h) -> load_noff big (header_bytes big h ++ post) = Ret h.
Proof.
  intros Hf. rewrite Forall_lookup in Hf.
  assert (forall k i x, noff_fields h !! k = Some x -> i = Z.of_nat k ->
    (let! z := load_word big (header_bytes big h ++ post) (4 * i) in Ret (i32 z)) = Ret x) as Hw.
  { intros k i x Hk ->. apply host_int_at; [done | by eapply Hf]. }
  unfold load_noff. cbv beta zeta. destruct h as [mg [va fa sz] [vb fb sb] [vc fc sc]].
  rewrite (Hw 0%nat 0 mg eq_refl eq_refl), (Hw 1%nat 1 va eq_refl eq_refl).
  rewrite (Hw 2%nat (1 + 1) fa eq_refl eq_refl), (Hw 3%nat (1 + 2) sz eq_refl eq_refl).
  rewrite (Hw 4%nat 4 vb eq_refl eq_refl), (Hw 5%nat (4 + 1) fb eq_refl eq_refl), (Hw 6%nat (4 + 2) sb eq_refl eq_refl).
  by rewrite (Hw 7%nat 7 vc eq_refl eq_refl), (Hw 8%nat (7 + 1) fc eq_refl eq_refl), (Hw 9%nat (7 + 2) sc eq_refl eq_refl).
Qed.

Lemma header_image h rest : header_ok h -> total h < 2^29 -> executable_image big h (header_bytes big h ++ rest).
Proof.
  intros (Hm & Hf & H1 & H2 & H3) Ht. split; [|done | unfold total in Ht; lia]. intros buf. exists h.
  rewrite take_app_length' by (by rewrite length_noff_bytes). split; [by apply load_header|]. by rewrite Hm.
Qed.
End Program.

(** ** The memory of the process *)

Lemma file_page_byte file pos j : 0 <= pos -> (j < page_size)%nat ->
  file_page file pos !! j = Some (default 0 (file !! (Z.to_nat pos + j)%nat)).
Proof.
  intros Hp Hj. unfold file_page. set (d := take page_size (drop (Z.to_nat pos) file)).
  assert (d !! j = file !! (Z.to_nat pos + j)%nat) as E by (unfold d; by rewrite lookup_take_lt, lookup_drop).
  destruct (file !! (Z.to_nat pos + j)%nat) as [b|] eqn:Eb; [by rewrite (lookup_app_l_Some _ _ _ _ E)|].
  rewrite lookup_app_r by (by apply lookup_ge_None). apply lookup_replicate. split; [done|].
  apply lookup_ge_None in E. lia.
Qed.

(** What a program of process [s] reads at an address. *)
Definition user_byte (m : Machine) (v : VM) (s : positive) (a : Z) : option Z :=
  pg ← content m v s (Z.to_nat (a / 128)); pg !! Z.to_nat (a mod 128).

(** The addresses that the linker gives the sections: those in the file one after the
    other from 0 on, in the order of the headers; the others after them. *)
Definition file_size (secs : list scnhdr) : Z := sizes (filter (fun sec => in_file sec = true) secs).

Record linked (f : list Z) (secs : list scnhdr) : Prop := {
  lk_convertible : convertible f secs;
  lk_place i sec : secs !! i = Some sec -> s_size sec <> 0 ->
    if in_file sec then s_paddr sec = file_size (take i secs)
    else file_size secs <= s_paddr sec /\ s_paddr sec + s_size sec <= sizes secs
}.

Lemma length_bytes_of f sec : readable f sec -> 0 <= s_size sec ->
  Z.of_nat (length (bytes_of f sec)) = if in_file sec then s_size sec else 0.
Proof.
  intros Hr Hz. unfold bytes_of. destruct (in_file sec) eqn:Ei; [|done]. rewrite length_take, length_drop.
  destruct (Z.eq_dec (s_size sec) 0) as [->|Hs]; [lia|]. destruct (Hr Hs) as (_ & ? & Hin). specialize (Hin Ei). lia.
Qed.

Lemma file_size_cons sec secs : file_size (sec :: secs) = (if in_file sec then s_size sec else 0) + file_size secs.
Proof. unfold file_size. rewrite filter_cons. by destruct (in_file sec). Qed.

Lemma length_image f secs : Forall (readable f) secs -> Forall (fun sec => 0 <= s_size sec) secs ->
  Z.of_nat (length (image f secs)) = file_size secs.
Proof.
  intros Hr Hz. unfold image. induction secs as [|sec secs IH]; [done|]. apply Forall_cons in Hr as [Hr1 Hr], Hz as [Hz1 Hz].
  cbn [fmap list_fmap concat]. rewrite length_app, Nat2Z.inj_add, IH, length_bytes_of, file_size_cons by done. done.
Qed.

Lemma image_app f l1 l2 : image f (l1 ++ l2) = image f l1 ++ image f l2.
Proof. unfold image. by rewrite fmap_app, concat_app. Qed.

Lemma sizes_app l1 l2 : sizes (l1 ++ l2) = sizes l1 + sizes l2.
Proof. induction l1 as [|sec l1 IH]; [done|]. change (s_size sec + sizes (l1 ++ l2) = s_size sec + sizes l1 + sizes l2). lia. Qed.

Lemma file_size_app l1 l2 : file_size (l1 ++ l2) = file_size l1 + file_size l2.
Proof. unfold file_size. by rewrite filter_app, sizes_app. Qed.

Lemma file_size_nonneg secs : Forall (fun sec => 0 <= s_size sec) secs -> 0 <= file_size secs <= sizes secs.
Proof.
  induction 1 as [|sec secs Hs _ IH]; [done|]. rewrite file_size_cons. change (sizes (sec :: secs)) with (s_size sec + sizes secs).
  destruct (in_file sec); lia.
Qed.

(** A byte of a section in the image. *)
Lemma image_byte f secs i sec j : Forall (readable f) secs -> Forall (fun sec => 0 <= s_size sec) secs ->
  secs !! i = Some sec -> in_file sec = true -> 0 <= j < s_size sec ->
  image f secs !! Z.to_nat (file_size (take i secs) + j) = f !! Z.to_nat (s_scnptr sec + j).
Proof.
  intros Hr Hz Hi Hin Hj. pose proof (take_drop_middle secs i sec Hi) as E.
  assert (Z.of_nat (length (image f (take i secs))) = file_size (take i secs)) as Hl by (apply length_image; by apply Forall_take).
  assert (readable f sec) as Hrs by (by eapply Forall_lookup in Hr).
  pose proof (length_bytes_of f sec Hrs ltac:(lia)) as Hb. rewrite Hin in Hb.
  assert (image f secs = image f (take i secs) ++ bytes_of f sec ++ image f (drop (S i) secs)) as ->
    by exact (eq_trans (f_equal (image f) (eq_sym E)) (image_app f (take i secs) (sec :: drop (S i) secs))).
  rewrite lookup_app_r by lia. rewrite lookup_app_l by lia. unfold bytes_of in *. rewrite Hin in *.
  rewrite lookup_take_lt, lookup_drop by lia. f_equal. destruct (Hrs ltac:(lia)) as (_ & _ & Hp). specialize (Hp Hin). lia.
Qed.

Lemma header_bytes_i8 big h : Forall is_i8 (header_bytes big h).
Proof.
  unfold header_bytes, ints_bytes. apply Forall_concat, Forall_fmap, Forall_true. intros x. unfold compose, word_bytes.
  destruct big; cbn; repeat constructor; apply i8_range.
Qed.

Lemma image_i8 f secs : Forall is_i8 f -> Forall is_i8 (image f secs).
Proof.
  intros Hf. apply Forall_concat, Forall_fmap, Forall_true. intros sec. unfold compose, bytes_of. destruct (in_file sec); [|constructor].
  by apply Forall_take, Forall_drop.
Qed.

(** C32: A program from the linker to its memory: for a COFF file with at most one
    section each of code, initialised and uninitialised data, linked from address 0
    on without gaps, on a host of either byte order, coff2noff exits with 0 and leaves
    a file that the constructor of AddrSpace accepts, on a fresh machine; the new
    process then reads at the address of each byte of code and data what the COFF file
    has for it, and zero in the uninitialised data. *)
Theorem sections_loaded big f secs argc g0 m gI gw gs sd buf g gt gp s :
  linked f secs -> Forall is_i8 f -> 2 <= argc -> Forall is_i32 (noff_fields g0) -> fresh_machine m ->
  exists out v a, coff2noff big argc (Some f) true g0 = Ret (Some out) /\
    Initialize gI gw gs false sd = Ret v /\ new_AddrSpace big out buf g gt gp = Ret a /\
    let v' := set_space (Some s) (set_spaces (<[s := a]> (spaces v)) v) in
    core None 0 m v' /\
    forall i sec j, secs !! i = Some sec -> 0 <= j < s_size sec ->
      user_byte m v' s (s_paddr sec + j) = if in_file sec then f !! Z.to_nat (s_scnptr sec + j) else Some 0.
Proof.
  intros [Hc Hplace] Hf Hargc Hg Hm. destruct (coff2noff_ok big f secs argc g0 Hc Hargc Hg) as (h & E & Hh & Ht).
  pose proof Hc as [_ Hr _ Hz Hsm]. set (out := header_bytes big h ++ image f secs) in *.
  assert (Forall is_i8 out) as Ho by (apply Forall_app_2; [apply header_bytes_i8 | by apply image_i8]).
  destruct (image_loaded big h out m gI gw gs sd buf g gt gp s Hm (header_image big h (image f secs) Hh ltac:(lia)) Ho)
    as (v & a & Hv & Ha & K & _ & _ & _ & _ & Hcont & _).
  exists out, v, a. split; [done|]. split; [done|]. split; [done|]. split; [done|]. intros i sec j Hi Hj.
  destruct Hh as (_ & _ & Hsz). pose proof (pages_for_spec h ltac:(unfold total in Ht; lia)) as [_ Hpg].
  assert (0 <= s_paddr sec + j < sizes secs /\ out !! (40 + Z.to_nat (s_paddr sec + j))%nat =
    if in_file sec then f !! Z.to_nat (s_scnptr sec + j) else None) as [Hrange Hbyte].
  { pose proof (Hplace i sec Hi ltac:(lia)) as Hp. pose proof (file_size_nonneg secs Hz). unfold out.
    rewrite lookup_app_r by (rewrite length_noff_bytes; lia). rewrite length_noff_bytes, Nat.add_comm, Nat.add_sub.
    destruct (in_file sec) eqn:Ei.
    - rewrite Hp, (image_byte f secs i sec j Hr Hz Hi Ei Hj). split; [|done]. pose proof (take_drop_middle secs i sec Hi) as E1.
      assert (sizes secs = sizes (take i secs) + (s_size sec + sizes (drop (S i) secs))) as ->
        by exact (eq_trans (f_equal sizes (eq_sym E1)) (sizes_app (take i secs) (sec :: drop (S i) secs))).
      pose proof (file_size_nonneg (take i secs) ltac:(by apply Forall_take)).
      pose proof (file_size_nonneg (drop (S i) secs) ltac:(by apply Forall_drop)). lia.
    - split; [lia|]. apply lookup_ge_None. pose proof (length_image f secs Hr Hz). lia. }
  set (x := s_paddr sec + j) in *. pose proof (Z.div_mod x 128 ltac:(lia)). pose proof (Z.mod_pos_bound x 128 ltac:(lia)).
  assert (0 <= x / 128) by (apply Z.div_pos; lia).
  assert (x / 128 < pages_for h) as Hpn.
  { unfold pages_for. change (segSize (code h) + segSize (initData h) + segSize (uninitData h)) with (total h). rewrite Ht.
    pose proof (Z.div_mod (sizes secs + 127) 128 ltac:(lia)). pose proof (Z.mod_pos_bound (sizes secs + 127) 128 ltac:(lia)). lia. }
  unfold user_byte. rewrite Hcont, decide_True by (split; [done | lia]). cbn [mbind option_bind].
  rewrite file_page_byte by (unfold page_size; lia).
  replace (Z.to_nat (40 + Z.of_nat (Z.to_nat (x / 128)) * 128) + Z.to_nat (x mod 128))%nat with (40 + Z.to_nat x)%nat by lia.
  rewrite Hbyte. destruct (in_file sec) eqn:Ei; [|done]. destruct (f !! Z.to_nat (s_scnptr sec + j)) eqn:Ef; [done|].
  apply lookup_ge_None in Ef. assert (readable f sec) as Hrs by (by eapply Forall_lookup in Hr).
  destruct (Hrs ltac:(lia)) as (_ & _ & Hp). specialize (Hp Ei). lia.
Qed.

(** A program with one section of each kind, the headers in another order than the
    sections. *)
Module Demo.

Definition name8 (n : string) : list Z := take 8 (chars n ++ replicate 8 0).
Definition scnhdr_bytes (n : string) (paddr size scnptr : Z) : list Z :=
  name8 n ++ le_bytes 4 paddr ++ le_bytes 4 paddr ++ le_bytes 4 size ++ le_bytes 4 scnptr ++ replicate 16 0.

Definition small_coff : list Z :=
  le_bytes 2 MIPSELMAGIC ++ le_bytes 2 3 ++ replicate 16 0 ++ le_bytes 2 OMAGIC ++ replicate 54 0 ++
  scnhdr_bytes ".bss" 20 8 0 ++ scnhdr_bytes ".text" 0 12 204 ++ scnhdr_bytes ".rdata" 12 8 196 ++
  replicate 8 7 ++ replicate 12 5.

Definition small_sections : list scnhdr :=
  [mkScnhdr (name8 ".bss") 20 8 0; mkScnhdr (name8 ".text") 0 12 204; mkScnhdr (name8 ".rdata") 12 8 196].

Lemma small_coff_ok : is_coff small_coff small_sections.
Proof.
  split; [by apply Nat.leb_le; vm_compute | by vm_compute..|]. intros i sec Hi.
  do 3 (destruct i as [|i]; [injection Hi as <-; by vm_compute|]). done.
Qed.

Lemma small_linked : linked small_coff small_sections.
Proof.
  split; [split; [apply small_coff_ok|..]|].
  - apply Forall_lookup. intros i sec Hi. do 3 (destruct i as [|i]; [injection Hi as <-; intros _;
      (split; [by vm_compute|]); (split; [done|]); intros Hin; vm_compute in Hin; first [done | by vm_compute]|]). done.
  - intros []; intros; by apply Nat.leb_le; vm_compute.
  - by repeat constructor.
  - done.
  - intros i sec Hi _. do 3 (destruct i as [|i]; [injection Hi as <-; by vm_compute|]). done.
Qed.

Lemma all_i8 l : forallb (fun b => (-128 <=? b) && (b <? 128)) l = true -> Forall is_i8 l.
Proof.
  intros H. apply Forall_forall. intros b Hb%list_elem_of_In. rewrite forallb_forall in H. apply H in Hb. unfold is_i8. zbool. lia.
Qed.

Lemma sections_loaded_witness : exists out v a,
  coff2noff true 3 (Some small_coff) true (mkNoff 9 (mkSegment 9 9 9) (mkSegment 8 8 8) (mkSegment 7 7 7)) = Ret (Some out) /\
  Initialize (fun _ => Boot.Demo.no_entry) (fun _ => 5) (fun _ => 6) false 1 = Ret v /\
  new_AddrSpace true out [] Boot.Demo.garbage (fun _ => 9) (fun _ => 8) = Ret a /\
  user_byte Boot.Demo.machine (set_space (Some 1%positive) (set_spaces (<[1%positive := a]> (spaces v)) v)) 1 13 = Some 7.
Proof.
  destruct (sections_loaded true small_coff small_sections 3 (mkNoff 9 (mkSegment 9 9 9) (mkSegment 8 8 8) (mkSegment 7 7 7))
    Boot.Demo.machine (fun _ => Boot.Demo.no_entry) (fun _ => 5) (fun _ => 6) 1 [] Boot.Demo.garbage (fun _ => 9) (fun _ => 8) 1%positive)
    as (out & v & a & Ho & Hv & Ha & _ & Hb).
  - apply small_linked.
  - apply all_i8. by vm_compute.
  - lia.
  - unfold noff_fields. cbn. repeat constructor; done.
  - apply Boot.Demo.machine_fresh.
  - exists out, v, a. split; [exact Ho|]. split; [exact Hv|]. split; [exact Ha|].
    rewrite (Hb 2%nat (mkScnhdr (name8 ".rdata") 12 8 196) 1 eq_refl ltac:(cbn; lia) : user_byte _ _ _ 13 = _). by vm_compute.
Defined.

(** Two pieces of uninitialised data are refused when they are contiguous, and
    accepted when they are not, with a size that leaves out the gap; the comment asks
    for the opposite. *)
Definition two_bss (paddr : Z) : list Z :=
  le_bytes 2 MIPSELMAGIC ++ le_bytes 2 2 ++ replicate 16 0 ++ le_bytes 2 OMAGIC ++ replicate 54 0 ++
  scnhdr_bytes ".bss" 0 8 0 ++ scnhdr_bytes ".sbss" paddr 4 0.

Example contiguous_bss_refused : coff2noff false 3 (Some (two_bss 8)) true Boot.Demo.noff = Ret None.
Proof. by vm_compute. Qed.

Example distant_bss_accepted :
  (let! r := coff2noff false 3 (Some (two_bss 64)) true Boot.Demo.noff in
   match r with Some out => let! h := load_noff false out in Ret (Some h) | None => Ret None end) =
  Ret (Some (mkNoff NOFFMAGIC (mkSegment 0 40 0) (mkSegment 128 140 0) (mkSegment 0 200 12))).
Proof. by vm_compute. Qed.
End Demo.
