(* ===== verification/FileHdr.v ===== *)
(** * File headers (filesys/filehdr.h, filesys/filehdr.cc)

    A header fills one sector: the length of the file, the number of its sectors
    and their numbers. Allocate takes the sectors from the free map, Deallocate
    gives them back. The object is copied to and from the disk as raw bytes, in
    the byte order of the host. Allocate checks that the disk has room, not that
    the header has: an entry past the table is written outside the object. *)

From S2P Require Import Prelude BitMap Machine Disk SynchDisk Ints.

(** ** The class *)

Definition NumDirect : Z := Z.quot (SectorSize - 2 * 4) 4.
Definition MaxFileSize : Z := NumDirect * SectorSize.

Record FileHeader := mkHeader {
  numBytes : Z;
  numSectors : Z;
  dataSectors : list Z  (* int[NumDirect] *)
}.

Definition set_dataSectors ds h := mkHeader (numBytes h) (numSectors h) ds.

(** The loop that takes a free sector for every block. *)
Definition take_sector (i : Z) '((freeMap, h) : BitMap * FileHeader) : C (BitMap * FileHeader) :=
  let! (s, freeMap) := Find freeMap in
  let! ds := aset (dataSectors h) i s in Ret (freeMap, set_dataSectors ds h).

Definition Allocate (freeMap : BitMap) (fileSize : Z) (h : FileHeader) : C (bool * (BitMap * FileHeader)) :=
  let h := mkHeader fileSize (divRoundUp fileSize SectorSize) (dataSectors h) in
  let! n := NumClear freeMap in
  if n <? numSectors h then Ret (false, (freeMap, h))
  else let! r := for_upto 0 (Z.to_nat (numSectors h)) take_sector (freeMap, h) in Ret (true, r).

Definition give_sector (h : FileHeader) (i : Z) (freeMap : BitMap) : C BitMap :=
  let! s := aref (dataSectors h) i in
  let! marked := Test freeMap s in
  let! _ := ASSERT marked in Clear freeMap s.

Definition Deallocate (freeMap : BitMap) (h : FileHeader) : C BitMap :=
  for_upto 0 (Z.to_nat (numSectors h)) (give_sector h) freeMap.

Section OnDisk.
Variable big : bool.

(** The object as its bytes, and back. *)
Definition header_bytes (h : FileHeader) : list Z :=
  ints_bytes big (numBytes h :: numSectors h :: dataSectors h).

Definition header_of (bs : list Z) : FileHeader :=
  match ints_of big bs with n :: m :: ds => mkHeader n m ds | _ => mkHeader 0 0 [] end.

Definition FetchFrom (sector : Z) (h : FileHeader) (ss : Sectors) : C FileHeader :=
  let! bs := ReadSector sector (header_bytes h) 0 ss in Ret (header_of bs).

Definition WriteBack (sector : Z) (h : FileHeader) (ss : Sectors) : C Sectors :=
  WriteSector sector (header_bytes h) 0 ss.
End OnDisk.

Definition ByteToSector (h : FileHeader) (offset : Z) : C Z := aref (dataSectors h) (Z.quot offset SectorSize).

Definition FileLength (h : FileHeader) : Z := numBytes h.

(** ** Well-formed headers *)

(** A header object: thirty [int]s after the two counts. *)
Definition is_header (h : FileHeader) : Prop :=
  length (dataSectors h) = 30%nat /\ Forall is_i32 (numBytes h :: numSectors h :: dataSectors h).

(** The sectors of the file. *)
Definition used (h : FileHeader) : list Z := take (Z.to_nat (numSectors h)) (dataSectors h).

Record wf_header (h : FileHeader) : Prop := {
  wh_header : is_header h;
  wh_length : 0 <= numBytes h;
  wh_sectors : numSectors h = divRoundUp (numBytes h) 128;
  wh_direct : numSectors h <= 30;
  wh_range : Forall (fun s => 0 <= s < NumSectors) (used h);
  wh_NoDup : NoDup (used h)
}.

Lemma length_header_bytes big h : is_header h -> length (header_bytes big h) = 128%nat.
Proof. intros [Hl _]. unfold header_bytes. rewrite length_ints_bytes. cbn [length]. lia. Qed.

Lemma header_roundtrip big h : is_header h -> header_of big (header_bytes big h) = h.
Proof.
  intros [Hl Hi]. unfold header_of, header_bytes.
  rewrite <- (app_nil_r (ints_bytes big _)), ints_roundtrip by done. by destruct h.
Qed.

Lemma length_used h : wf_header h -> length (used h) = Z.to_nat (numSectors h).
Proof. intros [[Hl _] _ _ Hd _ _]. unfold used. rewrite length_take. lia. Qed.

Lemma ReadSector_spec n buf k ss sec : wf_sectors ss -> ss !! Z.to_nat n = Some sec -> 0 <= n < NumSectors ->
  ReadSector n buf k ss = copy_into buf k sec.
Proof.
  intros Hw Hs Hn. unfold ReadSector. destruct (in_range_dec n) as [[_ ->]|[[] _]]; [|done]. cbn [ASSERT bind].
  by rewrite (proj2 (aref_Ret ss n sec)) by (split; [lia | done]).
Qed.

Lemma WriteSector_spec n buf k ss bs : wf_sectors ss -> 0 <= n < NumSectors -> copy_from buf k SectorSize = Ret bs ->
  WriteSector n buf k ss = Ret (<[Z.to_nat n := bs]> ss).
Proof.
  intros [Hl _] Hn Hc. unfold WriteSector. destruct (in_range_dec n) as [[_ ->]|[[] _]]; [|done]. cbn [ASSERT bind].
  rewrite Hc. cbn [bind]. apply aset_in. lia.
Qed.

Lemma copy_into_full buf bs : length bs = length buf -> copy_into buf 0 bs = Ret bs.
Proof.
  intros Hl. unfold copy_into. rewrite !(proj2 (Z.leb_le _ _)) by lia. cbn [andb].
  change (Z.to_nat 0) with 0%nat. cbn [take app]. rewrite Nat.add_0_l, drop_ge, app_nil_r by lia. done.
Qed.

Lemma copy_from_full bs : Z.of_nat (length bs) = SectorSize -> copy_from bs 0 SectorSize = Ret bs.
Proof.
  intros Hl. unfold copy_from. rewrite !(proj2 (Z.leb_le _ _)) by (unfold SectorSize in *; lia). cbn [andb].
  change (Z.to_nat 0) with 0%nat. rewrite drop_0, take_ge by lia. done.
Qed.

Lemma header_WriteBack_spec big n h ss : wf_sectors ss -> 0 <= n < NumSectors -> is_header h ->
  WriteBack big n h ss = Ret (<[Z.to_nat n := header_bytes big h]> ss).
Proof.
  intros Hw Hn Hh. unfold WriteBack. apply WriteSector_spec; [done..|]. apply copy_from_full.
  by rewrite length_header_bytes.
Qed.

Lemma header_FetchFrom_spec big n h h0 ss : wf_sectors ss -> 0 <= n < NumSectors -> is_header h -> is_header h0 ->
  ss !! Z.to_nat n = Some (header_bytes big h) -> FetchFrom big n h0 ss = Ret h.
Proof.
  intros Hw Hn Hh H0 Hs. unfold FetchFrom. rewrite (ReadSector_spec n _ 0 ss (header_bytes big h)) by done.
  rewrite copy_into_full by (by rewrite !length_header_bytes). cbn [bind]. by rewrite header_roundtrip.
Qed.

(** ** Allocation *)

Lemma divRoundUp_direct n : 0 <= n <= MaxFileSize -> 0 <= divRoundUp n 128 <= 30.
Proof. intros Hn. change MaxFileSize with 3840 in Hn. pose proof (divRoundUp_spec n 128). pose proof (divRoundUp_nonneg n 128). lia. Qed.

Lemma used_prefix i h : 0 <= i <= 30 -> is_header h -> forall s, is_i32 s ->
  i < 30 -> let h' := set_dataSectors (<[Z.to_nat i := s]> (dataSectors h)) h in
  is_header h' /\ take (Z.to_nat (i + 1)) (dataSectors h') = take (Z.to_nat i) (dataSectors h) ++ [s].
Proof.
  intros Hi [Hl Hf] s Hs Hlt. cbn. split.
  - split; cbn; [by rewrite length_insert|]. inversion_clear Hf as [|? ? Hn Hf']. inversion_clear Hf' as [|? ? Hm Hd].
    constructor; [done|]. constructor; [done|]. by apply Forall_insert.
  - replace (Z.to_nat (i + 1)) with (S (Z.to_nat i)) by lia.
    rewrite (take_S_r _ _ s) by (apply list_lookup_insert_eq; lia). by rewrite take_insert_ge.
Qed.

(** The state of the loop before its [i]-th turn: [free] were clear at the start. *)
Record taking (free : list Z) (fm0 : BitMap) (n m : Z) (i : Z) (r : BitMap * FileHeader) : Prop := {
  tk_wf : wf r.1 /\ BitMap.numBits r.1 = BitMap.numBits fm0;
  tk_header : is_header r.2 /\ numBytes r.2 = n /\ numSectors r.2 = m;
  tk_taken : take (Z.to_nat i) (dataSectors r.2) = take (Z.to_nat i) free;
  tk_left : clear_bits r.1 = drop (Z.to_nat i) free;
  tk_bits : forall j, 0 <= j -> bit r.1 j = bool_decide (j ∈ take (Z.to_nat i) free) || bit fm0 j
}.

Lemma take_sector_step free fm0 n m i r : BitMap.numBits fm0 = NumSectors -> 0 <= i < 30 -> i < Z.of_nat (length free) ->
  taking free fm0 n m i r -> exists r', take_sector i r = Ret r' /\ taking free fm0 n m (i + 1) r'.
Proof.
  intros Hnb Hi Hlen [[Hwf Hb] (Hh & Hn & Hm) Ht Hl Hbits]. destruct r as [fm h]. cbn [fst snd] in *.
  destruct (lookup_lt_is_Some_2 free (Z.to_nat i)) as [s Hs]; [lia|].
  pose proof (Find_allocates_least_spec fm Hwf) as Hf. rewrite Hl, (drop_S free s) in Hf by done.
  destruct Hf as (fm' & Hf & Hwf' & Hb' & Hcb & Hr & Hbit & _).
  unfold take_sector. rewrite Hf. cbn [bind]. destruct Hh as [Hd Hfa] eqn:E; clear E.
  rewrite aset_in by lia. cbn [bind]. eexists. split; [reflexivity|].
  destruct (used_prefix i h ltac:(lia) (conj Hd Hfa) s ltac:(unfold is_i32, NumSectors, SectorsPerTrack, NumTracks in *; lia) ltac:(lia)) as [Hh' Ht'].
  replace (Z.to_nat (i + 1)) with (S (Z.to_nat i)) in * by lia. pose proof (take_S_r free _ s Hs) as E.
  split; cbn [fst snd]; replace (Z.to_nat (i + 1)) with (S (Z.to_nat i)) by lia.
  - split; [done | congruence].
  - done.
  - by rewrite Ht', Ht, E.
  - done.
  - intros j Hj. rewrite Hbit, Hbits, E by done. rewrite orb_assoc. f_equal.
    destruct (Z.eqb_spec j s) as [->|Hne]; cbn [orb].
    + symmetry. apply bool_decide_eq_true. set_solver.
    + apply bool_decide_ext. set_solver.
Qed.

Lemma Allocate_spec fm fileSize h : wf fm -> BitMap.numBits fm = NumSectors -> is_header h -> 0 <= fileSize <= MaxFileSize ->
  let n := divRoundUp fileSize 128 in
  if Z.of_nat (length (clear_bits fm)) <? n then exists h', Allocate fm fileSize h = Ret (false, (fm, h'))
  else exists fm' h', Allocate fm fileSize h = Ret (true, (fm', h')) /\ wf_header h' /\ numBytes h' = fileSize /\
    used h' = take (Z.to_nat n) (clear_bits fm) /\ clear_bits fm' = drop (Z.to_nat n) (clear_bits fm) /\ wf fm' /\ BitMap.numBits fm' = NumSectors /\
    (forall j, 0 <= j -> bit fm' j = bool_decide (j ∈ used h') || bit fm j).
Proof.
  intros Hwf Hnb Hh Hsz n. pose proof (divRoundUp_direct fileSize Hsz) as Hn. fold n in Hn.
  unfold Allocate. change SectorSize with 128. fold n. rewrite NumClear_spec by done. cbn [bind numSectors].
  destruct (Z.ltb_spec (Z.of_nat (length (clear_bits fm))) n) as [|Hge]; [by eexists|].
  set (h0 := mkHeader fileSize n (dataSectors h)). change MaxFileSize with 3840 in Hsz.
  assert (is_header h0) as Hh0.
  { destruct Hh as [Hd Hf]. split; [done|]. inversion_clear Hf as [|? ? _ Hf']. inversion_clear Hf' as [|? ? _ Hds].
    constructor; [unfold is_i32; cbn; lia|]. constructor; [unfold is_i32; cbn; lia | done]. }
  destruct (for_upto_inv (taking (clear_bits fm) fm fileSize n) 0 (Z.to_nat n) take_sector (fm, h0)) as (r & -> & Hr).
  - split; [done | done | done | done |]. intros j Hj. rewrite bool_decide_false; [done|]. set_solver.
  - intros i r Hi Hr. apply take_sector_step; [done | lia | lia | done].
  - cbn [bind]. destruct r as [fm' h']. rewrite Z.add_0_l, Z2Nat.id in Hr by lia.
    destruct Hr as [[Hwf' Hb'] (Hh' & Hsz' & Hm') Ht Hl Hbits]. cbn [fst snd] in *.
    assert (used h' = take (Z.to_nat n) (clear_bits fm)) as Hu by (unfold used; by rewrite Hm').
    exists fm', h'. split; [reflexivity|]. split; [|by rewrite Hu, Hb'].
    split; [done | lia | by rewrite Hm', Hsz' | lia | |]; rewrite Hu.
    + apply Forall_take, Forall_forall. intros s [Hs _]%clear_bits_in. by rewrite <- Hnb.
    + eapply sublist_NoDup; [apply NoDup_clear_bits | apply sublist_take].
Qed.

(** A file of more than thirty sectors does not fit the table: its thirty-first
    entry is written outside the object. *)
Lemma Allocate_overflows fm fileSize h : wf fm -> BitMap.numBits fm = NumSectors -> is_header h -> MaxFileSize < fileSize < 2^31 ->
  divRoundUp fileSize 128 <= Z.of_nat (length (clear_bits fm)) -> Allocate fm fileSize h = Undef.
Proof.
  intros Hwf Hnb Hh Hsz Hroom. change MaxFileSize with 3840 in Hsz. pose proof (divRoundUp_spec fileSize 128 ltac:(lia) ltac:(lia)) as Hd.
  unfold Allocate. change SectorSize with 128. set (n := divRoundUp fileSize 128) in *.
  rewrite NumClear_spec by done. cbn [bind numSectors]. rewrite (proj2 (Z.ltb_ge _ _)) by lia.
  set (h0 := mkHeader fileSize n (dataSectors h)).
  assert (is_header h0) as Hh0.
  { destruct Hh as [Hdl Hf]. split; [done|]. inversion_clear Hf as [|? ? _ Hf']. inversion_clear Hf' as [|? ? _ Hds].
    constructor; [unfold is_i32; cbn; lia|]. constructor; [unfold is_i32; cbn; lia | done]. }
  replace (Z.to_nat n) with (30 + S (Z.to_nat n - 31))%nat by lia. rewrite for_upto_app.
  destruct (for_upto_inv (taking (clear_bits fm) fm fileSize n) 0 30 take_sector (fm, h0)) as ([fm' h'] & -> & Hr).
  - split; [done | done | done | done |]. intros j Hj. rewrite bool_decide_false; [done|]. set_solver.
  - intros i r Hi Hr. apply take_sector_step; [done | lia | lia | done].
  - destruct Hr as [[Hwf' Hb'] ([Hlen' _] & _) _ Hl _]. cbn [fst snd] in *. cbn [bind for_upto]. unfold take_sector.
    pose proof (Find_allocates_least_spec fm' Hwf') as Hf. rewrite Hl in Hf.
    destruct (drop _ (clear_bits fm)) as [|s free]; [|destruct Hf as (fm2 & Hf & _)]; rewrite Hf; cbn [bind];
      unfold aset; rewrite Hlen'; reflexivity.
Qed.

(** ** Deallocation *)

Lemma Deallocate_spec fm h : wf fm -> BitMap.numBits fm = NumSectors -> wf_header h ->
  Forall (fun s => bit fm s = true) (used h) ->
  exists fm', Deallocate fm h = Ret fm' /\ wf fm' /\ BitMap.numBits fm' = NumSectors /\
    (forall j, 0 <= j -> bit fm' j = negb (bool_decide (j ∈ used h)) && bit fm j).
Proof.
  intros Hwf Hnb Hh Hm. pose proof (length_used h Hh) as Hlu. unfold Deallocate.
  destruct (for_upto_inv (fun i fm' => wf fm' /\ BitMap.numBits fm' = NumSectors /\
      forall j, 0 <= j -> bit fm' j = negb (bool_decide (j ∈ take (Z.to_nat i) (used h))) && bit fm j)
    0 (Z.to_nat (numSectors h)) (give_sector h) fm) as (fm' & -> & Hwf' & Hb' & Hj).
  - split; [done|]. split; [done|]. intros j Hj. rewrite bool_decide_false; [done|]. cbn. set_solver.
  - intros i fm1 Hi (Hwf1 & Hb1 & Hbits). destruct (lookup_lt_is_Some_2 (used h) (Z.to_nat i)) as [s Hs]; [lia|].
    pose proof (Forall_lookup_1 _ _ _ _ Hm Hs) as Hms. pose proof (Forall_lookup_1 _ _ _ _ (wh_range h Hh) Hs) as Hr. cbn in Hms, Hr.
    assert (s ∉ take (Z.to_nat i) (used h)) as Hn.
    { intros (k & Hk)%list_elem_of_lookup_1. apply lookup_take_Some in Hk as [Hk Hlt].
      pose proof (NoDup_lookup _ _ _ _ (wh_NoDup h Hh) Hk Hs). lia. }
    unfold give_sector. unfold used in Hs at 1. apply lookup_take_Some in Hs as [Hs _].
    rewrite (proj2 (aref_Ret (dataSectors h) i s)) by (split; [lia | done]). cbn [bind].
    rewrite Test_bit, Hbits, Hms, bool_decide_false by (done || lia). cbn [negb andb ASSERT bind].
    destruct (Clear_spec fm1 s Hwf1 ltac:(lia)) as (fm2 & -> & Hwf2 & Hb2 & Hc).
    eexists. split; [reflexivity|]. split; [done|]. split; [congruence|]. intros j Hj. rewrite Hc, Hbits by done.
    replace (Z.to_nat (i + 1)) with (S (Z.to_nat i)) by lia.
    rewrite (take_S_r _ _ s) by (unfold used; apply lookup_take_Some; split; [done | lia]).
    destruct (Z.eqb_spec j s) as [->|Hne]; cbn [negb andb].
    + rewrite bool_decide_true; [done|]. set_solver.
    + f_equal. f_equal. apply bool_decide_ext. set_solver.
  - exists fm'. split; [done|]. split; [done|]. split; [done|]. intros j Hj'. rewrite Hj by done.
    by rewrite Z.add_0_l, Nat2Z.id, take_ge by lia.
Qed.
