(* ===== verification/OpenFile.v ===== *)
(** * Open files (filesys/openfile.h, filesys/openfile.cc)

    An open file is its header in memory and a position. ReadAt and WriteAt move
    any range of bytes through a buffer of whole sectors; WriteAt first reads the
    sectors it changes in part. The theorems: a file is a flat array of bytes of
    fixed length, and a write touches no sector of another file. A position below
    zero is not checked by the code and is undefined behaviour. *)

From S2P Require Import Prelude BitMap Machine Disk SynchDisk FileHdr.

Record OpenFile := mkOpen { hdr : FileHeader; seekPosition : Z }.

Section Code.
Variable big : bool.
Variable newmem : Z -> list Z.  (* what [new char[n]] returns *)

Definition new_chars (n : Z) : C (list Z) := if n <? 0 then Undef else Ret (newmem n).

(** [garbage]: the header object before it is read. *)
Definition new_OpenFile (garbage : FileHeader) (sector : Z) (ss : Sectors) : C OpenFile :=
  let! h := FetchFrom big sector garbage ss in Ret (mkOpen h 0).

Definition Seek (position : Z) (f : OpenFile) : OpenFile := mkOpen (hdr f) position.

Definition Length (f : OpenFile) : Z := FileLength (hdr f).

(** A request cut off at the end of the file. *)
Definition clip (fileLength numBytes position : Z) : Z :=
  if fileLength <? i32 (position + numBytes) then fileLength - position else numBytes.

(** [into] points to index [at_] of a buffer. *)
Definition ReadAt (h : FileHeader) (into : list Z) (at_ numBytes position : Z) (ss : Sectors) : C (Z * list Z) :=
  let fileLength := FileLength h in
  if (numBytes <=? 0) || (fileLength <=? position) then Ret (0, into)
  else
    let numBytes := clip fileLength numBytes position in
    let firstSector := divRoundDown position SectorSize in
    let lastSector := divRoundDown (i32 (position + numBytes - 1)) SectorSize in
    let numSectors := 1 + lastSector - firstSector in
    let! buf := new_chars (numSectors * SectorSize) in
    let! buf := for_upto firstSector (Z.to_nat numSectors)
      (fun i buf => let! s := ByteToSector h (i * SectorSize) in
                    ReadSector s buf ((i - firstSector) * SectorSize) ss) buf in
    let! bs := copy_from buf (position - firstSector * SectorSize) numBytes in
    let! into := copy_into into at_ bs in
    Ret (numBytes, into).

(** The sectors that are written in part are read first. *)
Definition partial_sectors (h : FileHeader) (firstSector lastSector numBytes position : Z) (buf : list Z) (ss : Sectors) : C (list Z) :=
  let firstAligned := position =? firstSector * SectorSize in
  let lastAligned := position + numBytes =? (lastSector + 1) * SectorSize in
  let! buf := (if firstAligned then Ret buf
               else let! (_, buf) := ReadAt h buf 0 SectorSize (firstSector * SectorSize) ss in Ret buf) in
  if negb lastAligned && (negb (firstSector =? lastSector) || firstAligned) then
    let! (_, buf) := ReadAt h buf ((lastSector - firstSector) * SectorSize) SectorSize (lastSector * SectorSize) ss in Ret buf
  else Ret buf.

Definition WriteAt (h : FileHeader) (from : list Z) (numBytes position : Z) (ss : Sectors) : C (Z * Sectors) :=
  let fileLength := FileLength h in
  if (numBytes <=? 0) || (fileLength <=? position) then Ret (0, ss)
  else
    let numBytes := clip fileLength numBytes position in
    let firstSector := divRoundDown position SectorSize in
    let lastSector := divRoundDown (i32 (position + numBytes - 1)) SectorSize in
    let numSectors := 1 + lastSector - firstSector in
    let! buf := new_chars (numSectors * SectorSize) in
    let! buf := partial_sectors h firstSector lastSector numBytes position buf ss in
    let! bs := copy_from from 0 numBytes in
    let! buf := copy_into buf (position - firstSector * SectorSize) bs in
    let! ss := for_upto firstSector (Z.to_nat numSectors)
      (fun i ss => let! s := ByteToSector h (i * SectorSize) in
                   WriteSector s buf ((i - firstSector) * SectorSize) ss) ss in
    Ret (numBytes, ss).

Definition Read (f : OpenFile) (into : list Z) (numBytes : Z) (ss : Sectors) : C (Z * (list Z * OpenFile)) :=
  let! (result, into) := ReadAt (hdr f) into 0 numBytes (seekPosition f) ss in
  Ret (result, (into, Seek (seekPosition f + result) f)).

Definition Write (f : OpenFile) (from : list Z) (numBytes : Z) (ss : Sectors) : C (Z * (Sectors * OpenFile)) :=
  let! (result, ss) := WriteAt (hdr f) from numBytes (seekPosition f) ss in
  Ret (result, (ss, Seek (seekPosition f + result) f)).
End Code.

(** ** The file as an array of bytes *)

Definition block (ss : Sectors) (s : Z) : list Z := default [] (ss !! Z.to_nat s).

(** The sectors of the file, one after the other, and the part the file has. *)
Definition file_data (ss : Sectors) (h : FileHeader) : list Z := concat (block ss <$> used h).
Definition contents (ss : Sectors) (h : FileHeader) : list Z := take (Z.to_nat (numBytes h)) (file_data ss h).

Lemma lookup_concat_uniform {A} k (ls : list (list A)) l i :
  (0 < k)%nat -> Forall (fun l => length l = k) ls -> ls !! (i `div` k)%nat = Some l ->
  concat ls !! i = l !! (i `mod` k)%nat.
Proof.
  intros Hk Hf Hi. pose proof (Nat.div_mod i k ltac:(lia)) as E. pose proof (Nat.mod_upper_bound i k ltac:(lia)) as Hm.
  rewrite E at 1. rewrite <- lookup_drop, <- (piece_concat_uniform k _ ls l Hf Hi), lookup_take_lt by done. done.
Qed.

Lemma copy_into_lookup buf a bs : 0 <= a -> a + Z.of_nat (length bs) <= Z.of_nat (length buf) ->
  exists buf', copy_into buf a bs = Ret buf' /\ length buf' = length buf /\
    forall x, 0 <= x -> buf' !! Z.to_nat x =
      if decide (a <= x < a + Z.of_nat (length bs)) then bs !! Z.to_nat (x - a) else buf !! Z.to_nat x.
Proof.
  intros Ha Hl. unfold copy_into. rewrite !(proj2 (Z.leb_le _ _)) by lia. cbn [andb]. eexists. split; [reflexivity|].
  split; [rewrite !length_app, length_take, length_drop; lia|]. intros x Hx.
  assert (length (take (Z.to_nat a) buf) = Z.to_nat a) as Ht by (rewrite length_take; lia). case_decide.
  - rewrite lookup_app_r, Ht, lookup_app_l by lia. f_equal. lia.
  - destruct (Z.lt_ge_cases x a).
    + by rewrite lookup_app_l, lookup_take_lt by lia.
    + rewrite lookup_app_r, Ht, lookup_app_r, lookup_drop by lia. f_equal. lia.
Qed.

Lemma copy_from_lookup buf a n : 0 <= a -> 0 <= n -> a + n <= Z.of_nat (length buf) ->
  exists bs, copy_from buf a n = Ret bs /\ bs = take (Z.to_nat n) (drop (Z.to_nat a) buf) /\ Z.of_nat (length bs) = n.
Proof.
  intros. unfold copy_from. rewrite !(proj2 (Z.leb_le _ _)) by lia. cbn [andb]. eexists. split; [reflexivity|].
  split; [done|]. rewrite length_take, length_drop. lia.
Qed.

(** ** The sectors of a file *)

(** A disk and a file on it. *)
Definition on_disk (ss : Sectors) (h : FileHeader) : Prop := wf_sectors ss /\ wf_header h.

Lemma blocks_uniform ss h : on_disk ss h -> Forall (fun l => length l = 128%nat) (block ss <$> used h).
Proof.
  intros [Hw Hh]. apply Forall_fmap. eapply Forall_impl; [apply (wh_range h Hh)|]. intros s Hs.
  change (length (block ss s) = 128%nat). unfold block.
  destruct (sector_exists ss s Hw Hs) as (sec & -> & Hl). exact Hl.
Qed.

Lemma length_file_data ss h : on_disk ss h -> length (file_data ss h) = (128 * Z.to_nat (numSectors h))%nat.
Proof.
  intros Hd. unfold file_data. rewrite (length_concat_uniform 128) by by apply blocks_uniform.
  rewrite length_fmap, length_used by apply Hd. done.
Qed.

Lemma numSectors_bound h : wf_header h -> (numSectors h - 1) * 128 < numBytes h <= numSectors h * 128 /\ 0 <= numSectors h <= 30.
Proof.
  intros [_ H0 Hs Hd _ _]. pose proof (divRoundUp_spec (numBytes h) 128 H0 ltac:(lia)).
  pose proof (divRoundUp_nonneg (numBytes h) 128). lia.
Qed.

Lemma length_contents ss h : on_disk ss h -> Z.of_nat (length (contents ss h)) = numBytes h.
Proof.
  intros Hd. unfold contents. rewrite length_take, length_file_data by done.
  pose proof (numSectors_bound h (proj2 Hd)). pose proof (wh_length h (proj2 Hd)). lia.
Qed.

(** The [i]-th sector of a file, and where its bytes are in the file. *)
Lemma nth_sector ss h i : on_disk ss h -> 0 <= i < numSectors h ->
  exists s sec, ByteToSector h (i * SectorSize) = Ret s /\ used h !! Z.to_nat i = Some s /\ 0 <= s < NumSectors /\
    ss !! Z.to_nat s = Some sec /\ length sec = 128%nat /\
    take 128 (drop (128 * Z.to_nat i) (file_data ss h)) = sec.
Proof.
  intros [Hw Hh] Hi. destruct (lookup_lt_is_Some_2 (used h) (Z.to_nat i)) as [s Hs]; [rewrite length_used by done; lia|].
  pose proof (Forall_lookup_1 _ _ _ _ (wh_range h Hh) Hs) as Hr. cbn in Hr.
  destruct (sector_exists ss s Hw Hr) as (sec & Hsec & Hl). exists s, sec.
  split; [|split; [done|split; [done|split; [done|split; [done|]]]]].
  - unfold ByteToSector, SectorSize. rewrite Z.quot_mul by lia. apply aref_Ret. split; [lia|].
    unfold used in Hs. by apply lookup_take_Some in Hs as [? _].
  - unfold file_data. erewrite piece_concat_uniform; [reflexivity | by apply blocks_uniform |].
    rewrite list_lookup_fmap, Hs. cbn. unfold block. by rewrite Hsec.
Qed.

Lemma take_app_more {A} (l : list A) n m : take n l ++ take m (drop n l) = take (n + m) l.
Proof.
  revert n. induction l as [|x l IH]; intros n; [by rewrite drop_nil, !take_nil|].
  destruct n; [by rewrite drop_0|]. cbn. by rewrite IH.
Qed.

(** The loop that reads a run of sectors. *)
Lemma read_sectors ss h first n buf : on_disk ss h -> 0 <= first -> first + Z.of_nat n <= numSectors h ->
  length buf = (128 * n)%nat ->
  for_upto first n (fun i buf => let! s := ByteToSector h (i * SectorSize) in
                                 ReadSector s buf ((i - first) * SectorSize) ss) buf =
  Ret (take (128 * n) (drop (128 * Z.to_nat first) (file_data ss h))).
Proof.
  intros Hd H0 Hn Hl. set (X := drop _ (file_data ss h)).
  assert (128 * n <= length X)%nat as HX by (unfold X; rewrite length_drop, length_file_data by done; lia).
  destruct (for_upto_inv (fun i b => length b = (128 * n)%nat /\
      b = take (128 * Z.to_nat (i - first)) X ++ drop (128 * Z.to_nat (i - first)) buf)
    first n (fun i buf => let! s := ByteToSector h (i * SectorSize) in ReadSector s buf ((i - first) * SectorSize) ss) buf)
    as (b & -> & _ & ->).
  - rewrite Z.sub_diag. split; [done|]. done.
  - intros i b Hi (Hlb & ->). destruct (nth_sector ss h i Hd ltac:(lia)) as (s & sec & -> & _ & Hr & Hs & Hls & Hp). cbn [bind].
    rewrite (ReadSector_spec s _ _ ss sec) by (done || apply Hd). unfold SectorSize. set (m := Z.to_nat (i - first)) in *.
    assert (take 128 (drop (128 * m) X) = sec) as Hsec.
    { unfold X. rewrite drop_drop, <- Hp. do 2 f_equal. lia. }
    unfold copy_into. rewrite !(proj2 (Z.leb_le _ _)) by lia. cbn [andb]. eexists. split; [reflexivity|].
    replace (Z.to_nat ((i - first) * 128)) with (128 * m)%nat by lia. replace (Z.to_nat (i + 1 - first)) with (S m) by lia.
    assert (length (take (128 * m) X) = (128 * m)%nat) as Ht by (rewrite length_take; lia).
    split.
    + rewrite !length_app, length_take, !length_drop, length_app, length_take, length_drop in *. lia.
    + rewrite take_app_length' by done. rewrite <- Hsec at 1.
      rewrite app_assoc, take_app_more, Hls. replace (128 * m + 128)%nat with (128 * S m)%nat by lia. f_equal.
      rewrite drop_app_ge, Ht, drop_drop by lia. f_equal. lia.
  - f_equal. replace (Z.to_nat (first + Z.of_nat n - first)) with n by lia. by rewrite drop_ge, app_nil_r by lia.
Qed.

Lemma take_drop_take {A} (l : list A) k a n : (a + k <= n)%nat -> take k (drop a (take n l)) = take k (drop a l).
Proof.
  intros H. rewrite skipn_firstn_comm, take_take. f_equal. lia.
Qed.

(** Where a request of [k] bytes at [pos] lies. *)
Record spans (h : FileHeader) (pos k first last : Z) : Prop := {
  sp_first : first = pos / 128 /\ divRoundDown pos SectorSize = first;
  sp_last : last = (pos + k - 1) / 128 /\ divRoundDown (i32 (pos + k - 1)) SectorSize = last;
  sp_order : 0 <= first <= last /\ last < numSectors h;
  sp_start : 128 * first <= pos < 128 * first + 128;
  sp_end : 128 * last < pos + k <= 128 * last + 128
}.

Lemma spans_clip h pos n : wf_header h -> 0 <= pos < numBytes h -> 0 < n -> pos + n < 2^31 ->
  let k := Z.min n (numBytes h - pos) in
  clip (numBytes h) n pos = k /\ 0 < k /\ pos + k <= numBytes h /\ spans h pos k (pos / 128) ((pos + k - 1) / 128).
Proof.
  intros Hh Hp Hn Ho k. pose proof (numSectors_bound h Hh) as [Hb Hb30]. split.
  { unfold clip. rewrite i32_small by (unfold is_i32; lia). destruct (Z.ltb_spec (numBytes h) (pos + n)); lia. }
  split; [lia|]. split; [lia|].
  pose proof (Z.div_mod pos 128 ltac:(lia)). pose proof (Z.mod_pos_bound pos 128 ltac:(lia)).
  pose proof (Z.div_mod (pos + k - 1) 128 ltac:(lia)). pose proof (Z.mod_pos_bound (pos + k - 1) 128 ltac:(lia)).
  unfold divRoundDown, SectorSize. split; try lia.
  - split; [done|]. apply Z.quot_div_nonneg; lia.
  - split; [done|]. rewrite i32_small by (unfold is_i32; lia). apply Z.quot_div_nonneg; lia.
Qed.

Section Files.
Context (newmem : Z -> list Z) (newmem_length : forall n, 0 <= n -> Z.of_nat (length (newmem n)) = n).

(** The bytes that a request of [n] bytes at [pos] concerns. *)
Definition slice (l : list Z) (pos k : Z) : list Z := take (Z.to_nat k) (drop (Z.to_nat pos) l).

Lemma ReadAt_spec ss h into a n pos : on_disk ss h -> 0 <= pos -> pos + n < 2^31 ->
  ReadAt newmem h into a n pos ss =
  if (n <=? 0) || (numBytes h <=? pos) then Ret (0, into)
  else let k := Z.min n (numBytes h - pos) in
       let! into := copy_into into a (slice (contents ss h) pos k) in Ret (k, into).
Proof using newmem_length.
  intros Hd Hp Ho. unfold ReadAt, FileLength.
  destruct (Z.leb_spec n 0), (Z.leb_spec (numBytes h) pos); try reflexivity. cbn [orb].
  destruct (spans_clip h pos n (proj2 Hd) ltac:(lia) ltac:(lia) Ho) as (-> & Hk & Hend & S).
  set (k := Z.min n (numBytes h - pos)) in *. destruct S as [[_ ->] [_ ->] Hord Hs He]. cbv zeta.
  set (first := pos / 128) in *. set (last := (pos + k - 1) / 128) in *.
  unfold new_chars. change SectorSize with 128. rewrite (proj2 (Z.ltb_ge _ _)) by lia. cbn [bind].
  rewrite (read_sectors ss h first _ _ Hd) by (try (pose proof (newmem_length ((1 + last - first) * 128)); lia); lia).
  cbn [bind]. set (X := take _ _). pose proof (length_file_data ss h Hd) as Hlen. pose proof (numSectors_bound h (proj2 Hd)) as [Hb _].
  destruct (copy_from_lookup X (pos - first * 128) k) as (bs & -> & -> & _); [lia | lia | |].
  { unfold X. rewrite length_take, length_drop, Hlen. lia. }
  cbn [bind]. unfold slice, contents, X. rewrite !take_drop_take by lia. rewrite drop_drop.
  replace (128 * Z.to_nat first + Z.to_nat (pos - first * 128))%nat with (Z.to_nat pos) by lia. done.
Qed.

(** Writing sectors of the file. *)
Lemma file_data_insert ss h i s bs : on_disk ss h -> used h !! i = Some s -> length bs = 128%nat ->
  file_data (<[Z.to_nat s := bs]> ss) h = take (128 * i) (file_data ss h) ++ bs ++ drop (128 * i + 128) (file_data ss h).
Proof using.
  intros Hd Hi Hb. assert (block (<[Z.to_nat s := bs]> ss) <$> used h = <[i := bs]> (block ss <$> used h)) as E.
  { apply list_eq. intros j. rewrite list_lookup_fmap. destruct (decide (j = i)) as [->|Hj].
    - rewrite list_lookup_insert_eq by (rewrite length_fmap; by eapply lookup_lt_Some). rewrite Hi. cbn. f_equal. unfold block.
      pose proof (Forall_lookup_1 _ _ _ _ (wh_range h (proj2 Hd)) Hi) as Hr. cbn in Hr.
      destruct Hd as [[Hl _] _]. by rewrite list_lookup_insert_eq by lia.
    - rewrite list_lookup_insert_ne, list_lookup_fmap by done. destruct (used h !! j) as [s'|] eqn:Ej; [|done]. cbn. f_equal.
      unfold block. rewrite list_lookup_insert_ne; [done|]. intros E.
      pose proof (Forall_lookup_1 _ _ _ _ (wh_range h (proj2 Hd)) Hi) as Hr. pose proof (Forall_lookup_1 _ _ _ _ (wh_range h (proj2 Hd)) Ej) as Hr'.
      cbn in Hr, Hr'. assert (s = s') as -> by lia. destruct Hj. symmetry. by eapply NoDup_lookup; [apply (wh_NoDup h (proj2 Hd)) | |]. }
  unfold file_data. rewrite E. symmetry. eapply splice_concat_uniform; [by apply blocks_uniform | | done].
  by rewrite list_lookup_fmap, Hi.
Qed.

(** Sectors that no file of a list owns. *)
Definition untouched (h : FileHeader) (ss ss' : Sectors) : Prop :=
  wf_sectors ss' /\ forall s, 0 <= s -> s ∉ used h -> ss' !! Z.to_nat s = ss !! Z.to_nat s.

Lemma write_sectors ss h first n buf : on_disk ss h -> 0 <= first -> first + Z.of_nat n <= numSectors h ->
  length buf = (128 * n)%nat ->
  exists ss', for_upto first n (fun i ss => let! s := ByteToSector h (i * SectorSize) in
                                 WriteSector s buf ((i - first) * SectorSize) ss) ss = Ret ss' /\
    untouched h ss ss' /\
    file_data ss' h = take (128 * Z.to_nat first) (file_data ss h) ++ buf ++ drop (128 * (Z.to_nat first + n)) (file_data ss h).
Proof using.
  intros Hd H0 Hn Hl. set (D := file_data ss h).
  destruct (for_upto_inv (fun i ss' => untouched h ss ss' /\
      file_data ss' h = take (128 * Z.to_nat first) D ++ take (128 * Z.to_nat (i - first)) buf ++ drop (128 * Z.to_nat i) D)
    first n (fun i ss => let! s := ByteToSector h (i * SectorSize) in WriteSector s buf ((i - first) * SectorSize) ss) ss)
    as (ss' & -> & Hu & Hf).
  - split; [by split; [apply Hd|]|]. rewrite Z.sub_diag. change (128 * Z.to_nat 0)%nat with 0%nat. symmetry. apply take_drop.
  - intros i ss1 Hi ([Hw1 Hu1] & Hf1). assert (on_disk ss1 h) as Hd1 by (split; [done | apply Hd]).
    destruct (nth_sector ss1 h i Hd1 ltac:(lia)) as (s & sec & -> & Hs & Hr & _). cbn [bind].
    destruct (copy_from_lookup buf ((i - first) * SectorSize) SectorSize) as (bs & Hc & Hbs & Hlb);
      [unfold SectorSize; lia..|]. rewrite (WriteSector_spec s buf _ ss1 bs) by done.
    eexists. split; [reflexivity|]. unfold SectorSize in *. split; [split|].
    + apply wf_sectors_insert; [done | lia].
    + intros s' Hs' Hni. rewrite list_lookup_insert_ne; [by apply Hu1|]. intros E. assert (s = s') as -> by lia.
      destruct Hni. by eapply list_elem_of_lookup_2.
    + rewrite (file_data_insert ss1 h (Z.to_nat i) s bs Hd1 Hs) by lia. rewrite Hf1.
      assert (length D = (128 * Z.to_nat (numSectors h))%nat) as HD by (unfold D; by apply length_file_data).
      set (m := Z.to_nat (i - first)). replace (Z.to_nat i) with (Z.to_nat first + m)%nat by lia.
      replace (Z.to_nat (i + 1 - first)) with (S m) by lia. replace (Z.to_nat (i + 1)) with (Z.to_nat first + S m)%nat by lia.
      set (P := take (128 * Z.to_nat first) D). assert (length P = (128 * Z.to_nat first)%nat) as HP by (unfold P; rewrite length_take; lia).
      set (Q := take (128 * m) buf). assert (length Q = (128 * m)%nat) as HQ by (unfold Q; rewrite length_take; lia).
      rewrite (app_assoc P), take_app_length' by (rewrite length_app; lia).
      rewrite <- (app_assoc P). f_equal. rewrite drop_app_ge, drop_drop by (rewrite length_app; lia).
      rewrite length_app, HP, HQ, Hbs. change (Z.to_nat 128) with 128%nat.
      replace (Z.to_nat ((i - first) * 128)) with (128 * m)%nat by lia. rewrite app_assoc. unfold Q.
      rewrite take_app_more. f_equal; f_equal; lia.
  - exists ss'. split; [done|]. split; [done|]. rewrite Hf. do 2 f_equal; [rewrite take_ge; [done | lia] | f_equal; lia].
Qed.

Lemma slice_lookup (l : list Z) pos k x : 0 <= pos -> 0 <= x < k -> slice l pos k !! Z.to_nat x = l !! Z.to_nat (pos + x).
Proof using. intros. unfold slice. rewrite lookup_take_lt, lookup_drop by lia. f_equal. lia. Qed.

Lemma length_slice (l : list Z) pos k : 0 <= pos -> 0 <= k -> pos + k <= Z.of_nat (length l) -> Z.of_nat (length (slice l pos k)) = k.
Proof using. intros. unfold slice. rewrite length_take, length_drop. lia. Qed.

(** Reading one sector of the file into a sector of a buffer. *)
Lemma read_one ss h buf m i : on_disk ss h -> 0 <= i -> 128 * i < numBytes h -> 0 <= m -> 128 * m + 128 <= Z.of_nat (length buf) ->
  exists buf', (let! (_, buf) := ReadAt newmem h buf (m * SectorSize) SectorSize (i * SectorSize) ss in Ret buf) = Ret buf' /\
    length buf' = length buf /\
    (forall x, 0 <= x -> ~ (128 * m <= x < 128 * m + 128) -> buf' !! Z.to_nat x = buf !! Z.to_nat x) /\
    (forall x, 128 * m <= x < 128 * m + 128 -> 128 * i + (x - 128 * m) < numBytes h ->
       buf' !! Z.to_nat x = contents ss h !! Z.to_nat (128 * i + (x - 128 * m))).
Proof using newmem_length.
  intros Hd Hi Hb Hm Hl. unfold SectorSize. pose proof (numSectors_bound h (proj2 Hd)) as [Hb1 Hb30].
  rewrite ReadAt_spec by (done || lia). rewrite (proj2 (Z.leb_gt _ _)), (proj2 (Z.leb_gt _ _)) by lia. cbn [orb].
  set (k := Z.min 128 _). pose proof (length_contents ss h Hd) as Hc.
  assert (Z.of_nat (length (slice (contents ss h) (i * 128) k)) = k) as Hs by (apply length_slice; lia).
  destruct (copy_into_lookup buf (m * 128) (slice (contents ss h) (i * 128) k)) as (buf' & -> & Hl' & Hx); [lia | lia|].
  cbn [bind]. exists buf'. split; [done|]. split; [done|]. rewrite Hs in Hx. split.
  - intros x Hx0 Hn. rewrite Hx, decide_False by lia. done.
  - intros x Hr Hn. rewrite Hx, decide_True by lia. rewrite slice_lookup by lia. f_equal. lia.
Qed.

Lemma partial_sectors_spec ss h first last pos k buf : on_disk ss h -> spans h pos k first last -> 0 < k -> pos + k <= numBytes h ->
  Z.of_nat (length buf) = 128 * (1 + last - first) ->
  exists buf', partial_sectors newmem h first last k pos buf ss = Ret buf' /\ length buf' = length buf /\
    forall x, 128 * first <= x < 128 * last + 128 -> x < numBytes h -> ~ (pos <= x < pos + k) ->
      buf' !! Z.to_nat (x - 128 * first) = contents ss h !! Z.to_nat x.
Proof using newmem_length.
  intros Hd [_ _ Ho Hs He] Hk Hend Hl. unfold partial_sectors.
  assert (exists buf1, (if pos =? first * SectorSize then Ret buf
      else let! (_, buf) := ReadAt newmem h buf 0 SectorSize (first * SectorSize) ss in Ret buf) = Ret buf1 /\ length buf1 = length buf /\
    (pos <> first * SectorSize -> forall x, 128 * first <= x < 128 * first + 128 -> x < numBytes h ->
       buf1 !! Z.to_nat (x - 128 * first) = contents ss h !! Z.to_nat x)) as (buf1 & -> & Hl1 & H1).
  { destruct (Z.eqb_spec pos (first * SectorSize)); [by exists buf|].
    destruct (read_one ss h buf 0 first Hd) as (buf' & Hr & Hl' & _ & Hx); [lia..|]. exists buf'. split; [exact Hr|]. split; [done|].
    intros _ x Hx0 Hn. rewrite Hx by lia. f_equal. lia. }
  cbn [bind]. change SectorSize with 128 in H1.
  destruct (negb (pos + k =? (last + 1) * SectorSize) && (negb (first =? last) || (pos =? first * SectorSize))) eqn:E.
  - destruct (read_one ss h buf1 (last - first) last Hd) as (buf' & Hr' & Hl' & Hkeep & Hx); [lia..|].
    exists buf'. split; [exact Hr'|]. split; [lia|]. intros x Hr Hn Hout.
    destruct (Z.lt_ge_cases x (128 * last)).
    + rewrite Hkeep by lia. apply H1; lia.
    + rewrite Hx by lia. f_equal. lia.
  - exists buf1. split; [done|]. split; [done|]. intros x Hr Hn Hout.
    change SectorSize with 128 in E.
    destruct (Z.eqb_spec (pos + k) ((last + 1) * 128)), (Z.eqb_spec first last), (Z.eqb_spec pos (first * 128)); try done; apply H1; lia.
Qed.

(** The bytes of [l] with [bs] written at [pos]. *)
Definition splice (l : list Z) (pos : Z) (bs : list Z) : list Z :=
  take (Z.to_nat pos) l ++ bs ++ drop (Z.to_nat pos + length bs) l.

Lemma splice_lookup (l bs : list Z) pos x : 0 <= pos -> pos + Z.of_nat (length bs) <= Z.of_nat (length l) -> 0 <= x ->
  splice l pos bs !! Z.to_nat x =
  if decide (pos <= x < pos + Z.of_nat (length bs)) then bs !! Z.to_nat (x - pos) else l !! Z.to_nat x.
Proof using.
  intros Hp Hl Hx. destruct (copy_into_lookup l pos bs Hp Hl) as (l' & Hc & _ & Hlk).
  unfold copy_into in Hc. rewrite !(proj2 (Z.leb_le _ _)) in Hc by lia. injection Hc as <-. by apply Hlk.
Qed.

Lemma list_eq_Z (l l' : list Z) : length l = length l' ->
  (forall x, 0 <= x < Z.of_nat (length l) -> l !! Z.to_nat x = l' !! Z.to_nat x) -> l = l'.
Proof using.
  intros Hl Hx. apply list_eq_same_length with (length l); [done | done |]. intros i x y Hi Hlx Hly.
  specialize (Hx (Z.of_nat i) ltac:(lia)). rewrite Nat2Z.id in Hx. congruence.
Qed.

Lemma file_WriteAt_spec ss h from n pos : on_disk ss h -> 0 <= pos -> pos + n < 2^31 ->
  if (n <=? 0) || (numBytes h <=? pos) then WriteAt newmem h from n pos ss = Ret (0, ss)
  else let k := Z.min n (numBytes h - pos) in
    k <= Z.of_nat (length from) ->
    exists ss', WriteAt newmem h from n pos ss = Ret (k, ss') /\ untouched h ss ss' /\
      contents ss' h = splice (contents ss h) pos (slice from 0 k).
Proof using newmem_length.
  intros Hd Hp Ho. unfold WriteAt, FileLength.
  destruct (Z.leb_spec n 0), (Z.leb_spec (numBytes h) pos); try reflexivity. cbn [orb].
  destruct (spans_clip h pos n (proj2 Hd) ltac:(lia) ltac:(lia) Ho) as (-> & Hk & Hend & S).
  set (k := Z.min n (numBytes h - pos)) in *. cbv zeta. intros Hfrom. pose proof S as [[_ ->] [_ ->] Hord Hs He].
  set (first := pos / 128) in *. set (last := (pos + k - 1) / 128) in *.
  unfold new_chars. change SectorSize with 128 at 1 2. rewrite (proj2 (Z.ltb_ge _ _)) by lia. cbn [bind].
  pose proof (newmem_length ((1 + last - first) * 128) ltac:(lia)) as Hn.
  destruct (partial_sectors_spec ss h first last pos k (newmem ((1 + last - first) * 128)) Hd S Hk Hend ltac:(lia))
    as (buf & -> & Hlb & Hb). cbn [bind].
  destruct (copy_from_lookup from 0 k) as (bs & -> & Hbs & Hlbs); [lia..|]. cbn [bind].
  destruct (copy_into_lookup buf (pos - first * SectorSize) bs) as (buf2 & -> & Hlb2 & Hx); [unfold SectorSize; lia..|]. cbn [bind].
  destruct (write_sectors ss h first (Z.to_nat (1 + last - first)) buf2 Hd) as (ss' & Hw & Hu & Hf); [lia..|].
  cbn [bind] in Hw. rewrite Hw.
  exists ss'. split; [done|]. split; [exact Hu|]. change (take (Z.to_nat k) (drop (Z.to_nat 0) from)) with (slice from 0 k) in Hbs.
  subst bs. set (bs := slice from 0 k) in *.
  pose proof (length_contents ss h Hd) as Hlc. pose proof (length_contents ss' h (conj (proj1 Hu) (proj2 Hd))) as Hlc'.
  assert (length (splice (contents ss h) pos bs) = length (contents ss h)) as Hls.
  { unfold splice. rewrite !length_app, length_take, length_drop. lia. }
  apply list_eq_Z; [lia|]. intros x Hxr. rewrite splice_lookup, Hlbs by lia.
  pose proof (length_file_data ss h Hd) as HD. pose proof (numSectors_bound h (proj2 Hd)) as [HB _].
  assert (contents ss' h !! Z.to_nat x = splice (file_data ss h) (128 * first) buf2 !! Z.to_nat x) as ->.
  { unfold contents. rewrite lookup_take_lt, Hf by lia. unfold splice. do 3 f_equal; [f_equal; lia|]. do 2 f_equal; lia. }
  rewrite splice_lookup by lia. unfold SectorSize in Hx.
  assert (forall y, y < numBytes h -> contents ss h !! Z.to_nat y = file_data ss h !! Z.to_nat y) as Hcd.
  { intros y Hy. unfold contents. by rewrite lookup_take_lt by lia. }
  destruct (decide (pos <= x < pos + k)) as [Hin|Hout].
  - rewrite decide_True, Hx, decide_True by lia. f_equal. lia.
  - case_decide; [|by rewrite Hcd by lia]. rewrite Hx, decide_False by lia. apply Hb; lia.
Qed.

(** ** Frames *)

Lemma block_same ss ss' (l : list Z) : (forall s, s ∈ l -> ss' !! Z.to_nat s = ss !! Z.to_nat s) -> block ss' <$> l = block ss <$> l.
Proof using. intros H. apply list_fmap_ext. intros i s Hs. unfold block. rewrite H; [done|]. by eapply list_elem_of_lookup_2. Qed.

Lemma contents_same ss ss' h : (forall s, s ∈ used h -> ss' !! Z.to_nat s = ss !! Z.to_nat s) -> contents ss' h = contents ss h.
Proof using. intros H. unfold contents, file_data. by rewrite (block_same ss ss'). Qed.

Lemma contents_untouched h ss ss' h2 : untouched h ss ss' -> wf_header h2 -> used h ## used h2 -> contents ss' h2 = contents ss h2.
Proof using.
  intros [_ Hu] Hh2 Hdisj. apply contents_same. intros s Hs. apply Hu; [|intros Hin; exact (Hdisj s Hin Hs)].
  pose proof (proj1 (Forall_forall _ _) (wh_range h2 Hh2) s Hs). cbn in *. lia.
Qed.

(** C14: a file on the disk is a flat array of bytes. ReadAt returns the bytes of the
    request, cut off at the end of the file, whatever their position in the sectors;
    WriteAt puts the given bytes at the position, leaves every other byte of the file
    as it was, and leaves every sector of every other file alone; a request at or
    past the end, or of no bytes, moves nothing and returns 0. Read and write agree:
    what one writes, the other returns. (Positions are not negative and the end of
    the request is within the range of an int.) *)
Theorem file_is_flat ss h into a from n pos : on_disk ss h -> 0 <= pos -> pos + n < 2^31 ->
  let k := if (n <=? 0) || (numBytes h <=? pos) then 0 else Z.min n (numBytes h - pos) in
  ReadAt newmem h into a n pos ss =
    (if k =? 0 then Ret (0, into)
     else let! into := copy_into into a (slice (contents ss h) pos k) in Ret (k, into)) /\
  (k <= Z.of_nat (length from) -> exists ss', WriteAt newmem h from n pos ss = Ret (k, ss') /\ on_disk ss' h /\
     contents ss' h = splice (contents ss h) pos (slice from 0 k) /\
     slice (contents ss' h) pos k = slice from 0 k /\
     forall h2, wf_header h2 -> used h ## used h2 -> contents ss' h2 = contents ss h2).
Proof using newmem_length.
  intros Hd Hp Ho. pose proof (file_WriteAt_spec ss h from n pos Hd Hp Ho) as Hw. cbv zeta. split.
  - rewrite ReadAt_spec by done. destruct (_ || _) eqn:E; [done|].
    apply orb_false_iff in E as [E1%Z.leb_gt E2%Z.leb_gt]. by rewrite (proj2 (Z.eqb_neq _ _)) by lia.
  - destruct (_ || _) eqn:E.
    + intros _. exists ss. split; [exact Hw|]. split; [done|]. unfold splice, slice. change (Z.to_nat 0) with 0%nat.
      rewrite !take_0. cbn [length app]. rewrite Nat.add_0_r, (take_drop (Z.to_nat pos) (contents ss h)). done.
    + apply orb_false_iff in E as [E1%Z.leb_gt E2%Z.leb_gt]. intros Hfrom.
      destruct (Hw Hfrom) as (ss' & Hr & Hu & Hc). exists ss'. split; [exact Hr|]. split; [by split; [apply Hu | apply Hd]|].
      split; [exact Hc|]. split.
      * pose proof (length_contents ss h Hd). set (k := Z.min _ _) in *.
        pose proof (length_slice from 0 k ltac:(lia) ltac:(lia) ltac:(lia)) as Hk.
        rewrite Hc. unfold slice at 1. unfold splice. rewrite drop_app_length' by (rewrite length_take; lia).
        apply take_app_length'. lia.
      * intros h2 H2 Hdisj. by apply (contents_untouched h ss ss' h2).
Qed.

(** A position below zero is not caught: the copy reads in front of the buffer, or
    the table of sectors is read in front of its first entry. *)
Lemma ReadAt_negative ss h into a n pos : on_disk ss h -> 0 < numBytes h -> -2^31 <= pos < 0 -> 0 < n -> pos + n < 2^31 ->
  ReadAt newmem h into a n pos ss = Undef.
Proof using newmem_length.
  intros Hd Hpos Hp Hn Ho. unfold ReadAt, FileLength, clip. rewrite (proj2 (Z.leb_gt _ _)), (proj2 (Z.leb_gt _ _)) by lia. cbn [orb].
  rewrite (i32_small (pos + n)) by (unfold is_i32; lia). set (k := if _ <? _ then _ else _).
  assert (0 < k /\ pos + k <= numBytes h) as [Hk Hend] by (unfold k; destruct (Z.ltb_spec (numBytes h) (pos + n)); lia).
  pose proof (numSectors_bound h (proj2 Hd)) as [Hb Hb30].
  cbv zeta. rewrite i32_small by (unfold is_i32; lia). unfold divRoundDown, new_chars. change SectorSize with 128.
  destruct (_ <? 0); [done|]. cbn [bind]. set (first := Z.quot pos 128). set (last := Z.quot (pos + k - 1) 128).
  assert (first <= last) as Hfl by (apply Z.quot_le_mono; lia).
  destruct (Z.eq_dec first 0) as [Ef|Ef].
  - assert (0 <= last < numSectors h) as Hl.
    { split; [lia|]. unfold last. destruct (Z.le_gt_cases 0 (pos + k - 1)).
      - rewrite Z.quot_div_nonneg by lia. apply Z.div_lt_upper_bound; lia.
      - pose proof (Z.quot_le_mono (pos + k - 1) 0 128). change (Z.quot 0 128) with 0 in *. lia. }
    rewrite (read_sectors ss h first _ _ Hd) by (try (pose proof (newmem_length ((1 + last - first) * 128)); lia); lia).
    cbn [bind]. unfold copy_from. rewrite (proj2 (Z.leb_gt 0 _)) by lia. done.
  - assert (first < 0) as Hneg by (pose proof (Z.quot_le_mono pos 0 128); change (Z.quot 0 128) with 0 in *; lia).
    destruct (Z.to_nat (1 + last - first)) as [|m] eqn:Em; [lia|]. cbn [for_upto]. unfold ByteToSector, SectorSize.
    rewrite Z.quot_mul by lia. unfold aref. by rewrite (proj2 (Z.leb_gt 0 first)) by lia.
Qed.
End Files.

(** ** A file of 200 bytes in sectors 5 and 9 *)

Module Demo.

Definition disk0 : Sectors := replicate 1024 (replicate 128 0).
Definition file : FileHeader := mkHeader 200 2 (5 :: 9 :: replicate 28 0).
Definition mem (n : Z) : list Z := replicate (Z.to_nat n) 77.

Lemma mem_length n : 0 <= n -> Z.of_nat (length (mem n)) = n.
Proof. intros Hn. unfold mem. rewrite length_replicate. lia. Qed.

Lemma file_wf : on_disk disk0 file.
Proof.
  split; [split; [unfold disk0; by rewrite length_replicate | by apply Forall_replicate]|].
  split; [split; [reflexivity | repeat constructor; done] | cbn; lia | reflexivity | cbn; lia | repeat constructor; done |].
  apply NoDup_cons. split; [|apply NoDup_singleton]. rewrite list_elem_of_singleton. done.
Qed.

(** A write across the two sectors, and a read of it that the end cuts off. *)
Example write_then_read :
  (let! (n, ss) := WriteAt mem file (replicate 20 1 ++ replicate 100 2) 100 120 disk0 in
   let! (m, into) := ReadAt mem file (replicate 100 0) 10 90 130 ss in Ret (n, m, into)) =
  Ret (80, 70, replicate 10 0 ++ replicate 10 1 ++ replicate 60 2 ++ replicate 20 0).
Proof. vm_compute. reflexivity. Qed.

Lemma file_is_flat_witness : exists ss, WriteAt mem file [1; 2; 3] 3 127 disk0 = Ret (3, ss) /\
  slice (contents ss file) 127 3 = [1; 2; 3] /\ length (contents ss file) = 200%nat.
Proof.
  destruct (file_is_flat mem mem_length disk0 file [] 0 [1; 2; 3] 3 127 file_wf) as [_ Hw]; [lia | lia |].
  destruct Hw as (ss & Hr & Hd & _ & Hs & _); [cbn; lia|]. exists ss. split; [exact Hr|]. split; [exact Hs|].
  pose proof (length_contents ss file Hd) as Hl. cbn in Hl. lia.
Defined.
End Demo.
