(* ===== verification/Directory.v ===== *)
(** * Directories (filesys/directory.h, filesys/directory.cc)

    A directory is a table of fixed size, each entry with a name of at most nine
    characters and the sector of the file's header. Names are compared on their
    first nine characters. The contract is a finite map from names, cut off after
    nine characters, to sectors. The table goes to and from a file as raw memory. *)

From S2P Require Import Prelude BitMap Machine Disk SynchDisk Ints FileHdr OpenFile.

Definition FileNameMaxLen : Z := 9.
Definition name_max : nat := Z.to_nat FileNameMaxLen.

(** ** C strings

    A [char*] is the memory it points to; the string ends at the first zero. *)

(** [!strncmp(a, b, n)]. *)
Fixpoint strncmp_equal (n : nat) (a b : list Z) : C bool :=
  match n, a, b with
  | O, _, _ => Ret true
  | S n, x :: a, y :: b => if x =? y then if x =? 0 then Ret true else strncmp_equal n a b else Ret false
  | _, _, _ => Undef
  end.

(** The [n] characters that strncpy stores: the string, then zeros. *)
Fixpoint strncpy_chars (n : nat) (b : list Z) : C (list Z) :=
  match n, b with
  | O, _ => Ret []
  | S n, c :: b => if c =? 0 then Ret (replicate (S n) 0) else let! r := strncpy_chars n b in Ret (c :: r)
  | _, _ => Undef
  end.

(** The characters before the terminating zero. *)
Fixpoint c_string (b : list Z) : C (list Z) :=
  match b with
  | [] => Undef
  | c :: b => if c =? 0 then Ret [] else let! r := c_string b in Ret (c :: r)
  end.

(** ** The class *)

(** The members, and the bytes between and after them. *)
Record DirectoryEntry := mkEntry {
  inUse : bool;
  gap : list Z;
  sector : Z;
  name : list Z;  (* char[FileNameMaxLen + 1] *)
  tail : list Z
}.

Definition set_inUse b e := mkEntry b (gap e) (sector e) (name e) (tail e).
Definition set_sector s e := mkEntry (inUse e) (gap e) s (name e) (tail e).
Definition set_name n e := mkEntry (inUse e) (gap e) (sector e) n (tail e).

Record Directory := mkDirectory { tableSize : Z; table : list DirectoryEntry }.

Definition set_table t d := mkDirectory (tableSize d) t.

Definition update_entry (f : DirectoryEntry -> DirectoryEntry) (i : Z) (t : list DirectoryEntry) : C (list DirectoryEntry) :=
  let! e := aref t i in aset t i (f e).

(** The constructor; [garbage] is the array that [new] returns. *)
Definition new_Directory (size : Z) (garbage : list DirectoryEntry) : C Directory :=
  let! t := for_upto 0 (Z.to_nat size) (update_entry (set_inUse false)) garbage in
  Ret (mkDirectory size t).

Definition matches (fname : list Z) (e : DirectoryEntry) : C bool :=
  if inUse e then strncmp_equal name_max (name e) fname else Ret false.

Fixpoint FindIndex_loop (fname : list Z) (d : Directory) (i : Z) (n : nat) : C Z :=
  match n with
  | O => Ret (-1)
  | S n =>
      let! e := aref (table d) i in
      let! m := matches fname e in
      if (m : bool) then Ret i else FindIndex_loop fname d (i + 1) n
  end.

Definition FindIndex (fname : list Z) (d : Directory) : C Z := FindIndex_loop fname d 0 (Z.to_nat (tableSize d)).

Definition Find (fname : list Z) (d : Directory) : C Z :=
  let! i := FindIndex fname d in
  if i =? -1 then Ret (-1) else let! e := aref (table d) i in Ret (sector e).

(** [strncpy(table[i].name, name, FileNameMaxLen)]: the last character stays. *)
Definition fill_entry (fname : list Z) (newSector : Z) (e : DirectoryEntry) : C DirectoryEntry :=
  let! n := strncpy_chars name_max fname in
  Ret (set_sector newSector (set_name (n ++ drop name_max (name e)) (set_inUse true e))).

Fixpoint Add_loop (fname : list Z) (newSector : Z) (d : Directory) (i : Z) (n : nat) : C (bool * Directory) :=
  match n with
  | O => Ret (false, d)
  | S n =>
      let! e := aref (table d) i in
      if negb (inUse e) then
        let! e := fill_entry fname newSector e in
        let! t := aset (table d) i e in Ret (true, set_table t d)
      else Add_loop fname newSector d (i + 1) n
  end.

Definition Add (fname : list Z) (newSector : Z) (d : Directory) : C (bool * Directory) :=
  let! i := FindIndex fname d in
  if negb (i =? -1) then Ret (false, d) else Add_loop fname newSector d 0 (Z.to_nat (tableSize d)).

Definition Remove (fname : list Z) (d : Directory) : C (bool * Directory) :=
  let! i := FindIndex fname d in
  if i =? -1 then Ret (false, d)
  else let! t := update_entry (set_inUse false) i (table d) in Ret (true, set_table t d).

(** The lines that List prints. *)
Definition List (d : Directory) : C (list (list Z)) :=
  for_upto 0 (Z.to_nat (tableSize d)) (fun i (out : list (list Z)) =>
    let! e := aref (table d) i in
    if inUse e then let! s := c_string (name e) in Ret (out ++ [s]) else Ret out) [].

(** ** The table as memory: a bool in one byte, an int on a four-byte boundary *)

Definition sizeof_entry : Z := 20.

Section Memory.
Variable big : bool.
Variable newmem : Z -> list Z.

Definition entry_bytes (e : DirectoryEntry) : list Z :=
  (if inUse e then 1 else 0) :: gap e ++ word_bytes big (sector e) ++ name e ++ tail e.

Definition entry_of (bs : list Z) : DirectoryEntry :=
  mkEntry (negb (hd 0 bs =? 0)) (take 3 (drop 1 bs)) (int_of big (take 4 (drop 4 bs)))
    (take 10 (drop 8 bs)) (drop 18 bs).

Definition table_bytes (t : list DirectoryEntry) : list Z := concat (entry_bytes <$> t).

Fixpoint entries_of (n : nat) (bs : list Z) : list DirectoryEntry :=
  match n with O => [] | S n => entry_of (take 20 bs) :: entries_of n (drop 20 bs) end.

Definition FetchFrom (f : OpenFile) (d : Directory) (ss : Sectors) : C Directory :=
  let! (_, bs) := ReadAt newmem (hdr f) (table_bytes (table d)) 0 (tableSize d * sizeof_entry) 0 ss in
  Ret (set_table (entries_of (length (table d)) bs) d).

Definition WriteBack (f : OpenFile) (d : Directory) (ss : Sectors) : C Sectors :=
  let! (_, ss) := WriteAt newmem (hdr f) (table_bytes (table d)) (tableSize d * sizeof_entry) 0 ss in Ret ss.
End Memory.

(** ** Names *)

(** The first [n] characters of a string. *)
Fixpoint prefix (n : nat) (b : list Z) : list Z :=
  match n, b with S n, c :: b => if c =? 0 then [] else c :: prefix n b | _, _ => [] end.

(** The string ends, or the memory goes on for [n] characters. *)
Fixpoint readable (n : nat) (b : list Z) : Prop :=
  match n, b with O, _ => True | S n, c :: b => c = 0 \/ readable n b | S _, [] => False end.

(** What a directory knows of a name. *)
Definition label (b : list Z) : list Z := prefix name_max b.

Lemma strncmp_spec n a b : readable n a -> readable n b -> strncmp_equal n a b = Ret (bool_decide (prefix n a = prefix n b)).
Proof.
  revert a b. induction n as [|n IH]; intros a b Ha Hb; [done|].
  destruct a as [|x a]; [done|]. destruct b as [|y b]; [done|]. cbn [strncmp_equal prefix readable] in *.
  destruct (Z.eqb_spec x y) as [->|Hne].
  - destruct (Z.eqb_spec y 0); [by rewrite bool_decide_true|]. rewrite IH by tauto. f_equal. apply bool_decide_ext. split; [by intros -> | by intros [= ->]].
  - rewrite bool_decide_false; [done|]. destruct (Z.eqb_spec x 0), (Z.eqb_spec y 0); congruence.
Qed.

Lemma readable_long n b : (n <= length b)%nat -> readable n b.
Proof.
  revert b. induction n as [|n IH]; intros b Hl; [done|]. destruct b as [|c b]; cbn in *; [lia|]. right. apply IH. lia.
Qed.

Lemma strncpy_spec n b rest : readable n b ->
  exists r, strncpy_chars n b = Ret r /\ length r = n /\ prefix n (r ++ rest) = prefix n b.
Proof.
  revert b. induction n as [|n IH]; intros b Hb; [by exists []|]. destruct b as [|c b]; [done|].
  cbn [strncpy_chars readable prefix] in *. destruct (Z.eqb_spec c 0) as [->|Hc].
  - exists (replicate (S n) 0). split; [done|]. split; [by rewrite length_replicate | done].
  - destruct (IH b) as (r & -> & Hl & Hp); [tauto|]. exists (c :: r). split; [done|]. split; [cbn; lia|].
    cbn. rewrite (proj2 (Z.eqb_neq c 0)) by done. by rewrite Hp.
Qed.

(** ** The contract: a finite map *)

Record wf_entry (e : DirectoryEntry) : Prop := {
  we_gap : length (gap e) = 3%nat;
  we_sector : is_i32 (sector e);
  we_name : length (name e) = 10%nat;
  we_tail : length (tail e) = 2%nat
}.

Record wf_dir (d : Directory) : Prop := {
  wd_size : tableSize d = Z.of_nat (length (table d));
  wd_entries : Forall wf_entry (table d);
  wd_unique : forall i j e e', table d !! i = Some e -> table d !! j = Some e' ->
    inUse e = true -> inUse e' = true -> label (name e) = label (name e') -> i = j
}.

Definition binding (e : DirectoryEntry) : option (list Z * Z) := if inUse e then Some (label (name e), sector e) else None.

(** The files of a directory. *)
Definition files (d : Directory) : gmap (list Z) Z := list_to_map (omap binding (table d)).

(** Entry [e] of the directory is that of the file called [k]. *)
Definition is_file (d : Directory) (k : list Z) (i : nat) (e : DirectoryEntry) : Prop :=
  table d !! i = Some e /\ inUse e = true /\ label (name e) = k.

Lemma binding_Some e k s : binding e = Some (k, s) <-> inUse e = true /\ label (name e) = k /\ sector e = s.
Proof. unfold binding. destruct (inUse e); naive_solver. Qed.

Lemma labels_NoDup d : wf_dir d -> NoDup (omap binding (table d)).*1.
Proof.
  intros [_ _ Hu]. assert (forall i j e e', table d !! i = Some e -> table d !! j = Some e' ->
    inUse e = true -> inUse e' = true -> label (name e) = label (name e') -> i = j) as H by exact Hu.
  clear Hu. induction (table d) as [|e t IH]; [constructor|]. cbn. unfold binding at 1. destruct (inUse e) eqn:Ee.
  - cbn. constructor.
    + rewrite list_elem_of_fmap. intros ([k s] & Hk & (e' & He' & Hb)%list_elem_of_omap). cbn in Hk. subst k.
      apply binding_Some in Hb as (Hi & Hl & _). apply list_elem_of_lookup_1 in He' as (j & Hj).
      specialize (H 0%nat (S j) e e' eq_refl Hj Ee Hi (eq_sym Hl)). lia.
    + apply IH. intros i j e1 e2 H1 H2 U1 U2 Hl. specialize (H (S i) (S j) e1 e2 H1 H2 U1 U2 Hl). lia.
  - apply IH. intros i j e1 e2 H1 H2 U1 U2 Hl. specialize (H (S i) (S j) e1 e2 H1 H2 U1 U2 Hl). lia.
Qed.

Lemma files_lookup d k s : wf_dir d -> files d !! k = Some s <-> exists i e, is_file d k i e /\ sector e = s.
Proof.
  intros Hd. unfold files. rewrite <- elem_of_list_to_map by by apply labels_NoDup. rewrite list_elem_of_omap. split.
  - intros (e & He & Hb). apply list_elem_of_lookup_1 in He as (i & Hi). apply binding_Some in Hb as (? & ? & ?).
    by exists i, e.
  - intros (i & e & (Hi & Hu & Hl) & Hs). exists e. split; [by eapply list_elem_of_lookup_2 | by apply binding_Some].
Qed.

Lemma files_None d k : wf_dir d -> files d !! k = None <-> forall i e, ~ is_file d k i e.
Proof.
  intros Hd. rewrite eq_None_not_Some. split.
  - intros Hn i e Hf. apply Hn. exists (sector e). apply files_lookup; [done|]. by exists i, e.
  - intros Hn [s (i & e & Hf & _)%files_lookup]; [by apply (Hn i e) | done].
Qed.

(** ** The operations *)

Lemma matches_spec fname e : wf_entry e -> readable name_max fname ->
  matches fname e = Ret (inUse e && bool_decide (label (name e) = label fname)).
Proof.
  intros He Hf. unfold matches. destruct (inUse e); [|done]. cbn [andb]. apply strncmp_spec; [|done].
  apply readable_long. rewrite (we_name e He). unfold name_max, FileNameMaxLen. lia.
Qed.

Lemma FindIndex_loop_spec fname d i n : wf_dir d -> readable name_max fname ->
  0 <= i -> i + Z.of_nat n = tableSize d ->
  (exists j e, FindIndex_loop fname d i n = Ret (Z.of_nat j) /\ is_file d (label fname) j e) \/
  (FindIndex_loop fname d i n = Ret (-1) /\ forall j e, (Z.to_nat i <= j)%nat -> ~ is_file d (label fname) j e).
Proof.
  intros Hd Hf. revert i. induction n as [|n IH]; intros i Hi Hn; cbn [FindIndex_loop].
  - right. split; [done|]. intros j e Hj (He & _). apply lookup_lt_Some in He. pose proof (wd_size d Hd). lia.
  - destruct (aref_in (table d) i) as [e He]; [pose proof (wd_size d Hd); lia|]. rewrite He. cbn [bind].
    apply aref_Ret in He as [_ He]. rewrite matches_spec by (done || by apply (Forall_lookup_1 _ _ _ _ (wd_entries d Hd) He)).
    destruct (inUse e && bool_decide (label (name e) = label fname)) eqn:E.
    + left. exists (Z.to_nat i), e. split; [f_equal; lia|]. apply andb_true_iff in E as [Eu El%bool_decide_eq_true]. done.
    + destruct (IH (i + 1) ltac:(lia) ltac:(lia)) as [(j & e' & Hr & Hfile)|[Hr Hno]]; [left; by exists j, e'|].
      right. split; [exact Hr|]. intros j e' Hj Hfile. destruct (decide (j = Z.to_nat i)) as [->|Hne].
      * destruct Hfile as (He' & Hu & Hl). rewrite He in He'. injection He' as <-.
        rewrite Hu, bool_decide_true in E by done. done.
      * apply (Hno j e'); [lia | done].
Qed.

Lemma FindIndex_spec fname d : wf_dir d -> readable name_max fname ->
  match files d !! label fname with
  | Some s => exists j e, FindIndex fname d = Ret (Z.of_nat j) /\ is_file d (label fname) j e /\ sector e = s
  | None => FindIndex fname d = Ret (-1)
  end.
Proof.
  intros Hd Hf. pose proof (wd_size d Hd) as Hs.
  destruct (FindIndex_loop_spec fname d 0 (Z.to_nat (tableSize d)) Hd Hf) as [(j & e & Hr & Hfile)|[Hr Hno]]; [lia..| |].
  - assert (files d !! label fname = Some (sector e)) as -> by (apply files_lookup; [done|]; by exists j, e).
    by exists j, e.
  - assert (files d !! label fname = None) as -> by (apply files_None; [done|]; intros; apply Hno; lia). exact Hr.
Qed.

Lemma Find_spec fname d : wf_dir d -> readable name_max fname -> Find fname d = Ret (default (-1) (files d !! label fname)).
Proof.
  intros Hd Hf. unfold Find. pose proof (FindIndex_spec fname d Hd Hf) as Hs. destruct (files d !! label fname) as [s|].
  - destruct Hs as (j & e & -> & (He & _) & <-). cbn [bind]. rewrite (proj2 (Z.eqb_neq _ _)) by lia.
    by rewrite (proj2 (aref_Ret (table d) _ e)) by (rewrite Nat2Z.id; split; [lia | done]).
  - by rewrite Hs.
Qed.

(** Changing one entry of the table. *)
Lemma files_insert d i e e' : wf_dir d -> table d !! i = Some e -> wf_entry e' ->
  (inUse e' = true -> forall j e2, j <> i -> ~ is_file d (label (name e')) j e2) ->
  let d' := set_table (<[i := e']> (table d)) d in
  wf_dir d' /\ forall k s, files d' !! k = Some s <->
    (inUse e' = true /\ label (name e') = k /\ sector e' = s) \/ (exists j e2, j <> i /\ is_file d k j e2 /\ sector e2 = s).
Proof.
  intros Hd Hi He' Hnew d'. assert (forall j e2, table d' !! j = Some e2 <-> (j = i /\ e2 = e') \/ (j <> i /\ table d !! j = Some e2)) as Ht.
  { intros j e2. cbn. rewrite list_lookup_insert_Some. apply lookup_lt_Some in Hi. split.
    - intros [(-> & -> & _)|[? ?]]; [by left | by right].
    - intros [[-> ->]|[? ?]]; [by left | by right]. }
  assert (wf_dir d') as Hd'.
  { split.
    - cbn. rewrite length_insert. apply Hd.
    - apply Forall_insert; [apply Hd | done].
    - intros j1 j2 e1 e2 [[-> ->]|[Hj1 H1]]%Ht [[-> ->]|[Hj2 H2]]%Ht U1 U2 Hl.
      + done.
      + by destruct (Hnew U1 j2 e2 Hj2).
      + by destruct (Hnew U2 j1 e1 Hj1).
      + by apply (wd_unique d Hd j1 j2 e1 e2). }
  split; [exact Hd'|]. intros k s. rewrite files_lookup by done. split.
  - intros (j & e2 & ([[-> ->]|[Hj H2]]%Ht & Hu & Hl) & Hs); [by left | right; by exists j, e2].
  - intros [(Hu & Hl & Hs)|(j & e2 & Hj & (H2 & Hu & Hl) & Hs)].
    + exists i, e'. split; [|done]. split; [|done]. apply Ht. by left.
    + exists j, e2. split; [|done]. split; [|done]. apply Ht. by right.
Qed.

Lemma option_ext_Some {A} (a b : option A) : (forall s, a = Some s <-> b = Some s) -> a = b.
Proof. intros H. destruct a as [x|], b as [y|]; try done; [by apply H | symmetry; by apply H | by apply H]. Qed.

Lemma dir_Remove_spec fname d : wf_dir d -> readable name_max fname ->
  match files d !! label fname with
  | Some _ => exists d', Remove fname d = Ret (true, d') /\ wf_dir d' /\ files d' = delete (label fname) (files d)
  | None => Remove fname d = Ret (false, d)
  end.
Proof.
  intros Hd Hf. unfold Remove. pose proof (FindIndex_spec fname d Hd Hf) as Hs. destruct (files d !! label fname) as [s|].
  - destruct Hs as (i & e & -> & (He & Hu & Hl) & _). cbn [bind]. rewrite (proj2 (Z.eqb_neq _ _)) by lia. unfold update_entry.
    rewrite (proj2 (aref_Ret (table d) _ e)) by (rewrite Nat2Z.id; split; [lia | done]). cbn [bind].
    pose proof (lookup_lt_Some _ _ _ He). rewrite aset_in, Nat2Z.id by lia. cbn [bind].
    pose proof (Forall_lookup_1 _ _ _ _ (wd_entries d Hd) He) as [Hg Hsec Hn Ht].
    destruct (files_insert d i e (set_inUse false e) Hd He) as [Hd' Hfiles]; [by split | done |].
    eexists. split; [reflexivity|]. split; [exact Hd'|]. apply map_eq. intros k. apply option_ext_Some. intros s'.
    rewrite Hfiles, lookup_delete_Some, files_lookup by done. split.
    + intros [(? & _)|(j & e2 & Hj & (H2 & U2 & L2) & <-)]; [done|]. split; [|by exists j, e2].
      intros <-. destruct Hj. by apply (wd_unique d Hd j i e2 e); congruence.
    + intros (Hne & j & e2 & (H2 & U2 & L2) & <-). right. exists j, e2. split; [|done]. intros ->. congruence.
  - by rewrite Hs.
Qed.

(** The first free entry is taken. *)
Lemma Add_loop_spec fname s d i n : wf_dir d -> readable name_max fname -> is_i32 s ->
  (forall j e, ~ is_file d (label fname) j e) -> 0 <= i -> i + Z.of_nat n = tableSize d ->
  Forall (fun e => inUse e = true) (take (Z.to_nat i) (table d)) ->
  if forallb inUse (table d) then Add_loop fname s d i n = Ret (false, d)
  else exists d', Add_loop fname s d i n = Ret (true, d') /\ wf_dir d' /\ files d' = <[label fname := s]> (files d).
Proof.
  intros Hd Hf Hs Hno. revert i. induction n as [|n IH]; intros i Hi Hn Hall; cbn [Add_loop].
  - rewrite take_ge in Hall by (pose proof (wd_size d Hd); lia).
    rewrite (proj2 (forallb_forall _ _)); [done|]. intros e He. apply (proj1 (Forall_forall _ _) Hall). by apply list_elem_of_In.
  - destruct (aref_in (table d) i) as [e He]; [pose proof (wd_size d Hd); lia|]. rewrite He. cbn [bind].
    apply aref_Ret in He as [_ He]. destruct (inUse e) eqn:Eu; cbn [negb].
    + apply IH; [lia | lia |]. replace (Z.to_nat (i + 1)) with (S (Z.to_nat i)) by lia.
      rewrite (take_S_r _ _ e He). apply Forall_app_2; [done | by constructor].
    + assert (forallb inUse (table d) = false) as ->.
      { apply not_true_iff_false. rewrite forallb_forall. intros H. rewrite (H e) in Eu; [done|].
        apply list_elem_of_In. by eapply list_elem_of_lookup_2. }
      destruct (Forall_lookup_1 _ _ _ _ (wd_entries d Hd) He) as [Hg Hsec Hnm Ht].
      destruct (strncpy_spec name_max fname (drop name_max (name e)) Hf) as (r & Hr & Hl & Hp).
      unfold fill_entry. rewrite Hr. cbn [bind]. apply lookup_lt_Some in He as Hlt. rewrite aset_in by lia. cbn [bind].
      eexists. split; [reflexivity|]. set (e' := set_sector _ _).
      destruct (files_insert d (Z.to_nat i) e e' Hd He) as [Hd' Hfiles].
      { split; [done | done | | done]. cbn. rewrite length_app, length_drop, Hl, Hnm. unfold name_max, FileNameMaxLen. lia. }
      { intros _ j e2 _. cbn. unfold label at 1. rewrite Hp. apply Hno. }
      split; [exact Hd'|]. apply map_eq. intros k. apply option_ext_Some. intros s'.
      rewrite Hfiles, lookup_insert_Some, files_lookup by done. cbn. unfold label at 1. rewrite Hp. fold (label fname). split.
      * intros [(_ & <- & <-)|(j & e2 & Hj & H2 & <-)]; [by left|]. right. split; [|by exists j, e2].
        intros <-. by apply (Hno j e2).
      * intros [[<- <-]|(Hne & j & e2 & H2 & <-)]; [by left|]. right. exists j, e2. split; [|done].
        intros ->. destruct H2 as (H2 & U2 & _). congruence.
Qed.

Lemma Add_spec fname s d : wf_dir d -> readable name_max fname -> is_i32 s ->
  match files d !! label fname with
  | Some _ => Add fname s d = Ret (false, d)
  | None =>
      if forallb inUse (table d) then Add fname s d = Ret (false, d)
      else exists d', Add fname s d = Ret (true, d') /\ wf_dir d' /\ files d' = <[label fname := s]> (files d)
  end.
Proof.
  intros Hd Hf Hs. unfold Add. pose proof (FindIndex_spec fname d Hd Hf) as Hi. destruct (files d !! label fname) as [s0|] eqn:E.
  - destruct Hi as (j & e & -> & _). cbn [bind]. by rewrite (proj2 (Z.eqb_neq _ _)) by lia.
  - rewrite Hi. cbn [bind]. pose proof (wd_size d Hd). apply Add_loop_spec; [done | done | done | | lia | lia | constructor].
    by apply files_None.
Qed.

Lemma Add_loop_size fname s d i n b d' : Add_loop fname s d i n = Ret (b, d') -> tableSize d' = tableSize d.
Proof.
  revert i. induction n as [|n IH]; intros i Hr; cbn [Add_loop] in Hr; [by inv_ret|].
  destruct (aref (table d) i) as [e| |]; cbn [bind] in Hr; [|done..]. destruct (inUse e); cbn [negb] in Hr; [by apply (IH _ Hr)|].
  repeat case_match; by simplify_eq.
Qed.

Lemma Add_size fname s d b d' : Add fname s d = Ret (b, d') -> tableSize d' = tableSize d.
Proof.
  unfold Add. destruct (FindIndex fname d) as [i| |]; cbn [bind]; [|done..].
  destruct (negb _); [by intros [= _ <-] | apply Add_loop_size].
Qed.

Lemma Remove_size fname d b d' : Remove fname d = Ret (b, d') -> tableSize d' = tableSize d.
Proof.
  unfold Remove. destruct (FindIndex fname d) as [i| |]; cbn [bind]; [|done..].
  destruct (i =? -1); [by intros [= _ <-]|]. destruct (update_entry _ _ _); cbn [bind]; [by intros [= _ <-] | done..].
Qed.

(** A directory is full when it has a file for each entry. *)
Lemma size_files d : wf_dir d -> base.size (files d) = length (filter (fun e => inUse e = true) (table d)).
Proof.
  intros Hd. unfold files. rewrite map_size_list_to_map by by apply labels_NoDup. clear Hd.
  induction (table d) as [|e t IH]; [done|]. rewrite filter_cons. cbn [omap list_omap].
  unfold binding at 1. destruct (inUse e).
  - rewrite decide_True by done. cbn [length]. f_equal. exact IH.
  - rewrite decide_False by done. exact IH.
Qed.

Lemma full_size d : wf_dir d -> forallb inUse (table d) = (tableSize d =? Z.of_nat (base.size (files d))).
Proof.
  intros Hd. rewrite size_files, (wd_size d Hd) by done. clear Hd.
  induction (table d) as [|e t IH]; [done|]. cbn [forallb length]. rewrite filter_cons.
  pose proof (length_filter (fun e => inUse e = true) t) as Hle. destruct (inUse e); cbn [andb].
  - rewrite decide_True by done. rewrite IH. cbn [length]. destruct (Z.eqb_spec (Z.of_nat (length t)) (Z.of_nat (length (filter (fun e => inUse e = true) t)))),
      (Z.eqb_spec (Z.of_nat (S (length t))) (Z.of_nat (S (length (filter (fun e => inUse e = true) t))))); lia.
  - rewrite decide_False by done. symmetry. apply Z.eqb_neq. lia.
Qed.

Lemma new_Directory_spec size garbage : Z.of_nat (length garbage) = size -> Forall wf_entry garbage ->
  exists d, new_Directory size garbage = Ret d /\ wf_dir d /\ tableSize d = size /\ files d = ∅.
Proof.
  intros Hl Hg. unfold new_Directory.
  destruct (for_upto_inv (fun i t => length t = length garbage /\ Forall wf_entry t /\ Forall (fun e => inUse e = false) (take (Z.to_nat i) t))
    0 (Z.to_nat size) (update_entry (set_inUse false)) garbage) as (t & -> & Hlt & Hw & Hf).
  - done.
  - intros i t Hi (Hlt & Hw & Hf). destruct (aref_in t i) as [e He]; [lia|]. unfold update_entry. rewrite He. cbn [bind].
    rewrite aset_in by lia. eexists. split; [reflexivity|]. apply aref_Ret in He as [_ He].
    destruct (Forall_lookup_1 _ _ _ _ Hw He). split; [by rewrite length_insert|]. split; [by apply Forall_insert|].
    replace (Z.to_nat (i + 1)) with (S (Z.to_nat i)) by lia.
    rewrite (take_S_r _ _ (set_inUse false e)) by (apply list_lookup_insert_eq; lia).
    rewrite take_insert_ge by lia. apply Forall_app_2; [done | by constructor].
  - cbn [bind]. rewrite take_ge in Hf by lia. eexists. split; [reflexivity|].
    assert (forall i e, t !! i = Some e -> inUse e = false) as Hno by (intros i e He; exact (Forall_lookup_1 _ _ _ _ Hf He)).
    assert (wf_dir (mkDirectory size t)) as Hd.
    { split; [cbn; lia | exact Hw |]. intros i j e e' H1 H2 U1 _ _. rewrite (Hno i e H1) in U1. done. }
    split; [exact Hd|]. split; [done|]. apply map_eq. intros k. rewrite lookup_empty. apply files_None; [done|].
    intros i e (He & Hu & _). by rewrite (Hno i e He) in Hu.
Qed.

(** ** The table on disk *)

Section OnDisk.
Context (big : bool) (newmem : Z -> list Z) (newmem_length : forall n, 0 <= n -> Z.of_nat (length (newmem n)) = n).

Lemma length_entry_bytes e : wf_entry e -> length (entry_bytes big e) = 20%nat.
Proof using.
  intros [Hg _ Hn Ht]. unfold entry_bytes. cbn [length]. rewrite !length_app, Hg, Hn, Ht. unfold word_bytes. cbn. by destruct big.
Qed.

Lemma entry_roundtrip e : wf_entry e -> entry_of big (entry_bytes big e) = e.
Proof using.
  intros [Hg Hs Hn Ht]. destruct e as [u g s n t]. cbn [gap sector name tail] in *. unfold entry_bytes, entry_of. cbn [inUse gap sector name tail].
  destruct (host_word_bytes big s) as (b0 & b1 & b2 & b3 & E & Hv). rewrite E.
  destruct g as [|g0 [|g1 [|g2 [|]]]]; try discriminate Hg. cbn [app drop take hd].
  rewrite take_0, drop_0, take_app_length', drop_app_length' by done. cbn [int_of]. rewrite Hv, i32_u32, i32_small by done. by destruct u.
Qed.

Lemma length_table_bytes t : Forall wf_entry t -> length (table_bytes big t) = (20 * length t)%nat.
Proof using.
  intros Ht. unfold table_bytes. rewrite (length_concat_uniform 20), length_fmap; [done|].
  apply Forall_fmap. eapply Forall_impl; [exact Ht|]. apply length_entry_bytes.
Qed.

Lemma table_roundtrip t : Forall wf_entry t -> entries_of big (length t) (table_bytes big t) = t.
Proof using.
  induction 1 as [|e t He _ IH]; [done|]. unfold table_bytes in *. cbn [length entries_of fmap list_fmap concat].
  rewrite take_app_length', drop_app_length' by (by rewrite length_entry_bytes). by rewrite entry_roundtrip, IH.
Qed.

(** A file that holds the table [t]. *)
Definition holds_table (ss : Sectors) (f : OpenFile) (d : Directory) : Prop :=
  on_disk ss (hdr f) /\ numBytes (hdr f) = tableSize d * sizeof_entry /\ contents ss (hdr f) = table_bytes big (table d).

Lemma small_file h ss : on_disk ss h -> numBytes h <= 3840.
Proof using. intros [_ Hh]. pose proof (numSectors_bound h Hh). lia. Qed.

Lemma dir_FetchFrom_spec f d0 d ss : wf_dir d0 -> wf_dir d -> tableSize d0 = tableSize d -> 0 < tableSize d -> holds_table ss f d ->
  FetchFrom big newmem f d0 ss = Ret d.
Proof using newmem_length.
  intros H0 Hd Hsz Hpos (Hf & Hn & Hc). unfold FetchFrom, sizeof_entry in *. pose proof (small_file _ _ Hf).
  pose proof (wd_size d Hd). pose proof (wd_size d0 H0).
  rewrite (ReadAt_spec newmem newmem_length) by (done || lia). rewrite (proj2 (Z.leb_gt _ _)), (proj2 (Z.leb_gt _ _)) by lia. cbn [orb].
  rewrite Hn, Hc, Hsz, Z.sub_0_r, Z.min_id. unfold slice. change (Z.to_nat 0) with 0%nat. rewrite drop_0.
  pose proof (length_table_bytes (table d) (wd_entries d Hd)) as Hl. pose proof (length_table_bytes (table d0) (wd_entries d0 H0)) as Hl0.
  rewrite take_ge by lia. rewrite copy_into_full by lia. cbn [bind].
  assert (length (table d0) = length (table d)) as -> by lia. rewrite table_roundtrip by apply Hd.
  unfold set_table. rewrite Hsz. by destruct d.
Qed.

Lemma dir_WriteBack_spec f d ss : wf_dir d -> 0 < tableSize d -> on_disk ss (hdr f) -> numBytes (hdr f) = tableSize d * sizeof_entry ->
  exists ss', WriteBack big newmem f d ss = Ret ss' /\ untouched (hdr f) ss ss' /\ holds_table ss' f d.
Proof using newmem_length.
  intros Hd Hpos Hf Hn. unfold WriteBack, sizeof_entry, holds_table in *. pose proof (small_file _ _ Hf).
  pose proof (wd_size d Hd). pose proof (length_table_bytes (table d) (wd_entries d Hd)) as Hl.
  pose proof (length_contents ss (hdr f) Hf) as Hlc.
  pose proof (file_WriteAt_spec newmem newmem_length ss (hdr f) (table_bytes big (table d)) (tableSize d * 20) 0 Hf ltac:(lia) ltac:(lia)) as Hw.
  rewrite (proj2 (Z.leb_gt _ _)), (proj2 (Z.leb_gt _ _)) in Hw by lia. cbn [orb] in Hw. cbv zeta in Hw.
  destruct Hw as (ss' & -> & Hu & Hc'); [lia|]. cbn [bind]. exists ss'. split; [done|]. split; [exact Hu|].
  split; [split; [apply Hu | apply Hf]|]. split; [done|]. rewrite Hc', Hn, Z.sub_0_r, Z.min_id.
  unfold splice, slice. change (Z.to_nat 0) with 0%nat. rewrite take_0, drop_0. cbn [app Nat.add].
  rewrite (take_ge (table_bytes big (table d))), drop_ge, app_nil_r by lia. done.
Qed.
End OnDisk.

(** C19: a directory implements a finite map from names, cut off after nine
    characters, to sectors. Find returns the sector of the name or -1. Add fails
    when the name is there or when every entry is taken, and then changes nothing;
    otherwise it adds the binding. Remove deletes the binding of the name and no
    other, and fails, changing nothing, when there is none. Every operation keeps
    the table well formed, with no name twice. *)
Theorem Directory_implements_map fname s d : wf_dir d -> readable name_max fname -> is_i32 s ->
  let k := label fname in
  Find fname d = Ret (default (-1) (files d !! k)) /\
  (if bool_decide (is_Some (files d !! k)) || (tableSize d =? Z.of_nat (base.size (files d)))
   then Add fname s d = Ret (false, d)
   else exists d', Add fname s d = Ret (true, d') /\ wf_dir d' /\ tableSize d' = tableSize d /\ files d' = <[k := s]> (files d)) /\
  (if bool_decide (is_Some (files d !! k))
   then exists d', Remove fname d = Ret (true, d') /\ wf_dir d' /\ tableSize d' = tableSize d /\ files d' = delete k (files d)
   else Remove fname d = Ret (false, d)).
Proof.
  intros Hd Hf Hs k. pose proof (Add_spec fname s d Hd Hf Hs) as Ha. pose proof (dir_Remove_spec fname d Hd Hf) as Hr.
  split; [by apply Find_spec|]. fold k in Ha, Hr. rewrite (full_size d Hd) in Ha.
  assert (forall d' b (r : C (bool * Directory)), r = Ret (b, d') -> r = Add fname s d \/ r = Remove fname d -> tableSize d' = tableSize d) as Hsz.
  { intros d' b r Hr' [E|E]; rewrite E in Hr'; [eapply Add_size | eapply Remove_size]; exact Hr'. }
  destruct (files d !! k) as [s0|]; cbn [bool_decide orb].
  - rewrite bool_decide_true by done. split; [exact Ha|]. destruct Hr as (d' & Hr & Hd' & Hfl). exists d'.
    split; [exact Hr|]. split; [done|]. split; [|done]. by eapply Hsz; [exact Hr | right].
  - rewrite bool_decide_false by (by intros [? [=]]). cbn [orb]. split; [|exact Hr]. destruct (_ =? _); [exact Ha|].
    destruct Ha as (d' & Ha & Hd' & Hfl). exists d'. split; [exact Ha|]. split; [done|]. split; [|done]. by eapply Hsz; [exact Ha | left].
Qed.

(** ** Names of nine characters *)

Lemma prefix_full n b : length (prefix n b) = n -> prefix n b = take n b /\ Forall (fun c => c <> 0) (prefix n b).
Proof.
  revert b. induction n as [|n IH]; intros b Hl; [done|]. destruct b as [|c b]; [done|]. cbn [prefix take] in *.
  destruct (Z.eqb_spec c 0); [done|]. cbn in Hl. destruct (IH b ltac:(lia)) as [E Hf]. rewrite <- E. split; [done | by constructor].
Qed.

Lemma c_string_app l c : Forall (fun c => c <> 0) l -> c_string (l ++ [c]) = if c =? 0 then Ret l else Undef.
Proof.
  induction 1 as [|x l Hx _ IH]; [cbn; by destruct (c =? 0)|]. cbn [app c_string]. rewrite (proj2 (Z.eqb_neq x 0)), IH by done.
  by destruct (c =? 0).
Qed.

(** Add takes the first free entry. *)
Lemma Add_loop_first fname s d i e n j : wf_dir d -> table d !! i = Some e -> inUse e = false ->
  Forall (fun e => inUse e = true) (take i (table d)) -> (j <= i)%nat -> n = (length (table d) - j)%nat ->
  Add_loop fname s d (Z.of_nat j) n =
  (let! e := fill_entry fname s e in let! t := aset (table d) (Z.of_nat i) e in Ret (true, set_table t d)).
Proof.
  intros Hd Hi Hu Hall. pose proof (lookup_lt_Some _ _ _ Hi) as Hlt. revert j. induction n as [|n IH]; intros j Hj Hn; [lia|].
  cbn [Add_loop]. destruct (decide (j = i)) as [->|Hne].
  - rewrite (proj2 (aref_Ret _ _ e)) by (rewrite Nat2Z.id; split; [lia | done]). cbn [bind]. by rewrite Hu.
  - destruct (lookup_lt_is_Some_2 (table d) j) as [e' He']; [lia|].
    rewrite (proj2 (aref_Ret _ _ e')) by (rewrite Nat2Z.id; split; [lia | done]). cbn [bind].
    rewrite (Forall_lookup_1 _ _ j e' Hall) by (apply lookup_take_Some; split; [done | lia]). cbn [negb].
    replace (Z.of_nat j + 1) with (Z.of_nat (S j)) by lia. apply IH; lia.
Qed.

(** A name of nine characters has no terminating zero. strncpy fills the first
    nine characters of the entry and the last one keeps what it had, although the
    declaration reserves it for the zero: Find and Remove still work, but List reads
    past the end of the name unless the memory happened to hold a zero there. *)
Theorem nine_letter_names fname s d i e c : wf_dir d -> length (label fname) = 9%nat -> readable name_max fname -> is_i32 s ->
  files d !! label fname = None -> table d !! i = Some e -> inUse e = false ->
  Forall (fun e => inUse e = true) (take i (table d)) -> name e !! 9%nat = Some c ->
  exists d' e', Add fname s d = Ret (true, d') /\ table d' = <[i := e']> (table d) /\
    name e' = label fname ++ [c] /\ Find fname d' = Ret s /\
    (c <> 0 -> c_string (name e') = Undef) /\ (c = 0 -> c_string (name e') = Ret (label fname)).
Proof.
  intros Hd Hlen Hf Hs Hno Hi Hu Hall Hc. pose proof (wd_size d Hd) as Hsz. pose proof (lookup_lt_Some _ _ _ Hi) as Hlt.
  pose proof (Forall_lookup_1 _ _ _ _ (wd_entries d Hd) Hi) as [_ _ Hnm _].
  destruct (strncpy_spec name_max fname [] Hf) as (r & Hr & Hlr & Hp). rewrite app_nil_r in Hp. fold (label fname) in Hp.
  change name_max with 9%nat in Hlr, Hp. destruct (prefix_full 9 r) as [E Hnz]; [by rewrite Hp|]. rewrite take_ge in E by lia.
  assert (r = label fname) as -> by (rewrite <- Hp; exact (eq_sym E)). rewrite Hp in Hnz.
  assert (drop 9 (name e) = [c]) as Hdrop by (rewrite (drop_S _ c) by done; by rewrite drop_ge by lia).
  set (e' := set_sector s (set_name (label fname ++ drop name_max (name e)) (set_inUse true e))).
  assert (Add fname s d = Ret (true, set_table (<[i := e']> (table d)) d)) as HA.
  { unfold Add. pose proof (FindIndex_spec fname d Hd Hf) as Hfi. rewrite Hno in Hfi. rewrite Hfi. cbn [bind].
    rewrite (Add_loop_first fname s d i e _ 0) by (done || lia). unfold fill_entry. rewrite Hr. cbn [bind]. fold e'.
    rewrite aset_in by lia. cbn [bind]. by rewrite Nat2Z.id. }
  pose proof (Add_spec fname s d Hd Hf Hs) as Ha. rewrite Hno in Ha. destruct (forallb inUse (table d)); [congruence|].
  destruct Ha as (d' & Ha & Hd' & Hfl). rewrite HA in Ha. injection Ha as <-.
  eexists _, e'. split; [exact HA|]. split; [done|]. change name_max with 9%nat in e'.
  assert (name e' = label fname ++ [c]) as Hne by (unfold e'; cbn [name set_sector set_name]; by rewrite Hdrop).
  split; [exact Hne|]. split; [|by rewrite Hne, c_string_app by done; split; [intros Hc0; rewrite (proj2 (Z.eqb_neq c 0) Hc0) | intros ->]].
  rewrite Find_spec, Hfl by done. by rewrite lookup_insert_eq.
Qed.

(** ** A directory of two entries *)

Module Demo.

Definition garbage : list DirectoryEntry := replicate 2 (mkEntry true [7; 7; 7] 9 (replicate 10 88) [0; 0]).
Definition empty : Directory := mkDirectory 2 (set_inUse false <$> garbage).

Lemma empty_wf : wf_dir empty /\ files empty = ∅.
Proof.
  destruct (new_Directory_spec 2 garbage) as (d & Hd & Hw & _ & Hf); [done | by apply Forall_replicate; split |].
  assert (new_Directory 2 garbage = Ret empty) as E by reflexivity. rewrite E in Hd. injection Hd as <-. by split.
Qed.

Definition nine : list Z := [97; 98; 99; 100; 101; 102; 103; 104; 105; 106; 0].

Example ten_letters_are_nine :
  (let! (_, d) := Add nine 5 empty in Find [97; 98; 99; 100; 101; 102; 103; 104; 105; 0] d) = Ret 5.
Proof. reflexivity. Qed.

Lemma Directory_implements_map_witness : exists d, Add nine 5 empty = Ret (true, d) /\ files d = {[label nine := 5]}.
Proof.
  destruct empty_wf as [Hw Hf].
  destruct (Directory_implements_map nine 5 empty Hw) as (_ & Ha & _); [vm_compute; tauto | done |].
  rewrite Hf in Ha. cbn [bool_decide orb] in Ha. destruct (Ha : exists d', _) as (d & HA & _ & _ & Hfl). exists d. split; [exact HA | exact Hfl].
Defined.

Lemma nine_letter_names_witness : exists d, Add nine 5 empty = Ret (true, d) /\ Find nine d = Ret 5 /\ Directory.List d = Undef.
Proof.
  destruct empty_wf as [Hw Hf].
  destruct (nine_letter_names nine 5 empty 0 (mkEntry false [7; 7; 7] 9 (replicate 10 88) [0; 0]) 88 Hw)
    as (d & e & HA & _ & _ & Hfi & _); try reflexivity.
  - vm_compute. tauto.
  - done.
  - constructor.
  - exists d. split; [exact HA|]. split; [exact Hfi|]. assert (Add nine 5 empty = Ret (true, d)) as E by exact HA.
    vm_compute in E. injection E as <-. reflexivity.
Defined.
End Demo.
