(* ===== verification/FileSys.v ===== *)
(** * The file system (filesys/filesys.h, filesys/filesys.cc; FetchFrom and WriteBack
      of userprog/bitmap.cc)

    The map of free sectors and the directory are files themselves, with headers in
    sectors 0 and 1. Create, Open and Remove read them from the disk, change them in
    memory and write them back when everything has succeeded. The contract is a
    finite map from names to contents of fixed length; the theorems show that the
    operations implement it, from the formatting of a disk on, and that a failing
    operation leaves the disk as it was. Operations run one after the other, as the
    source requires. *)

From S2P Require Import Prelude BitMap Machine Disk SynchDisk Ints FileHdr OpenFile Directory.

Definition FreeMapSector : Z := 0.
Definition DirectorySector : Z := 1.
Definition BitsInByte : Z := 8.
Definition FreeMapFileSize : Z := Z.quot NumSectors BitsInByte.
Definition NumDirEntries : Z := 10.
Definition DirectoryFileSize : Z := sizeof_entry * NumDirEntries.

(** The two files that stay open. *)
Record FileSystem := mkFS { freeMapFile : OpenFile; directoryFile : OpenFile }.

(** What [new] returns: arrays and objects with undefined content, and the byte order of
    the host. *)
Record Memory := mkMemory {
  big : bool;
  newmem : Z -> list Z;
  newmap : nat -> Z;
  newtable : list DirectoryEntry;
  newheader : FileHeader
}.

Section Code.
Variable M : Memory.

(** BitMap::FetchFrom and WriteBack: the words as memory. *)
Definition map_bytes (bm : BitMap) : list Z := ints_bytes (big M) (map bm).

Definition BitMap_FetchFrom (f : OpenFile) (bm : BitMap) (ss : Sectors) : C BitMap :=
  let! (_, bs) := ReadAt (newmem M) (hdr f) (map_bytes bm) 0 (numWords bm * 4) 0 ss in
  Ret (mkBitMap (BitMap.numBits bm) (numWords bm) (u32 <$> ints_of (big M) bs)).

Definition BitMap_WriteBack (f : OpenFile) (bm : BitMap) (ss : Sectors) : C Sectors :=
  let! (_, ss) := WriteAt (newmem M) (hdr f) (map_bytes bm) (numWords bm * 4) 0 ss in Ret ss.

Definition open_sector (sector : Z) (ss : Sectors) : C OpenFile := new_OpenFile (big M) (newheader M) sector ss.

(** The constructor, with the format flag. *)
Definition Format (ss : Sectors) : C (FileSystem * Sectors) :=
  let! freeMap := new_BitMap NumSectors (newmap M) in
  let! directory := new_Directory NumDirEntries (newtable M) in
  let! freeMap := Mark freeMap FreeMapSector in
  let! freeMap := Mark freeMap DirectorySector in
  let! (ok, (freeMap, mapHdr)) := Allocate freeMap FreeMapFileSize (newheader M) in
  let! _ := ASSERT ok in
  let! (ok, (freeMap, dirHdr)) := Allocate freeMap DirectoryFileSize (newheader M) in
  let! _ := ASSERT ok in
  let! ss := FileHdr.WriteBack (big M) FreeMapSector mapHdr ss in
  let! ss := FileHdr.WriteBack (big M) DirectorySector dirHdr ss in
  let! freeMapFile := open_sector FreeMapSector ss in
  let! directoryFile := open_sector DirectorySector ss in
  let! ss := BitMap_WriteBack freeMapFile freeMap ss in
  let! ss := Directory.WriteBack (big M) (newmem M) directoryFile directory ss in
  Ret (mkFS freeMapFile directoryFile, ss).

(** The constructor without it. *)
Definition Mount (ss : Sectors) : C FileSystem :=
  let! freeMapFile := open_sector FreeMapSector ss in
  let! directoryFile := open_sector DirectorySector ss in
  Ret (mkFS freeMapFile directoryFile).

Definition fetch_directory (fs : FileSystem) (ss : Sectors) : C Directory :=
  let! directory := new_Directory NumDirEntries (newtable M) in
  Directory.FetchFrom (big M) (newmem M) (directoryFile fs) directory ss.

Definition fetch_free_map (fs : FileSystem) (ss : Sectors) : C BitMap :=
  let! freeMap := new_BitMap NumSectors (newmap M) in BitMap_FetchFrom (freeMapFile fs) freeMap ss.

(** The part of Create where a header, a name and the data sectors are found. *)
Definition create_file (fname : list Z) (initialSize : Z) (directory : Directory) (freeMap : BitMap)
  : C (option (Z * (FileHeader * (Directory * BitMap)))) :=
  let! (sector, freeMap) := BitMap.Find freeMap in
  if sector =? -1 then Ret None
  else
    let! (ok, directory) := Add fname sector directory in
    if negb ok then Ret None
    else
      let! (ok, (freeMap, h)) := Allocate freeMap initialSize (newheader M) in
      Ret (if negb ok then None else Some (sector, (h, (directory, freeMap)))).

Definition flush (fs : FileSystem) (sector : Z) (h : FileHeader) (directory : Directory) (freeMap : BitMap) (ss : Sectors) : C Sectors :=
  let! ss := FileHdr.WriteBack (big M) sector h ss in
  let! ss := Directory.WriteBack (big M) (newmem M) (directoryFile fs) directory ss in
  BitMap_WriteBack (freeMapFile fs) freeMap ss.

Definition Create (fname : list Z) (initialSize : Z) (fs : FileSystem) (ss : Sectors) : C (bool * Sectors) :=
  let! directory := fetch_directory fs ss in
  let! found := Directory.Find fname directory in
  if negb (found =? -1) then Ret (false, ss)
  else
    let! freeMap := fetch_free_map fs ss in
    let! r := create_file fname initialSize directory freeMap in
    match r with
    | None => Ret (false, ss)
    | Some (sector, (h, (directory, freeMap))) =>
        let! ss := flush fs sector h directory freeMap ss in Ret (true, ss)
    end.

Definition Open (fname : list Z) (fs : FileSystem) (ss : Sectors) : C (option OpenFile) :=
  let! directory := fetch_directory fs ss in
  let! sector := Directory.Find fname directory in
  if 0 <=? sector then let! f := open_sector sector ss in Ret (Some f) else Ret None.

Definition Remove (fname : list Z) (fs : FileSystem) (ss : Sectors) : C (bool * Sectors) :=
  let! directory := fetch_directory fs ss in
  let! sector := Directory.Find fname directory in
  if sector =? -1 then Ret (false, ss)
  else
    let! h := FileHdr.FetchFrom (big M) sector (newheader M) ss in
    let! freeMap := fetch_free_map fs ss in
    let! freeMap := Deallocate freeMap h in
    let! freeMap := BitMap.Clear freeMap sector in
    let! (_, directory) := Directory.Remove fname directory in
    let! ss := BitMap_WriteBack (freeMapFile fs) freeMap ss in
    let! ss := Directory.WriteBack (big M) (newmem M) (directoryFile fs) directory ss in
    Ret (true, ss).

(** The lines that List prints. *)
Definition List_files (fs : FileSystem) (ss : Sectors) : C (list (list Z)) :=
  let! directory := fetch_directory fs ss in Directory.List directory.
End Code.

(** ** The layout of a disk *)

(** Who a sector belongs to. *)
Inductive owner := MapHeader | DirHeader | MapData | DirData | Header (k : list Z) | Data (k : list Z).

(** Every file: the sector of its header, and the header. *)
Notation Layout := (gmap (list Z) (Z * FileHeader)).

Definition owns (fs : FileSystem) (L : Layout) (o : owner) (j : Z) : Prop :=
  match o with
  | MapHeader => j = FreeMapSector
  | DirHeader => j = DirectorySector
  | MapData => j ∈ used (hdr (freeMapFile fs))
  | DirData => j ∈ used (hdr (directoryFile fs))
  | Header k => exists h, L !! k = Some (j, h)
  | Data k => exists s h, L !! k = Some (s, h) /\ j ∈ used h
  end.

(** The contents of the files. *)
Definition view (ss : Sectors) (L : Layout) : gmap (list Z) (list Z) := (fun f => contents ss f.2) <$> L.

Section Invariant.
Variable M : Memory.

Definition stored (ss : Sectors) (s : Z) (h : FileHeader) : Prop :=
  0 <= s < NumSectors /\ wf_header h /\ ss !! Z.to_nat s = Some (header_bytes (big M) h).

Definition holds_map (ss : Sectors) (f : OpenFile) (bm : BitMap) : Prop :=
  on_disk ss (hdr f) /\ numBytes (hdr f) = FreeMapFileSize /\ contents ss (hdr f) = map_bytes M bm.

Record fs_ok (fs : FileSystem) (ss : Sectors) (bm : BitMap) (d : Directory) (L : Layout) : Prop := {
  ok_map : holds_map ss (freeMapFile fs) bm /\ wf bm /\ BitMap.numBits bm = NumSectors;
  ok_dir : holds_table (big M) ss (directoryFile fs) d /\ wf_dir d /\ tableSize d = NumDirEntries;
  ok_heads : stored ss FreeMapSector (hdr (freeMapFile fs)) /\ stored ss DirectorySector (hdr (directoryFile fs));
  ok_files : files d = fst <$> L;
  ok_layout : map_Forall (fun _ f => stored ss f.1 f.2) L;
  ok_owner : forall o o' j, owns fs L o j -> owns fs L o' j -> o = o';
  ok_marked : forall j, 0 <= j < NumSectors -> bit bm j = true <-> exists o, owns fs L o j
}.
End Invariant.

(** The owners on a fresh disk. *)
Lemma format_layout mh dh bm : used mh = [2] -> used dh = [3; 4] ->
  (forall j, 0 <= j < NumSectors -> bit bm j = bool_decide (j ∈ used dh) || (bool_decide (j ∈ used mh) || ((j =? 1) || (j =? 0)))) ->
  let fs := mkFS (mkOpen mh 0) (mkOpen dh 0) in
  (forall o o' j, owns fs ∅ o j -> owns fs ∅ o' j -> o = o') /\
  (forall j, 0 <= j < NumSectors -> bit bm j = true <-> exists o, owns fs ∅ o j).
Proof.
  intros Hm Hd Hb fs.
  assert (forall o j, owns fs ∅ o j <-> (o = MapHeader /\ j = 0) \/ (o = DirHeader /\ j = 1) \/ (o = MapData /\ j = 2) \/
    (o = DirData /\ (j = 3 \/ j = 4))) as Ho.
  { intros o j. destruct o as [| | | |k|k]; unfold fs; cbn; rewrite ?Hm, ?Hd, ?lookup_empty; set_solver. }
  split.
  - intros o o' j H1%Ho H2%Ho. naive_solver lia.
  - intros j Hj. rewrite Hb by done. setoid_rewrite Ho. rewrite Hm, Hd, !orb_true_iff, !bool_decide_eq_true, !Z.eqb_eq, !elem_of_cons, elem_of_nil.
    split; [|naive_solver]. intros [[->|[->|[]]]|[[->|[]]|[-> | ->]]]; [exists DirData | exists DirData | exists MapData | exists DirHeader | exists MapHeader]; tauto.
Qed.

(** ** The two files of the system *)

Record good_memory (M : Memory) : Prop := {
  gm_mem : forall n, 0 <= n -> Z.of_nat (length (newmem M n)) = n;
  gm_table : Z.of_nat (length (newtable M)) = NumDirEntries /\ Forall wf_entry (newtable M);
  gm_header : is_header (newheader M)
}.

Section Facts.
Context (M : Memory) (G : good_memory M).

Lemma words_roundtrip ws : Forall is_u32 ws -> u32 <$> ints_of (big M) (ints_bytes (big M) ws) = ws.
Proof using.
  induction 1 as [|w ws Hw _ IH]; [done|]. unfold ints_bytes in *. cbn [fmap list_fmap concat].
  destruct (host_word_bytes (big M) w) as (b0 & b1 & b2 & b3 & E & Hv). rewrite E. cbn [app ints_of fmap list_fmap].
  rewrite Hv, u32_i32, u32_idemp, u32_small by done. f_equal. exact IH.
Qed.

Lemma length_map_bytes bm : wf bm -> BitMap.numBits bm = NumSectors -> length (map_bytes M bm) = 128%nat /\ numWords bm = 32.
Proof using.
  intros [_ Hw Hl _] Hn. rewrite Hn in Hw. change (divRoundUp NumSectors 32) with 32 in Hw.
  unfold map_bytes. rewrite length_ints_bytes. lia.
Qed.

Lemma BitMap_FetchFrom_spec f bm0 bm ss : wf bm0 -> BitMap.numBits bm0 = NumSectors -> wf bm -> BitMap.numBits bm = NumSectors ->
  holds_map M ss f bm -> BitMap_FetchFrom M f bm0 ss = Ret bm.
Proof using G.
  intros H0 Hn0 H Hn (Hd & Hsz & Hc). change FreeMapFileSize with 128 in Hsz. unfold BitMap_FetchFrom.
  destruct (length_map_bytes bm0 H0 Hn0) as [Hl0 Hw0]. destruct (length_map_bytes bm H Hn) as [Hl Hw].
  rewrite (ReadAt_spec _ (gm_mem M G)) by (done || lia). rewrite (proj2 (Z.leb_gt _ _)), (proj2 (Z.leb_gt _ _)) by lia. cbn [orb].
  rewrite Hsz, Hc, Hw0. change (Z.min (32 * 4) (128 - 0)) with 128. unfold slice. change (Z.to_nat 0) with 0%nat.
  rewrite drop_0, take_ge by lia. rewrite copy_into_full by lia. cbn [bind]. unfold map_bytes.
  rewrite words_roundtrip by apply H. destruct bm. cbn in *. congruence.
Qed.

Lemma BitMap_WriteBack_spec f bm ss : wf bm -> BitMap.numBits bm = NumSectors -> on_disk ss (hdr f) -> numBytes (hdr f) = FreeMapFileSize ->
  exists ss', BitMap_WriteBack M f bm ss = Ret ss' /\ untouched (hdr f) ss ss' /\ holds_map M ss' f bm.
Proof using G.
  intros H Hn Hd Hsz. pose proof Hsz as Hsz'. change FreeMapFileSize with 128 in Hsz'. unfold BitMap_WriteBack.
  destruct (length_map_bytes bm H Hn) as [Hl Hw]. pose proof (length_contents ss (hdr f) Hd) as Hlc.
  pose proof (file_WriteAt_spec _ (gm_mem M G) ss (hdr f) (map_bytes M bm) (numWords bm * 4) 0 Hd ltac:(lia) ltac:(lia)) as Hr.
  rewrite (proj2 (Z.leb_gt _ _)), (proj2 (Z.leb_gt _ _)) in Hr by lia. cbn [orb] in Hr. cbv zeta in Hr.
  destruct Hr as (ss' & -> & Hu & Hc'); [lia|]. cbn [bind]. exists ss'. split; [done|]. split; [exact Hu|].
  split; [split; [apply Hu | apply Hd]|]. split; [done|]. rewrite Hc', Hsz', Hw. change (Z.min (32 * 4) (128 - 0)) with 128.
  unfold splice, slice. change (Z.to_nat 0) with 0%nat. rewrite take_0, drop_0. cbn [app Nat.add].
  rewrite (take_ge (map_bytes M bm)), drop_ge, app_nil_r by lia. done.
Qed.

Lemma fetch_directory_spec fs ss bm d L : fs_ok M fs ss bm d L -> fetch_directory M fs ss = Ret d.
Proof using G.
  intros [_ (Ht & Hd & Hs) _ _ _ _ _]. unfold fetch_directory. destruct (gm_table M G) as [Hl Hg].
  destruct (new_Directory_spec NumDirEntries (newtable M) Hl Hg) as (d0 & -> & Hd0 & Hs0 & _). cbn [bind].
  apply (dir_FetchFrom_spec (big M) _ (gm_mem M G) (directoryFile fs) d0 d ss Hd0 Hd); [congruence | rewrite Hs; done | exact Ht].
Qed.

Lemma fetch_free_map_spec fs ss bm d L : fs_ok M fs ss bm d L -> fetch_free_map M fs ss = Ret bm.
Proof using G.
  intros [(Hm & Hw & Hn) _ _ _ _ _ _]. unfold fetch_free_map.
  destruct (new_BitMap_spec NumSectors (newmap M)) as (bm0 & -> & Hw0 & Hn0 & _); [done|]. cbn [bind].
  by apply BitMap_FetchFrom_spec.
Qed.

(** ** Frames *)

Lemma stored_same ss ss' s h : ss' !! Z.to_nat s = ss !! Z.to_nat s -> stored M ss s h -> stored M ss' s h.
Proof using. intros E (Hr & Hw & Hs). split; [done|]. split; [done|]. by rewrite E. Qed.

Definition same_on (l : list Z) (ss ss' : Sectors) : Prop := forall s, s ∈ l -> ss' !! Z.to_nat s = ss !! Z.to_nat s.

Lemma holds_map_same ss ss' f bm : wf_sectors ss' -> same_on (used (hdr f)) ss ss' -> holds_map M ss f bm -> holds_map M ss' f bm.
Proof using. intros Hw E (Hd & Hn & Hc). split; [split; [done | apply Hd]|]. split; [done|]. by rewrite (contents_same ss ss'). Qed.

Lemma holds_table_same ss ss' f d : wf_sectors ss' -> same_on (used (hdr f)) ss ss' ->
  holds_table (big M) ss f d -> holds_table (big M) ss' f d.
Proof using. intros Hw E (Hd & Hn & Hc). split; [split; [done | apply Hd]|]. split; [done|]. by rewrite (contents_same ss ss'). Qed.

Lemma used_range h s : wf_header h -> s ∈ used h -> 0 <= s < NumSectors.
Proof using. intros Hh Hs. exact (proj1 (Forall_forall _ _) (wh_range h Hh) s Hs). Qed.

(** Owned sectors are sectors of the disk. *)
Lemma owns_range fs ss bm d L o j : fs_ok M fs ss bm d L -> owns fs L o j -> 0 <= j < NumSectors.
Proof using.
  intros K Ho. destruct (ok_heads M _ _ _ _ _ K) as [(Hr0 & _) (Hr1 & _)].
  destruct o as [| | | |k|k]; cbn in Ho.
  - rewrite Ho. exact Hr0.
  - rewrite Ho. exact Hr1.
  - exact (used_range _ _ (proj2 (proj1 (proj1 (ok_map M _ _ _ _ _ K)))) Ho).
  - exact (used_range _ _ (proj2 (proj1 (proj1 (ok_dir M _ _ _ _ _ K)))) Ho).
  - destruct Ho as (h & HL). apply (ok_layout M _ _ _ _ _ K) in HL. apply HL.
  - destruct Ho as (s & h & HL & Hj). apply (ok_layout M _ _ _ _ _ K) in HL as (_ & Hw & _). exact (used_range _ _ Hw Hj).
Qed.

Lemma owns_insert fs L k s h o j : L !! k = None ->
  owns fs (<[k := (s, h)]> L) o j <-> (o = Header k /\ j = s) \/ (o = Data k /\ j ∈ used h) \/ owns fs L o j.
Proof using.
  intros HL. destruct o as [| | | |k'|k']; cbn; try naive_solver.
  - destruct (decide (k' = k)) as [->|Hne].
    + rewrite lookup_insert_eq, HL. naive_solver.
    + rewrite lookup_insert_ne by done. naive_solver.
  - destruct (decide (k' = k)) as [->|Hne].
    + rewrite lookup_insert_eq, HL. naive_solver.
    + rewrite lookup_insert_ne by done. naive_solver.
Qed.

Lemma owns_delete fs L k o j : owns fs (delete k L) o j <-> owns fs L o j /\ o <> Header k /\ o <> Data k.
Proof using.
  destruct o as [| | | |k'|k']; cbn; try naive_solver.
  - destruct (decide (k' = k)) as [->|Hne]; [rewrite lookup_delete_eq; naive_solver | rewrite lookup_delete_ne by done; naive_solver].
  - destruct (decide (k' = k)) as [->|Hne]; [rewrite lookup_delete_eq; naive_solver | rewrite lookup_delete_ne by done; naive_solver].
Qed.

(** ** Create *)

(** The room on the disk, in sectors. *)
Definition room (bm : BitMap) : Z := Z.of_nat (length (clear_bits bm)).

(** What Create has found: a free sector for the header, free sectors for the data,
    and an entry. *)
Record created (k : list Z) (size : Z) (bm : BitMap) (d : Directory) (s : Z) (h : FileHeader) (d' : Directory) (bm' : BitMap) : Prop := {
  cr_sector : 0 <= s < NumSectors /\ bit bm s = false;
  cr_header : wf_header h /\ numBytes h = size;
  cr_data : forall j, j ∈ used h -> bit bm j = false /\ j <> s;
  cr_dir : wf_dir d' /\ tableSize d' = tableSize d /\ files d' = <[k := s]> (files d);
  cr_map : wf bm' /\ BitMap.numBits bm' = NumSectors /\
    forall j, 0 <= j -> bit bm' j = bool_decide (j ∈ used h) || ((j =? s) || bit bm j);
  cr_room : room bm' = room bm - 1 - divRoundUp size 128
}.

(** Create up to the allocation of the data sectors. *)
Lemma create_file_start fname size d bm : wf_dir d -> wf bm -> BitMap.numBits bm = NumSectors ->
  readable name_max fname -> files d !! label fname = None ->
  match clear_bits bm with
  | [] => create_file M fname size d bm = Ret None
  | s :: rest =>
      0 <= s < NumSectors /\ bit bm s = false /\
      exists bm1, wf bm1 /\ BitMap.numBits bm1 = NumSectors /\ clear_bits bm1 = rest /\
        (forall j, 0 <= j -> bit bm1 j = (j =? s) || bit bm j) /\
        if tableSize d =? Z.of_nat (base.size (files d)) then create_file M fname size d bm = Ret None
        else exists d', wf_dir d' /\ tableSize d' = tableSize d /\ files d' = <[label fname := s]> (files d) /\
          create_file M fname size d bm =
            (let! (ok, (freeMap, h)) := Allocate bm1 size (newheader M) in
             Ret (if negb ok then None else Some (s, (h, (d', freeMap)))))
  end.
Proof using.
  intros Hd Hw Hn Hf Hno. unfold create_file. pose proof (Find_allocates_least_spec bm Hw) as Hfind.
  destruct (clear_bits bm) as [|s rest] eqn:Ec; [by rewrite Hfind|].
  destruct Hfind as (bm1 & -> & Hw1 & Hn1 & Hc1 & Hs & Hb1 & _). cbn [bind]. rewrite (proj2 (Z.eqb_neq s (-1))) by lia.
  assert (bit bm s = false) as Hbs by (apply (clear_bits_in bm s); rewrite Ec; by left).
  rewrite Hn in Hs, Hn1. split; [done|]. split; [done|]. exists bm1. do 4 (split; [done|]).
  pose proof (Add_spec fname s d Hd Hf) as Ha. rewrite Hno, (full_size d Hd) in Ha.
  specialize (Ha ltac:(unfold is_i32, NumSectors, SectorsPerTrack, NumTracks in *; lia)).
  destruct (tableSize d =? _); [by rewrite Ha|].
  destruct Ha as (d' & Ha & Hd' & Hfl). exists d'. rewrite Ha. split; [done|]. split; [by eapply Add_size | by split].
Qed.

Lemma create_file_spec fname size d bm : wf_dir d -> wf bm -> BitMap.numBits bm = NumSectors ->
  readable name_max fname -> 0 <= size <= MaxFileSize -> files d !! label fname = None ->
  if (tableSize d =? Z.of_nat (base.size (files d))) || (room bm <? 1 + divRoundUp size 128)
  then create_file M fname size d bm = Ret None
  else exists s h d' bm', create_file M fname size d bm = Ret (Some (s, (h, (d', bm')))) /\
    created (label fname) size bm d s h d' bm'.
Proof using G.
  intros Hd Hw Hn Hf Hsz Hno. pose proof (divRoundUp_direct size Hsz) as Hdr. unfold room.
  pose proof (create_file_start fname size d bm Hd Hw Hn Hf Hno) as Hst. destruct (clear_bits bm) as [|s rest] eqn:Ec.
  { rewrite (proj2 (Z.ltb_lt _ _)), orb_true_r by (cbn [length]; lia). exact Hst. }
  destruct Hst as (Hs & Hbs & bm1 & Hw1 & Hn1 & Hc1 & Hb1 & Hc). destruct (tableSize d =? _); cbn [orb]; [exact Hc|].
  destruct Hc as (d' & Hd' & Hts & Hfl & ->).
  pose proof (Allocate_spec bm1 size (newheader M) Hw1 Hn1 (gm_header M G) Hsz) as Hal. cbv zeta in Hal. rewrite Hc1 in Hal. cbn [length].
  destruct (Z.ltb_spec (Z.of_nat (length rest)) (divRoundUp size 128)), (Z.ltb_spec (Z.of_nat (S (length rest))) (1 + divRoundUp size 128)); try lia.
  { by destruct Hal as (h' & ->). }
  destruct Hal as (bm2 & h & -> & Hh & Hnb & Hu & Hc2 & Hw2 & Hn2 & Hb2). cbn [bind negb].
  exists s, h, d', bm2. split; [reflexivity|]. split; [done | done | | done | |].
  - intros j Hj. rewrite Hu in Hj. apply elem_of_take in Hj as (i & Hi & _).
    assert (j ∈ clear_bits bm1) as Hin by (rewrite Hc1; by eapply list_elem_of_lookup_2).
    apply clear_bits_in in Hin as [Hjr Hjb]. rewrite Hb1 in Hjb by lia. apply orb_false_iff in Hjb as [Hne%Z.eqb_neq Hjb]. done.
  - split; [done|]. split; [done|]. intros j Hj. by rewrite Hb2, Hb1 by lia.
  - unfold room. rewrite Hc2, Ec, length_drop. cbn [length]. lia.
Qed.

(** A file too big for its header: the disk runs out of sectors, or the header of
    entries. *)
Lemma create_file_big fname size d bm : wf_dir d -> wf bm -> BitMap.numBits bm = NumSectors ->
  readable name_max fname -> MaxFileSize < size < 2^31 -> files d !! label fname = None ->
  create_file M fname size d bm =
  if (tableSize d =? Z.of_nat (base.size (files d))) || (room bm <? 1 + divRoundUp size 128) then Ret None else Undef.
Proof using G.
  intros Hd Hw Hn Hf Hsz Hno. unfold room. pose proof (create_file_start fname size d bm Hd Hw Hn Hf Hno) as Hst.
  pose proof (divRoundUp_nonneg size 128 ltac:(change MaxFileSize with 3840 in Hsz; lia) ltac:(lia)) as Hdr.
  destruct (clear_bits bm) as [|s rest] eqn:Ec.
  { rewrite (proj2 (Z.ltb_lt _ _)), orb_true_r by (cbn [length]; lia). exact Hst. }
  destruct Hst as (Hs & Hbs & bm1 & Hw1 & Hn1 & Hc1 & Hb1 & Hc). destruct (tableSize d =? _); cbn [orb]; [exact Hc|].
  destruct Hc as (d' & Hd' & Hts & Hfl & ->). cbn [length].
  destruct (Z.ltb_spec (Z.of_nat (S (length rest))) (1 + divRoundUp size 128)).
  - unfold Allocate. rewrite NumClear_spec, Hc1 by done. cbn [bind numSectors]. change SectorSize with 128.
    rewrite (proj2 (Z.ltb_lt _ _)) by lia. reflexivity.
  - rewrite (Allocate_overflows bm1 size (newheader M)); [reflexivity | done | done | apply (gm_header M G) | done |]. rewrite Hc1. lia.
Qed.

(** Writing the changed header, directory and map back. *)
Lemma flush_spec fs ss bm d L s h d' bm' : fs_ok M fs ss bm d L -> stored M (<[Z.to_nat s := header_bytes (big M) h]> ss) s h ->
  (forall o, ~ owns fs L o s) -> wf_dir d' -> tableSize d' = tableSize d -> wf bm' -> BitMap.numBits bm' = NumSectors ->
  exists ss', flush M fs s h d' bm' ss = Ret ss' /\ holds_map M ss' (freeMapFile fs) bm' /\
    holds_table (big M) ss' (directoryFile fs) d' /\ stored M ss' s h /\
    (forall j, 0 <= j -> j <> s -> ~ owns fs L MapData j -> ~ owns fs L DirData j -> ss' !! Z.to_nat j = ss !! Z.to_nat j).
Proof using G.
  intros K Hst Hfree Hd' Hsz Hw' Hn'. destruct (ok_map M _ _ _ _ _ K) as (Hm & Hw & Hn). destruct (ok_dir M _ _ _ _ _ K) as (Ht & Hd & Hs).
  pose proof Hst as (Hr & Hh & _). pose proof (proj1 Hm) as [Hss Hmh]. unfold flush.
  rewrite (header_WriteBack_spec (big M) s h ss Hss Hr (wh_header h Hh)). cbn [bind]. set (ss1 := <[Z.to_nat s := _]> ss) in *.
  assert (wf_sectors ss1) as Hw1 by (apply wf_sectors_insert; [done | apply length_header_bytes, Hh]).
  assert (forall j, 0 <= j -> j <> s -> ss1 !! Z.to_nat j = ss !! Z.to_nat j) as E1.
  { intros j Hj Hne. unfold ss1. apply list_lookup_insert_ne. lia. }
  assert (holds_table (big M) ss1 (directoryFile fs) d) as Ht1.
  { apply (holds_table_same ss); [done | | exact Ht]. intros j Hj. pose proof (used_range _ _ (proj2 (proj1 Ht)) Hj).
    apply E1; [lia|]. intros ->. by apply (Hfree DirData). }
  destruct (dir_WriteBack_spec (big M) (newmem M) (gm_mem M G) (directoryFile fs) d' ss1 Hd') as (ss2 & Hr2 & [Hw2 Hu2] & Ht2);
    [by rewrite Hsz, Hs | apply Ht1 | rewrite Hsz; apply Ht1 |]. rewrite Hr2. cbn [bind].
  assert (holds_map M ss2 (freeMapFile fs) bm) as Hm2.
  { apply (holds_map_same ss); [done | | exact Hm]. intros j Hj. pose proof (used_range _ _ Hmh Hj).
    rewrite Hu2, E1; [done | lia | | lia |].
    - intros ->. by apply (Hfree MapData).
    - intros Hj'. by pose proof (ok_owner M _ _ _ _ _ K DirData MapData j Hj' Hj). }
  destruct (BitMap_WriteBack_spec (freeMapFile fs) bm' ss2 Hw' Hn' (proj1 Hm2) (proj1 (proj2 Hm2))) as (ss3 & Hr3 & [Hw3 Hu3] & Hm3).
  exists ss3. split; [exact Hr3|]. split; [exact Hm3|]. split; [|split].
  - apply (holds_table_same ss2); [done | | exact Ht2]. intros j Hj. pose proof (used_range _ _ (proj2 (proj1 Ht)) Hj).
    apply Hu3; [lia|]. intros Hj'. by pose proof (ok_owner M _ _ _ _ _ K DirData MapData j Hj Hj').
  - apply (stored_same ss1); [|exact Hst]. rewrite Hu3, Hu2; [done | lia | | lia |].
    + intros Hj. by apply (Hfree DirData).
    + intros Hj. by apply (Hfree MapData).
  - intros j Hj Hne Hnm Hnd. rewrite Hu3, Hu2, E1; done.
Qed.

Lemma files_layout fs ss bm d L k : fs_ok M fs ss bm d L -> files d !! k = fst <$> L !! k.
Proof using. intros K. by rewrite (ok_files M _ _ _ _ _ K), lookup_fmap. Qed.

Lemma size_layout fs ss bm d L : fs_ok M fs ss bm d L -> base.size (files d) = base.size L.
Proof using. intros K. by rewrite (ok_files M _ _ _ _ _ K), map_size_fmap. Qed.

(** A file whose sectors are the same has the same contents. *)
Lemma view_same ss ss' L : map_Forall (fun _ f => same_on (used f.2) ss ss') L -> view ss' L = view ss L.
Proof using.
  intros H. unfold view. apply map_fmap_ext. intros k f Hf. apply contents_same. exact (map_Forall_lookup_1 _ _ _ _ H Hf).
Qed.

(** Sectors of files lie outside the map and the directory. *)
Lemma file_sector fs ss bm d L o j : fs_ok M fs ss bm d L -> owns fs L o j -> o <> MapData -> o <> DirData ->
  ~ owns fs L MapData j /\ ~ owns fs L DirData j.
Proof using.
  intros K Ho Hm Hd. split; intros Ho'; [apply Hm | apply Hd]; by apply (ok_owner M _ _ _ _ _ K _ _ j).
Qed.

Lemma created_ok fs ss bm d L k size s h d' bm' ss' : fs_ok M fs ss bm d L -> L !! k = None ->
  created k size bm d s h d' bm' ->
  holds_map M ss' (freeMapFile fs) bm' -> holds_table (big M) ss' (directoryFile fs) d' -> stored M ss' s h ->
  (forall j, 0 <= j -> j <> s -> ~ owns fs L MapData j -> ~ owns fs L DirData j -> ss' !! Z.to_nat j = ss !! Z.to_nat j) ->
  fs_ok M fs ss' bm' d' (<[k := (s, h)]> L) /\ view ss' (<[k := (s, h)]> L) = <[k := contents ss' h]> (view ss L).
Proof using.
  intros K HL [[Hs Hbs] [Hh Hsz] Hdata (Hd' & Hts & Hfl) (Hw' & Hn' & Hb') _] Hm Ht Hst Hsame.
  assert (forall o j, owns fs L o j -> 0 <= j /\ j <> s /\ j ∉ used h) as Hold.
  { intros o j Ho. pose proof (owns_range fs ss bm d L o j K Ho) as Hr. assert (bit bm j = true) as Hbj by (apply (ok_marked M _ _ _ _ _ K j Hr); by exists o).
    split; [lia|]. split; [congruence|]. intros Hin. apply Hdata in Hin as [Hbf _]. congruence. }
  assert (forall o j, owns fs L o j -> o <> MapData -> o <> DirData -> ss' !! Z.to_nat j = ss !! Z.to_nat j) as Hkeep.
  { intros o j Ho Hnm Hnd. destruct (Hold o j Ho) as (H0 & Hne & _). destruct (file_sector fs ss bm d L o j K Ho Hnm Hnd). by apply Hsame. }
  destruct (ok_heads M _ _ _ _ _ K) as [H0 H1]. split; [|].
  - split; try done.
    + split; [done|]. split; [done|]. by rewrite Hts; apply (ok_dir M _ _ _ _ _ K).
    + split; (apply (stored_same ss); [|done]); [by apply (Hkeep MapHeader) | by apply (Hkeep DirHeader)].
    + by rewrite Hfl, fmap_insert, (ok_files M _ _ _ _ _ K).
    + apply map_Forall_insert_2; [done|]. intros k' [s' h'] Hk'. pose proof (ok_layout M _ _ _ _ _ K k' (s', h') Hk') as Hs'.
      apply (stored_same ss); [|exact Hs']. apply (Hkeep (Header k')); [|done..]. by exists h'.
    + intros o o' j Ho Ho'. rewrite owns_insert in Ho, Ho' by done.
      destruct Ho as [[-> ->]|[[-> Hj]|Ho]], Ho' as [[-> Hj']|[[-> Hj']|Ho']]; try done.
      * by destruct (Hdata s Hj').
      * by destruct (Hold o' s Ho') as (_ & ? & _).
      * subst. by destruct (Hdata s Hj).
      * by destruct (Hold o' j Ho') as (_ & _ & ?).
      * subst. by destruct (Hold o s Ho) as (_ & ? & _).
      * by destruct (Hold o j Ho) as (_ & _ & ?).
      * by apply (ok_owner M _ _ _ _ _ K o o' j).
    + intros j Hj. rewrite Hb' by lia. setoid_rewrite owns_insert; [|done].
      rewrite !orb_true_iff, bool_decide_eq_true, Z.eqb_eq, (ok_marked M _ _ _ _ _ K j Hj). split.
      * intros [Hd|[->|[o Ho]]]; [exists (Data k); tauto | exists (Header k); tauto | exists o; tauto].
      * intros (o & [[_ ->]|[[_ Hd]|Ho]]); [tauto | tauto | right; right; by exists o].
  - unfold view. rewrite fmap_insert. cbn [snd]. f_equal. apply (view_same ss ss' L).
    intros k' [s' h'] Hk' j Hj. apply (Hkeep (Data k')); [|done..]. by exists s', h'.
Qed.

Lemma Find_layout fs ss bm d L fname : fs_ok M fs ss bm d L -> readable name_max fname ->
  Directory.Find fname d = Ret (default (-1) (fst <$> L !! label fname)).
Proof using.
  intros K Hf. rewrite Find_spec by (done || apply (ok_dir M _ _ _ _ _ K)). by rewrite (files_layout fs ss bm d L).
Qed.

Lemma layout_stored fs ss bm d L k s h : fs_ok M fs ss bm d L -> L !! k = Some (s, h) -> stored M ss s h.
Proof using. intros K HL. exact (ok_layout M _ _ _ _ _ K k (s, h) HL). Qed.

Lemma Create_spec fs ss bm d L fname size : fs_ok M fs ss bm d L -> readable name_max fname -> 0 <= size <= MaxFileSize ->
  let k := label fname in
  if bool_decide (is_Some (L !! k)) || (NumDirEntries =? Z.of_nat (base.size L)) || (room bm <? 1 + divRoundUp size 128)
  then Create M fname size fs ss = Ret (false, ss)
  else exists ss' bm' d' L' c, Create M fname size fs ss = Ret (true, ss') /\ fs_ok M fs ss' bm' d' L' /\
    Z.of_nat (length c) = size /\ view ss' L' = <[k := c]> (view ss L) /\ room bm' = room bm - 1 - divRoundUp size 128.
Proof using G.
  intros K Hf Hsz k. destruct (ok_map M _ _ _ _ _ K) as (Hm & Hw & Hn). destruct (ok_dir M _ _ _ _ _ K) as (Ht & Hd & Hs).
  unfold Create. rewrite (fetch_directory_spec _ _ _ _ _ K). cbn [bind]. rewrite (Find_layout _ _ _ _ _ _ K Hf). cbn [bind].
  fold k. destruct (L !! k) as [[s0 h0]|] eqn:HL.
  { rewrite bool_decide_true by done. cbn [orb fmap option_fmap option_map fst default id].
    destruct (layout_stored _ _ _ _ _ _ _ _ K HL) as (Hr & _). by rewrite (proj2 (Z.eqb_neq _ _)) by lia. }
  rewrite bool_decide_false by (by intros [? [=]]). cbn [orb fmap option_fmap option_map default].
  change (-1 =? -1) with true. cbn [negb]. rewrite (fetch_free_map_spec _ _ _ _ _ K). cbn [bind].
  assert (files d !! k = None) as Hno by (by rewrite (files_layout fs ss bm d L), HL).
  pose proof (create_file_spec fname size d bm Hd Hw Hn Hf Hsz Hno) as Hc. rewrite Hs, (size_layout fs ss bm d L K) in Hc.
  destruct (_ || _); [by rewrite Hc|]. destruct Hc as (s & h & d' & bm' & -> & C). cbn [bind].
  pose proof C as [[Hr Hb] [Hh Hnb] Hdata (Hd' & Hts & _) (Hw' & Hn' & _) Hroom].
  assert (stored M (<[Z.to_nat s := header_bytes (big M) h]> ss) s h) as Hst.
  { split; [done|]. split; [done|]. apply list_lookup_insert_eq. destruct (proj1 (proj1 Hm)) as [Hl _]. lia. }
  destruct (flush_spec fs ss bm d L s h d' bm' K Hst) as (ss' & -> & Hm' & Ht' & Hst' & Hkeep); try done.
  { intros o Ho. assert (bit bm s = true) by (apply (ok_marked M _ _ _ _ _ K s Hr); by exists o). congruence. }
  cbn [bind]. destruct (created_ok fs ss bm d L k size s h d' bm' ss' K HL C Hm' Ht' Hst' Hkeep) as [K' Hv].
  exists ss', bm', d', (<[k := (s, h)]> L), (contents ss' h). split; [reflexivity|]. split; [exact K'|].
  split; [rewrite length_contents; [done | by split; [apply Hm' | apply Hst']] | by split].
Qed.

(** ** Open *)

Lemma open_sector_spec ss s h : wf_sectors ss -> stored M ss s h -> open_sector M s ss = Ret (mkOpen h 0).
Proof using G.
  intros Hw (Hr & Hh & Hs). unfold open_sector, new_OpenFile.
  by rewrite (header_FetchFrom_spec (big M) s h) by (done || apply Hh || apply (gm_header M G)).
Qed.

Lemma Open_spec fs ss bm d L fname : fs_ok M fs ss bm d L -> readable name_max fname ->
  Open M fname fs ss = Ret ((fun f => mkOpen f.2 0) <$> L !! label fname).
Proof using G.
  intros K Hf. unfold Open. rewrite (fetch_directory_spec _ _ _ _ _ K). cbn [bind]. rewrite (Find_layout _ _ _ _ _ _ K Hf). cbn [bind].
  destruct (L !! label fname) as [[s h]|] eqn:HL; [|done]. cbn [fmap option_fmap option_map fst snd default id].
  pose proof (layout_stored _ _ _ _ _ _ _ _ K HL) as Hst. rewrite (proj2 (Z.leb_le _ _)) by (destruct Hst; lia).
  by rewrite (open_sector_spec ss s h (proj1 (proj1 (proj1 (ok_map M _ _ _ _ _ K)))) Hst).
Qed.

(** ** Writing to a file *)

Lemma WriteAt_ok fs ss bm d L k s h ss' : fs_ok M fs ss bm d L -> L !! k = Some (s, h) -> untouched h ss ss' ->
  fs_ok M fs ss' bm d L /\ view ss' L = <[k := contents ss' h]> (view ss L).
Proof using.
  intros K HL [Hw Hu]. destruct (ok_map M _ _ _ _ _ K) as (Hm & Hwm & Hn). destruct (ok_dir M _ _ _ _ _ K) as (Ht & Hd & Hs).
  assert (forall o j, owns fs L o j -> o <> Data k -> ss' !! Z.to_nat j = ss !! Z.to_nat j) as Hkeep.
  { intros o j Ho Hne. apply Hu; [by pose proof (owns_range _ _ _ _ _ _ _ K Ho); lia|]. intros Hin. apply Hne.
    apply (ok_owner M _ _ _ _ _ K _ _ j Ho). by exists s, h. }
  destruct (ok_heads M _ _ _ _ _ K) as [H0 H1]. split.
  - split; try apply K.
    + split; [|done]. apply (holds_map_same ss); [done | | exact Hm]. intros j Hj. by apply (Hkeep MapData).
    + split; [|done]. apply (holds_table_same ss); [done | | exact Ht]. intros j Hj. by apply (Hkeep DirData).
    + split; (apply (stored_same ss); [|done]); [by apply (Hkeep MapHeader) | by apply (Hkeep DirHeader)].
    + intros k' [s' h'] Hk'. apply (stored_same ss); [|exact (layout_stored _ _ _ _ _ _ _ _ K Hk')].
      apply (Hkeep (Header k')); [by exists h' | done].
  - apply map_eq. intros k'. unfold view. rewrite lookup_fmap. destruct (decide (k' = k)) as [->|Hne].
    + by rewrite lookup_insert_eq, HL.
    + rewrite lookup_insert_ne, lookup_fmap by done. destruct (L !! k') as [[s' h']|] eqn:Hk'; [|done]. cbn. f_equal.
      apply contents_same. intros j Hj. apply (Hkeep (Data k')); [by exists s', h' | congruence].
Qed.

(** ** Remove *)

Lemma layout_data fs ss bm d L k s h : fs_ok M fs ss bm d L -> L !! k = Some (s, h) ->
  s ∉ used h /\ bit bm s = true /\ Forall (fun j => bit bm j = true) (used h).
Proof using.
  intros K HL. destruct (layout_stored _ _ _ _ _ _ _ _ K HL) as (Hr & Hh & _). split; [|split].
  - intros Hin. by pose proof (ok_owner M _ _ _ _ _ K (Header k) (Data k) s (ex_intro _ h HL) (ex_intro _ s (ex_intro _ h (conj HL Hin)))).
  - apply (ok_marked M _ _ _ _ _ K s Hr). exists (Header k). by exists h.
  - apply Forall_forall. intros j Hj. apply (ok_marked M _ _ _ _ _ K j (used_range h j Hh Hj)). exists (Data k). by exists s, h.
Qed.

Lemma room_freed bm bm' s l : BitMap.numBits bm = NumSectors -> BitMap.numBits bm' = NumSectors -> NoDup l -> s ∉ l ->
  Forall (fun j => 0 <= j < NumSectors /\ bit bm j = true) (s :: l) ->
  (forall j, 0 <= j -> bit bm' j = negb (j =? s) && (negb (bool_decide (j ∈ l)) && bit bm j)) ->
  room bm' = room bm + 1 + Z.of_nat (length l).
Proof using.
  intros Hn Hn' Hl Hs Hall Hb. assert (clear_bits bm' ≡ₚ s :: l ++ clear_bits bm) as Hp.
  { apply NoDup_Permutation; [apply NoDup_clear_bits | |].
    - apply Forall_cons in Hall as [[_ Hbs] Hall]. apply NoDup_cons. split.
      + rewrite elem_of_app. intros [?|[_ Hc]%clear_bits_in]; [done | congruence].
      + apply NoDup_app. split; [done|]. split; [|apply NoDup_clear_bits]. intros j Hj [_ Hc]%clear_bits_in.
        pose proof (proj1 (Forall_forall _ _) Hall j Hj) as [_ ?]. congruence.
    - intros j. rewrite elem_of_cons, elem_of_app, !clear_bits_in, Hn, Hn'. split.
      + intros [Hr Hc]. rewrite Hb in Hc by lia. destruct (Z.eqb_spec j s); [tauto|]. case_bool_decide; tauto.
      + assert (j = s \/ j ∈ l -> 0 <= j < NumSectors) as Hr.
        { intros Hj. apply (proj1 (Forall_forall _ _) Hall j). by apply elem_of_cons. }
        intros [Hj|[Hj|[? Hc]]]; (split; [tauto|]); rewrite Hb by (tauto || lia).
        * by rewrite (proj2 (Z.eqb_eq j s)).
        * by rewrite (bool_decide_true (j ∈ l)), andb_false_r.
        * by rewrite Hc, !andb_false_r. }
  unfold room. rewrite Hp. cbn [length]. rewrite length_app. lia.
Qed.

(** Writing back the map, then the directory. *)
Lemma flush_removed fs ss bm d L d' bm' : fs_ok M fs ss bm d L -> wf_dir d' -> tableSize d' = tableSize d ->
  wf bm' -> BitMap.numBits bm' = NumSectors ->
  exists ss1 ss', BitMap_WriteBack M (freeMapFile fs) bm' ss = Ret ss1 /\
    Directory.WriteBack (big M) (newmem M) (directoryFile fs) d' ss1 = Ret ss' /\
    holds_map M ss' (freeMapFile fs) bm' /\ holds_table (big M) ss' (directoryFile fs) d' /\
    (forall j, 0 <= j -> ~ owns fs L MapData j -> ~ owns fs L DirData j -> ss' !! Z.to_nat j = ss !! Z.to_nat j).
Proof using G.
  intros K Hd' Hsz Hw' Hn'. destruct (ok_map M _ _ _ _ _ K) as (Hm & Hw & Hn). destruct (ok_dir M _ _ _ _ _ K) as (Ht & Hd & Hs).
  destruct (BitMap_WriteBack_spec (freeMapFile fs) bm' ss Hw' Hn' (proj1 Hm) (proj1 (proj2 Hm))) as (ss1 & Hr1 & [Hw1 Hu1] & Hm1).
  assert (holds_table (big M) ss1 (directoryFile fs) d) as Ht1.
  { apply (holds_table_same ss); [done | | exact Ht]. intros j Hj. pose proof (used_range _ _ (proj2 (proj1 Ht)) Hj).
    apply Hu1; [lia|]. intros Hj'. by pose proof (ok_owner M _ _ _ _ _ K DirData MapData j Hj Hj'). }
  destruct (dir_WriteBack_spec (big M) (newmem M) (gm_mem M G) (directoryFile fs) d' ss1 Hd') as (ss2 & Hr2 & [Hw2 Hu2] & Ht2);
    [by rewrite Hsz, Hs | apply Ht1 | rewrite Hsz; apply Ht1 |].
  exists ss1, ss2. split; [exact Hr1|]. split; [exact Hr2|]. split; [|split; [exact Ht2|]].
  - apply (holds_map_same ss1); [done | | exact Hm1]. intros j Hj. pose proof (used_range _ _ (proj2 (proj1 Hm)) Hj).
    apply Hu2; [lia|]. intros Hj'. by pose proof (ok_owner M _ _ _ _ _ K DirData MapData j Hj' Hj).
  - intros j Hj Hnm Hnd. by rewrite Hu2, Hu1.
Qed.

Lemma removed_ok fs ss bm d L k s h d' bm' ss' : fs_ok M fs ss bm d L -> L !! k = Some (s, h) ->
  wf_dir d' -> tableSize d' = tableSize d -> files d' = delete k (files d) -> wf bm' -> BitMap.numBits bm' = NumSectors ->
  (forall j, 0 <= j -> bit bm' j = negb (j =? s) && (negb (bool_decide (j ∈ used h)) && bit bm j)) ->
  holds_map M ss' (freeMapFile fs) bm' -> holds_table (big M) ss' (directoryFile fs) d' ->
  (forall j, 0 <= j -> ~ owns fs L MapData j -> ~ owns fs L DirData j -> ss' !! Z.to_nat j = ss !! Z.to_nat j) ->
  fs_ok M fs ss' bm' d' (delete k L) /\ view ss' (delete k L) = delete k (view ss L).
Proof using.
  intros K HL Hd' Hts Hfl Hw' Hn' Hb' Hm Ht Hsame.
  assert (forall o j, owns fs L o j -> o <> MapData -> o <> DirData -> ss' !! Z.to_nat j = ss !! Z.to_nat j) as Hkeep.
  { intros o j Ho Hnm Hnd. pose proof (owns_range fs ss bm d L o j K Ho). destruct (file_sector fs ss bm d L o j K Ho Hnm Hnd). by apply Hsame; [lia|..]. }
  destruct (ok_heads M _ _ _ _ _ K) as [H0 H1]. split.
  - split; try done.
    + split; [done|]. split; [done|]. by rewrite Hts; apply (ok_dir M _ _ _ _ _ K).
    + split; (apply (stored_same ss); [|done]); [by apply (Hkeep MapHeader) | by apply (Hkeep DirHeader)].
    + by rewrite Hfl, fmap_delete, (ok_files M _ _ _ _ _ K).
    + apply map_Forall_lookup_2. intros k' [s' h'] [_ Hk']%lookup_delete_Some.
      apply (stored_same ss); [|exact (layout_stored _ _ _ _ _ _ _ _ K Hk')]. apply (Hkeep (Header k')); [|done..]. by exists h'.
    + intros o o' j [Ho _]%owns_delete [Ho' _]%owns_delete. by apply (ok_owner M _ _ _ _ _ K o o' j).
    + intros j Hj. rewrite Hb' by lia. setoid_rewrite owns_delete.
      rewrite !andb_true_iff, !negb_true_iff, Z.eqb_neq, bool_decide_eq_false, (ok_marked M _ _ _ _ _ K j Hj). split.
      * intros (Hne & Hnin & o & Ho). exists o. split; [done|]. split; intros ->; cbn in Ho; rewrite HL in Ho; naive_solver.
      * intros (o & Ho & Hnh & Hnd). split; [|split; [|by exists o]].
        -- intros ->. apply Hnh. apply (ok_owner M _ _ _ _ _ K o (Header k) s Ho). by exists h.
        -- intros Hin. apply Hnd. apply (ok_owner M _ _ _ _ _ K o (Data k) j Ho). by exists s, h.
  - unfold view. rewrite fmap_delete. f_equal. apply (view_same ss ss' L).
    intros k' [s' h'] Hk' j Hj. apply (Hkeep (Data k')); [|done..]. by exists s', h'.
Qed.

Lemma fs_Remove_spec fs ss bm d L fname : fs_ok M fs ss bm d L -> readable name_max fname ->
  match L !! label fname with
  | None => Remove M fname fs ss = Ret (false, ss)
  | Some (s, h) => exists ss' bm' d' L', Remove M fname fs ss = Ret (true, ss') /\ fs_ok M fs ss' bm' d' L' /\
      view ss' L' = delete (label fname) (view ss L) /\ room bm' = room bm + 1 + divRoundUp (numBytes h) 128
  end.
Proof using G.
  intros K Hf. destruct (ok_map M _ _ _ _ _ K) as (Hm & Hw & Hn). destruct (ok_dir M _ _ _ _ _ K) as (Ht & Hd & Hs).
  unfold Remove. rewrite (fetch_directory_spec _ _ _ _ _ K). cbn [bind]. rewrite (Find_layout _ _ _ _ _ _ K Hf). cbn [bind].
  set (k := label fname). destruct (L !! k) as [[s h]|] eqn:HL; cbn [fmap option_fmap option_map fst default id]; [|done].
  pose proof (layout_stored _ _ _ _ _ _ _ _ K HL) as (Hr & Hh & Hst). rewrite (proj2 (Z.eqb_neq _ _)) by lia.
  rewrite (header_FetchFrom_spec (big M) s h) by (done || apply Hh || apply (gm_header M G) || apply (proj1 Hm)). cbn [bind].
  rewrite (fetch_free_map_spec _ _ _ _ _ K). cbn [bind]. destruct (layout_data _ _ _ _ _ _ _ _ K HL) as (Hnin & Hbs & Hall).
  destruct (Deallocate_spec bm h Hw Hn Hh Hall) as (bm1 & -> & Hw1 & Hn1 & Hb1). cbn [bind].
  destruct (Clear_spec bm1 s Hw1 ltac:(lia)) as (bm2 & -> & Hw2 & Hn2 & Hb2). cbn [bind]. rewrite Hn1 in Hn2.
  assert (forall j, 0 <= j -> bit bm2 j = negb (j =? s) && (negb (bool_decide (j ∈ used h)) && bit bm j)) as Hb.
  { intros j Hj. by rewrite Hb2, Hb1 by done. }
  pose proof (dir_Remove_spec fname d Hd Hf) as Hrm. fold k in Hrm. rewrite (files_layout fs ss bm d L k K), HL in Hrm.
  destruct Hrm as (d' & Hrm & Hd' & Hfl). pose proof (Remove_size _ _ _ _ Hrm) as Hts. rewrite Hrm. cbn [bind].
  destruct (flush_removed fs ss bm d L d' bm2 K Hd' Hts Hw2 Hn2) as (ss1 & ss' & Hr1 & Hr2 & Hm' & Ht' & Hkeep).
  rewrite Hr1. cbn [bind]. rewrite Hr2. cbn [bind].
  destruct (removed_ok fs ss bm d L k s h d' bm2 ss' K HL) as [K' Hv]; try done.
  exists ss', bm2, d', (delete k L). split; [done|]. split; [exact K'|]. split; [exact Hv|].
  rewrite (room_freed bm bm2 s (used h) Hn Hn2 (wh_NoDup h Hh) Hnin); [| |exact Hb].
  - rewrite length_used, (wh_sectors h Hh) by done. pose proof (divRoundUp_nonneg (numBytes h) 128 (wh_length h Hh)). lia.
  - constructor; [done|]. apply Forall_forall. intros j Hj. split; [by eapply used_range|].
    exact (proj1 (Forall_forall _ _) Hall j Hj).
Qed.

(** ** Formatting *)

(** The map with the two header sectors marked. *)
Lemma marked_headers : exists bm0 bm1 bm2, new_BitMap NumSectors (newmap M) = Ret bm0 /\ Mark bm0 FreeMapSector = Ret bm1 /\
  Mark bm1 DirectorySector = Ret bm2 /\ wf bm2 /\ BitMap.numBits bm2 = NumSectors /\ clear_bits bm2 = seqZ 2 1022 /\
  (forall j, 0 <= j < NumSectors -> bit bm2 j = (j =? 1) || (j =? 0)).
Proof using.
  destruct (new_BitMap_spec NumSectors (newmap M)) as (bm0 & -> & Hw0 & Hn0 & Hb0); [done|].
  destruct (Mark_spec bm0 FreeMapSector Hw0) as (bm1 & Hm1 & Hw1 & Hn1 & Hb1); [by rewrite Hn0|].
  destruct (Mark_spec bm1 DirectorySector Hw1) as (bm2 & Hm2 & Hw2 & Hn2 & Hb2); [by rewrite Hn1, Hn0|].
  exists bm0, bm1, bm2. split; [done|]. split; [done|]. split; [done|]. split; [done|]. split; [congruence|].
  assert (forall j, 0 <= j < NumSectors -> bit bm2 j = (j =? 1) || (j =? 0)) as Hb.
  { intros j Hj. rewrite Hb2, Hb1, Hb0, orb_false_r by lia. done. }
  split; [|exact Hb]. unfold clear_bits. rewrite Hn2, Hn1, Hn0. change NumSectors with (Z.succ (Z.succ 1022)) at 1.
  rewrite seqZ_cons, seqZ_cons by lia. change (Z.pred (Z.pred _)) with 1022. rewrite !filter_cons.
  rewrite decide_False by (rewrite Hb by done; done). rewrite decide_False by (rewrite Hb by done; done).
  change (Z.succ (Z.succ 0)) with 2. apply filter_all, Forall_forall. intros j Hj%elem_of_seqZ.
  rewrite Hb by (change NumSectors with 1024; lia). destruct (Z.eqb_spec j 1), (Z.eqb_spec j 0); done || lia.
Qed.


(** The headers and the contents of the two files, written to any disk. *)
Lemma format_write ss mh dh bm d : wf_sectors ss -> wf_header mh -> wf_header dh -> used mh = [2] -> used dh = [3; 4] ->
  numBytes mh = FreeMapFileSize -> numBytes dh = DirectoryFileSize -> wf bm -> BitMap.numBits bm = NumSectors ->
  wf_dir d -> tableSize d = NumDirEntries ->
  let fs := mkFS (mkOpen mh 0) (mkOpen dh 0) in
  exists ss1 ss2 ss3 ss4, FileHdr.WriteBack (big M) FreeMapSector mh ss = Ret ss1 /\
    FileHdr.WriteBack (big M) DirectorySector dh ss1 = Ret ss2 /\
    open_sector M FreeMapSector ss2 = Ret (freeMapFile fs) /\ open_sector M DirectorySector ss2 = Ret (directoryFile fs) /\
    BitMap_WriteBack M (freeMapFile fs) bm ss2 = Ret ss3 /\
    Directory.WriteBack (big M) (newmem M) (directoryFile fs) d ss3 = Ret ss4 /\
    holds_map M ss4 (freeMapFile fs) bm /\ holds_table (big M) ss4 (directoryFile fs) d /\
    stored M ss4 FreeMapSector mh /\ stored M ss4 DirectorySector dh.
Proof using G.
  intros Hss Hmh Hdh Hmu Hdu Hmn Hdn Hw Hn Hd Hsd fs.
  pose proof (header_WriteBack_spec (big M) FreeMapSector mh ss Hss ltac:(done) (wh_header mh Hmh)) as Hr1.
  set (ss1 := <[Z.to_nat FreeMapSector := header_bytes (big M) mh]> ss) in *.
  assert (wf_sectors ss1) as Hw1 by (apply wf_sectors_insert; [done | apply length_header_bytes, Hmh]).
  pose proof (header_WriteBack_spec (big M) DirectorySector dh ss1 Hw1 ltac:(done) (wh_header dh Hdh)) as Hr2.
  set (ss2 := <[Z.to_nat DirectorySector := header_bytes (big M) dh]> ss1) in *.
  assert (wf_sectors ss2) as Hw2 by (apply wf_sectors_insert; [done | apply length_header_bytes, Hdh]).
  destruct Hss as [Hl _]. change NumSectors with 1024 in Hl.
  assert (stored M ss2 FreeMapSector mh) as H0.
  { split; [done|]. split; [done|]. unfold ss2. rewrite list_lookup_insert_ne by done. apply list_lookup_insert_eq. unfold FreeMapSector. lia. }
  assert (stored M ss2 DirectorySector dh) as H1.
  { split; [done|]. split; [done|]. unfold ss2. apply list_lookup_insert_eq. unfold ss1, DirectorySector. rewrite length_insert. lia. }
  destruct (BitMap_WriteBack_spec (freeMapFile fs) bm ss2 Hw Hn (conj Hw2 Hmh) Hmn) as (ss3 & Hr3 & [Hw3 Hu3] & Hm3).
  destruct (dir_WriteBack_spec (big M) (newmem M) (gm_mem M G) (directoryFile fs) d ss3 Hd) as (ss4 & Hr4 & [Hw4 Hu4] & Ht4);
    [by rewrite Hsd | by split | by rewrite Hsd |].
  exists ss1, ss2, ss3, ss4. split; [exact Hr1|]. split; [exact Hr2|].
  split; [exact (open_sector_spec ss2 _ mh Hw2 H0)|]. split; [exact (open_sector_spec ss2 _ dh Hw2 H1)|].
  split; [exact Hr3|]. split; [exact Hr4|].
  unfold fs in Hu3, Hu4. cbn [hdr freeMapFile directoryFile] in Hu3, Hu4. rewrite Hmu in Hu3. rewrite Hdu in Hu4.
  assert (forall j, j = 0 \/ j = 1 -> ss4 !! Z.to_nat j = ss2 !! Z.to_nat j) as E.
  { intros j Hj. rewrite Hu4, Hu3; [done | lia | | lia |]; set_solver by lia. }
  split; [|split; [exact Ht4|]].
  - apply (holds_map_same ss3); [done | | exact Hm3]. unfold fs. cbn [hdr freeMapFile]. rewrite Hmu. intros j Hj%list_elem_of_singleton.
    apply Hu4; [lia|]. subst. set_solver by lia.
  - split; (eapply stored_same; [|eassumption]); apply E; [by left | by right].
Qed.

Lemma Format_spec ss : wf_sectors ss -> exists fs ss' bm d, Format M ss = Ret (fs, ss') /\ fs_ok M fs ss' bm d ∅ /\ room bm = 1019.
Proof using G.
  intros Hss. unfold Format. destruct marked_headers as (bm0 & bm1 & bm2 & -> & Hm1 & Hm2 & Hw & Hn & Hc & Hb). cbn [bind].
  destruct (gm_table M G) as [Hlt Hgt]. destruct (new_Directory_spec NumDirEntries (newtable M) Hlt Hgt) as (d & -> & Hd & Hsd & Hfd). cbn [bind].
  rewrite Hm1. cbn [bind]. rewrite Hm2. cbn [bind].
  pose proof (Allocate_spec bm2 FreeMapFileSize (newheader M) Hw Hn (gm_header M G)) as Ha. rewrite Hc in Ha.
  specialize (Ha ltac:(by vm_compute)). change (Z.of_nat (length (seqZ 2 1022)) <? divRoundUp FreeMapFileSize 128) with false in Ha.
  destruct Ha as (bm3 & mh & -> & Hmh & Hmn & Hmu & Hc3 & Hw3 & Hn3 & Hb3). cbn [bind ASSERT].
  pose proof (Allocate_spec bm3 DirectoryFileSize (newheader M) Hw3 Hn3 (gm_header M G)) as Ha. rewrite Hc3 in Ha.
  specialize (Ha ltac:(by vm_compute)).
  change (Z.of_nat (length (drop (Z.to_nat (divRoundUp FreeMapFileSize 128)) (seqZ 2 1022))) <? divRoundUp DirectoryFileSize 128) with false in Ha.
  destruct Ha as (bm4 & dh & -> & Hdh & Hdn & Hdu & Hc4 & Hw4 & Hn4 & Hb4). cbn [bind ASSERT].
  change (take _ _) with [2] in Hmu. change (take _ _) with [3; 4] in Hdu.
  destruct (format_write ss mh dh bm4 d Hss Hmh Hdh Hmu Hdu Hmn Hdn Hw4 Hn4 Hd Hsd)
    as (ss1 & ss2 & ss3 & ss4 & -> & Hr2 & Hr3 & Hr4 & Hr5 & Hr6 & Hm & Ht & H0 & H1). cbn [bind].
  rewrite Hr2. cbn [bind]. rewrite Hr3. cbn [bind]. rewrite Hr4. cbn [bind freeMapFile directoryFile] in *. rewrite Hr5. cbn [bind].
  rewrite Hr6. cbn [bind]. destruct (format_layout mh dh bm4 Hmu Hdu) as [Hu Hmk].
  { intros j Hj. by rewrite Hb4, Hb3, Hb by lia. }
  eexists _, _, bm4, d. split; [reflexivity|]. split; [|unfold room; rewrite Hc4; reflexivity].
  split; done.
Qed.

Lemma Mount_spec fs ss bm d L : fs_ok M fs ss bm d L ->
  exists fs', Mount M ss = Ret fs' /\ fs_ok M fs' ss bm d L.
Proof using G.
  intros K. destruct (ok_heads M _ _ _ _ _ K) as [H0 H1]. pose proof (proj1 (proj1 (proj1 (ok_map M _ _ _ _ _ K)))) as Hw.
  unfold Mount. rewrite (open_sector_spec ss _ _ Hw H0). cbn [bind]. rewrite (open_sector_spec ss _ _ Hw H1). cbn [bind].
  eexists. split; [reflexivity|]. destruct K as [? ? ? ? ? Ho Hm]. split; try done.
Qed.
End Facts.

(** ** Clients *)

(** What a program does with files by name; to read or write it opens the file. *)
Inductive operation :=
| OpCreate (fname : list Z) (size : Z)
| OpRemove (fname : list Z)
| OpWrite (fname bytes : list Z) (position : Z)
| OpRead (fname : list Z) (numBytes position : Z)
| OpMount.

Inductive result := RBool (b : bool) | RCount (n : Z) | RBytes (bs : list Z) | RNone.

Section Clients.
Variable M : Memory.

Definition with_file {A} (fname : list Z) (fs : FileSystem) (ss : Sectors) (absent : A) (body : OpenFile -> C A) : C A :=
  let! f := Open M fname fs ss in match f with Some f => body f | None => Ret absent end.

Definition perform (o : operation) '((fs, ss) : FileSystem * Sectors) : C (result * (FileSystem * Sectors)) :=
  match o with
  | OpCreate fname size => let! (b, ss) := Create M fname size fs ss in Ret (RBool b, (fs, ss))
  | OpRemove fname => let! (b, ss) := Remove M fname fs ss in Ret (RBool b, (fs, ss))
  | OpWrite fname bs pos =>
      with_file fname fs ss (RNone, (fs, ss)) (fun f =>
        let! (n, ss) := WriteAt (newmem M) (hdr f) bs (Z.of_nat (length bs)) pos ss in Ret (RCount n, (fs, ss)))
  | OpRead fname n pos =>
      with_file fname fs ss (RNone, (fs, ss)) (fun f =>
        let! (n, into) := ReadAt (newmem M) (hdr f) (replicate (Z.to_nat n) 0) 0 n pos ss in
        Ret (RBytes (take (Z.to_nat n) into), (fs, ss)))
  | OpMount => let! fs := Mount M ss in Ret (RNone, (fs, ss))
  end.

Fixpoint performs (os : list operation) (st : FileSystem * Sectors) : C (list result * (FileSystem * Sectors)) :=
  match os with
  | [] => Ret ([], st)
  | o :: os => let! (r, st) := perform o st in let! (rs, st) := performs os st in Ret (r :: rs, st)
  end.
End Clients.

(** ** The contract: names to contents *)

Record Abstract := mkAbstract { afiles : gmap (list Z) (list Z); aroom : Z }.

(** The sectors a file of [size] bytes takes, with its header. *)
Definition cost (size : Z) : Z := 1 + divRoundUp size 128.

(** How many bytes a request moves. *)
Definition moved (length_ n pos : Z) : Z := if (n <=? 0) || (length_ <=? pos) then 0 else Z.min n (length_ - pos).

(** The file system as a map; a new file has its size and any contents. *)
Inductive specified : operation -> Abstract -> result -> Abstract -> Prop :=
| SCreate fname size A c : let k := label fname in
    afiles A !! k = None -> Z.of_nat (base.size (afiles A)) <> NumDirEntries -> cost size <= aroom A -> Z.of_nat (length c) = size ->
    specified (OpCreate fname size) A (RBool true) (mkAbstract (<[k := c]> (afiles A)) (aroom A - cost size))
| SCreateFails fname size A : let k := label fname in
    is_Some (afiles A !! k) \/ Z.of_nat (base.size (afiles A)) = NumDirEntries \/ aroom A < cost size ->
    specified (OpCreate fname size) A (RBool false) A
| SRemove fname A c : let k := label fname in
    afiles A !! k = Some c ->
    specified (OpRemove fname) A (RBool true) (mkAbstract (delete k (afiles A)) (aroom A + cost (Z.of_nat (length c))))
| SRemoveFails fname A : afiles A !! label fname = None -> specified (OpRemove fname) A (RBool false) A
| SWrite fname bs pos A c : let k := label fname in let n := moved (Z.of_nat (length c)) (Z.of_nat (length bs)) pos in
    afiles A !! k = Some c ->
    specified (OpWrite fname bs pos) A (RCount n) (mkAbstract (<[k := splice c pos (slice bs 0 n)]> (afiles A)) (aroom A))
| SRead fname n pos A c : afiles A !! label fname = Some c ->
    specified (OpRead fname n pos) A (RBytes (slice c pos (moved (Z.of_nat (length c)) n pos))) A
| SWriteNone fname bs pos A : afiles A !! label fname = None -> specified (OpWrite fname bs pos) A RNone A
| SReadNone fname n pos A : afiles A !! label fname = None -> specified (OpRead fname n pos) A RNone A
| SMount A : specified OpMount A RNone A.

Inductive specified_all : list operation -> Abstract -> list result -> Abstract -> Prop :=
| SNil A : specified_all [] A [] A
| SCons o os A r A1 rs A2 : specified o A r A1 -> specified_all os A1 rs A2 -> specified_all (o :: os) A (r :: rs) A2.

(** Arguments in range. *)
Definition valid (o : operation) : Prop :=
  match o with
  | OpCreate fname size => readable name_max fname /\ 0 <= size <= MaxFileSize
  | OpRemove fname => readable name_max fname
  | OpWrite fname bs pos => readable name_max fname /\ 0 <= pos /\ pos + Z.of_nat (length bs) < 2^31
  | OpRead fname n pos => readable name_max fname /\ 0 <= pos /\ 0 <= n /\ pos + n < 2^31
  | OpMount => True
  end.

Definition represents (M : Memory) (st : FileSystem * Sectors) (A : Abstract) : Prop :=
  exists bm d L, fs_ok M st.1 st.2 bm d L /\ view st.2 L = afiles A /\ room bm = aroom A.

Section Refinement.
Context (M : Memory) (G : good_memory M).

Lemma view_lookup ss L k : view ss L !! k = (fun f => contents ss f.2) <$> L !! k.
Proof using. unfold view. by rewrite lookup_fmap. Qed.

Lemma layout_disk fs ss bm d L k s h : fs_ok M fs ss bm d L -> L !! k = Some (s, h) -> on_disk ss h.
Proof using.
  intros K HL. split; [apply (ok_map M _ _ _ _ _ K)|]. by destruct (layout_stored M _ _ _ _ _ _ _ _ K HL) as (_ & ? & _).
Qed.

Lemma perform_write fs ss A fname bs pos : represents M (fs, ss) A -> valid (OpWrite fname bs pos) ->
  exists r st A', perform M (OpWrite fname bs pos) (fs, ss) = Ret (r, st) /\ specified (OpWrite fname bs pos) A r A' /\ represents M st A'.
Proof using G.
  intros (bm & d & L & K & Hv & Hr) (Hf & Hp & Ho). cbn [fst snd] in *. unfold perform, with_file. rewrite (Open_spec M G _ _ _ _ _ _ K Hf). cbn [bind].
  pose proof (view_lookup ss L (label fname)) as Hk. rewrite Hv in Hk.
  destruct (L !! label fname) as [[s h]|] eqn:HL; cbn [fmap option_fmap option_map snd hdr] in Hk |- *.
  - pose proof (layout_disk _ _ _ _ _ _ _ _ K HL) as Hd. pose proof (length_contents ss h Hd) as Hlc.
    pose proof (file_WriteAt_spec (newmem M) (gm_mem M G) ss h bs (Z.of_nat (length bs)) pos Hd Hp Ho) as Hw.
    pose proof (SWrite fname bs pos A (contents ss h) Hk) as Hs. unfold moved in Hs. rewrite Hlc in Hs.
    destruct (_ || _) eqn:E.
    + rewrite Hw. cbn [bind]. eexists _, _, _. split; [reflexivity|]. split; [exact Hs|]. exists bm, d, L. split; [exact K|].
      split; [|exact Hr]. cbn [snd afiles]. rewrite Hv. symmetry. apply insert_id. rewrite Hk. f_equal. unfold splice, slice.
      change (Z.to_nat 0) with 0%nat. rewrite !take_0. cbn [length app]. by rewrite Nat.add_0_r, take_drop.
    + cbv zeta in Hw. apply orb_false_iff in E as [E1%Z.leb_gt E2%Z.leb_gt]. destruct Hw as (ss' & -> & Hu & Hc); [lia|]. cbn [bind].
      eexists _, _, _. split; [reflexivity|]. split; [exact Hs|]. destruct (WriteAt_ok M fs ss bm d L _ s h ss' K HL Hu) as [K' Hv'].
      exists bm, d, L. split; [exact K'|]. split; [|exact Hr]. cbn [snd afiles]. by rewrite Hv', Hv, Hc.
  - eexists _, _, A. split; [reflexivity|]. split; [by constructor|]. by exists bm, d, L.
Qed.

Lemma perform_read fs ss A fname n pos : represents M (fs, ss) A -> valid (OpRead fname n pos) ->
  exists r st A', perform M (OpRead fname n pos) (fs, ss) = Ret (r, st) /\ specified (OpRead fname n pos) A r A' /\ represents M st A'.
Proof using G.
  intros R (Hf & Hp & Hn & Ho). pose proof R as (bm & d & L & K & Hv & Hr). cbn [fst snd] in *. unfold perform, with_file.
  rewrite (Open_spec M G _ _ _ _ _ _ K Hf). cbn [bind].
  pose proof (view_lookup ss L (label fname)) as Hk. rewrite Hv in Hk.
  destruct (L !! label fname) as [[s h]|] eqn:HL; cbn [fmap option_fmap option_map snd hdr] in Hk |- *.
  - pose proof (layout_disk _ _ _ _ _ _ _ _ K HL) as Hd. pose proof (length_contents ss h Hd) as Hlc.
    rewrite (ReadAt_spec (newmem M) (gm_mem M G)) by done.
    pose proof (SRead fname n pos A (contents ss h) Hk) as Hs. unfold moved in Hs. rewrite Hlc in Hs.
    destruct (_ || _) eqn:E; [by eexists _, _, A; split; [reflexivity | split]|].
    apply orb_false_iff in E as [E1%Z.leb_gt E2%Z.leb_gt]. cbv zeta. set (k := Z.min n _) in *.
    pose proof (length_slice (contents ss h) pos k ltac:(lia) ltac:(lia) ltac:(lia)) as Hsl.
    unfold copy_into. rewrite length_replicate, !(proj2 (Z.leb_le _ _)) by lia. cbn [andb bind].
    eexists _, _, A. split; [reflexivity|]. split; [|exact R]. change (Z.to_nat 0) with 0%nat. rewrite take_0. cbn [app].
    by rewrite take_app_length' by lia.
  - eexists _, _, A. split; [reflexivity|]. split; [by constructor | exact R].
Qed.

Lemma view_size fs ss bm d L A : fs_ok M fs ss bm d L -> view ss L = afiles A -> base.size L = base.size (afiles A).
Proof using. intros _ <-. unfold view. by rewrite map_size_fmap. Qed.

Lemma perform_create fs ss A fname size : represents M (fs, ss) A -> valid (OpCreate fname size) ->
  exists r st A', perform M (OpCreate fname size) (fs, ss) = Ret (r, st) /\ specified (OpCreate fname size) A r A' /\ represents M st A'.
Proof using G.
  intros R (Hf & Hsz). pose proof R as (bm & d & L & K & Hv & Hr). cbn [fst snd] in *. unfold perform.
  pose proof (Create_spec M G fs ss bm d L fname size K Hf Hsz) as Hc. cbv zeta in Hc.
  pose proof (view_lookup ss L (label fname)) as Hk. rewrite Hv in Hk. rewrite (view_size _ _ _ _ _ _ K Hv), Hr in Hc.
  change (1 + divRoundUp size 128) with (cost size) in Hc.
  destruct (bool_decide (is_Some (L !! label fname))) eqn:E1, (Z.eqb_spec NumDirEntries (Z.of_nat (base.size (afiles A)))),
    (Z.ltb_spec (aroom A) (cost size)); cbn [orb] in Hc.
  8: { destruct Hc as (ss' & bm' & d' & L' & c & -> & K' & Hl & Hv' & Hr'). cbn [bind]. eexists _, _, _. split; [reflexivity|].
       apply bool_decide_eq_false, eq_None_not_Some in E1. rewrite E1 in Hk.
       split; [by apply (SCreate fname size A c); [| apply not_eq_sym | |]|]. exists bm', d', L'. split; [exact K'|].
       split; [cbn [snd afiles]; by rewrite Hv', Hv|]. cbn [aroom]. unfold cost. lia. }
  all: rewrite Hc; cbn [bind]; eexists _, _, A; split; [reflexivity|]; split; [|exact R]; constructor.
  1-4: left; rewrite Hk; apply bool_decide_eq_true in E1 as [f ->]; by eexists.
  all: tauto || (right; left; done).
Qed.

Lemma perform_remove fs ss A fname : represents M (fs, ss) A -> valid (OpRemove fname) ->
  exists r st A', perform M (OpRemove fname) (fs, ss) = Ret (r, st) /\ specified (OpRemove fname) A r A' /\ represents M st A'.
Proof using G.
  intros R Hf. pose proof R as (bm & d & L & K & Hv & Hr). cbn [fst snd] in *. unfold perform.
  pose proof (fs_Remove_spec M G fs ss bm d L fname K Hf) as Hc. pose proof (view_lookup ss L (label fname)) as Hk. rewrite Hv in Hk.
  destruct (L !! label fname) as [[s h]|] eqn:HL.
  - destruct Hc as (ss' & bm' & d' & L' & -> & K' & Hv' & Hr'). cbn [bind]. eexists _, _, _. split; [reflexivity|].
    split; [exact (SRemove fname A _ Hk)|]. exists bm', d', L'. split; [exact K'|]. split; [cbn [snd afiles]; by rewrite Hv', Hv|].
    cbn [aroom snd]. rewrite (length_contents ss h (layout_disk _ _ _ _ _ _ _ _ K HL)). unfold cost. lia.
  - rewrite Hc. cbn [bind]. eexists _, _, A. split; [reflexivity|]. split; [by constructor | exact R].
Qed.

Lemma perform_refines o st A : represents M st A -> valid o ->
  exists r st' A', perform M o st = Ret (r, st') /\ specified o A r A' /\ represents M st' A'.
Proof using G.
  destruct st as [fs ss]. intros R Hv. destruct o.
  - by apply perform_create.
  - by apply perform_remove.
  - by apply perform_write.
  - by apply perform_read.
  - pose proof R as (bm & d & L & K & Hvw & Hr). destruct (Mount_spec M G fs ss bm d L K) as (fs' & Hm & K').
    cbn [perform]. rewrite Hm. cbn [bind]. eexists _, _, A. split; [reflexivity|]. split; [constructor|]. by exists bm, d, L.
Qed.

Lemma performs_refines os st A : represents M st A -> Forall valid os ->
  exists rs st' A', performs M os st = Ret (rs, st') /\ specified_all os A rs A' /\ represents M st' A'.
Proof using G.
  intros R Hos. revert st A R. induction Hos as [|o os Ho _ IH]; intros st A R.
  - exists [], st, A. split; [done|]. split; [constructor | done].
  - destruct (perform_refines o st A R Ho) as (r & st1 & A1 & Hr & Hs & R1).
    destruct (IH st1 A1 R1) as (rs & st2 & A2 & Hrs & Hss & R2). exists (r :: rs), st2, A2. split; [|split; [by econstructor | done]].
    cbn [performs]. rewrite Hr. cbn [bind]. by rewrite Hrs.
Qed.
End Refinement.

(** ** Properties *)

(** C4: the file system implements a finite map from names to contents of fixed
    length. Whatever the disk held before, formatting gives the empty map with room
    for 1019 sectors. From then on every sequence of operations (Create, Remove,
    opening a file by name and reading or writing at a position, mounting the disk
    again) returns, with the results that the map gives: Create adds a file of the
    given length unless the name is taken, ten files exist, or its sectors do not
    fit; Remove deletes it and makes its sectors free again; a write changes the
    bytes it covers in that file and in no other; a read returns the bytes last
    written. The invariant that every sector has one owner, and that the free map
    marks exactly the owned ones, holds throughout. *)
Theorem FileSystem_implements_map M ss os : good_memory M -> wf_sectors ss -> Forall valid os ->
  exists fs ss1 rs st A, Format M ss = Ret (fs, ss1) /\ performs M os (fs, ss1) = Ret (rs, st) /\
    specified_all os (mkAbstract ∅ 1019) rs A /\ represents M st A.
Proof.
  intros G Hss Hos. destruct (Format_spec M G ss Hss) as (fs & ss1 & bm & d & Hf & K & Hr).
  destruct (performs_refines M G os (fs, ss1) (mkAbstract ∅ 1019)) as (rs & st & A & Hp & Hs & R); [|exact Hos|].
  - exists bm, d, ∅. split; [exact K|]. split; [apply fmap_empty | exact Hr].
  - exists fs, ss1, rs, st, A. exact (conj Hf (conj Hp (conj Hs R))).
Qed.

(** C40: how Create fails. When the name exists, when the directory is full, or when
    the free sectors do not suffice for header and data, it returns FALSE and the
    disk is as before, to the byte. But a size above the thirty sectors that a header
    can name is not checked: if the disk has the room, the table of the header is
    written past its end. *)
Theorem Create_errors M fs ss bm d L fname size : good_memory M -> fs_ok M fs ss bm d L -> readable name_max fname ->
  0 <= size < 2^31 ->
  let fails := is_Some (L !! label fname) \/ Z.of_nat (base.size L) = NumDirEntries \/ room bm < cost size in
  (fails -> Create M fname size fs ss = Ret (false, ss)) /\
  (~ fails -> MaxFileSize < size -> Create M fname size fs ss = Undef).
Proof.
  intros G K Hf Hsz fails. destruct (Z.le_gt_cases size MaxFileSize) as [Hle|Hgt].
  - split; [|lia]. intros Hfail. pose proof (Create_spec M G fs ss bm d L fname size K Hf ltac:(lia)) as Hc. cbv zeta in Hc.
    destruct (bool_decide _ || _ || _) eqn:E; [exact Hc|]. apply orb_false_iff in E as [[E1 E2]%orb_false_iff E3].
    apply bool_decide_eq_false in E1. apply Z.eqb_neq in E2. apply Z.ltb_ge in E3. unfold fails, cost in Hfail.
    destruct Hfail as [?|[?|?]]; [done | congruence | lia].
  - destruct (ok_map M _ _ _ _ _ K) as (Hm & Hw & Hn). destruct (ok_dir M _ _ _ _ _ K) as (Ht & Hd & Hs).
    unfold Create. rewrite (fetch_directory_spec M G _ _ _ _ _ K). cbn [bind]. rewrite (Find_layout M _ _ _ _ _ _ K Hf). cbn [bind].
    unfold fails. destruct (L !! label fname) as [[s0 h0]|] eqn:HL; cbn [fmap option_fmap option_map fst default id].
    { destruct (layout_stored M _ _ _ _ _ _ _ _ K HL) as (Hr & _). rewrite (proj2 (Z.eqb_neq _ _)) by lia. cbn [negb].
      split; [done|]. intros Hno. destruct Hno. left. by eexists. }
    change (-1 =? -1) with true. cbn [negb]. rewrite (fetch_free_map_spec M G _ _ _ _ _ K). cbn [bind].
    rewrite (create_file_big M G fname size d bm Hd Hw Hn Hf) by (lia || by rewrite (files_layout M fs ss bm d L), HL).
    rewrite Hs, (size_layout M fs ss bm d L K). unfold cost.
    destruct (Z.eqb_spec NumDirEntries (Z.of_nat (base.size L))), (Z.ltb_spec (room bm) (1 + divRoundUp size 128)); cbn [orb bind];
      (split; [intros [[? [=]]|Hx]; first [done | lia] | intros Hno _; first [done | destruct Hno; right; first [left; done | right; done]]]).
Qed.

(** ** A disk of old data, formatted *)

Module Demo.

Definition memory : Memory :=
  mkMemory true (fun n => replicate (Z.to_nat n) 77) (fun _ => 3735928559)
    (replicate 10 (mkEntry true [7; 7; 7] 9 (replicate 10 88) [0; 0])) (mkHeader 5 6 (replicate 30 4)).

Definition old_disk : Sectors := replicate 1024 (replicate 128 99).

Lemma memory_good : good_memory memory.
Proof.
  split.
  - intros n Hn. cbn. rewrite length_replicate. lia.
  - split; [done|]. apply Forall_replicate. by split.
  - split; [done|]. apply Forall_cons. split; [done|]. apply Forall_cons. split; [done|]. by apply Forall_replicate.
Qed.

Lemma old_disk_wf : wf_sectors old_disk.
Proof. split; [unfold old_disk; by rewrite length_replicate | by apply Forall_replicate]. Qed.

Definition ab : list Z := [97; 98; 0].
Definition cd : list Z := [99; 100; 0].

Definition session : list operation :=
  [OpCreate ab 300; OpCreate cd 130; OpCreate ab 10; OpWrite ab [1; 2; 3; 4] 126; OpWrite cd [9; 9] 129;
   OpRead ab 6 125; OpRead cd 5 127; OpRemove ab; OpRead ab 1 0; OpCreate cd 50; OpMount; OpRead cd 1 129].

Lemma session_results :
  match (let! st := Format memory old_disk in performs memory session st) with
  | Ret (rs, _) => rs = [RBool true; RBool true; RBool false; RCount 4; RCount 1;
      RBytes [99; 1; 2; 3; 4; 99]; RBytes [99; 99; 9]; RBool true; RNone; RBool false; RNone; RBytes [9]]
  | _ => False
  end.
Proof. vm_compute. reflexivity. Qed.

Lemma session_valid : Forall valid session.
Proof.
  repeat (apply Forall_cons; split); [..| apply Forall_nil; exact I];
    cbn; repeat split; try lia; try (change MaxFileSize with 3840; lia); right; right; left; reflexivity.
Qed.

Lemma FileSystem_implements_map_witness : exists st A,
  (let! st := Format memory old_disk in performs memory session st) =
    Ret ([RBool true; RBool true; RBool false; RCount 4; RCount 1; RBytes [99; 1; 2; 3; 4; 99]; RBytes [99; 99; 9];
      RBool true; RNone; RBool false; RNone; RBytes [9]], st) /\ represents memory st A.
Proof.
  destruct (FileSystem_implements_map memory old_disk session memory_good old_disk_wf session_valid)
    as (fs & ss & rs & st & A & Hf & Hp & _ & R).
  pose proof session_results as Hr. rewrite Hf in Hr |- *. cbn [bind] in Hr |- *. rewrite Hp in Hr |- *. subst rs.
  exists st, A. exact (conj eq_refl R).
Defined.

Lemma Create_errors_witness : exists fs ss, Format memory old_disk = Ret (fs, ss) /\ Create memory ab 5000 fs ss = Undef.
Proof.
  destruct (Format_spec memory memory_good old_disk old_disk_wf) as (fs & ss & bm & d & Hf & K & Hr).
  exists fs, ss. split; [exact Hf|].
  apply (Create_errors memory fs ss bm d ∅ ab 5000 memory_good K); [right; right; left; reflexivity | lia | | change MaxFileSize with 3840; lia].
  rewrite Hr. intros [[? [=]]|[H|H]]; [discriminate H | vm_compute in H; discriminate H].
Defined.
End Demo.
