(* ===== verification/FsPrint.v ===== *)
(** * The Print functions of the file system (userprog/bitmap.cc, filesys/filehdr.cc,
      filesys/directory.cc, filesys/filesys.cc)

    FileSystem::Print walks over everything: the two headers of the system, the map
    of free sectors, the directory, and for every file its header and its bytes. The
    contract says what the walk prints in terms of the contents of the files, and
    that the sectors it names are exactly the marked ones. *)

From S2P Require Import Prelude BitMap Machine Disk SynchDisk Ints FileHdr OpenFile Directory FileSys.

(** ** Output

    Calls of printf are kept as they are, with their arguments; the newline at the
    end of a format is left out. *)

Inductive arg := Int (n : Z) | Str (s : list Z).
Inductive output := Printf (format : string) (args : list arg) | Putc (c : Z) | Stats.

(** ** The functions *)

Section Code.
Variable M : Memory.

Definition BitMap_Print (bm : BitMap) : C (list output) :=
  let! set := BitMap.Print bm in
  Ret (Printf "Bitmap set:" [] :: ((fun i => Printf "%d, " [Int i]) <$> set) ++ [Putc 10]).

(** The inner loop, over the [data] of a sector. *)
Fixpoint print_data (data : list Z) (k numBytes : Z) : list output * Z :=
  match data with
  | [] => ([], k)
  | c :: data =>
      if k <? numBytes then
        let '(out, k) := print_data data (k + 1) numBytes in
        ((if (32 <=? c) && (c <=? 126) then Putc c else Printf "\%x" [Int (u8 c)]) :: out, k)
      else ([], k)
  end.

Definition FileHeader_Print (h : FileHeader) (ss : Sectors) : C (list output) :=
  let! blocks := for_upto 0 (Z.to_nat (numSectors h)) (fun i out =>
    let! s := aref (dataSectors h) i in Ret (out ++ [Printf "%d " [Int s]])) [] in
  let! (out, (_, _)) := for_upto 0 (Z.to_nat (numSectors h)) (fun i '(out, (k, data)) =>
    let! s := aref (dataSectors h) i in
    let! data := ReadSector s data 0 ss in
    let '(chars, k) := print_data data k (numBytes h) in
    Ret (out ++ chars ++ [Putc 10], (k, data))) ([], (0, newmem M SectorSize)) in
  Ret (Printf "FileHeader contents.  File size: %d.  File blocks:" [Int (numBytes h)] :: blocks ++
       [Putc 10; Printf "File contents:" []] ++ out).

Definition Directory_Print (d : Directory) (ss : Sectors) : C (list output) :=
  let! (out, _) := for_upto 0 (Z.to_nat (tableSize d)) (fun i '(out, h) =>
    let! e := aref (table d) i in
    if inUse e then
      let! s := Directory.c_string (name e) in
      let! h := FileHdr.FetchFrom (big M) (sector e) h ss in
      let! contents := FileHeader_Print h ss in
      Ret (out ++ Printf "Name: %s, Sector: %d" [Str s; Int (sector e)] :: contents, h)
    else Ret (out, h)) ([], newheader M) in
  Ret (Printf "Directory contents:" [] :: out ++ [Putc 10]).

Definition FileSystem_Print (fs : FileSystem) (ss : Sectors) : C (list output) :=
  let! bitHdr := FileHdr.FetchFrom (big M) FreeMapSector (newheader M) ss in
  let! out1 := FileHeader_Print bitHdr ss in
  let! dirHdr := FileHdr.FetchFrom (big M) DirectorySector (newheader M) ss in
  let! out2 := FileHeader_Print dirHdr ss in
  let! freeMap := fetch_free_map M fs ss in
  let! out3 := BitMap_Print freeMap in
  let! directory := fetch_directory M fs ss in
  let! out4 := Directory_Print directory ss in
  Ret (Printf "Bit map file header:" [] :: out1 ++ Printf "Directory file header:" [] :: out2 ++ out3 ++ out4).
End Code.

(** ** What they say *)

(** One character of a file. *)
Definition shown (c : Z) : output := if (32 <=? c) && (c <=? 126) then Putc c else Printf "\%x" [Int (u8 c)].

(** The bytes [c] of a file, in lines of 128. *)
Definition line (c : list Z) (i : nat) : list output := (shown <$> take 128 (drop (128 * i) c)) ++ [Putc 10].
Definition blocks_of (c : list Z) : nat := Z.to_nat (divRoundUp (Z.of_nat (length c)) 128).
Definition print_lines (c : list Z) : list output := concat (line c <$> seq 0 (blocks_of c)).

Definition header_says (c blocks : list Z) : list output :=
  Printf "FileHeader contents.  File size: %d.  File blocks:" [Int (Z.of_nat (length c))] ::
  ((fun s => Printf "%d " [Int s]) <$> blocks) ++ [Putc 10; Printf "File contents:" []] ++ print_lines c.

(** A file as the directory shows it. *)
Record shown_file := mkShown { sh_name : list Z; sh_sector : Z; sh_blocks : list Z; sh_contents : list Z }.

Definition file_says (f : shown_file) : list output :=
  Printf "Name: %s, Sector: %d" [Str (sh_name f); Int (sh_sector f)] :: header_says (sh_contents f) (sh_blocks f).

(** The numbers of the marked sectors, in increasing order. *)
Definition set_bits (bm : BitMap) : list Z := filter (fun i => bit bm i = true) (seqZ 0 (BitMap.numBits bm)).

(** Everything: contents and sectors of the two files of the system, the marked
    sectors, the files. *)
Record shown_disk := mkShownDisk {
  sd_map : list Z * list Z;
  sd_dir : list Z * list Z;
  sd_marked : list Z;
  sd_files : list shown_file
}.

Definition disk_says (D : shown_disk) : list output :=
  Printf "Bit map file header:" [] :: header_says (sd_map D).1 (sd_map D).2 ++
  Printf "Directory file header:" [] :: header_says (sd_dir D).1 (sd_dir D).2 ++
  (Printf "Bitmap set:" [] :: ((fun i => Printf "%d, " [Int i]) <$> sd_marked D) ++ [Putc 10]) ++
  Printf "Directory contents:" [] :: concat (file_says <$> sd_files D) ++ [Putc 10].

(** What is shown is the map [A]: its names with their contents, each with as many
    sectors as it needs; the bytes of the two system files are those of the marked
    sectors and of the names; and the sectors named, no two of them the same, are
    the marked ones, whose number is what [A] leaves no room for. *)
Record shows_map (M : Memory) (A : Abstract) (D : shown_disk) : Prop := {
  sm_files : (fun f => (sh_name f, sh_contents f)) <$> sd_files D ≡ₚ map_to_list (afiles A);
  sm_blocks : Forall (fun f => length (sh_blocks f) = blocks_of (sh_contents f)) (sd_files D);
  sm_map : exists bm, wf bm /\ (sd_map D).1 = map_bytes M bm /\ sd_marked D = set_bits bm;
  sm_dir : exists d, wf_dir d /\ (sd_dir D).1 = table_bytes (big M) (table d) /\
    (fun f => (sh_name f, sh_sector f)) <$> sd_files D = omap binding (table d);
  sm_sectors : [FreeMapSector; DirectorySector] ++ (sd_map D).2 ++ (sd_dir D).2 ++
    (sd_files D ≫= fun f => sh_sector f :: sh_blocks f) ≡ₚ sd_marked D;
  sm_distinct : NoDup (sd_marked D);
  sm_room : Z.of_nat (length (sd_marked D)) = NumSectors - aroom A
}.

(** ** The loops *)

Lemma print_data_spec data k n : 0 <= k -> k <= n ->
  print_data data k n = (shown <$> take (Z.to_nat (n - k)) data, Z.min n (k + Z.of_nat (length data))).
Proof.
  revert k. induction data as [|c data IH]; intros k Hk Hn; cbn [print_data].
  - rewrite take_nil. cbn. f_equal. lia.
  - destruct (Z.ltb_spec k n).
    + rewrite IH by lia. replace (Z.to_nat (n - k)) with (S (Z.to_nat (n - (k + 1)))) by lia. cbn [take fmap list_fmap length].
      f_equal. lia.
    + replace (Z.to_nat (n - k)) with 0%nat by lia. cbn [take length]. cbn. f_equal. lia.
Qed.

Lemma print_blocks_spec ds n : n <= Z.of_nat (length ds) ->
  for_upto 0 (Z.to_nat n) (fun i out => let! s := aref ds i in Ret (out ++ [Printf "%d " [Int s]])) [] =
  Ret ((fun s => Printf "%d " [Int s]) <$> take (Z.to_nat n) ds).
Proof.
  intros Hn. destruct (for_upto_inv (fun i out => out = (fun s => Printf "%d " [Int s]) <$> take (Z.to_nat i) ds) 0 (Z.to_nat n)
    (fun i out => let! s := aref ds i in Ret (out ++ [Printf "%d " [Int s]])) []) as (out & -> & ->); [done| |by rewrite Z.add_0_l, Nat2Z.id].
  intros j t Hj ->. destruct (lookup_lt_is_Some_2 ds (Z.to_nat j)) as [s Hs]; [lia|].
  rewrite (proj2 (aref_Ret ds j s)) by (split; [lia | done]). cbn [bind]. eexists. split; [done|].
  replace (Z.to_nat (j + 1)) with (S (Z.to_nat j)) by lia. by rewrite (take_S_r _ _ s Hs), fmap_app.
Qed.

Lemma contents_blocks ss h : on_disk ss h -> Z.of_nat (blocks_of (contents ss h)) = numSectors h.
Proof.
  intros Hd. unfold blocks_of. rewrite length_contents by done. destruct Hd as [_ Hh]. rewrite <- (wh_sectors h Hh).
  pose proof (numSectors_bound h Hh). lia.
Qed.

(** The sector of a line of a file. *)
Lemma line_data ss h i : on_disk ss h -> 0 <= i < numSectors h ->
  let sec := take 128 (drop (128 * Z.to_nat i) (file_data ss h)) in length sec = 128%nat ->
  print_data sec (Z.min (numBytes h) (128 * i)) (numBytes h) =
    (shown <$> take 128 (drop (128 * Z.to_nat i) (contents ss h)), Z.min (numBytes h) (128 * (i + 1))).
Proof.
  intros Hd Hi sec Hsec. destruct (numSectors_bound h (proj2 Hd)) as [Hn _]. rewrite Z.min_r by lia.
  rewrite print_data_spec by lia. rewrite Hsec. f_equal; [|f_equal; lia]. f_equal. unfold sec, contents.
  rewrite skipn_firstn_comm, !take_take. f_equal. lia.
Qed.

Section Walk.
Context (M : Memory) (G : good_memory M).

Lemma FileHeader_Print_spec ss h : on_disk ss h -> FileHeader_Print M h ss = Ret (header_says (contents ss h) (used h)).
Proof using G.
  intros Hd. pose proof (numSectors_bound h (proj2 Hd)) as [_ Hn]. pose proof (wh_header h (proj2 Hd)) as [Hl _].
  unfold FileHeader_Print. rewrite print_blocks_spec by lia. cbn [bind].
  pose (I := fun i '(out, (k, data)) => out = concat (line (contents ss h) <$> seq 0 (Z.to_nat i)) /\
    k = Z.min (numBytes h) (128 * i) /\ length (data : list Z) = 128%nat).
  match goal with |- context [for_upto 0 ?n ?body ?s] => destruct (for_upto_inv I 0 n body s) as ([out [k data]] & -> & Hout & _) end.
  - pose proof (gm_mem M G SectorSize ltac:(done)) as Hm. pose proof (wh_length h (proj2 Hd)). change SectorSize with 128 in *.
    split; [done|]. split; lia.
  - intros i [out [k data]] Hi (-> & -> & Hdata). destruct (nth_sector ss h i Hd ltac:(lia)) as (s & sec & _ & Hs & Hr & Hsec & Hls & Ht).
    unfold used in Hs. apply lookup_take_Some in Hs as [Hs _]. rewrite (proj2 (aref_Ret _ i s)) by (split; [lia | done]). cbn [bind].
    rewrite (ReadSector_spec s data 0 ss sec) by (done || apply Hd). rewrite copy_into_full by lia. cbn [bind].
    pose proof (line_data ss h i Hd ltac:(lia)) as Hp. rewrite Ht in Hp. rewrite (Hp Hls). cbn [bind]. eexists. split; [done|].
    split; [|by split]. replace (Z.to_nat (i + 1)) with (S (Z.to_nat i)) by lia. rewrite seq_S, fmap_app, concat_app. cbn. by rewrite app_nil_r.
  - cbn [bind]. unfold header_says, print_lines. rewrite length_contents, Hout by done. pose proof (contents_blocks ss h Hd).
    rewrite Z.add_0_l, Nat2Z.id. by replace (blocks_of (contents ss h)) with (Z.to_nat (numSectors h)) by lia.
Qed.

(** *** The map of free sectors *)

Lemma print_set_bits bm i n acc : wf bm -> 0 <= i -> i + Z.of_nat n <= BitMap.numBits bm ->
  for_upto i n (fun i (out : list Z) => let! t := Test bm i in Ret (if t then out ++ [i] else out)) acc =
  Ret (acc ++ filter (fun j => bit bm j = true) (seqZ i (Z.of_nat n))).
Proof using.
  intros Hwf. revert i acc. induction n as [|n IH]; intros i acc Hi Hn; [by rewrite seqZ_nil, app_nil_r by lia|].
  rewrite seqZ_cons by lia. replace (Z.pred (Z.of_nat (S n))) with (Z.of_nat n) by lia. cbn [for_upto].
  rewrite Test_bit by (done || lia). cbn [bind]. rewrite IH by lia. rewrite filter_cons. replace (Z.succ i) with (i + 1) by lia.
  destruct (bit bm i); [by rewrite decide_True, <- app_assoc | by rewrite decide_False].
Qed.

Lemma BitMap_Print_spec bm : wf bm ->
  BitMap_Print bm = Ret (Printf "Bitmap set:" [] :: ((fun i => Printf "%d, " [Int i]) <$> set_bits bm) ++ [Putc 10]).
Proof using.
  intros H. pose proof (wf_numBits bm H). unfold BitMap_Print, BitMap.Print. rewrite print_set_bits by (done || lia). cbn [bind app].
  unfold set_bits. by rewrite Z2Nat.id by lia.
Qed.

Lemma length_set_bits bm : wf bm -> Z.of_nat (length (set_bits bm)) = BitMap.numBits bm - room bm.
Proof using.
  intros H. unfold set_bits, room, clear_bits. pose proof (wf_numBits bm H).
  assert (forall l, length (filter (fun i => bit bm i = true) l) + length (filter (fun i => bit bm i = false) l) = length l)%nat as Hl.
  { induction l as [|x l IH]; [done|]. rewrite !filter_cons. destruct (bit bm x); [rewrite decide_True, decide_False by done | rewrite decide_False, decide_True by done]; cbn [length]; lia. }
  specialize (Hl (seqZ 0 (BitMap.numBits bm))). rewrite length_seqZ in Hl. lia.
Qed.
(** *** The directory *)

Lemma c_string_prefix n b : (length (prefix n b) < n)%nat -> (n <= length b)%nat -> c_string b = Ret (prefix n b).
Proof using.
  revert b. induction n as [|n IH]; intros b Hp Hb; [cbn in Hp; lia|]. destruct b as [|c b]; [cbn in Hb; lia|].
  cbn [prefix c_string] in *. destruct (c =? 0); [done|]. cbn [length] in *. by rewrite IH by lia.
Qed.

(** No name is so long that its terminating zero may be missing. *)
Definition short_names {A} (m : gmap (list Z) A) : Prop := map_Forall (fun k _ => (length k < name_max)%nat) m.

Lemma short_view (ss : Sectors) (L : Layout) : short_names (FileSys.view ss L) -> short_names L.
Proof using. intros H k f HL. apply (H k (contents ss f.2)). unfold FileSys.view. by rewrite lookup_fmap, HL. Qed.

Section Listing.
Context (fs : FileSystem) (ss : Sectors) (bm : BitMap) (d : Directory) (L : Layout).
Context (K : fs_ok M fs ss bm d L) (Hshort : short_names L).

(** The entry [i] of the table, if it is in use: its name, and the file it leads to. *)
Lemma entry_file i : 0 <= i < tableSize d -> exists e, aref (table d) i = Ret e /\ table d !! Z.to_nat i = Some e /\
  (inUse e = true -> c_string (name e) = Ret (label (name e)) /\ exists h, L !! label (name e) = Some (sector e, h)).
Proof using K Hshort.
  intros Hi. destruct (ok_dir M _ _ _ _ _ K) as (_ & Hd & _). destruct (lookup_lt_is_Some_2 (table d) (Z.to_nat i)) as [e He].
  { pose proof (wd_size d Hd). lia. }
  exists e. split; [by apply aref_Ret; split; [lia|]|]. split; [done|]. intros Hu.
  assert (files d !! label (name e) = Some (sector e)) as Hf by (apply files_lookup; [done|]; by exists (Z.to_nat i), e).
  rewrite (ok_files M _ _ _ _ _ K), lookup_fmap in Hf. destruct (L !! label (name e)) as [[s h]|] eqn:HL; [|done]. injection Hf as <-.
  split; [|by exists h]. apply (c_string_prefix name_max).
  - exact (Hshort _ _ HL).
  - pose proof (Forall_lookup_1 _ _ _ _ (wd_entries d Hd) He) as Hw. rewrite (we_name e Hw). unfold name_max, FileNameMaxLen. lia.
Qed.

Lemma take_bindings i e : table d !! Z.to_nat i = Some e -> 0 <= i ->
  omap binding (take (Z.to_nat (i + 1)) (table d)) = omap binding (take (Z.to_nat i) (table d)) ++ (if inUse e then [(label (name e), sector e)] else []).
Proof using.
  intros He Hi. replace (Z.to_nat (i + 1)) with (S (Z.to_nat i)) by lia. rewrite (take_S_r _ _ e He), omap_app. cbn.
  unfold binding. by destruct (inUse e).
Qed.

Lemma all_bindings i : i = tableSize d -> wf_dir d -> omap binding (take (Z.to_nat i) (table d)) = omap binding (table d).
Proof using. intros -> Hd. rewrite take_ge; [done|]. pose proof (wd_size d Hd). lia. Qed.

Lemma List_spec : Directory.List d = Ret (omap binding (table d)).*1.
Proof using K Hshort.
  destruct (ok_dir M _ _ _ _ _ K) as (_ & Hd & Hs). unfold Directory.List.
  pose (I := fun i (out : list (list Z)) => out = (omap binding (take (Z.to_nat i) (table d))).*1).
  match goal with |- for_upto 0 ?n ?body ?s = _ => destruct (for_upto_inv I 0 n body s) as (out & -> & ->) end; [done| |].
  - intros i out Hi ->. destruct (entry_file i) as (e & -> & He & Hu); [lia|]. cbn [bind]. unfold I.
    rewrite (take_bindings i e), fmap_app by (done || lia). destruct (inUse e).
    + destruct (Hu eq_refl) as [-> _]. cbn [bind]. eexists. by split.
    + eexists. split; [done|]. by rewrite app_nil_r.
  - rewrite all_bindings; [done | change NumDirEntries with 10 in *; lia | done].
Qed.

Definition shows (b : list Z * Z) : shown_file :=
  let h := from_option snd (newheader M) (L !! b.1) in mkShown b.1 b.2 (used h) (contents ss h).
Definition shown_files : list shown_file := shows <$> omap binding (table d).

Lemma Directory_Print_spec :
  Directory_Print M d ss = Ret (Printf "Directory contents:" [] :: concat (file_says <$> shown_files) ++ [Putc 10]).
Proof using K Hshort G.
  destruct (ok_dir M _ _ _ _ _ K) as (_ & Hd & Hs). unfold Directory_Print, shown_files.
  pose (I := fun i '(out, h) => out = concat (file_says <$> (shows <$> omap binding (take (Z.to_nat i) (table d)))) /\ is_header h).
  match goal with |- context [for_upto 0 ?n ?body ?s] => destruct (for_upto_inv I 0 n body s) as ([out h] & -> & -> & _) end.
  - split; [done | apply (gm_header M G)].
  - intros i [out h] Hi [-> Hh]. destruct (entry_file i) as (e & -> & He & Hu); [lia|]. cbn [bind]. unfold I.
    rewrite (take_bindings i e), !fmap_app, concat_app by (done || lia). destruct (inUse e).
    + destruct (Hu eq_refl) as [-> [he HL]]. cbn [bind]. destruct (ok_layout M _ _ _ _ _ K _ _ HL) as (Hr & Hw & Hst). cbn [fst snd] in *.
      pose proof (layout_disk M _ _ _ _ _ _ _ _ K HL) as Hod.
      rewrite (header_FetchFrom_spec (big M) (sector e) he h ss (proj1 Hod) Hr (wh_header he Hw) Hh Hst). cbn [bind].
      rewrite FileHeader_Print_spec by done. cbn [bind]. eexists. split; [done|]. split; [|apply Hw].
      unfold shows. cbn. rewrite HL. cbn. by rewrite app_nil_r.
    + eexists. split; [done|]. split; [by rewrite app_nil_r | done].
  - cbn [bind]. rewrite all_bindings; [done | change NumDirEntries with 10 in *; lia | done].
Qed.
(** *** Everything *)

Lemma bindings_layout : omap binding (table d) ≡ₚ prod_map id fst <$> map_to_list L.
Proof using K.
  destruct (ok_dir M _ _ _ _ _ K) as (_ & Hd & _). rewrite <- map_to_list_fmap, <- (ok_files M _ _ _ _ _ K).
  unfold files. symmetry. by apply map_to_list_to_map, labels_NoDup.
Qed.

(** A binding of the table is a file of the layout. *)
Lemma binding_layout b : b ∈ omap binding (table d) -> exists h, L !! b.1 = Some (b.2, h) /\ shows b = mkShown b.1 b.2 (used h) (contents ss h).
Proof using K.
  rewrite bindings_layout, list_elem_of_fmap. intros ([k [s h]] & -> & Hb%elem_of_map_to_list). exists h. cbn. unfold shows. cbn. by rewrite Hb.
Qed.

Lemma shown_names : (fun f => (sh_name f, sh_contents f)) <$> shown_files ≡ₚ map_to_list (FileSys.view ss L).
Proof using K.
  unfold shown_files. rewrite bindings_layout. unfold FileSys.view. rewrite map_to_list_fmap, <- !list_fmap_compose.
  erewrite list_fmap_ext; [reflexivity|]. intros i [k [s h]] Hb%list_elem_of_lookup_2%elem_of_map_to_list.
  cbn. unfold shows. cbn. by rewrite Hb.
Qed.

(** The sectors of an owner, and the owners. *)
Definition sectors_of (o : owner) : list Z :=
  match o with
  | MapHeader => [FreeMapSector]
  | DirHeader => [DirectorySector]
  | MapData => used (hdr (freeMapFile fs))
  | DirData => used (hdr (directoryFile fs))
  | Header k => match L !! k with Some (s, _) => [s] | None => [] end
  | Data k => match L !! k with Some (_, h) => used h | None => [] end
  end.

Definition owners : list owner :=
  [MapHeader; DirHeader; MapData; DirData] ++ ((omap binding (table d)).*1 ≫= fun k => [Header k; Data k]).

Lemma sectors_of_owns o j : j ∈ sectors_of o <-> owns fs L o j.
Proof using.
  destruct o as [| | | |k|k]; cbn; [by rewrite list_elem_of_singleton | by rewrite list_elem_of_singleton | done | done |..];
    destruct (L !! k) as [[s h]|]; rewrite ?list_elem_of_singleton, ?elem_of_nil; naive_solver.
Qed.

Lemma owners_NoDup : NoDup owners.
Proof using K.
  clear Hshort G. destruct (ok_dir M _ _ _ _ _ K) as (_ & Hd & _). unfold owners. apply NoDup_app. split; [|split].
  - repeat constructor; set_solver.
  - intros o Ho (k & Hk & _)%list_elem_of_bind. set_solver.
  - apply NoDup_bind; [set_solver | | by apply labels_NoDup]. intros k _. repeat constructor; set_solver.
Qed.

Lemma sectors_NoDup o : NoDup (sectors_of o).
Proof using K.
  destruct o as [| | | |k|k]; cbn; [apply NoDup_singleton | apply NoDup_singleton | | |..].
  - apply (wh_NoDup _ (proj2 (proj1 (proj1 (ok_map M _ _ _ _ _ K))))).
  - apply (wh_NoDup _ (proj2 (proj1 (proj1 (ok_dir M _ _ _ _ _ K))))).
  - destruct (L !! k) as [[s h]|]; [apply NoDup_singleton | constructor].
  - destruct (L !! k) as [[s h]|] eqn:HL; [|constructor]. apply (wh_NoDup h (proj2 (layout_disk M _ _ _ _ _ _ _ _ K HL))).
Qed.

Lemma owned_sectors : owners ≫= sectors_of =
  [FreeMapSector; DirectorySector] ++ used (hdr (freeMapFile fs)) ++ used (hdr (directoryFile fs)) ++
  (shown_files ≫= fun f => sh_sector f :: sh_blocks f).
Proof using K.
  unfold owners. rewrite bind_app. cbn. do 2 f_equal. rewrite app_nil_r, <- app_assoc. do 2 f_equal.
  unfold shown_files. pose proof binding_layout as Hb. induction (omap binding (table d)) as [|b l IH]; [done|].
  destruct (Hb b ltac:(left)) as (h & HL & E). rewrite !fmap_cons, !bind_cons, bind_app, E, IH.
  - cbn. by rewrite HL, app_nil_r.
  - intros b' Hb'. apply Hb. by right.
Qed.

Lemma set_bits_in j : j ∈ set_bits bm <-> 0 <= j < NumSectors /\ bit bm j = true.
Proof using K.
  unfold set_bits. destruct (ok_map M _ _ _ _ _ K) as (_ & _ & ->). rewrite list_elem_of_filter, elem_of_seqZ. tauto.
Qed.

Lemma set_bits_NoDup : NoDup (set_bits bm).
Proof using. apply NoDup_filter, NoDup_seqZ. Qed.

Lemma owned_marked : owners ≫= sectors_of ≡ₚ set_bits bm.
Proof using K.
  clear Hshort G. apply NoDup_Permutation.
  - apply NoDup_bind; [|by intros; apply sectors_NoDup|apply owners_NoDup].
    intros o o' j _ _ H1%sectors_of_owns H2%sectors_of_owns. exact (ok_owner M _ _ _ _ _ K _ _ _ H1 H2).
  - apply set_bits_NoDup.
  - intros j. rewrite set_bits_in, list_elem_of_bind. split.
    + intros (o & Ho%sectors_of_owns & _). pose proof (owns_range M _ _ _ _ _ _ _ K Ho) as Hj. split; [done|].
      apply (ok_marked M _ _ _ _ _ K); eauto.
    + intros [Hj (o & Ho)%(ok_marked M _ _ _ _ _ K j Hj)]. exists o. split; [by apply sectors_of_owns|].
      unfold owners. apply elem_of_app. destruct o as [| | | |k|k]; [left; set_solver..| |]; right; apply list_elem_of_bind; exists k;
        (split; [set_solver|]); rewrite bindings_layout, <- list_fmap_compose, list_elem_of_fmap.
      * destruct Ho as (h & HL). exists (k, (j, h)). split; [done|]. by apply elem_of_map_to_list.
      * destruct Ho as (s & h & HL & _). exists (k, (s, h)). split; [done|]. by apply elem_of_map_to_list.
Qed.
Definition shown_everything : shown_disk :=
  let m := hdr (freeMapFile fs) in let r := hdr (directoryFile fs) in
  mkShownDisk (contents ss m, used m) (contents ss r, used r) (set_bits bm) shown_files.

Lemma FileSystem_Print_spec : FileSystem_Print M fs ss = Ret (disk_says shown_everything).
Proof using K Hshort G.
  destruct (ok_heads M _ _ _ _ _ K) as [(_ & Hwm & Hm) (_ & Hwr & Hr)]. destruct (ok_map M _ _ _ _ _ K) as ([Hdm _] & Hbm & _).
  destruct (ok_dir M _ _ _ _ _ K) as ([Hdr _] & _). unfold FileSystem_Print.
  rewrite (header_FetchFrom_spec (big M) FreeMapSector (hdr (freeMapFile fs))) by (done || apply Hdm || apply Hwm || apply (gm_header M G)).
  cbn [bind]. rewrite FileHeader_Print_spec by done. cbn [bind].
  rewrite (header_FetchFrom_spec (big M) DirectorySector (hdr (directoryFile fs))) by (done || apply Hdr || apply Hwr || apply (gm_header M G)).
  cbn [bind]. rewrite FileHeader_Print_spec by done. cbn [bind]. rewrite (fetch_free_map_spec M G fs ss bm d L K). cbn [bind].
  rewrite BitMap_Print_spec by done. cbn [bind]. rewrite (fetch_directory_spec M G fs ss bm d L K). cbn [bind].
  rewrite Directory_Print_spec. reflexivity.
Qed.

Lemma shows_everything A : FileSys.view ss L = afiles A -> room bm = aroom A -> shows_map M A shown_everything.
Proof using K.
  intros Hv Hr. destruct (ok_map M _ _ _ _ _ K) as ((_ & _ & Hmc) & Hbm & Hn). destruct (ok_dir M _ _ _ _ _ K) as ((_ & _ & Hdc) & Hd & _).
  unfold shown_everything. split; cbn [sd_map sd_dir sd_marked sd_files fst snd].
  - rewrite shown_names. by rewrite Hv.
  - unfold shown_files. apply Forall_fmap, Forall_forall. intros b Hb. destruct (binding_layout b Hb) as (h & HL & E).
    change (length (sh_blocks (shows b)) = blocks_of (sh_contents (shows b))). rewrite E. cbn.
    pose proof (layout_disk M _ _ _ _ _ _ _ _ K HL) as Hod. pose proof (contents_blocks ss h Hod). rewrite length_used by apply Hod. lia.
  - by exists bm.
  - exists d. split; [done|]. split; [done|]. unfold shown_files. rewrite <- list_fmap_compose. rewrite <- (list_fmap_id (omap binding _)) at 2.
    apply list_fmap_ext. by intros i [k s] _.
  - rewrite <- owned_sectors. apply owned_marked.
  - apply set_bits_NoDup.
  - rewrite length_set_bits by done. lia.
Qed.
End Listing.
End Walk.
