(* ===== verification/FsTest.v ===== *)
(** * The commands of the file system (filesys/fstest.cc; threads/main.cc, lines
      124-144)

    What the command line of the build with the real file system can do: copy a UNIX
    file onto the disk, print, remove, list, print everything, test the performance.
    The contract is the one of FileSys.v, names to contents: the commands are
    specified by what they say and by what they change. The two that show the whole
    disk are in FsPrint.v. *)

From S2P Require Import Prelude BitMap Machine Disk SynchDisk Ints FileHdr OpenFile Directory FileSys FsPrint.

Definition TransferSize : Z := 10.

Section Code.
Variable M : Memory.

(** What fopen finds under a name, for reading. *)
Variable unix : list Z -> option (list Z).

(** A buffer of [new char[n]] after [bs] has been read into it. *)
Definition fill (bs buf : list Z) : list Z := bs ++ drop (length bs) buf.

(** *** Copy, Print *)

(** The loop of Copy: [rest] is what fread has not read yet. [None]: out of fuel. *)
Fixpoint Copy_loop (fuel : nat) (rest buffer : list Z) (f : OpenFile) (ss : Sectors) : C (option Sectors) :=
  match fuel with
  | O => Ret None
  | S fuel =>
      let bs := take (Z.to_nat TransferSize) rest in
      let amountRead := Z.of_nat (length bs) in
      let buffer := fill bs buffer in
      if 0 <? amountRead then
        let! (_, (ss, f)) := Write (newmem M) f buffer amountRead ss in
        Copy_loop fuel (drop (length bs) rest) buffer f ss
      else Ret (Some ss)
  end.

Definition Copy (from to : list Z) (fs : FileSystem) (ss : Sectors) : C (option (list output * Sectors)) :=
  match unix from with
  | None => Ret (Some ([Printf "Copy: couldn't open input file %s" [Str from]], ss))
  | Some fp =>
      let fileLength := Z.of_nat (length fp) in
      let! (ok, ss) := Create M to fileLength fs ss in
      if negb ok then Ret (Some ([Printf "Copy: couldn't create output file %s" [Str to]], ss))
      else
        let! openFile := Open M to fs ss in
        match openFile with
        | None => Abort
        | Some f =>
            let! r := Copy_loop (S (length fp)) fp (newmem M TransferSize) f ss in
            Ret ((fun ss => ([], ss)) <$> r)
        end
  end.

Fixpoint Print_loop (fuel : nat) (buffer : list Z) (f : OpenFile) (ss : Sectors) : C (option (list output)) :=
  match fuel with
  | O => Ret None
  | S fuel =>
      let! (amountRead, (buffer, f)) := Read (newmem M) f buffer TransferSize ss in
      if 0 <? amountRead then
        let! bs := copy_from buffer 0 amountRead in
        let! r := Print_loop fuel buffer f ss in
        Ret ((fun out => (Putc <$> bs) ++ out) <$> r)
      else Ret (Some [])
  end.

Definition Print (name : list Z) (fs : FileSystem) (ss : Sectors) : C (option (list output)) :=
  let! openFile := Open M name fs ss in
  match openFile with
  | None => Ret (Some [Printf "Print: unable to open file %s" [Str name]])
  | Some f => Print_loop (S (Z.to_nat (Length f))) (newmem M TransferSize) f ss
  end.

(** *** PerformanceTest *)

Definition FileName : list Z := chars "TestFile" ++ [0].
Definition Contents : list Z := chars "1234567890".
Definition ContentSize : Z := 10.
Definition FileSize : Z := ContentSize * 5000.

Fixpoint FileWrite_loop (turns : nat) (f : OpenFile) (ss : Sectors) : C (list output * Sectors) :=
  match turns with
  | O => Ret ([], ss)
  | S turns =>
      let! (numBytes, (ss, f)) := Write (newmem M) f Contents ContentSize ss in
      if numBytes <? 10 then Ret ([Printf "Perf test: unable to write %s" [Str FileName]], ss)
      else FileWrite_loop turns f ss
  end.

Definition FileWrite (fs : FileSystem) (ss : Sectors) : C (list output * Sectors) :=
  let head := Printf "Sequential write of %d byte file, in %d byte chunks" [Int FileSize; Int ContentSize] in
  let! (ok, ss) := Create M FileName 0 fs ss in
  if negb ok then Ret ([head; Printf "Perf test: can't create %s" [Str FileName]], ss)
  else
    let! openFile := Open M FileName fs ss in
    match openFile with
    | None => Ret ([head; Printf "Perf test: unable to open %s" [Str FileName]], ss)
    | Some f =>
        let! (out, ss) := FileWrite_loop (Z.to_nat (Z.quot FileSize ContentSize)) f ss in Ret (head :: out, ss)
    end.

(** [strncmp(buffer, Contents, ContentSize)] is zero; no character of Contents is. *)
Definition is_contents (buffer : list Z) : bool := bool_decide (take (Z.to_nat ContentSize) buffer = Contents).

Fixpoint FileRead_loop (turns : nat) (buffer : list Z) (f : OpenFile) (ss : Sectors) : C (list output) :=
  match turns with
  | O => Ret []
  | S turns =>
      let! (numBytes, (buffer, f)) := Read (newmem M) f buffer ContentSize ss in
      if (numBytes <? 10) || negb (is_contents buffer) then Ret [Printf "Perf test: unable to read %s" [Str FileName]]
      else FileRead_loop turns buffer f ss
  end.

Definition FileRead (fs : FileSystem) (ss : Sectors) : C (list output) :=
  let head := Printf "Sequential read of %d byte file, in %d byte chunks" [Int FileSize; Int ContentSize] in
  let! openFile := Open M FileName fs ss in
  match openFile with
  | None => Ret [head; Printf "Perf test: unable to open file %s" [Str FileName]]
  | Some f =>
      let! out := FileRead_loop (Z.to_nat (Z.quot FileSize ContentSize)) (newmem M ContentSize) f ss in Ret (head :: out)
  end.

Definition PerformanceTest (fs : FileSystem) (ss : Sectors) : C (list output * Sectors) :=
  let! (out1, ss) := FileWrite fs ss in
  let! out2 := FileRead fs ss in
  let! (ok, ss) := Remove M FileName fs ss in
  let last := if negb ok then Printf "Perf test: unable to remove %s" [Str FileName] else Stats in
  Ret (Printf "Starting file system performance test:" [] :: Stats :: out1 ++ out2 ++ [last], ss).

(** *** The commands of main *)

Inductive command :=
| Cp (from to : list Z)
| Show_file (fname : list Z)
| Rm (fname : list Z)
| Ls
| Dump
| Perf.

(** [None]: out of fuel, which does not happen. *)
Definition run_command (c : command) (fs : FileSystem) (ss : Sectors) : C (option (list output * Sectors)) :=
  match c with
  | Cp from to => Copy from to fs ss
  | Show_file fname => let! out := Print fname fs ss in Ret ((fun o => (o, ss)) <$> out)
  | Rm fname => let! (_, ss) := Remove M fname fs ss in Ret (Some ([], ss))
  | Ls => let! names := List_files M fs ss in Ret (Some ((fun n => Printf "%s" [Str n]) <$> names, ss))
  | Dump => let! out := FileSystem_Print M fs ss in Ret (Some (out, ss))
  | Perf => let! r := PerformanceTest fs ss in Ret (Some r)
  end.

Fixpoint run_commands (cs : list command) (fs : FileSystem) (ss : Sectors) : C (option (list output * Sectors)) :=
  match cs with
  | [] => Ret (Some ([], ss))
  | c :: cs =>
      let! r := run_command c fs ss in
      match r with
      | None => Ret None
      | Some (out, ss) => let! r := run_commands cs fs ss in Ret ((fun '(out', ss) => (out ++ out', ss)) <$> r)
      end
  end.
End Code.

(** ** An open file of the file system *)

Section Opened.
Context (M : Memory) (G : good_memory M).

(** The file system represents [A], and [h] is the header of the file [k]. *)
Definition opened (fs : FileSystem) (ss : Sectors) (A : Abstract) (k : list Z) (h : FileHeader) : Prop :=
  exists bm d L s, fs_ok M fs ss bm d L /\ FileSys.view ss L = afiles A /\ room bm = aroom A /\ L !! k = Some (s, h).

Lemma opened_represents fs ss A k h : opened fs ss A k h -> represents M (fs, ss) A.
Proof using. intros (bm & d & L & s & K & Hv & Hr & _). by exists bm, d, L. Qed.

Lemma opened_contents fs ss A k h : opened fs ss A k h ->
  on_disk ss h /\ afiles A !! k = Some (contents ss h) /\ Z.of_nat (length (contents ss h)) = numBytes h /\ numBytes h <= MaxFileSize.
Proof using.
  intros (bm & d & L & s & K & Hv & Hr & HL). pose proof (layout_disk M _ _ _ _ _ _ _ _ K HL) as Hd. split; [exact Hd|].
  split; [by rewrite <- Hv, view_lookup, HL|]. split; [by apply length_contents|].
  destruct Hd as [_ [_ H0 Hn H30 _ _]]. pose proof (divRoundUp_spec (numBytes h) 128 H0 ltac:(lia)). change MaxFileSize with 3840. lia.
Qed.

Lemma Open_opened fs ss A fname : represents M (fs, ss) A -> readable name_max fname ->
  match afiles A !! label fname with
  | Some _ => exists h, Open M fname fs ss = Ret (Some (mkOpen h 0)) /\ opened fs ss A (label fname) h
  | None => Open M fname fs ss = Ret None
  end.
Proof using G.
  intros (bm & d & L & K & Hv & Hr) Hf. cbn [fst snd] in *. rewrite (Open_spec M G _ _ _ _ _ _ K Hf), <- Hv, view_lookup.
  destruct (L !! label fname) as [[s h]|] eqn:HL; [|done]. exists h. split; [done|]. by exists bm, d, L, s.
Qed.

Lemma opened_Write fs ss A k h c bs n pos : opened fs ss A k h -> afiles A !! k = Some c ->
  0 <= pos -> n <= Z.of_nat (length bs) -> pos + n < 2^31 -> let m := moved (Z.of_nat (length c)) n pos in
  exists ss', Write (newmem M) (mkOpen h pos) bs n ss = Ret (m, (ss', mkOpen h (pos + m))) /\
    opened fs ss' (mkAbstract (<[k := splice c pos (slice bs 0 m)]> (afiles A)) (aroom A)) k h.
Proof using G.
  intros Ho Hc Hp Hn Hlt m. destruct (opened_contents _ _ _ _ _ Ho) as (Hd & Hk & Hlen & _). rewrite Hc in Hk. injection Hk as ->.
  pose proof (file_WriteAt_spec (newmem M) (gm_mem M G) ss h bs n pos Hd Hp Hlt) as Hw. unfold m, moved, Write. rewrite Hlen.
  cbn [hdr seekPosition]. destruct Ho as (bm & d & L & s & K & Hv & Hr & HL). destruct (_ || _) eqn:E.
  - rewrite Hw. cbn [bind]. exists ss. split; [done|]. exists bm, d, L, s. split; [done|]. split; [|done].
    rewrite Hv. symmetry. apply insert_id. rewrite Hc. f_equal. unfold splice, slice.
    change (Z.to_nat 0) with 0%nat. rewrite !take_0. cbn [length app]. by rewrite Nat.add_0_r, take_drop.
  - cbv zeta in Hw. apply orb_false_iff in E as [E1%Z.leb_gt E2%Z.leb_gt]. destruct Hw as (ss' & -> & Hu & Hc'); [lia|]. cbn [bind].
    exists ss'. split; [done|]. destruct (WriteAt_ok M fs ss bm d L k s h ss' K HL Hu) as [K' Hv'].
    exists bm, d, L, s. split; [done|]. split; [|done]. cbn [afiles]. by rewrite Hv', Hv, Hc'.
Qed.

Lemma opened_Read fs ss A k h c into n pos : opened fs ss A k h -> afiles A !! k = Some c ->
  0 <= pos -> 0 <= n <= Z.of_nat (length into) -> pos + n < 2^31 -> let m := moved (Z.of_nat (length c)) n pos in
  exists into', Read (newmem M) (mkOpen h pos) into n ss = Ret (m, (into', mkOpen h (pos + m))) /\
    length into' = length into /\ take (Z.to_nat m) into' = slice c pos m.
Proof using G.
  intros Ho Hc Hp Hn Hlt m. destruct (opened_contents _ _ _ _ _ Ho) as (Hd & Hk & Hlen & _). rewrite Hc in Hk. injection Hk as ->.
  unfold m, moved, Read. cbn [hdr seekPosition]. rewrite (ReadAt_spec (newmem M) (gm_mem M G)), Hlen by done.
  destruct (_ || _) eqn:E; [by exists into|].
  cbv zeta. apply orb_false_iff in E as [E1%Z.leb_gt E2%Z.leb_gt]. set (x := Z.min n _) in *.
  pose proof (length_slice (contents ss h) pos x ltac:(lia) ltac:(lia) ltac:(lia)) as Hsl.
  unfold copy_into. rewrite !(proj2 (Z.leb_le _ _)) by lia. cbn [andb bind]. change (Z.to_nat 0) with 0%nat. rewrite take_0. cbn [app].
  eexists. split; [reflexivity|]. split; [rewrite length_app, length_drop; lia|]. by rewrite take_app_length' by lia.
Qed.
End Opened.

(** ** What the commands do to the map *)

Lemma moved_all len n pos : 0 < n -> 0 <= pos -> pos + n <= len -> moved len n pos = n.
Proof. intros. unfold moved. rewrite (proj2 (Z.leb_gt n 0)), (proj2 (Z.leb_gt len pos)) by lia. cbn [orb]. lia. Qed.

Section Specifications.
Variable M : Memory.
Variable unix : list Z -> option (list Z).

(** A file can be made with this name and size. *)
Definition fits (k : list Z) (size : Z) (A : Abstract) : Prop :=
  afiles A !! k = None /\ Z.of_nat (base.size (afiles A)) <> NumDirEntries /\ cost size <= aroom A.

Definition perf_output (middle : list output) : list output :=
  Printf "Starting file system performance test:" [] :: Stats ::
  Printf "Sequential write of %d byte file, in %d byte chunks" [Int 50000; Int 10] :: middle.

Definition perf_says (s : string) : output := Printf s [Str FileName].
Definition perf_read : output := Printf "Sequential read of %d byte file, in %d byte chunks" [Int 50000; Int 10].

Definition removed (k c : list Z) (A : Abstract) : Abstract := mkAbstract (delete k (afiles A)) (aroom A + cost (Z.of_nat (length c))).

Inductive does : command -> Abstract -> list output -> Abstract -> Prop :=
| Cp_no_input from to A : unix from = None -> does (Cp from to) A [Printf "Copy: couldn't open input file %s" [Str from]] A
| Cp_copies from to A c : let size := Z.of_nat (length c) in unix from = Some c -> fits (label to) size A ->
    does (Cp from to) A [] (mkAbstract (<[label to := c]> (afiles A)) (aroom A - cost size))
| Cp_no_room from to A c : unix from = Some c -> ~ fits (label to) (Z.of_nat (length c)) A ->
    does (Cp from to) A [Printf "Copy: couldn't create output file %s" [Str to]] A
| Show_shows fname A c : afiles A !! label fname = Some c -> does (Show_file fname) A (Putc <$> c) A
| Show_none fname A : afiles A !! label fname = None -> does (Show_file fname) A [Printf "Print: unable to open file %s" [Str fname]] A
| Rm_removes fname A c : afiles A !! label fname = Some c -> does (Rm fname) A [] (removed (label fname) c A)
| Rm_none fname A : afiles A !! label fname = None -> does (Rm fname) A [] A
| Ls_lists A names : names ≡ₚ (map_to_list (afiles A)).*1 -> does Ls A ((fun n => Printf "%s" [Str n]) <$> names) A
| Dump_shows A D : shows_map M A D -> does Dump A (disk_says D) A
| Perf_fails A : fits (label FileName) 0 A ->
    does Perf A (perf_output [perf_says "Perf test: unable to write %s"; perf_read; perf_says "Perf test: unable to read %s"; Stats]) A
| Perf_taken A c : afiles A !! label FileName = Some c ->
    does Perf A (perf_output [perf_says "Perf test: can't create %s"; perf_read; perf_says "Perf test: unable to read %s"; Stats])
      (removed (label FileName) c A)
| Perf_no_room A : afiles A !! label FileName = None -> ~ fits (label FileName) 0 A ->
    does Perf A (perf_output [perf_says "Perf test: can't create %s"; perf_read; perf_says "Perf test: unable to open file %s";
      perf_says "Perf test: unable to remove %s"]) A.

Inductive does_all : list command -> Abstract -> list output -> Abstract -> Prop :=
| Does_nil A : does_all [] A [] A
| Does_cons c cs A out A1 out' A2 : does c A out A1 -> does_all cs A1 out' A2 -> does_all (c :: cs) A (out ++ out') A2.

(** Names end, and files that are copied are not larger than a header can say. *)
Definition valid_command (c : command) : Prop :=
  match c with
  | Cp from to => readable name_max to /\ forall f, unix from = Some f -> Z.of_nat (length f) <= MaxFileSize
  | Show_file fname | Rm fname => readable name_max fname
  | Ls | Dump | Perf => True
  end.

(** The name that a command gives to a file is at least one character shorter than
    the directory allows: the zero after a longer one may be missing, and then
    printing it is undefined (Directory.v, [nine_letter_names]). *)
Definition short_name (c : command) : Prop :=
  match c with Cp _ to => (length (label to) < name_max)%nat | _ => True end.
End Specifications.

(** ** The commands do that *)

Section Refinement.
Context (M : Memory) (G : good_memory M) (unix : list Z -> option (list Z)).

Lemma Create_cases fs ss A fname size : represents M (fs, ss) A -> readable name_max fname -> 0 <= size <= MaxFileSize ->
  exists b ss', Create M fname size fs ss = Ret (b, ss') /\
    if (b : bool) then fits (label fname) size A /\ exists c, Z.of_nat (length c) = size /\
      represents M (fs, ss') (mkAbstract (<[label fname := c]> (afiles A)) (aroom A - cost size))
    else ~ fits (label fname) size A /\ represents M (fs, ss') A.
Proof using G.
  intros R Hf Hs. destruct (perform_create M G fs ss A fname size R (conj Hf Hs)) as (r & st & A' & Hp & Hsp & R').
  unfold perform in Hp. destruct (Create M fname size fs ss) as [[b ss']| |]; cbn [bind] in Hp; [|done..]. injection Hp as <- <-.
  exists b, ss'. split; [done|]. unfold fits. inversion Hsp as [? ? ? c ? H1 H2 H3 H4|? ? ? ? Hno| | | | | | |]; subst.
  - split; [done|]. by exists c.
  - split; [|done]. intros (Hn & ? & ?). destruct Hno as [[x Hx]|[?|?]]; [unfold k in Hx; congruence | done | lia].
Qed.

Lemma Remove_cases fs ss A fname : represents M (fs, ss) A -> readable name_max fname ->
  exists ss', match afiles A !! label fname with
  | Some c => Remove M fname fs ss = Ret (true, ss') /\ represents M (fs, ss') (removed (label fname) c A)
  | None => Remove M fname fs ss = Ret (false, ss') /\ represents M (fs, ss') A
  end.
Proof using G.
  intros R Hf. destruct (perform_remove M G fs ss A fname R Hf) as (r & st & A' & Hp & Hsp & R').
  unfold perform in Hp. destruct (Remove M fname fs ss) as [[b ss']| |]; cbn [bind] in Hp; [|done..]. injection Hp as <- <-.
  exists ss'. inversion Hsp as [| |? ? c ? Hk|? ? Hk| | | | |]; subst; [unfold k in *|]; by rewrite Hk.
Qed.

(** *** Copy *)

Lemma splice_append (done_ rest bs : list Z) :
  splice (done_ ++ rest) (Z.of_nat (length done_)) bs = (done_ ++ bs) ++ drop (length bs) rest.
Proof using.
  unfold splice. rewrite Nat2Z.id, take_app_length, <- app_assoc. f_equal. f_equal.
  by rewrite <- drop_drop, drop_app_length.
Qed.

Lemma Copy_loop_ok fs k h fuel rest done_ old buffer ss A : opened M fs ss A k h -> afiles A !! k = Some (done_ ++ old) ->
  length old = length rest -> (10 <= length buffer)%nat -> (length rest < fuel)%nat ->
  exists ss', Copy_loop M fuel rest buffer (mkOpen h (Z.of_nat (length done_))) ss = Ret (Some ss') /\
    represents M (fs, ss') (mkAbstract (<[k := done_ ++ rest]> (afiles A)) (aroom A)).
Proof using G.
  revert rest done_ old buffer ss A. induction fuel as [|fuel IH]; intros rest done_ old buffer ss A Ho Hk Hold Hb Hfuel; [lia|].
  cbn [Copy_loop]. change (Z.to_nat TransferSize) with 10%nat. set (bs := take 10 rest).
  assert (length bs = Nat.min 10 (length rest)) as Hbs by (unfold bs; by rewrite length_take). destruct (Z.ltb_spec 0 (Z.of_nat (length bs))).
  - destruct (opened_contents _ _ _ _ _ _ Ho) as (_ & Hk' & Hlen & Hmax). rewrite Hk in Hk'. injection Hk' as Hc. rewrite <- Hc in Hlen.
    rewrite length_app in Hlen. change MaxFileSize with 3840 in Hmax. set (buf := fill bs buffer).
    assert (length bs <= length buf)%nat as Hbuf by (unfold buf, fill; rewrite length_app; lia).
    destruct (opened_Write M G _ _ _ _ _ _ buf (Z.of_nat (length bs)) (Z.of_nat (length done_)) Ho Hk) as (ss1 & Hw & Ho1); [lia..|].
    rewrite moved_all in Hw, Ho1 by (rewrite ?length_app; lia). rewrite Hw. cbn [bind].
    assert (slice buf 0 (Z.of_nat (length bs)) = bs) as Hsl.
    { unfold slice, buf, fill. change (Z.to_nat 0) with 0%nat. by rewrite drop_0, Nat2Z.id, take_app_length. }
    rewrite Hsl in Ho1. rewrite (splice_append done_ old bs) in Ho1.
    rewrite <- Nat2Z.inj_add, <- length_app.
    destruct (IH (drop (length bs) rest) (done_ ++ bs) (drop (length bs) old) buf ss1 _ Ho1) as (ss' & -> & R).
    + cbn. apply lookup_insert_eq.
    + rewrite !length_drop. lia.
    + unfold buf, fill. rewrite length_app, length_drop. lia.
    + rewrite length_drop. lia.
    + exists ss'. split; [done|]. cbn [afiles aroom] in R. rewrite insert_insert_eq, <- app_assoc in R.
      unfold bs in R at 1. rewrite Hbs in R. replace (drop (Nat.min 10 (length rest)) rest) with (drop 10 rest) in R; [by rewrite take_drop in R|].
      destruct (Nat.min_spec 10 (length rest)) as [[? ->]|[? ->]]; [done | by rewrite !drop_ge by lia].
  - assert (rest = []) as -> by (apply length_zero_iff_nil; lia). apply length_zero_iff_nil in Hold as ->.
    exists ss. split; [done|]. rewrite insert_id by done. destruct A. by apply (opened_represents M fs ss _ k h).
Qed.

Lemma Copy_does from to fs ss A : represents M (fs, ss) A -> valid_command unix (Cp from to) ->
  exists out ss' A', Copy M unix from to fs ss = Ret (Some (out, ss')) /\ does M unix (Cp from to) A out A' /\ represents M (fs, ss') A'.
Proof using G.
  intros R [Hto Hmax]. unfold Copy. destruct (unix from) as [fp|] eqn:Hfrom; [|eexists _, ss, A; split; [done|]; split; [by constructor | done]].
  destruct (Create_cases fs ss A to (Z.of_nat (length fp)) R Hto) as ([] & ss1 & -> & Hb); [split; [lia | by apply Hmax]| |]; cbn [bind negb].
  - destruct Hb as (Hfits & c & Hc & R1). pose proof (Open_opened M G fs ss1 _ to R1 Hto) as Hopen. cbn [afiles] in Hopen.
    rewrite lookup_insert_eq in Hopen. destruct Hopen as (h & -> & Ho). cbn [bind].
    destruct (Copy_loop_ok fs _ h (S (length fp)) fp [] c (newmem M TransferSize) ss1 _ Ho) as (ss' & Hl & R').
    + cbn. apply lookup_insert_eq.
    + lia.
    + pose proof (gm_mem M G TransferSize ltac:(done)). change TransferSize with 10 in *. lia.
    + lia.
    + change (Z.of_nat (length [])) with 0 in Hl. rewrite Hl. cbn [bind fmap option_fmap option_map]. eexists _, ss', _.
      split; [done|]. split; [by apply (Cp_copies M unix from to A fp)|]. cbn [afiles aroom] in R'. by rewrite insert_insert_eq in R'.
  - destruct Hb as [Hno R1]. eexists _, ss1, A. split; [done|]. split; [by apply (Cp_no_room M unix from to A fp) | done].
Qed.

(** *** Print *)

Lemma Print_loop_ok fs k h c fuel pos buffer ss A : opened M fs ss A k h -> afiles A !! k = Some c ->
  length buffer = 10%nat -> (pos <= length c)%nat -> (length c - pos < fuel)%nat ->
  Print_loop M fuel buffer (mkOpen h (Z.of_nat pos)) ss = Ret (Some (Putc <$> drop pos c)).
Proof using G.
  intros Ho Hk. destruct (opened_contents _ _ _ _ _ _ Ho) as (_ & Hk' & Hlen & Hmax). rewrite Hk in Hk'. injection Hk' as Hc.
  rewrite <- Hc in Hlen. change MaxFileSize with 3840 in Hmax. revert pos buffer. induction fuel as [|fuel IH]; intros pos buffer Hb Hp Hfuel; [lia|]. cbn [Print_loop].
  destruct (opened_Read M G _ _ _ _ _ _ buffer TransferSize (Z.of_nat pos) Ho Hk) as (buf & -> & Hb' & Ht); change TransferSize with 10 in *; [lia..|].
  cbn [bind]. set (m := moved _ 10 _) in *. assert (m = if (pos <? length c)%nat then Z.min 10 (Z.of_nat (length c) - Z.of_nat pos) else 0) as Hm.
  { unfold m, moved. cbn [Z.leb Z.compare orb]. destruct (Z.leb_spec (Z.of_nat (length c)) (Z.of_nat pos)), (Nat.ltb_spec pos (length c)); (done || lia). }
  destruct (Nat.ltb_spec pos (length c)).
  - rewrite (proj2 (Z.ltb_lt 0 m)) by lia. unfold copy_from. rewrite !(proj2 (Z.leb_le _ _)) by lia. cbn [andb bind].
    change (Z.to_nat 0) with 0%nat. rewrite drop_0, Ht. replace (Z.of_nat pos + m) with (Z.of_nat (pos + Z.to_nat m)) by lia.
    rewrite IH by lia. cbn [bind fmap option_fmap option_map]. do 2 f_equal. unfold slice. rewrite Nat2Z.id, <- fmap_app. f_equal.
    by rewrite <- drop_drop, take_drop.
  - rewrite Hm. change (0 <? 0) with false. cbn iota. by rewrite drop_ge by lia.
Qed.

Lemma Print_does fname fs ss A : represents M (fs, ss) A -> readable name_max fname ->
  exists out, Print M fname fs ss = Ret (Some out) /\ does M unix (Show_file fname) A out A.
Proof using G.
  intros R Hf. unfold Print. pose proof (Open_opened M G fs ss A fname R Hf) as Hopen. destruct (afiles A !! label fname) as [c|] eqn:Hk.
  - destruct Hopen as (h & -> & Ho). cbn [bind]. destruct (opened_contents _ _ _ _ _ _ Ho) as (_ & Hk' & Hlen & _). rewrite Hk in Hk'. injection Hk' as Hc.
    rewrite <- Hc in Hlen. pose proof (gm_mem M G TransferSize ltac:(done)). change TransferSize with 10 in *.
    eexists. split; [|by apply Show_shows].
    apply (Print_loop_ok fs (label fname) h c _ 0 (newmem M 10) ss A Ho Hk); unfold Length, FileLength; cbn [hdr]; lia.
  - rewrite Hopen. cbn [bind]. eexists. split; [done | by apply Show_none].
Qed.

(** *** PerformanceTest *)

Lemma FileName_readable : readable name_max FileName.
Proof using. apply readable_long. vm_compute. lia. Qed.

Lemma FileWrite_loop_stops fs ss A k h turns : opened M fs ss A k h -> afiles A !! k = Some [] -> (0 < turns)%nat ->
  exists ss', FileWrite_loop M turns (mkOpen h 0) ss = Ret ([perf_says "Perf test: unable to write %s"], ss') /\ represents M (fs, ss') A.
Proof using G.
  intros Ho Hk Ht. destruct turns as [|turns]; [lia|]. cbn [FileWrite_loop].
  destruct (opened_Write M G fs ss A k h [] Contents ContentSize 0 Ho Hk) as (ss' & Hw & Ho'); [done..|].
  change (moved (Z.of_nat (length (@nil Z))) ContentSize 0) with 0 in *. rewrite Hw. cbn [bind]. change (0 <? 10) with true. cbn iota.
  exists ss'. split; [done|]. apply opened_represents in Ho'. change (splice [] 0 (slice Contents 0 0)) with (@nil Z) in Ho'.
  rewrite insert_id in Ho' by done. by destruct A.
Qed.

(** The file that has been made has no room: nothing is written. *)
Lemma FileWrite_does fs ss A : represents M (fs, ss) A ->
  let head := Printf "Sequential write of %d byte file, in %d byte chunks" [Int 50000; Int 10] in
  exists ss', (fits (label FileName) 0 A /\
      FileWrite M fs ss = Ret ([head; perf_says "Perf test: unable to write %s"], ss') /\
      represents M (fs, ss') (mkAbstract (<[label FileName := []]> (afiles A)) (aroom A - 1))) \/
    (~ fits (label FileName) 0 A /\ FileWrite M fs ss = Ret ([head; perf_says "Perf test: can't create %s"], ss') /\ represents M (fs, ss') A).
Proof using G.
  intros R head. unfold FileWrite. change FileSize with 50000. change ContentSize with 10. fold head.
  destruct (Create_cases fs ss A FileName 0 R FileName_readable ltac:(done)) as ([] & ss1 & -> & Hb); cbn [bind negb].
  - destruct Hb as (Hfits & c & Hc & R1). assert (c = []) as -> by (apply length_zero_iff_nil; lia). change (cost 0) with 1 in R1.
    pose proof (Open_opened M G fs ss1 _ FileName R1 FileName_readable) as Hopen. cbn [afiles] in Hopen.
    rewrite lookup_insert_eq in Hopen. destruct Hopen as (h & -> & Ho). cbn [bind].
    assert (0 < Z.to_nat (Z.quot 50000 10))%nat as Ht by (change (Z.quot 50000 10) with 5000; lia).
    destruct (FileWrite_loop_stops fs ss1 _ _ h _ Ho (lookup_insert_eq _ _ _) Ht) as (ss2 & -> & R2). cbn [bind].
    exists ss2. by left.
  - exists ss1. right. by destruct Hb.
Qed.

(** No file is as large as the test wants. *)
Lemma FileRead_loop_fails fs k h c turns pos buffer ss A : opened M fs ss A k h -> afiles A !! k = Some c ->
  length buffer = 10%nat -> 0 <= pos -> pos + 10 * Z.of_nat turns < 2^31 -> Z.of_nat (length c) < pos + 10 * Z.of_nat turns -> (0 < turns)%nat ->
  FileRead_loop M turns buffer (mkOpen h pos) ss = Ret [perf_says "Perf test: unable to read %s"].
Proof using G.
  intros Ho Hk. revert pos buffer. induction turns as [|turns IH]; intros pos buffer Hb Hp Hlt Hc Ht; [lia|]. cbn [FileRead_loop].
  change ContentSize with 10. destruct (opened_Read M G _ _ _ _ _ _ buffer 10 pos Ho Hk) as (buf & -> & Hb' & _); [lia..|]. cbn [bind].
  set (m := moved _ 10 pos). destruct (_ || _) eqn:E; [done|]. apply orb_false_iff in E as [E _]. apply Z.ltb_ge in E.
  assert (m = 10 /\ pos + 10 <= Z.of_nat (length c)) as [-> ?].
  { unfold m, moved in *. cbn [Z.leb Z.compare orb] in *. destruct (Z.leb_spec (Z.of_nat (length c)) pos); lia. }
  apply IH; lia.
Qed.

Lemma FileRead_does fs ss A : represents M (fs, ss) A ->
  FileRead M fs ss = Ret [perf_read; perf_says (if decide (is_Some (afiles A !! label FileName))
    then "Perf test: unable to read %s" else "Perf test: unable to open file %s")].
Proof using G.
  intros R. unfold FileRead. pose proof (Open_opened M G fs ss A FileName R FileName_readable) as Hopen.
  destruct (afiles A !! label FileName) as [c|] eqn:Hk.
  - destruct Hopen as (h & -> & Ho). cbn [bind]. destruct (opened_contents _ _ _ _ _ _ Ho) as (_ & Hk' & Hlen & Hmax). rewrite Hk in Hk'.
    injection Hk' as Hc. rewrite <- Hc in Hlen. change MaxFileSize with 3840 in Hmax. pose proof (gm_mem M G ContentSize ltac:(done)).
    change ContentSize with 10 in *. change (Z.to_nat (Z.quot FileSize 10)) with (Z.to_nat 5000).
    rewrite (FileRead_loop_fails fs _ h c _ 0 _ ss A Ho Hk) by lia. cbn [bind]. by rewrite decide_True by (by eexists).
  - rewrite Hopen. cbn [bind]. by rewrite decide_False by (by intros [? [=]]).
Qed.

Lemma PerformanceTest_does fs ss A : represents M (fs, ss) A ->
  exists out ss' A', PerformanceTest M fs ss = Ret (out, ss') /\ does M unix Perf A out A' /\ represents M (fs, ss') A'.
Proof using G.
  intros R. unfold PerformanceTest. destruct (FileWrite_does fs ss A R) as (ss1 & [(Hfits & -> & R1)|(Hno & -> & R1)]); cbn [bind].
  - rewrite (FileRead_does fs ss1 _ R1). cbn [bind afiles]. rewrite lookup_insert_eq, decide_True by (by eexists).
    destruct (Remove_cases fs ss1 _ FileName R1 FileName_readable) as (ss2 & Hr). cbn [afiles] in Hr. rewrite lookup_insert_eq in Hr.
    destruct Hr as [-> R2]. cbn [bind negb]. eexists _, ss2, A. split; [done|]. split; [by apply (Perf_fails M unix A)|].
    unfold removed in R2. cbn [afiles aroom length] in R2. change (cost (Z.of_nat 0)) with 1 in R2.
    rewrite delete_insert_id in R2 by apply Hfits. replace (aroom A - 1 + 1) with (aroom A) in R2 by lia. by destruct A.
  - rewrite (FileRead_does fs ss1 _ R1). cbn [bind]. destruct (Remove_cases fs ss1 _ FileName R1 FileName_readable) as (ss2 & Hr).
    destruct (afiles A !! label FileName) as [c|] eqn:Hk.
    + rewrite decide_True by (by eexists). destruct Hr as [-> R2]. cbn [bind negb]. eexists _, ss2, _. split; [done|].
      split; [by apply (Perf_taken M unix A c) | done].
    + rewrite decide_False by (by intros [? [=]]). destruct Hr as [-> R2]. cbn [bind negb]. eexists _, ss2, A. split; [done|].
      split; [by apply (Perf_no_room M unix A) | done].
Qed.

(** *** Lists *)

Lemma List_does fs ss A : represents M (fs, ss) A -> short_names (afiles A) ->
  exists names, List_files M fs ss = Ret names /\ names ≡ₚ (map_to_list (afiles A)).*1.
Proof using G.
  intros (bm & d & L & K & Hv & _) Hs. cbn [fst snd] in *. unfold List_files. rewrite (fetch_directory_spec M G _ _ _ _ _ K). cbn [bind].
  rewrite (List_spec M _ _ _ _ _ K) by (apply (short_view ss); by rewrite Hv). eexists. split; [done|].
  rewrite (bindings_layout M _ _ _ _ _ K), <- Hv. unfold FileSys.view. by rewrite map_to_list_fmap, <- !list_fmap_compose.
Qed.

Lemma Dump_does fs ss A : represents M (fs, ss) A -> short_names (afiles A) ->
  exists D, FileSystem_Print M fs ss = Ret (disk_says D) /\ shows_map M A D.
Proof using G.
  intros (bm & d & L & K & Hv & Hr) Hs. cbn [fst snd] in *. eexists.
  rewrite (FileSystem_Print_spec M G _ _ _ _ _ K) by (apply (short_view ss); by rewrite Hv). split; [done|].
  by apply (shows_everything M).
Qed.

Lemma does_short c A out A' : does M unix c A out A' -> short_name c -> short_names (afiles A) -> short_names (afiles A').
Proof using.
  intros D Hc Hs. destruct D; cbn [afiles removed short_name] in *; try done.
  - by apply map_Forall_insert_2.
  - by apply map_Forall_delete.
  - by apply map_Forall_delete.
Qed.

Lemma run_command_does c fs ss A : represents M (fs, ss) A -> valid_command unix c -> (c = Ls \/ c = Dump -> short_names (afiles A)) ->
  exists out ss' A', run_command M unix c fs ss = Ret (Some (out, ss')) /\ does M unix c A out A' /\ represents M (fs, ss') A'.
Proof using G.
  intros R Hv Hs. destruct c as [from to|fname|fname| | |]; cbn [run_command].
  - by apply Copy_does.
  - destruct (Print_does fname fs ss A R Hv) as (out & -> & D). cbn [bind fmap option_fmap option_map]. by exists out, ss, A.
  - destruct (Remove_cases fs ss A fname R Hv) as (ss' & Hr). destruct (afiles A !! label fname) as [c|] eqn:Hk; destruct Hr as [-> R'];
      cbn [bind]; eexists [], ss', _; (split; [done|]); split; first [exact R' | by apply Rm_removes | by apply Rm_none].
  - destruct (List_does fs ss A R) as (names & -> & Hn); [by apply Hs; left|]. cbn [bind]. eexists _, ss, A.
    split; [done|]. split; [by apply Ls_lists | done].
  - destruct (Dump_does fs ss A R) as (D & -> & Hd); [by apply Hs; right|]. cbn [bind]. eexists _, ss, A.
    split; [done|]. split; [by apply Dump_shows | done].
  - destruct (PerformanceTest_does fs ss A R) as (out & ss' & A' & -> & D & R'). cbn [bind]. by exists out, ss', A'.
Qed.

(** What a listing needs of the commands before it. *)
Definition listable (cs : list command) : Prop := Ls ∈ cs \/ Dump ∈ cs -> Forall short_name cs.

Lemma run_commands_do cs fs ss A : represents M (fs, ss) A -> Forall (valid_command unix) cs ->
  listable cs -> (Ls ∈ cs \/ Dump ∈ cs -> short_names (afiles A)) ->
  exists out ss' A', run_commands M unix cs fs ss = Ret (Some (out, ss')) /\ does_all M unix cs A out A' /\ represents M (fs, ss') A'.
Proof using G.
  intros R Hcs. revert ss A R. induction Hcs as [|c cs Hc _ IH]; intros ss A R Hl Hs.
  - exists [], ss, A. split; [done|]. split; [constructor | done].
  - destruct (run_command_does c fs ss A R Hc) as (out & ss1 & A1 & E & D & R1); [intros [-> | ->]; apply Hs; set_solver|].
    assert (Ls ∈ cs \/ Dump ∈ cs -> Ls ∈ c :: cs \/ Dump ∈ c :: cs) as Hin by set_solver.
    destruct (IH ss1 A1 R1) as (out' & ss2 & A2 & E' & D' & R2).
    + intros Hls%Hin. by apply Hl in Hls as [_ ?]%Forall_cons.
    + intros Hls%Hin. apply (does_short _ _ _ _ D); [by apply Hl in Hls as [? _]%Forall_cons | by apply Hs].
    + exists (out ++ out'), ss2, A2. cbn [run_commands]. rewrite E. cbn [bind]. rewrite E'. split; [done|]. split; [by econstructor | done].
Qed.
End Refinement.

(** ** Properties *)

(** C15: the six commands of the file system, in any order, on a disk of any content that
    has been formatted: each returns, prints and changes exactly what the map of names
    to contents says. Copying a UNIX file that is missing says so; otherwise it makes a
    file with exactly its bytes, or, when the name is taken, the directory is full or
    there is no room, changes nothing and says so. Printing gives exactly the bytes of
    the file; removing frees its sectors; listing gives every name once. The dump of
    everything shows every file with its bytes, the bytes of the two system files, and
    sectors that are all different and exactly the marked ones. The performance test,
    though, never succeeds: it makes a file of length 0, and files do not grow; and it
    removes a file called TestFile that was there before. Two limits of the code are
    hypotheses: no UNIX file that is copied is larger than the 3840 bytes a header can
    say (beyond them the source writes outside the header: see [Create_errors]), and
    when a list or a dump is asked for, no file is given a name of more than eight
    characters (the zero after nine may be missing: see [nine_letter_names]). *)
Theorem commands_implement_map M unix ss cs : good_memory M -> wf_sectors ss -> Forall (valid_command unix) cs -> listable cs ->
  exists fs ss1 out ss' A, Format M ss = Ret (fs, ss1) /\ run_commands M unix cs fs ss1 = Ret (Some (out, ss')) /\
    does_all M unix cs (mkAbstract ∅ 1019) out A /\ represents M (fs, ss') A.
Proof.
  intros G Hss Hcs Hl. destruct (Format_spec M G ss Hss) as (fs & ss1 & bm & d & Hf & K & Hr).
  destruct (run_commands_do M G unix cs fs ss1 (mkAbstract ∅ 1019)) as (out & ss' & A & E & D & R); [|exact Hcs|exact Hl| |].
  - exists bm, d, ∅. split; [exact K|]. split; [apply fmap_empty | exact Hr].
  - intros _. apply map_Forall_empty.
  - exists fs, ss1, out, ss', A. exact (conj Hf (conj E (conj D R))).
Qed.

Module Demo.
Import FileSys.Demo.

(** A UNIX file system with one file of 23 bytes. *)
Definition host (fname : list Z) : option (list Z) :=
  if bool_decide (fname = cd) then Some (Z.of_nat <$> seq 100 23) else None.

Definition commands : list command :=
  [Cp ab ab; Cp cd ab; Show_file ab; Cp cd FileName; Ls; Perf; Dump; Rm ab; Show_file ab; Ls].

(** The disk after the performance test: one file, and the entry of the removed one. *)
Definition dumped : shown_disk :=
  mkShownDisk ([0; 0; 0; 127] ++ replicate 124 0, [2])
    (table_bytes true
      ([mkEntry true [7; 7; 7] 5 ([97; 98] ++ replicate 7 0 ++ [88]) [0; 0]; mkEntry false [7; 7; 7] 7 (FileName ++ [88]) [0; 0]] ++
       replicate 8 (mkEntry false [7; 7; 7] 9 (replicate 10 88) [0; 0])), [3; 4])
    [0; 1; 2; 3; 4; 5; 6] [mkShown [97; 98] 5 [6] (Z.of_nat <$> seq 100 23)].

Definition said : list output :=
  [Printf "Copy: couldn't open input file %s" [Str ab]] ++ (Putc <$> (Z.of_nat <$> seq 100 23)) ++
  [Printf "%s" [Str [97; 98]]; Printf "%s" [Str (chars "TestFile")]] ++
  perf_output [perf_says "Perf test: can't create %s"; perf_read; perf_says "Perf test: unable to read %s"; Stats] ++
  disk_says dumped ++ [Printf "Print: unable to open file %s" [Str ab]].

Lemma commands_valid : Forall (valid_command host) commands.
Proof.
  assert (forall f c, host f = Some c -> length c = 23%nat) as H.
  { intros f c. unfold host. case_bool_decide; [by intros [= <-] | done]. }
  repeat (apply Forall_cons; split); [..| by apply Forall_nil]; cbn; first [exact I | idtac];
    try (split; [|intros c Hc; rewrite (H _ c Hc); change MaxFileSize with 3840; lia]);
    first [exact FileName_readable | right; right; left; reflexivity].
Qed.

Lemma commands_listable : listable commands.
Proof. intros _. repeat (apply Forall_cons; split); [..| by apply Forall_nil]; first [exact I | unfold short_name; vm_compute; lia]. Qed.

Lemma said_what : match (let! (fs, ss) := Format memory old_disk in run_commands memory host commands fs ss) with
  | Ret (Some (out, _)) => out = said | _ => False end.
Proof. vm_compute. reflexivity. Qed.

Lemma commands_implement_map_witness : exists fs ss ss' A, Format memory old_disk = Ret (fs, ss) /\
  run_commands memory host commands fs ss = Ret (Some (said, ss')) /\ represents memory (fs, ss') A.
Proof.
  destruct (commands_implement_map memory host old_disk commands memory_good old_disk_wf commands_valid commands_listable)
    as (fs & ss & out & ss' & A & Hf & E & _ & R). exists fs, ss, ss', A. pose proof said_what as Hs. rewrite Hf in Hs. cbn [bind] in Hs.
  rewrite E in Hs. subst out. exact (conj Hf (conj E R)).
Defined.
End Demo.
