(* ===== verification/Clock.v ===== *)
(** * Invariants of devices under the clock

    A device schedules interrupts and its handlers run at some later tick. This file
    lifts a relation between the handlers that are pending and the state of the
    devices from single handlers to OneTick and Idle of Interrupt.v: the loops end,
    no assertion fails, and the relation holds again. *)

From S2P Require Import Prelude NachosList Interrupt.

Section Invariant.
Context {H W : Type} `{!Devices H W} `{!DeviceLaws H W}.
Implicit Types (s : IState H) (w : W).

(** The handlers that are pending, in the order of their times. *)
Definition handlers s : list H := (fun e => handler e.2) <$> pending s.

(** No time-slice timer: the interrupts are those of devices. *)
Definition untimed s : Prop := Forall (fun e => type e.2 <> TimerInt) (pending s).

Variable J : list H -> W -> Prop.
Hypothesis J_perm : forall hs hs' w, hs ≡ₚ hs' -> J hs w -> J hs' w.
Hypothesis J_delayed : forall hs w, J hs w -> J hs (delayed_load w).
Hypothesis J_call : forall h a s w, inHandler s = true -> level s = IntOff -> untimed s -> 0 <= now s ->
  J (h :: handlers s) w ->
  exists s' w', call h a (s, w) = Ret (s', w') /\ J (handlers s') w' /\ untimed s' /\ yieldOnReturn s' = yieldOnReturn s.

(** The state between two events: interrupts on, no handler running. *)
Record settled s w : Prop := {
  se_level : level s = IntOn;
  se_handler : inHandler s = false;
  se_yield : yieldOnReturn s = false;
  se_status : status s = SystemMode;
  se_now : 0 <= now s;
  se_wf : wf_pending s;
  se_untimed : untimed s;
  se_J : J (handlers s) w
}.

(** The state in which handlers run. *)
Record polling s w : Prop := {
  po_level : level s = IntOff;
  po_handler : inHandler s = false;
  po_yield : yieldOnReturn s = false;
  po_now : 0 <= now s;
  po_wf : wf_pending s;
  po_untimed : untimed s;
  po_J : J (handlers s) w
}.

Lemma fire_polling s w e q : polling s w -> pending s = e :: q ->
  exists s' w', fire (snd e) (set_pending q s, w) = Ret (s', w') /\ polling s' w' /\ steady s s' /\
    due s' = due (set_pending q s).
Proof using J_delayed J_call DeviceLaws0.
  intros [Hl Hi Hy Hn Hwf Hu Hj] Hp. unfold untimed, handlers in Hu, Hj. rewrite Hp in Hu, Hj. inversion_clear Hu as [|? ? _ Hu'].
  assert (wf_pending (set_pending q s)) as Hwq.
  { destruct Hwf as [Hs Hk]. rewrite Hp in Hs, Hk. split; cbn; [by inversion_clear Hs | by inversion_clear Hk]. }
  destruct (J_call (handler e.2) (arg e.2) (setStatus SystemMode (set_inHandler true (set_pending q s))) (delayed_load w))
    as (s1 & w1 & Hc & Hj1 & Hu1 & Hy1); [done | done | exact Hu' | exact Hn | by apply J_delayed |].
  assert (fire (snd e) (set_pending q s, w) = Ret (set_inHandler false (setStatus (status s) s1), w1)) as Hf.
  { unfold fire. rewrite Hc. done. }
  eexists _, _. split; [exact Hf|].
  pose proof (fire_schedules _ (set_pending q s) _ _ _ Hl Hi Hf) as Hsch.
  destruct (fire_due_head s w e _ q _ w1 Hl Hi Hwq eq_refl Hf) as (Hst & Hwf' & Hd).
  split; [|by split]. pose proof Hst as (_ & _ & _ & _ & Hl' & Hi' & _).
  cbn in Hy1. split; [congruence | congruence | cbn; congruence | by rewrite (steady_now _ _ Hst) | done | done | done].
Qed.

Lemma CheckIfDue_untimed s w e q : polling s w -> pending s = e :: q -> fst e <= now s ->
  CheckIfDue false (s, w) = (let! sw := fire (snd e) (set_pending q s, w) in Ret (true, sw)).
Proof using Type.
  intros [Hl _ _ _ _ Hu _] Hp He. destruct e as [t p]. cbn in He |- *. rewrite bool_decide_true by done.
  unfold untimed in Hu. rewrite Hp in Hu |- *. inversion_clear Hu as [|? ? Ht _]. cbn in Ht |- *.
  rewrite (proj2 (Z.leb_le t (now s)) He). cbn. by rewrite (bool_decide_false (type p = TimerInt)), andb_false_r.
Qed.

Lemma handlers_perm s s' : pending s ≡ₚ pending s' -> handlers s ≡ₚ handlers s'.
Proof using Type. unfold handlers. by intros ->. Qed.

Lemma polling_pending q s w : polling s w -> q ≡ₚ pending s -> wf_pending (set_pending q s) -> polling (set_pending q s) w.
Proof using J_perm.
  intros [? ? ? ? ? Hu Hj] Hq Hwf. split; try done; [by unfold untimed; cbn; rewrite Hq|].
  apply (J_perm (handlers s)); [by apply handlers_perm | done].
Qed.

Lemma drain_polling d fuel s w : due s = d -> (length d < fuel)%nat -> polling s w ->
  exists s' w', drain fuel (s, w) = Ret (s', w') /\ polling s' w' /\ steady s s'.
Proof using J_perm J_delayed J_call DeviceLaws0.
  revert fuel s w. induction d as [|e d IH]; intros fuel s w Hd Hf P; (destruct fuel as [|fuel]; [cbn in Hf; lia|]); cbn [drain].
  - destruct (CheckIfDue_not_due s w (po_level s w P) (po_wf s w P) Hd) as (q & -> & Hq & Hwq). cbn [bind].
    eexists _, _. split; [done|]. split; [by apply polling_pending | apply steady_set_pending].
  - destruct (due_cons s e d (po_wf s w P) Hd) as (q & Hp & Hle & Hdq & _).
    rewrite (CheckIfDue_untimed s w e q P Hp Hle).
    destruct (fire_polling s w e q P Hp) as (s1 & w1 & -> & P1 & Hs1 & Hd1). cbn [bind].
    destruct (IH fuel s1 w1) as (s2 & w2 & -> & P2 & Hs2); [congruence | cbn in Hf; lia | done |].
    exists s2, w2. split; [done|]. split; [done | by eapply steady_trans].
Qed.

Lemma drain_all_polling s w : polling s w -> exists s' w', drain_all (s, w) = Ret (s', w') /\ polling s' w' /\ steady s s'.
Proof using J_perm J_delayed J_call DeviceLaws0. intros P. unfold drain_all. apply (drain_polling (due s)); [done | cbn; lia | done]. Qed.

Lemma settled_polling s w st : settled s w -> polling (setStatus st (ChangeLevel IntOn IntOff s)) w.
Proof using Type. by intros [? ? ? ? ? [? ?] ? ?]. Qed.

Lemma polling_settled s w : polling s w -> settled (setStatus SystemMode (ChangeLevel IntOff IntOn s)) w.
Proof using Type. by intros [? ? ? ? [? ?] ? ?]. Qed.

Lemma OneTick_settled s w : settled s w -> exists s' w', OneTick (s, w) = Ret (s', w') /\ settled s' w' /\ now s < now s'.
Proof using J_perm J_delayed J_call DeviceLaws0.
  intros S. pose proof (advance_time_now s) as Hadv. destruct (advance_time_rest s) as (Hp & Hi & Hst).
  set (s1 := ChangeLevel IntOn IntOff (advance_time s)). assert (polling s1 w) as P1.
  { destruct S as [? ? ? ? ? [? ?] ? ?]. split; unfold untimed, handlers, s1; cbn; rewrite ?Hp, ?Hi; try done.
    - unfold advance_time. by case_decide.
    - change (0 <= now (advance_time s)). lia.
    - split; cbn; by rewrite Hp. }
  unfold OneTick, tick. cbn [fst]. fold s1. destruct (drain_all_polling s1 w P1) as (s2 & w2 & -> & P2 & Hs2). cbn [bind].
  pose proof (po_yield s2 w2 P2) as Hy. cbn [ChangeLevel set_level yieldOnReturn] in *. rewrite Hy.
  eexists _, _. split; [reflexivity|].
  assert (status s2 = SystemMode) as Hm.
  { destruct Hs2 as (_ & _ & _ & _ & _ & _ & ->). cbn. rewrite Hst. apply S. }
  split; [|change (now s < now s2); rewrite (steady_now _ _ Hs2); change (now s1) with (now (advance_time s)); lia].
  apply polling_settled in P2. destruct P2 as [? ? ? ? ? [? ?] ? ?]. by split.
Qed.

(** Idle, with something pending. *)
Lemma Idle_settled s w : settled s w -> handlers s <> [] ->
  exists s' w', Idle (ChangeLevel IntOn IntOff s, w) = Ret (true, (s', w')) /\
    settled (ChangeLevel IntOff IntOn s') w' /\ now s <= now s'.
Proof using J_perm J_delayed J_call DeviceLaws0.
  intros S Hne. destruct (pending s) as [|[t p] q] eqn:Hp; [unfold handlers in Hne; by rewrite Hp in Hne|].
  set (s1 := setStatus IdleMode (ChangeLevel IntOn IntOff s)). pose proof (settled_polling s w IdleMode S) as P1. fold s1 in P1.
  set (s2 := if t <=? now s then s1 else idle_until t s1).
  assert (polling s2 w /\ pending s2 = (t, p) :: q /\ now s <= now s2) as (P2 & Hp2 & Hn2).
  { unfold s2, s1 in *. destruct (Z.leb_spec t (now s)); [split; [exact P1|]; split; [exact Hp|]; change (now s <= now s); lia|].
    split; [|split; [exact Hp | change (now s <= t); lia]]. destruct P1 as [? ? ? ? [? ?] ? ?]. split; try done.
    change (0 <= t). pose proof (se_now s w S). lia. }
  assert (type p <> TimerInt) as Hty by (pose proof (se_untimed s w S) as Hu; unfold untimed in Hu; rewrite Hp in Hu; by inversion_clear Hu).
  assert (CheckIfDue true (s1, w) = let! sw := fire p (set_pending q s2, w) in Ret (true, sw)) as Hc.
  { unfold CheckIfDue. change (level s1) with IntOff. change (pending s1) with (pending s). rewrite Hp. change (now s1) with (now s).
    rewrite bool_decide_true by done. cbn [ASSERT bind Seq.SortedRemove andb negb type pending set_pending].
    rewrite (bool_decide_false (type p = TimerInt)), andb_false_r by done. unfold s2. cbn [andb].
    destruct (t <=? now s); reflexivity. }
  unfold Idle. fold s1. rewrite Hc. destruct (fire_polling s2 w (t, p) q P2 Hp2) as (s3 & w3 & Hf & P3 & Hs3 & _). cbn [snd] in Hf.
  rewrite Hf. cbn [bind]. destruct (drain_all_polling s3 w3 P3) as (s4 & w4 & -> & P4 & Hs4). cbn [bind].
  eexists _, _. split; [reflexivity|].
  split; [|change (now s <= now s4); rewrite (steady_now _ _ Hs4), (steady_now _ _ Hs3); lia].
  apply polling_settled in P4. destruct P4 as [? ? ? ? ? [? ?] ? ?]. by split.
Qed.
End Invariant.

Arguments handlers {H} s.

(** ** What a handler that schedules does *)

Section Pending.
Context {H : Type}.
Implicit Types (s : IState H) (h : H).

Lemma handlers_insert s h x n ty :
  handlers (set_pending (Seq.SortedInsert (mkPending h x n ty) n (pending s)) s) ≡ₚ h :: handlers s.
Proof. unfold handlers. cbn. by rewrite Seq.SortedInsert_Permutation. Qed.

Lemma untimed_insert s h x n ty : ty <> TimerInt -> untimed s ->
  untimed (set_pending (Seq.SortedInsert (mkPending h x n ty) n (pending s)) s).
Proof. intros Ht Hu. unfold untimed in *. cbn. rewrite Seq.SortedInsert_Permutation. by constructor. Qed.

Lemma schedules_refl s : schedules s s.
Proof. split; [by exists [] | done]. Qed.

Lemma schedules_later s h x n ty : 0 < n ->
  schedules s (set_pending (Seq.SortedInsert (mkPending h x (now s + n) ty) (now s + n) (pending s)) s).
Proof.
  intros Hn. split; [|done]. exists [mkPending h x (now s + n) ty]. split; [|done].
  constructor; [|done]. cbn [when]. lia.
Qed.

(** The counters of the devices are not the clock's. *)
Lemma schedules_stats s s' st : schedules s s' ->
  totalTicks st = totalTicks (stats s') -> idleTicks st = idleTicks (stats s') -> systemTicks st = systemTicks (stats s') ->
  userTicks st = userTicks (stats s') -> schedules s (set_stats st s').
Proof. intros (Hn & ? & ? & ? & ? & ? & ? & ?) E1 E2 E3 E4. split; [done|]. cbn. by rewrite E1, E2, E3, E4. Qed.
End Pending.

(** ** Steps of the kernel between two ticks *)

Section Settled.
Context {H W : Type} (J K : list H -> W -> Prop).
Implicit Types (s : IState H) (w : W).

Lemma settled_step s w w' : settled J s w -> (J (handlers s) w -> K (handlers s) w') -> settled K s w'.
Proof. intros [? ? ? ? ? ? ? Hj] Hk. split; auto. Qed.

Lemma settled_schedule s w w' h x n ty : settled J s w -> ty <> TimerInt ->
  (forall hs, J (handlers s) w -> hs ≡ₚ h :: handlers s -> K hs w') ->
  settled K (set_pending (Seq.SortedInsert (mkPending h x (now s + n) ty) (now s + n) (pending s)) s) w'.
Proof.
  intros [? ? ? ? ? [Hs Hk] Hu Hj] Ht HK. split; try done.
  - split; cbn; [by apply Seq.SortedInsert_sorted | rewrite Seq.SortedInsert_Permutation; by constructor].
  - by apply untimed_insert.
  - apply HK; [done | apply handlers_insert].
Qed.
End Settled.
