(* ===== verification/Timer.v ===== *)
(** * The timer and time slices (machine/timer.h, machine/timer.cc, and the timer of
      threads/system.cc)

    The timer is a device whose interrupt schedules itself again, after 100 ticks or
    a random number of them; its handler in threads/system.cc asks for a context
    switch. The theorems: what the clock of Interrupt.v makes of it, namely that a
    thread that computes is asked to yield once every 100 ticks, and that a timer
    alone does not keep an idle machine running. *)

From S2P Require Import Prelude NachosList Interrupt.

(** The one handler that is scheduled. *)
Inductive timer_handler := TimerHandler.

Section Timer.
Variable rand : nat -> Z.  (* the numbers that rand() returns *)
Context (rand_nonneg : forall n, 0 <= rand n).
Notation State := (IState timer_handler).

(** The members of class Timer that matter, with the number of calls of rand(). *)
Record Timer := mkTimer { randomize : bool; draws : nat }.

Definition TimeOfNextInterrupt (p : Timer) : Z * Timer :=
  if randomize p then (1 + Z.rem (rand (draws p)) (TimerTicks * 2), mkTimer true (S (draws p)))
  else (TimerTicks, p).

(** The constructor. *)
Definition new_Timer (doRandom : bool) (n : nat) (s : State) : C (Timer * State) :=
  let '(fromNow, p) := TimeOfNextInterrupt (mkTimer doRandom n) in
  let! s := Schedule TimerHandler 0 fromNow TimerInt s in Ret (p, s).

Definition TimerExpired (handler : State -> C State) '((p, s) : Timer * State) : C (Timer * State) :=
  let '(fromNow, p) := TimeOfNextInterrupt p in
  let! s := Schedule TimerHandler 0 fromNow TimerInt s in
  let! s := handler s in Ret (p, s).

(** threads/system.cc *)
Definition TimerInterruptHandler (s : State) : C State :=
  if negb (bool_decide (status s = IdleMode)) then YieldOnReturn s else Ret s.

(** A machine with a timer: how often Thread::Yield was called. *)
Record Slices := mkSlices { timer : Timer; yields : Z }.

#[export] Instance timer_devices : Devices timer_handler Slices := {
  call h _ sw := let '(s, w) := sw in
    let! (p, s) := TimerExpired TimerInterruptHandler (timer w, s) in Ret (s, mkSlices p (yields w));
  delayed_load w := w;
  yield sw := let '(s, w) := sw in Ret (s, mkSlices (timer w) (yields w + 1))
}.

(** Initialize of threads/system.cc makes the timer with interrupts off, and turns
    them on at its end (line 241): Enable sets the level, and then makes a tick of the
    clock. Nothing looks at the level in between; here it is set at once, and the tick
    of Enable is the first of [OneTicks]. *)
Definition boot (doRandom : bool) : C (State * Slices) :=
  let! (p, s) := new_Timer doRandom 0 (set_level IntOn (new_Interrupt new_Statistics)) in Ret (s, mkSlices p 0).

Fixpoint OneTicks (n : nat) (sw : State * Slices) : C (State * Slices) :=
  match n with O => Ret sw | S n => let! sw := OneTick sw in OneTicks n sw end.

(** ** The invariant *)

(** A thread computes in system mode; the timer is set to go off at [t]. *)
Record computing (t : Z) (s : State) : Prop := {
  co_level : level s = IntOn;
  co_handler : inHandler s = false;
  co_yield : yieldOnReturn s = false;
  co_status : status s = SystemMode;
  co_pending : pending s = [(t, mkPending TimerHandler 0 t TimerInt)]
}.

Lemma TimeOfNextInterrupt_bounds p : 0 < (TimeOfNextInterrupt p).1 <= (if randomize p then 200 else 100) /\
  randomize (TimeOfNextInterrupt p).2 = randomize p.
Proof using rand_nonneg.
  unfold TimeOfNextInterrupt, TimerTicks. destruct (randomize p) eqn:E; cbn [fst snd randomize]; [|by rewrite E].
  pose proof (Z.rem_bound_pos (rand (draws p)) (100 * 2) (rand_nonneg _) ltac:(lia)). split; [lia | done].
Qed.

Notation alarm t := (mkPending TimerHandler 0 t TimerInt).

(** Interrupts off, the alarm is looked at. *)
Lemma CheckIfDue_early t s w : level s = IntOff -> pending s = [(t, alarm t)] -> now s < t -> CheckIfDue false (s, w) = Ret (false, (s, w)).
Proof using Type.
  intros Hl Hp Ht. unfold CheckIfDue. rewrite Hl, Hp. cbn. rewrite (proj2 (Z.leb_gt t (now s))) by lia. cbn.
  do 3 f_equal. destruct s. cbn in *. by subst.
Qed.

Lemma due_early t s : pending s = [(t, alarm t)] -> now s < t -> due s = [].
Proof using Type. intros Hp Ht. unfold due. rewrite Hp. by rewrite filter_cons_False by (cbn; lia). Qed.

Lemma drain_early t s w : level s = IntOff -> pending s = [(t, alarm t)] -> now s < t -> drain_all (s, w) = Ret (s, w).
Proof using Type. intros Hl Hp Ht. unfold drain_all. cbn [fst]. rewrite (due_early t s Hp Ht). cbn [length drain]. by rewrite (CheckIfDue_early t). Qed.

(** It goes off: the next one is set, and a context switch is asked for. *)
Definition rung (d : Z) (s : State) : State :=
  set_yield true (set_pending [(now s + d, alarm (now s + d))] (set_inHandler false s)).

Lemma drain_late t s w : level s = IntOff -> inHandler s = false -> status s = SystemMode -> pending s = [(t, alarm t)] -> t <= now s ->
  drain_all (s, w) = Ret (rung (TimeOfNextInterrupt (timer w)).1 s, mkSlices (TimeOfNextInterrupt (timer w)).2 (yields w)).
Proof using rand_nonneg.
  intros Hl Hi Hm Hp Ht. unfold drain_all. cbn [fst].
  assert (length (due s) = 1%nat) as -> by (unfold due; rewrite Hp; by rewrite filter_cons_True by (cbn; lia)).
  pose proof (TimeOfNextInterrupt_bounds (timer w)) as [Hb _]. cbn [drain].
  assert (CheckIfDue false (s, w) = Ret (true, (rung (TimeOfNextInterrupt (timer w)).1 s, mkSlices (TimeOfNextInterrupt (timer w)).2 (yields w)))) as ->.
  { unfold CheckIfDue. rewrite Hl, Hp. cbn. rewrite (proj2 (Z.leb_le t (now s))) by lia. rewrite Hm. cbn. unfold TimerExpired.
    destruct (TimeOfNextInterrupt (timer w)) as [d p']. cbn [fst snd] in *. unfold Schedule. rewrite (proj2 (Z.ltb_lt 0 d)) by lia. cbn.
    do 3 f_equal. destruct s. cbn in *. by subst. }
  cbn [bind]. rewrite (CheckIfDue_early (now s + (TimeOfNextInterrupt (timer w)).1)); [done | done | done |].
  change (now (rung _ s)) with (now s). lia.
Qed.

Lemma advance_computing t s : computing t s -> let s1 := ChangeLevel IntOn IntOff (advance_time s) in
  level s1 = IntOff /\ inHandler s1 = false /\ yieldOnReturn s1 = false /\ status s1 = SystemMode /\ pending s1 = [(t, alarm t)] /\
  now s1 = now s + SystemTick.
Proof using Type. intros [Hl Hi Hy Hm Hp]. unfold advance_time. by rewrite decide_True. Qed.

(** One tick: before the time nothing happens, then the thread yields. *)
Lemma OneTick_before t s w : computing t s -> now s + SystemTick < t ->
  exists s', OneTick (s, w) = Ret (s', w) /\ computing t s' /\ now s' = now s + SystemTick.
Proof using Type.
  intros Hc Ht. pose proof (advance_computing t s Hc) as H. cbn zeta in H. unfold OneTick, tick. cbn [fst].
  set (s1 := ChangeLevel _ _ _) in *. destruct H as (Hl & Hi & Hy & Hm & Hp & Hn).
  rewrite (drain_early t) by (done || lia). cbn [bind]. cbn [yieldOnReturn ChangeLevel set_level]. rewrite Hy.
  eexists. split; [reflexivity|]. by split.
Qed.

Lemma OneTick_at t s w : computing t s -> t <= now s + SystemTick ->
  exists s', OneTick (s, w) = Ret (s', mkSlices (TimeOfNextInterrupt (timer w)).2 (yields w + 1)) /\
    computing (now s' + (TimeOfNextInterrupt (timer w)).1) s' /\ now s' = now s + SystemTick.
Proof using rand_nonneg.
  intros Hc Ht. pose proof (advance_computing t s Hc) as H. cbn zeta in H. unfold OneTick, tick. cbn [fst].
  set (s1 := ChangeLevel _ _ _) in *. destruct H as (Hl & Hi & Hy & Hm & Hp & Hn).
  rewrite (drain_late t) by (done || lia). cbn [bind]. cbn. rewrite (co_status _ _ Hc).
  eexists. split; [reflexivity|]. split; [by split | done].
Qed.

(** The period, and what it makes of the number of slices. *)
Definition period (random : bool) : Z := if random then 200 else 100.

Record slicing (random : bool) (n : nat) (s : State) (w : Slices) : Prop := {
  sl_time : now s = 10 * Z.of_nat n;
  sl_mode : randomize (timer w) = random;
  sl_fixed : random = false -> computing (100 * (yields w + 1)) s;
  sl_some : exists t, computing t s /\ now s < t <= now s + period random /\ t <= (yields w + 1) * (period random + 10);
  sl_yields : 0 <= yields w
}.

Lemma computing_unique t t' s : computing t s -> computing t' s -> t = t'.
Proof using Type. intros [] []. congruence. Qed.

Lemma slicing_tick random n s w : slicing random n s w -> exists s' w', OneTick (s, w) = Ret (s', w') /\ slicing random (S n) s' w'.
Proof using rand_nonneg.
  intros [Ht Hm Hf (t & Hc & Hb & Hy) H0]. pose proof (TimeOfNextInterrupt_bounds (timer w)) as [Hd Hr]. rewrite Hm in Hd, Hr.
  destruct (Z.le_gt_cases t (now s + SystemTick)) as [Hle|Hgt]; unfold SystemTick in *.
  - destruct (OneTick_at t s w Hc Hle) as (s' & Hx & Hc' & Hn). eexists _, _. split; [exact Hx|].
    split; [rewrite Hn; unfold SystemTick; lia | done | | | cbn; lia].
    + intros ->. cbn [yields]. rewrite (computing_unique _ _ _ Hc (Hf eq_refl)) in *.
      replace (100 * (yields w + 1 + 1)) with (now s' + (TimeOfNextInterrupt (timer w)).1); [done|].
      unfold TimeOfNextInterrupt. rewrite Hm. cbn. rewrite Hn. unfold SystemTick, TimerTicks. lia.
    + eexists. split; [exact Hc'|]. cbn [yields]. unfold period in *. rewrite Hn. unfold SystemTick. destruct random; lia.
  - destruct (OneTick_before t s w Hc Hgt) as (s' & Hx & Hc' & Hn). eexists _, _. split; [exact Hx|].
    assert (forall u, computing u s -> computing u s') as Hcs by (intros u Hu; by rewrite (computing_unique _ _ _ Hu Hc)).
    split; [rewrite Hn; unfold SystemTick; lia | done | auto | | done]. exists t. split; [done|]. rewrite Hn. unfold SystemTick. lia.
Qed.

Lemma slicing_ticks random k n s w : slicing random n s w -> exists s' w', OneTicks k (s, w) = Ret (s', w') /\ slicing random (n + k) s' w'.
Proof using rand_nonneg.
  revert n s w. induction k as [|k IH]; intros n s w Hs; [exists s, w; by rewrite Nat.add_0_r|].
  destruct (slicing_tick random n s w Hs) as (s1 & w1 & Hx & Hs1). destruct (IH (S n) s1 w1 Hs1) as (s2 & w2 & Hr & Hs2).
  exists s2, w2. cbn [OneTicks]. rewrite Hx. split; [done|]. by rewrite Nat.add_succ_r.
Qed.

Lemma boot_slicing random : exists s w, boot random = Ret (s, w) /\ slicing random 0 s w.
Proof using rand_nonneg.
  unfold boot, new_Timer. pose proof (TimeOfNextInterrupt_bounds (mkTimer random 0)) as [Hd Hr]. cbn [randomize] in *.
  destruct (TimeOfNextInterrupt (mkTimer random 0)) as [d p] eqn:E. cbn [fst snd] in *. unfold Schedule.
  rewrite (proj2 (Z.ltb_lt 0 d)) by lia. cbn [ASSERT bind]. eexists _, _. split; [reflexivity|].
  split; [done | done | | | done].
  - intros ->. injection E as <- <-. by split.
  - exists (0 + d). split; [by split|]. unfold period. change (now (set_pending _ _)) with 0. cbn [yields]. destruct random; lia.
Qed.

(** C37: the timer cuts time into slices. A thread that computes for [n] ticks of the
    kernel (10 units of time each) after the start of the timer is made to yield
    exactly [n / 10] times, once every TimerTicks; with random slices at least once
    in 210 units, whatever rand() returns. No assertion of the timer, or of the
    interrupt hardware, fails. *)
Theorem time_slices random n : exists s w,
  (let! sw := boot random in OneTicks n sw) = Ret (s, w) /\ now s = 10 * Z.of_nat n /\
  (random = false -> yields w = Z.of_nat n / 10) /\ 10 * Z.of_nat n < 210 * (yields w + 1).
Proof using rand_nonneg.
  destruct (boot_slicing random) as (s0 & w0 & Hb & S0). destruct (slicing_ticks random n 0 s0 w0 S0) as (s & w & Hr & [Ht Hm Hf (t & Hc & Hlt & Hle) H0]).
  exists s, w. rewrite Hb. cbn [bind]. split; [done|]. split; [done|]. split.
  - intros Er. rewrite Er in *. rewrite (computing_unique _ _ _ Hc (Hf eq_refl)) in *. unfold period in *.
    apply Z.div_unique with (Z.of_nat n - 10 * yields w); lia.
  - unfold period in *. destruct random; lia.
Qed.
End Timer.

(** A timer alone does not keep the machine from halting. *)
Lemma Idle_timer_halts rand t s w : computing t s -> exists s',
  Idle (H:=timer_handler) (Devices0:=timer_devices rand) (ChangeLevel IntOn IntOff s, w) = Ret (false, (s', w)).
Proof.
  intros [Hl Hi Hy Hm Hp]. unfold Idle, CheckIfDue. cbn [level setStatus ChangeLevel set_level bool_decide ASSERT bind].
  rewrite bool_decide_true by done. cbn. rewrite Hp. cbn. destruct (t <=? _); cbn; eexists; reflexivity.
Qed.

Module Demo.

(** With every random number 7, eight units after each other: every tick yields. *)
Lemma time_slices_witness : exists s w,
  (let! sw := boot (fun _ => 7) true in OneTicks (fun _ => 7) 5 sw) = Ret (s, w) /\ yields w = 5.
Proof.
  destruct (time_slices (fun _ => 7) ltac:(intros; lia) true 5) as (s & w & Hr & _). exists s, w. split; [exact Hr|].
  vm_compute in Hr. injection Hr as <- <-. reflexivity.
Defined.
End Demo.
