(* ===== verification/Console.v ===== *)
(** * The console device (machine/console.h, machine/console.cc)

    A keyboard and a display over UNIX files. The device polls the keyboard with an
    interrupt that schedules itself again and holds one character; a character that
    is put on the display is followed by an interrupt. Every owner has the same two
    handlers, V on a semaphore for each; the state of the owner's threads is a
    parameter. At the end the owner of userprog/progtest.cc, ConsoleTest, which
    echoes what is typed. SynchConsole.v has the other one. *)

From S2P Require Import Prelude NachosList Interrupt Clock.

(** UNIX's end of file, as a [char]. *)
Definition EOF : Z := -1.

(** The two handlers that are scheduled. *)
Inductive console_handler := ConsoleReadPoll | ConsoleWriteDone.

(** The members of class Console; the files are what has been typed and not read
    yet, whether that is all there will ever be, and what has been displayed. *)
Record Console := mkConsole {
  keyboard : list Z;
  closed : bool;
  display : list Z;
  putBusy : bool;
  incoming : Z
}.

Definition set_keyboard l D := mkConsole l (closed D) (display D) (putBusy D) (incoming D).
Definition set_closed b D := mkConsole (keyboard D) b (display D) (putBusy D) (incoming D).
Definition set_display l D := mkConsole (keyboard D) (closed D) l (putBusy D) (incoming D).
Definition set_putBusy b D := mkConsole (keyboard D) (closed D) (display D) b (incoming D).
Definition set_incoming c D := mkConsole (keyboard D) (closed D) (display D) (putBusy D) c.

Definition count_chars (read written : Z) (st : Statistics) : Statistics :=
  mkStats (totalTicks st) (idleTicks st) (systemTicks st) (userTicks st) (numDiskReads st)
    (numDiskWrites st) (numConsoleCharsRead st + read) (numConsoleCharsWritten st + written)
    (numPageFaults st) (numPacketsSent st) (numPacketsRecvd st).

(** UNIX's select: there is something to read, or the end of the file. *)
Definition PollFile D : bool := negb (bool_decide (keyboard D = [])) || closed D.

(** [Read(readFileNo, &c, 1)]. *)
Definition Read D : C (Z * Console) :=
  match keyboard D with
  | c :: l => Ret (c, set_keyboard l D)
  | [] => Abort  (* ASSERT(retVal == nBytes) *)
  end.

Section Device.
Notation State := (IState console_handler).

(** The constructor; the files are open. *)
Definition new_Console (typed : list Z) (at_end : bool) (s : State) : C (Console * State) :=
  let! s := Schedule ConsoleReadPoll 0 ConsoleTime ConsoleReadInt s in
  Ret (mkConsole typed at_end [] false EOF, s).

Definition CheckCharAvail {St : Type} (readHandler : St -> C St) '((D, s, st) : Console * State * St)
  : C (Console * State * St) :=
  let! s := Schedule ConsoleReadPoll 0 ConsoleTime ConsoleReadInt s in
  if negb (incoming D =? EOF) || negb (PollFile D) then Ret (D, s, st)
  else
    let! (c, D) := Read D in
    let D := set_incoming c D in
    let s := set_stats (count_chars 1 0 (stats s)) s in
    let! st := readHandler st in Ret (D, s, st).

Definition WriteDone {St : Type} (writeHandler : St -> C St) '((D, s, st) : Console * State * St)
  : C (Console * State * St) :=
  let D := set_putBusy false D in
  let s := set_stats (count_chars 0 1 (stats s)) s in
  let! st := writeHandler st in Ret (D, s, st).

Definition GetChar D : Z * Console := (incoming D, set_incoming EOF D).

Definition PutChar (ch : Z) '((D, s) : Console * State) : C (Console * State) :=
  let! _ := ASSERT (negb (putBusy D)) in
  let D := set_putBusy true (set_display (display D ++ [ch]) D) in
  let! s := Schedule ConsoleWriteDone 0 ConsoleTime ConsoleWriteInt s in
  Ret (D, s).

(** A keyboard that has come to its end stops Nachos at the next poll. *)
Lemma end_of_input_aborts {St} (h : St -> C St) D s st : keyboard D = [] -> closed D = true -> incoming D = EOF ->
  CheckCharAvail h (D, s, st) = Abort.
Proof. intros Hk Hc Hi. unfold CheckCharAvail, PollFile, Read. rewrite Hk, Hc, Hi. reflexivity. Qed.
End Device.

(** ** A console with its two semaphores *)

Record Terminal (X : Type) := mkTerminal {
  console : Console;
  readAvail : Z;
  writeDone : Z;
  threads : X
}.
Arguments mkTerminal {X} _ _ _ _.
Arguments console {X} _.
Arguments readAvail {X} _.
Arguments writeDone {X} _.
Arguments threads {X} _.

Section Terminal.
Context {X : Type}.
Implicit Types (T : Terminal X) (s : IState console_handler).

Definition set_console D T := mkTerminal D (readAvail T) (writeDone T) (threads T).
Definition set_readAvail v T := mkTerminal (console T) v (writeDone T) (threads T).
Definition set_writeDone v T := mkTerminal (console T) (readAvail T) v (threads T).
Definition set_threads (x : X) T := mkTerminal (console T) (readAvail T) (writeDone T) x.

(** The handlers of the owner: [readAvail->V()], [writeDone->V()]. *)
Definition on_read T : C (Terminal X) := Ret (set_readAvail (readAvail T + 1) T).
Definition on_write T : C (Terminal X) := Ret (set_writeDone (writeDone T + 1) T).

#[export] Instance console_devices : Devices console_handler (Terminal X) := {
  call h _ sT :=
    let '(s, T) := sT in
    let! (D, s, T) :=
      match h with
      | ConsoleReadPoll => CheckCharAvail on_read (console T, s, T)
      | ConsoleWriteDone => WriteDone on_write (console T, s, T)
      end in
    Ret (s, set_console D T);
  delayed_load T := T;
  yield sT := Ret sT
}.

Lemma Schedule_console (h : console_handler) x ty s :
  Schedule h x ConsoleTime ty s = Ret (set_pending (Seq.SortedInsert (mkPending h x (now s + ConsoleTime) ty) (now s + ConsoleTime) (pending s)) s).
Proof. reflexivity. Qed.

#[export] Instance console_laws : DeviceLaws console_handler (Terminal X).
Proof.
  intros h x s T s' T' Hi Hl Hc. cbn [call console_devices] in Hc. apply bind_Ret in Hc as ([[D s1] T1] & Hc & [= -> _]). destruct h.
  - unfold CheckCharAvail in Hc. rewrite Schedule_console in Hc. cbn [bind] in Hc. set (s0 := set_pending _ s) in Hc.
    assert (schedules s s0) as Hs0 by (by apply schedules_later).
    destruct (_ || _); [by injection Hc as _ <- _|]. apply bind_Ret in Hc as ([c D1] & _ & Hc).
    injection Hc as _ <- _. by apply schedules_stats.
  - injection Hc as _ <- _. apply schedules_stats; [apply schedules_refl | done..].
Qed.

(** ** The invariant of the device

    [taken] characters are announced by the semaphore and being fetched, [putting]
    characters are being displayed; [stream] is what has been typed and not been
    fetched, [out] what has been displayed. *)

Definition buffered (D : Console) : list Z := if incoming D =? EOF then [] else [incoming D].

Record console_inv (taken putting : Z) (stream out : list Z) (x : X) (hs : list console_handler) T : Prop := {
  ci_handlers : hs ≡ₚ ConsoleReadPoll :: (if putBusy (console T) then [ConsoleWriteDone] else []);
  ci_read : readAvail T + taken = Z.of_nat (length (buffered (console T)));
  ci_avail : 0 <= readAvail T;
  ci_write : (if putBusy (console T) then 1 else 0) + writeDone T = putting;
  ci_done : 0 <= writeDone T;
  ci_stream : buffered (console T) ++ keyboard (console T) = stream;
  ci_plain : Forall (fun c => c <> EOF) (keyboard (console T));
  ci_open : closed (console T) = false;
  ci_out : display (console T) = out;
  ci_threads : threads T = x
}.

Section Calls.
Variables (taken putting : Z) (stream out : list Z) (x : X).
Notation J := (console_inv taken putting stream out x).

Lemma console_perm hs hs' T : hs ≡ₚ hs' -> J hs T -> J hs' T.
Proof using Type. intros Hp [Hh ? ? ? ? ? ? ? ? ?]. split; try done. by rewrite <- Hp. Qed.

Lemma ReadPoll_inv s T : untimed s -> J (ConsoleReadPoll :: handlers s) T ->
  exists D s' T', CheckCharAvail on_read (console T, s, T) = Ret (D, s', T') /\
    J (handlers s') (set_console D T') /\ untimed s' /\ yieldOnReturn s' = yieldOnReturn s.
Proof using Type.
  intros Hu K. unfold CheckCharAvail. rewrite Schedule_console. cbn [bind]. set (s1 := set_pending _ s).
  assert (J (handlers s1) T) as K1 by (eapply console_perm; [|exact K]; symmetry; apply handlers_insert).
  assert (untimed s1) as Hu1 by (by apply untimed_insert).
  assert (set_console (console T) T = T) as ET by (by destruct T).
  destruct (negb (incoming (console T) =? EOF) || negb (PollFile (console T))) eqn:E.
  { do 3 eexists. split; [reflexivity|]. by rewrite ET. }
  apply orb_false_iff in E as [Ei Ep]. apply negb_false_iff in Ei, Ep. destruct K1 as [Hh Hr Ha Hw Hd Hs Hp Ho Hout Hx].
  unfold PollFile in Ep. rewrite Ho, orb_false_r in Ep. unfold Read, buffered in *. rewrite Ei in Hr, Hs. cbn in Hr, Hs.
  destruct (keyboard (console T)) as [|c l] eqn:El; [done|]. cbn [bind on_read]. apply Forall_cons in Hp as [Hc Hp].
  do 3 eexists. split; [reflexivity|]. split; [|done].
  assert (forall D, buffered (set_incoming c D) = [c]) as Eb by (intros D; unfold buffered; cbn [incoming set_incoming]; by rewrite (proj2 (Z.eqb_neq c EOF) Hc)).
  split; cbn [console readAvail writeDone threads set_console set_readAvail]; rewrite ?Eb; try done; cbn [length]; try lia.
Qed.

Lemma WriteDone_inv s T : untimed s -> J (ConsoleWriteDone :: handlers s) T ->
  exists D s' T', WriteDone on_write (console T, s, T) = Ret (D, s', T') /\
    J (handlers s') (set_console D T') /\ untimed s' /\ yieldOnReturn s' = yieldOnReturn s.
Proof using Type.
  intros Hu [Hh Hr Ha Hw Hd Hs Hp Ho Hout Hx]. do 3 eexists. split; [reflexivity|]. split; [|done].
  destruct (putBusy (console T)) eqn:Eb.
  - rewrite Permutation_swap in Hh. apply Permutation_cons_inv in Hh. split; cbn; try done; lia.
  - assert (ConsoleWriteDone ∈ [ConsoleReadPoll]) as Hin by (rewrite <- Hh; left). by apply list_elem_of_singleton in Hin.
Qed.

Lemma console_call h a s T : inHandler s = true -> level s = IntOff -> untimed s -> 0 <= now s ->
  J (h :: handlers s) T ->
  exists s' T', call h a (s, T) = Ret (s', T') /\ J (handlers s') T' /\ untimed s' /\ yieldOnReturn s' = yieldOnReturn s.
Proof using Type.
  intros _ _ Hu _ K. cbn [call console_devices]. destruct h.
  - destruct (ReadPoll_inv s T Hu K) as (D & s' & T' & -> & ?). cbn [bind]. by eexists _, _.
  - destruct (WriteDone_inv s T Hu K) as (D & s' & T' & -> & ?). cbn [bind]. by eexists _, _.
Qed.

Lemma console_delayed hs T : J hs T -> J hs (delayed_load T).
Proof using Type. done. Qed.

(** The clock moves characters through the device, and nothing else. *)
Definition console_ok : IState console_handler -> Terminal X -> Prop := settled J.

Lemma console_tick s T : console_ok s T -> exists s' T', OneTick (s, T) = Ret (s', T') /\ console_ok s' T'.
Proof using Type.
  intros S. destruct (OneTick_settled J console_perm console_delayed console_call s T S) as (s' & T' & Ht & S' & _). eauto.
Qed.

Lemma console_idle s T : console_ok s T -> exists s' T',
  Idle (Interrupt.ChangeLevel IntOn IntOff s, T) = Ret (true, (s', T')) /\ console_ok (Interrupt.ChangeLevel IntOff IntOn s') T'.
Proof using Type.
  intros S. assert (handlers s <> []) as Hne.
  { intros E. pose proof (ci_handlers _ _ _ _ _ _ _ (se_J _ _ _ S)) as Hh. rewrite E in Hh. by apply Permutation_nil_cons in Hh. }
  destruct (Idle_settled J console_perm console_delayed console_call s T S Hne) as (s' & T' & Ht & S' & _). eauto.
Qed.
End Calls.

(** ** What the threads do to the device *)

Section Steps.
Variables (taken putting : Z) (stream out : list Z) (x : X).
Implicit Types (ch : Z).

Lemma console_typed c s T : c <> EOF -> console_ok taken putting stream out x s T ->
  console_ok taken putting (stream ++ [c]) out x s (set_console (set_keyboard (keyboard (console T) ++ [c]) (console T)) T).
Proof using Type.
  intros Hc S. apply (settled_step _ _ _ _ _ S). intros [Hh Hr Ha Hw Hd Hs Hp Ho Hout Hx].
  split; try done; cbn; [by rewrite <- Hs, <- app_assoc | apply Forall_app; by repeat constructor].
Qed.

Lemma console_threads s T (x' : X) : console_ok taken putting stream out x s T ->
  console_ok taken putting stream out x' s (set_threads x' T).
Proof using Type. intros S. apply (settled_step _ _ _ _ _ S). by intros [? ? ? ? ? ? ? ? ? ?]. Qed.

(** At most one character is in the device. *)
Lemma console_read_bound s T : console_ok taken putting stream out x s T -> readAvail T + taken <= 1.
Proof using Type.
  intros S. rewrite (ci_read _ _ _ _ _ _ _ (se_J _ _ _ S)). unfold buffered. destruct (_ =? _); cbn; lia.
Qed.

Lemma console_P_read s T : console_ok taken putting stream out x s T -> 0 < readAvail T -> taken = 0 ->
  console_ok 1 putting stream out x s (set_readAvail (readAvail T - 1) T).
Proof using Type.
  intros S Hv. pose proof (console_read_bound s T S) as Hb. intros ->.
  apply (settled_step _ _ _ _ _ S). intros [Hh Hr Ha Hw Hd Hs Hp Ho Hout Hx]. split; try done; cbn; lia.
Qed.

Lemma console_GetChar s T : console_ok taken putting stream out x s T -> taken = 1 ->
  exists c rest, GetChar (console T) = (c, set_incoming EOF (console T)) /\ stream = c :: rest /\
    console_ok 0 putting rest out x s (set_console (set_incoming EOF (console T)) T).
Proof using Type.
  intros S ->. pose proof (se_J _ _ _ S) as K. pose proof (ci_read _ _ _ _ _ _ _ K) as Hr. pose proof (ci_avail _ _ _ _ _ _ _ K) as Ha.
  pose proof (ci_stream _ _ _ _ _ _ _ K) as Hs. unfold buffered in *. destruct (incoming (console T) =? EOF); [cbn in Hr; lia|].
  exists (incoming (console T)), (keyboard (console T)). split; [done|]. split; [done|].
  apply (settled_step _ _ _ _ _ S). intros [Hh _ _ Hw Hd _ Hp Ho Hout Hx]. split; try done; cbn in *; lia.
Qed.

Lemma console_PutChar s T ch : console_ok taken putting stream out x s T -> putting = 0 ->
  exists D s', PutChar ch (console T, s) = Ret (D, s') /\ console_ok taken 1 stream (out ++ [ch]) x s' (set_console D T).
Proof using Type.
  intros S ->. pose proof (se_J _ _ _ S) as K. pose proof (ci_write _ _ _ _ _ _ _ K) as Hw. pose proof (ci_done _ _ _ _ _ _ _ K) as Hd.
  unfold PutChar. destruct (putBusy (console T)) eqn:Eb; [lia|]. cbn [negb ASSERT bind]. rewrite Schedule_console. cbn [bind].
  do 2 eexists. split; [reflexivity|]. apply (settled_schedule _ _ _ _ _ _ _ _ _ S); [done|].
  intros hs [Hh Hr Ha _ _ Hs Hp Ho Hout Hx] Hp'. rewrite Eb in Hh. split; try done; cbn; [|lia|by rewrite Hout].
  rewrite Hp', Hh. apply Permutation_swap.
Qed.

Lemma console_P_write s T : console_ok taken putting stream out x s T -> 0 < writeDone T -> putting <= 1 ->
  putting = 1 /\ console_ok taken 0 stream out x s (set_writeDone (writeDone T - 1) T).
Proof using Type.
  intros S Hv Hb. pose proof (ci_write _ _ _ _ _ _ _ (se_J _ _ _ S)) as Hw.
  split; [destruct (putBusy _); lia|]. apply (settled_step _ _ _ _ _ S). intros [Hh Hr Ha _ Hd Hs Hp Ho Hout Hx].
  split; try done; cbn; destruct (putBusy (console T)); lia.
Qed.

(** A thread that waits for the display: the interrupt is pending. *)
Lemma console_waits_write s T : console_ok taken putting stream out x s T -> writeDone T <= 0 -> putting = 1 ->
  ConsoleWriteDone ∈ handlers s.
Proof using Type.
  intros S Hv ->. pose proof (se_J _ _ _ S) as [Hh _ _ Hw _ _ _ _ _ _]. destruct (putBusy _); [|lia]. rewrite Hh. right. left.
Qed.

(** A thread that waits for the keyboard: no character has come, and the device
    polls. *)
Lemma console_waits_read s T : console_ok taken putting stream out x s T -> readAvail T <= 0 -> taken = 0 ->
  buffered (console T) = [] /\ ConsoleReadPoll ∈ handlers s.
Proof using Type.
  intros S Hv ->. pose proof (se_J _ _ _ S) as [Hh Hr _ _ _ _ _ _ _ _]. split; [|rewrite Hh; left].
  apply length_zero_iff_nil. lia.
Qed.
End Steps.

(** The owner's constructor: the console, then two semaphores at 0. *)
Definition boot (x : X) : C (IState console_handler * Terminal X) :=
  let! (D, s) := new_Console [] false (set_level IntOn (new_Interrupt new_Statistics)) in
  Ret (s, mkTerminal D 0 0 x).

Lemma boot_console x : exists s T, boot x = Ret (s, T) /\ threads T = x /\ console_ok 0 0 [] [] x s T.
Proof.
  unfold boot, new_Console. rewrite Schedule_console. cbn [bind]. do 2 eexists. split; [reflexivity|]. split; [done|].
  split; try done; [split; cbn; repeat constructor | by repeat constructor].
Qed.

(** ** The world around the threads *)

Inductive outside := Tick | AllSleep | Typed (c : Z) | HangUp.

Definition around (e : outside) '((s, T) : IState console_handler * Terminal X) : C (IState console_handler * Terminal X) :=
  match e with
  | Tick => OneTick (s, T)
  | AllSleep =>
      let! (b, (s, T)) := Idle (Interrupt.ChangeLevel (level s) IntOff s, T) in
      if (b : bool) then Ret (Interrupt.ChangeLevel IntOff IntOn s, T) else Abort
  | Typed c => Ret (s, set_console (set_keyboard (keyboard (console T) ++ [c]) (console T)) T)
  | HangUp => Ret (s, set_console (set_closed true (console T)) T)
  end.

(** What is typed: any character but 255, which is EOF in a [char]. *)
Definition plain (e : outside) : Prop := match e with Typed c => is_i8 c /\ c <> EOF | HangUp => False | _ => True end.

Definition typed_by (e : outside) : list Z := match e with Typed c => [c] | _ => [] end.

Lemma around_ok e s T taken putting stream out x : plain e -> console_ok taken putting stream out x s T ->
  exists s' T', around e (s, T) = Ret (s', T') /\ console_ok taken putting (stream ++ typed_by e) out x s' T'.
Proof.
  intros He S. destruct e as [| |c|]; cbn [around typed_by]; rewrite ?app_nil_r; [by apply console_tick | | |done].
  - rewrite (se_level _ _ _ S). destruct (console_idle _ _ _ _ _ s T S) as (s' & T' & -> & S'). cbn [bind]. eauto.
  - do 2 eexists. split; [done|]. by apply console_typed; [apply He|].
Qed.
End Terminal.

(** ** ConsoleTest (userprog/progtest.cc)

    The loop of one thread: the statement it is about to run. *)

Inductive test_place :=
| Test_P                    (* readAvail->P() *)
| Test_GetChar
| Test_PutChar (ch : Z)
| Test_P_write (ch : Z)      (* writeDone->P() *)
| Test_Returned.

Notation TestWorld := (IState console_handler * Terminal test_place)%type.

Definition letter_q : Z := 113.

Definition ConsoleTest '((s, T) : TestWorld) : C TestWorld :=
  match threads T with
  | Test_P => Ret (s, set_threads Test_GetChar (set_readAvail (readAvail T - 1) T))
  | Test_GetChar =>
      let '(ch, D) := GetChar (console T) in Ret (s, set_threads (Test_PutChar ch) (set_console D T))
  | Test_PutChar ch =>
      let! (D, s) := PutChar ch (console T, s) in Ret (s, set_threads (Test_P_write ch) (set_console D T))
  | Test_P_write ch =>
      Ret (s, set_threads (if ch =? letter_q then Test_Returned else Test_P) (set_writeDone (writeDone T - 1) T))
  | Test_Returned => Undef
  end.

Definition test_can_run (T : Terminal test_place) : bool :=
  match threads T with
  | Test_P => 0 <? readAvail T
  | Test_P_write _ => 0 <? writeDone T
  | Test_Returned => false
  | _ => true
  end.

(** [None]: the next statement of ConsoleTest. *)
Definition test_exec (e : option outside) (sT : TestWorld) : C TestWorld :=
  match e with Some e => around e sT | None => ConsoleTest sT end.

Definition test_enabled (e : option outside) '((s, T) : TestWorld) : bool :=
  match e with
  | Some AllSleep => negb (test_can_run T)
  | Some _ => true
  | None => test_can_run T
  end.

Fixpoint test_run (es : list (option outside)) (sT : TestWorld) : C TestWorld :=
  match es with [] => Ret sT | e :: es => let! sT := test_exec e sT in test_run es sT end.

Fixpoint test_happens (es : list (option outside)) (sT : TestWorld) : bool :=
  match es with
  | [] => true
  | e :: es => test_enabled e sT && match test_exec e sT with Ret sT => test_happens es sT | _ => true end
  end.

Definition test_typed (es : list (option outside)) : list Z := concat (from_option typed_by [] <$> es).

(** The character between the keyboard and the display, and the last one echoed. *)
Definition test_hand (p : test_place) : list Z := match p with Test_PutChar ch => [ch] | _ => [] end.
Definition test_last (p : test_place) : list Z :=
  match p with Test_P_write ch => [ch] | Test_Returned => [letter_q] | _ => [] end.

(** [seen]: the characters before the last one, echoed and acknowledged. *)
Definition echoing (typed : list Z) (s : IState console_handler) (T : Terminal test_place) : Prop :=
  exists seen stream, letter_q ∉ seen /\ typed = seen ++ test_last (threads T) ++ test_hand (threads T) ++ stream /\
    console_ok (match threads T with Test_GetChar => 1 | _ => 0 end) (match threads T with Test_P_write _ => 1 | _ => 0 end)
      stream (seen ++ test_last (threads T)) (threads T) s T.

Lemma echo_statement typed s T : echoing typed s T -> test_can_run T = true ->
  exists s' T', ConsoleTest (s, T) = Ret (s', T') /\ echoing typed s' T'.
Proof.
  intros (seen & stream & Hq & -> & S) Hr. unfold ConsoleTest, test_can_run in *. destruct (threads T) as [| |ch|ch|]; cbn [test_last test_hand app] in *; rewrite ?app_nil_r in *.
  - apply Z.ltb_lt in Hr. do 2 eexists. split; [reflexivity|]. exists seen, stream. split; [done|]. split; [done|].
    cbn [threads set_threads test_last]. rewrite app_nil_r. eapply console_threads. by eapply console_P_read.
  - destruct (console_GetChar _ _ _ _ _ s T S eq_refl) as (c & rest & Hg & -> & S'). rewrite Hg.
    do 2 eexists. split; [reflexivity|]. exists seen, rest. split; [done|]. split; [done|].
    cbn [threads set_threads test_last]. rewrite app_nil_r. by eapply console_threads.
  - destruct (console_PutChar _ _ _ _ _ s T ch S eq_refl) as (D & s' & -> & S'). cbn [bind].
    do 2 eexists. split; [reflexivity|]. exists seen, stream. split; [done|]. split; [done|].
    cbn [threads set_threads test_last]. by eapply console_threads.
  - apply Z.ltb_lt in Hr. destruct (console_P_write _ _ _ _ _ s T S Hr) as [_ S']; [lia|]. do 2 eexists. split; [reflexivity|].
    destruct (Z.eqb_spec ch letter_q) as [->|Hne].
    + exists seen, stream. split; [done|]. split; [done|]. cbn [threads set_threads test_last]. by eapply console_threads.
    + exists (seen ++ [ch]), stream. split; [by rewrite elem_of_app, list_elem_of_singleton; intros [?|?]|].
      cbn [threads set_threads test_last test_hand app]. rewrite app_nil_r, <- app_assoc. split; [done|]. by eapply console_threads.
  - done.
Qed.

Lemma echo_around typed s T e : plain e -> echoing typed s T ->
  exists s' T', around e (s, T) = Ret (s', T') /\ echoing (typed ++ typed_by e) s' T' .
Proof.
  intros He (seen & stream & Hq & -> & S). destruct (around_ok e s T _ _ _ _ _ He S) as (s' & T' & Hr & S').
  exists s', T'. split; [done|]. assert (threads T' = threads T) as E by apply (ci_threads _ _ _ _ _ _ _ (se_J _ _ _ S')).
  exists seen, (stream ++ typed_by e). rewrite E, <- !app_assoc. done.
Qed.

Lemma echo_run es typed s T : echoing typed s T -> test_happens es (s, T) = true -> Forall (fun e => from_option plain True e) es ->
  exists s' T', test_run es (s, T) = Ret (s', T') /\ echoing (typed ++ test_typed es) s' T'.
Proof.
  revert typed s T. induction es as [|e es IH]; intros typed s T E Hh Hp.
  { exists s, T. split; [done|]. cbn. by rewrite app_nil_r. }
  cbn [test_happens] in Hh. apply andb_true_iff in Hh as [He Hh]. apply Forall_cons in Hp as [Hpe Hp].
  assert (exists s' T', test_exec e (s, T) = Ret (s', T') /\ echoing (typed ++ from_option typed_by [] e) s' T') as (s1 & T1 & Hx & E1).
  { destruct e as [e|]; cbn [test_exec from_option] in *; [by apply echo_around|]. rewrite app_nil_r. by apply echo_statement. }
  rewrite Hx in Hh. destruct (IH _ s1 T1 E1 Hh Hp) as (s2 & T2 & Hr & E2). exists s2, T2. cbn [test_run]. rewrite Hx. cbn [bind].
  split; [done|]. unfold test_typed in *. cbn. by rewrite app_assoc.
Qed.

(** ConsoleTest echoes. However its statements interleave with the clock, with
    the interrupts of the device and with typing, the device is never asked to
    display while it is busy; what has been typed is, in order, what has been
    displayed, the character between keyboard and display, the one that the device
    holds and those to be read; the test has displayed no q but the last character,
    and returns after one. When it waits, an interrupt that wakes it is pending, or
    nothing has been typed that it has not displayed. *)
Theorem ConsoleTest_echoes es sT0 : boot Test_P = Ret sT0 -> test_happens es sT0 = true ->
  Forall (fun e => from_option plain True e) es ->
  exists s T, test_run es sT0 = Ret (s, T) /\
    test_typed es = display (console T) ++ test_hand (threads T) ++ buffered (console T) ++ keyboard (console T) /\
    (exists seen, letter_q ∉ seen /\ display (console T) = seen ++ test_last (threads T)) /\
    (test_can_run T = false -> threads T = Test_Returned \/ ConsoleWriteDone ∈ handlers s \/
      threads T = Test_P /\ buffered (console T) = [] /\ ConsoleReadPoll ∈ handlers s).
Proof.
  intros Hb Hh Hp. destruct (boot_console Test_P) as (s0 & T0 & Hb' & Ht & S0). rewrite Hb in Hb'. injection Hb' as ->.
  destruct (echo_run es [] s0 T0) as (s & T & Hr & seen & stream & Hq & Htyped & S); [|done..|].
  { exists [], []. rewrite Ht. cbn. split; [by intros ?%elem_of_nil | done]. }
  exists s, T. split; [done|]. pose proof (se_J _ _ _ S) as K. cbn [app] in Htyped. rewrite Htyped, (ci_out _ _ _ _ _ _ _ K).
  split; [by rewrite <- (ci_stream _ _ _ _ _ _ _ K), <- app_assoc|]. split; [by exists seen|].
  unfold test_can_run. intros Hn. destruct (threads T) as [| |ch|ch|] eqn:Et; try done; [right; right | right; left | by left]; apply Z.ltb_ge in Hn.
  - split; [done|]. by eapply console_waits_read.
  - by eapply console_waits_write.
Qed.

(** ** Examples *)

Module Demo.

Definition hi_q : list (option outside) :=
  [Some (Typed 104); Some AllSleep; None; None; None; Some (Typed 113); Some AllSleep; None; None; None; None; Some AllSleep; None].

Lemma ConsoleTest_echoes_witness : exists sT0 s T,
  boot Test_P = Ret sT0 /\ test_run hi_q sT0 = Ret (s, T) /\ display (console T) = [104; 113] /\ threads T = Test_Returned.
Proof.
  destruct (boot Test_P) as [sT0| |] eqn:E; [|vm_compute in E; discriminate E..].
  destruct (ConsoleTest_echoes hi_q sT0 E) as (s & T & Hr & _ & _).
  - vm_compute in E. injection E as <-. vm_compute. reflexivity.
  - unfold hi_q. repeat constructor; intros [=].
  - exists sT0, s, T. split; [done|]. split; [exact Hr|]. vm_compute in E. injection E as <-. vm_compute in Hr. injection Hr as <- <-. by split.
Defined.

(** The character 255 is EOF for CheckCharAvail: it does not keep the next one
    out, and both are announced. The test reads the second one, then EOF. *)
Lemma typed_255_overtaken :
  (let! sT := boot Test_P in
   let! (_, T) := test_run [Some (Typed (-1)); Some (Typed 65); Some AllSleep; Some AllSleep; None; None; None; Some AllSleep; None; None; None; None] sT in
   Ret (display (console T))) = Ret [65; -1].
Proof. vm_compute. reflexivity. Qed.
End Demo.
