(* ===== verification/SynchConsole.v ===== *)
(** * The synchronous console (userprog/synchconsole.h, userprog/synchconsole.cc)

    Threads write and read lines: a lock for each direction admits one call to the
    console of Console.v, and a semaphore makes the caller wait for every character.
    The statements of the calls interleave with each other, with the clock and with
    typing. The theorem is the contract: lines are displayed whole, one after the
    other, and what is typed is cut into lines that are read in order. *)

From S2P Require Import Prelude NachosList Interrupt Clock Console.

(** The statement that a call is about to run; Loop is the test of the while loop,
    for a writer with PutChar. *)
Inductive write_place := Write_Acquire | Write_Loop | Write_P | Write_Release.
Inductive read_place := Read_Acquire | Read_Loop | Read_P | Read_GetChar | Read_Release.

(** The calls in progress with their variables; [at_] characters of the array [line]
    lie before the pointer. *)
Inductive call :=
| Writing (p : write_place) (line : list Z) (at_ size : Z)
| Reading (p : read_place) (line : list Z) (num_read size c : Z).

(** The locks of class SynchConsole; the console and the semaphores are those of
    the terminal. *)
Record SynchConsole := mkSC {
  inputMutex : option positive;
  outputMutex : option positive;
  calls : gmap positive call
}.

Definition new_SynchConsole : SynchConsole := mkSC None None ∅.

Notation World := (IState console_handler * Terminal SynchConsole)%type.

Definition set_input l x := mkSC l (outputMutex x) (calls x).
Definition set_output l x := mkSC (inputMutex x) l (calls x).
Definition set_calls cs x := mkSC (inputMutex x) (outputMutex x) cs.

(** What becomes of a call: it goes on, or it returns, with the array. *)
Inductive next := Goes (c : call) | Wrote (line : list Z) (at_ : Z) | Got (line : list Z) (num_read size : Z).

Definition newline : Z := 10.

Definition WriteLine t (p : write_place) (line : list Z) (at_ size : Z) '((s, T) : World) : C (next * World) :=
  match p with
  | Write_Acquire => Ret (Goes (Writing Write_Loop line at_ size), (s, set_threads (set_output (Some t) (threads T)) T))
  | Write_Loop =>
      if size =? 0 then Ret (Goes (Writing Write_Release line at_ (i32 (size - 1))), (s, T))
      else
        let! ch := aref line at_ in
        let! (D, s) := PutChar ch (console T, s) in
        Ret (Goes (Writing Write_P line (at_ + 1) (i32 (size - 1))), (s, set_console D T))
  | Write_P => Ret (Goes (Writing Write_Loop line at_ size), (s, set_writeDone (writeDone T - 1) T))
  | Write_Release => Ret (Wrote line at_, (s, set_threads (set_output None (threads T)) T))
  end.

Definition ReadLine t (p : read_place) (line : list Z) (num_read size c : Z) '((s, T) : World) : C (next * World) :=
  match p with
  | Read_Acquire => Ret (Goes (Reading Read_Loop line num_read size c), (s, set_threads (set_input (Some t) (threads T)) T))
  | Read_Loop =>
      Ret (Goes (Reading (if negb (c =? newline) && (num_read <? size) then Read_P else Read_Release) line num_read size c), (s, T))
  | Read_P => Ret (Goes (Reading Read_GetChar line num_read size c), (s, set_readAvail (readAvail T - 1) T))
  | Read_GetChar =>
      let '(c, D) := GetChar (console T) in
      let! line := aset line num_read c in
      Ret (Goes (Reading Read_Loop line (num_read + 1) size c), (s, set_console D T))
  | Read_Release => Ret (Got line num_read size, (s, set_threads (set_input None (threads T)) T))
  end.

Definition statement t (c : call) (sT : World) : C (next * World) :=
  match c with
  | Writing p line i size => WriteLine t p line i size sT
  | Reading p line n size c => ReadLine t p line n size c sT
  end.

Definition can_run t (c : call) (T : Terminal SynchConsole) : bool :=
  match c with
  | Writing Write_Acquire _ _ _ => bool_decide (outputMutex (threads T) = None) || bool_decide (outputMutex (threads T) = Some t)
  | Writing Write_P _ _ _ => 0 <? writeDone T
  | Reading Read_Acquire _ _ _ _ => bool_decide (inputMutex (threads T) = None) || bool_decide (inputMutex (threads T) = Some t)
  | Reading Read_P _ _ _ _ => 0 <? readAvail T
  | _ => true
  end.

(** ** Executions *)

Inductive event :=
| Enter_WriteLine (t : positive) (line : list Z) (size : Z)
| Enter_ReadLine (t : positive) (line : list Z) (size : Z)
| Step (t : positive)
| World_does (e : outside).

Definition enter t (c : call) (T : Terminal SynchConsole) : Terminal SynchConsole :=
  set_threads (set_calls (<[t := c]> (calls (threads T))) (threads T)) T.

Definition proceed t (n : next) (T : Terminal SynchConsole) : Terminal SynchConsole :=
  match n with
  | Goes c => enter t c T
  | _ => set_threads (set_calls (delete t (calls (threads T))) (threads T)) T
  end.

Definition exec (e : event) '((s, T) : World) : C World :=
  match e with
  | Enter_WriteLine t line size => Ret (s, enter t (Writing Write_Acquire line 0 size) T)
  | Enter_ReadLine t line size => Ret (s, enter t (Reading Read_Acquire line 0 size 0) T)
  | Step t =>
      match calls (threads T) !! t with
      | Some c => let! (n, (s, T)) := statement t c (s, T) in Ret (s, proceed t n T)
      | None => Undef
      end
  | World_does e => around e (s, T)
  end.

Definition enabled (e : event) '((s, T) : World) : bool :=
  match e with
  | Enter_WriteLine t _ _ | Enter_ReadLine t _ _ => bool_decide (calls (threads T) !! t = None)
  | Step t => match calls (threads T) !! t with Some c => can_run t c T | None => false end
  | World_does AllSleep => bool_decide (map_Forall (fun t c => can_run t c T = false) (calls (threads T)))
  | World_does _ => true
  end.

Fixpoint run (es : list event) (sT : World) : C World :=
  match es with [] => Ret sT | e :: es => let! sT := exec e sT in run es sT end.

Fixpoint happens (es : list event) (sT : World) : bool :=
  match es with
  | [] => true
  | e :: es => enabled e sT && match exec e sT with Ret sT => happens es sT | _ => true end
  end.

(** The callers' arrays are long enough, and typing is plain. *)
Definition valid (e : event) : Prop :=
  match e with
  | Enter_WriteLine _ line size => 0 <= size <= Z.of_nat (length line) /\ size < 2^31
  | Enter_ReadLine _ line size => size <= Z.of_nat (length line)
  | Step _ => True
  | World_does e => plain e
  end.

(** ** What is observed *)

Inductive mark :=
| Asked (t : positive) (l : list Z)             (* WriteLine of these characters *)
| Written (t : positive) (l : list Z)           (* it returns *)
| Line (t : positive) (size : Z) (l : list Z)   (* ReadLine returns them *)
| Key (c : Z).                                  (* typed *)

Definition marks_of (e : event) '((s, T) : World) : list mark :=
  match e with
  | Enter_WriteLine t line size => [Asked t (take (Z.to_nat size) line)]
  | Enter_ReadLine _ _ _ => []
  | Step t =>
      match calls (threads T) !! t with
      | Some c =>
          match statement t c (s, T) with
          | Ret (Wrote line i, _) => [Written t (take (Z.to_nat i) line)]
          | Ret (Got line n size, _) => [Line t size (take (Z.to_nat n) line)]
          | _ => []
          end
      | None => []
      end
  | World_does e => Key <$> typed_by e
  end.

Fixpoint trace (es : list event) (sT : World) : list mark :=
  match es with
  | [] => []
  | e :: es => marks_of e sT ++ match exec e sT with Ret sT => trace es sT | _ => [] end
  end.

(** The lines, in order. *)
Definition written (tr : list mark) : list (list Z) := omap (fun k => match k with Written _ l => Some l | _ => None end) tr.
Definition lines (tr : list mark) : list (list Z) := omap (fun k => match k with Line _ _ l => Some l | _ => None end) tr.
Definition keys (tr : list mark) : list Z := omap (fun k => match k with Key c => Some c | _ => None end) tr.

(** What a thread asked to be written, and what was. *)
Definition asked_by t (tr : list mark) : list (list Z) :=
  omap (fun k => match k with Asked u l => if decide (u = t) then Some l else None | _ => None end) tr.
Definition written_by t (tr : list mark) : list (list Z) :=
  omap (fun k => match k with Written u l => if decide (u = t) then Some l else None | _ => None end) tr.

(** What the call in progress has to write, what it has written, what it has read. *)
Definition to_write (c : call) : list (list Z) :=
  match c with
  | Writing Write_Release line i _ => [take (Z.to_nat i) line]
  | Writing _ line i size => [take (Z.to_nat (i + size)) line]
  | Reading _ _ _ _ _ => []
  end.

Definition displayed (c : call) : list Z := match c with Writing _ line i _ => take (Z.to_nat i) line | _ => [] end.
Definition collected (c : call) : list Z := match c with Reading _ line n _ _ => take (Z.to_nat n) line | _ => [] end.

(** A line that ReadLine may return: it ends at the newline or is full. *)
Definition is_line (size : Z) (l : list Z) : Prop :=
  (exists l', l = l' ++ [newline] /\ newline ∉ l' /\ Z.of_nat (length l) <= size) \/
  newline ∉ l /\ Z.of_nat (length l) = Z.max 0 size.
(** ** The invariant *)

Definition inside_out (c : call) : bool := match c with Writing Write_Acquire _ _ _ => false | Writing _ _ _ _ => true | _ => false end.
Definition inside_in (c : call) : bool := match c with Reading Read_Acquire _ _ _ _ => false | Reading _ _ _ _ _ => true | _ => false end.

Notation Calls := (gmap positive call).

(** The lock is held by the thread whose call is inside. *)
Record mutex (inside : call -> bool) (l : option positive) (cs : Calls) : Prop := {
  mu_holder : forall t, l = Some t -> exists c, cs !! t = Some c /\ inside c = true;
  mu_inside : forall t c, cs !! t = Some c -> inside c = true -> l = Some t
}.

Definition put_count (c : call) : Z := match c with Writing Write_P _ _ _ => 1 | _ => 0 end.
Definition get_count (c : call) : Z := match c with Reading Read_GetChar _ _ _ _ => 1 | _ => 0 end.

(** A property of the holder's call. *)
Definition holder {A} (d : A) (f : call -> A) (l : option positive) (cs : Calls) : A :=
  match l with Some t => from_option f d (cs !! t) | None => d end.

Definition reads (size : Z) (l : list Z) (c : Z) : Prop :=
  (c = newline /\ exists l', l = l' ++ [newline] /\ newline ∉ l') \/ (c <> newline /\ newline ∉ l).

Definition call_ok (c : call) : Prop :=
  match c with
  | Writing p line i size =>
      0 <= i <= Z.of_nat (length line) /\ (p = Write_Acquire -> i = 0) /\
      (p <> Write_Release -> 0 <= size < 2^31 /\ i + size <= Z.of_nat (length line))
  | Reading p line n size c =>
      0 <= n <= Z.max 0 size /\ size <= Z.of_nat (length line) /\ (p = Read_Acquire -> n = 0) /\
      reads size (take (Z.to_nat n) line) c /\
      match p with
      | Read_P | Read_GetChar => c <> newline /\ n < size
      | Read_Release => c = newline \/ size <= n
      | _ => True
      end
  end.

Record out_inv (tr : list mark) (x : SynchConsole) (out : list Z) (putting : Z) : Prop := {
  oi_mutex : mutex inside_out (outputMutex x) (calls x);
  oi_out : out = concat (written tr) ++ holder [] displayed (outputMutex x) (calls x);
  oi_putting : putting = holder 0 put_count (outputMutex x) (calls x);
  oi_asked : forall t, asked_by t tr = written_by t tr ++ from_option to_write [] (calls x !! t)
}.

Record in_inv (tr : list mark) (x : SynchConsole) (stream : list Z) (taken : Z) : Prop := {
  ii_mutex : mutex inside_in (inputMutex x) (calls x);
  ii_in : keys tr = concat (lines tr) ++ holder [] collected (inputMutex x) (calls x) ++ stream;
  ii_taken : taken = holder 0 get_count (inputMutex x) (calls x);
  ii_lines : forall t size l, Line t size l ∈ tr -> is_line size l
}.

Definition sc_inv (tr : list mark) '((s, T) : World) : Prop :=
  exists taken putting stream out,
    console_ok taken putting stream out (threads T) s T /\ out_inv tr (threads T) out putting /\
    in_inv tr (threads T) stream taken /\ map_Forall (fun _ => call_ok) (calls (threads T)).

Section Mutex.
Variable inside : call -> bool.
Implicit Types (t : positive) (o : option call) (cs : Calls).

Definition in_side o : bool := from_option inside false o.

(** The call of [t] changes and stays outside, or stays inside. *)
Lemma mutex_same t o l cs : mutex inside l cs -> in_side o = in_side (cs !! t) -> mutex inside l (partial_alter (fun _ => o) t cs).
Proof.
  intros [Hh Hi] Ho. split.
  - intros u ->. destruct (Hh u eq_refl) as (c & Hc & Hic). destruct (decide (u = t)) as [->|].
    + rewrite lookup_partial_alter_eq. rewrite Hc in Ho. cbn in Ho. destruct o as [c'|]; cbn in Ho; [exists c'; split; [done|congruence] | congruence].
    + exists c. by rewrite lookup_partial_alter_ne.
  - intros u c Hu Hc. destruct (decide (u = t)) as [->|]; [|rewrite lookup_partial_alter_ne in Hu by done; eauto].
    rewrite lookup_partial_alter_eq in Hu. subst o. cbn in Ho. rewrite Hc in Ho. destruct (cs !! t) as [c'|] eqn:E; [|done].
    cbn in Ho. by apply (Hi t c').
Qed.

(** [t] takes the lock, or gives it back. *)
Lemma mutex_take t c l cs : mutex inside l cs -> l = None -> inside c = true -> mutex inside (Some t) (partial_alter (fun _ => Some c) t cs).
Proof.
  intros [Hh Hi] -> Hc. split.
  - intros u [= <-]. exists c. by rewrite lookup_partial_alter_eq.
  - intros u c' Hu Hc'. destruct (decide (u = t)) as [->|]; [done|]. rewrite lookup_partial_alter_ne in Hu by done. by specialize (Hi u c' Hu Hc').
Qed.

Lemma mutex_give t o cs : mutex inside (Some t) cs -> in_side o = false -> mutex inside None (partial_alter (fun _ => o) t cs).
Proof.
  intros [Hh Hi] Ho. split; [done|]. intros u c Hu Hc. destruct (decide (u = t)) as [->|].
  - rewrite lookup_partial_alter_eq in Hu. subst o. cbn in Ho. congruence.
  - rewrite lookup_partial_alter_ne in Hu by done. specialize (Hi u c Hu Hc). congruence.
Qed.

(** A caller that is not inside does not matter to the holder. *)
Lemma holder_other {A} (d : A) f t o l cs : mutex inside l cs -> in_side (cs !! t) = false ->
  holder d f l (partial_alter (fun _ => o) t cs) = holder d f l cs.
Proof.
  intros [Hh Hi] Ht. unfold holder. destruct l as [u|]; [|done]. destruct (decide (u = t)) as [->|]; [|by rewrite lookup_partial_alter_ne].
  destruct (Hh t eq_refl) as (c & Hc & Hic). rewrite Hc in Ht. cbn in Ht. congruence.
Qed.

Lemma holder_enter {A} (d : A) f t c l cs : mutex inside l cs -> cs !! t = None -> holder d f l (<[t := c]> cs) = holder d f l cs.
Proof. intros Hm Ht. apply (holder_other d f t (Some c)); [done | by rewrite Ht]. Qed.

Lemma holder_insert {A} (d : A) f t c cs : holder d f (Some t) (<[t := c]> cs) = f c.
Proof. unfold holder. by rewrite lookup_insert_eq. Qed.

(** The caller that may take the lock and is not inside: the lock is free. *)
Lemma free_lock t l c cs : mutex inside l cs -> cs !! t = Some c -> inside c = false -> bool_decide (l = None) || bool_decide (l = Some t) = true -> l = None.
Proof.
  intros [Hh Hi] Ht Hc Hf. apply orb_true_iff in Hf as [Hf|Hf]; apply bool_decide_eq_true in Hf; [done|].
  destruct (Hh t Hf) as (c' & Hc' & Hic). congruence.
Qed.
End Mutex.

Lemma omap_none {A B} (f : A -> option B) l : (forall m, m ∈ l -> f m = None) -> omap f l = [].
Proof. intros Hf. induction l as [|m l IH]; [done|]. cbn. rewrite (Hf m) by left. apply IH. intros m' Hm'. apply Hf. by right. Qed.

(** Statements of one direction leave the other alone. *)
Lemma out_frame tr ms x x' t o out putting : out_inv tr x out putting -> outputMutex x' = outputMutex x ->
  calls x' = partial_alter (fun _ => o) t (calls x) -> in_side inside_out o = false -> in_side inside_out (calls x !! t) = false ->
  from_option to_write [] o = from_option to_write [] (calls x !! t) ->
  (forall m, m ∈ ms -> match m with Asked _ _ | Written _ _ => False | _ => True end) -> out_inv (tr ++ ms) x' out putting.
Proof.
  intros [Hm Ho Hp Ha] El Ec Hi1 Hi2 Hw Hms.
  split; rewrite ?El, ?Ec.
  - by apply mutex_same; [|rewrite Hi1, Hi2].
  - unfold written in *. rewrite omap_app, (omap_none _ ms), app_nil_r, (holder_other inside_out) by (done || (intros m Hin; specialize (Hms m Hin); by destruct m)). done.
  - by rewrite (holder_other inside_out).
  - intros u. unfold asked_by, written_by in *. rewrite !omap_app, !(omap_none _ ms), !app_nil_r, Ha
      by (intros m Hin; specialize (Hms m Hin); by destruct m).
    destruct (decide (u = t)) as [->|]; [by rewrite lookup_partial_alter_eq, Hw | by rewrite lookup_partial_alter_ne].
Qed.

Lemma in_frame tr ms x x' t o stream taken : in_inv tr x stream taken -> inputMutex x' = inputMutex x ->
  calls x' = partial_alter (fun _ => o) t (calls x) -> in_side inside_in o = false -> in_side inside_in (calls x !! t) = false ->
  (forall m, m ∈ ms -> match m with Line _ _ _ | Key _ => False | _ => True end) -> in_inv (tr ++ ms) x' stream taken.
Proof.
  intros [Hm Ho Hp Ha] El Ec Hi1 Hi2 Hms.
  split; rewrite ?El, ?Ec.
  - by apply mutex_same; [|rewrite Hi1, Hi2].
  - unfold keys, lines in *. rewrite !omap_app, !(omap_none _ ms), !app_nil_r, (holder_other inside_in) by (done || (intros m Hin; specialize (Hms m Hin); by destruct m)). done.
  - by rewrite (holder_other inside_in).
  - intros u size l [Hin|Hin]%elem_of_app; [by eapply Ha | by destruct (Hms _ Hin)].
Qed.

Lemma out_silent tr x x' t c c' out putting : out_inv tr x out putting -> outputMutex x' = outputMutex x ->
  calls x' = <[t := c']> (calls x) -> calls x !! t = Some c -> inside_out c' = false -> inside_out c = false ->
  to_write c' = to_write c -> out_inv tr x' out putting.
Proof.
  intros O El Ec Ht Hi1 Hi2 Hw. rewrite <- (app_nil_r tr).
  apply (out_frame tr [] x x' t (Some c') out putting O El Ec Hi1); rewrite ?Ht; try done. by intros m ?%elem_of_nil.
Qed.

Lemma in_silent tr x x' t c c' stream taken : in_inv tr x stream taken -> inputMutex x' = inputMutex x ->
  calls x' = <[t := c']> (calls x) -> calls x !! t = Some c -> inside_in c' = false -> inside_in c = false -> in_inv tr x' stream taken.
Proof.
  intros I El Ec Ht Hi1 Hi2. rewrite <- (app_nil_r tr).
  apply (in_frame tr [] x x' t (Some c') stream taken I El Ec Hi1); rewrite ?Ht; try done. by intros m ?%elem_of_nil.
Qed.

(** ** The statements of WriteLine *)

Definition marks_next t (n : next) : list mark :=
  match n with
  | Goes _ => []
  | Wrote line i => [Written t (take (Z.to_nat i) line)]
  | Got line n size => [Line t size (take (Z.to_nat n) line)]
  end.

(** The writer goes on inside. *)
Lemma out_goes tr x x' t c c' out putting : out_inv tr x out putting -> calls x !! t = Some c -> inside_out c' = true ->
  outputMutex x' = Some t -> calls x' = <[t := c']> (calls x) -> (inside_out c = true \/ outputMutex x = None) -> to_write c' = to_write c ->
  out_inv tr x' (concat (written tr) ++ displayed c') (put_count c').
Proof.
  intros [Hm Ho Hp Ha] Ht Hc' El Ec Hl Hw. split; rewrite ?El, ?Ec.
  - destruct Hl as [Hc|Hl]; [|by apply (mutex_take inside_out t c' (outputMutex x))].
    rewrite <- (mu_inside _ _ _ Hm t c Ht Hc). apply (mutex_same inside_out t (Some c')); [done|]. rewrite Ht. cbn. congruence.
  - by rewrite holder_insert.
  - by rewrite holder_insert.
  - intros u. rewrite Ha. destruct (decide (u = t)) as [->|]; [by rewrite lookup_insert_eq, Ht; cbn; rewrite Hw | by rewrite lookup_insert_ne].
Qed.

(** It returns. *)
Lemma out_ends tr x t c l i out putting : out_inv tr x out putting -> calls x !! t = Some c -> inside_out c = true ->
  to_write c = [l] -> displayed c = l -> put_count c = 0 -> i = putting ->
  out_inv (tr ++ [Written t l]) (mkSC (inputMutex x) None (delete t (calls x))) out 0 /\ i = 0.
Proof.
  intros [Hm Ho Hp Ha] Ht Hc Hw Hd Hz ->. pose proof (mu_inside _ _ _ Hm t c Ht Hc) as El. rewrite El in *.
  unfold holder in Ho, Hp. rewrite Ht in Ho, Hp. cbn in Ho, Hp. split; [|congruence]. split; cbn [outputMutex calls].
  - by apply (mutex_give inside_out t None).
  - rewrite Ho, Hd. unfold written. rewrite omap_app, concat_app. cbn. by rewrite !app_nil_r.
  - done.
  - intros u. unfold asked_by, written_by in *. rewrite !omap_app. cbn. rewrite app_nil_r, Ha. destruct (decide (u = t)) as [->|].
    + rewrite lookup_delete_eq, Ht. cbn. rewrite Hw, decide_True by done. by rewrite app_nil_r.
    + by rewrite lookup_delete_ne, decide_False, app_nil_r.
Qed.

(** The state after a statement. *)
Lemma sc_next tr s T t n x x0 taken putting stream out : console_ok taken putting stream out x0 s T ->
  threads (proceed t n T) = x -> out_inv tr x out putting -> in_inv tr x stream taken ->
  map_Forall (fun _ => call_ok) (calls x) -> sc_inv tr (s, proceed t n T).
Proof.
  intros S <- O I Hok. exists taken, putting, stream, out. split; [|done].
  destruct n; cbn [proceed enter] in *; by eapply console_threads.
Qed.

Definition progresses (tr : list mark) t (c : call) (sT : World) : Prop :=
  exists n s' T', statement t c sT = Ret (n, (s', T')) /\ sc_inv (tr ++ marks_next t n) (s', proceed t n T').

(** A writer inside. *)
Lemma writer_inside tr x t c out putting : out_inv tr x out putting -> calls x !! t = Some c -> inside_out c = true ->
  outputMutex x = Some t /\ putting = put_count c /\ out = concat (written tr) ++ displayed c.
Proof.
  intros [Hm Ho Hp _] Ht Hc. pose proof (mu_inside _ _ _ Hm t c Ht Hc) as El. rewrite El in *. unfold holder in *. by rewrite Ht in *.
Qed.

Section Write.
Context (tr : list mark) (s : IState console_handler) (T : Terminal SynchConsole) (t : positive) (line : list Z) (i size : Z).
Notation w p := (Writing p line i size).
Context (Hinv : sc_inv tr (s, T)).

Lemma write_Acquire : calls (threads T) !! t = Some (w Write_Acquire) -> can_run t (w Write_Acquire) T = true ->
  progresses tr t (w Write_Acquire) (s, T).
Proof using Hinv.
  intros Ht Hr. destruct Hinv as (taken & putting & stream & out & S & O & I & Hok).
  destruct (map_Forall_lookup_1 _ _ _ _ Hok Ht) as (Hi & Hz & Hs). specialize (Hz eq_refl).
  pose proof (free_lock _ t _ _ _ (oi_mutex _ _ _ _ O) Ht eq_refl Hr) as Hl.
  do 3 eexists. split; [reflexivity|]. cbn [marks_next]. rewrite app_nil_r.
  eapply sc_next; [by eapply console_threads | reflexivity | | by eapply (in_silent _ (threads T)) |].
  - pose proof O as [_ Ho Hp _]. rewrite Hl in Ho, Hp. rewrite Ho, Hp.
    assert (concat (written tr) ++ [] = concat (written tr) ++ displayed (w Write_Loop)) as E by (cbn; by rewrite Hz).
    cbn [holder]. rewrite E. by apply (out_goes _ _ _ t (w Write_Acquire) (w Write_Loop) _ _ O); auto.
  - apply map_Forall_insert_2; [|done]. split; [done|]. split; [done|]. intros _. by apply Hs.
Qed.

Lemma write_Loop : calls (threads T) !! t = Some (w Write_Loop) -> progresses tr t (w Write_Loop) (s, T).
Proof using Hinv.
  intros Ht. destruct Hinv as (taken & putting & stream & out & S & O & I & Hok).
  destruct (map_Forall_lookup_1 _ _ _ _ Hok Ht) as (Hi & _ & Hs). destruct Hs as [Hs Hle]; [done|].
  destruct (writer_inside _ _ _ _ _ _ O Ht eq_refl) as (El & -> & ->). unfold progresses. cbn [statement WriteLine].
  destruct (Z.eqb_spec size 0) as [Hz|Hne].
  - do 3 eexists. split; [reflexivity|]. cbn [marks_next]. rewrite app_nil_r.
    eapply sc_next; [exact S | reflexivity | | by eapply (in_silent _ (threads T)) |].
    + eapply (out_goes _ _ _ t (w Write_Loop) (Writing Write_Release line i _) _ _ O); auto. cbn. by rewrite Hz, Z.add_0_r.
    + apply map_Forall_insert_2; [|done]. by repeat split; try lia.
  - destruct (aref_in line i ltac:(lia)) as [ch Hch]. rewrite Hch. cbn [bind].
    destruct (console_PutChar _ _ _ _ _ s T ch S eq_refl) as (D & s' & -> & S'). cbn [bind].
    do 3 eexists. split; [reflexivity|]. cbn [marks_next]. rewrite app_nil_r, i32_small by (unfold is_i32; lia).
    eapply sc_next; [exact S' | reflexivity | | by eapply (in_silent _ (threads T)) |].
    + apply aref_Ret in Hch as [_ Hch].
      assert (displayed (w Write_Loop) ++ [ch] = displayed (Writing Write_P line (i + 1) (size - 1))) as E.
      { cbn. replace (Z.to_nat (i + 1)) with (Datatypes.S (Z.to_nat i)) by lia. by rewrite (take_S_r _ _ _ Hch). }
      rewrite <- app_assoc, E. eapply (out_goes _ _ _ t (w Write_Loop) (Writing Write_P line (i + 1) (size - 1)) _ _ O); auto. cbn. do 3 f_equal. lia.
    + apply map_Forall_insert_2; [|done]. repeat split; try lia; done.
Qed.

Lemma write_P : calls (threads T) !! t = Some (w Write_P) -> can_run t (w Write_P) T = true -> progresses tr t (w Write_P) (s, T).
Proof using Hinv.
  intros Ht Hr%Z.ltb_lt. destruct Hinv as (taken & putting & stream & out & S & O & I & Hok).
  destruct (map_Forall_lookup_1 _ _ _ _ Hok Ht) as (Hi & _ & Hs).
  destruct (writer_inside _ _ _ _ _ _ O Ht eq_refl) as (El & -> & ->).
  destruct (console_P_write _ _ _ _ _ s T S Hr) as [_ S']; [done|].
  do 3 eexists. split; [reflexivity|]. cbn [marks_next]. rewrite app_nil_r.
  eapply sc_next; [exact S' | reflexivity | | by eapply (in_silent _ (threads T)) |].
  - eapply (out_goes _ _ _ t (w Write_P) (w Write_Loop) _ _ O); auto.
  - apply map_Forall_insert_2; [|done]. split; [done|]. split; [done|]. intros _. by apply Hs.
Qed.

Lemma write_Release : calls (threads T) !! t = Some (w Write_Release) -> progresses tr t (w Write_Release) (s, T).
Proof using Hinv.
  intros Ht. destruct Hinv as (taken & putting & stream & out & S & O & I & Hok).
  destruct (out_ends tr _ t _ (take (Z.to_nat i) line) putting out putting O Ht eq_refl eq_refl eq_refl eq_refl eq_refl) as [O' E].
  do 3 eexists. split; [reflexivity|]. rewrite E in S. eapply sc_next; [by eapply console_threads | reflexivity | exact O' | |].
  - eapply (in_frame _ _ _ _ t None _ _ I); try done; [by rewrite Ht|]. intros m ->%list_elem_of_singleton. done.
  - by apply map_Forall_delete.
Qed.
End Write.

(** ** The statements of ReadLine *)

Lemma in_goes tr x x' t c c' stream stream' taken : in_inv tr x stream taken -> calls x !! t = Some c -> inside_in c' = true ->
  inputMutex x' = Some t -> calls x' = <[t := c']> (calls x) -> (inside_in c = true \/ inputMutex x = None) ->
  holder [] collected (inputMutex x) (calls x) ++ stream = collected c' ++ stream' -> in_inv tr x' stream' (get_count c').
Proof.
  intros [Hm Hk Hp Ha] Ht Hc' El Ec Hl Hs. split; rewrite ?El, ?Ec, ?holder_insert; try done.
  - destruct Hl as [Hc|Hl]; [|by apply (mutex_take inside_in t c' (inputMutex x))].
    rewrite <- (mu_inside _ _ _ Hm t c Ht Hc). apply (mutex_same inside_in t (Some c')); [done|]. rewrite Ht. cbn. congruence.
  - by rewrite <- Hs.
Qed.

Lemma in_ends tr x t c size l stream taken : in_inv tr x stream taken -> calls x !! t = Some c -> inside_in c = true ->
  collected c = l -> get_count c = 0 -> is_line size l ->
  in_inv (tr ++ [Line t size l]) (mkSC None (outputMutex x) (delete t (calls x))) stream 0 /\ taken = 0.
Proof.
  intros [Hm Hk Hp Ha] Ht Hc Hd Hz Hl. pose proof (mu_inside _ _ _ Hm t c Ht Hc) as El. rewrite El in *.
  unfold holder in Hk, Hp. rewrite Ht in Hk, Hp. cbn in Hk, Hp. split; [|congruence]. split; cbn [inputMutex calls].
  - by apply (mutex_give inside_in t None).
  - unfold keys, lines in *. rewrite !omap_app, concat_app. cbn. by rewrite !app_nil_r, Hk, Hd, <- app_assoc.
  - done.
  - intros u sz l' [Hin|[= -> -> ->]%list_elem_of_singleton]%elem_of_app; [by eapply Ha | done].
Qed.

Lemma reader_inside tr x t c stream taken : in_inv tr x stream taken -> calls x !! t = Some c -> inside_in c = true ->
  inputMutex x = Some t /\ taken = get_count c /\ holder [] collected (inputMutex x) (calls x) = collected c.
Proof.
  intros [Hm _ Hp _] Ht Hc. pose proof (mu_inside _ _ _ Hm t c Ht Hc) as El. rewrite El in *. unfold holder in *. by rewrite Ht in *.
Qed.

Lemma reads_extend size l c c' : reads size l c -> c <> newline -> reads size (l ++ [c']) c'.
Proof.
  intros [[? _]|[_ Hl]] Hc; [done|]. destruct (decide (c' = newline)) as [->|Hne]; [left; split; [done|]; by exists l | right].
  split; [done|]. rewrite elem_of_app, list_elem_of_singleton. naive_solver.
Qed.

Section Read.
Context (tr : list mark) (s : IState console_handler) (T : Terminal SynchConsole) (t : positive) (line : list Z) (n size c : Z).
Notation r p := (Reading p line n size c).
Context (Hinv : sc_inv tr (s, T)).

Lemma read_Acquire : calls (threads T) !! t = Some (r Read_Acquire) -> can_run t (r Read_Acquire) T = true ->
  progresses tr t (r Read_Acquire) (s, T).
Proof using Hinv.
  intros Ht Hr. destruct Hinv as (taken & putting & stream & out & S & O & I & Hok).
  destruct (map_Forall_lookup_1 _ _ _ _ Hok Ht) as (Hn & Hs & Hz & Hrd & _). specialize (Hz eq_refl).
  pose proof (free_lock _ t _ _ _ (ii_mutex _ _ _ _ I) Ht eq_refl Hr) as Hl.
  do 3 eexists. split; [reflexivity|]. cbn [marks_next]. rewrite app_nil_r.
  eapply sc_next; [by eapply console_threads | reflexivity | by eapply (out_silent _ (threads T)) | |].
  - pose proof (ii_taken _ _ _ _ I) as Hp. rewrite Hl in Hp. cbn in Hp. rewrite Hp.
    apply (in_goes _ _ _ t (r Read_Acquire) (r Read_Loop) stream stream _ I); auto. rewrite Hl. cbn. by rewrite Hz.
  - by apply map_Forall_insert_2.
Qed.

Lemma read_Loop : calls (threads T) !! t = Some (r Read_Loop) -> progresses tr t (r Read_Loop) (s, T).
Proof using Hinv.
  intros Ht. destruct Hinv as (taken & putting & stream & out & S & O & I & Hok).
  destruct (map_Forall_lookup_1 _ _ _ _ Hok Ht) as (Hn & Hs & _ & Hrd & _).
  destruct (reader_inside _ _ _ _ _ _ I Ht eq_refl) as (El & -> & Eh).
  do 3 eexists. split; [reflexivity|]. cbn [marks_next]. rewrite app_nil_r. destruct (_ && _) eqn:E.
  - apply andb_true_iff in E as [Ec%negb_true_iff%Z.eqb_neq En%Z.ltb_lt].
    eapply sc_next; [exact S | reflexivity | by eapply (out_silent _ (threads T)) | |].
    + apply (in_goes _ _ _ t (r Read_Loop) (r Read_P) stream stream _ I); auto. by rewrite Eh.
    + by apply map_Forall_insert_2.
  - eapply sc_next; [exact S | reflexivity | by eapply (out_silent _ (threads T)) | |].
    + apply (in_goes _ _ _ t (r Read_Loop) (r Read_Release) stream stream _ I); auto. by rewrite Eh.
    + apply map_Forall_insert_2; [|done]. split; [done|]. split; [done|]. split; [done|]. split; [done|].
      apply andb_false_iff in E as [E%negb_false_iff%Z.eqb_eq|E%Z.ltb_ge]; auto.
Qed.

Lemma read_P : calls (threads T) !! t = Some (r Read_P) -> can_run t (r Read_P) T = true -> progresses tr t (r Read_P) (s, T).
Proof using Hinv.
  intros Ht Hr%Z.ltb_lt. destruct Hinv as (taken & putting & stream & out & S & O & I & Hok).
  pose proof (map_Forall_lookup_1 _ _ _ _ Hok Ht) as Hc. destruct (reader_inside _ _ _ _ _ _ I Ht eq_refl) as (El & -> & Eh).
  pose proof (console_P_read _ _ _ _ _ s T S Hr eq_refl) as S'.
  do 3 eexists. split; [reflexivity|]. cbn [marks_next]. rewrite app_nil_r.
  eapply sc_next; [exact S' | reflexivity | by eapply (out_silent _ (threads T)) | |].
  - apply (in_goes _ _ _ t (r Read_P) (r Read_GetChar) stream stream _ I); auto. by rewrite Eh.
  - apply map_Forall_insert_2; [|done]. destruct Hc as (Hn & Hs & _ & Hrd & Hc). split; [done|]. split; [done|]. by split.
Qed.

Lemma read_GetChar : calls (threads T) !! t = Some (r Read_GetChar) -> progresses tr t (r Read_GetChar) (s, T).
Proof using Hinv.
  intros Ht. destruct Hinv as (taken & putting & stream & out & S & O & I & Hok).
  destruct (map_Forall_lookup_1 _ _ _ _ Hok Ht) as (Hn & Hs & _ & Hrd & Hc & Hlt).
  destruct (reader_inside _ _ _ _ _ _ I Ht eq_refl) as (El & -> & Eh).
  destruct (console_GetChar _ _ _ _ _ s T S eq_refl) as (ch & rest & Hg & -> & S').
  unfold progresses. cbn [statement ReadLine]. rewrite Hg, aset_in by lia. cbn [bind].
  assert (take (Z.to_nat (n + 1)) (<[Z.to_nat n:=ch]> line) = take (Z.to_nat n) line ++ [ch]) as E.
  { replace (Z.to_nat (n + 1)) with (Datatypes.S (Z.to_nat n)) by lia.
    rewrite (take_S_r _ _ ch) by (apply list_lookup_insert_eq; lia). by rewrite take_insert_ge. }
  do 3 eexists. split; [reflexivity|]. cbn [marks_next]. rewrite app_nil_r.
  eapply sc_next; [exact S' | reflexivity | by eapply (out_silent _ (threads T)) | |].
  - apply (in_goes _ _ _ t (r Read_GetChar) (Reading Read_Loop (<[Z.to_nat n:=ch]> line) (n + 1) size ch) (ch :: rest) rest _ I); auto.
    rewrite Eh. cbn [collected]. by rewrite E, <- app_assoc.
  - apply map_Forall_insert_2; [|done]. cbn. rewrite E, length_insert. repeat split; try lia; try done. by eapply reads_extend.
Qed.

Lemma read_is_line : call_ok (r Read_Release) -> is_line size (take (Z.to_nat n) line).
Proof using Type.
  intros (Hn & Hs & _ & Hrd & Hend). assert (Z.of_nat (length (take (Z.to_nat n) line)) = n) as El by (rewrite length_take; lia).
  destruct Hrd as [(-> & l' & El' & Hl')|[Hc Hl]].
  - left. exists l'. split; [done|]. split; [done|]. rewrite El. destruct (Z.le_gt_cases 0 size); [lia|].
    replace n with 0 in El' by lia. cbn in El'. by destruct l'.
  - right. split; [done|]. rewrite El. destruct Hend; [done|]. lia.
Qed.

Lemma read_Release : calls (threads T) !! t = Some (r Read_Release) -> progresses tr t (r Read_Release) (s, T).
Proof using Hinv.
  intros Ht. destruct Hinv as (taken & putting & stream & out & S & O & I & Hok).
  pose proof (read_is_line (map_Forall_lookup_1 _ _ _ _ Hok Ht)) as Hl.
  destruct (in_ends tr _ t _ size _ stream taken I Ht eq_refl eq_refl eq_refl Hl) as [I' E].
  do 3 eexists. split; [reflexivity|]. rewrite E in S. eapply sc_next; [by eapply console_threads | reflexivity | | exact I' |].
  - eapply (out_frame _ _ _ _ t None _ _ O); try done; [by rewrite Ht | by rewrite Ht|]. intros m ->%list_elem_of_singleton. done.
  - by apply map_Forall_delete.
Qed.
End Read.

(** ** Executions *)

Lemma statement_progresses tr s T t c : sc_inv tr (s, T) -> calls (threads T) !! t = Some c -> can_run t c T = true ->
  progresses tr t c (s, T).
Proof.
  intros Hinv Ht Hr. destruct c as [p line i size|p line n size c]; destruct p.
  - by apply write_Acquire.
  - by apply write_Loop.
  - by apply write_P.
  - by apply write_Release.
  - by apply read_Acquire.
  - by apply read_Loop.
  - by apply read_P.
  - by apply read_GetChar.
  - by apply read_Release.
Qed.

Lemma keys_typed e : keys (Key <$> typed_by e) = typed_by e.
Proof. by destruct e. Qed.

Lemma world_inv tr s T e : sc_inv tr (s, T) -> plain e ->
  exists s' T', around e (s, T) = Ret (s', T') /\ sc_inv (tr ++ (Key <$> typed_by e)) (s', T').
Proof.
  intros (taken & putting & stream & out & S & [Om Oo Op Oa] & [Im Ik Ip Il] & Hok) He.
  destruct (around_ok e s T _ _ _ _ _ He S) as (s' & T' & Hr & S'). exists s', T'. split; [done|].
  exists taken, putting, (stream ++ typed_by e), out. assert (threads T' = threads T) as -> by apply (ci_threads _ _ _ _ _ _ _ (se_J _ _ _ S')).
  assert (forall A (f : mark -> option A), (forall c, f (Key c) = None) -> omap f (tr ++ (Key <$> typed_by e)) = omap f tr) as Hno.
  { intros A f Hf. rewrite omap_app, (omap_none f (Key <$> _)), app_nil_r; [done|]. intros m (c & -> & _)%list_elem_of_fmap. apply Hf. }
  split; [done|]. split; [|split; [|done]]; split; try done.
  - unfold written. by rewrite Hno.
  - intros t. unfold asked_by, written_by in *. by rewrite !Hno.
  - unfold lines. rewrite Hno by done. unfold keys in *. rewrite omap_app. fold (keys (Key <$> typed_by e)).
    by rewrite keys_typed, Ik, <- !app_assoc.
  - intros t size l [Hin|(c & [=] & _)%list_elem_of_fmap]%elem_of_app. by eapply Il.
Qed.

Lemma exec_inv tr s T e : sc_inv tr (s, T) -> enabled e (s, T) = true -> valid e ->
  exists s' T', exec e (s, T) = Ret (s', T') /\ sc_inv (tr ++ marks_of e (s, T)) (s', T').
Proof.
  intros Hinv He Hv. destruct e as [t line size|t line size|t|e].
  - cbn in He. apply bool_decide_eq_true in He. destruct Hinv as (taken & putting & stream & out & S & [Om Oo Op Oa] & I & Hok).
    do 2 eexists. split; [reflexivity|]. exists taken, putting, stream, out. split; [by eapply console_threads|]. cbn [marks_of threads enter set_threads].
    split; [|split].
    + split; cbn [outputMutex calls set_calls].
      * apply (mutex_same inside_out t (Some _)); [done | by rewrite He].
      * unfold written. rewrite omap_app. cbn. rewrite app_nil_r. by rewrite (holder_enter inside_out).
      * by rewrite (holder_enter inside_out).
      * intros u. unfold asked_by, written_by in *. rewrite !omap_app, Oa. cbn. rewrite app_nil_r. destruct (decide (t = u)) as [->|].
        -- rewrite lookup_insert_eq, He. cbn. by rewrite app_nil_r.
        -- by rewrite lookup_insert_ne, app_nil_r.
    + eapply (in_frame _ _ _ _ t (Some _) _ _ I); try done; [by rewrite He|]. by intros m ->%list_elem_of_singleton.
    + apply map_Forall_insert_2; [|done]. repeat split; try lia; cbn in Hv; lia.
  - cbn in He. apply bool_decide_eq_true in He. destruct Hinv as (taken & putting & stream & out & S & O & I & Hok).
    do 2 eexists. split; [reflexivity|]. exists taken, putting, stream, out. split; [by eapply console_threads|]. cbn [marks_of threads enter set_threads].
    split; [|split].
    + eapply (out_frame _ _ _ _ t (Some _) _ _ O); try done; [by rewrite He | by rewrite He | by intros m ?%elem_of_nil].
    + eapply (in_frame _ _ _ _ t (Some _) _ _ I); try done; [by rewrite He | by intros m ?%elem_of_nil].
    + apply map_Forall_insert_2; [|done]. cbn in Hv. repeat split; try lia. right. split; [done | by intros ?%elem_of_nil].
  - cbn [enabled] in He. destruct (calls (threads T) !! t) as [c|] eqn:Ht; [|done].
    destruct (statement_progresses tr s T t c Hinv Ht He) as (n & s' & T' & Hst & Hi). cbn [exec marks_of]. rewrite Ht, Hst. cbn [bind].
    do 2 eexists. split; [reflexivity|]. by destruct n.
  - by apply world_inv.
Qed.

Lemma run_inv es tr s T : sc_inv tr (s, T) -> happens es (s, T) = true -> Forall valid es ->
  exists s' T', run es (s, T) = Ret (s', T') /\ sc_inv (tr ++ trace es (s, T)) (s', T').
Proof.
  revert tr s T. induction es as [|e es IH]; intros tr s T Hinv Hh Hv.
  { exists s, T. cbn [trace]. by rewrite app_nil_r. }
  cbn [happens] in Hh. apply andb_true_iff in Hh as [He Hh]. apply Forall_cons in Hv as [Hve Hv].
  destruct (exec_inv tr s T e Hinv He Hve) as (s1 & T1 & Hx & Hi). rewrite Hx in Hh.
  destruct (IH _ s1 T1 Hi Hh Hv) as (s2 & T2 & Hr & Hi2). exists s2, T2. cbn [run trace]. rewrite Hx. cbn [bind].
  by rewrite app_assoc.
Qed.

(** What a call that cannot go on waits for. *)
Lemma writer_waits tr s T : sc_inv tr (s, T) -> (forall t, enabled (Step t) (s, T) = false) ->
  forall t p line i size, calls (threads T) !! t = Some (Writing p line i size) -> ConsoleWriteDone ∈ handlers s.
Proof.
  intros (taken & putting & stream & out & S & O & I & Hok) Hs t p line i size Ht.
  assert (exists u, outputMutex (threads T) = Some u) as [u Hu].
  { destruct p; [|exists t; by apply (writer_inside _ _ _ _ _ _ O Ht)..].
    specialize (Hs t). cbn in Hs. rewrite Ht in Hs. cbn in Hs. apply orb_false_iff in Hs as [Hs _].
    apply bool_decide_eq_false in Hs. destruct (outputMutex _); [eauto | done]. }
  destruct (mu_holder _ _ _ (oi_mutex _ _ _ _ O) u Hu) as (c & Hc & Hin).
  destruct (writer_inside _ _ _ _ _ _ O Hc Hin) as (_ & -> & _). specialize (Hs u). cbn in Hs. rewrite Hc in Hs.
  destruct c as [[]|]; try done. cbn in Hs. apply Z.ltb_ge in Hs. by eapply console_waits_write.
Qed.

Lemma reader_waits tr s T : sc_inv tr (s, T) -> (forall t, enabled (Step t) (s, T) = false) ->
  forall t p line n size c, calls (threads T) !! t = Some (Reading p line n size c) ->
  buffered (console T) = [] /\ ConsoleReadPoll ∈ handlers s.
Proof.
  intros (taken & putting & stream & out & S & O & I & Hok) Hs t p line n size c Ht.
  assert (exists u, inputMutex (threads T) = Some u) as [u Hu].
  { destruct p; [|exists t; by apply (reader_inside _ _ _ _ _ _ I Ht)..].
    specialize (Hs t). cbn in Hs. rewrite Ht in Hs. cbn in Hs. apply orb_false_iff in Hs as [Hs _].
    apply bool_decide_eq_false in Hs. destruct (inputMutex _); [eauto | done]. }
  destruct (mu_holder _ _ _ (ii_mutex _ _ _ _ I) u Hu) as (k & Hk & Hin).
  destruct (reader_inside _ _ _ _ _ _ I Hk Hin) as (_ & -> & _). specialize (Hs u). cbn in Hs. rewrite Hk in Hs.
  destruct k as [|[]]; try done. cbn in Hs. apply Z.ltb_ge in Hs. by eapply console_waits_read.
Qed.

(** C22: class SynchConsole writes and reads whole lines. Threads call WriteLine and
    ReadLine in any interleaving of their statements with the clock, the interrupts
    of the console and typing. No assertion fails and no array is overrun. The
    display shows the lines that were written, one after the other, and a beginning
    of the one that is being written; a thread's lines are those that it asked to be
    written, in order. What was typed is the lines that were read, in order, what
    the call that reads has collected, and what is left; and every line read ends at
    its newline or fills its array. When no call can go on, the interrupt that lets
    the writers go on is pending, and readers wait because nothing has come. *)
Theorem SynchConsole_lines es sT0 : boot new_SynchConsole = Ret sT0 -> happens es sT0 = true -> Forall valid es ->
  exists s T, run es sT0 = Ret (s, T) /\
    let tr := trace es sT0 in let x := threads T in
    display (console T) = concat (written tr) ++ holder [] displayed (outputMutex x) (calls x) /\
    (forall t, asked_by t tr = written_by t tr ++ from_option to_write [] (calls x !! t)) /\
    keys tr = concat (lines tr) ++ holder [] collected (inputMutex x) (calls x) ++ buffered (console T) ++ keyboard (console T) /\
    (forall t size l, Line t size l ∈ tr -> is_line size l) /\
    ((forall t, enabled (Step t) (s, T) = false) ->
      (forall t p line i size, calls x !! t = Some (Writing p line i size) -> ConsoleWriteDone ∈ handlers s) /\
      (forall t p line n size c, calls x !! t = Some (Reading p line n size c) ->
        buffered (console T) = [] /\ ConsoleReadPoll ∈ handlers s)).
Proof.
  intros Hb Hh Hv. destruct (boot_console new_SynchConsole) as (s0 & T0 & Hb' & Ht & S0). rewrite Hb in Hb'. injection Hb' as ->.
  assert (sc_inv [] (s0, T0)) as Hi0.
  { exists 0, 0, [], []. rewrite Ht. split; [done|]. split; [by repeat split|]. split; [|apply map_Forall_empty].
    repeat split; try done. by intros t size l ?%elem_of_nil. }
  destruct (run_inv es [] s0 T0 Hi0 Hh Hv) as (s & T & Hr & Hi). exists s, T. split; [done|]. cbn [app] in Hi.
  pose proof Hi as (taken & putting & stream & out & S & [Om Oo Op Oa] & [Im Ik Ip Il] & Hok). pose proof (se_J _ _ _ S) as K.
  cbn zeta. split; [by rewrite (ci_out _ _ _ _ _ _ _ K)|]. split; [done|]. split; [by rewrite (ci_stream _ _ _ _ _ _ _ K)|].
  split; [done|]. intros Hs. split; [by apply (writer_waits (trace es (s0, T0))) | by apply (reader_waits (trace es (s0, T0)))].
Qed.

(** ** Two writers and a reader *)

Module Demo.

Definition chat : list event :=
  [Enter_WriteLine 1 [97; 98] 2; Step 1; Step 1; Enter_WriteLine 2 [99] 1; World_does AllSleep; Step 1; Step 1; World_does AllSleep;
   Step 1; Step 1; Step 1; Enter_ReadLine 3 [0; 0; 0] 3; Step 3; Step 3; World_does (Typed 120); World_does (Typed 10);
   Step 2; Step 2; World_does AllSleep; Step 3; Step 3; Step 3; Step 2; Step 2; Step 2; World_does AllSleep; Step 3; Step 3; Step 3; Step 3].

Lemma SynchConsole_lines_witness : exists sT0 s T,
  boot new_SynchConsole = Ret sT0 /\ run chat sT0 = Ret (s, T) /\ display (console T) = [97; 98; 99] /\
  lines (trace chat sT0) = [[120; 10]].
Proof.
  destruct (boot new_SynchConsole) as [sT0| |] eqn:E; [|vm_compute in E; discriminate E..].
  destruct (SynchConsole_lines chat sT0 E) as (s & T & Hr & _).
  - vm_compute in E. injection E as <-. vm_compute. reflexivity.
  - unfold chat. repeat constructor; intros [=].
  - exists sT0, s, T. split; [done|]. split; [exact Hr|]. vm_compute in E. injection E as <-. vm_compute in Hr. injection Hr as <- <-.
    split; vm_compute; reflexivity.
Defined.
End Demo.
