(* ===== verification/SynchList.v ===== *)
(** * Synchronised lists (threads/synchlist.h, threads/synchlist.cc)

    A list with a lock and a condition variable: Remove waits until there is an
    element. The calls of the threads are sequences of statements, which interleave;
    a statement is a call of class [List] (at the contract [Seq]), of the lock or
    of the condition variable (at the contract that Threads.v proves: Acquire goes
    on when the lock is free, Wait gives up the lock and sleeps in one step, Signal
    wakes the thread that has slept longest). The theorems: the calls are those of
    one queue, and no thread sleeps while there is something for it. *)

From S2P Require Import Prelude NachosList.

Section SynchList.
Context {A : Type}.
Implicit Types (t : positive) (item : A).

(** ** The code *)

(** The members; [listEmpty] is the threads asleep on the condition. *)
Record SynchList := mkSL {
  list_ : list (Z * A);
  lock : option positive;
  listEmpty : list (Z * positive)
}.

Definition new_SynchList : SynchList := mkSL [] None [].

(** The statement that a call is about to run. *)
Inductive place :=
| Append_Acquire (item : A)
| Append_Append (item : A)
| Append_Signal
| Append_Release
| Remove_Acquire
| Remove_IsEmpty            (* the test of the while loop *)
| Remove_Wait               (* inside Wait: asleep, or on the way to the lock *)
| Remove_Remove
| Remove_Release (item : A).

(** What becomes of the call. *)
Inductive next := At (p : place) | Returned (item : option A).

Definition set_lock l L := mkSL (list_ L) l (listEmpty L).
Definition set_list q L := mkSL q (lock L) (listEmpty L).
Definition set_sleepers q L := mkSL (list_ L) (lock L) q.

Definition Release t L : SynchList := if bool_decide (lock L = Some t) then set_lock None L else L.

(** [listEmpty->Wait(lock)], up to the sleep. *)
Definition Wait t L : SynchList := Release t (set_sleepers (Seq.Append t (listEmpty L)) L).

Definition Signal L : SynchList := set_sleepers (Seq.Remove (listEmpty L)).2 L.

Definition is_free t L : bool := bool_decide (lock L = None) || bool_decide (lock L = Some t).

Definition asleep t L : bool := bool_decide (t ∈ Seq.items (listEmpty L)).

(** Whether [t], at [p], is not blocked. *)
Definition can_run t (p : place) L : bool :=
  match p with
  | Append_Acquire _ | Remove_Acquire => is_free t L
  | Remove_Wait => negb (asleep t L) && is_free t L
  | _ => true
  end.

Definition statement t (p : place) L : C (next * SynchList) :=
  match p with
  | Append_Acquire item => Ret (At (Append_Append item), set_lock (Some t) L)
  | Append_Append item => Ret (At Append_Signal, set_list (Seq.Append item (list_ L)) L)
  | Append_Signal => Ret (At Append_Release, Signal L)
  | Append_Release => Ret (Returned None, Release t L)
  | Remove_Acquire => Ret (At Remove_IsEmpty, set_lock (Some t) L)
  | Remove_IsEmpty => Ret (if Seq.IsEmpty (list_ L) then (At Remove_Wait, Wait t L) else (At Remove_Remove, L))
  | Remove_Wait => Ret (At Remove_IsEmpty, set_lock (Some t) L)
  | Remove_Remove =>
      let '(item, q) := Seq.Remove (list_ L) in
      match item with
      | Some item => Ret (At (Remove_Release item), set_list q L)
      | None => Abort  (* ASSERT(item != NULL) *)
      end
  | Remove_Release item => Ret (Returned (Some item), Release t L)
  end.

(** ** Executions *)

Notation Calls := (gmap positive place).

Inductive event :=
| Enter_Append t item
| Enter_Remove t
| Step t.

Definition proceed t (n : next) (calls : Calls) : Calls :=
  match n with At p => <[t := p]> calls | Returned _ => delete t calls end.

Definition exec (e : event) '((L, calls) : SynchList * Calls) : C (SynchList * Calls) :=
  match e with
  | Enter_Append t item => Ret (L, <[t := Append_Acquire item]> calls)
  | Enter_Remove t => Ret (L, <[t := Remove_Acquire]> calls)
  | Step t =>
      match calls !! t with
      | Some p => let! (n, L) := statement t p L in Ret (L, proceed t n calls)
      | None => Undef
      end
  end.

Definition enabled (e : event) '((L, calls) : SynchList * Calls) : bool :=
  match e with
  | Enter_Append t _ | Enter_Remove t => bool_decide (calls !! t = None)
  | Step t => match calls !! t with Some p => can_run t p L | None => false end
  end.

Fixpoint run (es : list event) (st : SynchList * Calls) : C (SynchList * Calls) :=
  match es with [] => Ret st | e :: es => let! st := exec e st in run es st end.

Fixpoint happens (es : list event) (st : SynchList * Calls) : bool :=
  match es with
  | [] => true
  | e :: es => enabled e st && match exec e st with Ret st => happens es st | _ => true end
  end.

(** What a statement does to the queue: [Some (inl a)], [a] is put at its end;
    [Some (inr a)], [a] is taken from its front. *)
Definition effect (p : place) L : option (A + A) :=
  match p with
  | Append_Append item => Some (inl item)
  | Remove_Remove => inr <$> (Seq.Remove (list_ L)).1
  | _ => None
  end.
(** ** The invariant *)

(** The places where the caller has the lock. *)
Definition inside (p : place) : bool :=
  match p with Append_Acquire _ | Remove_Acquire | Remove_Wait => false | _ => true end.

(** [t] is about to take an element, or to wake a thread that will. *)
Definition coming t L (calls : Calls) : Prop :=
  match calls !! t with
  | Some (Append_Signal | Remove_IsEmpty | Remove_Remove) => True
  | Some Remove_Wait => t ∉ Seq.items (listEmpty L)
  | _ => False
  end.

(** Every element has a thread of its own that comes for it. *)
Definition attended L (calls : Calls) : Prop :=
  exists ws, NoDup ws /\ (length (list_ L) <= length ws)%nat /\ Forall (fun t => coming t L calls) ws.

Record monitor L (calls : Calls) : Prop := {
  mo_lock : forall t, lock L = Some t -> exists p, calls !! t = Some p /\ inside p = true;
  mo_inside : forall t p, calls !! t = Some p -> inside p = true -> lock L = Some t;
  mo_nodup : NoDup (Seq.items (listEmpty L));
  mo_sleepers : forall t, t ∈ Seq.items (listEmpty L) -> calls !! t = Some Remove_Wait;
  mo_some : forall t, calls !! t = Some Remove_Remove -> list_ L <> [];
  mo_attended : listEmpty L = [] \/ attended L calls
}.

Lemma monitor_new : monitor new_SynchList ∅.
Proof. split; cbn; try done; [constructor | by intros t ?%elem_of_nil | by left]. Qed.

Lemma coming_other t u L L' (calls : Calls) o : t <> u -> listEmpty L' = listEmpty L ->
  coming t L calls -> coming t L' (partial_alter (fun _ => o) u calls).
Proof. intros Hne Hs. unfold coming. by rewrite lookup_partial_alter_ne, Hs by congruence. Qed.

(** A call that is not [coming] changes: the others still are. *)
Lemma attended_other u L L' (calls : Calls) o : ~ coming u L calls -> listEmpty L' = listEmpty L ->
  (length (list_ L') <= length (list_ L))%nat -> attended L calls -> attended L' (partial_alter (fun _ => o) u calls).
Proof.
  intros Hu Hs Hl (ws & Hn & Hw & Hc). exists ws. split; [done|]. split; [lia|].
  eapply Forall_impl; [exact Hc|]. intros t Ht. apply (coming_other t u L L'); [by intros -> | done..].
Qed.

(** A call that is [coming] stays so. *)
Lemma attended_same u L L' (calls : Calls) o : listEmpty L' = listEmpty L -> list_ L' = list_ L ->
  coming u L' (partial_alter (fun _ => o) u calls) -> attended L calls -> attended L' (partial_alter (fun _ => o) u calls).
Proof.
  intros Hs Hl Hu (ws & Hn & Hw & Hc). exists ws. split; [done|]. split; [by rewrite Hl|].
  eapply Forall_impl; [exact Hc|]. intros t Ht. destruct (decide (t = u)) as [->|]; [done|].
  by apply (coming_other t u L L').
Qed.
Definition outcome (n : next) : option place := match n with At p => Some p | Returned _ => None end.

Lemma proceed_alter t n calls : proceed t n calls = partial_alter (fun _ => outcome n) t calls.
Proof. by destruct n. Qed.

(** The thread that runs has the lock, or nobody has. *)
Lemma runner_lock t p L calls : monitor L calls -> calls !! t = Some p -> can_run t p L = true ->
  lock L = None \/ lock L = Some t.
Proof.
  intros M Ht Hr. destruct (inside p) eqn:Hi; [right; by eapply mo_inside|].
  assert (is_free t L = true) as Hf by (destruct p; cbn in *; try done; by apply andb_true_iff in Hr as [_ ?]).
  unfold is_free in Hf. repeat case_bool_decide; naive_solver.
Qed.

(** A sleeper is not the thread that runs. *)
Lemma runner_awake t p L calls : monitor L calls -> calls !! t = Some p -> can_run t p L = true ->
  t ∉ Seq.items (listEmpty L).
Proof.
  intros M Ht Hr Hs. pose proof (mo_sleepers L calls M t Hs) as E. rewrite Ht in E. injection E as ->.
  cbn in Hr. apply andb_true_iff in Hr as [Hr _]. unfold asleep in Hr. by rewrite bool_decide_true in Hr.
Qed.

Definition lock_after t (o : option place) : option positive :=
  match o with Some p => if inside p then Some t else None | None => None end.

(** The invariant after a statement, from what the statement does to the members. *)
Lemma monitor_after t L L' calls o : monitor L calls -> lock L = None \/ lock L = Some t ->
  lock L' = lock_after t o -> (o = Some Remove_Remove -> list_ L' <> []) ->
  NoDup (Seq.items (listEmpty L')) ->
  (forall u, u ∈ Seq.items (listEmpty L') -> partial_alter (fun _ => o) t calls !! u = Some Remove_Wait) ->
  (listEmpty L' = [] \/ attended L' (partial_alter (fun _ => o) t calls)) ->
  monitor L' (partial_alter (fun _ => o) t calls).
Proof.
  intros M Hk Hk' Hs Hn Hw Ha. assert (forall u p, u <> t -> calls !! u = Some p -> inside p = true -> False) as Hout.
  { intros u p Hu Hp Hi. pose proof (mo_inside L calls M u p Hp Hi). destruct Hk; congruence. }
  split; [| | done | done | | done].
  - intros u Hu. rewrite Hk' in Hu. unfold lock_after in Hu. destruct o as [p|]; [|done]. destruct (inside p) eqn:Hi; [|done].
    injection Hu as <-. exists p. by rewrite lookup_partial_alter_eq.
  - intros u p Hu Hi. destruct (decide (u = t)) as [->|].
    + rewrite lookup_partial_alter_eq in Hu. subst o. rewrite Hk'. cbn. by rewrite Hi.
    + rewrite lookup_partial_alter_ne in Hu by done. by destruct (Hout u p).
  - intros u Hu. destruct (decide (u = t)) as [->|].
    + rewrite lookup_partial_alter_eq in Hu. by apply Hs.
    + rewrite lookup_partial_alter_ne in Hu by done. by destruct (Hout u Remove_Remove).
Qed.

Lemma length_filter_ne t (ws : list positive) : NoDup ws -> (length ws <= S (length (filter (fun u => u <> t) ws)))%nat.
Proof.
  induction 1 as [|u ws Hu _ IH]; [cbn; lia|]. rewrite filter_cons. case_decide as Hd; cbn [length]; [lia|].
  subst u. rewrite (filter_all (fun u => u <> t)); [lia|]. apply Forall_forall. intros u Hw ->. done.
Qed.

(** ** The statements *)

Section Statement.
Variables (t : positive) (p : place) (L : SynchList) (calls : Calls).
Context (M : monitor L calls) (Ht : calls !! t = Some p) (Hr : can_run t p L = true).

Lemma sleepers_others u o : u ∈ Seq.items (listEmpty L) -> partial_alter (fun _ => o) t calls !! u = Some Remove_Wait.
Proof using M Ht Hr.
  intros Hu. rewrite lookup_partial_alter_ne; [by apply (mo_sleepers L calls M)|].
  intros <-. by destruct (runner_awake t p L calls M Ht Hr).
Qed.

Lemma sleeping_attended : Seq.items (listEmpty L) <> [] -> attended L calls.
Proof using M. destruct (mo_attended L calls M) as [E|]; [by rewrite E | done]. Qed.

(** Statements that leave the sleepers and do not add to the list. *)
Lemma monitor_quiet L' o : lock L' = lock_after t o -> listEmpty L' = listEmpty L ->
  (o = Some Remove_Remove -> list_ L' <> []) ->
  (~ coming t L calls /\ (length (list_ L') <= length (list_ L))%nat \/
   list_ L' = list_ L /\ coming t L' (partial_alter (fun _ => o) t calls)) ->
  monitor L' (partial_alter (fun _ => o) t calls).
Proof using M Ht Hr.
  intros Hl Hs Hso Hc. apply (monitor_after t L); [done | by eapply runner_lock | done | done | | |].
  - rewrite Hs. apply M.
  - rewrite Hs. intros u. apply sleepers_others.
  - rewrite Hs. destruct (mo_attended L calls M) as [E|E]; [by left | right]. destruct Hc as [[Hc Hle]|[Hq Hc]].
    + by apply (attended_other t L).
    + by apply (attended_same t L).
Qed.

(** A thread that was [coming] takes the first element, or the lock. *)
Lemma monitor_served L' o : lock L' = lock_after t o -> listEmpty L' = listEmpty L -> o <> Some Remove_Remove ->
  (S (length (list_ L')) <= length (list_ L))%nat ->
  monitor L' (partial_alter (fun _ => o) t calls).
Proof using M Ht Hr.
  intros Hl Hs Hso Hlen. apply (monitor_after t L); [done | by eapply runner_lock | done | done | | |].
  - rewrite Hs. apply M.
  - rewrite Hs. intros u. apply sleepers_others.
  - rewrite Hs. destruct (mo_attended L calls M) as [E|(ws & Hn & Hle & Hc)]; [by left | right].
    exists (filter (fun u => u <> t) ws). split; [by apply NoDup_filter|]. split.
    + pose proof (length_filter_ne t ws Hn). lia.
    + apply Forall_forall. intros u [Hu Hw]%list_elem_of_filter. rewrite Forall_forall in Hc.
      apply (coming_other u t L L'); auto.
Qed.
End Statement.
(** What a statement does to the list. *)
Definition affects (p : place) L L' : Prop :=
  match effect p L with
  | None => list_ L' = list_ L
  | Some (inl item) => list_ L' = Seq.Append item (list_ L)
  | Some (inr item) => Seq.Remove (list_ L) = (Some item, list_ L')
  end.

Lemma items_remove_first {V} (q : list (Z * V)) : Seq.items (Seq.Remove q).2 = tail (Seq.items q).
Proof. by destruct q as [|[k v] q]. Qed.

Lemma elem_of_tail {V} (x : V) l : x ∈ tail l -> x ∈ l.
Proof. destruct l; [done|]. by right. Qed.

Lemma signal_sleepers L : Seq.items (listEmpty (Signal L)) = tail (Seq.items (listEmpty L)).
Proof. apply items_remove_first. Qed.

Lemma Release_holder t L : lock L = Some t -> Release t L = set_lock None L.
Proof. intros H. unfold Release. by rewrite bool_decide_true. Qed.

Lemma monitor_append t item L calls : monitor L calls -> calls !! t = Some (Append_Append item) ->
  monitor (set_list (Seq.Append item (list_ L)) L) (<[t := Append_Signal]> calls).
Proof.
  intros M Ht. assert (lock L = Some t) as Hl by (by eapply mo_inside).
  apply (monitor_after t L _ _ (Some Append_Signal)); [done | by right | done | done | apply M | | ].
  - intros u. by apply (sleepers_others t (Append_Append item) L calls M Ht eq_refl).
  - cbn. destruct (mo_attended L calls M) as [E|(ws & Hn & Hle & Hc)]; [by left | right]. exists (t :: ws).
    assert (t ∉ ws) as Hnt.
    { intros Hw. rewrite Forall_forall in Hc. specialize (Hc t Hw). unfold coming in Hc. by rewrite Ht in Hc. }
    split; [by constructor|]. split; [cbn; unfold Seq.Append; rewrite length_app; cbn; lia|].
    constructor; [unfold coming; by rewrite lookup_partial_alter_eq|]. eapply Forall_impl; [exact Hc|].
    intros u Hu. apply (coming_other u t L); [|done..]. intros ->. unfold coming in Hu. by rewrite Ht in Hu.
Qed.

(** The thread woken by Signal comes in place of the one that signals. *)
Lemma attended_signal t L calls : monitor L calls -> calls !! t = Some Append_Signal ->
  listEmpty (Signal L) = [] \/ attended (Signal L) (<[t := Append_Release]> calls).
Proof.
  intros M Ht. destruct (mo_attended L calls M) as [E|(ws & Hn & Hle & Hc)]; [left; cbn; by rewrite E|].
  pose proof (mo_nodup L calls M) as Hd. pose proof (mo_sleepers L calls M) as Hw.
  assert (forall u, u ∈ Seq.items (listEmpty (Signal L)) -> u ∈ Seq.items (listEmpty L)) as Hsub.
  { intros u. rewrite signal_sleepers. apply elem_of_tail. }
  destruct (listEmpty L) as [|[k w] q] eqn:Eq; [left; cbn; by rewrite Eq | right].
  assert (calls !! w = Some Remove_Wait) as Hww by (apply Hw; left).
  exists (w :: filter (fun u => u <> t) ws). rewrite Forall_forall in Hc. split; [|split].
  - constructor; [|by apply NoDup_filter]. intros [_ Hin]%list_elem_of_filter. specialize (Hc w Hin).
    unfold coming in Hc. rewrite Hww, Eq in Hc. apply Hc. left.
  - pose proof (length_filter_ne t ws Hn). cbn. lia.
  - apply Forall_cons. split.
    + unfold coming. rewrite lookup_insert_ne by congruence. rewrite Hww. cbn. rewrite Eq. cbn. by inversion_clear Hd.
    + apply Forall_forall. intros u [Hu Hin]%list_elem_of_filter. specialize (Hc u Hin). unfold coming in *.
      rewrite lookup_insert_ne by done. rewrite Eq in Hc. destruct (calls !! u) as [[]|]; try done. intros Hs. by apply Hc, Hsub.
Qed.

Lemma monitor_signal t L calls : monitor L calls -> calls !! t = Some Append_Signal ->
  monitor (Signal L) (<[t := Append_Release]> calls).
Proof.
  intros M Ht. assert (lock L = Some t) as Hl by (by eapply mo_inside).
  apply (monitor_after t L _ _ (Some Append_Release)); [done | by right | done | done | | |by apply attended_signal].
  - rewrite signal_sleepers. pose proof (mo_nodup L calls M) as Hn. destruct (Seq.items (listEmpty L)); [done|]. by inversion_clear Hn.
  - intros u Hu. rewrite signal_sleepers in Hu. apply elem_of_tail in Hu.
    by apply (sleepers_others t Append_Signal L calls M Ht eq_refl u (Some Append_Release)).
Qed.

Lemma monitor_wait t L calls : monitor L calls -> calls !! t = Some Remove_IsEmpty -> list_ L = [] ->
  monitor (Wait t L) (<[t := Remove_Wait]> calls).
Proof.
  intros M Ht Hq. assert (lock L = Some t) as Hl by (by eapply mo_inside).
  unfold Wait. rewrite Release_holder by done.
  apply (monitor_after t L _ _ (Some Remove_Wait)); [done | by right | done | done | | |right]; cbn [listEmpty set_lock set_sleepers].
  - rewrite Seq.items_Append. apply NoDup_app. split; [apply M|]. split; [|repeat constructor; by intros ?%elem_of_nil].
    intros u Hu ->%list_elem_of_singleton. pose proof (mo_sleepers L calls M t Hu). congruence.
  - intros u. rewrite Seq.items_Append. intros [Hu|Hu%list_elem_of_singleton]%elem_of_app.
    + by apply (sleepers_others t Remove_IsEmpty L calls M Ht eq_refl).
    + subst u. by rewrite lookup_partial_alter_eq.
  - exists []. split; [constructor|]. split; [cbn; rewrite Hq; cbn; lia | done].
Qed.

(** Every statement of a thread that is not blocked returns, keeps the invariant and
    does to the list what [effect] says. *)
Lemma statement_monitor t p L calls : monitor L calls -> calls !! t = Some p -> can_run t p L = true ->
  exists n L', statement t p L = Ret (n, L') /\ monitor L' (proceed t n calls) /\ affects p L L'.
Proof.
  intros M Ht Hr. pose proof (fun L' o => monitor_quiet t p L calls M Ht Hr L' o) as Hq.
  pose proof (mo_inside L calls M t p Ht) as Hi. pose proof (runner_awake t p L calls M Ht Hr) as Hw.
  assert (match p with Append_Signal | Remove_IsEmpty | Remove_Remove | Remove_Wait => True | _ => ~ coming t L calls end) as Hc.
  { unfold coming. rewrite Ht. destruct p; tauto. }
  destruct p; cbn [statement]; try (rewrite Release_holder by (by apply Hi)).
  - eexists _, _. split; [done|]. split; [|done]. apply (Hq _ (Some (Append_Append item))); auto.
  - eexists _, _. split; [done|]. split; [by apply monitor_append | done].
  - eexists _, _. split; [done|]. split; [by apply monitor_signal | done].
  - eexists _, _. split; [done|]. split; [|done]. by apply (Hq _ None); auto.
  - eexists _, _. split; [done|]. split; [|done]. apply (Hq _ (Some Remove_IsEmpty)); auto.
  - destruct (list_ L) as [|e q] eqn:El; cbn [Seq.IsEmpty]; eexists _, _; (split; [done|]).
    + split; [by apply monitor_wait | unfold Wait; by rewrite Release_holder by (by apply Hi)].
    + split; [|done]. apply (Hq _ (Some Remove_Remove)); cbn; [by apply Hi | done | by rewrite El |].
      right. split; [done|]. unfold coming. by rewrite lookup_partial_alter_eq.
  - eexists _, _. split; [done|]. split; [|done]. apply (Hq _ (Some Remove_IsEmpty)); try done.
    right. split; [done|]. unfold coming. by rewrite lookup_partial_alter_eq.
  - pose proof (mo_some L calls M t Ht) as Hne. unfold affects, effect. destruct (list_ L) as [|[k a] q] eqn:El; [done|]. cbn.
    eexists _, _. split; [done|]. split; [|done].
    apply (monitor_served t Remove_Remove L calls M Ht Hr _ (Some (Remove_Release a))); cbn; [by apply Hi | done | done | rewrite El; cbn; lia].
  - eexists _, _. split; [done|]. split; [|done]. by apply (Hq _ None); auto.
Qed.

(** A call that begins. *)
Lemma monitor_enter t p L calls : monitor L calls -> calls !! t = None -> inside p = false -> p <> Remove_Wait ->
  monitor L (<[t := p]> calls).
Proof.
  intros M Ht Hi Hp. assert (forall u q, calls !! u = Some q -> <[t := p]> calls !! u = Some q) as Hkeep.
  { intros u q Hu. by rewrite lookup_insert_ne by congruence. }
  assert (forall u q, <[t := p]> calls !! u = Some q -> inside q = true -> calls !! u = Some q) as Hback.
  { intros u q Hu Hq. destruct (decide (t = u)) as [->|]; [|by rewrite lookup_insert_ne in Hu].
    rewrite lookup_insert_eq in Hu. congruence. }
  split.
  - intros u Hu. destruct (mo_lock L calls M u Hu) as (q & Hq & ?). eauto.
  - intros u q Hu Hq. eapply (mo_inside L calls M); eauto.
  - apply M.
  - intros u Hu. by apply Hkeep, (mo_sleepers L calls M).
  - intros u Hu. by eapply (mo_some L calls M), (Hback u).
  - destruct (mo_attended L calls M) as [|(ws & Hn & Hl & Hc)]; [by left | right]. exists ws. split; [done|]. split; [done|].
    eapply Forall_impl; [exact Hc|]. intros u. unfold coming. destruct (calls !! u) as [q|] eqn:Eu; [|done].
    by rewrite (Hkeep u q Eu).
Qed.

(** When no call can go on, all of them are removals asleep on an empty list. *)
Lemma stuck_empty L calls : monitor L calls -> (forall t p, calls !! t = Some p -> can_run t p L = false) ->
  forall t p, calls !! t = Some p -> p = Remove_Wait /\ asleep t L = true /\ list_ L = [].
Proof.
  intros M Hs t p Ht. assert (lock L = None) as Hl.
  { destruct (lock L) as [u|] eqn:El; [|done]. destruct (mo_lock L calls M u El) as (q & Hq & Hi).
    specialize (Hs u q Hq). unfold is_free in Hs. by destruct q. }
  assert (forall u, is_free u L = true) as Hf by (intros u; unfold is_free; by rewrite Hl).
  assert (forall u q, calls !! u = Some q -> q = Remove_Wait /\ asleep u L = true) as Ha.
  { intros u q Hq. pose proof (Hs u q Hq) as H. destruct q; cbn in H; rewrite ?Hf in H; try done. by destruct (asleep u L). }
  destruct (Ha t p Ht) as [-> Hat]. split; [done|]. split; [done|].
  assert (t ∈ Seq.items (listEmpty L)) as Hin by (unfold asleep in Hat; by case_bool_decide).
  destruct (mo_attended L calls M) as [E|(ws & _ & Hle & Hc)]; [rewrite E in Hin; by apply elem_of_nil in Hin|].
  destruct ws as [|u ws]; [destruct (list_ L); [done | cbn in Hle; lia]|]. apply Forall_cons in Hc as [Hu _]. unfold coming in Hu.
  destruct (calls !! u) as [q|] eqn:Eq; [|done]. destruct (Ha u q Eq) as [-> Has].
  destruct Hu. unfold asleep in Has. by case_bool_decide.
Qed.
(** ** What the callers see *)

(** The elements that the Append statements put into the list, in order: those that
    the callers gave as arguments, [args]. *)
Fixpoint appended (es : list event) (args : gmap positive A) (st : SynchList * Calls) : list A :=
  match es with
  | [] => []
  | e :: es =>
      let args := match e with Enter_Append t item => <[t := item]> args | _ => args end in
      let now := match e with
        | Step t => match st.2 !! t with Some (Append_Append _) => option_list (args !! t) | _ => [] end
        | _ => [] end in
      match exec e st with Ret st => now ++ appended es args st | _ => now end
  end.

(** The calls that returned, with the thread and the value returned. *)
Fixpoint returned (es : list event) (st : SynchList * Calls) : list (positive * option A) :=
  match es with
  | [] => []
  | e :: es =>
      let now := match e with
        | Step t => match (fun p => statement t p st.1) <$> st.2 !! t with Some (Ret (Returned r, _)) => [(t, r)] | _ => [] end
        | _ => [] end in
      match exec e st with Ret st => now ++ returned es st | _ => now end
  end.

(** The elements that were returned, and the one that the thread with the lock has
    removed and not returned yet. *)
Definition results (l : list (positive * option A)) : list A := omap snd l.

Definition removed L (calls : Calls) : list A :=
  match lock L with
  | Some t => match calls !! t with Some (Remove_Release item) => [item] | _ => [] end
  | None => []
  end.

(** The element a call of Append carries is the argument of the caller. *)
Definition carried (args : gmap positive A) (calls : Calls) : Prop :=
  forall t item, calls !! t = Some (Append_Acquire item) \/ calls !! t = Some (Append_Append item) ->
    args !! t = Some item.

(** A statement leads from a call of Append to the same call, with the same element. *)
Lemma statement_carries t p L n L' item : statement t p L = Ret (n, L') ->
  n = At (Append_Acquire item) \/ n = At (Append_Append item) -> p = Append_Acquire item.
Proof.
  intros H Hn. destruct p; cbn in H; repeat case_match; naive_solver.
Qed.

Lemma carried_step args calls t p L n L' : carried args calls -> calls !! t = Some p ->
  statement t p L = Ret (n, L') -> carried args (proceed t n calls).
Proof.
  intros Hc Ht Hst u item Hu. rewrite proceed_alter in Hu. destruct (decide (u = t)) as [->|].
  - rewrite lookup_partial_alter_eq in Hu. apply Hc. left. rewrite Ht. f_equal.
    apply (statement_carries _ _ _ _ _ _ Hst). destruct n; cbn in Hu; [|naive_solver]. destruct Hu; [left|right]; congruence.
  - rewrite lookup_partial_alter_ne in Hu by done. by apply Hc.
Qed.

Lemma carried_enter args args' calls t p : carried args calls ->
  (forall item, p = Append_Acquire item \/ p = Append_Append item -> args' !! t = Some item) ->
  (forall u, u <> t -> args' !! u = args !! u) -> carried args' (<[t := p]> calls).
Proof.
  intros Hc Hp Hu u item H. destruct (decide (u = t)) as [->|].
  - rewrite lookup_insert_eq in H. apply Hp. naive_solver.
  - rewrite lookup_insert_ne in H by done. rewrite Hu by done. by apply Hc.
Qed.

(** The queue after a statement: what it put at the end, what it returned, and what
    is on its way back to a caller. *)
Lemma statement_queue t p L calls n L' : monitor L calls -> calls !! t = Some p -> can_run t p L = true ->
  statement t p L = Ret (n, L') ->
  removed L calls ++ Seq.items (list_ L) ++ match p with Append_Append item => [item] | _ => [] end
  = match n with Returned (Some item) => [item] | _ => [] end ++ removed L' (proceed t n calls) ++ Seq.items (list_ L').
Proof.
  intros M Ht Hr Hst. pose proof (mo_inside L calls M t p Ht) as Hi.
  assert (inside p = false -> removed L calls = []) as Hout.
  { intros Hp. unfold removed. destruct (runner_lock t p L calls M Ht Hr) as [-> | ->]; [done|]. rewrite Ht. by destruct p. }
  assert (inside p = true -> removed L calls = match p with Remove_Release item => [item] | _ => [] end) as Hin.
  { intros Hp. unfold removed. by rewrite (Hi Hp), Ht. }
  destruct p; cbn [inside] in *; rewrite ?Hout, ?Hin by done; cbn [statement] in Hst;
    try (injection Hst as <- <-); rewrite ?Release_holder by (by apply Hi);
    unfold removed, proceed, set_lock, set_list; cbn [lock list_ app]; rewrite ?Hi by done;
    rewrite ?lookup_insert_eq; rewrite ?app_nil_r; try done.
  - by rewrite Seq.items_Append.
  - unfold Signal. cbn. by rewrite Hi, lookup_insert_eq.
  - destruct (list_ L) as [|e q] eqn:El; cbn [Seq.IsEmpty] in Hst; injection Hst as <- <-.
    + unfold Wait. rewrite Release_holder by (by apply Hi). cbn. by rewrite El.
    + by rewrite Hi, lookup_insert_eq, El.
  - destruct (list_ L) as [|[k a] q]; cbn in Hst; [done|]. injection Hst as <- <-. cbn.
    by rewrite Hi, lookup_insert_eq.
Qed.

Lemma removed_enter t p L calls : monitor L calls -> calls !! t = None -> removed L (<[t := p]> calls) = removed L calls.
Proof.
  intros M Ht. unfold removed. destruct (lock L) as [u|] eqn:El; [|done].
  destruct (mo_lock L calls M u El) as (q & Hq & _). by rewrite lookup_insert_ne by congruence.
Qed.

(** ** Executions *)

Lemma run_queue es args L calls : monitor L calls -> carried args calls -> happens es (L, calls) = true ->
  exists L' calls', run es (L, calls) = Ret (L', calls') /\ monitor L' calls' /\
    removed L calls ++ Seq.items (list_ L) ++ appended es args (L, calls)
    = results (returned es (L, calls)) ++ removed L' calls' ++ Seq.items (list_ L').
Proof.
  revert args L calls. induction es as [|e es IH]; intros args L calls M Hc Hh.
  { exists L, calls. split; [done|]. split; [done|]. cbn. by rewrite app_nil_r. }
  cbn [happens] in Hh. apply andb_true_iff in Hh as [He Hh]. destruct e as [t item|t|t]; cbn [enabled] in He.
  - apply bool_decide_eq_true in He. cbn [exec run appended returned] in *.
    destruct (IH (<[t := item]> args) L (<[t := Append_Acquire item]> calls)) as (L' & calls' & Hr & M' & Hq); [by apply monitor_enter| |done|].
    { apply (carried_enter args); [done | intros ? [[= <-]|?]; [by rewrite lookup_insert_eq | done] |]. intros. by rewrite lookup_insert_ne. }
    rewrite removed_enter in Hq by done. by exists L', calls'.
  - apply bool_decide_eq_true in He. cbn [exec run appended returned] in *.
    destruct (IH args L (<[t := Remove_Acquire]> calls)) as (L' & calls' & Hr & M' & Hq); [by apply monitor_enter| |done|].
    { apply (carried_enter args); naive_solver. }
    rewrite removed_enter in Hq by done. by exists L', calls'.
  - destruct (calls !! t) as [p|] eqn:Ht; [|done]. cbn [exec run appended returned snd fst] in *. rewrite Ht in *. cbn [fmap option_fmap option_map].
    destruct (statement_monitor t p L calls M Ht He) as (n & L1 & Hst & M1 & _). rewrite Hst in *. cbn [bind] in *.
    destruct (IH args L1 (proceed t n calls)) as (L' & calls' & Hrun & M' & Hq); [done | by eapply carried_step | done |].
    exists L', calls'. split; [done|]. split; [done|]. unfold results in *. rewrite omap_app, <- (app_assoc (omap snd _)), <- Hq.
    pose proof (statement_queue t p L calls n L1 M Ht He Hst) as HQ.
    replace (match p with Append_Append _ => option_list (args !! t) | _ => [] end)
      with (match p with Append_Append item => [item] | _ => [] end)
      by (destruct p; try done; by rewrite (Hc t item) by (right; done)).
    replace (omap snd (match n with Returned r => [(t, r)] | At _ => [] end))
      with (match n with Returned (Some item) => [item] | _ => [] end) by (by destruct n as [|[]]).
    rewrite (app_assoc (Seq.items _)), (app_assoc (removed L calls)), HQ, <- !app_assoc. done.
Qed.
End SynchList.

Arguments SynchList : clear implicits.
Arguments place : clear implicits.
Arguments next : clear implicits.
Arguments event : clear implicits.


(** ** Two threads wait, a third appends *)

Module Demo.

Definition meeting : list (event nat) :=
  [Enter_Remove 1; Step 1; Step 1; Enter_Remove 2; Step 2; Step 2;
   Enter_Append 3 7%nat; Step 3; Step 3; Step 3; Step 3; Step 1; Step 1; Step 1; Step 1].

End Demo.
