(* ===== verification/Network.v ===== *)
(** * The network device (machine/network.h, machine/network.cc)

    A device sends and receives packets of fixed size over UNIX datagram sockets:
    one socket per machine, whose waiting datagrams are part of the device's state
    here. It polls the socket with an interrupt that schedules itself again, and
    tells the owner with another one when the next packet can be sent. Packets may
    be lost on purpose; the chance is a C++ double, of IEEE format. *)

From S2P Require Import Prelude NachosList Interrupt Clock Machine Disk Ints.
From Stdlib Require Import SpecFloat.

(** ** Doubles *)

Notation double := spec_float.

Definition double_of (z : Z) : double := binary_normalize 53 1024 z 0 false.
Definition double_mul (x y : double) : double := SFmul 53 1024 x y.

(** ** Packets *)

Record PacketHeader := mkPacketHeader {
  p_to : Z;
  p_from : Z;
  p_length : Z
}.

Definition set_p_length n h := mkPacketHeader (p_to h) (p_from h) n.

Definition sizeof_PacketHeader : Z := 12.
Definition MaxWireSize : Z := 64.
Definition MaxPacketSize : Z := MaxWireSize - sizeof_PacketHeader.

(** The two handlers that are scheduled. *)
Inductive net_handler := NetworkReadPoll | NetworkSendDone.

(** The members of class Network that are used, and the datagrams that wait at its
    socket. *)
Record Network := mkNetwork {
  ident : Z;
  chanceToWork : double;
  sock : list (list Z);
  sendBusy : bool;
  inHdr : PacketHeader;
  inbox : list Z
}.

Definition set_sock q N := mkNetwork (ident N) (chanceToWork N) q (sendBusy N) (inHdr N) (inbox N).
Definition set_busy b N := mkNetwork (ident N) (chanceToWork N) (sock N) b (inHdr N) (inbox N).
Definition set_inHdr h N := mkNetwork (ident N) (chanceToWork N) (sock N) (sendBusy N) h (inbox N).
Definition set_inbox bs N := mkNetwork (ident N) (chanceToWork N) (sock N) (sendBusy N) (inHdr N) bs.

Definition count_packets (sent recvd : Z) (st : Statistics) : Statistics :=
  mkStats (totalTicks st) (idleTicks st) (systemTicks st) (userTicks st) (numDiskReads st)
    (numDiskWrites st) (numConsoleCharsRead st) (numConsoleCharsWritten st)
    (numPageFaults st) (numPacketsSent st + sent) (numPacketsRecvd st + recvd).

(** ** UNIX sockets (machine/sysdep.cc)

    The name of a socket is SOCKET_ and the address of the machine, so that the
    address stands for it. *)

(** recvfrom takes the first datagram, cut off at [packetSize]. *)
Definition ReadFromSocket (packetSize : Z) (q : list (list Z)) : C (list Z * list (list Z)) :=
  match q with
  | [] => Undef
  | d :: q =>
      let bs := take (Z.to_nat packetSize) d in
      let! _ := ASSERT (Z.of_nat (length bs) =? packetSize) in Ret (bs, q)
  end.

(** [bound]: whether a socket has the name. *)
Definition SendToSocket (bound : Z -> bool) (buffer : list Z) (toName : Z) : bool * option (Z * list Z) :=
  if bound toName then (true, Some (toName, buffer)) else (false, None).

Section Device.
Variable big : bool.
Variable newmem : Z -> list Z.  (* what [new char[n]] returns *)
Notation State := (IState net_handler).

Definition packet_bytes (h : PacketHeader) : list Z := ints_bytes big [p_to h; p_from h; p_length h].

Definition packet_header_of (bs : list Z) : PacketHeader :=
  match ints_of big bs with [a; b; n] => mkPacketHeader a b (u32 n) | _ => mkPacketHeader 0 0 0 end.

(** The constructor; [garbage] is the object before. *)
Definition new_Network (addr : Z) (reliability : double) (garbage : Network) (s : State) : C (Network * State) :=
  let chance :=
    if SFltb reliability (double_of 0) then double_of 0
    else if SFltb (double_of 1) reliability then double_of 1
    else reliability in
  let N := mkNetwork addr chance [] false (set_p_length 0 (inHdr garbage)) (inbox garbage) in
  let! s := Schedule NetworkReadPoll 0 NetworkTime NetworkRecvInt s in
  Ret (N, s).

(** [readHandler]: what the owner does, on its state. *)
Definition CheckPktAvail {St : Type} (readHandler : St -> C St) '((N, s, st) : Network * State * St)
  : C (Network * State * St) :=
  let! s := Schedule NetworkReadPoll 0 NetworkTime NetworkRecvInt s in
  if negb (p_length (inHdr N) =? 0) then Ret (N, s, st)
  else if bool_decide (sock N = []) then Ret (N, s, st)
  else
    let! (buffer, q) := ReadFromSocket MaxWireSize (sock N) in
    let N := set_inHdr (packet_header_of (take 12 buffer)) (set_sock q N) in
    let! _ := ASSERT ((p_to (inHdr N) =? ident N) && (p_length (inHdr N) <=? MaxPacketSize)) in
    let! bs := copy_from buffer sizeof_PacketHeader (p_length (inHdr N)) in
    let! bs := copy_into (inbox N) 0 bs in
    let s := set_stats (count_packets 0 1 (stats s)) s in
    let! st := readHandler st in
    Ret (set_inbox bs N, s, st).

Definition SendDone {St : Type} (writeHandler : St -> C St) '((N, s, st) : Network * State * St)
  : C (Network * State * St) :=
  let N := set_busy false N in
  let s := set_stats (count_packets 1 0 (stats s)) s in
  let! st := writeHandler st in Ret (N, s, st).

(** [Random() % 100 >= chanceToWork * 100] *)
Definition is_lost (random : Z) N : bool :=
  SFleb (double_mul (chanceToWork N) (double_of 100)) (double_of (Z.rem random 100)).

(** The datagram that leaves, if one does, is returned. *)
Definition Send (bound : Z -> bool) (random : Z) (hdr : PacketHeader) (data : list Z) '((N, s) : Network * State)
  : C (bool * option (Z * list Z) * State) :=
  let! _ := ASSERT (negb (sendBusy N) && (0 <? p_length hdr) && (p_length hdr <=? MaxPacketSize)
                    && (p_from hdr =? ident N)) in
  let! s := Schedule NetworkSendDone 0 NetworkTime NetworkSendInt s in
  if is_lost random N then Ret (true, None, s)
  else
    let buffer := newmem MaxWireSize in
    let! buffer := copy_into buffer 0 (packet_bytes hdr) in
    let! bs := copy_from data 0 (p_length hdr) in
    let! buffer := copy_into buffer sizeof_PacketHeader bs in
    Ret (SendToSocket bound buffer (p_to hdr), s).

Definition Receive (data : list Z) (N : Network) : C (PacketHeader * list Z * Network) :=
  let hdr := inHdr N in
  let N := set_inHdr (set_p_length 0 (inHdr N)) N in
  if negb (p_length hdr =? 0) then
    let! bs := copy_from (inbox N) 0 (p_length hdr) in
    let! data := copy_into data 0 bs in Ret (hdr, data, N)
  else Ret (hdr, data, N).
End Device.

(** ** Lemmas *)

(** With the default reliability, 1, no packet is lost. *)
Lemma reliable N random : chanceToWork N = double_of 1 -> 0 <= random -> is_lost random N = false.
Proof.
  intros Hc Hr. unfold is_lost. rewrite Hc.
  assert (forallb (fun n => negb (SFleb (double_mul (double_of 1) (double_of 100)) (double_of (Z.of_nat n)))) (seq 0 100) = true) as H
    by (vm_compute; reflexivity).
  rewrite forallb_forall in H. specialize (H (Z.to_nat (Z.rem random 100))).
  rewrite Z2Nat.id in H by (apply Z.rem_nonneg; lia).
  apply negb_true_iff, H, in_seq. pose proof (Z.rem_bound_pos random 100 Hr ltac:(lia)). lia.
Qed.

Definition is_packet_header (h : PacketHeader) : Prop := is_i32 (p_to h) /\ is_i32 (p_from h) /\ 0 <= p_length h < 2^31.

Lemma length_packet_bytes big h : length (packet_bytes big h) = 12%nat.
Proof. apply length_ints_bytes. Qed.

Lemma packet_header_roundtrip big h : is_packet_header h -> packet_header_of big (packet_bytes big h) = h.
Proof.
  intros (Ht & Hf & Hl). pose proof (ints_roundtrip big [p_to h; p_from h; p_length h] []) as E. rewrite app_nil_r in E.
  unfold packet_header_of, packet_bytes. rewrite E; [|repeat constructor; unfold is_i32 in *; lia | done].
  destruct h as [a b n]. cbn in *. by rewrite u32_small by (unfold is_u32; lia).
Qed.
