(* ===== verification/Startup.v ===== *)
(** * Start-up and the command line (threads/main.cc, threads/system.cc,
      threads/utility.cc)

    Initialize and main each go through the whole command line, and each takes the
    options it knows. What they do then is calls of the other components, in an order
    that the code fixes; here they are a list of calls. The theorem says what a
    command line means. Cleanup is what happens at the end. *)

From Stdlib Require Import Ascii.
From stdpp Require Import pretty.
From S2P Require Import Prelude BitMap Machine Disk Network FileSys FsTest.

(** The macros of the Makefiles. *)
Record Build := mkBuild { THREADS : bool; USER_PROGRAM : bool; FILESYS_NEEDED : bool; FILESYS : bool; NETWORK : bool }.

Definition network_build : Build := mkBuild false true true false true.
Definition filesys_build : Build := mkBuild true true true true false.

(** ** Calls *)

Inductive value := Num (n : Z) | Text (s : string) | Flag (b : bool) | Real (d : double).

(** [New x T args] is [x = new T(args)], [On x f args] is [x->f(args)]. *)
Inductive Call :=
| RandomInit (seed : Z)
| DebugInit (flagList : string)
| New (variable type : string) (args : list value)
| On (variable method : string) (args : list value)
| CallOnUserAbort
| Copyright
| TestSuite
| Part2
| StartProcess (filename : string)
| ConsoleTest (files : option (string * string))
| FileCommand (c : command)
| Delay (seconds : Z)
| MailTest (networkID : Z)
| Server
| Delete (variable : string)
| Exit (code : Z).

(** The calls so far, and how the code goes on: with a value, not at all since the
    last call has not returned, or not at all since an assertion has failed. *)
Inductive outcome (A : Type) := Value (a : A) | Away | Aborted.
Arguments Value {A} _.
Arguments Away {A}.
Arguments Aborted {A}.

Definition W (A : Type) : Type := list Call * outcome A.

Definition ret {A} (a : A) : W A := ([], Value a).
Definition aborted {A} : W A := ([], Aborted).
Definition seq {A B} (m : W A) (f : A -> W B) : W B :=
  match m.2 with
  | Value a => (m.1 ++ (f a).1, (f a).2)
  | Away => (m.1, Away)
  | Aborted => (m.1, Aborted)
  end.

Declare Scope start_scope.
Delimit Scope start_scope with start.
Notation "x <-- m ;; k" := (seq m (fun x => k)) (at level 62, m at next level, right associativity) : start_scope.
Notation "m ;;; k" := (seq m (fun _ => k)) (at level 62, right associativity) : start_scope.
Local Open Scope start_scope.

(** ** The C library *)

Definition is_space (c : Ascii.ascii) : bool := let n := Ascii.nat_of_ascii c in ((9 <=? n) && (n <=? 13) || (n =? 32))%nat.
Definition digit (c : Ascii.ascii) : option Z :=
  let n := Z.of_N (Ascii.N_of_ascii c) - 48 in if (0 <=? n) && (n <=? 9) then Some n else None.

Fixpoint digits (s : string) (n : Z) : Z :=
  match s with
  | String c s => match digit c with Some d => digits s (10 * n + d) | None => n end
  | EmptyString => n
  end.

Fixpoint atoi (s : string) : Z :=
  match s with
  | String c s' =>
      if is_space c then atoi s'
      else if Ascii.eqb c "-"%char then i32 (- digits s' 0)
      else if Ascii.eqb c "+"%char then i32 (digits s' 0)
      else i32 (digits s 0)
  | EmptyString => 0
  end.

(** ** Debugging output (utility.cc) *)

Fixpoint strchr (s : string) (c : Ascii.ascii) : bool :=
  match s with
  | EmptyString => Ascii.eqb c "000"%char
  | String d s => Ascii.eqb d c || strchr s c
  end.

(** [enableFlags], set by DebugInit; [None] is [NULL]. *)
Definition DebugIsEnabled (enableFlags : option string) (flag : Ascii.ascii) : bool :=
  match enableFlags with Some flags => strchr flags flag || strchr flags "+"%char | None => false end.

(** ** Initialize *)

(** The variables that the options set. *)
Record Settings := mkSettings {
  debugArgs : string;
  randomYield : bool;
  PRand : bool;
  numServers : Z;
  serverID : Z;
  debugUserProg : bool;
  format : bool;
  rely : double;
  netname : Z
}.

Definition set_debugArgs x s := mkSettings x (randomYield s) (PRand s) (numServers s) (serverID s) (debugUserProg s) (format s) (rely s) (netname s).
Definition set_randomYield s := mkSettings (debugArgs s) true (PRand s) (numServers s) (serverID s) (debugUserProg s) (format s) (rely s) (netname s).
Definition set_PRand s := mkSettings (debugArgs s) (randomYield s) true (numServers s) (serverID s) (debugUserProg s) (format s) (rely s) (netname s).
Definition set_numServers x s := mkSettings (debugArgs s) (randomYield s) (PRand s) x (serverID s) (debugUserProg s) (format s) (rely s) (netname s).
Definition set_debugUserProg s := mkSettings (debugArgs s) (randomYield s) (PRand s) (numServers s) (serverID s) true (format s) (rely s) (netname s).
Definition set_format s := mkSettings (debugArgs s) (randomYield s) (PRand s) (numServers s) (serverID s) (debugUserProg s) true (rely s) (netname s).
Definition set_rely x s := mkSettings (debugArgs s) (randomYield s) (PRand s) (numServers s) (serverID s) (debugUserProg s) (format s) x (netname s).
Definition set_netname x s := mkSettings (debugArgs s) (randomYield s) (PRand s) (numServers s) x (debugUserProg s) (format s) (rely s) x.

Definition no_settings : Settings := mkSettings "" false false 1 0 false false (double_of 1) 0.

(** The loop over the arguments: [turn] looks at the first ones and says how many it
    has used. *)
Fixpoint arguments {S} (turn : list string -> S -> W (nat * S)) (n : nat) (argv : list string) (s : S) : W S :=
  match n, argv with
  | Datatypes.S n, _ :: _ =>
      r <-- turn argv s;; let '(argCount, s) := r in arguments turn n (drop argCount argv) s
  | _, _ => ret s
  end.

(** [ASSERT(argc > 1)], and the second argument. *)
Definition operand (argv : list string) : W string := match argv with _ :: x :: _ => ret x | _ => aborted end.

Section Code.
Variable B : Build.

(** Whether a call returns, whether a file can be opened; atof of the C library. *)
Variable returns : Call -> bool.
Variable opens : string -> bool.
Variable atof : string -> double.

Definition call (c : Call) : W () := ([c], if returns c then Value () else Away).

Fixpoint calls (cs : list Call) : W () :=
  match cs with [] => ret () | c :: cs => call c;;; calls cs end.

Definition init_general (arg : string) (argv : list string) (s : Settings) : W (nat * Settings) :=
  if String.eqb arg "-d" then
    match argv with
    | _ :: x :: _ => ret (2%nat, set_debugArgs x s)
    | _ => ret (1%nat, set_debugArgs "+" s)
    end
  else if String.eqb arg "-rs" then x <-- operand argv;; call (RandomInit (atoi x));;; ret (2%nat, set_randomYield s)
  else if String.eqb arg "-P" then x <-- operand argv;; ret (1%nat, if String.eqb x "RAND" then set_PRand s else s)
  else if String.eqb arg "-ns" then x <-- operand argv;; ret (2%nat, set_numServers (atoi x) s)
  else ret (1%nat, s).

Definition init_network (arg : string) (argv : list string) (argCount : nat) (s : Settings) : W (nat * Settings) :=
  if String.eqb arg "-l" then x <-- operand argv;; ret (2%nat, set_rely (atof x) s)
  else if String.eqb arg "-m" then x <-- operand argv;; ret (2%nat, set_netname (atoi x) s)
  else ret (argCount, s).

Definition init_turn (argv : list string) (s : Settings) : W (nat * Settings) :=
  let arg := hd "" argv in
  r <-- init_general arg argv s;;
  let '(argCount, s) := r in
  let s := if USER_PROGRAM B && String.eqb arg "-s" then set_debugUserProg s else s in
  let s := if FILESYS_NEEDED B && String.eqb arg "-f" then set_format s else s in
  if NETWORK B then init_network arg argv argCount s else ret (argCount, s).

Definition new_lock (variable title : string) : Call := New variable "Lock" [Text title].

(** The first objects, up to the swap file. *)
Definition first_objects (s : Settings) : list Call :=
  [DebugInit (debugArgs s); New "stats" "Statistics" []; New "interrupt" "Interrupt" []; New "scheduler" "Scheduler" []] ++
  (if randomYield s then [New "timer" "Timer" [Flag true]] else []) ++
  [New "kernelLockTable" "vector" []; new_lock "kernelLockLock" "Kernel Lock Lock";
   New "kernelCVTable" "vector" []; new_lock "kernelCVLock" "Kernel CV Lock";
   New "mainMemoryBitMap" "BitMap" [Num NumPhysPages]; new_lock "bitMapLock" "BitMap Lock";
   New "processTable" "vector" []; new_lock "processLock" "Process Table Lock";
   New "IPT" "IPTEntry" [Num NumPhysPages]; new_lock "IPTLock" "IPT Lock";
   new_lock "outputLock" "Output Lock"; new_lock "TLBLock" "TLB Lock"].

Definition swapName (s : Settings) : string := "swapFile" +:+ pretty (netname s).

(** A swap file that is there is replaced. *)
Definition swap_file (s : Settings) : list Call :=
  let Open := On "fileSystem" "Open" [Text (swapName s)] in
  let Create := On "fileSystem" "Create" [Text (swapName s); Num 0] in
  let Remove := On "fileSystem" "Remove" [Text (swapName s)] in
  if opens (swapName s) then [Open; Remove; Create; Open] else [Open; Create; Open].

Definition last_objects (s : Settings) : list Call :=
  [New "swapFileBitMap" "BitMap" [Num 4096]; new_lock "swapFileLock" "Swap File Lock"; new_lock "mailBoxLock" "Mail Box Lock";
   New "currentThread" "Thread" [Text "main"; Num 0]; On "currentThread" "setStatus" [Text "RUNNING"];
   On "interrupt" "Enable" []; CallOnUserAbort] ++
  (if USER_PROGRAM B then [New "machine" "Machine" [Flag (debugUserProg s)]] else []) ++
  (if FILESYS B then [New "synchDisk" "SynchDisk" [Text "DISK"]] else []) ++
  (if FILESYS_NEEDED B then [New "fileSystem" "FileSystem" [Flag (format s)]] else []) ++
  (if NETWORK B then [New "postOffice" "PostOffice" [Num (netname s); Real (rely s); Num 10]] else []).

Definition objects (s : Settings) : list Call := first_objects s ++ swap_file s ++ last_objects s.

Definition Initialize (argv : list string) : W Settings :=
  let argv := tail argv in
  s <-- arguments init_turn (length argv) argv no_settings;;
  calls (objects s);;; ret s.

(** ** main *)

Definition c_chars (s : string) : list Z := chars s ++ [0].

Definition main_threads (arg : string) : W () :=
  (if String.eqb arg "-T" then call TestSuite else ret ());;;
  (if String.eqb arg "-P2" then call Part2 else ret ()).

Definition main_user (arg : string) (argv : list string) (argCount : nat) : W nat :=
  if String.eqb arg "-x" then x <-- operand argv;; call (StartProcess x);;; ret 2%nat
  else if String.eqb arg "-c" then
    n <-- match argv with
          | [_] => call (ConsoleTest None);;; ret argCount
          | _ :: x :: y :: _ => call (ConsoleTest (Some (x, y)));;; ret 3%nat
          | _ => aborted
          end;;
    call (On "interrupt" "Halt" []);;; ret n
  else ret argCount.

Definition main_files (arg : string) (argv : list string) (argCount : nat) : W nat :=
  if String.eqb arg "-cp" then
    match argv with
    | _ :: x :: y :: _ => call (FileCommand (Cp (c_chars x) (c_chars y)));;; ret 3%nat
    | _ => aborted
    end
  else if String.eqb arg "-p" then x <-- operand argv;; call (FileCommand (Show_file (c_chars x)));;; ret 2%nat
  else if String.eqb arg "-r" then x <-- operand argv;; call (FileCommand (Rm (c_chars x)));;; ret 2%nat
  else if String.eqb arg "-l" then call (FileCommand Ls);;; ret argCount
  else if String.eqb arg "-D" then call (FileCommand Dump);;; ret argCount
  else if String.eqb arg "-t" then call (FileCommand Perf);;; ret argCount
  else ret argCount.

Definition main_network (arg : string) (argv : list string) (argCount : nat) : W nat :=
  n <-- (if String.eqb arg "-o" then
           x <-- operand argv;; call (Delay 2);;; call (MailTest (atoi x));;; ret 2%nat
         else ret argCount);;
  (if String.eqb arg "-server" then call Server else ret ());;;
  ret n.

Definition main_turn (argv : list string) (_ : ()) : W (nat * ()) :=
  let arg := hd "" argv in
  (if String.eqb arg "-z" then call Copyright else ret ());;;
  (if THREADS B then main_threads arg else ret ());;;
  n <-- (if USER_PROGRAM B then main_user arg argv 1 else ret 1%nat);;
  n <-- (if FILESYS B then main_files arg argv n else ret n);;
  n <-- (if NETWORK B then main_network arg argv n else ret n);;
  ret (n, ()).

Definition Finish : Call := On "currentThread" "Finish" [].

Definition main (argv : list string) : W () :=
  Initialize argv;;;
  arguments main_turn (length (tail argv)) (tail argv) ();;;
  call Finish.

(** ** Cleanup

    [locks_] and [cvs]: for each entry of the tables, whether it has an object. *)
Definition delete_entries (table member : string) (entries : list bool) : list Call :=
  concat ((fun b : bool => (if b then [Delete (table +:+ "->" +:+ member)] else []) ++ [Delete table]) <$> entries).

Definition Cleanup (s : Settings) (locks_ cvs : list bool) : W () :=
  calls ((if NETWORK B then [Delete "postOffice"] else []) ++
    (if USER_PROGRAM B then [Delete "machine"] else []) ++
    (if FILESYS_NEEDED B then [Delete "fileSystem"] else []) ++
    (if FILESYS B then [Delete "synchDisk"] else []) ++
    [Delete "timer"; Delete "scheduler"; Delete "interrupt"] ++
    delete_entries "kernelLockTable" "lock" locks_ ++ [Delete "kernelLockTable"] ++
    delete_entries "kernelCVTable" "condition" cvs ++ [Delete "kernelCVTable"] ++
    (Delete <$> ["mainMemoryBitMap"; "bitMapLock"; "processTable"; "processLock"; "outputLock"; "swapFile"; "swapFileBitMap";
      "swapFileLock"; "mailBoxLock"]) ++
    [On "fileSystem" "Remove" [Text (swapName s)]; Exit 0]).
End Code.

(** ** Laws of the calls *)

Lemma seq_ret {A B} (a : A) (f : A -> W B) : seq (ret a) f = f a.
Proof. unfold seq. cbn. by destruct (f a). Qed.

Lemma seq_assoc {A B C'} (m : W A) (f : A -> W B) (g : B -> W C') : seq (seq m f) g = seq m (fun x => seq (f x) g).
Proof.
  destruct m as [cs [a| |]]; unfold seq; cbn; [|done..]. destruct (f a) as [cs' [b| |]]; cbn; [|done..].
  by rewrite app_assoc.
Qed.

Lemma seq_ext {A B} (m : W A) (f g : A -> W B) : (forall a, f a = g a) -> seq m f = seq m g.
Proof. intros H. unfold seq. destruct m as [cs [a| |]]; cbn; [by rewrite H | done..]. Qed.

Lemma calls_app returns xs ys : calls returns (xs ++ ys) = seq (calls returns xs) (fun _ => calls returns ys).
Proof. induction xs as [|c xs IH]; cbn [app calls]; [by rewrite seq_ret|]. rewrite seq_assoc. unfold seq at 1 3. by rewrite IH. Qed.

(** ** Command lines

    The options of the build with the network, as the usage comment lists them. *)

Inductive opt :=
| O_d (flags : string) | O_rs (n : string) | O_P (policy : string) | O_ns (n : string) | O_s | O_f
| O_l (reliability : string) | O_m (id : string)
| O_z | O_x (filename : string) | O_c (consoleIn consoleOut : string) | O_o (id : string) | O_server.

Definition operands (o : opt) : list string :=
  match o with
  | O_d x | O_rs x | O_P x | O_ns x | O_l x | O_m x | O_x x | O_o x => [x]
  | O_c x y => [x; y]
  | O_s | O_f | O_z | O_server => []
  end.

Definition flag (o : opt) : string :=
  match o with
  | O_d _ => "-d" | O_rs _ => "-rs" | O_P _ => "-P" | O_ns _ => "-ns" | O_s => "-s" | O_f => "-f" | O_l _ => "-l" | O_m _ => "-m"
  | O_z => "-z" | O_x _ => "-x" | O_c _ _ => "-c" | O_o _ => "-o" | O_server => "-server"
  end.

Definition words (o : opt) : list string := flag o :: operands o.

Definition flags_known : list string := ["-d"; "-rs"; "-P"; "-ns"; "-s"; "-f"; "-l"; "-m"; "-z"; "-x"; "-c"; "-o"; "-server"].

(** An operand is not an option itself. *)
Definition plain (x : string) : Prop := x ∉ flags_known.
Definition proper (o : opt) : Prop := Forall plain (operands o).

Section Meaning.
Variable returns : Call -> bool.
Variable opens : string -> bool.
Variable atof : string -> double.

Definition setting (s : Settings) (o : opt) : Settings :=
  match o with
  | O_d x => set_debugArgs x s
  | O_rs _ => set_randomYield s
  | O_P x => if String.eqb x "RAND" then set_PRand s else s
  | O_ns x => set_numServers (atoi x) s
  | O_s => set_debugUserProg s
  | O_f => set_format s
  | O_l x => set_rely (atof x) s
  | O_m x => set_netname (atoi x) s
  | _ => s
  end.

Definition settings (os : list opt) : Settings := foldl setting no_settings os.

Definition seeds (o : opt) : list Call := match o with O_rs x => [RandomInit (atoi x)] | _ => [] end.

Definition actions (o : opt) : list Call :=
  match o with
  | O_z => [Copyright]
  | O_x x => [StartProcess x]
  | O_c x y => [ConsoleTest (Some (x, y)); On "interrupt" "Halt" []]
  | O_o x => [Delay 2; MailTest (atoi x)]
  | O_server => [Server]
  | _ => []
  end.

Lemma plain_eqb x f : plain x -> f ∈ flags_known -> String.eqb x f = false.
Proof using. intros Hx Hf. apply String.eqb_neq. intros ->. by apply Hx. Qed.

Ltac plain_cases Hx := repeat rewrite (plain_eqb _ _ Hx) by (unfold flags_known; repeat first [left | right]).

(** Words that are not options are passed over. *)
Lemma init_plain x rest s : plain x -> init_turn network_build returns atof (x :: rest) s = ret (1%nat, s).
Proof using.
  intros Hx. unfold init_turn, init_general, init_network. cbn [hd network_build USER_PROGRAM FILESYS_NEEDED NETWORK].
  plain_cases Hx. cbn [andb]. by rewrite seq_ret.
Qed.

Lemma main_plain x rest : plain x -> main_turn network_build returns (x :: rest) () = ret (1%nat, ()).
Proof using.
  intros Hx. unfold main_turn, main_user, main_network. cbn [hd network_build THREADS USER_PROGRAM FILESYS NETWORK].
  plain_cases Hx. by rewrite !seq_ret.
Qed.

(** How many words of an option the two loops use at once. *)
Definition init_uses (o : opt) : nat := match o with O_d _ | O_rs _ | O_ns _ | O_l _ | O_m _ => 2 | _ => 1 end.
Definition main_uses (o : opt) : nat := match o with O_x _ | O_o _ => 2 | O_c _ _ => 3 | _ => 1 end.

Lemma init_option o rest s : init_turn network_build returns atof (words o ++ rest) s =
  seq (calls returns (seeds o)) (fun _ => ret (init_uses o, setting s o)).
Proof using.
  destruct o; try reflexivity. unfold init_turn, init_general. cbn. unfold call. by destruct (returns _).
Qed.

Lemma main_option o rest : main_turn network_build returns (words o ++ rest) () =
  seq (calls returns (actions o)) (fun _ => ret (main_uses o, ())).
Proof using.
  destruct o; try reflexivity; unfold main_turn, main_user, main_network; cbn; unfold call;
    repeat match goal with |- context [returns ?c] => destruct (returns c) end; reflexivity.
Qed.

(** *** The loops *)

Section Loop.
Context {S : Type} (turn : list string -> S -> W (nat * S)) (said : opt -> list Call) (uses : opt -> nat) (next : S -> opt -> S).
Hypothesis uses_some : forall o, (1 <= uses o <= length (words o))%nat.
Hypothesis turn_plain : forall x rest s, plain x -> turn (x :: rest) s = ret (1%nat, s).
Hypothesis turn_option : forall o rest s, turn (words o ++ rest) s = seq (calls returns (said o)) (fun _ => ret (uses o, next s o)).

Lemma arguments_plain xs rest n s : Forall plain xs -> (length xs <= n)%nat ->
  arguments turn n (xs ++ rest) s = arguments turn (n - length xs) rest s.
Proof using turn_plain.
  revert n. induction xs as [|x xs IH]; intros n Hp Hn; [by rewrite Nat.sub_0_r|]. apply Forall_cons in Hp as [Hx Hp].
  destruct n as [|n]; [cbn in Hn; lia|]. cbn [app arguments length Nat.sub]. rewrite turn_plain, seq_ret by done. cbn [drop].
  apply IH; [done | cbn in Hn; lia].
Qed.

Lemma arguments_option o rest n s : proper o -> (length (words o ++ rest) <= n)%nat -> exists n', (length rest <= n')%nat /\
  arguments turn n (words o ++ rest) s = seq (calls returns (said o)) (fun _ => arguments turn n' rest (next s o)).
Proof using uses_some turn_plain turn_option.
  intros Hp Hn. pose proof (uses_some o) as Hu. rewrite length_app in Hn. destruct n as [|n]; [cbn in Hn; lia|].
  assert (drop (uses o) (words o ++ rest) = drop (uses o) (words o) ++ rest) as Hd by (rewrite drop_app; f_equal;
    replace (uses o - length (words o))%nat with 0%nat by lia; done).
  exists (n - length (drop (uses o) (words o)))%nat. rewrite length_drop. split; [lia|]. rewrite <- (length_drop (words o) (uses o)).
  change (arguments turn (Datatypes.S n) (words o ++ rest) s) with
    (seq (turn (words o ++ rest) s) (fun r => let '(argCount, s) := r in arguments turn n (drop argCount (words o ++ rest)) s)).
  rewrite turn_option, seq_assoc. apply seq_ext. intros []. rewrite seq_ret, Hd. apply arguments_plain.
  - destruct (uses o) as [|k]; [lia|]. by apply (Forall_drop _ k).
  - rewrite length_drop. lia.
Qed.

Lemma arguments_all os n s : Forall proper os -> (length (concat (words <$> os)) <= n)%nat ->
  arguments turn n (concat (words <$> os)) s = seq (calls returns (concat (said <$> os))) (fun _ => ret (foldl next s os)).
Proof using uses_some turn_plain turn_option.
  revert n s. induction os as [|o os IH]; intros n s Hp Hn.
  - by destruct n.
  - apply Forall_cons in Hp as [Ho Hp]. cbn [fmap list_fmap concat foldl] in *.
    destruct (arguments_option o (concat (words <$> os)) n s Ho Hn) as (n' & Hn' & ->).
    rewrite calls_app, seq_assoc. apply seq_ext. intros []. by apply IH.
Qed.
End Loop.

Lemma Initialize_means prog os : Forall proper os ->
  Initialize network_build returns opens atof (prog :: concat (words <$> os)) =
  seq (calls returns (concat (seeds <$> os) ++ objects network_build opens (settings os))) (fun _ => ret (settings os)).
Proof using.
  intros Hp. unfold Initialize. cbn [tail].
  rewrite (arguments_all _ seeds init_uses setting); [|intros []; cbn; lia | intros; by apply init_plain | intros; apply init_option | done | done].
  rewrite seq_assoc, calls_app, seq_assoc. apply seq_ext. intros []. by rewrite seq_ret.
Qed.

(** *** What an option line asks for, without the variables of the code *)

(** The last operand given to an option. *)
Definition latest {X} (f : opt -> option X) (d : X) (os : list opt) : X := default d (last (omap f os)).

Definition debug_flags := latest (fun o => match o with O_d x => Some x | _ => None end) "".
Definition servers := latest (fun o => match o with O_ns x => Some (atoi x) | _ => None end) 1.
Definition reliability := latest (fun o => match o with O_l x => Some (atof x) | _ => None end) (double_of 1).
Definition machine_id := latest (fun o => match o with O_m x => Some (atoi x) | _ => None end) 0.
Definition time_slicing := existsb (fun o => match o with O_rs _ => true | _ => false end).
Definition random_eviction := existsb (fun o => match o with O_P x => String.eqb x "RAND" | _ => false end).
Definition single_stepping := existsb (fun o => match o with O_s => true | _ => false end).
Definition formatting := existsb (fun o => match o with O_f => true | _ => false end).

Lemma latest_snoc {X} (f : opt -> option X) d os o : latest f d (os ++ [o]) = default (latest f d os) (f o).
Proof using. unfold latest. rewrite omap_app. cbn. destruct (f o); cbn; [by rewrite last_snoc | by rewrite app_nil_r]. Qed.

(** The variables after the options. *)
Lemma settings_means os : settings os =
  mkSettings (debug_flags os) (time_slicing os) (random_eviction os) (servers os) (machine_id os)
    (single_stepping os) (formatting os) (reliability os) (machine_id os).
Proof using.
  induction os as [|o os IH] using rev_ind; [done|]. unfold settings in *. rewrite foldl_app, IH.
  unfold debug_flags, time_slicing, random_eviction, servers, machine_id, single_stepping, formatting, reliability.
  rewrite !existsb_app, !latest_snoc. destruct o; cbn [foldl setting default existsb]; rewrite ?orb_false_r, ?orb_true_r; try done.
  destruct (String.eqb policy "RAND"); by rewrite ?orb_false_r, ?orb_true_r.
Qed.

Definition makes (variable type : string) (args : list value) : string * string * list value := (variable, type, args).
Definition made (x : string * string * list value) : Call := New x.1.1 x.1.2 x.2.
Definition lock_of (variable title : string) : string * string * list value := makes variable "Lock" [Text title].

(** The simulation and the scheduler, the time slices only on request; then the tables
    of the kernel, each with its lock. *)
Definition kernel_data (os : list opt) : list (string * string * list value) :=
  [makes "stats" "Statistics" []; makes "interrupt" "Interrupt" []; makes "scheduler" "Scheduler" []]
  ++ (if time_slicing os then [makes "timer" "Timer" [Flag true]] else [])
  ++ [makes "kernelLockTable" "vector" []; lock_of "kernelLockLock" "Kernel Lock Lock";
      makes "kernelCVTable" "vector" []; lock_of "kernelCVLock" "Kernel CV Lock";
      makes "mainMemoryBitMap" "BitMap" [Num NumPhysPages]; lock_of "bitMapLock" "BitMap Lock";
      makes "processTable" "vector" []; lock_of "processLock" "Process Table Lock";
      makes "IPT" "IPTEntry" [Num NumPhysPages]; lock_of "IPTLock" "IPT Lock";
      lock_of "outputLock" "Output Lock"; lock_of "TLBLock" "TLB Lock"].

(** The file swapFile<id> ends up empty and open. *)
Definition fresh_swap_file (os : list opt) : list Call :=
  let name := "swapFile" +:+ pretty (machine_id os) in
  [On "fileSystem" "Open" [Text name]]
  ++ (if opens name then [On "fileSystem" "Remove" [Text name]] else [])
  ++ [On "fileSystem" "Create" [Text name; Num 0]; On "fileSystem" "Open" [Text name]].

Definition swap_data : list (string * string * list value) :=
  [makes "swapFileBitMap" "BitMap" [Num 4096]; lock_of "swapFileLock" "Swap File Lock"; lock_of "mailBoxLock" "Mail Box Lock"].

(** Interrupts are on from the main thread on; then the devices. *)
Definition main_thread : list Call :=
  [New "currentThread" "Thread" [Text "main"; Num 0]; On "currentThread" "setStatus" [Text "RUNNING"];
   On "interrupt" "Enable" []; CallOnUserAbort].

Definition devices (os : list opt) : list (string * string * list value) :=
  [makes "machine" "Machine" [Flag (single_stepping os)];
   makes "fileSystem" "FileSystem" [Flag (formatting os)];
   makes "postOffice" "PostOffice" [Num (machine_id os); Real (reliability os); Num 10]].

Definition start_up (os : list opt) : list Call :=
  DebugInit (debug_flags os) :: (made <$> kernel_data os) ++ fresh_swap_file os ++ (made <$> swap_data)
  ++ main_thread ++ (made <$> devices os).

Lemma objects_means os : objects network_build opens (settings os) = start_up os.
Proof using.
  rewrite settings_means. unfold objects, first_objects, swap_file, swapName, start_up, kernel_data, fresh_swap_file.
  cbn [debugArgs randomYield netname]. destruct (time_slicing os), (opens _); reflexivity.
Qed.

(** C33: what a command line means, in the build with the network, for every sequence
    of options whose operands are not options themselves. Initialize leaves each
    variable with the operand of the last option that sets it, or with its default;
    the program seeds the random numbers for each -rs, makes the objects of the kernel
    in the order [start_up] lists, the timer only with -rs, the machine single-stepped
    only with -s, the file system formatted only with -f, the post office with the
    address of -m and the reliability of -l, the swap file named after -m and empty,
    then does what the options ask for in their order, and finishes the main thread;
    it stops at the first call that does not return. (strcat writes past the literal
    [swapName], and sprintf past [id] when the operand of -m has ten characters or
    more: outside the model, in the findings.) *)
Theorem command_line_means prog os : Forall proper os ->
  let argv := prog :: concat (words <$> os) in
  let started := concat (seeds <$> os) ++ start_up os in
  Initialize network_build returns opens atof argv = seq (calls returns started) (fun _ => ret
    {| debugArgs := debug_flags os; randomYield := time_slicing os; PRand := random_eviction os; numServers := servers os;
       serverID := machine_id os; debugUserProg := single_stepping os; format := formatting os; rely := reliability os;
       netname := machine_id os |}) /\
  main network_build returns opens atof argv = calls returns (started ++ concat (actions <$> os) ++ [Finish]).
Proof using.
  intros Hp argv started. pose proof (Initialize_means prog os Hp) as Hi. rewrite objects_means, settings_means in Hi.
  fold argv started in Hi. split; [exact Hi|].
  unfold main. rewrite Hi, seq_assoc, calls_app. apply seq_ext. intros []. rewrite seq_ret. cbn [argv tail].
  rewrite (arguments_all _ actions main_uses (fun _ _ => ())); [|intros []; cbn; lia | by intros x rest [] ?; apply main_plain |
    by intros o rest []; apply main_option | done | done].
  rewrite calls_app, seq_assoc. apply seq_ext. intros []. rewrite seq_ret. cbn [calls]. unfold call, seq. by destruct (returns Finish).
Qed.
End Meaning.

Module Demo.

(** StartProcess runs the program and does not come back. *)
Definition comes_back (c : Call) : bool := match c with StartProcess _ | Server | On _ "Finish" _ => false | _ => true end.
Definition no_file (_ : string) : bool := false.
Definition some_number (_ : string) : double := double_of 0.

Definition line : list opt := [O_rs "7"; O_m "3"; O_P "RAND"; O_m " -12x"; O_z; O_x "matmult"; O_server].

Lemma line_proper : Forall proper line.
Proof.
  unfold line, proper, plain. repeat (apply Forall_cons; split); cbn [operands]; repeat (apply Forall_cons; split); try apply Forall_nil; try exact I;
    apply (bool_decide_unpack _); vm_compute; exact I.
Qed.

Lemma command_line_means_witness :
  let argv := ["nachos"; "-rs"; "7"; "-m"; "3"; "-P"; "RAND"; "-m"; " -12x"; "-z"; "-x"; "matmult"; "-server"] in
  (exists cs, Initialize network_build comes_back no_file some_number argv =
    (cs, Value (mkSettings "" true true 1 (-12) false false (double_of 1) (-12)))) /\
  exists cs, main network_build comes_back no_file some_number argv = ([RandomInit 7] ++ cs ++ [Copyright; StartProcess "matmult"], Away).
Proof.
  destruct (command_line_means comes_back no_file some_number "nachos" line line_proper) as [Hi Hm]. split.
  - eexists. exact Hi.
  - exists (start_up no_file some_number line). exact Hm.
Defined.

(** An operand that is an option is taken for one by the other loop. *)
Example operand_taken : exists cs, main network_build comes_back no_file some_number ["nachos"; "-d"; "-server"] =
  (DebugInit "-server" :: cs ++ [Server], Away).
Proof. exists (tail (objects network_build no_file no_settings)). reflexivity. Qed.

(** In the build with the real file system, the swap file is looked for before the
    file system is there. *)
Definition fileSystem_calls (cs : list Call) : list Call :=
  List.filter (fun c => match c with New "fileSystem" _ _ | On "fileSystem" _ _ => true | _ => false end) cs.

Example used_before_made : exists c cs, fileSystem_calls (objects filesys_build no_file no_settings) = On "fileSystem" "Open" c :: cs.
Proof. by eexists _, _. Qed.
End Demo.
