(* ===== verification/Post.v ===== *)
(** * The post office (network/post.h, network/post.cc)

    Mail for a box of a machine: Send puts a header before the data and hands the
    packet to the network device, one thread at a time; a thread of the post office
    takes the packets that arrive and puts them in the box of the header; Receive
    takes the first mail of a box, and waits for it. The statements of the threads
    of every machine interleave with each other, with the clocks and with the
    network. PostFacts.v has the theorem that the mail is delivered. *)

From S2P Require Import Prelude NachosList Interrupt Clock Machine Disk Ints SynchList Network.

(** ** Mail *)

Record MailHeader := mkMailHeader {
  m_to : Z;
  m_from : Z;
  m_length : Z
}.

Definition sizeof_MailHeader : Z := 12.
Definition MaxMailSize : Z := MaxPacketSize - sizeof_MailHeader.

Record Mail := mkMail {
  pktHdr : PacketHeader;
  mailHdr : MailHeader;
  data : list Z  (* char[MaxMailSize] *)
}.

(** The members of class PostOffice, but the network device; [boxes] is an array of
    class MailBox, whose only member is a SynchList. *)
Record PostOffice := mkPO {
  netAddr : Z;
  boxes : list (SynchList Mail);
  numBoxes : Z;
  messageAvailable : Z;
  messageSent : Z;
  sendLock : option positive
}.

Definition set_boxes bs po := mkPO (netAddr po) bs (numBoxes po) (messageAvailable po) (messageSent po) (sendLock po).
Definition set_available v po := mkPO (netAddr po) (boxes po) (numBoxes po) v (messageSent po) (sendLock po).
Definition set_sent v po := mkPO (netAddr po) (boxes po) (numBoxes po) (messageAvailable po) v (sendLock po).
Definition set_sendLock l po := mkPO (netAddr po) (boxes po) (numBoxes po) (messageAvailable po) (messageSent po) l.

(** The interrupt handlers: [messageAvailable->V()], [messageSent->V()]. *)
Definition IncomingPacket (po : PostOffice) : C PostOffice := Ret (set_available (messageAvailable po + 1) po).
Definition PacketSent (po : PostOffice) : C PostOffice := Ret (set_sent (messageSent po + 1) po).

(** ** Calls in progress *)

Inductive send_place := Send_Acquire | Send_Send | Send_P | Send_Release (success : bool).
Inductive worker_place := Worker_P | Worker_Receive | Worker_Put (p : SynchList.place Mail) (box : Z).

(** A thread in the post office, with its variables. The worker is in
    PostalDelivery for ever. *)
Inductive task :=
| Sending (p : send_place) (pktHdr : PacketHeader) (mailHdr : MailHeader) (data buffer : list Z) (success : bool)
| Receiving (p : SynchList.place Mail) (box : Z) (data : list Z)
| PostalDelivery (p : worker_place) (buffer : list Z).

(** What a call returns; for Receive, what its three arguments then point to. *)
Inductive result := Sent (success : bool) | Received (pktHdr : PacketHeader) (mailHdr : MailHeader) (data : list Z).

Inductive outcome := Goes (k : task) | Ends (r : result).

(** One machine: the device, the post office and the threads in it. *)
Record Node := mkNode {
  network : Network;
  office : PostOffice;
  tasks : gmap positive task
}.

Definition set_network N nd := mkNode N (office nd) (tasks nd).
Definition set_office po nd := mkNode (network nd) po (tasks nd).
Definition set_tasks ts nd := mkNode (network nd) (office nd) ts.

Definition worker : positive := 1.

Section Code.
Variable big : bool.
Variable newmem : Z -> list Z.  (* what [new char[n]] returns *)
Notation State := (IState net_handler).

Definition mail_bytes (h : MailHeader) : list Z := ints_bytes big [m_to h; m_from h; m_length h].

Definition mail_header_of (bs : list Z) : MailHeader :=
  match ints_of big bs with [a; b; n] => mkMailHeader a b (u32 n) | _ => mkMailHeader 0 0 0 end.

(** The constructor; [msgData] points to the rest of an array. *)
Definition new_Mail (pktH : PacketHeader) (mailH : MailHeader) (msgData : list Z) : C Mail :=
  let! _ := ASSERT (m_length mailH <=? MaxMailSize) in
  let! bs := copy_from msgData 0 (m_length mailH) in
  let! bs := copy_into (newmem MaxMailSize) 0 bs in
  Ret (mkMail pktH mailH bs).

(** MailBox::Put, up to the call of Append. *)
Definition Put (pktH : PacketHeader) (mailH : MailHeader) (msgData : list Z) : C (SynchList.place Mail) :=
  let! mail := new_Mail pktH mailH msgData in Ret (Append_Acquire mail).

(** MailBox::Get, from the return of Remove; [into] is the caller's buffer. *)
Definition Get (mail : Mail) (into : list Z) : C (PacketHeader * MailHeader * list Z) :=
  let! bs := copy_from (data mail) 0 (m_length (mailHdr mail)) in
  let! into := copy_into into 0 bs in
  Ret (pktHdr mail, mailHdr mail, into).

(** A statement of the list of a box. *)
Definition box_statement t (p : SynchList.place Mail) (box : Z) (po : PostOffice) : C (next Mail * PostOffice) :=
  let! L := aref (boxes po) box in
  let! (n, L) := SynchList.statement t p L in
  let! bs := aset (boxes po) box L in Ret (n, set_boxes bs po).

(** PostOffice::Send, up to the lock. *)
Definition begin_Send (h : PacketHeader) (m : MailHeader) (data : list Z) (po : PostOffice) : C task :=
  let buffer := newmem MaxPacketSize in
  let! _ := ASSERT (m_length m <=? MaxMailSize) in
  let! _ := ASSERT ((0 <=? m_to m) && (m_to m <? numBoxes po)) in
  let h := mkPacketHeader (p_to h) (netAddr po) (u32 (m_length m + sizeof_MailHeader)) in
  let! buffer := copy_into buffer 0 (mail_bytes m) in
  let! bs := copy_from data 0 (m_length m) in
  let! buffer := copy_into buffer sizeof_MailHeader bs in
  Ret (Sending Send_Acquire h m data buffer false).

(** PostOffice::Receive, up to the list. *)
Definition begin_Receive (box : Z) (data : list Z) (po : PostOffice) : C task :=
  let! _ := ASSERT ((0 <=? box) && (box <? numBoxes po)) in
  Ret (Receiving Remove_Acquire box data).

Section Statement.
(** What the statement needs of the world: the names of sockets, and rand(). *)
Variables (bound : Z -> bool) (random : Z).

Definition send_statement t (p : send_place) (h : PacketHeader) (m : MailHeader) (data buffer : list Z) (success : bool)
  '((s, nd) : State * Node) : C (outcome * option (Z * list Z) * (State * Node)) :=
  let po := office nd in
  match p with
  | Send_Acquire =>
      Ret (Goes (Sending Send_Send h m data buffer success), None, (s, set_office (set_sendLock (Some t) po) nd))
  | Send_Send =>
      let! (success, out, s) := Network.Send big newmem bound random h buffer (network nd, s) in
      Ret (Goes (Sending Send_P h m data buffer success), out, (s, nd))
  | Send_P =>
      Ret (Goes (Sending (Send_Release success) h m data buffer success), None,
           (s, set_office (set_sent (messageSent po - 1) po) nd))
  | Send_Release success => Ret (Ends (Sent success), None, (s, set_office (set_sendLock None po) nd))
  end.

Definition receive_statement t (p : SynchList.place Mail) (box : Z) (into : list Z) (nd : Node) : C (outcome * Node) :=
  let! (n, po) := box_statement t p box (office nd) in
  match n with
  | At p => Ret (Goes (Receiving p box into), set_office po nd)
  | Returned (Some mail) =>
      let! (h, m, into) := Get mail into in
      let! _ := ASSERT (m_length m <=? MaxMailSize) in
      Ret (Ends (Received h m into), set_office po nd)
  | Returned None => Undef
  end.

(** One turn of PostalDelivery is P, then Receive to the begin of Put, then Put. *)
Definition worker_statement t (p : worker_place) (buffer : list Z) (nd : Node) : C (outcome * Node) :=
  let po := office nd in
  match p with
  | Worker_P => Ret (Goes (PostalDelivery Worker_Receive buffer), set_office (set_available (messageAvailable po - 1) po) nd)
  | Worker_Receive =>
      let! (h, buffer, N) := Network.Receive buffer (network nd) in
      let m := mail_header_of (take 12 buffer) in
      let! _ := ASSERT ((0 <=? m_to m) && (m_to m <? numBoxes po)) in
      let! _ := ASSERT (m_length m <=? MaxMailSize) in
      let! q := Put h m (drop 12 buffer) in
      Ret (Goes (PostalDelivery (Worker_Put q (m_to m)) buffer), set_network N nd)
  | Worker_Put q box =>
      let! (n, po) := box_statement t q box po in
      Ret (Goes (PostalDelivery (match n with At q => Worker_Put q box | Returned _ => Worker_P end) buffer), set_office po nd)
  end.

Definition statement t (k : task) '((s, nd) : State * Node) : C (outcome * option (Z * list Z) * (State * Node)) :=
  match k with
  | Sending p h m data buffer success => send_statement t p h m data buffer success (s, nd)
  | Receiving p box into => let! (o, nd) := receive_statement t p box into nd in Ret (o, None, (s, nd))
  | PostalDelivery p buffer => let! (o, nd) := worker_statement t p buffer nd in Ret (o, None, (s, nd))
  end.
End Statement.

Definition can_run t (k : task) (nd : Node) : bool :=
  let po := office nd in
  let box_can p box := match boxes po !! Z.to_nat box with Some L => SynchList.can_run t p L | None => true end in
  match k with
  | Sending Send_Acquire _ _ _ _ _ => bool_decide (sendLock po = None) || bool_decide (sendLock po = Some t)
  | Sending Send_P _ _ _ _ _ => 0 <? messageSent po
  | Sending _ _ _ _ _ _ => true
  | Receiving p box _ => box_can p box
  | PostalDelivery Worker_P _ => 0 <? messageAvailable po
  | PostalDelivery Worker_Receive _ => true
  | PostalDelivery (Worker_Put p box) _ => box_can p box
  end.

(** The handlers of the device. *)
#[export] Instance net_devices : Devices net_handler Node := {
  call h _ sw :=
    let '(s, nd) := sw in
    let! (N, s, po) :=
      match h with
      | NetworkReadPoll => CheckPktAvail big IncomingPacket (network nd, s, office nd)
      | NetworkSendDone => SendDone PacketSent (network nd, s, office nd)
      end in
    Ret (s, set_office po (set_network N nd));
  delayed_load nd := nd;
  yield sw := Ret sw
}.

(** ** The machines and the network between them *)

Notation World := (gmap Z (IState net_handler * Node)).

Definition nBoxes : Z := 10.  (* system.cc: new PostOffice(netname, rely, 10) *)

(** The constructor, with the machine's clock. *)
Definition new_PostOffice (addr : Z) (reliability : double) (nBoxes : Z) (garbage : Network) (s : State) : C (State * Node) :=
  let po := mkPO addr (replicate (Z.to_nat nBoxes) new_SynchList) nBoxes 0 0 None in
  let! (N, s) := new_Network addr reliability garbage s in
  Ret (s, mkNode N po {[worker := PostalDelivery Worker_P (newmem MaxPacketSize)]}).

(** A machine when its network starts: interrupts are on. *)
Definition fresh_clock : State := set_level IntOn (new_Interrupt new_Statistics).

Inductive event :=
| Boot (a : Z) (reliability : double) (garbage : Network)
| Enter_Send (a : Z) (t : positive) (h : PacketHeader) (m : MailHeader) (data : list Z)
| Enter_Receive (a : Z) (t : positive) (box : Z) (into : list Z)
| Step (a : Z) (t : positive) (random : Z)
| Tick (a : Z)
| AllSleep (a : Z).

Definition begin a t (k : C task) '((s, nd) : State * Node) (W : World) : C World :=
  let! k := k in Ret (<[a := (s, set_tasks (<[t := k]> (tasks nd)) nd)]> W).

Definition proceed t (o : outcome) (ts : gmap positive task) : gmap positive task :=
  match o with Goes k => <[t := k]> ts | Ends _ => delete t ts end.

(** UNIX puts a datagram into the queue of the socket. *)
Definition deliver (out : option (Z * list Z)) (W : World) : World :=
  match out with
  | Some (b, d) => alter (fun '(s, nd) => (s, set_network (set_sock (sock (network nd) ++ [d]) (network nd)) nd)) b W
  | None => W
  end.

Definition is_bound (W : World) (b : Z) : bool := bool_decide (is_Some (W !! b)).

Definition exec (e : event) (W : World) : C World :=
  match e with
  | Boot a reliability garbage =>
      let! sn := new_PostOffice a reliability nBoxes garbage fresh_clock in Ret (<[a := sn]> W)
  | Enter_Send a t h m data =>
      match W !! a with Some (s, nd) => begin a t (begin_Send h m data (office nd)) (s, nd) W | None => Undef end
  | Enter_Receive a t box into =>
      match W !! a with Some (s, nd) => begin a t (begin_Receive box into (office nd)) (s, nd) W | None => Undef end
  | Step a t random =>
      match W !! a with
      | Some (s, nd) =>
          match tasks nd !! t with
          | Some k =>
              let! (o, out, (s, nd)) := statement (is_bound W) random t k (s, nd) in
              Ret (deliver out (<[a := (s, set_tasks (proceed t o (tasks nd)) nd)]> W))
          | None => Undef
          end
      | None => Undef
      end
  | Tick a =>
      match W !! a with Some sn => let! sn := OneTick sn in Ret (<[a := sn]> W) | None => Undef end
  | AllSleep a =>
      match W !! a with
      | Some (s, nd) =>
          let! (b, (s, nd)) := Idle (Interrupt.ChangeLevel (level s) IntOff s, nd) in
          if (b : bool) then Ret (<[a := (Interrupt.ChangeLevel IntOff IntOn s, nd)]> W) else Abort
      | None => Undef
      end
  end.

Definition enabled (e : event) (W : World) : bool :=
  match e with
  | Boot a _ _ => bool_decide (W !! a = None)
  | Enter_Send a t _ _ _ | Enter_Receive a t _ _ =>
      match W !! a with Some (_, nd) => bool_decide (tasks nd !! t = None) | None => false end
  | Step a t _ =>
      match W !! a with
      | Some (_, nd) => match tasks nd !! t with Some k => can_run t k nd | None => false end
      | None => false
      end
  | Tick a => bool_decide (is_Some (W !! a))
  | AllSleep a =>
      match W !! a with
      | Some (_, nd) => bool_decide (map_Forall (fun t k => can_run t k nd = false) (tasks nd))
      | None => false
      end
  end.

Fixpoint run (es : list event) (W : World) : C World :=
  match es with [] => Ret W | e :: es => let! W := exec e W in run es W end.

Fixpoint happens (es : list event) (W : World) : bool :=
  match es with
  | [] => true
  | e :: es => enabled e W && match exec e W with Ret W => happens es W | _ => true end
  end.
End Code.
