(* ===== verification/PostFacts.v ===== *)
(** * Delivery of mail

    The specification of network/post.h: mail is delivered in order, each letter at
    most once and uncorrupted, to the box it is addressed to; it may be lost by the
    network only. The invariant follows a letter from the socket through the device
    and the postal worker to the box. *)

From S2P Require Import Prelude NachosList Interrupt Clock Machine Disk Ints OpenFile SynchList Network Post.

(** ** Letters *)

(** What is delivered: the headers and the bytes of the message. *)
Definition letter : Type := PacketHeader * MailHeader * list Z.

Definition box_of (x : letter) : Z := m_to x.1.2.

(** A letter that machine [a] may get. *)
Record letter_ok (a : Z) (x : letter) : Prop := {
  lo_packet : is_packet_header x.1.1;
  lo_to : p_to x.1.1 = a;
  lo_length : p_length x.1.1 = m_length x.1.2 + 12;
  lo_box : 0 <= m_to x.1.2 < nBoxes;
  lo_from : is_i32 (m_from x.1.2);
  lo_size : 0 <= m_length x.1.2 <= 40;
  lo_body : Z.of_nat (length x.2) = m_length x.1.2
}.

Section Formats.
Variable big : bool.

Definition mail_letter (m : Mail) : letter := (pktHdr m, mailHdr m, take (Z.to_nat (m_length (mailHdr m))) (data m)).

(** The bytes after a packet header, read back. *)
Definition payload_letter (h : PacketHeader) (bs : list Z) : letter :=
  let m := mail_header_of big (take 12 bs) in (h, m, take (Z.to_nat (m_length m)) (drop 12 bs)).

Definition wire_letter (d : list Z) : letter := payload_letter (packet_header_of big (take 12 d)) (drop 12 d).

Definition mail_ok (a box : Z) (m : Mail) : Prop :=
  letter_ok a (mail_letter m) /\ box_of (mail_letter m) = box /\ length (data m) = 40%nat.

(** [bs] starts with the letter's header and body. *)
Definition payload (x : letter) (bs : list Z) : Prop := exists rest, bs = mail_bytes big x.1.2 ++ x.2 ++ rest.

Definition wire_ok (a : Z) (d : list Z) : Prop :=
  letter_ok a (wire_letter d) /\ length d = 64%nat /\
  exists bs, d = packet_bytes big (wire_letter d).1.1 ++ bs /\ payload (wire_letter d) bs.

Definition inbox_letter (N : Network) : letter := payload_letter (inHdr N) (inbox N).

Definition inbox_ok (a : Z) (N : Network) : Prop := letter_ok a (inbox_letter N) /\ payload (inbox_letter N) (inbox N).

Lemma length_mail_bytes m : length (mail_bytes big m) = 12%nat.
Proof. apply length_ints_bytes. Qed.

Lemma mail_header_roundtrip m : is_i32 (m_to m) -> is_i32 (m_from m) -> 0 <= m_length m < 2^31 -> mail_header_of big (mail_bytes big m) = m.
Proof.
  intros Ht Hf Hl. pose proof (ints_roundtrip big [m_to m; m_from m; m_length m] []) as E. rewrite app_nil_r in E.
  unfold mail_header_of, mail_bytes. rewrite E; [|repeat constructor; unfold is_i32 in *; lia | done].
  destruct m as [a b n]. cbn in *. by rewrite u32_small by (unfold is_u32; lia).
Qed.

Lemma take_app_bytes (l k : list Z) n : length l = n -> take n (l ++ k) = l.
Proof. intros <-. by rewrite take_app_length. Qed.

Lemma drop_app_bytes (l k : list Z) n : length l = n -> drop n (l ++ k) = k.
Proof. intros <-. by rewrite drop_app_length. Qed.

Lemma payload_read a x bs : letter_ok a x -> payload x bs -> payload_letter x.1.1 bs = x.
Proof.
  intros [Hp Ht Hl Hb Hf Hs Hy] [rest ->]. unfold payload_letter.
  rewrite (take_app_bytes _ _ 12), (drop_app_bytes _ _ 12) by apply length_mail_bytes.
  rewrite mail_header_roundtrip by (unfold is_i32, nBoxes in *; lia). destruct x as [[h m] body]. cbn in *.
  by rewrite (take_app_bytes body) by lia.
Qed.

(** The datagram of a letter. *)
Lemma wire_made a x bs : letter_ok a x -> payload x bs -> length bs = 52%nat ->
  wire_letter (packet_bytes big x.1.1 ++ bs) = x /\ wire_ok a (packet_bytes big x.1.1 ++ bs).
Proof.
  intros Hx Hp Hl. assert (wire_letter (packet_bytes big x.1.1 ++ bs) = x) as E.
  { unfold wire_letter. rewrite (take_app_bytes _ _ 12), (drop_app_bytes _ _ 12) by apply length_packet_bytes.
    rewrite packet_header_roundtrip by apply Hx. by apply (payload_read a). }
  split; [done|]. unfold wire_ok. rewrite E. split; [done|]. split; [rewrite length_app, length_packet_bytes; lia|]. by exists bs.
Qed.

Lemma payload_length x bs a : letter_ok a x -> payload x bs -> p_length x.1.1 <= Z.of_nat (length bs).
Proof. intros Hx [rest ->]. rewrite !length_app, length_mail_bytes. pose proof (lo_body a x Hx). pose proof (lo_length a x Hx). lia. Qed.

(** A payload survives a copy of the packet's length to the front of an array. *)
Lemma payload_copied a x bs buf : letter_ok a x -> payload x bs -> p_length x.1.1 <= Z.of_nat (length buf) ->
  exists bs0 buf', copy_from bs 0 (p_length x.1.1) = Ret bs0 /\ copy_into buf 0 bs0 = Ret buf' /\
    length buf' = length buf /\ payload x buf'.
Proof.
  intros Hx Hp Hl. pose proof (payload_length x bs a Hx Hp) as Hle. pose proof (lo_length a x Hx) as Hn. pose proof (lo_size a x Hx) as Hs.
  destruct (copy_from_lookup bs 0 (p_length x.1.1)) as (bs0 & H0 & E0 & Hl0); [lia..|].
  exists bs0. unfold copy_into. rewrite !(proj2 (Z.leb_le _ _)) by lia. cbn [andb]. eexists. split; [done|]. split; [reflexivity|].
  split; [rewrite !length_app, length_take, length_drop; cbn; lia|].
  destruct Hp as [rest ->]. exists (drop (length bs0) buf). rewrite E0. change (Z.to_nat 0) with 0%nat. rewrite drop_0, take_0. cbn [app Nat.add].
  assert (Z.to_nat (p_length x.1.1) = length (mail_bytes big x.1.2 ++ x.2)) as ->.
  { rewrite length_app, length_mail_bytes. pose proof (lo_body a x Hx). lia. }
  rewrite (app_assoc (mail_bytes big _)), take_app_length. by rewrite <- !app_assoc.
Qed.
End Formats.

(** ** Views of the threads *)

Definition sender : Type := send_place * PacketHeader * MailHeader * list Z * list Z.

Definition as_sender (k : task) : option sender :=
  match k with Sending p h m d b _ => Some (p, h, m, d, b) | _ => None end.

Definition in_box (box : Z) (k : task) : option (SynchList.place Mail) :=
  match k with
  | Receiving p b _ | PostalDelivery (Worker_Put p b) _ => if decide (b = box) then Some p else None
  | _ => None
  end.

Definition as_worker (k : task) : option (worker_place * list Z) :=
  match k with PostalDelivery p b => Some (p, b) | _ => None end.

Notation Tasks := (gmap positive task).

Definition next_task (o : outcome) : option task := match o with Goes k => Some k | Ends _ => None end.

Lemma proceed_next_task t o (ts : Tasks) : proceed t o ts = partial_alter (fun _ => next_task o) t ts.
Proof. by destruct o. Qed.

Lemma alter_here {B} t (o : option B) (m : gmap positive B) x : o = Some x -> partial_alter (fun _ => o) t m !! t = Some x.
Proof. intros ->. by rewrite lookup_partial_alter_eq. Qed.

Lemma omap_alter {B} (f : task -> option B) t o (ts : Tasks) :
  omap f (partial_alter (fun _ => o) t ts) = partial_alter (fun _ => o ≫= f) t (omap f ts).
Proof.
  apply map_eq. intros u. rewrite lookup_omap. destruct (decide (u = t)) as [->|].
  - by rewrite !lookup_partial_alter_eq.
  - by rewrite !lookup_partial_alter_ne, lookup_omap by done.
Qed.

(** A thread that is not in the view before or after. *)
Lemma omap_unseen {B} (f : task -> option B) t o (ts : Tasks) :
  (ts !! t) ≫= f = o ≫= f -> omap f (partial_alter (fun _ => o) t ts) = omap f ts.
Proof.
  intros E. rewrite omap_alter. apply map_eq. intros u. destruct (decide (u = t)) as [->|].
  - by rewrite lookup_partial_alter_eq, lookup_omap.
  - by rewrite lookup_partial_alter_ne.
Qed.

(** ** The sending side *)

Section Invariant.
Variable big : bool.

(** The frame of a Send, once the buffer is filled. *)
Definition frame_letter (f : sender) : letter :=
  let '(p, h, m, d, b) := f in (h, m, take (Z.to_nat (m_length m)) d).

Definition sender_ok (a : Z) (f : sender) : Prop :=
  let '(p, h, m, d, b) := f in
  letter_ok (p_to h) (frame_letter f) /\ p_from h = a /\ payload big (frame_letter f) b /\ length b = 52%nat.

Definition send_phase (lockv : option positive) (sent : Z) (k : nat) (ss : gmap positive sender) : Prop :=
  match lockv with
  | None => k = 0%nat /\ sent = 0
  | Some t => exists f, ss !! t = Some f /\
      match f.1.1.1.1 with
      | Send_Acquire => False
      | Send_P => 0 <= sent /\ Z.of_nat k + sent = 1
      | _ => k = 0%nat /\ sent = 0
      end
  end.

(** [hs] are the handlers that are pending: the poll, and one more while a packet is
    on its way out. *)
Record send_inv (a : Z) (hs : list net_handler) (lockv : option positive) (sent : Z) (ss : gmap positive sender) : Prop := {
  si_phase : exists k, hs ≡ₚ NetworkReadPoll :: replicate k NetworkSendDone /\ send_phase lockv sent k ss;
  si_lock : forall t f, ss !! t = Some f -> f.1.1.1.1 <> Send_Acquire -> lockv = Some t;
  si_frames : map_Forall (fun _ => sender_ok a) ss
}.

(** ** The receiving side *)

Definition recv_inv (a : Z) (N : Network) (available : Z) (ws : gmap positive (worker_place * list Z)) : Prop :=
  exists p b, ws = {[worker := (p, b)]} /\ length b = 52%nat /\ Forall (wire_ok big a) (sock N) /\
    (p_length (inHdr N) <> 0 -> inbox_ok big a N) /\ 0 <= p_length (inHdr N) /\
    match p with
    | Worker_Receive => available = 0 /\ p_length (inHdr N) <> 0
    | _ => available = if p_length (inHdr N) =? 0 then 0 else 1
    end.

(** ** The boxes *)

Definition place_ok (a box : Z) (p : SynchList.place Mail) : Prop :=
  match p with Append_Acquire m | Append_Append m | Remove_Release m => mail_ok a box m | _ => True end.

Record box_ok (a box : Z) (L : SynchList Mail) (calls : gmap positive (SynchList.place Mail)) : Prop := {
  bo_monitor : monitor L calls;
  bo_mails : Forall (mail_ok a box) (Seq.items (list_ L));
  bo_places : map_Forall (fun _ => place_ok a box) calls
}.

Definition boxes_inv (a : Z) (bs : list (SynchList Mail)) (ts : Tasks) : Prop :=
  length bs = 10%nat /\ forall box L, 0 <= box -> bs !! Z.to_nat box = Some L -> box_ok a box L (omap (in_box box) ts).

Definition is_append (p : SynchList.place Mail) : bool :=
  match p with Append_Acquire _ | Append_Append _ | Append_Signal | Append_Release => true | _ => false end.

Definition task_ok (k : task) : Prop :=
  match k with
  | Receiving p box into => is_append p = false /\ 0 <= box < nBoxes /\ (40 <= length into)%nat
  | PostalDelivery (Worker_Put p box) _ => is_append p = true /\ 0 <= box < nBoxes
  | _ => True
  end.

(** ** A machine *)

Record node_inv (a : Z) (hs : list net_handler) (nd : Node) : Prop := {
  ni_ident : ident (network nd) = a /\ is_i32 a;
  ni_addr : netAddr (office nd) = a;
  ni_boxes : numBoxes (office nd) = nBoxes;
  ni_busy : sendBusy (network nd) = false;
  ni_inbox : length (inbox (network nd)) = 52%nat;
  ni_send : send_inv a hs (sendLock (office nd)) (messageSent (office nd)) (omap as_sender (tasks nd));
  ni_recv : recv_inv a (network nd) (messageAvailable (office nd)) (omap as_worker (tasks nd));
  ni_lists : boxes_inv a (boxes (office nd)) (tasks nd);
  ni_tasks : map_Forall (fun _ => task_ok) (tasks nd)
}.

Lemma node_inv_perm a hs hs' nd : hs ≡ₚ hs' -> node_inv a hs nd -> node_inv a hs' nd.
Proof using Type.
  intros Hp [? ? ? ? ? [(k & Hk & Hph) Hl Hf] ? ? ?]. split; try done. split; [|done..]. exists k. split; [by rewrite <- Hp | done].
Qed.

(** ** The interrupt handlers *)

Lemma Schedule_Ret (h : net_handler) x ty (s : IState net_handler) :
  Schedule h x NetworkTime ty s = Ret (set_pending (Seq.SortedInsert (mkPending h x (now s + NetworkTime) ty) (now s + NetworkTime) (pending s)) s).
Proof using Type. reflexivity. Qed.

(** Only one poll is pending. *)
Lemma popped_send hs k : NetworkSendDone :: hs ≡ₚ NetworkReadPoll :: replicate k NetworkSendDone ->
  exists k', k = S k' /\ hs ≡ₚ NetworkReadPoll :: replicate k' NetworkSendDone.
Proof using Type.
  intros Hp. destruct k as [|k].
  - assert (NetworkSendDone ∈ [NetworkReadPoll]) as Hin by (change [NetworkReadPoll] with (NetworkReadPoll :: replicate 0 NetworkSendDone); rewrite <- Hp; left).
    by apply list_elem_of_singleton in Hin.
  - exists k. split; [done|]. cbn [replicate] in Hp. rewrite (Permutation_swap NetworkSendDone NetworkReadPoll) in Hp.
    by apply Permutation_cons_inv in Hp.
Qed.

Lemma PacketSent_inv a hs nd : node_inv a (NetworkSendDone :: hs) nd ->
  node_inv a hs (set_office (set_sent (messageSent (office nd) + 1) (office nd)) (set_network (set_busy false (network nd)) nd)).
Proof using Type.
  intros [? ? ? ? ? [(k & Hk & Hph) Hl Hf] ? ? ?]. split; try done. split; [|done..].
  apply popped_send in Hk as (k' & -> & Hk). exists k'. split; [done|]. cbn. unfold send_phase in *.
  destruct (sendLock (office nd)) as [t|]; [|lia]. destruct Hph as (f & Hft & Hp). exists f. split; [done|].
  destruct (f.1.1.1.1); lia.
Qed.
(** ** The letters on their way *)

Definition hand (ts : Tasks) : list letter :=
  match ts !! worker with
  | Some (PostalDelivery (Worker_Put (Append_Acquire m | Append_Append m) _) _) => [mail_letter m]
  | _ => []
  end.

Definition arriving (N : Network) : list letter :=
  (if p_length (inHdr N) =? 0 then [] else [inbox_letter big N]) ++ (wire_letter big <$> sock N).

Definition boxed (bs : list (SynchList Mail)) (box : Z) : list letter :=
  match bs !! Z.to_nat box with Some L => mail_letter <$> Seq.items (list_ L) | None => [] end.

(** Those for [box]: first the ones that are in it. *)
Definition transit (nd : Node) (box : Z) : list letter :=
  boxed (boxes (office nd)) box ++ filter (fun x => box_of x = box) (hand (tasks nd) ++ arriving (network nd)).

(** Only the clock and the device have moved. *)
Definition same_mail (nd nd' : Node) : Prop := tasks nd' = tasks nd /\ boxes (office nd') = boxes (office nd) /\
  sendLock (office nd') = sendLock (office nd) /\ arriving (network nd') = arriving (network nd).

Lemma same_mail_transit nd nd' box : same_mail nd nd' -> transit nd' box = transit nd box.
Proof using Type. intros (Ht & Hb & _ & Ha). unfold transit. by rewrite Ht, Hb, Ha. Qed.

(** A datagram becomes the packet in the inbox. *)
Lemma take_packet a N d q : sock N = d :: q -> wire_ok big a d -> length (inbox N) = 52%nat -> p_length (inHdr N) = 0 ->
  let N1 := set_inHdr (packet_header_of big (take 12 d)) (set_sock q N) in
  p_to (inHdr N1) = a /\ 0 < p_length (inHdr N1) <= 52 /\
  exists bs bs', copy_from d 12 (p_length (inHdr N1)) = Ret bs /\ copy_into (inbox N) 0 bs = Ret bs' /\
    let N2 := set_inbox bs' N1 in inbox_ok big a N2 /\ length bs' = 52%nat /\ arriving N2 = arriving N.
Proof using Type.
  intros Hs (Hx & Hl & bs & Hd & Hp) Hi Hz N1. set (x := wire_letter big d) in *.
  assert (packet_header_of big (take 12 d) = x.1.1) as Eh.
  { rewrite Hd, (take_app_bytes _ _ 12) by apply length_packet_bytes. apply packet_header_roundtrip, Hx. }
  assert (drop 12 d = bs) as Ed by (rewrite Hd; apply drop_app_bytes, length_packet_bytes).
  assert (length bs = 52%nat) as Hlb by (rewrite <- Ed, length_drop; lia).
  pose proof (lo_length a x Hx) as Hn. pose proof (lo_size a x Hx) as Hsz. cbn [N1 set_inHdr inHdr]. rewrite Eh.
  split; [apply Hx|]. split; [lia|].
  destruct (payload_copied big a x bs (inbox N) Hx Hp) as (bs0 & bs1 & Hc & Hw & Hl1 & Hp1); [lia|].
  exists bs0, bs1. split.
  { rewrite <- Hc, <- Ed. unfold copy_from. rewrite length_drop, !(proj2 (Z.leb_le _ _)) by lia. cbn [andb]. by rewrite drop_drop. }
  split; [done|]. cbn zeta. assert (inbox_letter big (set_inbox bs1 N1) = x) as Ei.
  { unfold inbox_letter. cbn [N1 set_inbox set_inHdr inHdr inbox]. rewrite Eh. by apply (payload_read big a). }
  split; [split; rewrite Ei; done|]. split; [lia|]. unfold arriving. rewrite Ei. cbn [N1 set_inbox set_inHdr set_sock inHdr sock].
  rewrite Eh, Hs, Hz. destruct (Z.eqb_spec (p_length x.1.1) 0); [lia|]. done.
Qed.

Lemma CheckPktAvail_inv a s nd : untimed s -> node_inv a (NetworkReadPoll :: handlers s) nd ->
  exists N s' po, CheckPktAvail big IncomingPacket (network nd, s, office nd) = Ret (N, s', po) /\
    let nd' := set_office po (set_network N nd) in
    node_inv a (handlers s') nd' /\ untimed s' /\ yieldOnReturn s' = yieldOnReturn s /\ same_mail nd nd'.
Proof using Type.
  intros Hu K. unfold CheckPktAvail. rewrite Schedule_Ret. cbn [bind].
  set (s1 := set_pending _ s). assert (node_inv a (handlers s1) nd) as K1.
  { eapply node_inv_perm; [|exact K]. symmetry. apply handlers_insert. }
  assert (untimed s1) as Hu1 by (by apply untimed_insert).
  assert (set_office (office nd) (set_network (network nd) nd) = nd) as Hnd by (by destruct nd).
  assert (forall N s' po, (N, s', po) = (network nd, s1, office nd) -> exists N0 s0 po0, Ret (N, s', po) = Ret (N0, s0, po0) /\
    let nd' := set_office po0 (set_network N0 nd) in
    node_inv a (handlers s0) nd' /\ untimed s0 /\ yieldOnReturn s0 = yieldOnReturn s /\ same_mail nd nd') as Hsame.
  { intros N s' po [= -> -> ->]. do 3 eexists. split; [reflexivity|]. cbn zeta. rewrite Hnd. done. }
  destruct (Z.eqb_spec (p_length (inHdr (network nd))) 0) as [Hz|]; cbn [negb]; [|by apply Hsame].
  case_bool_decide as Hs; [by apply Hsame|]. clear Hsame.
  destruct (sock (network nd)) as [|d q] eqn:Hq; [done|]. cbn [ReadFromSocket].
  destruct K1 as [[Hid Ha] Had Hn Hb Hi Hsend (p & b & Hw & Hlb & Hso & Hin & Hpos & Hav) Hbox Ht].
  rewrite Hq in Hso. apply Forall_cons in Hso as [Hd Hso]. pose proof (take_packet a (network nd) d q Hq Hd Hi Hz) as Hp.
  destruct Hd as (_ & Hl & _). rewrite take_ge by (change (Z.to_nat MaxWireSize) with 64%nat; lia). rewrite Hl. cbn [Z.of_nat ASSERT bind].
  change (Z.of_nat 64 =? MaxWireSize) with true. cbn [ASSERT bind]. set (N1 := set_inHdr _ _) in *. cbn zeta in Hp.
  destruct Hp as (Hto & Hlen & bs & bs' & Hc & Hw' & Hib & Hl' & Har). rewrite Hto. change (ident N1) with (ident (network nd)).
  rewrite Hid, Z.eqb_refl. rewrite (proj2 (Z.leb_le _ _)) by (change MaxPacketSize with 52; lia). cbn [andb ASSERT bind].
  change sizeof_PacketHeader with 12. change (inbox N1) with (inbox (network nd)).
  rewrite Hc. cbn [bind]. rewrite Hw'. cbn [bind]. unfold IncomingPacket. cbn [bind].
  do 3 eexists. split; [reflexivity|]. cbn zeta. split; [|split; [done|]; split; [done|]; repeat split; exact Har].
  split; try done. exists p, b. split; [done|]. split; [done|]. split; [exact Hso|]. split; [intros _; exact Hib|].
  split; [change (0 <= p_length (inHdr N1)); lia|]. change (inHdr (network _)) with (inHdr N1).
  rewrite (proj2 (Z.eqb_neq (p_length (inHdr N1)) 0)) by lia. cbn. rewrite Hz, Z.eqb_refl in Hav. destruct p; lia.
Qed.
(** ** Clock *)

#[local] Hint Extern 0 (Devices net_handler Node) => exact (net_devices big) : typeclass_instances.

#[local] Instance net_laws : DeviceLaws net_handler Node.
Proof using Type.
  intros h x s nd s' nd' Hi Hl Hc. cbn [call net_devices] in Hc. apply bind_Ret in Hc as ([[N s1] po] & Hc & [= -> _]). destruct h.
  - unfold CheckPktAvail in Hc. rewrite Schedule_Ret in Hc. cbn [bind] in Hc. set (s0 := set_pending _ s) in Hc.
    assert (schedules s s0) as Hs0 by (by apply schedules_later).
    destruct (negb _); [injection Hc as _ <- _; exact Hs0|]. case_bool_decide; [injection Hc as _ <- _; exact Hs0|].
    apply bind_Ret in Hc as ([b q] & _ & Hc). apply bind_Ret in Hc as (u & _ & Hc). apply bind_Ret in Hc as (b1 & _ & Hc).
    apply bind_Ret in Hc as (b2 & _ & Hc). apply bind_Ret in Hc as (po1 & _ & [= _ <- _]). by apply schedules_stats.
  - unfold SendDone in Hc. apply bind_Ret in Hc as (po1 & _ & [= _ <- _]). apply schedules_stats; [apply schedules_refl | done..].
Qed.

(** The invariant, and the mail that the clock does not touch. *)
Definition device_inv (a : Z) (nd0 : Node) (hs : list net_handler) (nd : Node) : Prop :=
  node_inv a hs nd /\ same_mail nd0 nd.

Lemma same_mail_trans nd1 nd2 nd3 : same_mail nd1 nd2 -> same_mail nd2 nd3 -> same_mail nd1 nd3.
Proof using Type. intros (?&?&?&?) (?&?&?&?). repeat split; congruence. Qed.

Lemma device_perm a nd0 hs hs' nd : hs ≡ₚ hs' -> device_inv a nd0 hs nd -> device_inv a nd0 hs' nd.
Proof using Type. intros Hp [K Hm]. split; [by eapply node_inv_perm | done]. Qed.

Lemma device_call a nd0 h x (s : IState net_handler) nd : inHandler s = true -> level s = IntOff -> untimed s -> 0 <= now s ->
  device_inv a nd0 (h :: handlers s) nd ->
  exists s' nd', call h x (s, nd) = Ret (s', nd') /\ device_inv a nd0 (handlers s') nd' /\ untimed s' /\ yieldOnReturn s' = yieldOnReturn s.
Proof using Type.
  intros _ _ Hu _ [K Hm]. destruct h.
  - destruct (CheckPktAvail_inv a s nd Hu K) as (N & s' & po & Hc & K' & Hu' & Hy & Hm'). cbn [call net_devices]. rewrite Hc. cbn [bind].
    eexists _, _. split; [reflexivity|]. split; [|done]. split; [exact K' | by eapply same_mail_trans].
  - apply PacketSent_inv in K. cbn [call net_devices SendDone PacketSent bind]. eexists _, _. split; [reflexivity|].
    split; [|done]. split; [exact K|]. eapply same_mail_trans; [exact Hm | done].
Qed.

Lemma device_delayed a nd0 hs nd : device_inv a nd0 hs nd -> device_inv a nd0 hs (delayed_load (H := net_handler) nd).
Proof using Type. done. Qed.

Definition node_ok (a : Z) '((s, nd) : IState net_handler * Node) : Prop := settled (node_inv a) s nd.

Lemma settled_device a nd s : settled (node_inv a) s nd -> settled (device_inv a nd) s nd.
Proof using Type. intros []. split; try done. Qed.

Lemma device_settled a nd0 nd s : settled (device_inv a nd0) s nd -> settled (node_inv a) s nd /\ same_mail nd0 nd.
Proof using Type. intros [? ? ? ? ? ? ? [? ?]]. split; [by split | done]. Qed.

Lemma Tick_ok a s nd : node_ok a (s, nd) -> exists s' nd', OneTick (s, nd) = Ret (s', nd') /\ node_ok a (s', nd') /\ same_mail nd nd'.
Proof using Type.
  intros S%settled_device.
  destruct (OneTick_settled (device_inv a nd) (device_perm a nd) (device_delayed a nd) (device_call a nd) s nd S) as (s' & nd' & Ht & S' & _).
  apply device_settled in S' as [S' Hm]. by exists s', nd'.
Qed.

Lemma AllSleep_ok a s nd : node_ok a (s, nd) -> exists s' nd',
  Idle (Interrupt.ChangeLevel (level s) IntOff s, nd) = Ret (true, (s', nd')) /\
  node_ok a (Interrupt.ChangeLevel IntOff IntOn s', nd') /\ same_mail nd nd'.
Proof using Type.
  intros S. assert (handlers s <> []) as Hne.
  { destruct (ni_send _ _ _ (se_J _ _ _ S)) as [(k & Hk & _) _ _]. intros E. rewrite E in Hk. by apply Permutation_nil_cons in Hk. }
  apply settled_device in S.
  destruct (Idle_settled (device_inv a nd) (device_perm a nd) (device_delayed a nd) (device_call a nd) s nd S Hne) as (s' & nd' & Ht & S' & _).
  apply device_settled in S' as [S' Hm]. by exists s', nd'.
Qed.
Lemma settled_node a s nd nd' : settled (node_inv a) s nd -> node_inv a (handlers s) nd' -> settled (node_inv a) s nd'.
Proof using Type. by intros [] ?. Qed.

Lemma node_schedule a (s : IState net_handler) nd nd' h x ty : settled (node_inv a) s nd -> ty <> TimerInt ->
  node_inv a (h :: handlers s) nd' ->
  settled (node_inv a) (set_pending (Seq.SortedInsert (mkPending h x (now s + NetworkTime) ty) (now s + NetworkTime) (pending s)) s) nd'.
Proof using Type.
  intros [? ? ? ? ? [Hs Hk] Hu _] Ht K. split; try done.
  - split; cbn; by apply (wf_insert (mkPending h x (now s + NetworkTime) ty) (pending s) Hs Hk).
  - by apply untimed_insert.
  - eapply node_inv_perm; [|exact K]. symmetry. apply handlers_insert.
Qed.

(** ** The statements of Send *)

Definition is_sending (k : option task) : Prop := match k with None | Some (Sending _ _ _ _ _ _) => True | _ => False end.

Lemma the_worker a N v ts : recv_inv a N v (omap as_worker ts) ->
  (exists p b, ts !! worker = Some (PostalDelivery p b)) /\ forall t p b, ts !! t = Some (PostalDelivery p b) -> t = worker.
Proof using Type.
  intros (p & b & Hw & _). split.
  - assert (omap as_worker ts !! worker = Some (p, b)) as E by (rewrite Hw; apply lookup_singleton_eq).
    rewrite lookup_omap in E. destruct (ts !! worker) as [[]|]; try done. eauto.
  - intros t p' b' Ht. assert (omap as_worker ts !! t = Some (p', b')) as E by (by rewrite lookup_omap, Ht).
    rewrite Hw in E. apply lookup_singleton_Some in E. naive_solver.
Qed.

Lemma sending_update a hs hs' nd t o l v : node_inv a hs nd -> is_sending (tasks nd !! t) -> is_sending o ->
  send_inv a hs' l v (partial_alter (fun _ => o ≫= as_sender) t (omap as_sender (tasks nd))) ->
  let nd' := set_tasks (partial_alter (fun _ => o) t (tasks nd)) (set_office (set_sent v (set_sendLock l (office nd))) nd) in
  node_inv a hs' nd' /\ forall box, transit nd' box = transit nd box.
Proof using Type.
  intros [[Hid Ha] Had Hn Hb Hi Hsend Hr Hbox Ht] Hk Ho Hs nd'. destruct (the_worker _ _ _ _ Hr) as [(pw & bw & Hw) _].
  assert (t <> worker) as Hne by (intros ->; by rewrite Hw in Hk).
  assert (forall k, (tasks nd !! t) = Some k \/ o = Some k -> as_worker k = None /\ forall box, in_box box k = None) as Hun.
  { intros k [E|E]; rewrite E in *; destruct k; done. }
  split.
  - split; try done; cbn.
    + by rewrite omap_alter.
    + rewrite omap_unseen; [done|]. destruct (tasks nd !! t) as [k|], o as [k'|]; cbn; try done;
        rewrite ?(proj1 (Hun k (or_introl eq_refl))), ?(proj1 (Hun k' (or_intror eq_refl))); done.
    + destruct Hbox as [Hl Hbox]. split; [done|]. intros box L Hp HL. rewrite omap_unseen; [by apply Hbox|].
      destruct (tasks nd !! t) as [k|], o as [k'|]; cbn; try done;
        rewrite ?(proj2 (Hun k (or_introl eq_refl))), ?(proj2 (Hun k' (or_intror eq_refl))); done.
    + intros u k. destruct (decide (u = t)) as [->|].
      * rewrite lookup_partial_alter_eq. intros ->. by destruct k.
      * rewrite lookup_partial_alter_ne by done. apply Ht.
  - intros box. unfold transit. cbn. unfold hand. by rewrite lookup_partial_alter_ne.
Qed.

Context (newmem : Z -> list Z).
Context (newmem_length : forall n, 0 <= n -> Z.of_nat (length (newmem n)) = n).

Lemma letter_size a x : letter_ok a x -> 12 <= p_length x.1.1 <= 52.
Proof using Type. intros Hx. pose proof (lo_length a x Hx). pose proof (lo_size a x Hx). lia. Qed.

Lemma copy_front (buf bs : list Z) : (length bs <= length buf)%nat -> copy_into buf 0 bs = Ret (bs ++ drop (length bs) buf).
Proof using Type.
  intros Hl. unfold copy_into. rewrite !(proj2 (Z.leb_le _ _)) by lia. cbn [andb]. change (Z.to_nat 0) with 0%nat. by rewrite take_0.
Qed.

(** A letter put behind a header of twelve bytes. *)
Lemma copy_after_header (hd bs buf : list Z) : length hd = 12%nat -> (12 + length bs <= length buf)%nat ->
  copy_into (hd ++ drop 12 buf) 12 bs = Ret (hd ++ bs ++ drop (12 + length bs) buf).
Proof using Type.
  intros Hh Hl. unfold copy_into. rewrite length_app, length_drop, Hh. rewrite !(proj2 (Z.leb_le _ _)) by lia. cbn [andb].
  change (Z.to_nat 12) with 12%nat. rewrite take_app_bytes by done. f_equal. rewrite drop_app_ge by lia. rewrite drop_drop.
  do 3 f_equal. lia.
Qed.

Lemma Send_ok a N (s : IState net_handler) x b bound random : sendBusy N = false -> ident N = a -> letter_ok (p_to x.1.1) x ->
  p_from x.1.1 = a -> payload big x b -> length b = 52%nat ->
  exists success out, Network.Send big newmem bound random x.1.1 b (N, s) = Ret (success, out,
      set_pending (Seq.SortedInsert (mkPending NetworkSendDone 0 (now s + NetworkTime) NetworkSendInt) (now s + NetworkTime) (pending s)) s) /\
    forall to dg, out = Some (to, dg) -> to = p_to x.1.1 /\ bound to = true /\ wire_ok big to dg /\ wire_letter big dg = x.
Proof using newmem_length.
  intros Hb Hi Hx Hf Hp Hl. pose proof (letter_size _ x Hx) as Hn. unfold Send.
  rewrite Hb, Hf, Hi, Z.eqb_refl, (proj2 (Z.ltb_lt _ _)), (proj2 (Z.leb_le _ _)) by (change MaxPacketSize with 52; lia).
  cbn [negb andb ASSERT bind]. rewrite Schedule_Ret. cbn [bind].
  destruct (is_lost random N); [do 2 eexists; split; [reflexivity|]; done|].
  pose proof (newmem_length 64 ltac:(lia)) as Hm. change MaxWireSize with 64. pose proof (length_packet_bytes big x.1.1) as Hph.
  rewrite copy_front by lia. cbn [bind]. rewrite Hph.
  destruct Hp as [rest Hp]. pose proof (lo_body _ x Hx) as Hy. pose proof (lo_length _ x Hx) as Hpl. pose proof (length_mail_bytes big x.1.2) as Hmb.
  assert (copy_from b 0 (p_length x.1.1) = Ret (mail_bytes big x.1.2 ++ x.2)) as Hc.
  { unfold copy_from. rewrite !(proj2 (Z.leb_le _ _)) by lia. cbn [andb]. change (Z.to_nat 0) with 0%nat. rewrite drop_0, Hp, app_assoc.
    f_equal. apply take_app_bytes. rewrite length_app. lia. }
  rewrite Hc. cbn [bind]. change sizeof_PacketHeader with 12.
  rewrite copy_after_header by (done || (rewrite length_app; lia)). cbn [bind]. set (bs := (mail_bytes _ _ ++ _) ++ _).
  assert (length bs = 52%nat) as Hlb by (unfold bs; rewrite !length_app, length_drop, ?length_app; lia).
  destruct (wire_made big (p_to x.1.1) x bs Hx) as [Hwl Hwo]; [unfold bs, payload; rewrite <- app_assoc; eauto | done |].
  unfold SendToSocket. destruct (bound (p_to x.1.1)) eqn:Hbd; do 2 eexists; (split; [reflexivity|]); [|done].
  intros to dg [= <- <-]. done.
Qed.
Lemma send_inv_update a hs hs' l l' v v' k t o ss : send_inv a hs l v ss -> l = None \/ l = Some t ->
  hs' ≡ₚ NetworkReadPoll :: replicate k NetworkSendDone -> send_phase l' v' k (partial_alter (fun _ => o) t ss) ->
  (forall f, o = Some f -> sender_ok a f /\ (f.1.1.1.1 <> Send_Acquire -> l' = Some t)) ->
  send_inv a hs' l' v' (partial_alter (fun _ => o) t ss).
Proof using Type.
  intros [_ Hl Hf] Hlt Hk Hph Ho. split; [by exists k | |].
  - intros u f. destruct (decide (u = t)) as [->|].
    + rewrite lookup_partial_alter_eq. intros E. by apply Ho.
    + rewrite lookup_partial_alter_ne by done. intros Hu Hp. specialize (Hl u f Hu Hp). destruct Hlt; congruence.
  - intros u f. destruct (decide (u = t)) as [->|].
    + rewrite lookup_partial_alter_eq. intros E. by apply Ho.
    + rewrite lookup_partial_alter_ne by done. apply Hf.
Qed.

(** Where the sender [f] of thread [t] finds the lock and the semaphore. *)
Lemma send_at a hs l v ss t f : send_inv a hs l v ss -> ss !! t = Some f ->
  (f.1.1.1.1 = Send_Acquire -> l = None \/ l = Some t) ->
  exists k, hs ≡ₚ NetworkReadPoll :: replicate k NetworkSendDone /\ sender_ok a f /\ (l = None \/ l = Some t) /\
    match f.1.1.1.1 with
    | Send_Acquire => k = 0%nat /\ v = 0
    | Send_P => l = Some t /\ 0 <= v /\ Z.of_nat k + v = 1
    | _ => l = Some t /\ k = 0%nat /\ v = 0
    end.
Proof using Type.
  intros [(k & Hk & Hph) Hl Hf] Ht Ha. exists k. split; [done|]. split; [by apply (Hf t)|].
  assert (f.1.1.1.1 <> Send_Acquire -> l = Some t) as Hlt by (intros; by apply (Hl t f)).
  assert (forall f', ss !! t = Some f' -> f' = f) as Hu by (intros; congruence). unfold send_phase in Hph.
  destruct (f.1.1.1.1) eqn:Ep; (split; [auto|]); try (specialize (Hlt ltac:(done)) as ->); try (split; [done|]).
  all: try (destruct Hph as (f' & Hf' & Hp); rewrite (Hu f' Hf'), Ep in Hp; tauto).
  destruct (Ha eq_refl) as [->| ->]; [done|]. destruct Hph as (f' & Hf' & Hp). by rewrite (Hu f' Hf'), Ep in Hp.
Qed.

Lemma send_step a (s : IState net_handler) nd t p h m d b su bound random : node_ok a (s, nd) -> tasks nd !! t = Some (Sending p h m d b su) ->
  can_run t (Sending p h m d b su) nd = true ->
  exists o out s' nd', send_statement big newmem bound random t p h m d b su (s, nd) = Ret (o, out, (s', nd')) /\
    tasks nd' = tasks nd /\
    let nd'' := set_tasks (proceed t o (tasks nd)) nd' in
    node_ok a (s', nd'') /\ (forall box, transit nd'' box = transit nd box) /\
    forall to dg, out = Some (to, dg) -> p = Send_Send /\ to = p_to h /\ bound to = true /\ wire_ok big to dg /\
      wire_letter big dg = (h, m, take (Z.to_nat (m_length m)) d).
Proof using newmem_length.
  intros S Ht Hr. pose proof (se_J _ _ _ S) as K. pose proof (ni_send _ _ _ K) as Hs.
  assert (omap as_sender (tasks nd) !! t = Some (p, h, m, d, b)) as Hss by (by rewrite lookup_omap, Ht).
  destruct (send_at _ _ _ _ _ _ _ Hs Hss) as (k & Hk & Hok & Hlt & Hp).
  { cbn. intros ->. cbn in Hr. apply orb_true_iff in Hr as [Hr|Hr]; apply bool_decide_eq_true in Hr; auto. }
  cbn in Hp.
  assert (is_sending (tasks nd !! t)) as Hi by (by rewrite Ht).
  assert (forall p', (let f := (p', h, m, d, b) in sender_ok a f)) as Hok' by (intros p'; exact Hok).
  pose proof (fun hs' o l v => sending_update a (handlers s) hs' nd t o l v K Hi) as Hup.
  destruct p as [| | |su']; cbn [send_statement].
  - do 4 eexists. split; [reflexivity|]. split; [done|]. cbn zeta. rewrite proceed_next_task. destruct Hp as [-> Hv].
    destruct (Hup (handlers s) (Some (Sending Send_Send h m d b su)) (Some t) (messageSent (office nd))) as [K' Htr]; [done| |].
    { eapply send_inv_update; [exact Hs | exact Hlt | exact Hk | |intros f [= <-]; by split].
      eexists. split; [by apply alter_here | by cbn]. }
    split; [by apply (settled_node a s nd) | by split].
  - destruct Hp as (Hl & -> & Hv). destruct Hok as (Hx & Hf & Hpay & Hlb).
    destruct (Send_ok a (network nd) s (frame_letter (Send_Send, h, m, d, b)) b bound random) as (ok & out & Hsend & Hout);
      [apply K | apply K | done..|]. cbn [frame_letter fst snd] in Hsend. rewrite Hsend. cbn [bind].
    do 4 eexists. split; [reflexivity|]. split; [done|]. cbn zeta. rewrite proceed_next_task.
    destruct (Hup (NetworkSendDone :: handlers s) (Some (Sending Send_P h m d b ok)) (sendLock (office nd)) (messageSent (office nd))) as [K' Htr]; [done| |].
    { eapply (send_inv_update _ _ _ _ _ _ _ 1%nat); [exact Hs | exact Hlt | |rewrite Hl; eexists; split; [by apply alter_here | cbn; lia] |intros f [= <-]; by split].
      cbn [replicate]. rewrite Permutation_swap. by constructor. }
    destruct nd as [N po ts], po. split; [eapply node_schedule; [exact S | done | exact K'] | split; [exact Htr|]].
    intros to dg E. destruct (Hout to dg E) as (? & ? & ? & ?). done.
  - destruct Hp as (Hl & Hv & Hkv). do 4 eexists. split; [reflexivity|]. split; [done|]. cbn zeta. rewrite proceed_next_task.
    assert (k = 0%nat) as -> by (cbn in Hr; lia).
    destruct (Hup (handlers s) (Some (Sending (Send_Release su) h m d b su)) (sendLock (office nd)) (messageSent (office nd) - 1)) as [K' Htr]; [done| |].
    { eapply send_inv_update; [exact Hs | exact Hlt | exact Hk | |intros f [= <-]; by split].
      rewrite Hl. eexists. split; [by apply alter_here | cbn; lia]. }
    split; [by apply (settled_node a s nd) | by split].
  - destruct Hp as (Hl & -> & Hv). do 4 eexists. split; [reflexivity|]. split; [done|]. cbn zeta. rewrite proceed_next_task.
    destruct (Hup (handlers s) None None (messageSent (office nd))) as [K' Htr]; [done| |].
    { eapply send_inv_update; [exact Hs | exact Hlt | exact Hk | done | done]. }
    split; [by apply (settled_node a s nd) | by split].
Qed.
(** ** The statements on a box *)

(** The next place. *)
Definition leads (p : SynchList.place Mail) L (n : next Mail) : Prop :=
  match p with
  | Append_Acquire m => n = At (Append_Append m)
  | Append_Append _ => n = At Append_Signal
  | Append_Signal => n = At Append_Release
  | Append_Release => n = Returned None
  | Remove_Acquire | Remove_Wait => n = At Remove_IsEmpty
  | Remove_IsEmpty => n = At Remove_Wait \/ n = At Remove_Remove
  | Remove_Remove => exists k m q, list_ L = (k, m) :: q /\ n = At (Remove_Release m)
  | Remove_Release m => n = Returned (Some m)
  end.

Lemma box_step a box L calls t p : box_ok a box L calls -> calls !! t = Some p -> SynchList.can_run t p L = true ->
  exists n L', SynchList.statement t p L = Ret (n, L') /\ box_ok a box L' (SynchList.proceed t n calls) /\
    affects p L L' /\ leads p L n.
Proof using Type.
  intros [M Hm Hp] Ht Hr. destruct (statement_monitor t p L calls M Ht Hr) as (n & L' & Hst & M' & Ha).
  exists n, L'. split; [done|]. pose proof (Hp t p Ht) as Hpt. cbn in Hpt.
  assert (leads p L n /\ (forall q, SynchList.outcome n = Some q -> place_ok a box q)) as [Hk Hq].
  { destruct p; cbn in Hst; try (injection Hst as <- <-; split; [done | by intros q [= <-] || done]).
    - destruct (Seq.IsEmpty _); injection Hst as <- <-; (split; [by (left + right) | by intros q [= <-]]).
    - unfold leads. destruct (list_ L) as [|[k m] q]; cbn in *; [done|]. injection Hst as <- <-. split; [by eauto|]. intros r [= <-].
      by apply Forall_cons in Hm as [? _]. }
  split; [|by split]. split; [done| |].
  - unfold affects in Ha. destruct (effect p L) as [[m|m]|] eqn:Ee.
    + rewrite Ha, Seq.items_Append. apply Forall_app. split; [done|]. constructor; [|done].
      destruct p; try done; [by injection Ee as ->|]. cbn in Ee. by destruct (Seq.Remove (list_ L)) as [[]].
    + destruct (list_ L) as [|[k x] q]; cbn in Ha; [done|]. injection Ha as _ <-. by apply Forall_cons in Hm as [_ ?].
    + by rewrite Ha.
  - rewrite SynchList.proceed_alter. intros u q. destruct (decide (u = t)) as [->|].
    + rewrite lookup_partial_alter_eq. apply Hq.
    + rewrite lookup_partial_alter_ne by done. apply Hp.
Qed.

Lemma in_box_only box box' k p : in_box box k = Some p -> box' <> box -> in_box box' k = None.
Proof using Type. destruct k as [|q b|[| |q b] l]; cbn; try done; case_decide; try done; subst; intros _ Hne; by rewrite decide_False by congruence. Qed.

Lemma box_statement_ok a po ts t k p box : boxes_inv a (boxes po) ts -> ts !! t = Some k -> in_box box k = Some p -> 0 <= box < nBoxes ->
  (match boxes po !! Z.to_nat box with Some L => SynchList.can_run t p L | None => true end) = true ->
  exists L n L', boxes po !! Z.to_nat box = Some L /\
    box_statement t p box po = Ret (n, set_boxes (<[Z.to_nat box := L']> (boxes po)) po) /\ affects p L L' /\ leads p L n /\
    forall o, o ≫= in_box box = SynchList.outcome n -> (forall b', b' <> box -> o ≫= in_box b' = None) ->
      boxes_inv a (<[Z.to_nat box := L']> (boxes po)) (partial_alter (fun _ => o) t ts).
Proof using Type.
  intros [Hl Hb] Ht Hk Hbox Hr. unfold nBoxes in Hbox.
  destruct (lookup_lt_is_Some_2 (boxes po) (Z.to_nat box)) as [L HL]; [lia|]. rewrite HL in Hr.
  assert (omap (in_box box) ts !! t = Some p) as Hp by (by rewrite lookup_omap, Ht).
  destruct (box_step a box L _ t p (Hb box L (proj1 Hbox) HL) Hp Hr) as (n & L' & Hst & Hok & Ha & Hkind).
  exists L, n, L'. split; [done|]. split; [|split; [done|]; split; [done|]].
  { unfold box_statement. rewrite (proj2 (aref_Ret (boxes po) box L)) by (split; [lia | done]). cbn [bind]. rewrite Hst. cbn [bind].
    by rewrite aset_in by lia. }
  intros o Ho Hne. split; [by rewrite length_insert|]. intros b' L1 Hb' HL1. destruct (decide (b' = box)) as [->|Hd].
  - rewrite list_lookup_insert_eq in HL1 by (by eapply lookup_lt_Some). injection HL1 as <-.
    rewrite omap_alter, Ho, <- SynchList.proceed_alter. done.
  - rewrite list_lookup_insert_ne in HL1 by lia. rewrite omap_unseen; [by apply Hb|].
    rewrite Ht, (Hne b' Hd). cbn. by eapply in_box_only.
Qed.

(** The letters of a box after a statement. *)
Lemma boxed_after bs p box L L' b : bs !! Z.to_nat box = Some L -> affects p L L' -> 0 <= box -> 0 <= b ->
  boxed (<[Z.to_nat box := L']> bs) b =
    if decide (b = box) then
      match effect p L with
      | Some (inl m) => boxed bs b ++ [mail_letter m]
      | Some (inr _) => tail (boxed bs b)
      | None => boxed bs b
      end
    else boxed bs b.
Proof using Type.
  intros HL Ha Hb Hb'. unfold boxed. case_decide as Hd; [subst b | by rewrite list_lookup_insert_ne by lia].
  rewrite list_lookup_insert_eq by (by eapply lookup_lt_Some). rewrite HL. unfold affects in Ha.
  destruct (effect p L) as [[m|m]|].
  - by rewrite Ha, Seq.items_Append, fmap_app.
  - destruct (list_ L) as [|[k x] q]; cbn in Ha; [done|]. by injection Ha as _ <-.
  - by rewrite Ha.
Qed.
Lemma box_update a hs nd t o bs N v : node_inv a hs nd -> (tasks nd !! t) ≫= as_sender = None -> o ≫= as_sender = None ->
  boxes_inv a bs (partial_alter (fun _ => o) t (tasks nd)) ->
  recv_inv a N v (partial_alter (fun _ => o ≫= as_worker) t (omap as_worker (tasks nd))) ->
  (ident N = ident (network nd) /\ sendBusy N = sendBusy (network nd) /\ length (inbox N) = length (inbox (network nd))) ->
  (forall k', o = Some k' -> task_ok k') ->
  node_inv a hs (set_tasks (partial_alter (fun _ => o) t (tasks nd)) (set_office (set_available v (set_boxes bs (office nd))) (set_network N nd))).
Proof using Type.
  intros [[Hid Ha] Had Hn Hb Hi Hsend Hr Hbox Ht] Hk Hos Hbs Hrs (EN & EB & EI) Ho. split; try done; cbn.
  - by rewrite EN.
  - by rewrite EB.
  - by rewrite EI.
  - rewrite omap_unseen; [done | by rewrite Hk, Hos].
  - by rewrite omap_alter.
  - intros u k'. destruct (decide (u = t)) as [->|].
    + rewrite lookup_partial_alter_eq. apply Ho.
    + rewrite lookup_partial_alter_ne by done. apply Ht.
Qed.

(** ** The statements of Receive *)

(** The letter that a caller of Receive sees. *)
Definition got (h : PacketHeader) (m : MailHeader) (into : list Z) : letter := (h, m, take (Z.to_nat (m_length m)) into).

Lemma Get_ok a box mail into : mail_ok a box mail -> (40 <= length into)%nat ->
  exists into', Get mail into = Ret (pktHdr mail, mailHdr mail, into') /\ got (pktHdr mail) (mailHdr mail) into' = mail_letter mail.
Proof using Type.
  intros (Hx & _ & Hl) Hi. pose proof (lo_size _ _ Hx) as Hs. cbn in Hs. unfold Get, copy_from.
  rewrite !(proj2 (Z.leb_le _ _)) by lia. cbn [andb bind]. change (Z.to_nat 0) with 0%nat. rewrite drop_0.
  rewrite copy_front by (rewrite length_take; lia). cbn [bind]. eexists. split; [reflexivity|].
  unfold got, mail_letter. f_equal. apply take_app_bytes. rewrite length_take. lia.
Qed.

(** What a statement of Receive at [p] leads to, and what it takes from the box. *)
Definition received (p : SynchList.place Mail) (box : Z) (into : list Z) (o : outcome) : Prop :=
  match p with
  | Remove_Release m => exists into', o = Ends (Received (pktHdr m) (mailHdr m) into') /\ got (pktHdr m) (mailHdr m) into' = mail_letter m
  | _ => exists p', o = Goes (Receiving p' box into) /\ (forall m, p' = Remove_Release m -> p = Remove_Remove)
  end.

Definition removes (p : SynchList.place Mail) (box : Z) (into : list Z) (o : outcome) (before after : Z -> list letter) : Prop :=
  match p with
  | Remove_Remove => exists m, o = Goes (Receiving (Remove_Release m) box into) /\ before box = mail_letter m :: after box /\
      forall b, 0 <= b -> b <> box -> after b = before b
  | _ => forall b, 0 <= b -> after b = before b
  end.

(** The machine after a statement of Receive that leaves [bs] in the boxes. *)
Lemma receive_after a (s : IState net_handler) nd t p box into bs n o : node_ok a (s, nd) -> tasks nd !! t = Some (Receiving p box into) ->
  next_task o = (fun p' => Receiving p' box into) <$> SynchList.outcome n ->
  (forall p', n = At p' -> is_append p' = false) ->
  (forall o, o ≫= in_box box = SynchList.outcome n -> (forall b', b' <> box -> o ≫= in_box b' = None) ->
    boxes_inv a bs (partial_alter (fun _ => o) t (tasks nd))) ->
  let nd'' := set_tasks (proceed t o (tasks nd)) (set_office (set_boxes bs (office nd)) nd) in
  node_ok a (s, nd'') /\ forall b, transit nd'' b = boxed bs b ++ filter (fun x => box_of x = b) (hand (tasks nd) ++ arriving (network nd)).
Proof using Type.
  intros S Ht Ho Hap Hinv. pose proof (se_J _ _ _ S) as K. destruct (ni_tasks _ _ _ K t _ Ht) as (_ & Hbox & Hinto).
  cbn zeta. rewrite proceed_next_task. split.
  - apply (settled_node a s nd _ S).
    apply (box_update a (handlers s) nd t (next_task o) _ (network nd) (messageAvailable (office nd)) K); try done; [by rewrite Ht|..].
    + rewrite Ho. by destruct n.
    + apply Hinv; rewrite Ho; destruct n; cbn; try done; [by rewrite decide_True | intros b' Hb'; by rewrite decide_False].
    + rewrite <- omap_alter, omap_unseen; [apply K|]. rewrite Ht, Ho. by destruct n.
    + intros k. rewrite Ho. destruct n as [p'|]; [|done]. intros [= <-]. split; [by apply Hap | done].
  - intros b. unfold transit, hand. cbn. rewrite lookup_partial_alter_ne; [done|].
    intros Ew. destruct (the_worker _ _ _ _ (ni_recv _ _ _ K)) as [(? & ? & E) _]. congruence.
Qed.

Lemma leads_receive p L n p' : is_append p = false -> leads p L n -> n = At p' -> is_append p' = false.
Proof using Type. destruct p; cbn; intros; naive_solver. Qed.

Lemma receive_step a (s : IState net_handler) nd t p box into : node_ok a (s, nd) -> tasks nd !! t = Some (Receiving p box into) ->
  can_run t (Receiving p box into) nd = true ->
  exists o nd', receive_statement t p box into nd = Ret (o, nd') /\ tasks nd' = tasks nd /\ received p box into o /\
    let nd'' := set_tasks (proceed t o (tasks nd)) nd' in
    node_ok a (s, nd'') /\ removes p box into o (transit nd) (transit nd'').
Proof using Type.
  intros S Ht Hr. pose proof (se_J _ _ _ S) as K. destruct (ni_tasks _ _ _ K t _ Ht) as (Hap & Hbox & Hinto).
  pose proof (ni_lists _ _ _ K) as Hb. assert (in_box box (Receiving p box into) = Some p) as Hin by (cbn; by rewrite decide_True).
  destruct (box_statement_ok a (office nd) _ t _ p box Hb Ht Hin Hbox Hr) as (L & n & L' & HL & Hst & Ha & Hkind & Hinv).
  pose proof (fun o Ho => receive_after a s nd t p box into _ n o S Ht Ho (fun p' => leads_receive p L n p' Hap Hkind) Hinv) as Hafter.
  pose proof (fun b Hb0 => boxed_after (boxes (office nd)) p box L L' b HL Ha (proj1 Hbox) Hb0) as Hbd.
  set (nd1 := set_office _ nd) in *. unfold receive_statement. rewrite Hst. cbn [bind]. fold nd1.
  assert (forall p', effect p L = None -> n = At p' -> (forall m, p' = Remove_Release m -> False) ->
    exists o nd', Ret (Goes (Receiving p' box into), nd1) = Ret (o, nd') /\ tasks nd' = tasks nd /\
      (exists p', o = Goes (Receiving p' box into) /\ (forall m, p' = Remove_Release m -> p = Remove_Remove)) /\
      node_ok a (s, set_tasks (proceed t o (tasks nd)) nd') /\
      forall b, 0 <= b -> transit (set_tasks (proceed t o (tasks nd)) nd') b = transit nd b) as Hquiet.
  { intros p' He -> Hp'. do 2 eexists. split; [reflexivity|]. split; [done|].
    split; [exists p'; split; [done|]; intros m E; by destruct (Hp' m)|].
    destruct (Hafter (Goes (Receiving p' box into)) eq_refl) as [Hok Htr]. split; [exact Hok|].
    intros b Hb0. rewrite Htr, (Hbd b Hb0), He. by case_decide. }
  destruct p as [m|m| | | | | | |m]; try done; cbn in Hkind.
  - subst n. by apply Hquiet.
  - destruct Hkind as [-> | ->]; by apply Hquiet.
  - subst n. by apply Hquiet.
  - destruct Hkind as (k & m & q & Hq & ->). do 2 eexists. split; [reflexivity|]. split; [done|]. split; [by exists (Remove_Release m)|].
    destruct (Hafter (Goes (Receiving (Remove_Release m) box into)) eq_refl) as [Hok Htr]. split; [exact Hok|].
    exists m. split; [done|]. cbn [effect] in Hbd. rewrite Hq in Hbd. cbn in Hbd. split.
    + rewrite Htr, (Hbd box) by lia. rewrite decide_True by done. unfold transit, boxed. rewrite HL, Hq. done.
    + intros b Hb0 Hne. rewrite Htr, (Hbd b Hb0). by rewrite decide_False.
  - subst n. destruct Hb as [_ Hb]. pose proof (bo_places _ _ _ _ (Hb box L (proj1 Hbox) HL) t (Remove_Release m)) as Hm.
    rewrite lookup_omap, Ht in Hm. cbn [mbind option_bind] in Hm. specialize (Hm Hin).
    destruct (Get_ok a box m into Hm Hinto) as (into' & Hg & Hgot). rewrite Hg. cbn [bind].
    rewrite (proj2 (Z.leb_le _ _)) by (change MaxMailSize with 40; apply Hm). cbn [ASSERT bind].
    do 2 eexists. split; [reflexivity|]. split; [done|]. split; [by exists into'|].
    destruct (Hafter (Ends (Received (pktHdr m) (mailHdr m) into')) eq_refl) as [Hok Htr]. split; [exact Hok|].
    intros b Hb0. rewrite Htr, (Hbd b Hb0). by case_decide.
Qed.

(** ** The statements of the postal worker *)

(** What a statement of the worker gives. *)
Definition worker_result a (s : IState net_handler) nd t p buffer : Prop :=
  exists o nd', worker_statement big newmem t p buffer nd = Ret (o, nd') /\ tasks nd' = tasks nd /\
    let nd'' := set_tasks (proceed t o (tasks nd)) nd' in
    node_ok a (s, nd'') /\ forall b, 0 <= b -> transit nd'' b = transit nd b.

(** A call of Append that begins. *)
Lemma boxes_enter a bs ts t k' p box : boxes_inv a bs ts -> (forall b, (ts !! t) ≫= in_box b = None) ->
  in_box box k' = Some p -> place_ok a box p -> SynchList.inside p = false -> p <> Remove_Wait ->
  boxes_inv a bs (partial_alter (fun _ => Some k') t ts).
Proof using Type.
  intros [Hl Hb] Hk Hk' Hp Hi Hw. split; [done|]. intros b L Hb0 HL. destruct (Hb b L Hb0 HL) as [M Hm Hpl].
  destruct (decide (b = box)) as [->|Hne].
  - rewrite omap_alter. cbn [mbind option_bind]. rewrite Hk'. split; [|done|].
    + apply monitor_enter; try done. rewrite lookup_omap. apply Hk.
    + intros u q. destruct (decide (u = t)) as [->|]; [rewrite lookup_partial_alter_eq; by intros [= <-]|].
      rewrite lookup_partial_alter_ne by done. apply Hpl.
  - rewrite omap_unseen; [by apply Hb|]. rewrite Hk. symmetry. by eapply in_box_only.
Qed.

Lemma boxes_unseen a bs ts t k o : boxes_inv a bs ts -> ts !! t = Some k -> (forall b, in_box b k = None) ->
  (forall b, o ≫= in_box b = None) -> boxes_inv a bs (partial_alter (fun _ => o) t ts).
Proof using Type.
  intros [Hl Hb] Ht Hk Ho. split; [done|]. intros b L Hb0 HL. rewrite omap_unseen; [by apply Hb|]. rewrite Ht. cbn. by rewrite Hk, Ho.
Qed.

(** The mail that the worker makes of a packet. *)
Lemma Put_ok a x bs : letter_ok a x -> payload big x bs -> length bs = 52%nat ->
  mail_header_of big (take 12 bs) = x.1.2 /\
  exists mail, Put newmem x.1.1 x.1.2 (drop 12 bs) = Ret (Append_Acquire mail) /\ mail_ok a (box_of x) mail /\ mail_letter mail = x.
Proof using newmem_length.
  intros Hx Hp Hl. pose proof (payload_read big a x bs Hx Hp) as Hr. unfold payload_letter in Hr.
  assert (mail_header_of big (take 12 bs) = x.1.2) as Em by (by rewrite <- Hr). split; [done|].
  pose proof (newmem_length 40 ltac:(lia)) as Hm. pose proof (lo_size a x Hx) as Hs. pose proof (lo_body a x Hx) as Hy.
  unfold Put, new_Mail. change MaxMailSize with 40. rewrite (proj2 (Z.leb_le _ _)) by lia. cbn [ASSERT bind].
  assert (copy_from (drop 12 bs) 0 (m_length x.1.2) = Ret x.2) as Hc.
  { unfold copy_from. rewrite length_drop, !(proj2 (Z.leb_le _ _)) by lia. cbn [andb]. change (Z.to_nat 0) with 0%nat. rewrite drop_0.
    rewrite Em in Hr. f_equal. exact (f_equal snd Hr). }
  rewrite Hc. cbn [bind]. rewrite copy_front by lia. cbn [bind]. eexists. split; [reflexivity|].
  assert (mail_letter (mkMail x.1.1 x.1.2 (x.2 ++ drop (length x.2) (newmem 40))) = x) as E.
  { unfold mail_letter. cbn. rewrite take_app_bytes by lia. by destruct x as [[]]. }
  split; [|done]. unfold mail_ok. rewrite E. split; [done|]. split; [done|]. cbn. rewrite length_app, length_drop. lia.
Qed.

Lemma office_same po : set_available (messageAvailable po) (set_boxes (boxes po) po) = po.
Proof using Type. by destruct po. Qed.

Section Worker.
Variables (a : Z) (s : IState net_handler) (nd : Node) (t : positive) (p : worker_place) (buffer : list Z).
Context (S : node_ok a (s, nd)) (Ht : tasks nd !! t = Some (PostalDelivery p buffer)).

(** The worker's own thread, its buffer and the device. *)
Lemma worker_view : t = worker /\ length buffer = 52%nat /\ Forall (wire_ok big a) (sock (network nd)) /\
  (p_length (inHdr (network nd)) <> 0 -> inbox_ok big a (network nd)) /\ 0 <= p_length (inHdr (network nd)) /\
  match p with
  | Worker_Receive => messageAvailable (office nd) = 0 /\ p_length (inHdr (network nd)) <> 0
  | _ => messageAvailable (office nd) = if p_length (inHdr (network nd)) =? 0 then 0 else 1
  end.
Proof using S Ht.
  pose proof (ni_recv _ _ _ (se_J _ _ _ S)) as Hr. destruct (the_worker _ _ _ _ Hr) as [_ Hw]. specialize (Hw _ _ _ Ht). subst t.
  destruct Hr as (p' & b' & Hws & Hr). assert (omap as_worker (tasks nd) !! worker = Some (p, buffer)) as E by (by rewrite lookup_omap, Ht).
  rewrite Hws, lookup_singleton_eq in E. injection E as -> ->. done.
Qed.

Lemma workers_after p' b' : partial_alter (fun _ => Some (PostalDelivery p' b') ≫= as_worker) t (omap as_worker (tasks nd)) = {[worker := (p', b')]}.
Proof using S Ht.
  pose proof (ni_recv _ _ _ (se_J _ _ _ S)) as (p0 & b0 & -> & _). destruct worker_view as [-> _]. cbn [mbind option_bind as_worker].
  exact (insert_singleton_eq worker (p', b') (p0, b0)).
Qed.

Lemma worker_P_step : p = Worker_P -> can_run t (PostalDelivery p buffer) nd = true -> worker_result a s nd t p buffer.
Proof using S Ht.
  intros Ep Hr. pose proof (se_J _ _ _ S) as K. pose proof workers_after as Hws. destruct worker_view as (Ew & Hl & Hs & Hin & Hpos & Hav).
  rewrite Ep in *. cbn in Hr.
  do 2 eexists. split; [reflexivity|]. split; [done|]. cbn zeta. rewrite proceed_next_task. cbn [next_task]. split.
  - apply (settled_node a s nd _ S).
    apply (box_update a (handlers s) nd t (Some (PostalDelivery Worker_Receive buffer)) (boxes (office nd)) (network nd) (messageAvailable (office nd) - 1) K);
      try done; [by rewrite Ht | by eapply boxes_unseen; [apply K | exact Ht | ..] | | by intros k [= <-]].
    rewrite Hws. exists Worker_Receive, buffer. repeat (split; [done|]). destruct (Z.eqb_spec (p_length (inHdr (network nd))) 0); lia.
  - intros b _. unfold transit, hand. cbn. rewrite Ew in *. by rewrite lookup_partial_alter_eq, Ht.
Qed.
Lemma worker_Receive_step : p = Worker_Receive -> worker_result a s nd t p buffer.
Proof using S Ht newmem_length.
  intros Ep. pose proof (se_J _ _ _ S) as K. pose proof workers_after as Hws. destruct worker_view as (Ew & Hl & Hs & Hin & Hpos & Hav).
  rewrite Ep in *. destruct Hav as [Hav Hne]. destruct (Hin Hne) as [Hx Hp]. set (x := inbox_letter big (network nd)) in *.
  pose proof (letter_size a x Hx) as Hsz.
  destruct (payload_copied big a x (inbox (network nd)) buffer Hx Hp) as (bs & buf & Hc & Hi & Hlb & Hpb); [lia|]. rewrite Hl in Hlb.
  destruct (Put_ok a x buf Hx Hpb Hlb) as (Em & mail & Hput & Hmail & Hlet).
  assert (worker_statement big newmem t Worker_Receive buffer nd =
    Ret (Goes (PostalDelivery (Worker_Put (Append_Acquire mail) (box_of x)) buf),
         set_network (set_inHdr (set_p_length 0 (inHdr (network nd))) (network nd)) nd)) as Hst.
  { assert (inHdr (network nd) = x.1.1) as Eh by reflexivity. assert (p_length x.1.1 <> 0) as Hnx by exact Hne.
    cbn [worker_statement]. unfold Network.Receive. rewrite Eh, (proj2 (Z.eqb_neq _ _) Hnx). cbn [negb inbox set_inHdr]. rewrite Hc. cbn [bind].
    rewrite Hi. cbn [bind]. rewrite Em. pose proof (lo_box a x Hx) as Hb.
    rewrite (ni_boxes _ _ _ K), (proj2 (Z.leb_le _ _)), (proj2 (Z.ltb_lt _ _)) by lia. cbn [andb ASSERT bind].
    rewrite (proj2 (Z.leb_le _ _)) by (change MaxMailSize with 40; apply (lo_size a x Hx)). cbn [ASSERT bind]. by rewrite Hput. }
  unfold worker_result. rewrite Hst. do 2 eexists. split; [reflexivity|]. split; [done|]. cbn zeta. rewrite proceed_next_task. cbn [next_task]. split.
  - apply (settled_node a s nd _ S).
    pose proof (box_update a (handlers s) nd t (Some (PostalDelivery (Worker_Put (Append_Acquire mail) (box_of x)) buf)) (boxes (office nd))
      (set_inHdr (set_p_length 0 (inHdr (network nd))) (network nd)) (messageAvailable (office nd)) K) as Hup.
    rewrite office_same in Hup. apply Hup; try done; clear Hup; [by rewrite Ht|..].
    + eapply (boxes_enter a _ _ _ _ (Append_Acquire mail) (box_of x)); [apply K | by rewrite Ht | cbn; by rewrite decide_True | exact Hmail | done..].
    + rewrite Hws. exists (Worker_Put (Append_Acquire mail) (box_of x)), buf. split; [done|]. split; [done|]. split; [exact Hs|].
      split; [done|]. split; [done|]. exact Hav.
    + intros k [= <-]. split; [done | apply (lo_box a x Hx)].
  - intros b _. unfold transit, hand. cbn. rewrite Ew in *. rewrite lookup_partial_alter_eq, Ht. unfold arriving. cbn.
    rewrite (proj2 (Z.eqb_neq _ _) Hne). cbn. by rewrite Hlet.
Qed.

Lemma worker_Put_step q box : p = Worker_Put q box -> can_run t (PostalDelivery p buffer) nd = true -> worker_result a s nd t p buffer.
Proof using S Ht.
  intros Ep Hr. pose proof (se_J _ _ _ S) as K. pose proof workers_after as Hws. destruct worker_view as (Ew & Hl & Hs & Hin & Hpos & Hav).
  rewrite Ep in *. cbn in Hr. destruct (ni_tasks _ _ _ K t _ Ht) as [Hap Hbox].
  assert (in_box box (PostalDelivery (Worker_Put q box) buffer) = Some q) as Hib by (cbn; by rewrite decide_True).
  destruct (box_statement_ok a (office nd) _ t _ q box (ni_lists _ _ _ K) Ht Hib Hbox Hr) as (L & n & L' & HL & Hst & Ha & Hkind & Hinv).
  set (p' := match n with At q => Worker_Put q box | Returned _ => Worker_P end).
  unfold worker_result. cbn [worker_statement]. rewrite Hst. cbn [bind]. fold p'.
  do 2 eexists. split; [reflexivity|]. split; [done|]. cbn zeta. rewrite proceed_next_task. cbn [next_task]. split.
  - apply (settled_node a s nd _ S).
    apply (box_update a (handlers s) nd t (Some (PostalDelivery p' buffer)) (<[Z.to_nat box := L']> (boxes (office nd))) (network nd) (messageAvailable (office nd)) K); try done; [by rewrite Ht|..].
    + apply Hinv; unfold p'; destruct n; cbn; try done; [by rewrite decide_True | intros b' Hb'; by rewrite decide_False].
    + rewrite Hws. exists p', buffer. repeat (split; [done|]). unfold p'. by destruct n.
    + intros k [= <-]. unfold p'. destruct n as [q'|]; [|done]. split; [|done]. destruct q; cbn in Hkind; try done; by injection Hkind as ->.
  - intros b Hb0. unfold transit, hand. cbn. rewrite Ew in *. rewrite lookup_partial_alter_eq, Ht.
    pose proof (boxed_after (boxes (office nd)) q box L L' b HL Ha (proj1 Hbox) Hb0) as Hbd. rewrite Hbd. clear Hbd.
    destruct (ni_lists _ _ _ K) as [_ Hlists]. pose proof (bo_places _ _ _ _ (Hlists box L (proj1 Hbox) HL) worker q) as Hq.
    rewrite lookup_omap, Ht in Hq. specialize (Hq Hib).
    unfold p'. destruct q as [m|m| | | | | | |m]; cbn in Hkind; try done; subst n; cbn [effect]; try by case_decide.
    destruct Hq as (_ & Hbx & _). cbn [app]. rewrite filter_cons. case_decide; case_decide; try congruence.
    by rewrite <- app_assoc.
Qed.

End Worker.

Lemma worker_step a (s : IState net_handler) nd t p buffer : node_ok a (s, nd) -> tasks nd !! t = Some (PostalDelivery p buffer) ->
  can_run t (PostalDelivery p buffer) nd = true -> worker_result a s nd t p buffer.
Proof using newmem_length.
  intros S Ht Hr. destruct p as [| |q box].
  - by apply worker_P_step.
  - by apply worker_Receive_step.
  - by apply (worker_Put_step a s nd t _ buffer S Ht q box).
Qed.
End Invariant.
