(* ===== verification/Delivery.v ===== *)
(** * Delivery of mail between machines

    The executions of Post.v: machines start, their threads send and receive, clocks
    tick. The theorem is the contract of network/post.h for all of them: what
    Receive takes from a box is, in order, what was put on the network for it. *)

From S2P Require Import Prelude NachosList Interrupt Clock Machine Disk Ints SynchList Network Post PostFacts.

Section Delivery.
Variable big : bool.
Variable newmem : Z -> list Z.
Context (newmem_length : forall n, 0 <= n -> Z.of_nat (length (newmem n)) = n).
Notation State := (IState net_handler).
Notation World := (gmap Z (IState net_handler * Node)).

#[local] Hint Extern 0 (Devices net_handler Node) => exact (net_devices big) : typeclass_instances.

(** ** What happens to the mail *)

Inductive mark :=
| Posted (b : Z) (x : letter)                       (* on the network, for machine [b] *)
| Taken (a : Z) (t : positive) (box : Z) (x : letter)  (* off the box, by thread [t] *)
| Given (a : Z) (t : positive) (x : letter).           (* what Receive returns *)

Definition marks_of (e : event) (W : World) : list mark :=
  match e with
  | Step a t random =>
      match W !! a with
      | Some (s, nd) =>
          match tasks nd !! t with
          | Some k =>
              match k, statement big newmem (is_bound W) random t k (s, nd) with
              | Sending Send_Send h m d _ _, Ret (_, Some (to, _), _) => [Posted to (got h m d)]
              | Receiving Remove_Remove box _, Ret (Goes (Receiving (Remove_Release mail) _ _), _, _) => [Taken a t box (mail_letter mail)]
              | Receiving _ _ _, Ret (Ends (Received h m d), _, _) => [Given a t (got h m d)]
              | _, _ => []
              end
          | None => []
          end
      | None => []
      end
  | _ => []
  end.

Fixpoint trace (es : list event) (W : World) : list mark :=
  match es with
  | [] => []
  | e :: es => marks_of e W ++ match exec big newmem e W with Ret W => trace es W | _ => [] end
  end.

(** The letters put on the network for box [box] of machine [a]. *)
Definition posted (a box : Z) (tr : list mark) : list letter :=
  omap (fun k => match k with Posted b x => if decide (b = a /\ box_of x = box) then Some x else None | _ => None end) tr.

(** Those taken from it, by any thread. *)
Definition taken (a box : Z) (tr : list mark) : list letter :=
  omap (fun k => match k with Taken b _ c x => if decide (b = a /\ c = box) then Some x else None | _ => None end) tr.

(** The letters that thread [t] took, and those that its calls of Receive gave. *)
Definition taken_by (a : Z) (t : positive) (tr : list mark) : list letter :=
  omap (fun k => match k with Taken b u _ x => if decide (b = a /\ u = t) then Some x else None | _ => None end) tr.
Definition given_to (a : Z) (t : positive) (tr : list mark) : list letter :=
  omap (fun k => match k with Given b u x => if decide (b = a /\ u = t) then Some x else None | _ => None end) tr.

Definition in_transit (W : World) (a box : Z) : list letter :=
  match W !! a with Some (_, nd) => transit big nd box | None => [] end.

(** The letter of a call of Receive that has it and has not returned. *)
Definition holding (k : option task) : list letter :=
  match k with Some (Receiving (Remove_Release m) _ _) => [mail_letter m] | _ => [] end.

Definition in_hand (W : World) (a : Z) (t : positive) : list letter :=
  match W !! a with Some (_, nd) => holding (tasks nd !! t) | None => [] end.

(** ** Arguments that the code accepts *)

Definition valid (e : event) : Prop :=
  match e with
  | Boot a _ garbage => is_i32 a /\ length (inbox garbage) = 52%nat
  | Enter_Send a t h m d => is_i32 (p_to h) /\ 0 <= m_to m < nBoxes /\ is_i32 (m_from m) /\
      0 <= m_length m <= MaxMailSize /\ m_length m <= Z.of_nat (length d)
  | Enter_Receive a t box into => 0 <= box < nBoxes /\ MaxMailSize <= Z.of_nat (length into)
  | _ => True
  end.

(** ** The invariant of the world *)

Definition world_ok (W : World) : Prop := map_Forall (fun a sn => node_ok big a sn) W.

(** What one event does: the mail of every box moves as in a queue. *)
Definition moves (W : World) (l : list mark) (W' : World) : Prop :=
  (forall a box, 0 <= box -> in_transit W a box ++ posted a box l = taken a box l ++ in_transit W' a box) /\
  (forall a t, in_hand W a t ++ taken_by a t l = given_to a t l ++ in_hand W' a t).

Lemma moves_quiet W W' : (forall a box, 0 <= box -> in_transit W' a box = in_transit W a box) ->
  (forall a t, in_hand W' a t = in_hand W a t) -> moves W [] W'.
Proof using Type. intros H1 H2. split; intros; cbn; rewrite app_nil_r; symmetry; auto. Qed.

Lemma moves_trans W1 l1 W2 l2 W3 : moves W1 l1 W2 -> moves W2 l2 W3 -> moves W1 (l1 ++ l2) W3.
Proof using Type.
  intros [H1 H1'] [H2 H2']. split.
  - intros a box Hb. unfold posted, taken in *. rewrite !omap_app, app_assoc, (H1 a box Hb), <- !app_assoc. by rewrite (H2 a box Hb).
  - intros a t. unfold taken_by, given_to in *. rewrite !omap_app, app_assoc, H1', <- !app_assoc. by rewrite H2'.
Qed.

(** One machine changes. *)
Lemma moves_node W a s nd s' nd' : W !! a = Some (s, nd) -> (forall box, 0 <= box -> transit big nd' box = transit big nd box) ->
  (forall t, holding (tasks nd' !! t) = holding (tasks nd !! t)) -> moves W [] (<[a := (s', nd')]> W).
Proof using Type.
  intros HW Ht Hh. apply moves_quiet.
  - intros b box Hb. unfold in_transit. destruct (decide (b = a)) as [->|]; [rewrite lookup_insert_eq, HW; auto | by rewrite lookup_insert_ne].
  - intros b t. unfold in_hand. destruct (decide (b = a)) as [->|]; [rewrite lookup_insert_eq, HW; auto | by rewrite lookup_insert_ne].
Qed.

Lemma world_insert W a sn : world_ok W -> node_ok big a sn -> world_ok (<[a := sn]> W).
Proof using Type. intros HW Hn. by apply map_Forall_insert_2. Qed.

Lemma same_mail_moves W a s nd s' nd' : W !! a = Some (s, nd) -> same_mail big nd nd' -> moves W [] (<[a := (s', nd')]> W).
Proof using Type.
  intros HW Hm. apply (moves_node W a s nd); [done | intros box _; by apply same_mail_transit | intros t; by destruct Hm as [-> _]].
Qed.
(** ** Boot and the begin of calls *)

Lemma Boot_ok a reliability garbage : valid (Boot a reliability garbage) ->
  exists s nd, new_PostOffice newmem a reliability nBoxes garbage fresh_clock = Ret (s, nd) /\ node_ok big a (s, nd) /\
    (forall box, 0 <= box -> transit big nd box = []) /\ forall t, holding (tasks nd !! t) = [].
Proof using newmem_length.
  intros [Ha Hg]. unfold new_PostOffice, new_Network. rewrite Schedule_Ret. cbn [bind]. do 2 eexists. split; [reflexivity|].
  pose proof (newmem_length MaxPacketSize ltac:(done)) as Hm. change MaxPacketSize with 52 in *.
  set (ts := {[worker := PostalDelivery Worker_P (newmem 52)]} : gmap positive task).
  assert (forall t k, ts !! t = Some k -> t = worker /\ k = PostalDelivery Worker_P (newmem 52)) as Hts.
  { intros t k Hk. by apply lookup_singleton_Some in Hk as [-> ->]. }
  assert (forall (f : task -> option sender), f (PostalDelivery Worker_P (newmem 52)) = None -> omap f ts = ∅) as Hom.
  { intros f Hf. unfold ts. by rewrite omap_singleton_None. }
  assert (forall L box, replicate 10 (new_SynchList (A := Mail)) !! Z.to_nat box = Some L -> L = new_SynchList) as Hrep.
  { intros L box HL. by apply lookup_replicate in HL as [-> _]. }
  split; [|split].
  - split; try done; [split; repeat constructor | by repeat constructor |]. split; try done.
    + rewrite Hom by done. split; [exists 0%nat; split; [reflexivity | done] | done | done].
    + exists Worker_P, (newmem 52). split; [cbn [tasks]; unfold ts; by rewrite (omap_singleton_Some _ _ _ (Worker_P, newmem 52))|].
      split; [lia|]. split; [constructor|]. done.
    + split; [done|]. intros box L _ HL. rewrite (Hrep L box HL). cbn [tasks]. fold ts.
      assert (omap (in_box box) ts = ∅) as -> by (unfold ts; by rewrite omap_singleton_None). split; [apply monitor_new | constructor | done].
    + intros t k Hk. by destruct (Hts t k Hk) as [_ ->].
  - intros box Hb. unfold transit, boxed. cbn [office boxes]. change (Z.to_nat nBoxes) with 10%nat.
    destruct (replicate 10 _ !! _) as [L|] eqn:HL; [rewrite (Hrep L box HL)|]; done.
  - intros t. cbn [tasks]. fold ts. destruct (ts !! t) as [k|] eqn:Hk; [|done]. by destruct (Hts t k Hk) as [_ ->].
Qed.
Lemma office_same_send po : set_sent (messageSent po) (set_sendLock (sendLock po) po) = po.
Proof using Type. by destruct po. Qed.

Lemma node_same nd : set_office (office nd) nd = nd /\ set_network (network nd) nd = nd.
Proof using Type. by destruct nd. Qed.

(** What a call is when it begins. *)
Definition begun a (s : State) nd t (k : C task) : Prop :=
  exists k0, k = Ret k0 /\ let nd' := set_tasks (<[t := k0]> (tasks nd)) nd in
    node_ok big a (s, nd') /\ (forall box, 0 <= box -> transit big nd' box = transit big nd box) /\
    forall u, holding (tasks nd' !! u) = holding (tasks nd !! u).

Lemma Enter_Receive_ok a s nd t box into : node_ok big a (s, nd) -> tasks nd !! t = None -> valid (Enter_Receive a t box into) ->
  begun a s nd t (begin_Receive box into (office nd)).
Proof using Type.
  intros S Ht [Hb Hi]. pose proof (se_J _ _ _ S) as K. unfold begin_Receive.
  rewrite (ni_boxes _ _ _ _ K), (proj2 (Z.leb_le _ _)), (proj2 (Z.ltb_lt _ _)) by lia. cbn [andb ASSERT bind].
  eexists. split; [reflexivity|]. cbn zeta. split; [|split].
  - apply (settled_node big a s nd _ S).
    pose proof (box_update big a (handlers s) nd t (Some (Receiving Remove_Acquire box into)) (boxes (office nd)) (network nd) (messageAvailable (office nd)) K) as Hup.
    rewrite office_same, (proj2 (node_same nd)), (proj1 (node_same nd)) in Hup. apply Hup; try done; clear Hup.
    + by rewrite Ht.
    + apply (boxes_enter a _ _ _ _ Remove_Acquire box); try done; [apply K | by rewrite Ht | cbn; by rewrite decide_True].
    + rewrite <- omap_alter, omap_unseen; [apply K | by rewrite Ht].
    + intros k [= <-]. split; [done|]. split; [done|]. change MaxMailSize with 40 in Hi. lia.
  - intros b _. unfold transit, hand. cbn. rewrite lookup_insert_ne; [done|].
    intros ->. destruct (the_worker _ _ _ _ _ (ni_recv _ _ _ _ K)) as [(? & ? & E) _]. congruence.
  - intros u. cbn. destruct (decide (u = t)) as [->|]; [by rewrite lookup_insert_eq, Ht | by rewrite lookup_insert_ne].
Qed.

(** The buffer of Send. *)
Lemma begin_Send_ok a po h m d : netAddr po = a -> is_i32 a -> numBoxes po = nBoxes -> is_i32 (p_to h) -> 0 <= m_to m < nBoxes -> is_i32 (m_from m) ->
  0 <= m_length m <= MaxMailSize -> m_length m <= Z.of_nat (length d) ->
  exists h' b, begin_Send big newmem h m d po = Ret (Sending Send_Acquire h' m d b false) /\ sender_ok big a (Send_Acquire, h', m, d, b).
Proof using newmem_length.
  intros Ha Hai Hn Ht Hb Hf Hl Hd. change MaxMailSize with 40 in *. unfold begin_Send. change MaxMailSize with 40. change MaxPacketSize with 52.
  rewrite Hn, !(proj2 (Z.leb_le _ _)), (proj2 (Z.ltb_lt _ _)) by lia. cbn [andb ASSERT bind].
  pose proof (newmem_length 52 ltac:(lia)) as Hm. pose proof (length_mail_bytes big m) as Hmb.
  rewrite copy_front by lia. rewrite Hmb. cbn [bind].
  destruct (OpenFile.copy_from_lookup d 0 (m_length m)) as (bs & -> & Ebs & Hbs); [lia..|]. cbn [bind]. change (Z.to_nat 0) with 0%nat in Ebs. rewrite drop_0 in Ebs.
  change sizeof_MailHeader with 12. rewrite copy_after_header by (done || lia). cbn [bind].
  set (h' := mkPacketHeader _ _ _). exists h'. eexists. split; [reflexivity|]. unfold sender_ok, frame_letter. rewrite <- Ebs.
  split; [|split; [exact Ha|split; [by eexists | rewrite !length_app, length_drop; lia]]].
  assert (p_length h' = m_length m + 12) as El by (unfold h'; cbn; apply u32_small; unfold is_u32; lia).
  split; cbn [fst snd]; try done; try lia. split; [done|]. split; [cbn; by rewrite Ha|]. rewrite El. lia.
Qed.

Lemma Enter_Send_ok a s nd t h m d : node_ok big a (s, nd) -> tasks nd !! t = None -> valid (Enter_Send a t h m d) ->
  begun a s nd t (begin_Send big newmem h m d (office nd)).
Proof using newmem_length.
  intros S Ht (H1 & H2 & H3 & H4 & H5). pose proof (se_J _ _ _ S) as K. pose proof (ni_send _ _ _ _ K) as Hs.
  destruct (begin_Send_ok a (office nd) h m d) as (h' & b & Hbeg & Hok); try done; [apply K | apply K | apply K |].
  eexists. split; [exact Hbeg|]. cbn zeta. set (k := Sending _ _ _ _ _ _). split.
  - apply (settled_node big a s nd _ S).
    destruct (sending_update big a (handlers s) (handlers s) nd t (Some k) (sendLock (office nd)) (messageSent (office nd)) K) as [K' _];
      [by rewrite Ht | done | | by rewrite office_same_send, (proj1 (node_same nd)) in K'].
    destruct Hs as [(n & Hn & Hph) Hl Hf]. split.
    + exists n. split; [done|]. unfold send_phase in *. destruct (sendLock (office nd)) as [u|]; [|done].
      destruct Hph as (f & Hu & Hp). exists f. split; [|done]. rewrite lookup_partial_alter_ne; [done|].
      intros <-. by rewrite lookup_omap, Ht in Hu.
    + intros u f. destruct (decide (u = t)) as [->|]; [rewrite lookup_partial_alter_eq; intros [= <-]; by cbn|].
      rewrite lookup_partial_alter_ne by done. apply Hl.
    + intros u f. destruct (decide (u = t)) as [->|]; [rewrite lookup_partial_alter_eq; by intros [= <-]|].
      rewrite lookup_partial_alter_ne by done. apply Hf.
  - split.
    + intros box _. unfold transit, hand. cbn. rewrite lookup_insert_ne; [done|].
      intros ->. destruct (the_worker _ _ _ _ _ (ni_recv _ _ _ _ K)) as [(? & ? & E) _]. congruence.
    + intros u. cbn. destruct (decide (u = t)) as [->|]; [by rewrite lookup_insert_eq, Ht | by rewrite lookup_insert_ne].
Qed.
(** ** The network *)

Lemma deliver_node a s nd d : node_ok big a (s, nd) -> wire_ok big a d ->
  let nd' := set_network (set_sock (sock (network nd) ++ [d]) (network nd)) nd in
  node_ok big a (s, nd') /\ forall box, transit big nd' box = transit big nd box ++ filter (fun x => box_of x = box) [wire_letter big d].
Proof using Type.
  intros S Hd nd'. split.
  - apply (settled_node big a s nd _ S). pose proof (se_J _ _ _ S) as [? ? ? ? ? ? (p & b & Hw & Hl & Hs & Hr) ? ?]. split; try done.
    exists p, b. split; [done|]. split; [done|]. split; [|exact Hr]. cbn. apply Forall_app. split; [done | by constructor].
  - intros box. unfold transit, arriving. cbn. rewrite fmap_app, !filter_app, <- !app_assoc. done.
Qed.

Lemma deliver_ok W b d : world_ok W -> is_Some (W !! b) -> wire_ok big b d ->
  world_ok (deliver (Some (b, d)) W) /\ moves W [Posted b (wire_letter big d)] (deliver (Some (b, d)) W).
Proof using Type.
  intros HW [[s nd] Hb] Hd. destruct (deliver_node b s nd d (HW b (s, nd) Hb) Hd) as [Hok Htr]. set (nd' := set_network _ nd) in *.
  assert (deliver (Some (b, d)) W = <[b := (s, nd')]> W) as ->.
  { cbn. apply map_eq. intros c. destruct (decide (c = b)) as [->|]; [by rewrite lookup_alter_eq, Hb, lookup_insert_eq|].
    by rewrite lookup_alter_ne, lookup_insert_ne by done. }
  split; [by apply world_insert|]. split.
  - intros a box _. unfold in_transit, posted. cbn. destruct (decide (a = b)) as [->|Hne].
    + rewrite lookup_insert_eq, Hb, Htr, filter_cons, filter_nil.
      case_decide as Hc; [by rewrite decide_True by apply Hc | by rewrite decide_False by (intros E; by apply Hc)].
    + rewrite lookup_insert_ne by done. rewrite decide_False by (intros [E _]; by apply Hne). by rewrite app_nil_r.
  - intros a t. unfold in_hand. cbn. rewrite app_nil_r. destruct (decide (a = b)) as [->|]; [by rewrite lookup_insert_eq, Hb | by rewrite lookup_insert_ne].
Qed.

(** ** Statements *)

Lemma send_kind bound random t p h m d b su (sn : State * Node) o out sn' :
  send_statement big newmem bound random t p h m d b su sn = Ret (o, out, sn') -> holding (next_task o) = [].
Proof using Type.
  destruct sn as [s nd]. destruct p; cbn [send_statement]; [by intros [= <- _ _] | | by intros [= <- _ _] ..].
  intros ([[ok out'] s'] & _ & [= <- _ _])%bind_Ret. done.
Qed.

Lemma worker_kind t p buffer nd o nd' : worker_statement big newmem t p buffer nd = Ret (o, nd') -> holding (next_task o) = [].
Proof using Type.
  destruct p; cbn [worker_statement].
  - by intros [= <- _].
  - intros ([[h b] N] & _ & (u & _ & (u' & _ & (q & _ & [= <- _])%bind_Ret)%bind_Ret)%bind_Ret)%bind_Ret. done.
  - intros ([n po] & _ & [= <- _])%bind_Ret. done.
Qed.

Lemma holding_proceed t o (ts : gmap positive task) u : holding (proceed t o ts !! u) =
  if decide (u = t) then holding (next_task o) else holding (ts !! u).
Proof using Type.
  rewrite proceed_next_task. case_decide as E; [subst; by rewrite lookup_partial_alter_eq | by rewrite lookup_partial_alter_ne].
Qed.

(** A thread without a letter stays without. *)
Lemma holding_same t o (ts : gmap positive task) : holding (next_task o) = [] -> holding (ts !! t) = [] ->
  forall u, holding (proceed t o ts !! u) = holding (ts !! u).
Proof using Type. intros Ho Ht u. rewrite holding_proceed. case_decide as E; [by subst; rewrite Ho, Ht | done]. Qed.

Definition stepped (W : World) (e : event) : Prop :=
  exists W', exec big newmem e W = Ret W' /\ world_ok W' /\ moves W (marks_of e W) W'.

Lemma Step_send W a t random s nd p h m d b su : world_ok W -> W !! a = Some (s, nd) -> tasks nd !! t = Some (Sending p h m d b su) ->
  can_run t (Sending p h m d b su) nd = true -> stepped W (Step a t random).
Proof using newmem_length.
  intros HW Ha Ht Hr. destruct (send_step big newmem newmem_length a s nd t p h m d b su (is_bound W) random (HW a (s, nd) Ha) Ht Hr)
    as (o & out & s' & nd' & Hst & Hts & Hok & Htr & Hout).
  assert (marks_of (Step a t random) W = match p, out with Send_Send, Some (to, _) => [Posted to (got h m d)] | _, _ => [] end) as Em.
  { cbn [marks_of]. rewrite Ha, Ht. cbn [statement]. by destruct p; rewrite ?Hst. }
  unfold stepped. rewrite Em. cbn [exec]. rewrite Ha, Ht. cbn [statement]. rewrite Hst. cbn [bind]. rewrite Hts.
  set (nd2 := set_tasks _ nd') in *. assert (world_ok (<[a := (s', nd2)]> W)) as HW1 by (by apply world_insert).
  assert (moves W [] (<[a := (s', nd2)]> W)) as HM.
  { apply (moves_node W a s nd); [done | intros; apply Htr|]. apply holding_same; [by eapply send_kind | by rewrite Ht]. }
  eexists. split; [reflexivity|]. destruct out as [[to dg]|]; [|by destruct p].
  destruct (Hout to dg eq_refl) as (-> & -> & Hb & Hd & Hx). unfold is_bound in Hb. apply bool_decide_eq_true in Hb.
  assert (is_Some (<[a := (s', nd2)]> W !! p_to h)) as Hb' by (destruct (decide (p_to h = a)) as [->|]; [by rewrite lookup_insert_eq | by rewrite lookup_insert_ne]).
  destruct (deliver_ok _ (p_to h) dg HW1 Hb' Hd) as [HW2 HM2]. split; [done|].
  unfold got. rewrite <- Hx. exact (moves_trans _ [] _ _ _ HM HM2).
Qed.

Lemma Step_worker W a t random s nd p b : world_ok W -> W !! a = Some (s, nd) -> tasks nd !! t = Some (PostalDelivery p b) ->
  can_run t (PostalDelivery p b) nd = true -> stepped W (Step a t random).
Proof using newmem_length.
  intros HW Ha Ht Hr. destruct (worker_step big newmem newmem_length a s nd t p b (HW a (s, nd) Ha) Ht Hr) as (o & nd' & Hst & Hts & Hok & Htr).
  unfold stepped. cbn [exec marks_of]. rewrite Ha, Ht. cbn [statement]. rewrite Hst. cbn [bind]. rewrite Hts.
  eexists. split; [reflexivity|]. split; [by apply world_insert|].
  apply (moves_node W a s nd); [done | done |]. apply holding_same; [by eapply worker_kind | by rewrite Ht].
Qed.

(** What a statement of Receive at [p] leaves in the trace. *)
Definition receive_marks (a : Z) t (p : SynchList.place Mail) (box : Z) (o : outcome) : list mark :=
  match p, o with
  | Remove_Remove, Goes (Receiving (Remove_Release mail) _ _) => [Taken a t box (mail_letter mail)]
  | _, Ends (Received h m d) => [Given a t (got h m d)]
  | _, _ => []
  end.

Lemma moves_receive W a s nd t p box into o nd2 : W !! a = Some (s, nd) -> tasks nd !! t = Some (Receiving p box into) ->
  tasks nd2 = proceed t o (tasks nd) -> 0 <= box -> received p box into o -> removes p box into o (transit big nd) (transit big nd2) ->
  moves W (receive_marks a t p box o) (<[a := (s, nd2)]> W).
Proof using Type.
  intros Ha Ht Hts Hb0 Hrec Hrem. set (W' := <[a := (s, nd2)]> W) in *.
  assert (forall b, b <> a -> (forall box, in_transit W' b box = in_transit W b box) /\ forall u, in_hand W' b u = in_hand W b u) as Hoth.
  { intros b Hb. unfold in_transit, in_hand, W'. by rewrite lookup_insert_ne. }
  assert (forall b, in_transit W a b = transit big nd b /\ in_transit W' a b = transit big nd2 b) as Htr.
  { intros b. unfold in_transit, W'. by rewrite lookup_insert_eq, Ha. }
  assert (forall u, in_hand W' a u = if decide (u = t) then holding (next_task o) else in_hand W a u) as Hh.
  { intros u. unfold in_hand, W'. rewrite lookup_insert_eq, Ha, Hts. apply holding_proceed. }
  assert (in_hand W a t = holding (Some (Receiving p box into))) as Ht0 by (unfold in_hand; by rewrite Ha, Ht).
  assert ((forall b, 0 <= b -> transit big nd2 b = transit big nd b) -> holding (next_task o) = [] -> holding (tasks nd !! t) = [] -> moves W [] W') as Hq.
  { intros H1 H2 H3. apply (moves_node W a s nd); [done | done |]. rewrite Hts. by apply holding_same. }
  destruct p as [m|m| | | | | | |m]; cbn [receive_marks received removes] in *;
    try (destruct Hrec as (p' & -> & Hp'); apply Hq; [done | | by rewrite Ht]; cbn; destruct p'; try done; by specialize (Hp' _ eq_refl)).
  - destruct Hrem as (m & -> & Hbox & Hne). split.
    + intros b c Hc. unfold posted, taken. cbn. destruct (decide (b = a)) as [->|Hba].
      * destruct (Htr c) as [-> ->]. rewrite app_nil_r. destruct (decide (c = box)) as [->|Hcb].
        -- rewrite decide_True by done. exact Hbox.
        -- rewrite decide_False by (intros [_ E]; congruence). symmetry. by apply Hne.
      * rewrite decide_False by (intros [E _]; congruence). rewrite app_nil_r. symmetry. by apply Hoth.
    + intros b u. unfold taken_by, given_to. cbn. destruct (decide (b = a)) as [->|Hba].
      * rewrite Hh. destruct (decide (u = t)) as [->|Hut]; [by rewrite decide_True, Ht0|].
        rewrite decide_False by (intros [_ E]; congruence). apply app_nil_r.
      * rewrite decide_False by (intros [E _]; congruence). rewrite app_nil_r. symmetry. by apply Hoth.
  - destruct Hrec as (into' & -> & Hgot). split.
    + intros b c Hc. unfold posted, taken. cbn. rewrite app_nil_r. symmetry. destruct (decide (b = a)) as [->|Hba]; [|by apply Hoth].
      destruct (Htr c) as [-> ->]. by apply Hrem.
    + intros b u. unfold taken_by, given_to. cbn. rewrite app_nil_r. destruct (decide (b = a)) as [->|Hba].
      * rewrite Hh. destruct (decide (u = t)) as [->|Hut]; [rewrite decide_True, Ht0 by done; cbn; by rewrite Hgot|].
        by rewrite decide_False by (intros [_ E]; congruence).
      * rewrite decide_False by (intros [E _]; congruence). symmetry. by apply Hoth.
Qed.

Lemma Step_receive W a t random s nd p box into : world_ok W -> W !! a = Some (s, nd) -> tasks nd !! t = Some (Receiving p box into) ->
  can_run t (Receiving p box into) nd = true -> stepped W (Step a t random).
Proof using Type.
  intros HW Ha Ht Hr. pose proof (ni_tasks _ _ _ _ (se_J _ _ _ (HW a (s, nd) Ha)) t _ Ht) as (_ & Hb & _).
  destruct (receive_step big a s nd t p box into (HW a (s, nd) Ha) Ht Hr) as (o & nd' & Hst & Hts & Hrec & Hok & Hrem).
  unfold stepped. assert (marks_of (Step a t random) W = receive_marks a t p box o) as ->.
  { cbn [marks_of]. rewrite Ha, Ht. cbn [statement]. destruct p; rewrite Hst; done. }
  cbn [exec]. rewrite Ha, Ht. cbn [statement]. rewrite Hst. cbn [bind]. rewrite Hts.
  eexists. split; [reflexivity|]. split; [by apply world_insert|]. apply (moves_receive W a s nd t p box into o); try done. lia.
Qed.

(** ** Executions *)

Lemma event_ok W e : world_ok W -> enabled e W = true -> valid e -> stepped W e.
Proof using newmem_length.
  intros HW He Hv. destruct e as [a rel g|a t h m d|a t box into|a t random|a|a]; cbn [enabled] in He.
  - apply bool_decide_eq_true in He. destruct (Boot_ok a rel g Hv) as (s & nd & Hb & Hok & Htr & Hh).
    unfold stepped. cbn [exec marks_of]. rewrite Hb. cbn [bind]. eexists. split; [reflexivity|]. split; [by apply world_insert|].
    apply moves_quiet; intros; unfold in_transit, in_hand; (destruct (decide (a0 = a)) as [->|]; [rewrite lookup_insert_eq, He; auto | by rewrite lookup_insert_ne]).
  - destruct (W !! a) as [[s nd]|] eqn:Ha; [|done]. apply bool_decide_eq_true in He.
    destruct (Enter_Send_ok a s nd t h m d (HW a _ Ha) He Hv) as (k & Hk & Hok & Htr & Hh).
    unfold stepped. cbn [exec marks_of]. rewrite Ha. unfold begin. rewrite Hk. cbn [bind]. eexists. split; [reflexivity|].
    split; [by apply world_insert | by apply (moves_node W a s nd)].
  - destruct (W !! a) as [[s nd]|] eqn:Ha; [|done]. apply bool_decide_eq_true in He.
    destruct (Enter_Receive_ok a s nd t box into (HW a _ Ha) He Hv) as (k & Hk & Hok & Htr & Hh).
    unfold stepped. cbn [exec marks_of]. rewrite Ha. unfold begin. rewrite Hk. cbn [bind]. eexists. split; [reflexivity|].
    split; [by apply world_insert | by apply (moves_node W a s nd)].
  - destruct (W !! a) as [[s nd]|] eqn:Ha; [|done]. destruct (tasks nd !! t) as [[p h m d b su|p box into|p b]|] eqn:Ht; [..|done].
    + by apply (Step_send W a t random s nd p h m d b su).
    + by apply (Step_receive W a t random s nd p box into).
    + by apply (Step_worker W a t random s nd p b).
  - apply bool_decide_eq_true in He as [[s nd] Ha]. destruct (Tick_ok big a s nd (HW a _ Ha)) as (s' & nd' & Ht & Hok & Hm).
    unfold stepped. cbn [exec marks_of]. rewrite Ha, Ht. cbn [bind]. eexists. split; [reflexivity|].
    split; [by apply world_insert | by apply (same_mail_moves W a s nd)].
  - destruct (W !! a) as [[s nd]|] eqn:Ha; [|done]. destruct (AllSleep_ok big a s nd (HW a _ Ha)) as (s' & nd' & Ht & Hok & Hm).
    unfold stepped. cbn [exec marks_of]. rewrite Ha, Ht. cbn [bind]. eexists. split; [reflexivity|].
    split; [by apply world_insert | by apply (same_mail_moves W a s nd)].
Qed.

Lemma run_ok es W : world_ok W -> happens big newmem es W = true -> Forall valid es ->
  exists W', run big newmem es W = Ret W' /\ world_ok W' /\ moves W (trace es W) W'.
Proof using newmem_length.
  revert W. induction es as [|e es IH]; intros W HW Hh Hv; [exists W; split; [done|]; split; [done | by apply moves_quiet]|].
  cbn [happens] in Hh. apply andb_true_iff in Hh as [He Hh]. apply Forall_cons in Hv as [Hve Hv].
  destruct (event_ok W e HW He Hve) as (W1 & Hx & HW1 & HM). rewrite Hx in Hh. destruct (IH W1 HW1 Hh Hv) as (W2 & Hr & HW2 & HM2).
  exists W2. cbn [run trace]. rewrite Hx. cbn [bind]. split; [done|]. split; [done|]. by eapply moves_trans.
Qed.
End Delivery.

(** ** The property *)

(** C5: the post office delivers. Take any number of machines, started at any time,
    and any interleaving of calls of Send and Receive by any of their threads, of
    the postal workers, the clocks and the network, with packets lost by chance.
    No assertion of the post office or of the device fails. The letters put on the
    network for a box of a machine, in the order of their sending, are those that
    were taken from the box, in order, followed by those on their way or in the
    box: mail is delivered in order, at most once, uncorrupted and to its address.
    And every call of Receive gives its thread the headers and the bytes of the
    letter that it took. *)
Theorem post_office_delivers big newmem es :
  (forall n, 0 <= n -> Z.of_nat (length (newmem n)) = n) ->
  happens big newmem es ∅ = true -> Forall valid es ->
  exists W, run big newmem es ∅ = Ret W /\
    let tr := trace big newmem es ∅ in
    (forall a box, 0 <= box -> posted a box tr = taken a box tr ++ in_transit big W a box) /\
    (forall a t, taken_by a t tr = given_to a t tr ++ in_hand W a t).
Proof.
  intros Hm Hh Hv. destruct (run_ok big newmem Hm es ∅ (map_Forall_empty _) Hh Hv) as (W & Hr & _ & [H1 H2]).
  exists W. split; [done|]. split; [intros a box Hb; by rewrite <- (H1 a box Hb) | intros a t; by rewrite <- H2].
Qed.

(** ** A message from machine 0 to box 3 of machine 1 *)

Module Demo.

Definition memory (n : Z) : list Z := replicate (Z.to_nat n) 77.
Definition garbage : Network := mkNetwork 0 (double_of 0) [] true (mkPacketHeader 9 9 9) (replicate 52 5).

Definition exchange : list event :=
  [Boot 0 (double_of 1) garbage; Boot 1 (double_of 1) garbage; Enter_Receive 1 5 3 (replicate 40 0);
   Enter_Send 0 2 (mkPacketHeader 1 0 0) (mkMailHeader 3 2 3) [10; 20; 30; 40];
   Step 1 5 0; Step 1 5 0; Step 0 2 0; Step 0 2 50; AllSleep 0; Step 0 2 0; Step 0 2 0; AllSleep 1;
   Step 1 1 0; Step 1 1 0; Step 1 1 0; Step 1 1 0; Step 1 1 0; Step 1 1 0;
   Step 1 5 0; Step 1 5 0; Step 1 5 0; Step 1 5 0].

Definition message : letter := (mkPacketHeader 1 0 15, mkMailHeader 3 2 3, [10; 20; 30]).

Lemma memory_length n : 0 <= n -> Z.of_nat (length (memory n)) = n.
Proof. intros Hn. unfold memory. rewrite length_replicate. lia. Qed.

Lemma exchange_valid : Forall valid exchange.
Proof. repeat constructor; vm_compute; try done; intros [=]. Qed.

Lemma post_office_delivers_witness : exists W, run true memory exchange ∅ = Ret W /\
  trace true memory exchange ∅ = [Posted 1 message; Taken 1 5 3 message; Given 1 5 message] /\
  in_transit true W 1 3 = [] /\ in_hand W 1 5 = [].
Proof.
  assert (trace true memory exchange ∅ = [Posted 1 message; Taken 1 5 3 message; Given 1 5 message]) as E by (vm_compute; reflexivity).
  destruct (post_office_delivers true memory exchange memory_length) as (W & Hr & H1 & H2); [vm_compute; reflexivity | exact exchange_valid |].
  rewrite E in H1, H2. exists W. split; [exact Hr|]. split; [exact E|].
  split; [specialize (H1 1 3 ltac:(lia)); by injection H1 | specialize (H2 1 5%positive); by injection H2].
Defined.
End Demo.
