(* ===== verification/ThreadProg.v ===== *)
(** * Programs of threads with locks and condition variables

    For kernel programs of many threads (Passport.v): a thread is an interaction
    tree whose events are calls of threads/synch.cc and of class Thread, and blocks
    of code without such a call, which run in one piece because the processor
    changes hands only inside the calls. Locks and conditions are taken at the
    contract that Threads.v proves of them. The file has the executions of a set of
    threads, and a logic of assertions for one thread: what it holds at every call,
    and invariants that all threads keep. The theorem: what the logic shows of each
    program holds of every execution; in particular threads that respect an order
    of the locks, and do not sleep with a lock, never block each other for ever. *)

From S2P Require Import Prelude.
From ITree Require Core.ITreeDefinition.

Notation itree := ITreeDefinition.itree.
Notation observe := ITreeDefinition.observe.
Notation RetF := ITreeDefinition.RetF.
Notation TauF := ITreeDefinition.TauF.
Notation VisF := ITreeDefinition.VisF.

Declare Scope prog_scope.
Delimit Scope prog_scope with prog.

Notation "x ← y ; z" := (ITreeDefinition.ITree.bind y (fun x => z)) : prog_scope.
Notation "y ;; z" := (ITreeDefinition.ITree.bind y (fun _ => z)) : prog_scope.

(** ** Events

    [St]: the state that threads share; [L], [V]: the names of the locks and of the
    condition variables; [A]: the threads. *)

Inductive op (St L V A : Type) : Type -> Type :=
| Acquire (l : L) : op St L V A unit
| Release (l : L) : op St L V A unit
| Wait (c : V) (l : L) : op St L V A unit
| Woken (c : V) (l : L) : op St L V A unit   (* inside Wait: asleep, then on the way to the lock *)
| Signal (c : V) (l : L) : op St L V A unit
| Broadcast (c : V) (l : L) : op St L V A unit
| Yield : op St L V A unit
| Fork (b : A) : op St L V A unit
| Random : op St L V A Z
| Do {X : Type} (f : St -> C (X * St)) : op St L V A X.
Arguments Acquire {St L V A} l.
Arguments Release {St L V A} l.
Arguments Wait {St L V A} c l.
Arguments Woken {St L V A} c l.
Arguments Signal {St L V A} c l.
Arguments Broadcast {St L V A} c l.
Arguments Yield {St L V A}.
Arguments Fork {St L V A} b.
Arguments Random {St L V A}.
Arguments Do {St L V A X} f.

Section Programs.
Context {St L V A : Type} `{!EqDecision L, !Countable L, !EqDecision V, !Countable V, !EqDecision A, !Countable A}.
Notation event := (op St L V A).
Notation prog := (itree event).

Definition call {X} (e : event X) : prog X := ITreeDefinition.ITree.trigger e.
Definition return_ {X} (x : X) : prog X := ITreeDefinition.go (RetF x).

(** [while (body returns inl)] *)
Definition loop {X Y} (body : X -> prog (X + Y)) : X -> prog Y := ITreeDefinition.ITree.iter body.

(** [for (int i = 0; i < n; i++) p] *)
Fixpoint repeat_ (n : nat) (p : prog unit) : prog unit :=
  match n with O => return_ tt | S n => (p ;; repeat_ n p)%prog end.

(** [for (int i = a; i < a + n; i++) p(i)], with a variable that the body changes *)
Fixpoint for_each {X} (a : Z) (n : nat) (p : Z -> X -> prog X) (x : X) : prog X :=
  match n with O => return_ x | S n => (x ← p a x; for_each (a + 1) n p x)%prog end.

(** ** Executions *)

(** A condition variable: the queue, and the lock of the threads in it. *)
Record CondVar := mkCondVar { waitQueue : list A; waitingLock : option L }.

Record World := mkWorld {
  shared : St;
  owner : gmap L A;
  conds : gmap V CondVar;
  pool : gmap A (prog unit)
}.

Definition set_shared s W := mkWorld s (owner W) (conds W) (pool W).
Definition set_owner o W := mkWorld (shared W) o (conds W) (pool W).
Definition set_conds c W := mkWorld (shared W) (owner W) c (pool W).
Definition set_pool p W := mkWorld (shared W) (owner W) (conds W) p.

Variable code : A -> prog unit.  (* what the threads run *)

Definition put a (p : prog unit) W := set_pool (<[a := p]> (pool W)) W.
Definition take_lock a l W := set_owner (<[l := a]> (owner W)) W.
Definition free_lock a l W := if bool_decide (owner W !! l = Some a) then set_owner (delete l (owner W)) W else W.

Definition cond_of c W : CondVar := default (mkCondVar [] None) (conds W !! c).
Definition put_cond c d W := set_conds (<[c := d]> (conds W)) W.

Definition asleep a c W : bool := bool_decide (a ∈ waitQueue (cond_of c W)).

Definition wake_first (d : CondVar) : CondVar :=
  match waitQueue d with
  | [] => d
  | _ :: q => mkCondVar q (if bool_decide (q = []) then None else waitingLock d)
  end.

Definition wake_all (d : CondVar) : CondVar := mkCondVar [] None.

(** A call by [a] that is not blocked, and what comes after it; [r] is what rand()
    returns. A program that forks a thread twice is outside the model. *)
Definition perform a (r : Z) {X} (e : event X) : (X -> prog unit) -> World -> C World :=
  match e in op _ _ _ _ X return (X -> prog unit) -> World -> C World with
  | Acquire l => fun k W => Ret (put a (k tt) (take_lock a l W))
  | Release l => fun k W => Ret (put a (k tt) (free_lock a l W))
  | Wait c l => fun k W =>
      let d := cond_of c W in
      match waitingLock d with
      | Some l' => if bool_decide (l' = l) then
          Ret (put a (ITreeDefinition.go (VisF (Woken c l) k)) (free_lock a l (put_cond c (mkCondVar (waitQueue d ++ [a]) (Some l)) W)))
          else Ret (put a (k tt) W)
      | None => Ret (put a (ITreeDefinition.go (VisF (Woken c l) k)) (free_lock a l (put_cond c (mkCondVar (waitQueue d ++ [a]) (Some l)) W)))
      end
  | Woken c l => fun k W => Ret (put a (k tt) (take_lock a l W))
  | Signal c l => fun k W =>
      let d := cond_of c W in
      Ret (put a (k tt) (if bool_decide (waitingLock d = Some l) then put_cond c (wake_first d) W else W))
  | Broadcast c l => fun k W =>
      let d := cond_of c W in
      Ret (put a (k tt) (if bool_decide (waitingLock d = Some l) then put_cond c (wake_all d) W else W))
  | Yield => fun k W => Ret (put a (k tt) W)
  | Fork b => fun k W =>
      if bool_decide (pool W !! b = None) && bool_decide (map_Forall (fun _ x => x <> b) (owner W)) && negb (bool_decide (a = b))
      then Ret (put a (k tt) (put b (code b) W)) else Undef
  | Random => fun k W => Ret (put a (k r) W)
  | Do f => fun k W => let! (x, s) := f (shared W) in Ret (put a (k x) (set_shared s W))
  end.

(** One step of the thread [a]; a thread whose program has returned is gone. *)
Definition step a (r : Z) W : C World :=
  match pool W !! a with
  | Some p =>
      match observe p with
      | RetF _ => Ret (set_pool (delete a (pool W)) W)
      | TauF p => Ret (put a p W)
      | VisF e k => perform a r e k W
      end
  | None => Undef
  end.

Definition is_free a l W : bool := bool_decide (owner W !! l = None) || bool_decide (owner W !! l = Some a).

Definition can_perform (a : A) {X} (e : event X) (W : World) : bool :=
  match e with
  | Acquire l => is_free a l W
  | Woken c l => negb (asleep a c W) && is_free a l W
  | _ => true
  end.

Definition can_run a W : bool :=
  match pool W !! a with
  | Some p => match observe p with RetF _ => true | TauF _ => true | @ITreeDefinition.VisF _ _ _ X e k => can_perform a (X:=X) e W end
  | None => false
  end.

(** The next call of [a] waits for [l]. *)
Definition call_waits (a : A) {X} (e : event X) (l : L) (W : World) : Prop :=
  match e with Acquire l' => l' = l | Woken c l' => asleep a c W = false /\ l' = l | _ => False end.

Definition waits_for (a : A) (l : L) (W : World) : Prop :=
  match pool W !! a with
  | Some p => match observe p with @ITreeDefinition.VisF _ _ _ X e k => call_waits a (X:=X) e l W | _ => False end
  | None => False
  end.

(** The thread that has [l] can run, or waits for a lock with that property. *)
Inductive in_use W : L -> Prop :=
| holder_runs l b : owner W !! l = Some b -> can_run b W = true -> in_use W l
| holder_waits l b l' : owner W !! l = Some b -> waits_for b l' W -> in_use W l' -> in_use W l.

(** An execution: the threads that step, with what rand() returns to them. *)
Fixpoint run (es : list (A * Z)) W : C World :=
  match es with [] => Ret W | (a, r) :: es => let! W := step a r W in run es W end.

Fixpoint happens (es : list (A * Z)) W : bool :=
  match es with
  | [] => true
  | (a, r) :: es => can_run a W && (0 <=? r) && match step a r W with Ret W => happens es W | _ => true end
  end.
End Programs.

(** ** The logic

    [Inv] is kept by all threads; it may speak of the owners of the locks.
    [acquires]: when a thread that holds some locks may ask for one; [sleeps]: when
    it may wait on a condition while it holds others; [cv_lock]: the one lock with
    which a condition is used. *)

Record Rules (St L V A : Type) `{Countable L} := mkRules {
  Inv : gmap L A -> St -> Prop;
  acquires : A -> list L -> L -> Prop;
  sleeps : A -> list L -> V -> Prop;
  cv_lock : V -> L
}.
Arguments Inv {St L V A _ _} _ _ _.
Arguments acquires {St L V A _ _} _ _ _ _.
Arguments sleeps {St L V A _ _} _ _ _ _.
Arguments cv_lock {St L V A _ _} _ _.

Section Logic.
Context {St L V A : Type} `{!EqDecision L, !Countable L, !EqDecision V, !Countable V, !EqDecision A, !Countable A}.
Notation event := (op St L V A).
Notation prog := (itree event).
Notation World := (World (St:=St) (L:=L) (V:=V) (A:=A)).
Variable R : Rules St L V A.
Implicit Types (a : A) (l : L) (H : list L) (O : gmap L A).

(** The locks of [a]. *)
Definition held O a H : Prop := NoDup H /\ forall l, O !! l = Some a <-> l ∈ H.

Definition without l H : list L := filter (fun x => x <> l) H.

Definition may_take a H l : Prop :=
  forall O s, Inv R O s -> held O a H -> O !! l = None -> Inv R (<[l := a]> O) s.

Definition may_free a H l : Prop := forall O s, Inv R O s -> held O a H -> Inv R (delete l O) s.

Definition op_ok a H {X} (e : event X) : (list L -> X -> Prop) -> Prop :=
  match e in op _ _ _ _ X return (list L -> X -> Prop) -> Prop with
  | Acquire l => fun Φ => acquires R a H l /\ l ∉ H /\ may_take a H l /\ Φ (l :: H) tt
  | Release l => fun Φ => l ∈ H /\ may_free a H l /\ Φ (without l H) tt
  | Wait c l => fun Φ => l ∈ H /\ l = cv_lock R c /\ acquires R a (without l H) l /\ sleeps R a (without l H) c /\
      may_free a H l /\ may_take a (without l H) l /\ Φ (l :: without l H) tt
  | Woken c l => fun Φ => l ∉ H /\ acquires R a H l /\ sleeps R a H c /\ may_take a H l /\ Φ (l :: H) tt
  | Signal c l | Broadcast c l => fun Φ => l ∈ H /\ l = cv_lock R c /\ Φ H tt
  | Yield | Fork _ => fun Φ => Φ H tt
  | Random => fun Φ => forall r, 0 <= r -> Φ H r
  | Do f => fun Φ => forall O s x s', Inv R O s -> held O a H -> f s = Ret (x, s') -> Inv R O s' /\ Φ H x
  end.

(** [n] steps of the program keep to the rules; [Φ] holds if it returns. *)
Fixpoint wp (n : nat) a H {X} (p : prog X) (Φ : list L -> X -> Prop) : Prop :=
  match n with
  | O => True
  | S n =>
      match observe p with
      | RetF x => Φ H x
      | TauF p => wp n a H p Φ
      | VisF e k => op_ok a H e (fun H x => wp n a H (k x) Φ)
      end
  end.

Definition WP a H {X} (p : prog X) (Φ : list L -> X -> Prop) : Prop := forall n, wp n a H p Φ.

Lemma op_ok_mono a H {X} (e : event X) Φ Ψ : op_ok a H e Φ -> (forall H x, Φ H x -> Ψ H x) -> op_ok a H e Ψ.
Proof.
  intros He Hi. destruct e; cbn in *; naive_solver.
Qed.

Lemma observe_bind {X Y} (p : prog X) (k : X -> prog Y) : observe (ITreeDefinition.ITree.bind p k) =
  match observe p with
  | RetF x => observe (k x)
  | TauF p => TauF (ITreeDefinition.ITree.bind p k)
  | VisF e h => VisF e (fun x => ITreeDefinition.ITree.bind (h x) k)
  end.
Proof. cbv [ITreeDefinition.ITree.bind ITreeDefinition.ITree.subst ITreeDefinition.observe]. cbn. destruct (ITreeDefinition._observe p); reflexivity. Qed.

(** The continuation may be taken at any smaller number of steps. *)
Lemma wp_bind_le n a H {X Y} (p : prog X) (k : X -> prog Y) Φ Ψ : wp n a H p Φ ->
  (forall m H x, (m <= n)%nat -> Φ H x -> wp m a H (k x) Ψ) -> wp n a H (ITreeDefinition.ITree.bind p k) Ψ.
Proof.
  revert H p. induction n as [|n IH]; intros H p Hp Hk; [done|]. cbn [wp] in *.
  rewrite observe_bind.
  destruct (observe p) as [x|p'|X' e h].
  - exact (Hk (S n) H x ltac:(lia) Hp).
  - apply IH; [done|]. intros m H' x Hm. apply Hk. lia.
  - eapply op_ok_mono; [exact Hp|]. intros H' x Hx. apply IH; [done|]. intros m H'' y Hm. apply Hk. lia.
Qed.

Lemma WP_bind a H {X Y} (p : prog X) (k : X -> prog Y) Φ :
  WP a H p (fun H x => WP a H (k x) Φ) -> WP a H (ITreeDefinition.ITree.bind p k) Φ.
Proof. intros Hp n. eapply wp_bind_le; [apply Hp|]. intros m H' x _ Hx. apply Hx. Qed.

Lemma WP_return a H {X} (x : X) Φ : Φ H x -> WP a H (return_ x) Φ.
Proof. intros Hx [|n]; [done | exact Hx]. Qed.

Lemma WP_call a H {X} (e : event X) Φ : op_ok a H e Φ -> WP a H (call e) Φ.
Proof.
  intros He [|n]; [done|]. cbn. eapply op_ok_mono; [exact He|]. intros H' x Hx. destruct n; [done | exact Hx].
Qed.

Lemma WP_mono a H {X} (p : prog X) Φ Ψ : WP a H p Φ -> (forall H x, Φ H x -> Ψ H x) -> WP a H p Ψ.
Proof.
  intros Hp Hi n. specialize (Hp n). revert H p Hp. induction n as [|n IH]; intros H p Hp; [done|]. cbn [wp] in *.
  destruct (observe p); [by apply Hi | by apply IH |]. eapply op_ok_mono; [exact Hp|]. intros H' y. apply IH.
Qed.

(** A loop with an invariant. *)
Lemma WP_loop a {X Y} (I : list L -> X -> Prop) (body : X -> prog (X + Y)) Φ :
  (forall H x, I H x -> WP a H (body x) (fun H r => match r with inl x => I H x | inr y => Φ H y end)) ->
  forall H x, I H x -> WP a H (loop body x) Φ.
Proof.
  intros Hb H x Hx n. revert H x Hx. induction n as [n IH] using lt_wf_ind. intros H x Hx.
  assert (wp n a H (ITreeDefinition.ITree.bind (body x)
    (fun r => match r with inl x => ITreeDefinition.go (TauF (loop body x)) | inr y => return_ y end)) Φ) as Hw.
  { eapply wp_bind_le; [by apply Hb|]. intros m H' [x'|y] Hm Hr; [|by apply WP_return].
    destruct m as [|m]; [done|]. cbn. apply IH; [lia | done]. }
  destruct n; [done|]. exact Hw.
Qed.

Lemma WP_repeat a (I : list L -> Prop) n (p : prog unit) Φ :
  (forall H, I H -> WP a H p (fun H _ => I H)) -> (forall H, I H -> Φ H tt) -> forall H, I H -> WP a H (repeat_ n p) Φ.
Proof.
  intros Hp Hf. induction n as [|n IH]; intros H Hi; cbn [repeat_]; [by apply WP_return, Hf|].
  apply WP_bind. eapply WP_mono; [by apply Hp|]. intros H' u Hi'. by apply IH.
Qed.

Lemma WP_for_each a {X} (I : Z -> list L -> X -> Prop) n (p : Z -> X -> prog X) i H x Φ :
  (forall j H x, i <= j < i + Z.of_nat n -> I j H x -> WP a H (p j x) (fun H x => I (j + 1) H x)) ->
  (forall H x, I (i + Z.of_nat n) H x -> Φ H x) -> I i H x -> WP a H (for_each i n p x) Φ.
Proof.
  revert i H x. induction n as [|n IH]; intros i H x Hp Hf Hi; cbn [for_each].
  { apply WP_return, Hf. by rewrite Z.add_0_r. }
  apply WP_bind. eapply WP_mono; [apply Hp; [lia | done]|]. intros H' x' Hi'. apply IH; [|intros H'' x'' Hx; apply Hf|done].
  - intros j H'' x'' Hj. apply Hp. lia.
  - by replace (i + Z.of_nat (S n)) with (i + 1 + Z.of_nat n) by lia.
Qed.

(** *** Rules for programs *)

Lemma WP_then a H {X Y} (p : prog X) (k : X -> prog Y) Φ Ψ :
  WP a H p Ψ -> (forall H x, Ψ H x -> WP a H (k x) Φ) -> WP a H (ITreeDefinition.ITree.bind p k) Φ.
Proof. intros Hp Hk. apply WP_bind. eapply WP_mono; [exact Hp | done]. Qed.

Lemma then_ok a H {X Y} (p : prog X) (q : prog Y) Φ : WP a H p (fun H' _ => H' = H) -> WP a H q Φ -> WP a H (ITreeDefinition.ITree.bind p (fun _ => q)) Φ.
Proof. intros Hp Hq. eapply WP_then; [exact Hp|]. by intros ? _ ->. Qed.

Lemma WP_acquire a H l Φ : l ∉ H -> acquires R a H l -> may_take a H l -> Φ (l :: H) tt -> WP a H (call (Acquire l)) Φ.
Proof. intros. by apply WP_call. Qed.

Lemma WP_release a H l Φ : l ∈ H -> may_free a H l -> Φ (without l H) tt -> WP a H (call (Release l)) Φ.
Proof. intros. by apply WP_call. Qed.

Lemma WP_wait a H c l Φ : l ∈ H -> l = cv_lock R c -> acquires R a (without l H) l -> sleeps R a (without l H) c ->
  may_free a H l -> may_take a (without l H) l -> Φ (l :: without l H) tt -> WP a H (call (Wait c l)) Φ.
Proof. intros. by apply WP_call. Qed.

Lemma WP_signal a H c l Φ : l ∈ H -> l = cv_lock R c -> Φ H tt -> WP a H (call (Signal c l)) Φ.
Proof. intros. by apply WP_call. Qed.

Lemma WP_broadcast a H c l Φ : l ∈ H -> l = cv_lock R c -> Φ H tt -> WP a H (call (Broadcast c l)) Φ.
Proof. intros. by apply WP_call. Qed.

Lemma WP_yield a H Φ : Φ H tt -> WP a H (call Yield) Φ.
Proof. intros. by apply WP_call. Qed.

Lemma WP_fork a H b Φ : Φ H tt -> WP a H (call (Fork b)) Φ.
Proof. intros. by apply WP_call. Qed.

Lemma WP_random a H Φ : (forall r, 0 <= r -> Φ H r) -> WP a H (call Random) Φ.
Proof. intros. by apply WP_call. Qed.

Lemma WP_yields a H n Φ : Φ H tt -> WP a H (repeat_ n (call Yield)) Φ.
Proof.
  intros Hp. apply (WP_repeat _ (fun H' => H' = H)); [|by intros ? -> | done]. intros ? ->. by apply WP_yield.
Qed.

Lemma WP_if a H {X} (b : bool) (p q : prog X) Φ : WP a H p Φ -> WP a H q Φ -> WP a H (if b then p else q) Φ.
Proof. by destruct b. Qed.

(** A loop: the thread goes round with the locks it had before. *)
Lemma WP_while a H {X Y} (body : X -> prog (X + Y)) x Φ :
  (forall x, WP a H (body x) (fun H' r => match r with inl _ => H' = H | inr y => Φ H' y end)) -> WP a H (loop body x) Φ.
Proof.
  intros Hb. apply (WP_loop _ (fun H' _ => H' = H)); [|done]. intros ? x' ->. eapply WP_mono; [apply Hb|].
  by intros H' [x''|y].
Qed.

(** A loop with a counter, with the locks it had before. *)
Lemma WP_each {X} a n (p : Z -> X -> prog X) x i H : (forall j x, i <= j < i + Z.of_nat n -> WP a H (p j x) (fun H' _ => H' = H)) ->
  WP a H (for_each i n p x) (fun H' _ => H' = H).
Proof. intros Hp. apply (WP_for_each _ (fun _ H' _ => H' = H)); [|done..]. intros j ? y Hj ->. by apply Hp. Qed.

Lemma without_head l H : l ∉ H -> without l (l :: H) = H.
Proof.
  intros Hl. unfold without. rewrite filter_cons_False by naive_solver. induction H as [|h H IH]; [done|].
  apply not_elem_of_cons in Hl as [Hne Hl]. rewrite filter_cons_True by done. by rewrite IH.
Qed.

Lemma without_tail h l H : h <> l -> without l (h :: H) = h :: without l H.
Proof. intros Hne. unfold without. by rewrite filter_cons_True. Qed.
(** ** Soundness *)

Section Sound.
Variable code : A -> prog unit.
Variable Done : A -> list L -> unit -> Prop.  (* what holds when a thread returns *)
Hypothesis code_ok : forall a, WP a [] (code a) (Done a).

Record good (W : World) : Prop := {
  go_inv : Inv R (owner W) (shared W);
  go_threads : forall a p, pool W !! a = Some p -> exists H, held (owner W) a H /\ WP a H p (Done a);
  go_owner : forall l a, owner W !! l = Some a -> is_Some (pool W !! a) \/ exists H, l ∈ H /\ Done a H tt;
  go_conds : forall c, match waitingLock (cond_of c W) with Some l => l = cv_lock R c | None => True end
}.

Lemma WP_step a H {X} (p : prog X) Φ : WP a H p Φ ->
  match observe p with
  | RetF x => Φ H x
  | TauF p => WP a H p Φ
  | VisF e k => op_ok a H e (fun H x => WP a H (k x) Φ)
  end.
Proof using Type.
  intros Hp. pose proof (fun n => Hp (S n)) as Hs. cbn [wp] in Hs. destruct (observe p) as [x|p'|X' e k]; [exact (Hs O) | exact Hs |].
  clear Hp. pose proof (Hs O) as H0. destruct e; cbn in *; repeat (split; [apply H0|]); try (intros n; apply (Hs n)).
  - intros r Hr n. by apply Hs.
  - intros O s x s' Hi Hh Hf. split; [by eapply H0|]. intros n. by eapply Hs.
Qed.

(** *** Who holds what *)

Lemma held_take O a H l : held O a H -> O !! l = None -> held (<[l := a]> O) a (l :: H).
Proof using Type.
  intros [Hn Hh] Hl. split.
  - constructor; [|done]. rewrite <- Hh. congruence.
  - intros l'. rewrite elem_of_cons, <- Hh. destruct (decide (l' = l)) as [->|]; [rewrite lookup_insert_eq; naive_solver|].
    rewrite lookup_insert_ne by done. naive_solver.
Qed.

Lemma held_take_other O a b H l : held O b H -> O !! l = None -> b <> a -> held (<[l := a]> O) b H.
Proof using Type.
  intros [Hn Hh] Hl Hne. split; [done|]. intros l'. rewrite <- Hh. destruct (decide (l' = l)) as [->|]; [|by rewrite lookup_insert_ne].
  rewrite lookup_insert_eq, Hl. naive_solver.
Qed.

Lemma held_free O a H l : held O a H -> held (delete l O) a (without l H).
Proof using Type.
  intros [Hn Hh]. split; [by apply NoDup_filter|]. intros l'. unfold without. rewrite list_elem_of_filter, <- Hh.
  destruct (decide (l' = l)) as [->|]; [rewrite lookup_delete_eq; naive_solver | rewrite lookup_delete_ne by done; naive_solver].
Qed.

Lemma held_free_other O a b H l : held O b H -> O !! l = Some a -> b <> a -> held (delete l O) b H.
Proof using Type.
  intros [Hn Hh] Hl Hne. split; [done|]. intros l'. rewrite <- Hh. destruct (decide (l' = l)) as [->|]; [|by rewrite lookup_delete_ne].
  rewrite lookup_delete_eq, Hl. naive_solver.
Qed.

(** *** Steps *)

Section Step.
Variables (W : World) (a : A) (H : list L).
Context (G : good W) (Ha : is_Some (pool W !! a)) (Hh : held (owner W) a H).

(** The thread goes on with [p], after calls on locks and conditions. *)
Lemma good_put W1 H1 p : pool W1 = pool W -> Inv R (owner W1) (shared W1) -> held (owner W1) a H1 -> WP a H1 p (Done a) ->
  (forall b H, b <> a -> held (owner W) b H -> held (owner W1) b H) ->
  (forall l b, owner W1 !! l = Some b -> b <> a -> owner W !! l = Some b) ->
  (forall c, match waitingLock (cond_of c W1) with Some l => l = cv_lock R c | None => True end) -> good (put a p W1).
Proof using G.
  intros Hp Hi H1h Hw Hb Ho Hc. split; [done | | | done]; cbn [pool put set_pool owner].
  - intros b q. rewrite Hp. destruct (decide (b = a)) as [->|].
    + rewrite lookup_insert_eq. intros [= <-]. eauto.
    + rewrite lookup_insert_ne by done. intros Hq. destruct (go_threads W G b q Hq) as (Hb' & ? & ?). eauto.
  - intros l b Hl. rewrite Hp. destruct (decide (b = a)) as [->|]; [left; by rewrite lookup_insert_eq|].
    rewrite lookup_insert_ne by done. by apply (go_owner W G l), Ho.
Qed.

Lemma good_silent p H1 : H1 = H -> WP a H1 p (Done a) -> good (put a p W).
Proof using G Hh. intros ->. intros Hw. eapply good_put; try done; [apply G | apply G]. Qed.

Lemma good_take l p : owner W !! l = None -> may_take a H l -> WP a (l :: H) p (Done a) -> good (put a p (take_lock a l W)).
Proof using G Hh.
  intros Hl Ht Hw. eapply good_put; try done; cbn.
  - apply Ht; [apply G | done | done].
  - by apply held_take.
  - intros b Hb Hne Hbh. by apply held_take_other.
  - intros l' b Hl' Hne. destruct (decide (l' = l)) as [->|]; [rewrite lookup_insert_eq in Hl'; congruence | by rewrite lookup_insert_ne in Hl'].
  - apply G.
Qed.

Lemma good_free l p W1 : pool W1 = pool W -> owner W1 = owner W -> shared W1 = shared W ->
  (forall c, match waitingLock (cond_of c W1) with Some l => l = cv_lock R c | None => True end) ->
  l ∈ H -> may_free a H l -> WP a (without l H) p (Done a) -> good (put a p (free_lock a l W1)).
Proof using G Hh.
  intros Hp Ho Hs Hc Hl Hf Hw. assert (owner W !! l = Some a) as El by (by apply Hh).
  unfold free_lock. rewrite Ho, bool_decide_true by done. eapply good_put; cbn; try done.
  - rewrite Hs. apply Hf; [apply G | done].
  - by apply held_free.
  - intros b Hb Hne Hbh. by eapply held_free_other.
  - intros l' b. rewrite lookup_delete_Some. by intros [_ ?].
Qed.

Lemma cond_put c d c' : cond_of c' (put_cond c d W) = if decide (c' = c) then d else cond_of c' W.
Proof using Type.
  unfold cond_of, put_cond. cbn. destruct (decide (c' = c)) as [->|]; [by rewrite lookup_insert_eq | by rewrite lookup_insert_ne].
Qed.

Lemma good_conds c d p : WP a H p (Done a) -> match waitingLock d with Some l => l = cv_lock R c | None => True end ->
  good (put a p (put_cond c d W)).
Proof using G Hh.
  intros Hw Hd. eapply good_put; try done; [apply G|]. intros c'. rewrite cond_put.
  destruct (decide (c' = c)) as [->|]; [done | apply G].
Qed.

Lemma not_held_free l : l ∉ H -> is_free a l W = true -> owner W !! l = None.
Proof using Hh.
  intros Hl Hf. unfold is_free in Hf. apply orb_true_iff in Hf as [Hf|Hf]; apply bool_decide_eq_true in Hf; [done|].
  by apply Hh in Hf.
Qed.

Lemma perform_good r {X} (e : event X) k W' : op_ok a H e (fun H x => WP a H (k x) (Done a)) -> can_perform a e W = true -> 0 <= r ->
  perform code a r e k W = Ret W' -> good W'.
Proof using G Hh Ha code_ok.
  intros He Hr H0 Hs. destruct e; cbn in He, Hr, Hs.
  - destruct He as (_ & Hl & Ht & Hw). injection Hs as <-. apply good_take; [by apply not_held_free | done | done].
  - destruct He as (Hl & Hf & Hw). injection Hs as <-. eapply good_free; try done. apply G.
  - destruct He as (Hl & -> & Hq & Hsl & Hf & Ht & Hw). pose proof (go_conds W G c) as Hc.
    assert (WP a (without (cv_lock R c) H) (ITreeDefinition.go (VisF (Woken c (cv_lock R c)) k)) (Done a)) as Hw'.
    { intros [|n]; [done|]. cbn. unfold without in *. rewrite list_elem_of_filter.
      split; [intros [Hne _]; by apply Hne|]. split; [done|]. split; [done|]. split; [done | apply Hw]. }
    assert (good (put a (ITreeDefinition.go (VisF (Woken c (cv_lock R c)) k))
      (free_lock a (cv_lock R c) (put_cond c (mkCondVar (waitQueue (cond_of c W) ++ [a]) (Some (cv_lock R c))) W)))) as Hg.
    { eapply good_free; try done. intros c'. rewrite cond_put. destruct (decide (c' = c)) as [->|]; [done | apply G]. }
    destruct (waitingLock (cond_of c W)) as [l'|]; [|by injection Hs as <-]. rewrite Hc, bool_decide_true in Hs by done. by injection Hs as <-.
  - destruct He as (Hl & _ & _ & Ht & Hw). apply andb_true_iff in Hr as [_ Hr]. injection Hs as <-.
    apply good_take; [by apply not_held_free | done | done].
  - destruct He as (Hl & -> & Hw). injection Hs as <-. case_bool_decide; [|by apply (good_silent _ H)].
    apply good_conds; [done|]. unfold wake_first. destruct (waitQueue _) as [|b q]; [apply G|]. cbn. case_bool_decide; [done | apply G].
  - destruct He as (Hl & -> & Hw). injection Hs as <-. case_bool_decide; [by apply good_conds | by apply (good_silent _ H)].
  - injection Hs as <-. by apply (good_silent _ H).
  - destruct (_ && _) eqn:E; [|done]. injection Hs as <-. apply andb_true_iff in E as [[Eb Eo]%andb_true_iff En].
    apply bool_decide_eq_true in Eb, Eo. apply negb_true_iff, bool_decide_eq_false in En.
    split; [apply G | | | apply G]; cbn [pool put set_pool owner].
    + intros b' q. destruct (decide (b' = a)) as [->|]; [rewrite lookup_insert_eq; intros [= <-]; eauto|].
      rewrite lookup_insert_ne by done. destruct (decide (b' = b)) as [->|]; [|rewrite lookup_insert_ne by done; apply G].
      rewrite lookup_insert_eq. intros [= <-]. exists []. split; [|apply code_ok]. split; [constructor|]. intros l. split; [|by intros ?%elem_of_nil].
      intros Hl. by destruct (Eo l b Hl).
    + intros l b' Hl. destruct (go_owner W G l b' Hl) as [Hsome|?]; [left | by right]. rewrite !lookup_insert_is_Some'. auto.
  - injection Hs as <-. apply (good_silent _ H); [done | by apply He].
  - apply bind_Ret in Hs as ([x s] & Hf & [= <-]). destruct (He _ _ _ _ (go_inv W G) Hh Hf) as [Hi Hw].
    eapply good_put; try done. apply G.
Qed.
End Step.

Lemma step_good a r W W' : good W -> can_run a W = true -> 0 <= r -> step code a r W = Ret W' -> good W'.
Proof using code_ok.
  intros G Hr H0 Hs. unfold step, can_run in *. destruct (pool W !! a) as [p|] eqn:Hp; [|done].
  destruct (go_threads W G a p Hp) as (H & Hh & Hw). apply WP_step in Hw. destruct (observe p) as [x|p'|X e k].
  - injection Hs as <-. destruct x. split; [apply G | | | apply G]; cbn [pool set_pool owner].
    + intros b q [_ Hq]%lookup_delete_Some. by apply G.
    + intros l b Hl. destruct (decide (b = a)) as [->|]; [right; exists H; split; [by apply Hh | done]|].
      rewrite lookup_delete_ne by done. by apply (go_owner W G l).
  - injection Hs as <-. by apply (good_silent W a H G Hh _ H).
  - by eapply (perform_good W a H).
Qed.

Lemma run_good es W W' : good W -> happens code es W = true -> run code es W = Ret W' -> good W'.
Proof using code_ok.
  revert W. induction es as [|[a r] es IH]; intros W G Hh Hr; [by injection Hr as <-|]. cbn [happens run] in *.
  apply andb_true_iff in Hh as [[Hc H0%Z.leb_le]%andb_true_iff Hh]. apply bind_Ret in Hr as (W1 & Hs & Hr). rewrite Hs in Hh.
  eapply IH; [by eapply step_good | done | done].
Qed.

(** *** A thread that never returns stays *)

Lemma perform_stays a b r {X} (e : event X) k W W' : is_Some (pool W !! b) -> perform code a r e k W = Ret W' -> is_Some (pool W' !! b).
Proof using Type.
  intros Hb Hs. destruct e; cbn in Hs;
    repeat match type of Hs with context [match ?x with _ => _ end] => destruct x eqn:?; try done end;
    try apply bind_Ret in Hs as ([] & _ & Hs); injection Hs as <-; unfold free_lock in *;
    repeat case_bool_decide; cbn; rewrite !lookup_insert_is_Some'; auto.
Qed.

Lemma run_stays es b W W' : (forall H, ~ Done b H tt) -> good W -> happens code es W = true -> run code es W = Ret W' ->
  is_Some (pool W !! b) -> is_Some (pool W' !! b).
Proof using code_ok.
  intros Hd. revert W. induction es as [|[a r] es IH]; intros W G Hh Hr Hb; [by injection Hr as <-|]. cbn [happens run] in *.
  apply andb_true_iff in Hh as [[Hc H0%Z.leb_le]%andb_true_iff Hh]. apply bind_Ret in Hr as (W1 & Hs & Hr). rewrite Hs in Hh.
  apply (IH W1); [by eapply step_good | done | done |].
  unfold step in Hs. destruct (pool W !! a) as [p|] eqn:Hp; [|done]. destruct (go_threads W G a p Hp) as (H & _ & Hw).
  apply WP_step in Hw. destruct (observe p) as [[]|p'|X e k].
  - injection Hs as <-. cbn. destruct (decide (b = a)) as [->|]; [by destruct (Hd H) | by rewrite lookup_delete_ne].
  - injection Hs as <-. cbn. rewrite lookup_insert_is_Some'. auto.
  - by eapply perform_stays.
Qed.
End Sound.
End Logic.

(** ** An order of the locks

    Threads ask for locks in increasing rank, sleep only while all they hold has
    rank 0, and return with no lock. *)

Section Order.
Context {St L V A : Type} `{!EqDecision L, !Countable L, !EqDecision V, !Countable V, !EqDecision A, !Countable A}.
Variables (R : Rules St L V A) (rank : L -> nat) (Done : A -> list L -> unit -> Prop).
Hypothesis acquires_up : forall a H l, acquires R a H l -> forall h, h ∈ H -> (rank h < rank l)%nat.
Hypothesis sleeps_outer : forall a H c, sleeps R a H c -> forall h, h ∈ H -> rank h = O.
Hypothesis Done_nothing : forall a H, Done a H tt -> H = [].
Variable top : nat.
Hypothesis rank_bound : forall l, (rank l <= top)%nat.

Lemma holder_progress W l b : good R Done W -> owner W !! l = Some b -> (0 < rank l)%nat -> in_use W l.
Proof using acquires_up sleeps_outer Done_nothing rank_bound.
  intros G. remember (top - rank l)%nat as n eqn:En. revert l b En. induction n as [n IH] using lt_wf_ind. intros l b En Hl Hk.
  destruct (go_owner _ _ _ G l b Hl) as [[p Hp]|(H & Hin & Hd)]; [|apply Done_nothing in Hd; subst; by apply elem_of_nil in Hin].
  destruct (go_threads _ _ _ G b p Hp) as (H & [_ Hh] & Hw). apply Hh in Hl as Hin. apply WP_step in Hw.
  assert (can_run b W = match observe p with VisF e _ => can_perform b e W | _ => true end) as Hc by (unfold can_run; by rewrite Hp).
  destruct (observe p) as [x|p'|X e k] eqn:Ep; [by apply (holder_runs _ _ b); rewrite ?Hc..|].
  destruct (can_perform b e W) eqn:E; [apply (holder_runs _ _ b); by rewrite ?Hc|].
  destruct e as [l'|l'|c l'|c l'|c l'|c l'| | | |]; cbn in E, Hw; try done.
  - destruct Hw as (Hq & _). pose proof (acquires_up _ _ _ Hq l Hin) as Hlt. unfold is_free in E.
    apply orb_false_iff in E as [E _]. apply bool_decide_eq_false in E. destruct (owner W !! l') as [b'|] eqn:El'; [|done].
    pose proof (rank_bound l'). apply (holder_waits _ _ b l'); [done | unfold waits_for; by rewrite Hp, Ep |].
    apply (IH (top - rank l')%nat ltac:(lia) l' b' eq_refl El'). lia.
  - destruct Hw as (_ & _ & Hs & _). pose proof (sleeps_outer _ _ _ Hs l Hin). lia.
Qed.

(** A thread that never sleeps, and asks for inner locks only, runs, or waits for a
    lock that is in use. *)
Lemma awake_progress W a p : good R Done W -> pool W !! a = Some p ->
  (forall H c, ~ sleeps R a H c) -> (forall H l, acquires R a H l -> (0 < rank l)%nat) ->
  can_run a W = true \/ exists l, waits_for a l W /\ in_use W l.
Proof using acquires_up sleeps_outer Done_nothing rank_bound.
  intros G Hp Hns Hin. destruct (go_threads _ _ _ G a p Hp) as (H & _ & Hw). apply WP_step in Hw.
  assert (can_run a W = match observe p with VisF e _ => can_perform a e W | _ => true end) as Hc by (unfold can_run; by rewrite Hp).
  destruct (observe p) as [x|p'|X e k] eqn:Ep; [left; by rewrite Hc..|]. destruct (can_perform a e W) eqn:E; [left; by rewrite Hc|]. right.
  destruct e as [l'|l'|c l'|c l'|c l'|c l'| | | |]; cbn in E, Hw; try done.
  - destruct Hw as (Hq & _). unfold is_free in E. apply orb_false_iff in E as [E _]. apply bool_decide_eq_false in E.
    destruct (owner W !! l') as [b'|] eqn:El'; [|done]. apply Hin in Hq. exists l'. split; [unfold waits_for; by rewrite Hp, Ep|].
    by apply (holder_progress W l' b' G El').
  - destruct Hw as (_ & _ & Hs & _). by apply Hns in Hs.
Qed.
End Order.

(** ** Automation

    [wp_with order bound frees takes keep] goes through a program: [order] solves the
    conditions on the locks held, [bound] that a condition is used with its lock,
    [frees] and [takes] what the invariant asks at a lock, and [keep] deals with a
    block of code. *)

Ltac not_in := rewrite ?not_elem_of_cons; repeat split; first [done | apply not_elem_of_nil].
Ltac is_in := repeat first [apply list_elem_of_here | apply list_elem_of_further].
Ltac locks := repeat first [rewrite without_tail by done | rewrite without_head by not_in].

Ltac wp_call_with order bound frees takes keep := first
  [ apply WP_acquire; [not_in | order | takes |]
  | apply WP_release; [is_in | frees |]
  | apply WP_wait; [is_in | bound | locks; order | locks; order | frees | takes |]
  | apply WP_signal; [is_in | bound |]
  | apply WP_broadcast; [is_in | bound |]
  | apply WP_yield | apply WP_fork | apply WP_random; intros ? ?
  | apply WP_yields
  | keep
  | apply WP_return ]; locks.

Ltac wp_with order bound frees takes keep := repeat first [progress (cbn beta match) | apply WP_bind | wp_call_with order bound frees takes keep].
