(* ===== verification/Passport.v ===== *)
(** * The passport office (threads/threadtest.cc, threads/clerk.h and its siblings)

    The kernel program of option -P2: customers and senators are threads that stand
    in lines for four kinds of clerks, which are threads too, and a manager wakes
    clerks, counts money and closes the office. Every function that calls a lock, a
    condition or Yield is a program of ThreadProg.v, with the code between two calls
    as one event; the functions without such calls are Gallina functions. Messages
    on the screen are left out. PassportFacts.v has the theorems. *)

From S2P Require Import Prelude ThreadProg.

(** ** Names *)

Inductive kind := App | Pic | Pass | Cash.

Inductive ClerkState := CLERK_FREE | CLERK_BUSY | CLERK_BREAK.

(** The locks; [clerkLock] is a member of each clerk. *)
Inductive lock :=
| SystemLock | passPortLock | clerkLineLock | moneyLock | senatorLock | outsideLock
| clerkLock (k : kind) (i : Z).

(** The condition variables; the last four are members of each clerk. *)
Inductive cv :=
| SystemCondition | senatorCV | customersCV
| clerkLineCV (k : kind) (i : Z) | clerkBribeLineCV (k : kind) (i : Z) | senatorLineCV (k : kind) (i : Z)
| clerkCV (k : kind) (i : Z).

(** The threads: the one that runs the menu, the manager and the people. *)
Inductive actor :=
| Menu | TheManager | ClerkOf (k : kind) (i : Z) | CustomerOf (i : Z) | SenatorOf (i : Z).

#[export] Instance kind_eq_dec : EqDecision kind.
Proof. solve_decision. Defined.
#[export] Instance ClerkState_eq_dec : EqDecision ClerkState.
Proof. solve_decision. Defined.
#[export] Instance lock_eq_dec : EqDecision lock.
Proof. solve_decision. Defined.
#[export] Instance cv_eq_dec : EqDecision cv.
Proof. solve_decision. Defined.
#[export] Instance actor_eq_dec : EqDecision actor.
Proof. solve_decision. Defined.

Definition number_of (k : kind) : nat := match k with App => 0 | Pic => 1 | Pass => 2 | Cash => 3 end.
Definition kind_of (n : nat) : kind := match n with O => App | 1%nat => Pic | 2%nat => Pass | _ => Cash end.

#[export] Instance kind_countable : Countable kind.
Proof. apply (inj_countable' number_of kind_of). by intros []. Defined.

#[export] Instance lock_countable : Countable lock.
Proof.
  apply (inj_countable'
    (fun l => match l with
      | SystemLock => inl 0%nat | passPortLock => inl 1%nat | clerkLineLock => inl 2%nat | moneyLock => inl 3%nat
      | senatorLock => inl 4%nat | outsideLock => inl 5%nat | clerkLock k i => inr (k, i) end)
    (fun x => match x with
      | inl 0%nat => SystemLock | inl 1%nat => passPortLock | inl 2%nat => clerkLineLock | inl 3%nat => moneyLock
      | inl 4%nat => senatorLock | inl _ => outsideLock | inr (k, i) => clerkLock k i end)).
  by intros [].
Defined.

#[export] Instance cv_countable : Countable cv.
Proof.
  apply (inj_countable'
    (fun c => match c with
      | SystemCondition => inl 0%nat | senatorCV => inl 1%nat | customersCV => inl 2%nat
      | clerkLineCV k i => inr (0%nat, (k, i)) | clerkBribeLineCV k i => inr (1%nat, (k, i))
      | senatorLineCV k i => inr (2%nat, (k, i)) | clerkCV k i => inr (3%nat, (k, i)) end)
    (fun x => match x with
      | inl 0%nat => SystemCondition | inl 1%nat => senatorCV | inl _ => customersCV
      | inr (0%nat, (k, i)) => clerkLineCV k i | inr (1%nat, (k, i)) => clerkBribeLineCV k i
      | inr (2%nat, (k, i)) => senatorLineCV k i | inr (_, (k, i)) => clerkCV k i end)).
  by intros [].
Defined.

#[export] Instance actor_countable : Countable actor.
Proof.
  apply (inj_countable'
    (fun a => match a with
      | Menu => inl 0%nat | TheManager => inl 1%nat
      | ClerkOf k i => inr (inl (k, i)) | CustomerOf i => inr (inr (0%nat, i)) | SenatorOf i => inr (inr (1%nat, i)) end)
    (fun x => match x with
      | inl 0%nat => Menu | inl _ => TheManager
      | inr (inl (k, i)) => ClerkOf k i | inr (inr (0%nat, i)) => CustomerOf i | inr (inr (_, i)) => SenatorOf i end)).
  by intros [].
Defined.

(** ** State *)

(** class Clerk, with [picLiked] of class PictureClerk; the locks and conditions
    are in the execution. *)
Record Clerk := mkClerk {
  state : ClerkState;
  lineCount : Z;
  bribeLineCount : Z;
  senatorInLine : bool;
  toFile : Z;
  money : Z;
  picLiked : bool
}.

Definition new_Clerk : Clerk := mkClerk CLERK_FREE 0 0 false (-1) 0 false.

Definition setState s c := mkClerk s (lineCount c) (bribeLineCount c) (senatorInLine c) (toFile c) (money c) (picLiked c).
Definition set_lineCount n c := mkClerk (state c) n (bribeLineCount c) (senatorInLine c) (toFile c) (money c) (picLiked c).
Definition set_bribeLineCount n c := mkClerk (state c) (lineCount c) n (senatorInLine c) (toFile c) (money c) (picLiked c).
Definition setSenatorInLine b c := mkClerk (state c) (lineCount c) (bribeLineCount c) b (toFile c) (money c) (picLiked c).
Definition setToFile n c := mkClerk (state c) (lineCount c) (bribeLineCount c) (senatorInLine c) n (money c) (picLiked c).
Definition addMoney m c := mkClerk (state c) (lineCount c) (bribeLineCount c) (senatorInLine c) (toFile c) (money c + m) (picLiked c).
Definition setPicLiked b c := mkClerk (state c) (lineCount c) (bribeLineCount c) (senatorInLine c) (toFile c) (money c) b.

Definition incrementLine c := set_lineCount (lineCount c + 1) c.
Definition decrementLine c := set_lineCount (lineCount c - 1) c.
Definition incrementBribeLine c := set_bribeLineCount (bribeLineCount c + 1) c.
Definition decrementBribeLine c := set_bribeLineCount (bribeLineCount c - 1) c.

Record CustomerData := mkData {
  arrived : bool; outside : bool; social : bool; picture : bool; passport : bool; paid : bool
}.

Definition new_CustomerData : CustomerData := mkData false false false false false false.

Definition set_arrived d := mkData true (outside d) (social d) (picture d) (passport d) (paid d).
Definition set_outside d := mkData (arrived d) true (social d) (picture d) (passport d) (paid d).
Definition set_social d := mkData (arrived d) (outside d) true (picture d) (passport d) (paid d).
Definition set_picture d := mkData (arrived d) (outside d) (social d) true (passport d) (paid d).
Definition set_passport d := mkData (arrived d) (outside d) (social d) (picture d) true (paid d).
Definition set_paid d := mkData (arrived d) (outside d) (social d) (picture d) (passport d) true.

(** The global variables, and the members [money] of the customers and senators. *)
Record Office := mkOffice {
  appClerk : list Clerk; picClerk : list Clerk; passClerk : list Clerk; cashier : list Clerk;
  customer : list Z;
  senator : list Z;
  customerData : list CustomerData;
  senatorData : list CustomerData;
  senatorFlag : bool;
  totalSpent : Z;
  numPassports : Z
}.

Definition clerks (k : kind) (o : Office) : list Clerk :=
  match k with App => appClerk o | Pic => picClerk o | Pass => passClerk o | Cash => cashier o end.

Definition set_clerks (k : kind) (cs : list Clerk) (o : Office) : Office :=
  mkOffice (match k with App => cs | _ => appClerk o end) (match k with Pic => cs | _ => picClerk o end)
    (match k with Pass => cs | _ => passClerk o end) (match k with Cash => cs | _ => cashier o end)
    (customer o) (senator o) (customerData o) (senatorData o) (senatorFlag o) (totalSpent o) (numPassports o).

Definition set_customer l o := mkOffice (appClerk o) (picClerk o) (passClerk o) (cashier o) l (senator o) (customerData o) (senatorData o) (senatorFlag o) (totalSpent o) (numPassports o).
Definition set_senator l o := mkOffice (appClerk o) (picClerk o) (passClerk o) (cashier o) (customer o) l (customerData o) (senatorData o) (senatorFlag o) (totalSpent o) (numPassports o).
Definition set_customerData l o := mkOffice (appClerk o) (picClerk o) (passClerk o) (cashier o) (customer o) (senator o) l (senatorData o) (senatorFlag o) (totalSpent o) (numPassports o).
Definition set_senatorData l o := mkOffice (appClerk o) (picClerk o) (passClerk o) (cashier o) (customer o) (senator o) (customerData o) l (senatorFlag o) (totalSpent o) (numPassports o).
Definition set_senatorFlag b o := mkOffice (appClerk o) (picClerk o) (passClerk o) (cashier o) (customer o) (senator o) (customerData o) (senatorData o) b (totalSpent o) (numPassports o).
Definition set_totalSpent n o := mkOffice (appClerk o) (picClerk o) (passClerk o) (cashier o) (customer o) (senator o) (customerData o) (senatorData o) (senatorFlag o) n (numPassports o).
Definition set_numPassports n o := mkOffice (appClerk o) (picClerk o) (passClerk o) (cashier o) (customer o) (senator o) (customerData o) (senatorData o) (senatorFlag o) (totalSpent o) n.

(** The numbers of people, and the test that was chosen. *)
Record Config := mkConfig {
  choice : Z;
  numCustomers : Z; numAppClerks : Z; numPicClerks : Z; numPassClerks : Z; numCashiers : Z; numSenators : Z
}.

Definition numClerks (g : Config) (k : kind) : Z :=
  match k with App => numAppClerks g | Pic => numPicClerks g | Pass => numPassClerks g | Cash => numCashiers g end.

(** The tests of the menu (the functions t1_shortest_line to t7_senators). *)
Definition repeatable_test (choice : Z) : option Config :=
  match choice with
  | 1 => Some (mkConfig 1 2 2 1 1 1 0)
  | 2 => Some (mkConfig 2 5 2 2 2 2 0)
  | 3 => Some (mkConfig 3 5 2 2 2 2 0)
  | 4 => Some (mkConfig 4 1 3 3 3 3 0)
  | 5 => Some (mkConfig 5 4 1 1 1 1 0)
  | 6 => Some (mkConfig 6 3 1 1 1 1 0)
  | 7 => Some (mkConfig 7 5 1 1 1 1 1)
  | _ => None
  end.

(** ** The menu

    The loops of get_system_test_input, and of Part2, on the numbers that scanf
    reads. *)

Fixpoint ask (least most : Z) (input : list Z) : option (Z * list Z) :=
  match input with
  | [] => None
  | n :: input => if (most <? n) || (n <? least) then ask least most input else Some (n, input)
  end.

Definition get_system_test_input (input : list Z) : option (Config * list Z) :=
  '(customers, input) ← ask 1 50 input;
  '(apps, input) ← ask 1 5 input;
  '(pics, input) ← ask 1 5 input;
  '(passes, input) ← ask 1 5 input;
  '(cashiers, input) ← ask 1 5 input;
  '(senators, input) ← ask 0 10 input;
  Some (mkConfig 8 customers apps pics passes cashiers senators, input).

(** The number of the test that the menu takes; [Quit] ends it. *)
Inductive pick := Quit | Test (g : Config).

Fixpoint pick_test (input : list Z) : option (pick * list Z) :=
  match input with
  | [] => None
  | n :: input =>
      if (9 <? n) || (n <? 1) then pick_test input
      else if n =? 9 then Some (Quit, input)
      else if n =? 8 then '(g, input) ← get_system_test_input input; Some (Test g, input)
      else g ← repeatable_test n; Some (Test g, input)
  end.

(** Visitors: customers, or senators. *)
Inductive visitor := ACustomer | ASenator.

(** ** Steps between calls *)

Definition read {X} (f : Office -> X) (o : Office) : C (X * Office) := Ret (f o, o).

Definition get_clerk {X} (k : kind) (i : Z) (f : Clerk -> X) (o : Office) : C (X * Office) :=
  let! c := aref (clerks k o) i in Ret (f c, o).

Definition set_clerk (k : kind) (i : Z) (f : Clerk -> Clerk) (o : Office) : C (unit * Office) :=
  let! c := aref (clerks k o) i in
  let! cs := aset (clerks k o) i (f c) in Ret (tt, set_clerks k cs o).

Definition set_data (v : visitor) (ssn : Z) (f : CustomerData -> CustomerData) (o : Office) : C (unit * Office) :=
  let l := match v with ACustomer => customerData o | ASenator => senatorData o end in
  let! d := aref l ssn in
  let! l := aset l ssn (f d) in
  Ret (tt, match v with ACustomer => set_customerData l o | ASenator => set_senatorData l o end).

(** The first [n] elements of an array, for a loop that reads them all. *)
Definition rows {X} (n : Z) (l : list X) : C (list X) :=
  if Z.of_nat (length l) <? n then Undef else Ret (take (Z.to_nat n) l).

(** [data[getToFile()].field = true] *)
Definition file (k : kind) (i : Z) (v : visitor) (f : CustomerData -> CustomerData) (o : Office) : C (unit * Office) :=
  let! c := aref (clerks k o) i in set_data v (toFile c) f o.

(** [money -= m; totalSpent += m] *)
Definition spend (v : visitor) (ssn m : Z) (o : Office) : C (unit * Office) :=
  let l := match v with ACustomer => customer o | ASenator => senator o end in
  let! n := aref l ssn in
  let! l := aset l ssn (n - m) in
  Ret (tt, set_totalSpent (totalSpent o + m) (match v with ACustomer => set_customer l o | ASenator => set_senator l o end)).

(** ** Choosing a line

    The for loop over the clerks of a kind, the number of the first one given, with
    the line chosen so far, its size, and whether to bribe. *)

Fixpoint choose (money : Z) (cs : list Clerk) (i : Z) (chosen : Z * Z * bool) : Z * Z * bool :=
  match cs with
  | [] => chosen
  | c :: cs =>
      let '(myLine, lineSize, hasBribed) := chosen in
      let '(myLine, lineSize, hasBribed) :=
        if bool_decide (state c = CLERK_FREE) && (lineCount c <? lineSize) then (i, lineCount c, false)
        else if bool_decide (state c = CLERK_BUSY) && (lineCount c + 1 <? lineSize) then (i, lineCount c + 1, false)
        else if lineCount c + 2 <? lineSize then (i, lineCount c + 2, false)
        else (myLine, lineSize, hasBribed) in
      choose money cs (i + 1)
        (if negb (bool_decide (state c = CLERK_BREAK)) && (500 <=? money) && (bribeLineCount c <? lineSize)
         then (i, bribeLineCount c, true) else (myLine, lineSize, hasBribed))
  end.

Fixpoint shortest (cs : list Clerk) (i : Z) (chosen : Z * Z) : Z * Z :=
  match cs with
  | [] => chosen
  | c :: cs => let '(myLine, lineSize) := chosen in shortest cs (i + 1) (if lineCount c <? lineSize then (i, lineCount c) else (myLine, lineSize))
  end.

Definition choose_line (numCustomers money : Z) (cs : list Clerk) : Z * bool :=
  let '(myLine, lineSize, hasBribed) := choose money cs 0 (-1, numCustomers + 1, false) in
  (if myLine =? -1 then (shortest cs 0 (myLine, lineSize)).1 else myLine, hasBribed).

(** ** The manager's sums and checks *)

Definition totals : Type := Z * Z * Z * Z.

(** [m += clerk[i]->getMoney(); clerk[i]->addMoney(-clerk[i]->getMoney())], for all. *)
Fixpoint collect (cs : list Clerk) (m : Z) : Z * list Clerk :=
  match cs with
  | [] => (m, [])
  | c :: cs => let '(m, cs) := collect cs (m + money c) in (m, addMoney (- money c) c :: cs)
  end.

(** One of the loops of ManagerCountMoney. *)
Definition collect_kind g k (m : Z) (o : Office) : C (Z * Office) :=
  let! cs := rows (numClerks g k) (clerks k o) in
  let '(m, cs) := collect cs m in Ret (m, set_clerks k cs o).

(** ManagerCountMoney, with the lock. *)
Definition count_money g (t : totals) (o : Office) : C (totals * Office) :=
  let '(appMoney, picMoney, passMoney, cashMoney) := t in
  let! (appMoney, o) := collect_kind g App appMoney o in
  let! (picMoney, o) := collect_kind g Pic picMoney o in
  let! (passMoney, o) := collect_kind g Pass passMoney o in
  let! (cashMoney, o) := collect_kind g Cash cashMoney o in
  let total := appMoney + picMoney + passMoney + cashMoney in
  let! _ := ASSERT (total =? appMoney + picMoney + passMoney + cashMoney) in
  let! _ := ASSERT (negb (choice g =? 6) || (total =? totalSpent o)) in
  Ret ((appMoney, picMoney, passMoney, cashMoney), o).

(** One of the first two loops of ManagerCheckClose, on [doneFlag] and
    [allHereFlag]. *)
Fixpoint check_data (l : list CustomerData) (flags : bool * bool) : bool * bool :=
  match l with
  | [] => flags
  | d :: l =>
      let '(doneFlag, allHereFlag) := flags in
      if negb (arrived d) then (false, false)
      else if negb (social d) then (false, allHereFlag)
      else if negb (picture d) then (false, allHereFlag)
      else if negb (passport d) then (false, allHereFlag)
      else if negb (paid d) then (false, allHereFlag)
      else check_data l (doneFlag, allHereFlag)
  end.

Inductive verdict := Close | WakeAll | GoOn.

Definition on_break (c : Clerk) : bool := bool_decide (state c = CLERK_BREAK).

(** ManagerCheckClose, up to the clerks that are woken. *)
Definition check_close (g : Config) (o : Office) : C (verdict * Office) :=
  let! senators := rows (numSenators g) (senatorData o) in
  let! customers := rows (numCustomers g) (customerData o) in
  let '(doneFlag, allHereFlag) := check_data customers (check_data senators (true, true)) in
  if doneFlag then
    if choice g =? 3 then
      let! _ := ASSERT (numPassports o =? numCustomers g) in Ret (Close, set_numPassports 0 o)
    else Ret (Close, o)
  else if allHereFlag then
    let! apps := rows (numAppClerks g) (appClerk o) in
    let! pics := rows (numPicClerks g) (picClerk o) in
    let! passes := rows (numPassClerks g) (passClerk o) in
    let! cashiers := rows (numCashiers g) (cashier o) in
    Ret (if forallb on_break apps && forallb on_break pics && forallb on_break passes && forallb on_break cashiers
         then WakeAll else GoOn, o)
  else Ret (GoOn, o).

(** The test of ManagerCheckLines for one clerk. *)
Definition must_wake (most : Z) (flag : bool) (c : Clerk) : bool :=
  on_break c && ((most <? lineCount c) || senatorInLine c || ((0 <? lineCount c) && flag)).

(** The last loop of ManagerCheckLines, and the test after it. *)
Definition customers_left g (customersGone : bool) (o : Office) : C (bool * Office) :=
  let! customers := rows (numCustomers g) (customerData o) in
  Ret (customersGone && forallb (fun d => negb (arrived d && negb (outside d))) customers && senatorFlag o, o).

(** ** Programs

    [g] is the configuration of the test that runs. *)

Notation prog := (itree (op Office lock cv actor)).

Definition do_ {X} (f : Office -> C (X * Office)) : prog X := call (Do f).

(** The block [f], then the block [h], without a call between them. *)
Definition then_ {X Y} (f : Office -> C (X * Office)) (h : Office -> C (Y * Office)) (o : Office) : C (Y * Office) :=
  let! (_, o) := f o in h o.
Notation "f ▷ h" := (then_ f h) (at level 55, right associativity) : prog_scope.

Local Open Scope prog_scope.

Definition pause : prog unit := return_ tt.
Definition Yields (n : nat) : prog unit := repeat_ n (call Yield).

(** *** class Clerk *)

Definition waitOnLineCV k i : prog unit := call (Wait (clerkLineCV k i) clerkLineLock).
Definition signalOnLineCV k i : prog unit := call (Signal (clerkLineCV k i) clerkLineLock).
Definition waitOnBribeLineCV k i : prog unit := call (Wait (clerkBribeLineCV k i) clerkLineLock).
Definition signalOnBribeLineCV k i : prog unit := call (Signal (clerkBribeLineCV k i) clerkLineLock).
Definition waitOnSenatorLineCV k i : prog unit := call (Wait (senatorLineCV k i) clerkLineLock).
Definition signalOnSenatorLineCV k i : prog unit := call (Signal (senatorLineCV k i) clerkLineLock).
Definition waitOnClerkCV k i : prog unit := call (Wait (clerkCV k i) (clerkLock k i)).
Definition signalOnClerkCV k i : prog unit := call (Signal (clerkCV k i) (clerkLock k i)).
Definition acquireLock k i : prog unit := call (Acquire (clerkLock k i)).
Definition releaseLock k i : prog unit := call (Release (clerkLock k i)).

Definition broadcastOnLineCV k i : prog unit :=
  call (Broadcast (clerkLineCV k i) clerkLineLock);;
  n ← do_ (get_clerk k i bribeLineCount);
  if 0 <? n then call (Broadcast (clerkBribeLineCV k i) clerkLineLock) else pause.

(** *** Customers *)

(** The steps outside the door: [customerData[ssn].outside = true; senatorCV->Wait(outsideLock)]. *)
Definition wait_outside ssn : prog unit :=
  call (Acquire outsideLock);;
  do_ (set_data ACustomer ssn set_outside);;
  call (Wait senatorCV outsideLock);;
  call (Release outsideLock).

Definition checkSenator ssn : prog unit :=
  came ← do_ (read senatorFlag);
  if came then wait_outside ssn else pause.

Definition file_all (d : CustomerData) : CustomerData := set_social (set_picture (set_passport (set_paid d))).

(** The customers of test 1 leave the line, and goToAppClerk, at once. *)
Definition leaves g k : bool := bool_decide (k = App) && (choice g =? 1).

(** From the choice of a line to the next call. *)
Definition get_in_line g k ssn (o : Office) : C (Z * bool * Office) :=
  let! m := aref (customer o) ssn in
  let! cs := rows (numClerks g k) (clerks k o) in
  let '(myLine, hasBribed) := choose_line (numCustomers g) m cs in
  let! (_, o) :=
    (if hasBribed then spend ACustomer ssn 500
     else if leaves g k then set_clerk k myLine incrementLine ▷ set_data ACustomer ssn file_all
     else set_clerk k myLine incrementLine) o in
  Ret (myLine, hasBribed, o).

(** Called to the clerk: with a senator in the office the customer goes outside and
    then chooses again. *)
Definition come_up ssn myLine (came : bool) : prog (unit + option Z) :=
  if came then
    call (Release clerkLineLock);;
    wait_outside ssn;;
    return_ (inl tt)
  else return_ (inr (Some myLine)).

(** The while loop of the goTo functions: the line where the customer was called up;
    [None]: the function returns. *)
Definition stand_in_line g k ssn : prog (option Z) :=
  loop (fun _ : unit =>
    call (Acquire clerkLineLock);;
    line ← do_ (get_in_line g k ssn);
    let '(myLine, hasBribed) := line in
    if hasBribed then
      call (Acquire moneyLock);;
      do_ (set_clerk k myLine (addMoney 500));;
      call (Release moneyLock);;
      do_ (set_clerk k myLine incrementBribeLine);;
      waitOnBribeLineCV k myLine;;
      came ← do_ (set_clerk k myLine decrementBribeLine ▷ read senatorFlag);
      come_up ssn myLine came
    else if leaves g k then return_ (inr None)
    else
      waitOnLineCV k myLine;;
      came ← do_ (set_clerk k myLine decrementLine ▷ read senatorFlag);
      come_up ssn myLine came) tt.

(** Now with the clerk: the start that the four functions share. *)
Definition meet k i : prog unit :=
  do_ (set_clerk k i (setState CLERK_BUSY));;
  acquireLock k i;;
  call (Release clerkLineLock).

(** With an application clerk or a passport clerk. *)
Definition hand_over k i ssn : prog unit :=
  meet k i;;
  do_ (set_clerk k i (setToFile ssn));;
  signalOnClerkCV k i;;
  waitOnClerkCV k i;;
  do_ (set_clerk k i (setState CLERK_FREE));;
  signalOnClerkCV k i;;
  releaseLock k i.

(** With a picture clerk. *)
Definition pose i ssn : prog unit :=
  meet Pic i;;
  do_ (set_clerk Pic i (setToFile ssn));;
  loop (fun _ : unit =>
    signalOnClerkCV Pic i;;
    waitOnClerkCV Pic i;;
    r ← call Random;
    (if r `rem` 10 =? 0 then pause else do_ (set_clerk Pic i (setPicLiked true)));;
    signalOnClerkCV Pic i;;
    waitOnClerkCV Pic i;;
    return_ (if r `rem` 10 =? 0 then inl tt else inr tt)) tt;;
  releaseLock Pic i.

(** With a cashier. *)
Definition pay v i ssn : prog unit :=
  meet Cash i;;
  do_ (set_clerk Cash i (setToFile ssn));;
  signalOnClerkCV Cash i;;
  do_ (spend v ssn 100);;
  waitOnClerkCV Cash i;;
  do_ (set_clerk Cash i (setState CLERK_FREE));;
  signalOnClerkCV Cash i;;
  releaseLock Cash i.

Definition with_clerk (line : option Z) (p : Z -> prog unit) : prog unit :=
  match line with Some myLine => p myLine | None => pause end.

Definition goToAppClerk g ssn : prog unit := l ← stand_in_line g App ssn; with_clerk l (fun i => hand_over App i ssn).
Definition goToPicClerk g ssn : prog unit := l ← stand_in_line g Pic ssn; with_clerk l (fun i => pose i ssn).
Definition goToPassClerk g ssn : prog unit := l ← stand_in_line g Pass ssn; with_clerk l (fun i => hand_over Pass i ssn).
Definition goToCashier g ssn : prog unit := l ← stand_in_line g Cash ssn; with_clerk l (fun i => pay ACustomer i ssn).

Definition Customer_Run g ssn : prog unit :=
  checkSenator ssn;;
  do_ (set_data ACustomer ssn set_arrived);;
  r ← call Random;
  if choice g =? 1 then goToAppClerk g ssn
  else
    (if r `rem` 2 =? 0 then
       checkSenator ssn;; goToAppClerk g ssn;; checkSenator ssn;; goToPicClerk g ssn
     else
       checkSenator ssn;; goToPicClerk g ssn;; checkSenator ssn;; goToAppClerk g ssn);;
    checkSenator ssn;;
    goToPassClerk g ssn;;
    checkSenator ssn;;
    goToCashier g ssn.

(** *** Senators *)

Definition senator_line k : prog unit :=
  call (Acquire clerkLineLock);;
  do_ (set_clerk k 0 (setSenatorInLine true));;
  waitOnSenatorLineCV k 0;;
  do_ (set_clerk k 0 (setSenatorInLine false)).

Definition Senator_goToAppClerk ssn : prog unit := senator_line App;; hand_over App 0 ssn.
Definition Senator_goToPicClerk ssn : prog unit := senator_line Pic;; pose 0 ssn.
Definition Senator_goToPassClerk ssn : prog unit := senator_line Pass;; hand_over Pass 0 ssn.
Definition Senator_goToCashier ssn : prog unit := senator_line Cash;; pay ASenator 0 ssn.

Definition set_flag b (o : Office) : C (unit * Office) := Ret (tt, set_senatorFlag b o).

Definition Senator_Run ssn : prog unit :=
  call (Acquire senatorLock);;
  do_ (set_flag true);;
  call (Acquire outsideLock);;
  call (Wait customersCV outsideLock);;
  do_ (set_data ASenator ssn set_arrived);;
  call (Release outsideLock);;
  r ← call Random;
  (if r `rem` 2 =? 0 then Senator_goToAppClerk ssn;; Senator_goToPicClerk ssn
   else Senator_goToPicClerk ssn;; Senator_goToAppClerk ssn);;
  Senator_goToPassClerk ssn;;
  Senator_goToCashier ssn;;
  call (Acquire outsideLock);;
  call (Broadcast senatorCV outsideLock);;
  call (Release outsideLock);;
  do_ (set_flag false);;
  call (Release senatorLock).

(** *** Clerks *)

(** After the signal to a line: ready for whoever comes. *)
Definition ready k i : prog unit :=
  do_ (set_clerk k i (setState CLERK_BUSY));;
  acquireLock k i;;
  call (Release clerkLineLock).

Definition finished k i : prog unit :=
  releaseLock k i;;
  do_ (set_clerk k i (setState CLERK_FREE)).

Definition go_on_break k i : prog unit :=
  do_ (set_clerk k i (setState CLERK_BREAK));;
  call (Release clerkLineLock);;
  acquireLock k i;;
  waitOnClerkCV k i;;
  do_ (set_clerk k i (setState CLERK_FREE));;
  releaseLock k i.

(** What a clerk does for the person at the counter; [bribed]: from the bribe line. *)
Definition service := visitor -> bool -> prog unit.

Definition take_application i : service := fun v _ =>
  ready App i;;
  waitOnClerkCV App i;;
  Yields 50;;
  do_ (file App i v set_social);;
  signalOnClerkCV App i;;
  waitOnClerkCV App i;;
  finished App i.

Definition take_picture i : service := fun v _ =>
  ready Pic i;;
  do_ (set_clerk Pic i (setPicLiked false));;
  loop (fun _ : unit =>
    waitOnClerkCV Pic i;;
    Yields 20;;
    signalOnClerkCV Pic i;;
    waitOnClerkCV Pic i;;
    signalOnClerkCV Pic i;;
    liked ← do_ (get_clerk Pic i picLiked);
    return_ (if liked : bool then inr tt else inl tt)) tt;;
  do_ (file Pic i v set_picture);;
  finished Pic i.

Definition certify i : service := fun v _ =>
  ready Pass i;;
  waitOnClerkCV Pass i;;
  Yields 50;;
  do_ (file Pass i v set_passport);;
  signalOnClerkCV Pass i;;
  waitOnClerkCV Pass i;;
  finished Pass i.

Definition take_money i : prog unit :=
  call (Acquire moneyLock);;
  do_ (set_clerk Cash i (addMoney 100));;
  call (Release moneyLock).

Definition count_passport g : prog unit :=
  if choice g =? 3 then
    call (Acquire passPortLock);;
    do_ (fun o => Ret (tt, set_numPassports (numPassports o + 1) o));;
    call (Release passPortLock)
  else pause.

Definition take_payment g i : service := fun v bribed =>
  ready Cash i;;
  waitOnClerkCV Cash i;;
  (if bribed : bool then take_money i;; Yields 10 else Yields 10;; take_money i);;
  do_ (file Cash i v set_paid);;
  signalOnClerkCV Cash i;;
  count_passport g;;
  waitOnClerkCV Cash i;;
  finished Cash i.

(** One turn of the while loops of the four Run functions. *)
Definition clerk_turn k i (serve : service) : prog unit :=
  call (Acquire clerkLineLock);;
  seen ← do_ (fun o => let! c := aref (clerks k o) i in Ret (senatorFlag o, lineCount c, bribeLineCount c, o));
  let '(came, line, bribes) := seen in
  if came : bool then
    (if 0 <? line then broadcastOnLineCV k i else pause);;
    inLine ← do_ (get_clerk k i senatorInLine);
    if inLine : bool then signalOnSenatorLineCV k i;; serve ASenator false
    else go_on_break k i
  else if 0 <? bribes then signalOnBribeLineCV k i;; serve ACustomer true
  else if 0 <? line then signalOnLineCV k i;; serve ACustomer false
  else go_on_break k i.

Definition forever (p : prog unit) : prog unit := loop (fun _ : unit => p;; return_ (inl tt)) tt.

Definition PictureClerk_Run i : prog unit := forever (clerk_turn Pic i (take_picture i)).
Definition PassportClerk_Run i : prog unit := forever (clerk_turn Pass i (certify i)).
Definition Cashier_Run g i : prog unit := forever (clerk_turn Cash i (take_payment g i)).

Definition ApplicationClerk_Run g i : prog unit :=
  loop (fun _ : unit =>
    if choice g =? 1 then
      call Yield;;
      do_ (set_clerk App i (set_lineCount (if i =? 1 then 0 else 2)));;
      return_ (inl tt)
    else return_ (inr tt)) tt;;
  forever (clerk_turn App i (take_application i)).

(** *** The manager *)

Definition wake k i : prog unit :=
  acquireLock k i;; signalOnClerkCV k i;; releaseLock k i.

Definition check_lines g k (most : Z) (customersGone : bool) : prog bool :=
  for_each 0 (Z.to_nat (numClerks g k)) (fun i gone =>
    w ← do_ (fun o => get_clerk k i (must_wake most (senatorFlag o)) o);
    (if w : bool then wake k i else pause);;
    busy ← do_ (get_clerk k i (fun c => bool_decide (state c = CLERK_BUSY)));
    return_ (if busy : bool then false else gone)) customersGone.

Definition ManagerCheckLines g : prog unit :=
  gone ← check_lines g App 2 true;
  gone ← check_lines g Pic 3 gone;
  gone ← check_lines g Pass 3 gone;
  gone ← check_lines g Cash 3 gone;
  tell ← do_ (customers_left g gone);
  if tell : bool then
    call (Acquire outsideLock);;
    call (Signal customersCV outsideLock);;
    call (Release outsideLock)
  else pause.

Definition ManagerCountMoney g (t : totals) : prog totals :=
  call (Acquire moneyLock);;
  t ← do_ (count_money g t);
  call (Release moneyLock);;
  return_ t.

Definition wake_waiting g k : prog unit :=
  for_each 0 (Z.to_nat (numClerks g k)) (fun i _ =>
    w ← do_ (get_clerk k i (fun c => 0 <? lineCount c));
    if w : bool then wake k i else pause) tt.

Definition ManagerCheckClose g : prog bool :=
  v ← do_ (check_close g);
  match v with
  | Close => return_ true
  | WakeAll => wake_waiting g App;; wake_waiting g Pic;; wake_waiting g Pass;; wake_waiting g Cash;; return_ false
  | GoOn => return_ false
  end.

Definition Manager g : prog unit :=
  loop (fun t : totals =>
    repeat_ 60 (ManagerCheckLines g;; Yields 70);;
    t ← ManagerCountMoney g t;
    close ← ManagerCheckClose g;
    if close : bool then
      call (Acquire SystemLock);;
      call (Signal SystemCondition SystemLock);;
      call (Release SystemLock);;
      return_ (inr tt)
    else return_ (inl t)) (0, 0, 0, 0).

(** *** The start of a test *)

(** Customer::Customer *)
Definition new_customer g (r : Z) (o : Office) : C (unit * Office) :=
  Ret (tt, set_customer (customer o ++ [if choice g =? 1 then 0 else 100 + (r `rem` 4) * 500]) o).

Definition new_office g (o : Office) : C (unit * Office) :=
  let clerks n := replicate (Z.to_nat n) new_Clerk in
  Ret (tt, mkOffice (clerks (numAppClerks g)) (clerks (numPicClerks g)) (clerks (numPassClerks g)) (clerks (numCashiers g))
    [] (replicate (Z.to_nat (numSenators g)) 100)
    (replicate (Z.to_nat (numCustomers g)) new_CustomerData) (replicate (Z.to_nat (numSenators g)) new_CustomerData)
    false (totalSpent o) (numPassports o)).

Definition fork_clerks g k : prog unit :=
  for_each 0 (Z.to_nat (numClerks g k)) (fun i _ => call (Fork (ClerkOf k i))) tt.

Definition system_test g : prog unit :=
  do_ (new_office g);;
  for_each 0 (Z.to_nat (numCustomers g)) (fun _ _ => r ← call Random; do_ (new_customer g r)) tt;;
  call (Fork TheManager);;
  fork_clerks g App;;
  fork_clerks g Pic;;
  fork_clerks g Pass;;
  fork_clerks g Cash;;
  for_each 0 (Z.to_nat (numCustomers g)) (fun i _ =>
    call (Fork (CustomerOf i));; r ← call Random; Yields (Z.to_nat (r `rem` 30))) tt;;
  for_each 0 (Z.to_nat (numSenators g)) (fun i _ => call (Fork (SenatorOf i));; Yields 60) tt.

(** One turn of the menu: a test is started, and waited for. *)
Definition Part2 g : prog unit :=
  call (Acquire SystemLock);;
  (if choice g =? 6 then do_ (fun o => Ret (tt, set_totalSpent 0 o)) else pause);;
  system_test g;;
  call (Wait SystemCondition SystemLock);;
  call (Release SystemLock).

(** What the threads run: the Start functions. *)
Definition office_code g (a : actor) : prog unit :=
  match a with
  | Menu => Part2 g
  | TheManager => Manager g
  | ClerkOf App i => ApplicationClerk_Run g i
  | ClerkOf Pic i => PictureClerk_Run i
  | ClerkOf Pass i => PassportClerk_Run i
  | ClerkOf Cash i => Cashier_Run g i
  | CustomerOf i => Customer_Run g i
  | SenatorOf i => Senator_Run i
  end.

(** Before the first test. *)
Definition no_office : Office := mkOffice [] [] [] [] [] [] [] [] false 0 0.

Definition start g : World (St:=Office) (L:=lock) (V:=cv) (A:=actor) :=
  mkWorld no_office ∅ ∅ {[ Menu := office_code g Menu ]}.
