(* ===== verification/PassportFacts.v ===== *)
(** * Theorems on the passport office

    The rules that the threads of Passport.v keep to, checked program by program
    with the logic of ThreadProg.v: the order of the locks, and what is written in
    the customers' files during test 1. From them: while the manager is in the office
    some thread can run, and test 1 never closes. *)

From S2P Require Import Prelude ThreadProg Passport.

Local Open Scope prog_scope.

(** ** The rules *)

Definition rank (l : lock) : nat :=
  match l with
  | senatorLock => 0 | SystemLock => 1 | outsideLock => 2 | clerkLineLock => 3
  | clerkLock _ _ => 4 | moneyLock => 5 | passPortLock => 5
  end.

Definition lock_of (c : cv) : lock :=
  match c with
  | SystemCondition => SystemLock
  | senatorCV | customersCV => outsideLock
  | clerkLineCV _ _ | clerkBribeLineCV _ _ | senatorLineCV _ _ => clerkLineLock
  | clerkCV k i => clerkLock k i
  end.

Section Rules.
Variable g : Config.
Implicit Types (a : actor) (H : list lock) (l : lock) (o : Office) (O : gmap lock actor).

(** In test 1 a customer whose application is filed has the line lock, for ever;
    no customer can bribe. *)
Definition filed_in_line O o : Prop :=
  choice g = 1 ->
  (forall i d, 0 <= i -> customerData o !! Z.to_nat i = Some d -> social d = true -> O !! clerkLineLock = Some (CustomerOf i)) /\
  Forall (fun m => m < 500) (customer o).

Definition office_rules : Rules Office lock cv actor := {|
  Inv := filed_in_line;
  acquires a H l := Forall (fun h => (rank h < rank l)%nat) H /\ (a = TheManager -> (0 < rank l)%nat);
  sleeps a H _ := Forall (fun h => rank h = O) H /\ a <> TheManager;
  cv_lock := lock_of
|}.

(** What is known when a thread returns. *)
Definition office_done a H (_ : unit) : Prop :=
  (choice g = 1 -> match a with CustomerOf _ => True | TheManager => False | _ => H = [] end) /\ (choice g <> 1 -> H = []).

Notation WP := (WP office_rules).

(** ** Blocks of code *)

Definition keeps {X} (f : Office -> C (X * Office)) : Prop :=
  forall O o x o', filed_in_line O o -> f o = Ret (x, o') -> filed_in_line O o'.

Lemma keeps_data {X} (f : Office -> C (X * Office)) :
  (forall o x o', f o = Ret (x, o') -> customerData o' = customerData o /\ customer o' = customer o) -> keeps f.
Proof. intros Hf O o x o' Hi Hr. unfold filed_in_line in *. by destruct (Hf _ _ _ Hr) as [-> ->]. Qed.

Lemma keeps_other {X} (f : Office -> C (X * Office)) : choice g <> 1 -> keeps f.
Proof. intros Hg O o x o' _ _ H1. by destruct Hg. Qed.

Lemma keeps_then {X Y} (f : Office -> C (X * Office)) (h : Office -> C (Y * Office)) : keeps f -> keeps h -> keeps (f ▷ h).
Proof. intros Hf Hh O o x o' Hi Hr. unfold then_ in Hr. inv_ret. destruct x0. eapply Hh; [|done]. by eapply Hf. Qed.

Lemma keeps_use {X} (f : Office -> C (X * Office)) O o x o' : keeps f -> filed_in_line O o -> f o = Ret (x, o') -> filed_in_line O o'.
Proof. intros Hf. apply Hf. Qed.

Lemma keeps_read {X} (f : Office -> X) : keeps (read f).
Proof. apply keeps_data. by intros o x o' [= _ <-]. Qed.

Lemma keeps_get_clerk {X} k i (f : Clerk -> X) : keeps (get_clerk k i f).
Proof. apply keeps_data. intros o x o' Hr. unfold get_clerk in Hr. by inv_ret. Qed.

Lemma keeps_set_clerk k i f : keeps (set_clerk k i f).
Proof. apply keeps_data. intros o x o' Hr. unfold set_clerk in Hr. by inv_ret; destruct k. Qed.

Lemma keeps_spend v ssn m : (choice g = 1 -> v = ASenator) -> keeps (spend v ssn m).
Proof.
  intros Hv. destruct (decide (choice g = 1)) as [H1|]; [|by apply keeps_other]. rewrite Hv by done.
  apply keeps_data. intros o x o' Hr. unfold spend in Hr. by inv_ret.
Qed.

Lemma keeps_set_data v ssn f : (forall d, social (f d) = social d) -> keeps (set_data v ssn f).
Proof.
  intros Hf. destruct v; [|apply keeps_data; intros o x o' Hr; unfold set_data in Hr; by inv_ret].
  intros O o x o' Hi Hr H1. destruct (Hi H1) as [Hl Hm]. unfold set_data in Hr. inv_ret. split; [|done]. intros i d Hj Hd Hs. cbn in Hd.
  apply list_lookup_insert_Some in Hd as [(Ei & <- & _)|[_ Hd]]; [|by eapply Hl].
  eapply Hl; [done..| rewrite <- Ei; done |]. by rewrite <- Hf.
Qed.

Lemma keeps_file k i v f : (forall d, social (f d) = social d) -> keeps (file k i v f).
Proof.
  intros Hf O o x o' Hi Hr. unfold file in Hr. inv_ret. eapply keeps_set_data; [done | exact Hi | done].
Qed.

Lemma keeps_new_office : keeps (new_office g).
Proof.
  intros O o x o' _ [= _ <-] H1. split; [|constructor]. intros i d H0 Hd Hs. cbn in Hd. apply lookup_replicate in Hd as [-> _]. done.
Qed.

Lemma keeps_new_customer r : keeps (new_customer g r).
Proof.
  intros O o x o' Hi [= _ <-] H1. destruct (Hi H1) as [Hl Hm]. split; [done|]. cbn. apply Forall_app. split; [done|].
  rewrite H1. by repeat constructor.
Qed.

Lemma keeps_count_money t : keeps (count_money g t).
Proof.
  apply keeps_data. intros o x o' Hr. destruct t as [[[? ?] ?] ?]. unfold count_money, collect_kind in Hr.
  inv_ret. repeat (case_match; inv_ret). done.
Qed.

Lemma keeps_collect k m : keeps (collect_kind g k m).
Proof.
  apply keeps_data. intros o x o' Hr. unfold collect_kind in Hr. inv_ret. case_match. inv_ret. by destruct k.
Qed.

Lemma keeps_check_close : keeps (check_close g).
Proof.
  apply keeps_data. intros o x o' Hr. unfold check_close in Hr. inv_ret. case_match. repeat (case_match; inv_ret); done.
Qed.

Lemma keeps_customers_left b : keeps (customers_left g b).
Proof. apply keeps_data. intros o x o' Hr. unfold customers_left in Hr. by inv_ret. Qed.

Lemma keeps_same {X} (f : Office -> C (X * Office)) : (forall o x o', f o = Ret (x, o') -> o' = o) -> keeps f.
Proof. intros Hf. apply keeps_data. intros o x o' Hr. by rewrite (Hf _ _ _ Hr). Qed.

Lemma choose_poor m cs i chosen : m < 500 -> chosen.2 = false -> (choose m cs i chosen).2 = false.
Proof.
  intros Hm. revert i chosen. induction cs as [|c cs IH]; intros i [[n size] b] Hb; [done|]. cbn [choose].
  rewrite (proj2 (Z.leb_gt 500 m) Hm), andb_false_r.
  repeat (destruct (_ && _); [by apply IH|]). destruct (_ <? _); by apply IH.
Qed.

Lemma choose_line_poor n m cs : m < 500 -> (choose_line n m cs).2 = false.
Proof.
  intros Hm. unfold choose_line. pose proof (choose_poor m cs 0 (-1, n + 1, false) Hm eq_refl) as Hb.
  by destruct (choose m cs 0 _) as [[i size] b].
Qed.

(** The customer that leaves the line of test 1 has the lock. *)
Lemma get_in_line_filed k ssn H O o x o' : clerkLineLock ∈ H -> held O (CustomerOf ssn) H -> filed_in_line O o ->
  get_in_line g k ssn o = Ret (x, o') -> filed_in_line O o' /\ (choice g = 1 -> x.2 = false).
Proof.
  intros Hl [_ Hh] Hi Hr. apply Hh in Hl. unfold get_in_line in Hr.
  apply bind_Ret in Hr as (m & Hm & Hr). apply bind_Ret in Hr as (cs & _ & Hr). apply aref_Ret in Hm as [_ Hm].
  assert (choice g = 1 -> (choose_line (numCustomers g) m cs).2 = false) as Hb.
  { intros H1. apply choose_line_poor. destruct (Hi H1) as [_ Hp]. by eapply Forall_lookup in Hp. }
  destruct (choose_line _ _ _) as [i b]; apply bind_Ret in Hr as ([[] o1] & Hf & [= <- <-]). split; [|done]. cbn in Hb. destruct b.
  - eapply (keeps_use _ _ _ _ _ (keeps_spend _ _ _ _) Hi). done.
  - destruct (leaves g k); [|by eapply (keeps_use _ _ _ _ _ (keeps_set_clerk _ _ _) Hi)].
    unfold then_ in Hf. apply bind_Ret in Hf as ([[] o2] & Hc & Hf). eapply (keeps_use _ _ _ _ _ (keeps_set_clerk _ _ _) Hi) in Hc.
    unfold set_data in Hf. inv_ret. intros Hc1. destruct (Hc Hc1) as [Hd Hp]. split; [|done]. intros j d Hj Hd' Hs. cbn in Hd'.
    apply list_lookup_insert_Some in Hd' as [(Ej & _)|[_ Hd']]; [|by eapply Hd]. by replace j with ssn by lia.
  Unshelve. all: naive_solver.
Qed.

(** ** Calls *)

(** The threads that may let go of the line lock during test 1. *)
Definition frees a l : Prop := l = clerkLineLock -> choice g = 1 -> forall i, a <> CustomerOf i.

Lemma may_take_ok a H l : may_take office_rules a H l.
Proof.
  intros O o Hi Hh Hl H1. destruct (Hi H1) as [Hf Hm]. split; [|done]. intros i d H0 Hd Hs. pose proof (Hf i d H0 Hd Hs) as Ho.
  rewrite lookup_insert_ne; [done | congruence].
Qed.

Lemma may_free_ok a H l : l ∈ H -> frees a l -> may_free office_rules a H l.
Proof.
  intros Hl Hf O o Hi [_ Hh] H1. destruct (Hi H1) as [Hd Hm]. split; [|done]. intros i d H0 Hi' Hs. pose proof (Hd i d H0 Hi' Hs) as Ho.
  apply Hh in Hl.
  destruct (decide (l = clerkLineLock)) as [->|]; [|by rewrite lookup_delete_ne].
  rewrite Ho in Hl. injection Hl as <-. by destruct (Hf eq_refl H1 i).
Qed.

Lemma WP_do a H {X} (f : Office -> C (X * Office)) Φ : keeps f -> (forall x, Φ H x) -> WP a H (do_ f) Φ.
Proof. intros Hf Hp. apply WP_call. intros O o x o' Hi Hh Hr. split; [by eapply Hf | done]. Qed.

End Rules.

Ltac prove_order := split; [repeat constructor; cbn; lia | first [done | by intros ->| cbn; lia]].
Ltac prove_bound := done.
Ltac prove_take := apply may_take_ok.
Ltac prove_free := apply may_free_ok; [is_in | first [done | intros ? ?; first [done | by eauto | lia]]].

Ltac keep := lazymatch goal with
  | |- keeps _ (then_ _ _) => apply keeps_then; keep
  | |- keeps _ (read _) => apply keeps_read
  | |- keeps _ (get_clerk _ _ _) => apply keeps_get_clerk
  | |- keeps _ (set_clerk _ _ _) => apply keeps_set_clerk
  | |- keeps _ (spend _ _ _) => apply keeps_spend; first [done | by intros]
  | |- keeps _ (set_data _ _ _) => apply keeps_set_data; done
  | |- keeps _ (file _ _ _ _) => first [apply keeps_file; done | apply keeps_other; done]
  | |- _ => first [apply keeps_new_office | apply keeps_new_customer | apply keeps_count_money | apply keeps_check_close | apply keeps_customers_left
                  | by apply keeps_data; intros ?? ? [= _ <-] | by apply keeps_same; intros; inv_ret]
  end.
Ltac prove_block := apply WP_do; [keep | intros ?].

Ltac wp := wp_with prove_order prove_bound prove_free prove_take prove_block.

(** ** The programs *)

Section Close.

Lemma rows_Ret {X} n (l l' : list X) : rows n l = Ret l' <-> n <= Z.of_nat (length l) /\ l' = take (Z.to_nat n) l.
Proof. unfold rows. destruct (_ <? _) eqn:E; zbool; naive_solver lia. Qed.

Definition complete (d : CustomerData) : bool := arrived d && social d && picture d && passport d && paid d.

Lemma complete_social d : complete d = true -> social d = true.
Proof. unfold complete. intros ?. by zbool. Qed.

Lemma check_data_done l flags : (check_data l flags).1 = flags.1 && forallb complete l.
Proof.
  revert flags. induction l as [|d l IH]; intros [b h]; cbn [check_data forallb fst]; [by rewrite andb_true_r|]. unfold complete at 1.
  destruct (arrived d), (social d), (picture d), (passport d), (paid d); cbn; rewrite ?andb_false_r; done.
Qed.

Lemma check_close_Close g o o' : check_close g o = Ret (Close, o') ->
  numCustomers g <= Z.of_nat (length (customerData o)) /\ numSenators g <= Z.of_nat (length (senatorData o)) /\
  forall i, 0 <= i < numCustomers g -> exists d, customerData o !! Z.to_nat i = Some d /\ complete d = true.
Proof.
  intros Hr. unfold check_close in Hr. apply bind_Ret in Hr as (ss & [Hs ->]%rows_Ret & Hr). apply bind_Ret in Hr as (cs & [Hc ->]%rows_Ret & Hr).
  pose proof (check_data_done (take (Z.to_nat (numCustomers g)) (customerData o)) (check_data (take (Z.to_nat (numSenators g)) (senatorData o)) (true, true))) as Hd.
  destruct (check_data _ _) as [b h]. cbn in Hd. destruct b; [|repeat (case_match; inv_ret); done]. symmetry in Hd. apply andb_true_iff in Hd as [_ Hd].
  rewrite forallb_forall in Hd. split; [done|]. split; [done|]. intros i Hi.
  destruct (lookup_lt_is_Some_2 (customerData o) (Z.to_nat i) ltac:(lia)) as [d Ed]. exists d. split; [done|]. apply Hd.
  apply list_elem_of_In, (list_elem_of_lookup_2 _ (Z.to_nat i)). rewrite lookup_take_lt by lia. done.
Qed.
End Close.

Section Programs.
Variable g : Config.
Notation WP := (WP (office_rules g)).

(** The locks of those who come to a counter: a senator also has the outer one. *)
Definition outer (H : list lock) : Prop := H = [] \/ H = [senatorLock].

(** All but the manager, and the customers of test 1. *)
Definition guest (a : actor) : Prop := a <> TheManager /\ (choice g = 1 -> forall i, a <> CustomerOf i).

Section Guests.
Variables (a : actor) (H : list lock).
Context (Ga : guest a) (Ho : outer H).

Lemma meet_ok k i : WP a (clerkLineLock :: H) (meet k i) (fun H' _ => H' = clerkLock k i :: H).
Proof using Ga Ho. destruct Ga, Ho as [->| ->]; unfold meet, acquireLock; wp; done. Qed.

Lemma hand_over_ok k i ssn : WP a (clerkLineLock :: H) (hand_over k i ssn) (fun H' _ => H' = H).
Proof using Ga Ho.
  eapply WP_then; [apply meet_ok|]. intros ? _ ->. destruct Ga, Ho as [->| ->]; unfold signalOnClerkCV, waitOnClerkCV, releaseLock; wp; done.
Qed.

Lemma pose_ok i ssn : WP a (clerkLineLock :: H) (pose i ssn) (fun H' _ => H' = H).
Proof using Ga Ho.
  eapply WP_then; [apply meet_ok|]. intros ? _ ->. destruct Ga, Ho as [->| ->]; unfold signalOnClerkCV, waitOnClerkCV, releaseLock.
  all: wp; apply WP_while; intros _; wp; apply WP_if; wp; destruct (_ =? _); try done; wp; done.
Qed.

Lemma pay_ok v i ssn : (choice g = 1 -> v = ASenator) -> WP a (clerkLineLock :: H) (pay v i ssn) (fun H' _ => H' = H).
Proof using Ga Ho.
  intros Hv. eapply WP_then; [apply meet_ok|]. intros ? _ ->. destruct Ga, Ho as [->| ->]; unfold signalOnClerkCV, waitOnClerkCV, releaseLock; wp; done.
Qed.
End Guests.

(** *** Customers *)

Section Customers.
Variable ssn : Z.
Notation me := (CustomerOf ssn).

Lemma checkSenator_ok : WP me [] (checkSenator ssn) (fun H' _ => H' = []).
Proof. unfold checkSenator, pause; wp. apply WP_if; wp; done. Qed.

Lemma customer_guest : choice g <> 1 -> guest me.
Proof. by split. Qed.

Lemma come_up_ok i came : choice g <> 1 -> WP me [clerkLineLock] (come_up ssn i came)
  (fun H' r => match r with inl _ => H' = [] | inr l => H' = [clerkLineLock] /\ l = Some i end).
Proof.
  intros Hc. unfold come_up. apply WP_if; wp; done.
Qed.

(** A customer leaves the loop with the line lock. *)
Lemma stand_in_line_ok k : k = App \/ choice g <> 1 ->
  WP me [] (stand_in_line g k ssn) (fun H' r => H' = [clerkLineLock] /\ (choice g = 1 <-> r = None)).
Proof.
  intros Hk. unfold stand_in_line. apply WP_while. intros _. wp.
  apply WP_call. intros O o [i b] o' Hi Hh Hr. eapply get_in_line_filed in Hr as [Hi' Hb]; [|by apply list_elem_of_here | done | done].
  split; [done|]. cbn in Hb. destruct (decide (choice g = 1)) as [H1|H1].
  - rewrite Hb by done. unfold leaves. destruct Hk as [->|]; [|done]. rewrite H1. cbn. by wp.
  - replace (leaves g k) with false by (unfold leaves; rewrite (proj2 (Z.eqb_neq _ _) H1); by rewrite andb_false_r).
    apply WP_if; unfold waitOnBribeLineCV, waitOnLineCV; wp; (eapply WP_mono; [by apply come_up_ok|]).
    all: intros H' [|] Hr; [done | by destruct Hr as [-> ->]].
Qed.

Definition gone : list lock -> unit -> Prop := office_done g me.

Lemma goTo_ok k (p : Z -> prog unit) : k = App \/ choice g <> 1 ->
  (choice g <> 1 -> forall i, WP me [clerkLineLock] (p i) (fun H' _ => H' = [])) ->
  WP me [] (l ← stand_in_line g k ssn; with_clerk l p) gone.
Proof.
  intros Hk Hp. eapply WP_then; [by apply stand_in_line_ok|]. intros ? [i|] [-> Hl].
  - assert (choice g <> 1) as Hc by naive_solver. eapply WP_mono; [by apply Hp|]. by intros H' u ->.
  - apply WP_return. split; [done|]. by destruct Hl as [_ ->].
Qed.

Lemma goToAppClerk_ok : WP me [] (goToAppClerk g ssn) gone.
Proof. apply goTo_ok; [by left|]. intros Hc i. apply hand_over_ok; [by apply customer_guest | by left]. Qed.

Lemma goToPicClerk_ok : choice g <> 1 -> WP me [] (goToPicClerk g ssn) gone.
Proof. intros Hc. apply goTo_ok; [by right|]. intros _ i. apply pose_ok; [by apply customer_guest | by left]. Qed.

Lemma goToPassClerk_ok : choice g <> 1 -> WP me [] (goToPassClerk g ssn) gone.
Proof. intros Hc. apply goTo_ok; [by right|]. intros _ i. apply hand_over_ok; [by apply customer_guest | by left]. Qed.

Lemma goToCashier_ok : choice g <> 1 -> WP me [] (goToCashier g ssn) gone.
Proof. intros Hc. apply goTo_ok; [by right|]. intros _ i. apply pay_ok; [by apply customer_guest | by left | done]. Qed.

Lemma visit_ok (p : prog unit) : choice g <> 1 -> WP me [] p gone -> WP me [] p (fun H' _ => H' = []).
Proof. intros Hc Hp. eapply WP_mono; [exact Hp|]. intros H' u [_ Hn]. by apply Hn. Qed.

Lemma Customer_Run_ok : WP me [] (Customer_Run g ssn) gone.
Proof.
  unfold Customer_Run. apply then_ok; [apply checkSenator_ok|]. wp.
  destruct (choice g =? 1) eqn:Hc; [apply goToAppClerk_ok|]. apply Z.eqb_neq in Hc.
  pose proof checkSenator_ok as Hs. pose proof (visit_ok _ Hc goToAppClerk_ok) as Happ.
  pose proof (visit_ok _ Hc (goToPicClerk_ok Hc)) as Hpic. pose proof (visit_ok _ Hc (goToPassClerk_ok Hc)) as Hpass.
  apply then_ok; [apply WP_if; repeat (apply then_ok; [done|]); done|].
  repeat (apply then_ok; [done|]). by apply goToCashier_ok.
Qed.
End Customers.

(** *** Senators *)

Section Senators.
Variable ssn : Z.
Notation me := (SenatorOf ssn).

Lemma senator_guest : guest me.
Proof. by split. Qed.

Lemma to_counter_ok k (p : prog unit) : WP me [clerkLineLock; senatorLock] p (fun H' _ => H' = [senatorLock]) ->
  WP me [senatorLock] (senator_line k;; p) (fun H' _ => H' = [senatorLock]).
Proof. intros Hp. apply WP_bind. unfold senator_line, waitOnSenatorLineCV. wp. exact Hp. Qed.

Lemma Senator_Run_ok : WP me [] (Senator_Run ssn) (office_done g me).
Proof.
  assert (outer [senatorLock]) as Ho by (by right). pose proof senator_guest as Gs.
  assert (WP me [senatorLock] (Senator_goToAppClerk ssn) (fun H' _ => H' = [senatorLock])) by (by apply to_counter_ok, hand_over_ok).
  assert (WP me [senatorLock] (Senator_goToPicClerk ssn) (fun H' _ => H' = [senatorLock])) by (by apply to_counter_ok, pose_ok).
  unfold Senator_Run. wp. eapply WP_mono; [apply WP_if; by apply then_ok|]. intros ? _ ->.
  apply then_ok; [by apply to_counter_ok, hand_over_ok|]. apply then_ok; [by apply to_counter_ok, pay_ok|]. wp. done.
Qed.
End Senators.

(** *** Clerks *)

Section Clerks.
Variables (k : kind) (i : Z).
Notation me := (ClerkOf k i).

(** A service starts with the line lock. *)
Definition service_ok (s : service) : Prop := forall v b, WP me [clerkLineLock] (s v b) (fun H' _ => H' = []).

Lemma broadcastOnLineCV_ok : WP me [clerkLineLock] (broadcastOnLineCV k i) (fun H' _ => H' = [clerkLineLock]).
Proof. unfold broadcastOnLineCV, pause. wp. apply WP_if; by wp. Qed.

Lemma go_on_break_ok : WP me [clerkLineLock] (go_on_break k i) (fun H' _ => H' = []).
Proof. unfold go_on_break, acquireLock, releaseLock, waitOnClerkCV. by wp. Qed.

Lemma clerk_turn_ok s : service_ok s -> WP me [] (clerk_turn k i s) (fun H' _ => H' = []).
Proof.
  intros Hs. pose proof go_on_break_ok as Hb. unfold clerk_turn. wp. destruct x as [[came line] bribes].
  apply WP_if; [|repeat (apply WP_if; [unfold signalOnBribeLineCV, signalOnLineCV; wp; apply Hs|]); done].
  apply then_ok; [apply WP_if; [apply broadcastOnLineCV_ok | by apply WP_return]|].
  wp. apply WP_if; [|done]. unfold signalOnSenatorLineCV. wp. apply Hs.
Qed.

Lemma forever_ok s : service_ok s -> WP me [] (forever (clerk_turn k i s)) (office_done g me).
Proof.
  intros Hs. apply WP_while. intros _. apply then_ok; [by apply clerk_turn_ok | by wp].
Qed.
End Clerks.

Lemma take_application_ok i : choice g <> 1 -> service_ok App i (take_application i).
Proof.
  intros Hc v b. unfold take_application, ready, finished, acquireLock, releaseLock, waitOnClerkCV, signalOnClerkCV. by wp.
Qed.

Lemma take_picture_ok i : service_ok Pic i (take_picture i).
Proof.
  intros v b. unfold take_picture, ready, finished, acquireLock, releaseLock, waitOnClerkCV, signalOnClerkCV. wp.
  apply WP_while. intros _. wp. destruct x1; by wp.
Qed.

Lemma certify_ok i : service_ok Pass i (certify i).
Proof. intros v b. unfold certify, ready, finished, acquireLock, releaseLock, waitOnClerkCV, signalOnClerkCV. by wp. Qed.

Lemma count_passport_ok i : WP (ClerkOf Cash i) [clerkLock Cash i] (count_passport g) (fun H' _ => H' = [clerkLock Cash i]).
Proof. apply WP_if; [by wp | by apply WP_return]. Qed.

Lemma take_payment_ok i : service_ok Cash i (take_payment g i).
Proof.
  intros v b. unfold take_payment, ready, finished, acquireLock, releaseLock, waitOnClerkCV, signalOnClerkCV. wp.
  apply (WP_mono _ _ _ _ (fun H' _ => H' = [clerkLock Cash i])); [destruct b; by wp|]. intros ? _ ->. wp.
  eapply WP_mono; [apply count_passport_ok|]. intros ? _ ->. by wp.
Qed.

Lemma ApplicationClerk_Run_ok i : WP (ClerkOf App i) [] (ApplicationClerk_Run g i) (office_done g (ClerkOf App i)).
Proof.
  unfold ApplicationClerk_Run. apply (WP_then _ _ _ _ _ _ (fun H' _ => H' = [] /\ choice g <> 1)).
  - apply WP_while. intros _. destruct (choice g =? 1) eqn:Hc; [by wp | apply Z.eqb_neq in Hc; by wp].
  - intros ? _ [-> Hc]. by apply forever_ok, take_application_ok.
Qed.

(** *** The manager *)

Lemma wake_ok k i : WP TheManager [] (wake k i) (fun H' _ => H' = []).
Proof. unfold wake, acquireLock, releaseLock, signalOnClerkCV. by wp. Qed.

Lemma check_lines_ok k most b : WP TheManager [] (check_lines g k most b) (fun H' _ => H' = []).
Proof.
  apply WP_each. intros j y _. apply WP_bind, WP_do; [apply keeps_same; intros; unfold get_clerk in *; by inv_ret|]. intros w.
  apply then_ok; [apply WP_if; [apply wake_ok | by apply WP_return]|]. by wp.
Qed.

Lemma ManagerCheckLines_ok : WP TheManager [] (ManagerCheckLines g) (fun H' _ => H' = []).
Proof.
  unfold ManagerCheckLines. do 4 (eapply WP_then; [apply check_lines_ok|]; intros ? ? ->). wp. apply WP_if; by wp.
Qed.

Lemma ManagerCountMoney_ok t : WP TheManager [] (ManagerCountMoney g t) (fun H' _ => H' = []).
Proof. unfold ManagerCountMoney. by wp. Qed.

Lemma wake_waiting_ok k : WP TheManager [] (wake_waiting g k) (fun H' _ => H' = []).
Proof. apply WP_each. intros j [] _. wp. apply WP_if; [apply wake_ok | by apply WP_return]. Qed.

(** In test 1 it is never time to close: two files would be complete. *)
Lemma check_close_1 O o o' : choice g = 1 -> 2 <= numCustomers g -> filed_in_line g O o -> check_close g o <> Ret (Close, o').
Proof.
  intros H1 Hn Hi Hr. destruct (Hi H1) as [Hf _]. apply check_close_Close in Hr as (_ & _ & Hc).
  assert (forall i, 0 <= i < numCustomers g -> O !! clerkLineLock = Some (CustomerOf i)) as Ho.
  { intros i Hi'. destruct (Hc i Hi') as (d & Hd & Hs). eapply Hf; [lia | done|]. by apply complete_social. }
  pose proof (Ho 0 ltac:(lia)) as H0. pose proof (Ho 1 ltac:(lia)). congruence.
Qed.

Definition crowd : Prop := choice g = 1 -> 2 <= numCustomers g.

Lemma ManagerCheckClose_ok : crowd -> WP TheManager [] (ManagerCheckClose g) (fun H' r => H' = [] /\ (choice g = 1 -> r = false)).
Proof.
  intros Hn. apply WP_bind, WP_call. intros O o v o' Hi _ Hr. split; [exact (keeps_use g _ _ _ _ _ (keeps_check_close g) Hi Hr)|]. destruct v; [| |by wp].
  - wp. split; [done|]. intros H1. by destruct (check_close_1 O o o' H1 (Hn H1) Hi).
  - do 4 (apply then_ok; [apply wake_waiting_ok|]). by wp.
Qed.

Lemma Manager_ok : crowd -> WP TheManager [] (Manager g) (office_done g TheManager).
Proof.
  intros Hn. apply WP_while. intros t. apply then_ok.
  { apply (WP_repeat _ _ (fun H' => H' = [])); [|done..]. intros ? ->. apply then_ok; [apply ManagerCheckLines_ok | by wp]. }
  eapply WP_then; [apply ManagerCountMoney_ok|]. intros ? t' ->. eapply WP_then; [by apply ManagerCheckClose_ok|].
  intros ? b [-> Hb]. destruct (decide (choice g = 1)) as [H1|H1]; [rewrite Hb by done; by wp|]. apply WP_if; by wp.
Qed.

(** *** The menu *)

Lemma system_test_ok : WP Menu [SystemLock] (system_test g) (fun H' _ => H' = [SystemLock]).
Proof.
  assert (forall k, WP Menu [SystemLock] (fork_clerks g k) (fun H' _ => H' = [SystemLock])) as Hf.
  { intros k. apply WP_each. intros j x _. by apply WP_fork. }
  unfold system_test. apply then_ok; [by wp|]. apply then_ok; [apply WP_each; intros j x _; by wp|]. apply then_ok; [by apply WP_fork|].
  do 4 (apply then_ok; [done|]). apply then_ok; apply WP_each; intros j x _; by wp.
Qed.

Lemma Part2_ok : WP Menu [] (Part2 g) (office_done g Menu).
Proof.
  unfold Part2. wp. eapply (WP_mono _ _ _ _ (fun H' _ => H' = [SystemLock])); [apply WP_if; [by wp | by apply WP_return]|]. intros ? _ ->.
  apply then_ok; [apply system_test_ok|]. by wp.
Qed.

Lemma code_ok a : crowd -> WP a [] (office_code g a) (office_done g a).
Proof.
  intros Hn. destruct a as [| |[] i|i|i]; [apply Part2_ok | by apply Manager_ok | apply ApplicationClerk_Run_ok | | | |
    apply Customer_Run_ok | apply Senator_Run_ok].
  - apply forever_ok, take_picture_ok.
  - apply forever_ok, certify_ok.
  - apply forever_ok, take_payment_ok.
Qed.

Lemma start_good : good (office_rules g) (office_done g) (start g).
Proof.
  split.
  - intros _. split; [|constructor]. intros i d _ Hd. cbn in Hd. by rewrite lookup_nil in Hd.
  - cbn. intros a p [<- <-]%lookup_singleton_Some. exists []. split; [|apply Part2_ok].
    split; [constructor|]. intros l. split; [|by intros ?%elem_of_nil]. by rewrite lookup_empty.
  - cbn. intros l a. by rewrite lookup_empty.
  - intros c. unfold cond_of. cbn. by rewrite lookup_empty.
Qed.

(** Every state of an execution keeps to the rules. *)
Lemma reachable_good es W : crowd -> happens (office_code g) es (start g) = true -> run (office_code g) es (start g) = Ret W ->
  good (office_rules g) (office_done g) W.
Proof. intros Hn. eapply run_good; [intros a; by apply code_ok | apply start_good]. Qed.
End Programs.

(** ** No deadlock *)

(** C11: In every test but the first, in every state that an execution can reach:
    each lock that is taken, other than senatorLock, is taken by a thread that can
    run, or that waits for a lock whose holder can run, or waits for a third one, and
    so on, but not in a circle; and the manager, as long as it is in the office, can
    run or waits for such a lock. *)
Theorem office_never_deadlocks g es W : choice g <> 1 -> happens (office_code g) es (start g) = true ->
  run (office_code g) es (start g) = Ret W ->
  (forall l b, owner W !! l = Some b -> l <> senatorLock -> in_use W l) /\
  (is_Some (pool W !! TheManager) -> can_run TheManager W = true \/ exists l, waits_for TheManager l W /\ in_use W l).
Proof.
  intros Hc Hh Hr. assert (good (office_rules g) (office_done g) W) as G by (eapply reachable_good; [|done..]; by intros ?).
  assert (forall a H l, acquires (office_rules g) a H l -> forall h, h ∈ H -> (rank h < rank l)%nat) as Hu by (intros a H l [Ha _]; by apply Forall_forall).
  assert (forall a H c, sleeps (office_rules g) a H c -> forall h, h ∈ H -> rank h = O) as Hs by (intros a H c [Ha _]; by apply Forall_forall).
  assert (forall a H, office_done g a H tt -> H = []) as Hd by (intros a H [_ Hd]; by apply Hd).
  assert (forall l, (rank l <= 5)%nat) as Hb by (intros []; cbn; lia). split.
  - intros l b Hl Hne. apply (holder_progress _ rank _ Hu Hs Hd 5 Hb W l b G Hl). destruct l; cbn; first [done | lia].
  - intros [p Hp]. apply (awake_progress _ rank _ Hu Hs Hd 5 Hb W TheManager p G Hp); [by intros H c [_ ?] | intros H l [_ Ht]; by apply Ht].
Qed.

(** C23: Test 1 never ends: from any state that an execution of the test reaches with
    the manager in the office, no execution leads to a state without the manager,
    who leaves only to report the end of the test. (Each customer's file is complete
    only when the customer has returned with the line lock, so at most one is.) *)
Theorem test_1_never_closes g es W es' W' : repeatable_test 1 = Some g ->
  happens (office_code g) es (start g) = true -> run (office_code g) es (start g) = Ret W -> is_Some (pool W !! TheManager) ->
  happens (office_code g) es' W = true -> run (office_code g) es' W = Ret W' -> is_Some (pool W' !! TheManager).
Proof.
  intros [= <-] Hh Hr Hm Hh' Hr'. assert (crowd (mkConfig 1 2 2 1 1 1 0)) as Hn by (intros _; cbn; lia).
  eapply (run_stays _ _ (office_done _)); [| | by eapply reachable_good | exact Hh' | exact Hr' | exact Hm].
  - intros a. by apply code_ok.
  - intros H [H1 _]. by apply H1.
Qed.

(** ** Executions *)

Module Demo.

Definition shortest_line_test : Config := mkConfig 1 2 2 1 1 1 0.
Definition senator_test : Config := mkConfig 7 5 1 1 1 1 1.

(** Where an execution leads. *)
Definition goes_on (g : Config) (es : list (actor * Z)) (W : World (St:=Office) (L:=lock) (V:=cv) (A:=actor)) :
  World (St:=Office) (L:=lock) (V:=cv) (A:=actor) := match run (office_code g) es W with Ret W' => W' | _ => W end.

Definition after g es := goes_on g es (start g).

Lemma goes_on_run g es W : match run (office_code g) es W with Ret _ => true | _ => false end = true ->
  run (office_code g) es W = Ret (goes_on g es W).
Proof. unfold goes_on. by destruct (run _ _ _). Defined.

(** The menu starts a test, by [n] steps of its thread. *)
Definition menu (n : nat) : list (actor * Z) := replicate n (Menu, 0).

(** In test 7 the application clerk has the line lock, and customer 0 asks for it. *)
Definition morning : list (actor * Z) := menu 24 ++ replicate 3 (ClerkOf App 0, 0) ++ replicate 4 (CustomerOf 0, 0).

Lemma office_never_deadlocks_witness :
  waits_for (CustomerOf 0) clerkLineLock (after senator_test morning) /\ in_use (after senator_test morning) clerkLineLock.
Proof.
  split; [by vm_compute|].
  apply (office_never_deadlocks senator_test morning (after senator_test morning)) with (b := ClerkOf App 0);
    [done | by vm_compute | apply goes_on_run; by vm_compute | by vm_compute | done].
Defined.

(** Test 1, until the manager and the two customers are there; then the first
    customer leaves with the lock, and the second waits for it. *)
Definition opening : list (actor * Z) := menu 17.
Definition no_line : list (actor * Z) := replicate 6 (CustomerOf 0, 0) ++ replicate 3 (CustomerOf 1, 0).

Lemma test_1_never_closes_witness :
  is_Some (pool (goes_on shortest_line_test no_line (after shortest_line_test opening)) !! TheManager) /\
  waits_for (CustomerOf 1) clerkLineLock (goes_on shortest_line_test no_line (after shortest_line_test opening)) /\
  owner (goes_on shortest_line_test no_line (after shortest_line_test opening)) !! clerkLineLock = Some (CustomerOf 0).
Proof.
  split; [|split; by vm_compute].
  apply (test_1_never_closes shortest_line_test opening (after shortest_line_test opening) no_line); [done | by vm_compute | apply goes_on_run; by vm_compute | | by vm_compute |].
  - eexists. by vm_compute.
  - apply goes_on_run. by vm_compute.
Defined.
End Demo.
