(* ===== verification/PassportCounts.v ===== *)
(** * Lines and sums of the passport office

    The functions of Passport.v without calls: the line a customer chooses is a
    least one; the manager's count loses no money; the office closes when all files
    are complete. *)

From S2P Require Import Prelude ThreadProg Passport PassportFacts.

(** ** The choice of a line

    The places a customer can take: the lines of the clerks, and their bribe lines
    for who can pay. A line counts for more when its clerk is busy or on break. *)

Section Choice.
Variable money : Z.

Record place := mkPlace { number : Z; size : Z; bribe : bool }.

Definition waiting_time (c : Clerk) : Z :=
  lineCount c + match state c with CLERK_FREE => 0 | CLERK_BUSY => 1 | CLERK_BREAK => 2 end.

Fixpoint places (cs : list Clerk) (i : Z) : list place :=
  match cs with
  | [] => []
  | c :: cs =>
      mkPlace i (waiting_time c) false ::
      (if negb (on_break c) && (500 <=? money) then [mkPlace i (bribeLineCount c) true] else []) ++ places cs (i + 1)
  end.

(** The first least place, if it is better than [best]. *)
Fixpoint pick (ps : list place) (best : place) : place :=
  match ps with [] => best | p :: ps => pick ps (if size p <? size best then p else best) end.

Definition triple (p : place) : Z * Z * bool := (number p, size p, bribe p).

Lemma choose_pick cs i best : choose money cs i (triple best) = triple (pick (places cs i) best).
Proof.
  revert i best. induction cs as [|c cs IH]; intros i best; [done|]. cbn [choose places pick triple app].
  set (b1 := if size (mkPlace i (waiting_time c) false) <? size best then mkPlace i (waiting_time c) false else best).
  assert ((if bool_decide (state c = CLERK_FREE) && (lineCount c <? size best) then (i, lineCount c, false)
    else if bool_decide (state c = CLERK_BUSY) && (lineCount c + 1 <? size best) then (i, lineCount c + 1, false)
    else if lineCount c + 2 <? size best then (i, lineCount c + 2, false) else (number best, size best, bribe best)) = triple b1) as ->.
  { subst b1. unfold waiting_time. cbn [size]. destruct (state c); cbn; rewrite ?Z.add_0_r;
      repeat match goal with |- context [?x <? ?y] => destruct (Z.ltb_spec x y) end; first [done | lia]. }
  cbn [triple]. unfold on_break. destruct (negb _ && (500 <=? money)) eqn:E; cbn; [|by rewrite <- IH].
  by rewrite <- IH; destruct (bribeLineCount c <? size b1).
Qed.

Lemma pick_least ps best : (pick ps best = best \/ pick ps best ∈ ps) /\
  size (pick ps best) <= size best /\ (forall p, p ∈ ps -> size (pick ps best) <= size p) /\
  (pick ps best = best \/ size (pick ps best) < size best).
Proof.
  revert best. induction ps as [|p ps IH]; intros best; cbn [pick].
  { split; [by left|]. split; [lia|]. split; [by intros p ?%elem_of_nil | by left]. }
  destruct (IH (if size p <? size best then p else best)) as (H1 & H2 & H3 & H4).
  destruct (Z.ltb_spec (size p) (size best)) as [E|E];
    (split; [rewrite elem_of_cons; naive_solver|]); (split; [lia|]);
    (split; [intros q; rewrite elem_of_cons; intros [->|?]; [lia | by apply H3]|]).
  - right. lia.
  - naive_solver lia.
Qed.

Lemma places_number cs i p : p ∈ places cs i -> i <= number p.
Proof.
  revert i. induction cs as [|c cs IH]; intros i; cbn [places]; [by intros ?%elem_of_nil|].
  rewrite elem_of_cons, elem_of_app. intros [->|[Hp|Hp%IH]]; [done| |lia].
  destruct (_ && _); [|by apply elem_of_nil in Hp]. by apply list_elem_of_singleton in Hp as ->.
Qed.

(** The second loop, when every place is too long: all lines count the same. *)
Definition lines (cs : list Clerk) (i : Z) : list place := imap (fun j c => mkPlace (i + Z.of_nat j) (lineCount c) false) cs.

Lemma shortest_pick cs i best : bribe best = false ->
  shortest cs i (number best, size best) = (number (pick (lines cs i) best), size (pick (lines cs i) best)).
Proof.
  unfold lines. revert i best. induction cs as [|c cs IH]; intros i best Hb; [done|]. cbn [shortest imap pick size number].
  rewrite Z.add_0_r. rewrite (imap_ext _ (fun j c => mkPlace (i + 1 + Z.of_nat j) (lineCount c) false)) by (intros; unfold compose; f_equal; lia).
  rewrite <- IH by (by destruct (_ <? _)). by destruct (_ <? _).
Qed.

Lemma elem_of_lines cs p : p ∈ lines cs 0 <-> exists j c, cs !! j = Some c /\ p = mkPlace (Z.of_nat j) (lineCount c) false.
Proof. unfold lines. rewrite elem_of_lookup_imap. naive_solver. Qed.

(** C24: A customer takes a least place, among the lines (longer by one at a busy
    clerk and by two at a clerk on break) and, with 500 dollars, the bribe lines of
    the clerks not on break, if that place counts no more than the number of
    customers; if all count more, the shortest of the lines not longer than that
    number; and if there is none, -1. *)
Theorem choose_line_least n cs : let '(i, b) := choose_line n money cs in
  (exists p, p ∈ places cs 0 /\ number p = i /\ bribe p = b /\ size p <= n /\ forall q, q ∈ places cs 0 -> size p <= size q) \/
  (b = false /\ (forall q, q ∈ places cs 0 -> n < size q) /\
   ((exists p, p ∈ lines cs 0 /\ number p = i /\ size p <= n /\ forall q, q ∈ lines cs 0 -> size p <= size q) \/
    (i = -1 /\ forall q, q ∈ lines cs 0 -> n < size q))).
Proof.
  unfold choose_line. change (-1, n + 1, false) with (triple (mkPlace (-1) (n + 1) false)). rewrite choose_pick.
  destruct (pick_least (places cs 0) (mkPlace (-1) (n + 1) false)) as (H1 & H2 & H3 & H4). cbn [triple].
  destruct (decide (number (pick (places cs 0) (mkPlace (-1) (n + 1) false)) = -1)) as [Hn|Hn].
  - assert (pick (places cs 0) (mkPlace (-1) (n + 1) false) = mkPlace (-1) (n + 1) false) as E.
    { destruct H1 as [H1|H1]; [done|]. apply places_number in H1. lia. }
    rewrite E in *. cbn [number size bribe] in *. rewrite Z.eqb_refl.
    rewrite (shortest_pick cs 0 (mkPlace (-1) (n + 1) false) eq_refl : shortest cs 0 (-1, n + 1) = _). cbn [fst].
    right. split; [done|]. split; [intros q Hq; specialize (H3 q Hq); lia|].
    destruct (pick_least (lines cs 0) (mkPlace (-1) (n + 1) false)) as ([E'|Hl] & _ & Hm & Hs).
    + right. rewrite E' in *. split; [done|]. intros q Hq. specialize (Hm q Hq). cbn in Hm. lia.
    + destruct Hs as [Hs|Hs]; [|left; eexists; split; [exact Hl|]; split; [done|]; cbn in Hs; split; [lia | exact Hm]].
      rewrite Hs in Hl. apply elem_of_lines in Hl as (j & c & _ & [=]). lia.
  - rewrite (proj2 (Z.eqb_neq _ _) Hn). left. destruct H1 as [H1|H1]; [by rewrite H1 in Hn|].
    destruct H4 as [H4|H4]; [by rewrite H4 in Hn|]. cbn in H4. eexists. split; [exact H1|]. repeat split; [lia | exact H3].
Qed.
End Choice.

(** ** The count *)

Definition cash (cs : list Clerk) : Z := foldr (fun c n => money c + n) 0 cs.
Definition whole (t : totals) : Z := let '(a, p, s, c) := t in a + p + s + c.

(** The money of all clerks. *)
Definition in_office (o : Office) : Z := cash (appClerk o) + cash (picClerk o) + cash (passClerk o) + cash (cashier o).

(** The arrays are as long as the configuration says. *)
Definition staffed g (o : Office) : Prop := forall k, Z.of_nat (length (clerks k o)) = numClerks g k.

Lemma collect_all cs m : collect cs m = (m + cash cs, map (fun c => addMoney (- money c) c) cs).
Proof.
  revert m. induction cs as [|c cs IH]; intros m; cbn [collect cash foldr map]; [by rewrite Z.add_0_r|]. rewrite IH.
  by rewrite Z.add_assoc.
Qed.

Lemma rows_all {X} n (l : list X) : Z.of_nat (length l) = n -> rows n l = Ret l.
Proof. intros <-. apply rows_Ret. split; [lia|]. by rewrite Nat2Z.id, firstn_all. Qed.

(** All counted: no clerk has money any more. *)
Definition cleared (o : Office) : Office :=
  let clear cs := map (fun c => addMoney (- money c) c) cs in
  set_clerks App (clear (appClerk o)) (set_clerks Pic (clear (picClerk o))
    (set_clerks Pass (clear (passClerk o)) (set_clerks Cash (clear (cashier o)) o))).

Lemma cash_cleared cs : cash (map (fun c => addMoney (- money c) c) cs) = 0.
Proof. induction cs as [|c cs IH]; [done|]. unfold cash in *. cbn [map foldr]. rewrite IH. cbn. lia. Qed.

(** The manager's count: with the totals [t] before, the new totals are [t]
    and all the money of the clerks, who then have none; in test 6 the program stops
    if that is not what the visitors have spent. *)
Theorem count_money_counts g t o : staffed g o ->
  (choice g = 6 /\ whole t + in_office o <> totalSpent o /\ count_money g t o = Abort) \/
  (exists t' o', count_money g t o = Ret (t', o') /\ whole t' = whole t + in_office o /\ in_office o' = 0 /\ o' = cleared o /\
    (choice g = 6 -> whole t' = totalSpent o)).
Proof.
  intros Hs. destruct t as [[[a p] s] c]. unfold count_money, collect_kind.
  pose proof (rows_all _ _ (Hs App)) as Ra. pose proof (rows_all _ _ (Hs Pic)) as Rp.
  pose proof (rows_all _ _ (Hs Pass)) as Rs. pose proof (rows_all _ _ (Hs Cash)) as Rc. cbn in Ra, Rp, Rs, Rc.
  cbn. rewrite Ra. cbn. rewrite collect_all. cbn. rewrite Rp. cbn. rewrite collect_all. cbn.
  rewrite Rs. cbn. rewrite collect_all. cbn. rewrite Rc. cbn. rewrite collect_all. cbn. rewrite Z.eqb_refl. cbn.
  assert (a + cash (appClerk o) + (p + cash (picClerk o)) + (s + cash (passClerk o)) + (c + cash (cashier o)) = a + p + s + c + in_office o) as E
    by (unfold in_office; lia).
  rewrite E. destruct (choice g =? 6) eqn:E6; zbool; cbn; [destruct (_ =? totalSpent o) eqn:Et; zbool; cbn|]; [right | by left | right];
    (do 2 eexists; split; [reflexivity|]; cbn; split; [done|]; unfold in_office; cbn; rewrite !cash_cleared;
     split; [done|]; split; [done|]; first [done | lia]).
Qed.

(** ** The end of the day *)

(** C38: The office closes exactly when the files of all senators and customers are
    complete; in test 3 the program stops at that moment if the passports handed
    out are not as many as the customers. *)
Theorem closes_when_complete g o : staffed g o -> Z.of_nat (length (customerData o)) = numCustomers g ->
  Z.of_nat (length (senatorData o)) = numSenators g ->
  if forallb complete (senatorData o ++ customerData o) then
    check_close g o = if choice g =? 3 then
        if numPassports o =? numCustomers g then Ret (Close, set_numPassports 0 o) else Abort
      else Ret (Close, o)
  else exists v, check_close g o = Ret (v, o) /\ v <> Close /\
    (v = WakeAll -> forall k c, c ∈ clerks k o -> state c = CLERK_BREAK).
Proof.
  intros Hs Hc Hn. unfold check_close. rewrite (rows_all _ _ Hn), (rows_all _ _ Hc). cbn.
  assert ((check_data (customerData o) (check_data (senatorData o) (true, true))).1 = forallb complete (senatorData o) && forallb complete (customerData o))
    as Hd by (by rewrite !check_data_done).
  rewrite forallb_app. destruct (check_data (customerData o) _) as [b h]. cbn in Hd. rewrite <- Hd. destruct b.
  - destruct (choice g =? 3); [|done]. by destruct (_ =? _).
  - pose proof (rows_all _ _ (Hs App)) as Ra. pose proof (rows_all _ _ (Hs Pic)) as Rp.
    pose proof (rows_all _ _ (Hs Pass)) as Rs. pose proof (rows_all _ _ (Hs Cash)) as Rc. cbn in Ra, Rp, Rs, Rc.
    rewrite Ra, Rp, Rs, Rc. cbn. destruct h; [|exists GoOn; by repeat split].
    destruct (_ && _ && _ && _) eqn:E; [|exists GoOn; by repeat split]. exists WakeAll. split; [done|]. split; [done|]. intros _ k c Hk.
    zbool. assert (forallb on_break (clerks k o) = true) as Hb by (by destruct k). rewrite forallb_forall in Hb.
    apply list_elem_of_In, Hb in Hk. by apply bool_decide_eq_true in Hk.
Qed.

(** ** Examples *)

Module Demo.

Definition fresh_office : Office := mkOffice [new_Clerk; setState CLERK_BREAK new_Clerk] [new_Clerk] [new_Clerk] [addMoney 100 new_Clerk]
  [600; 100] [] [mkData true false true true true true; mkData true false true true true true] [] false 100 0.

Definition two_customers (n : Z) : Config := mkConfig n 2 2 1 1 1 0.

Lemma staffed_fresh n : staffed (two_customers n) fresh_office.
Proof. by intros []. Qed.

Lemma count_money_counts_witness : exists t' o', count_money (two_customers 6) (0, 0, 0, 0) fresh_office = Ret (t', o') /\ whole t' = 100.
Proof.
  destruct (count_money_counts (two_customers 6) (0, 0, 0, 0) fresh_office (staffed_fresh 6)) as [(_ & H & _)|(t' & o' & H & E & _)]; [by destruct H|].
  by exists t', o'.
Defined.

Lemma closes_when_complete_witness : check_close (two_customers 3) fresh_office = Abort /\ check_close (two_customers 4) fresh_office = Ret (Close, fresh_office).
Proof.
  split; [exact (closes_when_complete (two_customers 3) fresh_office (staffed_fresh 3) eq_refl eq_refl)
         | exact (closes_when_complete (two_customers 4) fresh_office (staffed_fresh 4) eq_refl eq_refl)].
Defined.

(** The clerk of the second line is on break, so that the first one is better
    although it is longer by one; with 500 dollars an empty bribe line is. *)
Example busy_or_on_break : choose_line 5 100 [mkClerk CLERK_BUSY 2 0 false 0 0 false; mkClerk CLERK_BREAK 1 0 false 0 0 false] = (0, false) /\
  choose_line 5 600 [mkClerk CLERK_BUSY 2 1 false 0 0 false; mkClerk CLERK_BUSY 4 0 false 0 0 false] = (1, true).
Proof. by split. Qed.

(** The clerks are all woken although customer 1 has not arrived yet: the loop stops
    at customer 0. *)
Example wakes_before_all_are_here : check_close (mkConfig 8 2 1 1 1 1 0)
  (mkOffice [setState CLERK_BREAK new_Clerk] [setState CLERK_BREAK new_Clerk] [setState CLERK_BREAK new_Clerk] [setState CLERK_BREAK new_Clerk]
    [100; 100] [] [set_arrived new_CustomerData; new_CustomerData] [] false 0 0) =
  Ret (WakeAll, mkOffice [setState CLERK_BREAK new_Clerk] [setState CLERK_BREAK new_Clerk] [setState CLERK_BREAK new_Clerk] [setState CLERK_BREAK new_Clerk]
    [100; 100] [] [set_arrived new_CustomerData; new_CustomerData] [] false 0 0).
Proof. reflexivity. Qed.
End Demo.
