(* ===== verification/RemoteOffice.v ===== *)
(** * The passport office as processes of many machines (test/setup.h, customer.c,
      senator.c, appclerk.c, picclerk.c, passclerk.c, cashier.c, manager.c)

    The user programs of the last project: every person is a process of its own, on
    any machine, and the office is locks, condition variables and monitor variables
    on the server. A process is a program of ThreadProg.v: each system call is one
    event, so that processes change over between any two of them. The text of the
    messages is left out; the lock around them is not. RemoteFacts.v has the order of
    the locks, Distributed.v the server under such programs, ServerOffice.v the
    office on the server. *)

From S2P Require Import Prelude ThreadProg.

Definition NUM_CUSTOMERS : Z := 7.
Definition NUM_APPCLERKS : Z := 3.
Definition NUM_PICCLERKS : Z := 3.
Definition NUM_PASSCLERKS : Z := 3.
Definition NUM_CASHIERS : Z := 3.
Definition NUM_SENATORS : Z := 1.

Inductive kind := App | Pic | Pass | Cash.
Inductive visitor := Customer | Senator.

Definition numClerks (k : kind) : Z :=
  match k with App => NUM_APPCLERKS | Pic => NUM_PICCLERKS | Pass => NUM_PASSCLERKS | Cash => NUM_CASHIERS end.
Definition numVisitors (v : visitor) : Z := match v with Customer => NUM_CUSTOMERS | Senator => NUM_SENATORS end.

(** Those who draw a number when they start. *)
Inductive who := Visitor (v : visitor) | Clerk (k : kind).

(** ** The server's objects *)

Inductive lock :=
| indexLock (w : who)    (* custLock, senLock, appLock, picLock, passLock, cashLock *)
| lineLock | moneyLock | senatorLock | outsideLock | outputLock
| clerkLock (k : kind) (i : Z).

Inductive cv :=
| senatorCV | customerCV
| lineCV (k : kind) (i : Z) | bribeLineCV (k : kind) (i : Z) | senatorLineCV (k : kind) (i : Z) | clerkCV (k : kind) (i : Z).

Inductive mvar :=
| indexOf (w : who)
| senatorFlag | doneFlag
| money (v : visitor) | arrived (v : visitor) | outside (v : visitor) | social (v : visitor) | picture (v : visitor)
| passport (v : visitor) | paid (v : visitor)
| clerkMoney (k : kind) | lineCount (k : kind) | bLineCount (k : kind) | toFile (k : kind) | senInLine (k : kind) | state (k : kind)
| picLiked.

(** The processes: the manager, and the [n]-th process that runs the program of a
    visitor or a clerk. *)
Inductive actor := TheManager | Person (w : who) (n : nat).

#[export] Instance kind_eq_dec : EqDecision kind.
Proof. solve_decision. Defined.
#[export] Instance visitor_eq_dec : EqDecision visitor.
Proof. solve_decision. Defined.
#[export] Instance who_eq_dec : EqDecision who.
Proof. solve_decision. Defined.
#[export] Instance lock_eq_dec : EqDecision lock.
Proof. solve_decision. Defined.
#[export] Instance cv_eq_dec : EqDecision cv.
Proof. solve_decision. Defined.
#[export] Instance mvar_eq_dec : EqDecision mvar.
Proof. solve_decision. Defined.
#[export] Instance actor_eq_dec : EqDecision actor.
Proof. solve_decision. Defined.

Definition kind_number (k : kind) : nat := match k with App => 0 | Pic => 1 | Pass => 2 | Cash => 3 end.
Definition kind_of (n : nat) : kind := match n with O => App | 1%nat => Pic | 2%nat => Pass | _ => Cash end.

#[export] Instance kind_countable : Countable kind.
Proof. apply (inj_countable' kind_number kind_of). by intros []. Defined.

#[export] Instance who_countable : Countable who.
Proof.
  apply (inj_countable' (fun w => match w with Visitor Customer => inl true | Visitor Senator => inl false | Clerk k => inr k end)
    (fun x => match x with inl true => Visitor Customer | inl false => Visitor Senator | inr k => Clerk k end)).
  by intros [[]|].
Defined.

#[export] Instance lock_countable : Countable lock.
Proof.
  apply (inj_countable'
    (fun l => match l with
      | lineLock => inl 0%nat | moneyLock => inl 1%nat | senatorLock => inl 2%nat | outsideLock => inl 3%nat | outputLock => inl 4%nat
      | indexLock w => inr (inl w) | clerkLock k i => inr (inr (k, i)) end)
    (fun x => match x with
      | inl 0%nat => lineLock | inl 1%nat => moneyLock | inl 2%nat => senatorLock | inl 3%nat => outsideLock | inl _ => outputLock
      | inr (inl w) => indexLock w | inr (inr (k, i)) => clerkLock k i end)).
  by intros [].
Defined.

#[export] Instance cv_countable : Countable cv.
Proof.
  apply (inj_countable'
    (fun c => match c with
      | senatorCV => inl 0%nat | customerCV => inl 1%nat
      | lineCV k i => inr (0%nat, (k, i)) | bribeLineCV k i => inr (1%nat, (k, i))
      | senatorLineCV k i => inr (2%nat, (k, i)) | clerkCV k i => inr (3%nat, (k, i)) end)
    (fun x => match x with
      | inl 0%nat => senatorCV | inl _ => customerCV
      | inr (0%nat, (k, i)) => lineCV k i | inr (1%nat, (k, i)) => bribeLineCV k i
      | inr (2%nat, (k, i)) => senatorLineCV k i | inr (_, (k, i)) => clerkCV k i end)).
  by intros [].
Defined.

#[export] Instance actor_countable : Countable actor.
Proof.
  apply (inj_countable' (fun a => match a with TheManager => None | Person w n => Some (w, n) end)
    (fun x => match x with None => TheManager | Some (w, n) => Person w n end)).
  by intros [].
Defined.

(** ** Setup: the names

    A name, its length, and the number that the system call adds to it. *)

Definition clerk_name (k : kind) : string :=
  match k with App => "AppClerk" | Pic => "PicClerk" | Pass => "PassClerk" | Cash => "Cashier" end.
Definition clerk_length (k : kind) : Z := match k with App => 8 | Pic => 8 | Pass => 9 | Cash => 7 end.
Definition visitor_name (v : visitor) : string := match v with Customer => "Customer" | Senator => "Senator" end.
Definition short_name (w : who) : string :=
  match w with
  | Visitor Customer => "Cust" | Visitor Senator => "Sen" | Clerk App => "App" | Clerk Pic => "Pic" | Clerk Pass => "Pass" | Clerk Cash => "Cash"
  end.
Definition short_length (w : who) : Z := Z.of_nat (String.length (short_name w)).

Definition lock_name (l : lock) : string * Z * Z :=
  match l with
  | indexLock w => (short_name w +:+ "Lock", short_length w + 4, 0)
  | lineLock => ("LineLock", 8, 0)
  | moneyLock => ("MoneyLock", 9, 0)
  | senatorLock => ("SenatorLock", 11, 0)
  | outsideLock => ("OutsideLock", 11, 0)
  | outputLock => ("OutputLock", 10, 0)
  | clerkLock k i => (clerk_name k +:+ "Lock", clerk_length k + 4, i + 1)
  end.

Definition cv_name (c : cv) : string * Z * Z :=
  match c with
  | senatorCV => ("SenatorCV", 9, 0)
  | customerCV => ("CustomerCV", 10, 0)
  | lineCV k i => (clerk_name k +:+ "Line", clerk_length k + 4, i + 1)
  | bribeLineCV k i => (clerk_name k +:+ "BLine", clerk_length k + 5, i + 1)
  | senatorLineCV k i => (clerk_name k +:+ "SLine", clerk_length k + 5, i + 1)
  | clerkCV k i => (clerk_name k +:+ "CV", clerk_length k + 2, i + 1)
  end.

(** For the variables of cashiers and for most of the senator's, the length counts
    the zero at the end, too. *)
Definition one_more (k : kind) : Z := match k with Cash => 1 | _ => 0 end.

Definition mv_name (v : mvar) : string * Z * Z :=
  let of_clerk k (s : string) n := (clerk_name k +:+ s, clerk_length k + n + one_more k, 0) in
  match v with
  | indexOf w => (short_name w +:+ "Index", short_length w + 5, 0)
  | senatorFlag => ("SenatorFlag", 11, 0)
  | doneFlag => ("DoneFlag", 8, 0)
  | money Customer => ("CustomerMoney", 13, 0)
  | money Senator => ("SenatorMoney", 12, 0)
  | arrived v => (visitor_name v +:+ "Arrived", 15, 0)
  | outside v => (visitor_name v +:+ "Outside", 15, 0)
  | social v => (visitor_name v +:+ "Social", 14, 0)
  | picture v => (visitor_name v +:+ "Picture", 15, 0)
  | passport v => (visitor_name v +:+ "Passport", 16, 0)
  | paid v => (visitor_name v +:+ "Paid", 12, 0)
  | clerkMoney k => of_clerk k "Money" 5
  | lineCount k => of_clerk k "LineCount" 9
  | bLineCount k => of_clerk k "BLineCount" 10
  | toFile k => of_clerk k "ToFile" 6
  | senInLine k => of_clerk k "SenInLine" 9
  | state k => of_clerk k "State" 5
  | picLiked => ("PicClerkPicLiked", 16, 0)
  end.

Definition mv_size (v : mvar) : Z :=
  match v with
  | indexOf _ | senatorFlag | doneFlag => 1
  | money v | arrived v | outside v | social v | picture v | passport v | paid v => numVisitors v
  | clerkMoney k | lineCount k | bLineCount k | toFile k | senInLine k | state k => numClerks k
  | picLiked => NUM_PICCLERKS
  end.

(** ** State: the monitor variables

    What CreateMV, GetMV and SetMV of network/nettest.cc do with the arrays of the
    server, as the processes see it. [None]: nobody has made the variable yet. Values
    and positions are chars of the messages; out of range, the server answers -1 and
    sets nothing. ServerOffice.v, [get_on_server] and [set_on_server]: the messages of
    the system calls, handled by the server, do this. *)

Definition Variables : Type := mvar -> option (list Z).

Definition CreateMV (v : mvar) (s : Variables) : Variables :=
  fun w => if decide (w = v) then Some (default (replicate (Z.to_nat (mv_size v)) 0) (s v)) else s w.

Definition GetMV (v : mvar) (position : Z) (s : Variables) : Z :=
  match s v with
  | Some values => let p := i8 position in if 0 <=? p then default (-1) (values !! Z.to_nat p) else -1
  | None => -1
  end.

Definition SetMV (v : mvar) (position val : Z) (s : Variables) : Variables :=
  fun w => if decide (w = v) then
    (fun values => let p := i8 position in if 0 <=? p then <[Z.to_nat p := i8 val]> values else values) <$> s v
  else s w.

(** ** Programs *)

Notation prog := (itree (op Variables lock cv actor)).

Local Open Scope prog_scope.

Definition do_ {X} (f : Variables -> C (X * Variables)) : prog X := call (Do f).
Definition create v : prog unit := do_ (fun s => Ret (tt, CreateMV v s)).
Definition get v i : prog Z := do_ (fun s => Ret (GetMV v i s, s)).
Definition set v i x : prog unit := do_ (fun s => Ret (tt, SetMV v i x s)).
Definition pause : prog unit := return_ tt.
Definition Yields (n : nat) : prog unit := repeat_ n (call Yield).

(** [SetMV(v, i, GetMV(v, i) + n)] *)
Definition add v i n : prog unit := x ← get v i; set v i (x + n).

(** [GetMV(v, i) == n], and [a && b], [a || b] with code in them. *)
Definition equals v i n : prog bool := x ← get v i; return_ (x =? n).
Definition over v i n : prog bool := x ← get v i; return_ (n <? x).
Definition and_ (p q : prog bool) : prog bool := b ← p; if b : bool then q else return_ false.
Definition or_ (p q : prog bool) : prog bool := b ← p; if b : bool then return_ true else q.

(** Messages: [Acquire(outputLock); Print(...); ...; Release(outputLock)]. *)
Definition say : prog unit := call (Acquire outputLock);; call (Release outputLock).

(** [appClerkMutex[i]] and its siblings: the entry must exist. *)
Definition entry k i : prog unit := do_ (fun s => if (0 <=? i) && (i <? numClerks k) then Ret (tt, s) else Undef).

Definition all_kinds : list kind := [App; Pic; Pass; Cash].
Definition all_visitors : list visitor := [Customer; Senator].
Definition all_who : list who := (Visitor <$> all_visitors) ++ (Clerk <$> all_kinds).

(** What Setup asks the server for, in its order. *)
Inductive object := ALock (l : lock) | ACond (c : cv) | AVar (v : mvar).

Definition clerk_variables k : list mvar :=
  [clerkMoney k; lineCount k; bLineCount k; toFile k; senInLine k; state k] ++ match k with Pic => [picLiked] | _ => [] end.
Definition visitor_variables v : list mvar := [money v; arrived v; outside v; social v; picture v; passport v; paid v].
Definition clerk_objects k i : list object :=
  [ACond (lineCV k i); ACond (bribeLineCV k i); ACond (senatorLineCV k i); ACond (clerkCV k i); ALock (clerkLock k i)].

Definition Setup_objects : list object :=
  (all_who ≫= fun w => [ALock (indexLock w); AVar (indexOf w)]) ++
  [ALock lineLock; ALock moneyLock; ALock senatorLock; ALock outsideLock; ALock outputLock; ACond senatorCV; ACond customerCV;
   AVar senatorFlag; AVar doneFlag] ++
  (all_visitors ≫= fun v => AVar <$> visitor_variables v) ++
  (all_kinds ≫= fun k => (AVar <$> clerk_variables k) ++ (seqZ 0 (numClerks k) ≫= clerk_objects k)).

Definition all_variables : list mvar := omap (fun o => match o with AVar v => Some v | _ => None end) Setup_objects.

(** The locks and conditions are there from the start. *)
Definition Setup : prog unit := foldr (fun v p => create v;; p) pause all_variables.

(** The number of a process: [Acquire(custLock); id = GetMV(customerIndex, 0); ...]. *)
Definition draw w : prog Z :=
  call (Acquire (indexLock w));;
  id ← get (indexOf w) 0;
  set (indexOf w) 0 (id + 1);;
  call (Release (indexLock w));;
  return_ id.

(** *** Customers *)

Definition wait_outside id : prog unit :=
  call (Acquire outsideLock);;
  set (outside Customer) id 1;;
  call (Wait senatorCV outsideLock);;
  call (Release outsideLock).

Definition checkSenator id : prog unit :=
  came ← equals senatorFlag 0 1;
  if came : bool then say;; wait_outside id else pause.

(** The line chosen so far, its size, and whether to bribe. *)
Definition choice : Type := Z * Z * bool.

Definition choose_turn k id (i : Z) '((myLine, lineSize, hasBribed) : choice) : prog choice :=
  clerkState ← get (state k) i;
  lineLength ← get (lineCount k) i;
  let '(myLine, lineSize, hasBribed) :=
    if (clerkState =? 0) && (lineLength <? lineSize) then (i, lineLength, false)
    else if (clerkState =? 1) && (lineLength + 1 <? lineSize) then (i, lineLength + 1, false)
    else if lineLength + 2 <? lineSize then (i, lineLength + 2, false)
    else (myLine, lineSize, hasBribed) in
  bribe ← and_ (return_ (negb (clerkState =? 2)))
            (and_ (m ← get (money Customer) id; return_ (50 <=? m))
                  (n ← get (bLineCount k) i; return_ (n <? lineSize)));
  if bribe : bool then n ← get (bLineCount k) i; return_ (i, n, true)
  else return_ (myLine, lineSize, hasBribed).

Definition shortest_turn k (i : Z) '((myLine, lineSize) : Z * Z) : prog (Z * Z) :=
  n ← get (lineCount k) i;
  if n <? lineSize then n ← get (lineCount k) i; return_ (i, n) else return_ (myLine, lineSize).

Definition choose_line k id : prog (Z * bool) :=
  c ← for_each 0 (Z.to_nat (numClerks k)) (choose_turn k id) (-1, NUM_CUSTOMERS + 1, false);
  let '(myLine, lineSize, hasBribed) := c in
  if myLine =? -1 then
    l ← for_each 0 (Z.to_nat (numClerks k)) (shortest_turn k) (myLine, lineSize);
    return_ (l.1, hasBribed)
  else return_ (myLine, hasBribed).

(** Called to the counter: with a senator in the office the customer goes outside,
    and chooses again. *)
Definition come_up id myLine : prog (unit + Z) :=
  came ← equals senatorFlag 0 1;
  if came : bool then
    say;;
    call (Release lineLock);;
    wait_outside id;;
    return_ (inl tt)
  else return_ (inr myLine).

(** Where the bribe for clerk [myLine] is booked: goToCashier uses the number of the
    customer. *)
Definition bribed_clerk k id (myLine : Z) : Z := match k with Cash => id | _ => myLine end.

(** The while loop of the four goTo functions: the line where it ends. *)
Definition stand_in_line k id : prog Z :=
  loop (fun _ : unit =>
    call (Acquire lineLock);;
    c ← choose_line k id;
    let '(myLine, hasBribed) := c in
    if hasBribed : bool then
      add (money Customer) id (-50);;
      call (Acquire moneyLock);;
      add (clerkMoney k) (bribed_clerk k id myLine) 50;;
      call (Release moneyLock);;
      add (bLineCount k) myLine 1;;
      say;;
      entry k myLine;;
      call (Wait (bribeLineCV k myLine) lineLock);;
      add (bLineCount k) myLine (-1);;
      come_up id myLine
    else
      add (lineCount k) myLine 1;;
      say;;
      entry k myLine;;
      call (Wait (lineCV k myLine) lineLock);;
      add (lineCount k) myLine (-1);;
      come_up id myLine) tt.

(** Now with the clerk. *)
Definition meet k i id : prog unit :=
  call (Acquire (clerkLock k i));;
  call (Release lineLock);;
  set (toFile k) i id;;
  say.

Definition signal_clerk k i : prog unit := call (Signal (clerkCV k i) (clerkLock k i)).
Definition wait_clerk k i : prog unit := call (Wait (clerkCV k i) (clerkLock k i)).

(** With an application clerk or a passport clerk. *)
Definition hand_over k i id : prog unit :=
  meet k i id;;
  signal_clerk k i;;
  wait_clerk k i;;
  signal_clerk k i;;
  call (Release (clerkLock k i)).

(** With a picture clerk; the call of Rand is in a comment. *)
Definition pose i id : prog unit :=
  meet Pic i id;;
  loop (fun _ : unit =>
    signal_clerk Pic i;;
    wait_clerk Pic i;;
    let random := 1 in
    (if random =? 0 then say else say;; set picLiked i 1);;
    signal_clerk Pic i;;
    wait_clerk Pic i;;
    return_ (if random =? 0 then inl tt else inr tt)) tt;;
  call (Release (clerkLock Pic i)).

(** With a cashier. *)
Definition pay v i id : prog unit :=
  meet Cash i id;;
  signal_clerk Cash i;;
  say;;
  add (money v) id (-10);;
  wait_clerk Cash i;;
  signal_clerk Cash i;;
  call (Release (clerkLock Cash i)).

Definition goToAppClerk id : prog unit := i ← stand_in_line App id; hand_over App i id.
Definition goToPicClerk id : prog unit := i ← stand_in_line Pic id; pose i id.
Definition goToPassClerk id : prog unit := i ← stand_in_line Pass id; hand_over Pass i id.
Definition goToCashier id : prog unit := i ← stand_in_line Cash id; pay Customer i id.

Definition customer_main : prog unit :=
  Setup;;
  id ← draw (Visitor Customer);
  checkSenator id;;
  set (arrived Customer) id 1;;
  set (money Customer) id 60;;
  goToAppClerk id;;
  checkSenator id;;
  goToPicClerk id;;
  checkSenator id;;
  goToPassClerk id;;
  checkSenator id;;
  goToCashier id;;
  say.

(** *** Senators *)

Definition senator_line k : prog unit :=
  call (Acquire lineLock);;
  set (senInLine k) 0 1;;
  say;;
  call (Wait (senatorLineCV k 0) lineLock);;
  set (senInLine k) 0 0.

Definition senGoToApp id : prog unit := senator_line App;; hand_over App 0 id.
Definition senGoToPic id : prog unit := senator_line Pic;; pose 0 id.
Definition senGoToPass id : prog unit := senator_line Pass;; hand_over Pass 0 id.
Definition senGoToCashier id : prog unit := senator_line Cash;; pay Senator 0 id.

Definition senator_main : prog unit :=
  Setup;;
  id ← draw (Visitor Senator);
  call (Acquire senatorLock);;
  set senatorFlag 0 1;;
  call (Acquire outsideLock);;
  say;;
  call (Wait customerCV outsideLock);;
  set (arrived Senator) id 1;;
  call (Release outsideLock);;
  senGoToApp id;;
  senGoToPic id;;
  senGoToPass id;;
  senGoToCashier id;;
  call (Acquire outsideLock);;
  call (Broadcast senatorCV outsideLock);;
  call (Release outsideLock);;
  set senatorFlag 0 0;;
  call (Release senatorLock);;
  say.

(** *** Clerks *)

Definition ready k i : prog unit :=
  set (state k) i 1;;
  call (Acquire (clerkLock k i));;
  call (Release lineLock);;
  wait_clerk k i.

Definition appClerkInteract i (v : visitor) : prog unit :=
  ready App i;;
  custID ← get (toFile App) i;
  say;;
  Yields 20;;
  set (social v) custID 1;;
  say;;
  signal_clerk App i;;
  wait_clerk App i;;
  call (Release (clerkLock App i));;
  set (state App) i 0.

Definition picClerkInteract i (v : visitor) : prog unit :=
  ready Pic i;;
  custID ← get (toFile Pic) i;
  loop (fun _ : unit =>
    again ← equals picLiked i 0;
    if again : bool then
      say;;
      Yields 20;;
      say;;
      signal_clerk Pic i;;
      wait_clerk Pic i;;
      _ ← get picLiked i;
      say;;
      signal_clerk Pic i;;
      return_ (inl tt)
    else return_ (inr tt)) tt;;
  set (picture v) custID 1;;
  set picLiked i 0;;
  call (Release (clerkLock Pic i));;
  set (state Pic) i 0.

Definition passClerkInteract i (v : visitor) : prog unit :=
  ready Pass i;;
  custID ← get (toFile Pass) i;
  say;;
  Yields 20;;
  set (passport v) custID 1;;
  say;;
  signal_clerk Pass i;;
  say;;
  wait_clerk Pass i;;
  call (Release (clerkLock Pass i));;
  set (state Pass) i 0.

Definition cashierInteract i (v : visitor) : prog unit :=
  ready Cash i;;
  custID ← get (toFile Cash) i;
  say;;
  say;;
  Yields 20;;
  say;;
  set (paid v) custID 1;;
  call (Acquire moneyLock);;
  add (clerkMoney Cash) i 10;;
  call (Release moneyLock);;
  signal_clerk Cash i;;
  say;;
  wait_clerk Cash i;;
  call (Release (clerkLock Cash i));;
  set (state Cash) i 0.

Definition interact k : Z -> visitor -> prog unit :=
  match k with App => appClerkInteract | Pic => picClerkInteract | Pass => passClerkInteract | Cash => cashierInteract end.

Definition go_on_break k i : prog unit :=
  set (state k) i 2;;
  call (Release lineLock);;
  entry k i;;
  call (Acquire (clerkLock k i));;
  say;;
  wait_clerk k i;;
  say;;
  set (state k) i 0;;
  call (Release (clerkLock k i)).

(** One turn of the while loop of the four Run functions. *)
Definition clerk_turn k i : prog unit :=
  call (Acquire lineLock);;
  came ← equals senatorFlag 0 1;
  if came : bool then
    (line ← over (lineCount k) i 0; if line : bool then entry k i;; call (Broadcast (lineCV k i) lineLock) else pause);;
    (bribes ← over (bLineCount k) i 0; if bribes : bool then entry k i;; call (Broadcast (bribeLineCV k i) lineLock) else pause);;
    inLine ← equals (senInLine k) i 1;
    if inLine : bool then
      entry k i;;
      call (Signal (senatorLineCV k i) lineLock);;
      say;;
      interact k i Senator
    else go_on_break k i
  else
    bribes ← over (bLineCount k) i 0;
    if bribes : bool then
      entry k i;;
      call (Signal (bribeLineCV k i) lineLock);;
      say;;
      interact k i Customer
    else
      line ← over (lineCount k) i 0;
      if line : bool then
        entry k i;;
        call (Signal (lineCV k i) lineLock);;
        say;;
        interact k i Customer
      else go_on_break k i.

Definition clerkRun k i : prog unit :=
  loop (fun _ : unit =>
    open ← equals doneFlag 0 0;
    if open : bool then clerk_turn k i;; return_ (inl tt) else return_ (inr tt)) tt.

Definition appClerkRun : Z -> prog unit := clerkRun App.
Definition picClerkRun : Z -> prog unit := clerkRun Pic.
Definition passClerkRun : Z -> prog unit := clerkRun Pass.
Definition cashierRun : Z -> prog unit := clerkRun Cash.

Definition clerk_main k : prog unit :=
  Setup;;
  id ← draw (Clerk k);
  match k with App => appClerkRun id | Pic => picClerkRun id | Pass => passClerkRun id | Cash => cashierRun id end.

(** *** The manager *)

Definition signal_once k i : prog unit :=
  call (Acquire (clerkLock k i));;
  signal_clerk k i;;
  call (Release (clerkLock k i)).

Definition wake k i : prog unit :=
  call (Acquire (clerkLock k i));;
  say;;
  signal_clerk k i;;
  call (Release (clerkLock k i)).

Definition must_wake k i : prog bool :=
  and_ (equals (state k) i 2)
    (or_ (over (lineCount k) i 2) (or_ (equals (senInLine k) i 1) (and_ (over (lineCount k) i 0) (equals senatorFlag 0 1)))).

Definition each_clerk k {X} (p : Z -> X -> prog X) (x : X) : prog X := for_each 0 (Z.to_nat (numClerks k)) p x.

Definition check_lines k (customersGone : bool) : prog bool :=
  each_clerk k (fun i gone =>
    w ← must_wake k i;
    (if w : bool then wake k i else pause);;
    busy ← equals (state k) i 1;
    return_ (if busy : bool then false else gone)) customersGone.

Definition ManagerCheckLines : prog unit :=
  gone ← check_lines App true;
  gone ← check_lines Pic gone;
  gone ← check_lines Pass gone;
  gone ← check_lines Cash gone;
  gone ← for_each 0 (Z.to_nat NUM_CUSTOMERS) (fun i gone =>
    inside ← and_ (equals (arrived Customer) i 1) (equals (outside Customer) i 0);
    return_ (if inside : bool then false else gone)) gone;
  tell ← and_ (return_ gone) (equals senatorFlag 0 1);
  if tell : bool then
    call (Acquire outsideLock);;
    call (Signal customerCV outsideLock);;
    call (Release outsideLock)
  else pause.

Definition count_kind k (total : Z) : prog Z :=
  each_clerk k (fun i total => n ← get (clerkMoney k) i; set (clerkMoney k) i 0;; return_ (total + n)) total.

Definition totals : Type := Z * Z * Z * Z.

Definition ManagerCountMoney (t : totals) : prog totals :=
  let '(appMoney, picMoney, passMoney, cashMoney) := t in
  call (Acquire moneyLock);;
  appMoney ← count_kind App appMoney;
  say;;
  picMoney ← count_kind Pic picMoney;
  say;;
  passMoney ← count_kind Pass passMoney;
  say;;
  cashMoney ← count_kind Cash cashMoney;
  say;;
  say;;
  call (Release moneyLock);;
  return_ (appMoney, picMoney, passMoney, cashMoney).

(** One of the first two loops of ManagerCheckClose, from [i] on: [doneFlag] and
    [allHereFlag]. *)
Fixpoint check_people v (n : nat) (i : Z) (flags : bool * bool) : prog (bool * bool) :=
  match n with
  | O => return_ flags
  | S n =>
      away ← equals (arrived v) i 0;
      if away : bool then return_ (false, false)
      else
        missing ← or_ (equals (social v) i 0) (or_ (equals (picture v) i 0) (or_ (equals (passport v) i 0) (equals (paid v) i 0)));
        if missing : bool then return_ (false, flags.2) else check_people v n (i + 1) flags
  end.

(** Whether the clerks of a kind from [i] on are on break, with breakFlag before. *)
Fixpoint check_break k (n : nat) (i : Z) (breakFlag : bool) : prog bool :=
  match n with
  | O => return_ breakFlag
  | S n => on_break ← equals (state k) i 2; if on_break : bool then check_break k n (i + 1) breakFlag else return_ false
  end.

Definition wake_waiting k : prog unit :=
  each_clerk k (fun i _ => line ← over (lineCount k) i 0; if line : bool then wake k i else pause) tt.

Definition ManagerCheckClose : prog bool :=
  flags ← check_people Senator (Z.to_nat NUM_SENATORS) 0 (true, true);
  flags ← check_people Customer (Z.to_nat NUM_CUSTOMERS) 0 flags;
  let '(isDone, allHere) := flags in
  if isDone : bool then return_ true
  else if allHere : bool then
    b ← check_break App (Z.to_nat NUM_APPCLERKS) 0 true;
    b ← check_break Pic (Z.to_nat NUM_PICCLERKS) 0 b;
    b ← check_break Pass (Z.to_nat NUM_PASSCLERKS) 0 b;
    b ← check_break Cash (Z.to_nat NUM_CASHIERS) 0 b;
    (if b : bool then wake_waiting App;; wake_waiting Pic;; wake_waiting Pass;; wake_waiting Cash else pause);;
    return_ false
  else return_ false.

Definition dismiss k : prog unit := each_clerk k (fun i _ => signal_once k i) tt.

Definition manager_main : prog unit :=
  Setup;;
  loop (fun t : totals =>
    repeat_ 60 (ManagerCheckLines;; Yields 70);;
    t ← ManagerCountMoney t;
    close ← ManagerCheckClose;
    if close : bool then
      set doneFlag 0 1;;
      dismiss App;; dismiss Pic;; dismiss Pass;; dismiss Cash;;
      return_ (inr tt)
    else return_ (inl t)) (0, 0, 0, 0).

(** ** The office

    What the processes run, and the start with any set of them; Exit ends a program. *)

Definition program (a : actor) : prog unit :=
  match a with
  | TheManager => manager_main
  | Person (Visitor Customer) _ => customer_main
  | Person (Visitor Senator) _ => senator_main
  | Person (Clerk k) _ => clerk_main k
  end.

Definition start (people : list actor) : World (St:=Variables) (L:=lock) (V:=cv) (A:=actor) :=
  mkWorld (fun _ => None) ∅ ∅ (list_to_map ((fun a => (a, program a)) <$> people)).
