(* ===== verification/RemoteFacts.v ===== *)
(** * Theorems on the passport office of many machines

    The order of the locks that the processes of RemoteOffice.v keep to, checked
    program by program with the logic of ThreadProg.v; from it, that no set of
    processes deadlocks on the locks. *)

From S2P Require Import Prelude ThreadProg RemoteOffice.

Local Open Scope prog_scope.

(** ** The rules *)

Definition rank (l : lock) : nat :=
  match l with
  | senatorLock => 0 | indexLock _ => 1 | outsideLock => 2 | lineLock => 3
  | clerkLock _ _ => 4 | moneyLock => 5 | outputLock => 6
  end.

(** The locks and conditions that Setup makes. *)
Definition valid (l : lock) : Prop := match l with clerkLock k i => 0 <= i < numClerks k | _ => True end.
Definition valid_cond (c : cv) : Prop :=
  match c with
  | senatorCV | customerCV => True
  | lineCV k i | bribeLineCV k i | senatorLineCV k i | clerkCV k i => 0 <= i < numClerks k
  end.

(** The lock with which a condition is used; for one that does not exist, a lock
    that does not exist either. *)
Definition lock_of (c : cv) : lock :=
  match c with
  | senatorCV | customerCV => outsideLock
  | lineCV k i | bribeLineCV k i | senatorLineCV k i => if bool_decide (0 <= i < numClerks k) then lineLock else clerkLock k i
  | clerkCV k i => clerkLock k i
  end.

Lemma lock_of_valid c : valid (lock_of c) -> valid_cond c.
Proof. destruct c; cbn; try case_bool_decide; done. Qed.

Implicit Types (a : actor) (H : list lock) (l : lock).

Definition office_rules : Rules Variables lock cv actor := {|
  Inv O _ := forall l a, O !! l = Some a -> valid l;
  acquires a H l := valid l /\ Forall (fun h => (rank h < rank l)%nat) H /\ (a = TheManager -> (0 < rank l)%nat);
  sleeps a H _ := Forall (fun h => rank h = O) H /\ a <> TheManager;
  cv_lock := lock_of
|}.

(** A process ends with no lock. *)
Definition office_done a H (_ : unit) : Prop := H = [].

Notation WP := (WP office_rules).

Lemma may_take_keeps a H l : valid l -> may_take office_rules a H l.
Proof. intros Hv O s Hi _ _ l' b. destruct (decide (l' = l)) as [->|]; [done|]. rewrite lookup_insert_ne by done. apply Hi. Qed.

Lemma may_free_keeps a H l : may_free office_rules a H l.
Proof. intros O s Hi _ l' b [_ Hl]%lookup_delete_Some. by eapply Hi. Qed.

Lemma WP_block a H {X} (f : Variables -> C (X * Variables)) Φ : (forall x, Φ H x) -> WP a H (do_ f) Φ.
Proof. intros Hp. apply WP_call. by intros O o x o' Hi Hh Hr. Qed.

(** A clerk's entry: the number is in range. *)
Lemma WP_entry a H k i Φ : (0 <= i < numClerks k -> Φ H tt) -> WP a H (entry k i) Φ.
Proof.
  intros Hp. apply WP_call. intros O o [] o' Hi Hh Hr. destruct (_ && _) eqn:E; [|done]. injection Hr as <-. split; [done|].
  apply andb_true_iff in E as [?%Z.leb_le ?%Z.ltb_lt]. by apply Hp.
Qed.

Ltac prove_valid := cbn [valid]; first [done | lia].
Ltac prove_order := split; [prove_valid | split; [repeat constructor; cbn; lia | first [done | by intros ->| cbn; lia]]].
Ltac prove_asleep := split; [repeat constructor; cbn; lia | done].
Ltac prove_bound := cbn -[numClerks]; rewrite ?bool_decide_true by lia; done.
Ltac prove_free := apply may_free_keeps.
Ltac prove_take := apply may_take_keeps; prove_valid.
Ltac prove_block := first [apply WP_entry; intros ? | apply WP_block; intros ?].

Ltac wp := wp_with ltac:(first [prove_order | prove_asleep]) prove_bound prove_free prove_take prove_block.

(** Blocks of system calls on variables. *)
Lemma and_keeps a H p q : WP a H p (fun H' _ => H' = H) -> WP a H q (fun H' _ => H' = H) -> WP a H (and_ p q) (fun H' _ => H' = H).
Proof. intros Hp Hq. eapply WP_then; [exact Hp|]. intros ? [] ->; [done | by apply WP_return]. Qed.

Lemma or_keeps a H p q : WP a H p (fun H' _ => H' = H) -> WP a H q (fun H' _ => H' = H) -> WP a H (or_ p q) (fun H' _ => H' = H).
Proof. intros Hp Hq. eapply WP_then; [exact Hp|]. intros ? [] ->; [by apply WP_return | done]. Qed.

(** A test: one or more variables are read. *)
Ltac test := repeat first [apply and_keeps | apply or_keeps]; unfold equals, over, get; by wp.

(** A block without a branch, and what ends with one test. *)
Ltac steps := unfold say, add, set, get, create, signal_clerk, wait_clerk, pause; wp.

(** [x ← test; if x then p else q] *)
Lemma if_test_keeps a H {X} (t : prog bool) (p q : prog X) Φ : WP a H t (fun H' _ => H' = H) -> WP a H p Φ -> WP a H q Φ ->
  WP a H (x ← t; if x : bool then p else q) Φ.
Proof. intros Ht Hp Hq. eapply WP_then; [exact Ht|]. intros ? x ->. by apply WP_if. Qed.

(** ** The programs *)

Lemma Setup_keeps a : WP a [] Setup (fun H' _ => H' = []).
Proof. unfold Setup. induction all_variables as [|v vs IH]; cbn [foldr]; [by apply WP_return|]. by apply then_ok; [steps|]. Qed.

Lemma draw_keeps a w : a <> TheManager -> WP a [] (draw w) (fun H' _ => H' = []).
Proof. intros Ha. unfold draw. by steps. Qed.

(** The locks of those who come to a counter: a senator also has the outer one. *)
Definition outer H : Prop := H = [] \/ H = [senatorLock].

Section Guests.
Variables (a : actor) (H : list lock).
Context (Ga : a <> TheManager) (Ho : outer H).

Lemma meet_keeps k i id : 0 <= i < numClerks k -> WP a (lineLock :: H) (meet k i id) (fun H' _ => H' = clerkLock k i :: H).
Proof using Ga Ho. intros Hi. destruct Ho as [->| ->]; unfold meet; by steps. Qed.

Lemma hand_over_keeps k i id : 0 <= i < numClerks k -> WP a (lineLock :: H) (hand_over k i id) (fun H' _ => H' = H).
Proof using Ga Ho. intros Hi. eapply WP_then; [by apply meet_keeps|]. intros ? _ ->. destruct Ho as [->| ->]; by steps. Qed.

Lemma pose_keeps i id : 0 <= i < numClerks Pic -> WP a (lineLock :: H) (pose i id) (fun H' _ => H' = H).
Proof using Ga Ho.
  intros Hi. eapply WP_then; [by apply meet_keeps|]. intros ? _ ->. apply (WP_then _ _ _ _ _ _ (fun H' _ => H' = clerkLock Pic i :: H)).
  - apply WP_while. intros _. destruct Ho as [->| ->]; by steps.
  - intros ? _ ->. destruct Ho as [->| ->]; by steps.
Qed.

Lemma pay_keeps v i id : 0 <= i < numClerks Cash -> WP a (lineLock :: H) (pay v i id) (fun H' _ => H' = H).
Proof using Ga Ho. intros Hi. eapply WP_then; [by apply meet_keeps|]. intros ? _ ->. destruct Ho as [->| ->]; by steps. Qed.
End Guests.

(** The next part of a program: it leaves with the locks [Hn]. *)
Ltac then_holds Hn := apply (WP_then _ _ _ _ _ _ (fun H' _ => H' = Hn)); [by steps|]; intros ? _ ->.

(** *** Customers *)

Section Customers.
Variables (n : nat) (id : Z).
Notation me := (Person (Visitor Customer) n).

Lemma checkSenator_keeps : WP me [] (checkSenator id) (fun H' _ => H' = []).
Proof. apply if_test_keeps; [test | by steps..]. Qed.

Lemma choose_turn_keeps k i c : WP me [lineLock] (choose_turn k id i c) (fun H' _ => H' = [lineLock]).
Proof.
  destruct c as [[myLine lineSize] b]. unfold choose_turn. steps. generalize (if (x =? 0) && (x0 <? lineSize) then (i, x0, false) else if (x =? 1) && (x0 + 1 <? lineSize) then (i, x0 + 1, false)
    else if x0 + 2 <? lineSize then (i, x0 + 2, false) else (myLine, lineSize, b)). intros [[line size] bribed].
  apply if_test_keeps; [|by steps..]. apply and_keeps; [by wp | apply and_keeps; by steps].
Qed.

Lemma choose_line_keeps k : WP me [lineLock] (choose_line k id) (fun H' _ => H' = [lineLock]).
Proof.
  unfold choose_line. eapply WP_then; [apply WP_each; intros j c _; apply choose_turn_keeps|]. intros ? [[line size] b] ->.
  apply WP_if; [|by wp]. eapply WP_then; [apply WP_each|]; [|intros ? [? ?] ->; by wp].
  intros j [? ?] _. unfold shortest_turn. steps. apply WP_if; by wp.
Qed.

(** A customer leaves the loop with the line lock, at the counter of a clerk. *)
Lemma stand_in_line_keeps k : WP me [] (stand_in_line k id) (fun H' i => H' = [lineLock] /\ 0 <= i < numClerks k).
Proof.
  apply WP_while. intros _. then_holds [lineLock].
  eapply WP_then; [apply choose_line_keeps|]. intros ? [i b] ->. cbn beta match.
  apply WP_if; (steps; apply WP_if; by steps).
Qed.

Lemma goTo_keeps k (p : Z -> prog unit) : (forall i, 0 <= i < numClerks k -> WP me [lineLock] (p i) (fun H' _ => H' = [])) ->
  WP me [] (i ← stand_in_line k id; p i) (fun H' _ => H' = []).
Proof. intros Hp. eapply WP_then; [apply stand_in_line_keeps|]. intros ? i [-> Hi]. by apply Hp. Qed.

Lemma goToAppClerk_keeps : WP me [] (goToAppClerk id) (fun H' _ => H' = []).
Proof. apply (goTo_keeps App (fun i => hand_over App i id)). intros i Hi. apply hand_over_keeps; [done | by left | done]. Qed.

Lemma goToPicClerk_keeps : WP me [] (goToPicClerk id) (fun H' _ => H' = []).
Proof. apply (goTo_keeps Pic (fun i => pose i id)). intros i Hi. apply pose_keeps; [done | by left | done]. Qed.

Lemma goToPassClerk_keeps : WP me [] (goToPassClerk id) (fun H' _ => H' = []).
Proof. apply (goTo_keeps Pass (fun i => hand_over Pass i id)). intros i Hi. apply hand_over_keeps; [done | by left | done]. Qed.

Lemma goToCashier_keeps : WP me [] (goToCashier id) (fun H' _ => H' = []).
Proof. apply (goTo_keeps Cash (fun i => pay Customer i id)). intros i Hi. apply pay_keeps; [done | by left | done]. Qed.

End Customers.

Lemma customer_main_keeps n : WP (Person (Visitor Customer) n) [] customer_main (office_done (Person (Visitor Customer) n)).
Proof.
  unfold customer_main. apply then_ok; [apply Setup_keeps|]. eapply WP_then; [by apply draw_keeps|]. intros ? id ->.
  apply then_ok; [apply checkSenator_keeps|]. apply then_ok; [by steps|]. apply then_ok; [by steps|].
  repeat (apply then_ok; [by first [apply goToAppClerk_keeps | apply goToPicClerk_keeps | apply goToPassClerk_keeps | apply goToCashier_keeps | apply checkSenator_keeps]|]).
  by steps.
Qed.

(** *** Senators *)

Section Senators.
Variables (n : nat) (id : Z).
Notation me := (Person (Visitor Senator) n).

(** There is a clerk 0. *)
Lemma first_clerk k : 0 <= 0 < numClerks k.
Proof. by destruct k. Qed.

Lemma to_counter_keeps k (p : prog unit) : WP me [lineLock; senatorLock] p (fun H' _ => H' = [senatorLock]) ->
  WP me [senatorLock] (senator_line k;; p) (fun H' _ => H' = [senatorLock]).
Proof. intros Hp. pose proof (first_clerk k). apply WP_bind. unfold senator_line. steps. exact Hp. Qed.

Lemma senGoToApp_keeps : WP me [senatorLock] (senGoToApp id) (fun H' _ => H' = [senatorLock]).
Proof. apply to_counter_keeps, hand_over_keeps; [done | by right | apply first_clerk]. Qed.

Lemma senGoToPic_keeps : WP me [senatorLock] (senGoToPic id) (fun H' _ => H' = [senatorLock]).
Proof. apply to_counter_keeps, pose_keeps; [done | by right | apply first_clerk]. Qed.

Lemma senGoToPass_keeps : WP me [senatorLock] (senGoToPass id) (fun H' _ => H' = [senatorLock]).
Proof. apply to_counter_keeps, hand_over_keeps; [done | by right | apply first_clerk]. Qed.

Lemma senGoToCashier_keeps : WP me [senatorLock] (senGoToCashier id) (fun H' _ => H' = [senatorLock]).
Proof. apply to_counter_keeps, pay_keeps; [done | by right | apply first_clerk]. Qed.
End Senators.

Lemma senator_main_keeps n : WP (Person (Visitor Senator) n) [] senator_main (office_done (Person (Visitor Senator) n)).
Proof.
  unfold senator_main. apply then_ok; [apply Setup_keeps|]. eapply WP_then; [by apply draw_keeps|]. intros ? id ->.
  then_holds [senatorLock]. then_holds [senatorLock]. do 4 then_holds [outsideLock; senatorLock]. then_holds [senatorLock].
  apply then_ok; [apply senGoToApp_keeps|]. apply then_ok; [apply senGoToPic_keeps|]. apply then_ok; [apply senGoToPass_keeps|].
  apply then_ok; [apply senGoToCashier_keeps | by steps].
Qed.

(** *** Clerks *)

Section Clerks.
Variables (k : kind) (n : nat).
Notation me := (Person (Clerk k) n).

Lemma ready_keeps i : 0 <= i < numClerks k -> WP me [lineLock] (ready k i) (fun H' _ => H' = [clerkLock k i]).
Proof. intros Hi. unfold ready. by steps. Qed.

Lemma go_on_break_keeps i : WP me [lineLock] (go_on_break k i) (fun H' _ => H' = []).
Proof. unfold go_on_break. by steps. Qed.
End Clerks.

Lemma appClerkInteract_keeps n i v : 0 <= i < numClerks App -> WP (Person (Clerk App) n) [lineLock] (appClerkInteract i v) (fun H' _ => H' = []).
Proof. intros Hi. eapply WP_then; [by apply ready_keeps|]. intros ? _ ->. by steps. Qed.

Lemma picClerkInteract_keeps n i v : 0 <= i < numClerks Pic -> WP (Person (Clerk Pic) n) [lineLock] (picClerkInteract i v) (fun H' _ => H' = []).
Proof.
  intros Hi. eapply WP_then; [by apply ready_keeps|]. intros ? _ ->. apply WP_bind. apply WP_block. intros custID. apply then_ok; [|by steps].
  apply WP_while. intros _. apply if_test_keeps; [test | by steps | by steps].
Qed.

Lemma passClerkInteract_keeps n i v : 0 <= i < numClerks Pass -> WP (Person (Clerk Pass) n) [lineLock] (passClerkInteract i v) (fun H' _ => H' = []).
Proof. intros Hi. eapply WP_then; [by apply ready_keeps|]. intros ? _ ->. by steps. Qed.

Lemma cashierInteract_keeps n i v : 0 <= i < numClerks Cash -> WP (Person (Clerk Cash) n) [lineLock] (cashierInteract i v) (fun H' _ => H' = []).
Proof. intros Hi. eapply WP_then; [by apply ready_keeps|]. intros ? _ ->. by steps. Qed.

Section Turns.
Variables (k : kind) (n : nat).
Notation me := (Person (Clerk k) n).

Lemma interact_keeps i v : 0 <= i < numClerks k -> WP me [lineLock] (interact k i v) (fun H' _ => H' = []).
Proof.
  destruct k; [apply appClerkInteract_keeps | apply picClerkInteract_keeps | apply passClerkInteract_keeps | apply cashierInteract_keeps].
Qed.

(** Somebody is called to the counter. *)
Lemma called_keeps i c v : (0 <= i < numClerks k -> lock_of c = lineLock) ->
  WP me [lineLock] (entry k i;; call (Signal c lineLock);; say;; interact k i v) (fun H' _ => H' = []).
Proof.
  intros Hc. eapply (WP_then _ _ _ _ _ _ (fun H' _ => H' = [lineLock] /\ 0 <= i < numClerks k)); [by apply WP_entry|]. intros ? _ [-> Hi].
  apply then_ok; [apply WP_signal; [is_in | change (lineLock = lock_of c); by rewrite Hc | done]|]. apply then_ok; [by steps | by apply interact_keeps].
Qed.

Lemma line_locks i : 0 <= i < numClerks k ->
  lock_of (lineCV k i) = lineLock /\ lock_of (bribeLineCV k i) = lineLock /\ lock_of (senatorLineCV k i) = lineLock.
Proof. intros Hi. cbn -[numClerks]. by rewrite bool_decide_true. Qed.

Lemma clerk_turn_keeps i : WP me [] (clerk_turn k i) (fun H' _ => H' = []).
Proof.
  pose proof (line_locks i) as Hl. unfold clerk_turn. then_holds [lineLock]. apply if_test_keeps; [test | |].
  - do 2 (apply then_ok; [apply if_test_keeps; [test | by steps..]|]).
    apply if_test_keeps; [test | apply called_keeps; naive_solver | apply go_on_break_keeps].
  - apply if_test_keeps; [test | apply called_keeps; naive_solver |]. apply if_test_keeps; [test | apply called_keeps; naive_solver | apply go_on_break_keeps].
Qed.

Lemma clerkRun_keeps i : WP me [] (clerkRun k i) (office_done me).
Proof.
  apply WP_while. intros _. apply if_test_keeps; [test | apply then_ok; [apply clerk_turn_keeps | by steps] | by steps].
Qed.

Lemma clerk_main_keeps : WP me [] (clerk_main k) (office_done me).
Proof.
  apply then_ok; [apply Setup_keeps|]. eapply WP_then; [by apply draw_keeps|]. intros ? id ->.
  pose proof (clerkRun_keeps id) as Hr. by destruct k.
Qed.
End Turns.

(** *** The manager *)

Notation boss := TheManager.

Lemma wake_keeps k i : 0 <= i < numClerks k -> WP boss [] (wake k i) (fun H' _ => H' = []).
Proof. intros Hi. unfold wake. by steps. Qed.

(** The loops over the clerks. *)
Lemma each_clerk_keeps k {X} H (p : Z -> X -> prog X) x : (forall i x, 0 <= i < numClerks k -> WP boss H (p i x) (fun H' _ => H' = H)) ->
  WP boss H (each_clerk k p x) (fun H' _ => H' = H).
Proof. intros Hp. apply WP_each. intros j y Hj. apply Hp. lia. Qed.

Lemma must_wake_keeps k i : WP boss [] (must_wake k i) (fun H' _ => H' = []).
Proof. unfold must_wake. test. Qed.

Lemma check_lines_keeps k b : WP boss [] (check_lines k b) (fun H' _ => H' = []).
Proof.
  apply each_clerk_keeps. intros j y Hj. eapply WP_then; [apply must_wake_keeps|]. intros ? w ->.
  apply then_ok; [apply WP_if; [by apply wake_keeps | by steps]|]. by steps.
Qed.

Lemma ManagerCheckLines_keeps : WP boss [] ManagerCheckLines (fun H' _ => H' = []).
Proof.
  unfold ManagerCheckLines. do 4 (eapply WP_then; [apply check_lines_keeps|]; intros ? ? ->).
  eapply WP_then; [apply WP_each; intros j y _; eapply WP_then; [test|]; intros ? ? ->; by wp|]. intros ? gone ->.
  apply if_test_keeps; [apply and_keeps; [by wp | test] | by steps | by steps].
Qed.

Lemma count_kind_keeps k t : WP boss [moneyLock] (count_kind k t) (fun H' _ => H' = [moneyLock]).
Proof. apply each_clerk_keeps. intros j y _. by steps. Qed.

Lemma ManagerCountMoney_keeps t : WP boss [] (ManagerCountMoney t) (fun H' _ => H' = []).
Proof.
  destruct t as [[[? ?] ?] ?]. unfold ManagerCountMoney. then_holds [moneyLock].
  do 4 (eapply WP_then; [apply count_kind_keeps|]; intros ? ? ->; apply then_ok; [by steps|]). by steps.
Qed.

Lemma check_people_keeps v n i flags : WP boss [] (check_people v n i flags) (fun H' _ => H' = []).
Proof.
  revert i flags. induction n as [|n IH]; intros i flags; [by apply WP_return|].
  apply if_test_keeps; [test | by wp |]. apply if_test_keeps; [test | by wp | apply IH].
Qed.

Lemma check_break_keeps k n i b : WP boss [] (check_break k n i b) (fun H' _ => H' = []).
Proof.
  revert i. induction n as [|n IH]; intros i; [by apply WP_return|]. apply if_test_keeps; [test | apply IH | by wp].
Qed.

Lemma wake_waiting_keeps k : WP boss [] (wake_waiting k) (fun H' _ => H' = []).
Proof. apply each_clerk_keeps. intros j [] Hj. apply if_test_keeps; [test | by apply wake_keeps | by steps]. Qed.

Lemma ManagerCheckClose_keeps : WP boss [] ManagerCheckClose (fun H' _ => H' = []).
Proof.
  unfold ManagerCheckClose. do 2 (eapply WP_then; [apply check_people_keeps|]; intros ? ? ->). destruct x0 as [isDone allHere].
  apply WP_if; [by wp|]. apply WP_if; [|by wp]. do 4 (eapply WP_then; [apply check_break_keeps|]; intros ? ? ->).
  apply then_ok; [|by wp]. apply WP_if; [|by steps]. do 3 (apply then_ok; [apply wake_waiting_keeps|]). apply wake_waiting_keeps.
Qed.

Lemma dismiss_keeps k : WP boss [] (dismiss k) (fun H' _ => H' = []).
Proof. apply each_clerk_keeps. intros j [] Hj. unfold signal_once. by steps. Qed.

Lemma manager_main_keeps : WP boss [] manager_main (office_done boss).
Proof.
  apply then_ok; [apply Setup_keeps|]. apply WP_while. intros t. apply then_ok.
  { apply (WP_repeat _ _ (fun H' => H' = [])); [|done..]. intros ? ->. apply then_ok; [apply ManagerCheckLines_keeps | by wp]. }
  eapply WP_then; [apply ManagerCountMoney_keeps|]. intros ? t' ->. eapply WP_then; [apply ManagerCheckClose_keeps|].
  intros ? b ->. apply WP_if; [|by wp]. apply then_ok; [by steps|]. do 4 (apply then_ok; [apply dismiss_keeps|]). by wp.
Qed.

Lemma program_keeps a : WP a [] (program a) (office_done a).
Proof.
  destruct a as [|[[]|k] n]; [apply manager_main_keeps | apply customer_main_keeps | apply senator_main_keeps | apply clerk_main_keeps].
Qed.

Lemma opening_good people : good office_rules office_done (start people).
Proof.
  split.
  - done.
  - cbn. intros a p Hp. apply elem_of_list_to_map_2, list_elem_of_fmap in Hp as (b & [= <- ->] & _). exists []. split; [|apply program_keeps].
    split; [constructor|]. intros l. split; [|by intros ?%elem_of_nil]. by rewrite lookup_empty.
  - cbn. intros l a. by rewrite lookup_empty.
  - intros c. unfold cond_of. cbn. by rewrite lookup_empty.
Qed.

(** Every state of an execution keeps to the rules. *)
Lemma states_good people es W : happens program es (start people) = true -> run program es (start people) = Ret W ->
  good office_rules office_done W.
Proof. eapply run_good; [apply program_keeps | apply opening_good]. Qed.

(** ** No deadlock *)

(** Whatever processes run the programs, and however their system calls
    interleave: each lock that is taken, other than senatorLock, is taken by a process
    that can run, or that waits for a lock whose holder can run, or waits for a third
    one, and so on, but not in a circle; and the manager, until it exits, can run or
    waits for such a lock. *)
Lemma deadlock_free people es W : happens program es (start people) = true -> run program es (start people) = Ret W ->
  (forall l b, owner W !! l = Some b -> l <> senatorLock -> in_use W l) /\
  (is_Some (pool W !! TheManager) -> can_run TheManager W = true \/ exists l, waits_for TheManager l W /\ in_use W l).
Proof.
  intros Hh Hr. pose proof (states_good people es W Hh Hr) as G.
  assert (forall a H l, acquires office_rules a H l -> forall h, h ∈ H -> (rank h < rank l)%nat) as Hu by (intros a H l (_ & Ha & _); by apply Forall_forall).
  assert (forall a H c, sleeps office_rules a H c -> forall h, h ∈ H -> rank h = O) as Hs by (intros a H c [Ha _]; by apply Forall_forall).
  assert (forall l, (rank l <= 6)%nat) as Hb by (intros []; cbn; lia). split.
  - intros l b Hl Hne. apply (holder_progress _ rank _ Hu Hs (fun _ _ Hd => Hd) 6 Hb W l b G Hl). destruct l; cbn; first [done | lia].
  - intros [p Hp]. apply (awake_progress _ rank _ Hu Hs (fun _ _ Hd => Hd) 6 Hb W TheManager p G Hp); [by intros H c [_ ?] | intros H l (_ & _ & Ht); by apply Ht].
Qed.
