(* ===== verification/Distributed.v ===== *)
(** * Programs whose locks are on the server (ThreadProg.v over network/nettest.cc)

    The programs of ThreadProg.v as processes on many machines: a call on a lock or
    a condition is the system call of userprog/exception.cc, whose message the
    server of Server.v handles; the process is blocked until a reply comes to its
    machine and mailbox. The theorem: for programs that keep to the rules of the
    logic, each step of the processes and the server is an execution of the
    contract of ThreadProg.v, so that what holds in all executions there holds of
    the processes. The messages are taken to arrive; a reply that is late is a
    process that does not run yet. *)

From S2P Require Import Prelude NachosList Server Rpc ThreadProg.

Section System.
Context {St L V A : Type} `{!EqDecision L, !Countable L, !EqDecision V, !Countable V, !EqDecision A, !Countable A}.
Notation event := (op St L V A).
Notation prog := (itree event).
Notation World := (World (St:=St) (L:=L) (V:=V) (A:=A)).

(** The numbers of the locks and conditions on the server; the machine and the
    mailbox of a process. *)
Variables (ix : L -> Z) (cx : V -> Z) (cl : A -> Z * Z).

(** What rand() returns in a system call, and the contents of fresh buffers. *)
Variables (rand : Z) (stale g : list Z).

(** A process, and what it does after the reply. *)
Inductive Status := Running (p : prog unit) | Blocked (p : prog unit).

Record System := mkSystem { tables : State; vars : St; procs : gmap A Status }.

Definition go_on (s : Status) : Status := match s with Running p | Blocked p => Running p end.

(** Replies arrive. *)
Definition answer (cs : list (Z * Z)) (m : gmap A Status) : gmap A Status :=
  map_imap (fun a s => Some (if bool_decide (cl a ∈ cs) then go_on s else s)) m.

(** A system call on a lock or a condition. *)
Definition ask a (o : Monitor.op) (p : prog unit) (D : System) : C System :=
  let! r := stub rand 1 (cl a).2 g o in
  let! (s, out) := handle lone stale (cl a).1 (reply_box r) (buffer (message r)) (tables D) in
  Ret (mkSystem s (vars D) (answer (dest <$> out) (<[a := Blocked p]> (procs D)))).

Definition set_proc a (p : prog unit) (D : System) : System := mkSystem (tables D) (vars D) (<[a := Running p]> (procs D)).
Definition set_vars s (D : System) : System := mkSystem (tables D) s (procs D).

(** A call of [a]. Calls on monitor variables ([Do]) act on the shared store at once;
    on the server they are a message each, handled without another in between
    (ServerOffice.v, [get_on_server], [set_on_server]). [Woken] is no system call;
    processes that start others are outside this model. *)
Definition issue a (r : Z) {X} (e : event X) : (X -> prog unit) -> System -> C System :=
  match e in op _ _ _ _ X return (X -> prog unit) -> System -> C System with
  | Acquire l => fun k => ask a (Monitor.OAcquire (ix l)) (k tt)
  | Release l => fun k => ask a (Monitor.ORelease (ix l)) (k tt)
  | Wait c l => fun k => ask a (Monitor.OWait (cx c) (ix l)) (k tt)
  | Signal c l => fun k => ask a (Monitor.OSignal (cx c) (ix l)) (k tt)
  | Broadcast c l => fun k => ask a (Monitor.OBroadcast (cx c) (ix l)) (k tt)
  | Yield => fun k D => Ret (set_proc a (k tt) D)
  | Random => fun k D => Ret (set_proc a (k r) D)
  | Do f => fun k D => let! (x, s) := f (vars D) in Ret (set_proc a (k x) (set_vars s D))
  | Woken _ _ | Fork _ => fun _ _ => Undef
  end.

(** One step of the process [a]; it cannot take one while it is blocked. *)
Definition move a (r : Z) (D : System) : C System :=
  match procs D !! a with
  | Some (Running p) =>
      match observe p with
      | RetF _ => Ret (mkSystem (tables D) (vars D) (delete a (procs D)))
      | TauF p => Ret (set_proc a p D)
      | VisF e k => issue a r e k D
      end
  | _ => Undef
  end.

Fixpoint moves (es : list (A * Z)) (D : System) : C System :=
  match es with [] => Ret D | (a, r) :: es => let! D := move a r D in moves es D end.

(** ** The server keeps to the contract *)

Context (R : Rules St L V A) (Done : A -> list L -> unit -> Prop) (code : A -> prog unit).
Hypothesis code_ok : forall a, WP R a [] (code a) (Done a).

(** The locks and conditions that exist. *)
Context (valid : L -> Prop) (valid_cond : V -> Prop).
Hypothesis acquires_valid : forall a H l, acquires R a H l -> valid l.
Hypothesis Inv_valid : forall O s l a, Inv R O s -> O !! l = Some a -> valid l.
Hypothesis cond_valid : forall c, valid (cv_lock R c) -> valid_cond c.

Hypothesis ix_inj : forall l l', valid l -> valid l' -> ix l = ix l' -> l = l'.
Hypothesis cx_inj : forall c c', valid_cond c -> valid_cond c' -> cx c = cx c' -> c = c'.
Hypothesis cl_inj : forall a b, cl a = cl b -> a = b.
Hypothesis ix_byte : forall l, valid l -> is_i8 (ix l).
Hypothesis cx_byte : forall c, valid_cond c -> is_i8 (cx c).
Hypothesis machine : forall a, 0 <= (cl a).1.
Hypothesis fresh : length g = 40%nat.

(** [b] waits for the lock [l], and goes on with [p]. *)
Definition pending (W : World) b l (p : prog unit) : Prop := exists k q, pool W !! b = Some q /\ k tt = p /\
  (observe q = VisF (Acquire l) k \/ exists c, observe q = VisF (Woken c l) k /\ asleep b c W = false).

(** A condition of the server, and of the contract. *)
Definition cond_fits (W : World) c (v : Monitor.MCond) : Prop :=
  Monitor.sleepers v = cl <$> waitQueue (cond_of c W) /\
  (waitQueue (cond_of c W) <> [] -> Monitor.bound v = Some (ix (cv_lock R c))) /\
  (Monitor.bound v = None \/ Monitor.bound v = Some (ix (cv_lock R c))) /\
  waitingLock (cond_of c W) = if bool_decide (waitQueue (cond_of c W) = []) then None else Some (cv_lock R c).

(** [M]: the server's monitors; [m]: the processes; [Q]: those that wait in the
    queues of the locks. What is said of the lock [x] and of the condition [y] is
    left out while they change. *)
Record sim (x : option L) (y : option V) (M : Monitor.Monitors) (m : gmap A Status) (W : World) (Q : L -> list A) : Prop := {
  s_run : forall a p, m !! a = Some (Running p) -> pool W !! a = Some p;
  s_gone : forall a, m !! a = None -> pool W !! a = None;
  s_blocked : forall a p, m !! a = Some (Blocked p) -> (exists l, a ∈ Q l) \/ exists c, a ∈ waitQueue (cond_of c W);
  s_queue : forall l a, a ∈ Q l -> exists p, m !! a = Some (Blocked p) /\ pending W a l p;
  s_sleep : forall c a, a ∈ waitQueue (cond_of c W) -> exists k q,
    m !! a = Some (Blocked (k tt)) /\ pool W !! a = Some q /\ observe q = VisF (Woken c (cv_lock R c)) k;
  s_once : forall l, NoDup (Q l);
  s_once_asleep : forall c, NoDup (waitQueue (cond_of c W));
  s_lock : forall l, valid l -> exists ml, Monitor.at_ (Monitor.mlocks M) (ix l) = Some ml /\
    (Some l <> x -> ml = Monitor.mkMLock (fst ∘ cl <$> owner W !! l) (cl <$> Q l) /\ (owner W !! l = None -> Q l = []));
  s_cond : forall c, valid_cond c -> exists v, Monitor.at_ (Monitor.mconds M) (cx c) = Some v /\
    (Some c <> y -> cond_fits W c v)
}.

Lemma at_insert {X} (l : list X) i j x y : Monitor.at_ l i = Some x ->
  Monitor.at_ (<[Z.to_nat i := y]> l) j = if decide (j = i) then Some y else Monitor.at_ l j.
Proof.
  intros [Hi Hx]%Monitor.at_Some. unfold Monitor.at_. destruct (decide (j = i)) as [->|Hne].
  - rewrite (proj2 (Z.leb_le _ _) Hi). apply list_lookup_insert_eq. by eapply lookup_lt_Some.
  - destruct (Z.leb_spec 0 j); [|done]. apply list_lookup_insert_ne. lia.
Qed.

Lemma lookup_answer cs m a : answer cs m !! a = (fun s => if bool_decide (cl a ∈ cs) then go_on s else s) <$> m !! a.
Proof. unfold answer. rewrite map_lookup_imap. by destruct (m !! a). Qed.

Lemma answer_app cs ds m : answer (cs ++ ds) m = answer cs (answer ds m).
Proof.
  apply map_eq. intros a. rewrite !lookup_answer. destruct (m !! a) as [[p|p]|]; [..|done]; cbn; f_equal;
    repeat case_bool_decide; try done; set_solver.
Qed.

(** The one that asks is answered at once. *)
Lemma answer_self a p m : answer [cl a] (<[a := Blocked p]> m) = <[a := Running p]> m.
Proof.
  apply map_eq. intros b. rewrite lookup_answer. destruct (decide (b = a)) as [->|Hne].
  - rewrite !lookup_insert_eq. cbn. by rewrite bool_decide_true by set_solver.
  - rewrite !lookup_insert_ne by done. destruct (m !! b); [|done]. cbn. rewrite bool_decide_false; [done|].
    intros ?%list_elem_of_singleton. by apply Hne, cl_inj.
Qed.

Lemma answer_nobody m : answer [] m = m.
Proof. apply map_eq. intros b. rewrite lookup_answer. destruct (m !! b); [|done]. cbn. by rewrite bool_decide_false by set_solver. Qed.

Lemma answer_one b p m : m !! b = Some (Blocked p) -> answer [cl b] m = <[b := Running p]> m.
Proof. intros Hb. rewrite <- (insert_id m b (Blocked p) Hb) at 1. apply answer_self. Qed.

(** *** Parts of a step *)

Definition upd (Q : L -> list A) l q : L -> list A := fun l' => if decide (l' = l) then q else Q l'.

Lemma sim_open l c M m W Q : sim None None M m W Q -> sim (Some l) (Some c) M m W Q.
Proof.
  intros [? ? ? ? ? ? ? Hl Hc]. split; try done.
  - intros l' Hv'. destruct (Hl l' Hv') as (ml & Ha & Hm). exists ml. split; [done|]. intros _. by apply Hm.
  - intros c' Hv'. destruct (Hc c' Hv') as (v & Ha & Hv). exists v. split; [done|]. intros _. by apply Hv.
Qed.

Lemma sim_open_lock l y M m W Q : sim None y M m W Q -> sim (Some l) y M m W Q.
Proof.
  intros [? ? ? ? ? ? ? Hl Hc]. split; try done.
  intros l' Hv'. destruct (Hl l' Hv') as (ml & Ha & Hm). exists ml. split; [done|]. intros _. by apply Hm.
Qed.

Lemma sim_close_lock l y ml M m W Q : valid l -> sim (Some l) y M m W Q ->
  ml = Monitor.mkMLock (fst ∘ cl <$> owner W !! l) (cl <$> Q l) -> (owner W !! l = None -> Q l = []) ->
  sim None y (Monitor.put_lock (ix l) ml M) m W Q.
Proof.
  intros Hv [? ? ? ? ? ? ? Hl Hc] -> Hi. split; try done. intros l' Hv'. cbn [Monitor.mlocks Monitor.put_lock].
  destruct (Hl l Hv) as (ml0 & Ha0 & _). rewrite (at_insert _ _ _ _ _ Ha0). destruct (decide (ix l' = ix l)) as [E|Hne].
  - apply ix_inj in E as ->; [|done..]. eexists. split; [reflexivity|]. by intros _.
  - destruct (Hl l' Hv') as (ml & Ha & Hm). exists ml. split; [done|]. intros _. apply Hm. congruence.
Qed.

Lemma sim_close_cond c x v M m W Q : valid_cond c -> sim x (Some c) M m W Q -> cond_fits W c v -> sim x None (Monitor.put_cond (cx c) v M) m W Q.
Proof.
  intros Hvc [? ? ? ? ? ? ? Hl Hc] Hv. split; try done. intros c' Hvc'. cbn [Monitor.mconds Monitor.put_cond].
  destruct (Hc c Hvc) as (v0 & Ha0 & _). rewrite (at_insert _ _ _ _ _ Ha0). destruct (decide (cx c' = cx c)) as [E|Hne].
  - apply cx_inj in E as ->; [|done..]. exists v. split; [done|]. by intros _.
  - destruct (Hc c' Hvc') as (w & Ha & Hw). exists w. split; [done|]. intros _. apply Hw. congruence.
Qed.

(** A process that runs is in no queue. *)
Lemma running_out x y M m W Q a p : sim x y M m W Q -> m !! a = Some (Running p) ->
  (forall l, a ∉ Q l) /\ forall c, a ∉ waitQueue (cond_of c W).
Proof.
  intros S Ha. split.
  - intros l Hq. destruct (s_queue _ _ _ _ _ _ S l a Hq) as (q & Hm & _). congruence.
  - intros c Hq. destruct (s_sleep _ _ _ _ _ _ S c a Hq) as (k & q & Hm & _). congruence.
Qed.

Lemma queued_once x y M m W Q l l' a : sim x y M m W Q -> a ∈ Q l -> a ∈ Q l' -> l' = l.
Proof.
  intros S H1 H2. destruct (s_queue _ _ _ _ _ _ S l a H1) as (p & _ & k & q & Hp & _ & Ho).
  destruct (s_queue _ _ _ _ _ _ S l' a H2) as (p' & _ & k' & q' & Hp' & _ & Ho'). rewrite Hp in Hp'. injection Hp' as <-.
  destruct Ho as [Ho|(c & Ho & _)], Ho' as [Ho'|(c' & Ho' & _)]; rewrite Ho in Ho'; by simplify_eq.
Qed.

Lemma queued_awake x y M m W Q l c a : sim x y M m W Q -> a ∈ Q l -> a ∉ waitQueue (cond_of c W).
Proof.
  intros S H1 H2. destruct (s_queue _ _ _ _ _ _ S l a H1) as (p & _ & k & q & Hp & _ & Ho).
  destruct (s_sleep _ _ _ _ _ _ S c a H2) as (k' & q' & _ & Hp' & Ho'). rewrite Hp in Hp'. injection Hp' as <-.
  destruct Ho as [Ho|(c' & Ho & Has)]; rewrite Ho in Ho'; simplify_eq. by apply bool_decide_eq_false in Has.
Qed.

(** What a step leaves alone: the programs, the conditions, the other locks. *)
Record quiet (x : option L) (W W1 : World) : Prop := {
  q_pool : pool W1 = pool W;
  q_conds : forall c, cond_of c W1 = cond_of c W;
  q_owner : forall l, Some l <> x -> owner W1 !! l = owner W !! l
}.

Lemma pending_other W W1 a b l p p' : pool W1 = <[a := p']> (pool W) -> (forall c, b ∉ waitQueue (cond_of c W) -> b ∉ waitQueue (cond_of c W1)) ->
  b <> a -> pending W b l p -> pending W1 b l p.
Proof.
  intros Hp Hc Hne (k & q & Hq & Hk & Ho). exists k, q. rewrite Hp, lookup_insert_ne by done. split; [done|]. split; [done|].
  destruct Ho as [Ho|(c & Ho & Ha)]; [by left|]. right. exists c. split; [done|].
  apply bool_decide_eq_false. apply Hc. by apply bool_decide_eq_false in Ha.
Qed.

(** A process runs on. *)
Lemma sim_go x y M m W Q a p0 p W1 : sim x y M m W Q -> m !! a = Some (Running p0) -> quiet x W W1 ->
  sim x y M (<[a := Running p]> m) (put a p W1) Q.
Proof.
  intros S Ha [Hp Hc Ho]. destruct (running_out _ _ _ _ _ _ _ _ S Ha) as [Hq Hs]. destruct S as [S1 S2 S3 S4 S5 S6 S7 S8 S9].
  assert (forall c, cond_of c (put a p W1) = cond_of c W) as Hc' by apply Hc. split; try done.
  - intros b q. cbn. rewrite Hp. destruct (decide (b = a)) as [->|]; [rewrite !lookup_insert_eq; by intros [= <-] | rewrite !lookup_insert_ne by done; apply S1].
  - intros b. cbn. rewrite Hp. destruct (decide (b = a)) as [->|]; [by rewrite !lookup_insert_eq | rewrite !lookup_insert_ne by done; apply S2].
  - intros b q. destruct (decide (b = a)) as [->|]; [by rewrite lookup_insert_eq|]. rewrite lookup_insert_ne by done. intros Hb.
    destruct (S3 b q Hb) as [?|[c ?]]; [by left | right; exists c; by rewrite Hc'].
  - intros l b Hb. destruct (S4 l b Hb) as (q & Hm & Hpe). assert (b <> a) by (intros ->; by apply Hq in Hb).
    exists q. rewrite lookup_insert_ne by done. split; [done|]. eapply pending_other; [cbn; by rewrite Hp | intros c; by rewrite Hc' | done | done].
  - intros c b. rewrite Hc'. intros Hb. destruct (S5 c b Hb) as (k & q & ? & ? & ?). assert (b <> a) by (intros ->; by apply Hs in Hb).
    exists k, q. cbn. rewrite Hp, !lookup_insert_ne by done. done.
  - intros c. by rewrite Hc'.
  - intros l Hval. destruct (S8 l Hval) as (ml & Hm & Hx). exists ml. split; [done|]. intros Hl. cbn. rewrite Ho by done. by apply Hx.
  - intros c Hval. destruct (S9 c Hval) as (v & Hv & Hx). exists v. split; [done|]. intros Hy. unfold cond_fits. rewrite !Hc'. by apply Hx.
Qed.

(** A process waits for a lock that somebody has. *)
Lemma sim_park l y M m W Q a p k : sim (Some l) y M m W Q -> m !! a = Some (Running p) -> observe p = VisF (Acquire l) k ->
  sim (Some l) y M (<[a := Blocked (k tt)]> m) W (upd Q l (Q l ++ [a])).
Proof.
  intros S Ha Hk. destruct (running_out _ _ _ _ _ _ _ _ S Ha) as [Hq Hs]. destruct S as [S1 S2 S3 S4 S5 S6 S7 S8 S9].
  assert (forall l' b, b ∈ upd Q l (Q l ++ [a]) l' -> b ∈ Q l' \/ l' = l /\ b = a) as Hu.
  { unfold upd. intros l' b. destruct (decide (l' = l)) as [->|]; [|by left]. rewrite elem_of_app, list_elem_of_singleton. naive_solver. }
  split; try done.
  - intros b q. destruct (decide (b = a)) as [->|]; [by rewrite lookup_insert_eq | rewrite lookup_insert_ne by done; apply S1].
  - intros b. destruct (decide (b = a)) as [->|]; [by rewrite lookup_insert_eq | rewrite lookup_insert_ne by done; apply S2].
  - intros b q. destruct (decide (b = a)) as [->|].
    + intros _. left. exists l. unfold upd. rewrite decide_True by done. apply elem_of_app. right. by apply list_elem_of_singleton.
    + rewrite lookup_insert_ne by done. intros Hb. destruct (S3 b q Hb) as [[l' Hl']|?]; [left | by right]. exists l'. unfold upd.
      destruct (decide (l' = l)) as [->|]; [|done]. apply elem_of_app. by left.
  - intros l' b [Hb|[-> ->]]%Hu.
    + destruct (S4 l' b Hb) as (q & Hm & Hpe). assert (b <> a) by (intros ->; by apply Hq in Hb). exists q. by rewrite lookup_insert_ne.
    + exists (k tt). rewrite lookup_insert_eq. split; [done|]. exists k, p. split; [by apply S1|]. split; [done | by left].
  - intros c b Hb. destruct (S5 c b Hb) as (k' & q & ? & ? & ?). assert (b <> a) by (intros ->; by apply Hs in Hb).
    exists k', q. by rewrite lookup_insert_ne.
  - intros l'. unfold upd. destruct (decide (l' = l)) as [->|]; [|done]. apply NoDup_app. split; [done|]. split; [|apply NoDup_singleton].
    intros b Hb ->%list_elem_of_singleton. by apply Hq in Hb.
  - intros l' Hval. destruct (S8 l' Hval) as (ml & Hm & Hx). exists ml. split; [done|]. intros Hl. unfold upd.
    rewrite decide_False by congruence. by apply Hx.
Qed.

(** A process goes to sleep on a condition. *)
Lemma sim_doze l c M m W Q a p0 (k : unit -> prog unit) W1 : sim (Some l) (Some c) M m W Q -> m !! a = Some (Running p0) ->
  l = cv_lock R c -> pool W1 = pool W -> (forall l', Some l' <> Some l -> owner W1 !! l' = owner W !! l') ->
  (forall c', waitQueue (cond_of c' W1) = if decide (c' = c) then waitQueue (cond_of c W) ++ [a] else waitQueue (cond_of c' W)) ->
  (forall c', c' <> c -> cond_of c' W1 = cond_of c' W) ->
  sim (Some l) (Some c) M (<[a := Blocked (k tt)]> m) (put a (ITreeDefinition.go (VisF (Woken c l) k)) W1) Q.
Proof.
  intros S Ha Hl Hp Ho Hw Hc. destruct (running_out _ _ _ _ _ _ _ _ S Ha) as [Hq Hs]. destruct S as [S1 S2 S3 S4 S5 S6 S7 S8 S9].
  set (W2 := put _ _ W1). assert (forall c', cond_of c' W2 = cond_of c' W1) as E2 by done.
  assert (forall c' b, b ∈ waitQueue (cond_of c' W2) <-> b ∈ waitQueue (cond_of c' W) \/ c' = c /\ b = a) as Hm.
  { intros c' b. rewrite E2, Hw. destruct (decide (c' = c)) as [->|]; [rewrite elem_of_app, list_elem_of_singleton|]; naive_solver. }
  split; try done.
  - intros b q. cbn. rewrite Hp. destruct (decide (b = a)) as [->|]; [by rewrite lookup_insert_eq | rewrite !lookup_insert_ne by done; apply S1].
  - intros b. cbn. rewrite Hp. destruct (decide (b = a)) as [->|]; [by rewrite lookup_insert_eq | rewrite !lookup_insert_ne by done; apply S2].
  - intros b q. destruct (decide (b = a)) as [->|]; [intros _; right; exists c; apply Hm; by right|]. rewrite lookup_insert_ne by done. intros Hb.
    destruct (S3 b q Hb) as [?|[c' ?]]; [by left | right; exists c'; apply Hm; by left].
  - intros l' b Hb. destruct (S4 l' b Hb) as (q & Hmb & Hpe). assert (b <> a) by (intros ->; by apply Hq in Hb).
    exists q. rewrite lookup_insert_ne by done. split; [done|]. eapply pending_other; [cbn; by rewrite Hp | | done | done].
    intros c' Hn [?|[_ ?]]%Hm; done.
  - intros c' b [Hb|[-> ->]]%Hm.
    + destruct (S5 c' b Hb) as (k' & q & ? & ? & ?). assert (b <> a) by (intros ->; by apply Hs in Hb).
      exists k', q. cbn. rewrite Hp, !lookup_insert_ne by done. done.
    + exists k. eexists. cbn. rewrite !lookup_insert_eq. do 2 (split; [done|]). cbn. by rewrite Hl.
  - intros c'. rewrite E2, Hw. destruct (decide (c' = c)); [|done]. apply NoDup_app. split; [done|]. split; [|apply NoDup_singleton].
    intros b Hb ->%list_elem_of_singleton. by apply Hs in Hb.
  - intros l' Hval. destruct (S8 l' Hval) as (ml & Hml & Hx). exists ml. split; [done|]. intros Hne. cbn. rewrite Ho by done. by apply Hx.
  - intros c' Hval. destruct (S9 c' Hval) as (v & Hv & Hx). exists v. split; [done|]. intros Hy. unfold cond_fits. rewrite E2, Hc by congruence. by apply Hx.
Qed.

(** Sleepers are woken: they go to the end of the queue of the lock. *)
Lemma sim_rouse l c M m W Q ws rest W1 : sim (Some l) (Some c) M m W Q -> l = cv_lock R c -> waitQueue (cond_of c W) = ws ++ rest ->
  pool W1 = pool W -> owner W1 = owner W -> waitQueue (cond_of c W1) = rest -> (forall c', c' <> c -> cond_of c' W1 = cond_of c' W) ->
  sim (Some l) (Some c) M m W1 (upd Q l (Q l ++ ws)).
Proof.
  intros S Hl Hws Hp Ho Hr Hc. pose proof (fun c b => queued_awake _ _ _ _ _ _ l c b S) as Hqa. destruct S as [S1 S2 S3 S4 S5 S6 S7 S8 S9].
  pose proof (S7 c) as Hn. rewrite Hws in Hn. apply NoDup_app in Hn as (Hn & Hd & Hn').
  assert (forall c' b, b ∈ waitQueue (cond_of c' W1) -> b ∈ waitQueue (cond_of c' W)) as Hsub.
  { intros c' b. destruct (decide (c' = c)) as [->|]; [|by rewrite Hc]. rewrite Hr, Hws. intros ?. apply elem_of_app. by right. }
  assert (forall l' b, b ∈ upd Q l (Q l ++ ws) l' <-> b ∈ Q l' \/ l' = l /\ b ∈ ws) as Hu.
  { unfold upd. intros l' b. destruct (decide (l' = l)) as [->|]; [rewrite elem_of_app|]; naive_solver. }
  assert (forall b, b ∈ ws -> b ∈ waitQueue (cond_of c W)) as Hin by (intros b Hb; rewrite Hws; apply elem_of_app; by left).
  split; try (by rewrite Hp); try done.
  - intros b q Hb. destruct (S3 b q Hb) as [[l' ?]|[c' Hb']]; [left; exists l'; apply Hu; by left|].
    destruct (decide (c' = c)) as [->|]; [|right; exists c'; by rewrite Hc]. rewrite Hws in Hb'. apply elem_of_app in Hb' as [?|?].
    + left. exists l. apply Hu. by right.
    + right. exists c. by rewrite Hr.
  - intros l' b [Hb|[-> Hb]]%Hu.
    + destruct (S4 l' b Hb) as (q & Hm & k & q' & Hq' & Hk & Hpe). exists q. split; [done|]. exists k, q'. rewrite Hp. do 2 (split; [done|]).
      destruct Hpe as [?|(c' & ? & Has)]; [by left | right; exists c'; split; [done|]]. apply bool_decide_eq_false in Has. apply bool_decide_eq_false. naive_solver.
    + destruct (S5 c b (Hin b Hb)) as (k & q & Hm & Hq & Hob). exists (k tt). split; [done|]. exists k, q. rewrite Hp, Hl. do 2 (split; [done|]).
      right. exists c. split; [done|]. apply bool_decide_eq_false. rewrite Hr. by apply Hd.
  - intros c' b Hb%Hsub. rewrite Hp. by apply S5.
  - intros l'. unfold upd. destruct (decide (l' = l)) as [->|]; [|done]. apply NoDup_app. split; [done|]. split; [|done].
    intros b Hb Hb'%Hin. by apply (Hqa c b).
  - intros c'. destruct (decide (c' = c)) as [->|]; [by rewrite Hr | by rewrite Hc].
  - intros l' Hval. destruct (S8 l' Hval) as (ml & Hml & Hx). exists ml. split; [done|]. intros Hne. rewrite Ho. unfold upd. rewrite decide_False by congruence. by apply Hx.
  - intros c' Hval. destruct (S9 c' Hval) as (v & Hv & Hx). exists v. split; [done|]. intros Hy. unfold cond_fits. rewrite Hc by congruence. by apply Hx.
Qed.

(** A lock goes to the first of its queue. *)
Lemma sim_grant l y M m W Q b q p : sim (Some l) y M m W Q -> Q l = b :: q -> m !! b = Some (Blocked p) ->
  sim (Some l) y M (<[b := Running p]> m) (put b p (take_lock b l W)) (upd Q l q).
Proof.
  intros S Hq Hb. pose proof (fun l' => queued_once _ _ _ _ _ _ l l' b S) as Ho. pose proof (fun c => queued_awake _ _ _ _ _ _ l c b S) as Has.
  rewrite Hq in Ho, Has. pose proof (list_elem_of_here b q) as Hin. destruct S as [S1 S2 S3 S4 S5 S6 S7 S8 S9].
  pose proof (S6 l) as Hn. rewrite Hq in Hn. apply NoDup_cons in Hn as [Hn Hn'].
  assert (forall l' a, a ∈ upd Q l q l' -> a ∈ Q l' /\ a <> b) as Hu.
  { unfold upd. intros l' a. destruct (decide (l' = l)) as [->|Hne].
    - intros Ha. rewrite Hq. split; [by apply list_elem_of_further | by intros ->].
    - intros Ha. split; [done|]. intros ->. by apply Hne, Ho. }
  set (W1 := put _ _ _). assert (forall c, cond_of c W1 = cond_of c W) as Hc by done. split; try done.
  - intros a q'. cbn. destruct (decide (a = b)) as [->|]; [rewrite !lookup_insert_eq; by intros [= <-] | rewrite !lookup_insert_ne by done; apply S1].
  - intros a. cbn. destruct (decide (a = b)) as [->|]; [by rewrite !lookup_insert_eq | rewrite !lookup_insert_ne by done; apply S2].
  - intros a q'. destruct (decide (a = b)) as [->|]; [by rewrite lookup_insert_eq|]. rewrite lookup_insert_ne by done. intros Ha.
    destruct (S3 a q' Ha) as [[l' Hl']|?]; [left | by right]. exists l'. unfold upd. destruct (decide (l' = l)) as [->|]; [|done].
    rewrite Hq in Hl'. by apply elem_of_cons in Hl' as [?|?].
  - intros l' a [Ha Hne]%Hu. destruct (S4 l' a Ha) as (p' & Hm & Hpe). exists p'. rewrite lookup_insert_ne by done. split; [done|].
    by eapply pending_other.
  - intros c a Ha. destruct (S5 c a Ha) as (k & q' & ? & ? & ?). assert (a <> b) by (intros ->; by apply (Has c)).
    exists k, q'. cbn. rewrite !lookup_insert_ne by done. done.
  - intros l'. unfold upd. by destruct (decide (l' = l)) as [->|].
  - intros l' Hval. destruct (S8 l' Hval) as (ml & Hml & Hx). exists ml. split; [done|]. intros Hne. cbn. unfold upd.
    rewrite lookup_insert_ne, decide_False by congruence. by apply Hx.
Qed.

(** *** Steps of the server *)

(** An execution leads from [W] to a state like this. *)
Definition matched (M : Monitor.Monitors) (m : gmap A Status) (W : World) : Prop :=
  exists es W' Q, happens code es W = true /\ run code es W = Ret W' /\ shared W' = shared W /\
    sim None None M m W' Q.

Lemma matched_now M m W Q : sim None None M m W Q -> matched M m W.
Proof. intros S. by exists [], W, Q. Qed.

Lemma matched_step a r W W1 M m : can_run a W = true -> 0 <= r -> step code a r W = Ret W1 -> shared W1 = shared W ->
  matched M m W1 -> matched M m W.
Proof.
  intros Hc Hr Hs Hsh (es & W' & Q & Hh & Hrun & Hsh' & S). exists ((a, r) :: es), W', Q. cbn [happens run]. rewrite Hc, Hs, Hh. cbn.
  split; [by rewrite (proj2 (Z.leb_le 0 r) Hr) | by rewrite Hsh'].
Qed.

(** The next of the queue can take the lock. *)
Lemma pending_step W b l p : pending W b l p -> owner W !! l = None ->
  can_run b W = true /\ step code b 0 W = Ret (put b p (take_lock b l W)).
Proof.
  intros (k & q & Hp & <- & Ho) Hl. unfold can_run, step. rewrite Hp.
  destruct Ho as [->|(c & -> & Ha)]; cbn; unfold is_free; rewrite Hl, ?Ha; done.
Qed.

Lemma pass_on_ok l M m W Q ml : valid l -> sim (Some l) None M m W Q -> owner W !! l = None -> Monitor.queue ml = cl <$> Q l ->
  matched (Monitor.put_lock (ix l) (Monitor.pass_on ml).1 M) (answer (Monitor.pass_on ml).2 m) W.
Proof.
  intros Hv S Hl Hq. unfold Monitor.pass_on. rewrite Hq. destruct (Q l) as [|b q] eqn:EQ; cbn.
  - rewrite answer_nobody. apply (matched_now _ _ _ Q), sim_close_lock; [done | done | by rewrite Hl, EQ | done].
  - destruct (s_queue _ _ _ _ _ _ S l b) as (p & Hb & Hpe); [rewrite EQ; apply list_elem_of_here|].
    destruct (pending_step _ _ _ _ Hpe Hl) as [Hc Hs]. eapply matched_step; [exact Hc | done | exact Hs | done |]. rewrite (answer_one b p) by done.
    apply (matched_now _ _ _ (upd Q l q)), sim_close_lock; [done | by apply (sim_grant l None M m W Q b q p) | |].
    + cbn. unfold upd. by rewrite lookup_insert_eq, decide_True.
    + cbn. by rewrite lookup_insert_eq.
Qed.

Section Calls.
Variables (M : Monitor.Monitors) (m : gmap A Status) (W : World) (Q : L -> list A) (a : A) (p : prog unit) (k : unit -> prog unit).
Context (S : sim None None M m W Q) (Ha : m !! a = Some (Running p)).

Lemma lock_entry l : valid l -> Monitor.at_ (Monitor.mlocks M) (ix l) = Some (Monitor.mkMLock (fst ∘ cl <$> owner W !! l) (cl <$> Q l)) /\
  (owner W !! l = None -> Q l = []).
Proof. intros Hv. destruct (s_lock _ _ _ _ _ _ S l Hv) as (ml & Hm & Hx). by destruct Hx as [-> Hi]. Qed.

Lemma lock_held l : valid l -> owner W !! l = Some a -> Monitor.held (cl a).1 (ix l) M = Some (Monitor.mkMLock (Some (cl a).1) (cl <$> Q l)).
Proof. intros Hv Ho. apply Monitor.held_Some. destruct (lock_entry l Hv) as [-> _]. by rewrite Ho. Qed.

Lemma runs {X} (e : event X) (f : X -> prog unit) : observe p = VisF e f -> can_run a W = can_perform a (X:=X) e W /\ forall r, step code a r W = perform code a r e f W.
Proof. intros Hp. unfold can_run, step. by rewrite (s_run _ _ _ _ _ _ S a p Ha), Hp. Qed.

Lemma free_quiet l W1 : owner W !! l = Some a -> owner W1 = owner W -> pool W1 = pool W -> free_lock a l W1 = set_owner (delete l (owner W)) W1.
Proof. intros Ho H1 _. unfold free_lock. by rewrite H1, bool_decide_true. Qed.

(** The monitors and the answers, after a request of [a]. *)
Definition served (o : Monitor.op) : Prop :=
  matched (Monitor.step (cl a) o M).1 (answer (Monitor.step (cl a) o M).2 (<[a := Blocked (k tt)]> m)) W.

Lemma acquire_ok l : valid l -> observe p = VisF (Acquire l) k -> owner W !! l <> Some a -> served (Monitor.OAcquire (ix l)).
Proof.
  intros Hv Hp Hne. unfold served. cbn. destruct (lock_entry l Hv) as [-> Hi]. destruct (runs _ _ Hp) as [Hc Hs].
  destruct (owner W !! l) as [b|] eqn:Eo; cbn.
  - rewrite answer_nobody. apply (matched_now _ _ _ (upd Q l (Q l ++ [a]))).
    apply sim_close_lock; [done | by apply (sim_park l None M m W Q a p k (sim_open_lock _ _ _ _ _ _ S)) | | by rewrite Eo].
    unfold upd. by rewrite Eo, decide_True, fmap_app by done.
  - rewrite answer_self. eapply matched_step; [rewrite Hc; cbn; unfold is_free; by rewrite Eo | done | exact (Hs 0) | done |].
    apply (matched_now _ _ _ Q), sim_close_lock; [done | |by cbn; rewrite lookup_insert_eq | by cbn; rewrite lookup_insert_eq].
    eapply sim_go; [by apply sim_open_lock | done |]. split; [done..|]. intros l' Hl'. cbn. rewrite lookup_insert_ne; congruence.
Qed.

Lemma release_ok l : valid l -> observe p = VisF (Release l) k -> owner W !! l = Some a -> served (Monitor.ORelease (ix l)).
Proof.
  intros Hv Hp Ho. unfold served. cbn. rewrite (lock_held l Hv Ho). destruct (runs _ _ Hp) as [Hc Hs].
  set (ml := Monitor.mkMLock _ _). assert (Monitor.queue ml = cl <$> Q l) as Hq by done. clearbody ml.
  pose proof (pass_on_ok l M (<[a := Running (k tt)]> m) (put a (k tt) (free_lock a l W)) Q ml) as Hm.
  destruct (Monitor.pass_on ml) as [ml' granted]. cbn in *. rewrite answer_app, answer_self.
  eapply matched_step; [by rewrite Hc | done | exact (Hs 0) | by rewrite free_quiet |]. rewrite free_quiet in * by done.
  apply Hm; [done | |by cbn; rewrite lookup_delete_eq | done].
  eapply sim_go; [by apply sim_open_lock | done |]. split; [done..|]. intros l' Hl'. cbn. rewrite lookup_delete_ne; congruence.
Qed.

Lemma cond_entry c : valid_cond c -> exists v, Monitor.at_ (Monitor.mconds M) (cx c) = Some v /\ cond_fits W c v.
Proof. intros Hvc. destruct (s_cond _ _ _ _ _ _ S c Hvc) as (v & Hv & Hx). exists v. split; [done | by apply Hx]. Qed.

(** Nobody to wake. *)
Lemma nothing_ok r : can_run a W = true -> 0 <= r -> step code a r W = Ret (put a (k tt) W) ->
  matched M (answer [cl a] (<[a := Blocked (k tt)]> m)) W.
Proof. intros Hc Hr Hs. rewrite answer_self. eapply matched_step; [done..| done |]. by eapply matched_now, sim_go. Qed.

(** The sleepers [ws] are woken by the holder of the lock. *)
Lemma rouse_ok l c ws rest W1 : valid l -> cv_lock R c = l -> owner W !! l = Some a -> waitQueue (cond_of c W) = ws ++ rest ->
  pool W1 = pool W -> owner W1 = owner W -> shared W1 = shared W -> (forall c', c' <> c -> cond_of c' W1 = cond_of c' W) ->
  cond_of c W1 = mkCondVar rest (if bool_decide (rest = []) then None else Some l) ->
  can_run a W = true -> step code a 0 W = Ret (put a (k tt) W1) ->
  matched (Monitor.put_cond (cx c) (Monitor.mkMCond (Some (ix l)) (cl <$> rest))
      (Monitor.put_lock (ix l) (Monitor.mkMLock (Some (cl a).1) ((cl <$> Q l) ++ (cl <$> ws))) M))
    (answer [cl a] (<[a := Blocked (k tt)]> m)) W.
Proof.
  intros Hv <- Ho Hw Hp Ho1 Hsh Hc' Hd Hc Hs. rewrite answer_self. eapply matched_step; [done | | exact Hs | exact Hsh |]; [done|].
  apply (matched_now _ _ _ (upd Q (cv_lock R c) (Q (cv_lock R c) ++ ws))).
  apply sim_close_cond; [by apply cond_valid | apply sim_close_lock; [done|..] |].
  - apply (sim_go _ _ _ _ W1 _ _ p); [|done | by split]. eapply sim_rouse; [by apply sim_open | done | exact Hw | done | done | by rewrite Hd | done].
  - cbn. unfold upd. by rewrite Ho1, Ho, decide_True, fmap_app.
  - cbn. by rewrite Ho1, Ho.
  - unfold cond_fits. cbn. change (cond_of c (put _ _ _)) with (cond_of c W1). rewrite Hd.
    split; [done|]. split; [done|]. split; [by right | done].
Qed.

Lemma signal_ok c l : valid l -> observe p = VisF (Signal c l) k -> cv_lock R c = l -> owner W !! l = Some a -> served (Monitor.OSignal (cx c) (ix l)).
Proof.
  intros Hvl Hp Hl Ho. unfold served. cbn. rewrite (lock_held l Hvl Ho). destruct (cond_entry c ltac:(apply cond_valid; by rewrite Hl)) as (v & -> & Hf & Hb & _ & Hw).
  destruct (runs _ _ Hp) as [Hc Hs]. specialize (Hs 0). cbn in Hs. rewrite Hf. rewrite Hw in Hs.
  destruct (waitQueue (cond_of c W)) as [|x xs] eqn:Eq; cbn in Hs |- *.
  - by apply (nothing_ok 0).
  - rewrite Hb, Hl by done. rewrite decide_True by done. rewrite Hl, bool_decide_true in Hs by done. cbn.
    apply (rouse_ok l c [x] xs (put_cond c (wake_first (cond_of c W)) W)); try done.
    + intros c' Hne. rewrite cond_put. by rewrite decide_False.
    + rewrite cond_put, decide_True by done. unfold wake_first. rewrite Eq. by rewrite Hw, Hl.
Qed.

Lemma broadcast_ok c l : valid l -> observe p = VisF (Broadcast c l) k -> cv_lock R c = l -> owner W !! l = Some a -> served (Monitor.OBroadcast (cx c) (ix l)).
Proof.
  intros Hvl Hp Hl Ho. unfold served. cbn. rewrite (lock_held l Hvl Ho). destruct (cond_entry c ltac:(apply cond_valid; by rewrite Hl)) as (v & Hv & Hf & Hb & Hb' & Hw).
  rewrite Hv. destruct (runs _ _ Hp) as [Hc Hs]. specialize (Hs 0). cbn in Hs.
  assert (waitQueue (cond_of c W) = [] -> step code a 0 W = Ret (put a (k tt) W)) as Hidle.
  { intros Eq. rewrite Hs, Hw, Eq. done. }
  destruct (decide (Monitor.bound v = Some (ix l))) as [E|Hne]; cbn.
  - rewrite E, Hf. destruct (waitQueue (cond_of c W)) as [|x xs] eqn:Eq.
    + apply (rouse_ok l c [] [] W); try done; [|by apply Hidle]. cbn in Hw. destruct (cond_of c W); cbn in *; by subst.
    + apply (rouse_ok l c (x :: xs) [] (put_cond c (wake_all (cond_of c W)) W)); try done.
      * by rewrite app_nil_r.
      * intros c' Hne. rewrite cond_put. by rewrite decide_False.
      * by rewrite cond_put, decide_True.
      * by rewrite Hs, Hw, Hl, bool_decide_true.
  - apply (nothing_ok 0); [done | done |]. apply Hidle. destruct (waitQueue (cond_of c W)); [done|]. destruct Hne. rewrite <- Hl. by apply Hb.
Qed.

Lemma wait_ok c l : valid l -> observe p = VisF (Wait c l) k -> cv_lock R c = l -> owner W !! l = Some a -> served (Monitor.OWait (cx c) (ix l)).
Proof.
  intros Hvl Hp Hl Ho. unfold served. cbn. rewrite (lock_held l Hvl Ho). destruct (cond_entry c ltac:(apply cond_valid; by rewrite Hl)) as (v & -> & Hf & Hb & Hb' & Hw).
  rewrite decide_True by (rewrite <- Hl; tauto). destruct (runs _ _ Hp) as [Hc Hs]. specialize (Hs 0). cbn in Hs.
  set (ml := Monitor.mkMLock _ _). assert (Monitor.queue ml = cl <$> Q l) as Hq by done. clearbody ml.
  set (d := mkCondVar (waitQueue (cond_of c W) ++ [a]) (Some l)) in Hs.
  set (W1 := put a (ITreeDefinition.go (VisF (Woken c l) k)) (free_lock a l (put_cond c d W))) in Hs.
  assert (step code a 0 W = Ret W1) as Hs1.
  { rewrite Hs, Hw. destruct (waitQueue (cond_of c W)); cbn; [done|]. by rewrite bool_decide_true. }
  pose proof (pass_on_ok l (Monitor.put_cond (cx c) (Monitor.mkMCond (Some (ix l)) (Monitor.sleepers v ++ [cl a])) M)
    (<[a := Blocked (k tt)]> m) W1 Q ml) as Hm.
  destruct (Monitor.pass_on ml) as [ml' granted]. cbn in Hm |- *.
  assert (free_lock a l (put_cond c d W) = set_owner (delete l (owner W)) (put_cond c d W)) as Ef by by apply free_quiet.
  eapply matched_step; [by rewrite Hc | done | exact Hs1 | unfold W1; by rewrite Ef |].
  apply Hm; [done | |unfold W1; rewrite Ef; cbn; by rewrite lookup_delete_eq | done].
  assert (forall c', cond_of c' W1 = if decide (c' = c) then d else cond_of c' W) as Hd.
  { intros c'. unfold W1. rewrite Ef. exact (cond_put W c d c'). }
  apply sim_close_cond; [apply cond_valid; by rewrite Hl|..].
  - unfold W1. eapply sim_doze; [by apply sim_open | done | done | by rewrite Ef | | |]; rewrite Ef.
    + intros l' Hne. cbn. rewrite lookup_delete_ne; congruence.
    + intros c'. change (cond_of c' (set_owner _ _)) with (cond_of c' (put_cond c d W)). rewrite cond_put. by destruct (decide (c' = c)) as [->|].
    + intros c' Hne. change (cond_of c' (set_owner _ _)) with (cond_of c' (put_cond c d W)). rewrite cond_put. by rewrite decide_False.
  - unfold cond_fits. rewrite Hd, decide_True by done. cbn. rewrite Hf, fmap_app, Hl. split; [done|]. split; [done|]. split; [by right|].
    rewrite bool_decide_false; [done|]. by intros [_ ?]%app_nil.
Qed.
End Calls.

(** *** Steps of the processes *)

(** The processes and the server in a state of the contract. *)
Definition like (D : System) (W : World) : Prop :=
  pristine (tables D) /\ vars D = shared W /\ exists Q, sim None None (abs (tables D)) (procs D) W Q.

Lemma ask_ok a o p D D' : op_bytes o -> pristine (tables D) -> ask a o p D = Ret D' ->
  pristine (tables D') /\ vars D' = vars D /\ abs (tables D') = (Monitor.step (cl a) o (abs (tables D))).1 /\
  procs D' = answer (Monitor.step (cl a) o (abs (tables D))).2 (<[a := Blocked p]> (procs D)).
Proof.
  intros Hb Hp Ha. unfold ask in Ha. destruct (stub_message rand 1 (cl a).2 g fresh o Hb) as (r & Hr & Hm).
  pose proof (stub_box rand 1 (cl a).2 g o r Hr) as Hbox. rewrite Hr in Ha. cbn in Ha. rewrite Hm, Hbox in Ha.
  destruct (handle_refines lone stale (tables D) (cl a).1 (cl a).2 o Hp (machine a)) as (s' & out & Hh & Hp' & Hst & _).
  rewrite Hh in Ha. injection Ha as <-. cbn. destruct (cl a). cbn in *. by rewrite Hst.
Qed.

Lemma like_ask D W a (k : unit -> prog unit) o D' : pristine (tables D) -> vars D = shared W -> op_bytes o ->
  served (abs (tables D)) (procs D) W a k o -> ask a o (k tt) D = Ret D' ->
  exists es W', happens code es W = true /\ run code es W = Ret W' /\ like D' W'.
Proof.
  intros Hp Hv Hb (es & W' & Q' & Hh & Hr & Hs & S) Ha. destruct (ask_ok _ _ _ _ _ Hb Hp Ha) as (Hp' & Hv' & HM & Hm).
  exists es, W'. do 2 (split; [done|]). split; [done|]. split; [by rewrite Hv', Hv|]. exists Q'. by rewrite HM, Hm.
Qed.

(** A step of one process, without the server. *)
Lemma like_own D W Q a p0 p s r W1 : pristine (tables D) -> sim None None (abs (tables D)) (procs D) W Q ->
  procs D !! a = Some (Running p0) -> quiet None W W1 -> shared W1 = s -> can_run a W = true -> 0 <= r -> step code a r W = Ret (put a p W1) ->
  exists es W', happens code es W = true /\ run code es W = Ret W' /\ like (mkSystem (tables D) s (<[a := Running p]> (procs D))) W'.
Proof.
  intros Hp S Ha Hq Hs Hc Hr Hst. exists [(a, r)], (put a p W1). cbn [happens run]. rewrite Hc, Hst, (proj2 (Z.leb_le 0 r) Hr). cbn.
  do 2 (split; [done|]). split; [done|]. split; [done|]. exists Q. by eapply sim_go.
Qed.

Lemma sim_exit M m W Q a p : sim None None M m W Q -> m !! a = Some (Running p) ->
  sim None None M (delete a m) (set_pool (delete a (pool W)) W) Q.
Proof.
  intros S Ha. destruct (running_out _ _ _ _ _ _ _ _ S Ha) as [Hq Hs]. destruct S as [S1 S2 S3 S4 S5 S6 S7 S8 S9]. split; try done.
  - intros b q [Hne Hb]%lookup_delete_Some. cbn. rewrite lookup_delete_ne by done. by apply S1.
  - intros b Hb. cbn. destruct (decide (b = a)) as [->|]; [by rewrite lookup_delete_eq|]. rewrite lookup_delete_ne in Hb by done. rewrite lookup_delete_ne by done. by apply S2.
  - intros b q [Hne Hb]%lookup_delete_Some. by apply (S3 b q).
  - intros l b Hb. assert (b <> a) by (intros ->; by apply Hq in Hb). destruct (S4 l b Hb) as (q & Hm & k & q' & Hp & Hk).
    exists q. rewrite lookup_delete_ne by done. split; [done|]. exists k, q'. cbn. by rewrite lookup_delete_ne.
  - intros c b Hb. assert (b <> a) by (intros ->; by apply Hs in Hb). destruct (S5 c b Hb) as (k & q & Hm & Hp & Hk).
    exists k, q. cbn. by rewrite !lookup_delete_ne.
Qed.

Lemma move_matched D W a r D' : good R Done W -> like D W -> 0 <= r -> move a r D = Ret D' ->
  exists es W', happens code es W = true /\ run code es W = Ret W' /\ like D' W'.
Proof.
  intros G (Hp & Hv & Q & S) Hr Hm. unfold move in Hm. destruct (procs D !! a) as [[p|p]|] eqn:Ha; [|done..].
  pose proof (s_run _ _ _ _ _ _ S a p Ha) as Hpool. destruct (go_threads _ _ _ G a p Hpool) as (H & [Hn Hh] & Hw).
  apply WP_step in Hw. pose proof (fun l Hl => Inv_valid _ _ l a (go_inv _ _ _ G) (proj2 (Hh l) Hl)) as Hval.
  destruct (observe p) as [x|p'|X e k] eqn:Ep.
  - injection Hm as <-. exists [(a, 0)], (set_pool (delete a (pool W)) W). cbn [happens run]. unfold can_run, step. rewrite Hpool, Ep. cbn.
    do 2 (split; [done|]). split; [done|]. split; [done|]. exists Q. by eapply sim_exit.
  - injection Hm as <-. eapply like_own; [done | done | done | by split | done | | exact Hr |]; unfold can_run, step; by rewrite Hpool, Ep.
  - destruct (runs _ _ _ _ _ _ S Ha e k Ep) as [Hc Hs].
    destruct e; cbn in Hm, Hw, Hc, Hs; try done.
    + destruct Hw as (Hq & Hl & _). apply (like_ask D W a k _ D' Hp Hv) in Hm; [done | apply ix_byte; eauto |].
      eapply acquire_ok; [done | done | by eapply acquires_valid | exact Ep |]. by rewrite Hh.
    + destruct Hw as (Hl & _). apply (like_ask D W a k _ D' Hp Hv) in Hm; [done | apply ix_byte; eauto |].
      eapply release_ok; [done | done | by apply Hval | exact Ep | by apply Hh].
    + destruct Hw as (Hl & -> & _). apply Hval in Hl as Hvl. apply (like_ask D W a k _ D' Hp Hv) in Hm; [done | split; auto |].
      eapply wait_ok; [done | done | done | exact Ep | done | by apply Hh].
    + destruct Hw as (Hl & -> & _). apply Hval in Hl as Hvl. apply (like_ask D W a k _ D' Hp Hv) in Hm; [done | split; auto |].
      eapply signal_ok; [done | done | done | exact Ep | done | by apply Hh].
    + destruct Hw as (Hl & -> & _). apply Hval in Hl as Hvl. apply (like_ask D W a k _ D' Hp Hv) in Hm; [done | split; auto |].
      eapply broadcast_ok; [done | done | done | exact Ep | done | by apply Hh].
    + injection Hm as <-. eapply like_own; [done | done | done | by split | done | done | exact Hr | by rewrite Hs].
    + injection Hm as <-. eapply like_own; [done | done | done | by split | done | done | exact Hr | by rewrite Hs].
    + apply bind_Ret in Hm as ([x s] & Hf & [= <-]). eapply (like_own D W Q a p (k x) s r (set_shared s W)); [done | done | done | by split | done | done | exact Hr |].
      rewrite Hs, <- Hv, Hf. done.
Qed.

Lemma run_app es1 es2 W W1 W2 : happens code es1 W = true -> run code es1 W = Ret W1 -> happens code es2 W1 = true -> run code es2 W1 = Ret W2 ->
  happens code (es1 ++ es2) W = true /\ run code (es1 ++ es2) W = Ret W2.
Proof.
  revert W. induction es1 as [|[a r] es1 IH]; intros W Hh Hr; [by injection Hr as <-|]. cbn [happens run app] in *.
  apply bind_Ret in Hr as (W0 & Hs & Hr). rewrite Hs in Hh |- *. apply andb_true_iff in Hh as [-> Hh]. cbn. by apply IH.
Qed.

Lemma moves_matched es D W D' : good R Done W -> like D W -> Forall (fun e => 0 <= e.2) es -> moves es D = Ret D' ->
  exists es' W', happens code es' W = true /\ run code es' W = Ret W' /\ like D' W'.
Proof.
  revert D W. induction es as [|[a r] es IH]; intros D W G Hl Hes Hm.
  { injection Hm as <-. by exists [], W. }
  apply Forall_cons in Hes as [Hr Hes]. cbn in Hm. apply bind_Ret in Hm as (D1 & Hm1 & Hm).
  destruct (move_matched _ _ _ _ _ G Hl Hr Hm1) as (es1 & W1 & Hh1 & Hr1 & Hl1).
  assert (good R Done W1) as G1 by by eapply run_good.
  destruct (IH _ _ G1 Hl1 Hes Hm) as (es2 & W2 & Hh2 & Hr2 & Hl2). exists (es1 ++ es2), W2.
  destruct (run_app es1 es2 W W1 W2) as [? ?]; done.
Qed.

(** *** Progress *)

Lemma like_pool D W a : like D W -> is_Some (procs D !! a) -> is_Some (pool W !! a).
Proof.
  intros (_ & _ & Q & S) [[p|p] Ha]; [by rewrite (s_run _ _ _ _ _ _ S a p Ha)|].
  destruct (s_blocked _ _ _ _ _ _ S a p Ha) as [[l Hl]|[c Hl]].
  - destruct (s_queue _ _ _ _ _ _ S l a Hl) as (p' & _ & k & q & Hq & _). by rewrite Hq.
  - destruct (s_sleep _ _ _ _ _ _ S c a Hl) as (k & q & _ & Hq & _). by rewrite Hq.
Qed.

(** Who can run in the contract is not blocked. *)
Lemma can_run_running D W b : good R Done W -> like D W -> can_run b W = true -> exists p, procs D !! b = Some (Running p).
Proof.
  intros G (_ & _ & Q & S) Hc. unfold can_run in Hc. destruct (pool W !! b) as [q|] eqn:Hp; [|done].
  destruct (procs D !! b) as [[p|p]|] eqn:Hb; [by exists p | | by rewrite (s_gone _ _ _ _ _ _ S b Hb) in Hp].
  destruct (go_threads _ _ _ G b q Hp) as (H & [_ Hh] & Hw). apply WP_step in Hw.
  assert (forall l, b ∈ Q l -> valid l -> l ∉ H -> is_free b l W = false) as Hf.
  { intros l Hl Hv Hn. destruct (s_lock _ _ _ _ _ _ S l Hv) as (ml & _ & Hx). destruct Hx as [_ Hx]; [done|]. unfold is_free.
    rewrite !bool_decide_false; [done | by rewrite Hh |]. intros Hnone. rewrite Hx in Hl by done. by apply elem_of_nil in Hl. }
  destruct (s_blocked _ _ _ _ _ _ S b p Hb) as [[l Hl]|[c Hl]].
  - destruct (s_queue _ _ _ _ _ _ S l b Hl) as (p' & _ & k & q' & Hq & _ & Ho). rewrite Hp in Hq. injection Hq as <-.
    destruct Ho as [Ho|(c & Ho & _)]; rewrite Ho in Hc, Hw; cbn in Hc, Hw.
    + destruct Hw as (Hq & Hn & _). rewrite Hf in Hc by eauto. done.
    + destruct Hw as (Hn & Hq & _). rewrite (Hf l), andb_false_r in Hc by eauto. done.
  - destruct (s_sleep _ _ _ _ _ _ S c b Hl) as (k & q' & _ & Hq & Ho). rewrite Hp in Hq. injection Hq as <-.
    rewrite Ho in Hc. cbn in Hc. unfold asleep in Hc. by rewrite bool_decide_true in Hc.
Qed.

Lemma in_use_running D W l : good R Done W -> like D W -> in_use W l -> exists b p, procs D !! b = Some (Running p).
Proof.
  intros G Hl. induction 1 as [l b Ho Hc|l b l' Ho Hw Hu IH]; [|done].
  destruct (can_run_running D W b G Hl Hc) as [p Hp]. by exists b, p.
Qed.

(** The server's view of a lock that is taken. *)
Lemma taken_owner D W l ml : like D W -> valid l -> Monitor.at_ (Monitor.mlocks (abs (tables D))) (ix l) = Some ml ->
  Monitor.holder ml <> None -> exists b, owner W !! l = Some b.
Proof.
  intros (_ & _ & Q & S) Hv Ha Hh. destruct (s_lock _ _ _ _ _ _ S l Hv) as (ml' & Ha' & Hx). rewrite Ha in Ha'. injection Ha' as <-.
  destruct Hx as [-> _]; [done|]. cbn in Hh. destruct (owner W !! l) as [b|]; [by exists b | done].
Qed.

(** The processes at their start, with servers on which all locks are free. *)
Lemma like_start D W : pristine (tables D) -> vars D = shared W -> procs D = Running <$> pool W -> owner W = ∅ -> conds W = ∅ ->
  (forall l, valid l -> Monitor.at_ (Monitor.mlocks (abs (tables D))) (ix l) = Some (Monitor.mkMLock None [])) ->
  (forall c, valid_cond c -> Monitor.at_ (Monitor.mconds (abs (tables D))) (cx c) = Some (Monitor.mkMCond None [])) -> like D W.
Proof.
  intros Hp Hv Hm Ho Hc Hlocks Hconds. split; [done|]. split; [done|]. exists (fun _ => []).
  assert (forall c, cond_of c W = mkCondVar [] None) as Hcond by (intros c; unfold cond_of; by rewrite Hc, lookup_empty). split.
  - intros a p. rewrite Hm, lookup_fmap, fmap_Some. intros (q & Hq & [= ->]). done.
  - intros a. by rewrite Hm, lookup_fmap, fmap_None.
  - intros a p. rewrite Hm, lookup_fmap, fmap_Some. by intros (q & _ & ?).
  - intros l a ?%elem_of_nil. done.
  - intros c a. rewrite Hcond. by intros ?%elem_of_nil.
  - intros l. constructor.
  - intros c. rewrite Hcond. constructor.
  - intros l Hl. eexists. split; [by apply Hlocks|]. intros _. by rewrite Ho, lookup_empty.
  - intros c Hcv. eexists. split; [by apply Hconds|]. intros _. unfold cond_fits. rewrite Hcond. split; [done|]. split; [done|]. split; [by left | done].
Qed.
End System.
Arguments mkSystem {St L V A _ _} _ _ _.
