(* ===== verification/ServerOffice.v ===== *)
(** * The passport office on the server

    The processes of RemoteOffice.v, their system calls of Rpc.v, and the server of
    Server.v together (Distributed.v): Setup gives every process the same objects,
    and the office makes progress. *)

From S2P Require Import Prelude NachosList Server Rpc ThreadProg Distributed RemoteOffice RemoteFacts.

(** ** Setup *)

(** The system call for an object, from a mailbox, with a fresh buffer. *)
Definition setup_call (mailBox : Z) (g : list Z) (o : object) : C Rpc :=
  let buf s length := take (Z.to_nat length) (chars s ++ [0]) in
  match o with
  | ALock l => let '(s, length, id) := lock_name l in CreateLock_Syscall 0 1 mailBox g (buf s length) length id
  | ACond c => let '(s, length, id) := cv_name c in CreateCondition_Syscall 0 1 mailBox g (buf s length) length id
  | AVar v => let '(s, length, id) := mv_name v in CreateMV_Syscall 0 1 mailBox g (buf s length) length (mv_size v) id
  end.

(** The numbers of the objects: how many of the kind come before it. *)
Definition kind_offset (k : kind) : Z := match k with App => 0 | Pic => 3 | Pass => 6 | Cash => 9 end.

Definition lock_number (l : lock) : Z :=
  match l with
  | indexLock (Visitor Customer) => 0 | indexLock (Visitor Senator) => 1
  | indexLock (Clerk App) => 2 | indexLock (Clerk Pic) => 3 | indexLock (Clerk Pass) => 4 | indexLock (Clerk Cash) => 5
  | lineLock => 6 | moneyLock => 7 | senatorLock => 8 | outsideLock => 9 | outputLock => 10
  | clerkLock k i => 11 + kind_offset k + i
  end.

Definition cv_number (c : cv) : Z :=
  match c with
  | senatorCV => 0 | customerCV => 1
  | lineCV k i => 2 + 4 * (kind_offset k + i) | bribeLineCV k i => 3 + 4 * (kind_offset k + i)
  | senatorLineCV k i => 4 + 4 * (kind_offset k + i) | clerkCV k i => 5 + 4 * (kind_offset k + i)
  end.

Definition position_of {X} `{EqDecision X} (x : X) (l : list X) : Z := Z.of_nat (from_option fst O (list_find (fun y => y = x) l)).

Definition number (o : object) : Z :=
  match o with ALock l => lock_number l | ACond c => cv_number c | AVar v => position_of v all_variables end.

(** *** Requests by name *)

(** A request of Setup, and what the server makes of it. *)
Definition creates (request : list Z) : Prop := aref request 0 = Ret 0 \/ aref request 0 = Ret 4 \/ aref request 0 = Ret 9.

Record ext (s s' : State) : Prop := {
  ext_locks : locks s `prefix_of` locks s';
  ext_cvs : cvs s `prefix_of` cvs s';
  ext_mvs : mvs s `prefix_of` mvs s'
}.

#[export] Instance ext_preorder : PreOrder ext.
Proof.
  split; [by intros s; split|]. intros s1 s2 s3 [? ? ?] [? ? ?]. by split; etrans.
Qed.

Lemma getLock_prefix name t t' i : getLockFromTable_loop name t = Ret i -> i <> -1 -> getLockFromTable_loop name (t ++ t') = Ret i.
Proof. induction t as [|[l|] t IH]; cbn; [by intros [= <-] | | done]. destruct (strcmp_eq _ _); [done | exact IH]. Qed.

Lemma find_cv_prefix name t t' i j : find_cv name t i = Ret (Some j) -> find_cv name (t ++ t') i = Ret (Some j).
Proof. revert i. induction t as [|[l|] t IH]; intros i; cbn; [done | | done]. destruct (strcmp_eq _ _); [done | apply IH]. Qed.

Lemma find_mv_prefix name t t' i j : find_mv name t i = Ret (Some j) -> find_mv name (t ++ t') i = Ret (Some j).
Proof. revert i. induction t as [|[l|] t IH]; intros i; cbn; [done | | done]. destruct (strcmp_eq _ _); [done | apply IH]. Qed.

Lemma snoc_not_same {X} (l : list X) x : l <> l ++ [x].
Proof. intros H%(f_equal length). rewrite length_app in H. cbn in H. lia. Qed.

(** The first computation, in a hypothesis and in the goal. *)
Ltac both H := let x := fresh "x" in let E := fresh "E" in apply bind_Ret in H as (x & E & H); rewrite ?E; cbn [bind] in *.

Lemma found_lock from box request s s' out : handle_CreateLock lone from box request s = Ret (s, out) -> ext s s' ->
  handle_CreateLock lone from box request s' = Ret (s', out).
Proof.
  intros Hh [[tl El] _ _]. unfold handle_CreateLock, getLockFromTable in *. do 3 both Hh. destruct (x1 =? -1) eqn:E2; cbn [negb] in *.
  - injection Hh as Hs _. by apply (f_equal locks), eq_sym, snoc_not_same in Hs.
  - apply Z.eqb_neq in E2 as Hne. rewrite El, (getLock_prefix _ _ _ x1) by done. cbn [bind]. rewrite E2. cbn. by injection Hh as <-.
Qed.

Lemma found_cv from box request s s' out : handle_CreateCV lone from box request s = Ret (s, out) -> ext s s' ->
  handle_CreateCV lone from box request s' = Ret (s', out).
Proof.
  intros Hh [_ [tc Ec] _]. unfold handle_CreateCV, CreateCV in *. do 2 both Hh. apply bind_Ret in Hh as ([i s1] & Hf & [= -> <-]).
  apply bind_Ret in Hf as ([j|] & Hf & Hr).
  - rewrite Ec, (find_cv_prefix _ _ _ _ j) by done. by injection Hr as ->.
  - injection Hr as _ Hs. by apply (f_equal cvs), eq_sym, snoc_not_same in Hs.
Qed.

Lemma found_mv from box request s s' out : handle_CreateMV lone from box request s = Ret (s, out) -> ext s s' ->
  handle_CreateMV lone from box request s' = Ret (s', out).
Proof.
  intros Hh [_ _ [tm Em]]. unfold handle_CreateMV, Server.CreateMV in *. do 3 both Hh. apply bind_Ret in Hh as ([i s1] & Hf & [= -> <-]).
  apply bind_Ret in Hf as ([j|] & Hf & Hr).
  - rewrite Em, (find_mv_prefix _ _ _ _ j) by done. by injection Hr as ->.
  - apply bind_Ret in Hr as (v & _ & [= _ Hs]). by apply (f_equal mvs), eq_sym, snoc_not_same in Hs.
Qed.

(** What exists already is found again in any larger tables. *)
Lemma found_again stale from box request s s' out : creates request ->
  handle lone stale from box request s = Ret (s, out) -> ext s s' -> handle lone stale from box request s' = Ret (s', out).
Proof.
  intros Hc. unfold handle. destruct Hc as [->|[->| ->]]; cbn [bind]; [apply found_lock | apply found_cv | apply found_mv].
Qed.

(** The client only matters for the address of the reply. *)
Definition to_client (c : Z * Z) (m : Message) : Message := mkMessage c.1 c.2 (payload m).

Lemma any_client stale c request s s' out : creates request -> handle lone [] 0 0 request s = Ret (s', out) ->
  handle lone stale c.1 c.2 request s = Ret (s', to_client c <$> out).
Proof.
  intros Hc. unfold handle. destruct Hc as [->|[->| ->]]; cbn [bind]; intros Hh.
  - unfold handle_CreateLock in *. do 3 both Hh. destruct (negb _); [by injection Hh as <- <-|]. by injection Hh as <- <-.
  - unfold handle_CreateCV in *. do 2 both Hh. apply bind_Ret in Hh as ([i s1] & -> & [= <- <-]). done.
  - unfold handle_CreateMV in *. do 3 both Hh. apply bind_Ret in Hh as ([i s1] & -> & [= <- <-]). done.
Qed.

(** *** All of Setup *)

Definition request_of (o : object) : list Z := buffer (match setup_call 0 junk o with Ret r => message r | _ => [] end).

(** The tables after each of the objects. *)
Fixpoint tables_from (s : State) (os : list object) : list State :=
  match os with
  | [] => [s]
  | o :: os => s :: match handle lone [] 0 0 (request_of o) s with Ret (s, _) => tables_from s os | _ => [] end
  end.

Definition history : list State := tables_from new_State Setup_objects.

#[export] Instance ReplyMsg_eq_dec : EqDecision ReplyMsg.
Proof. solve_decision. Defined.
#[export] Instance ServerLock_eq_dec : EqDecision ServerLock.
Proof. solve_decision. Defined.
#[export] Instance ServerCV_eq_dec : EqDecision ServerCV.
Proof. solve_decision. Defined.
#[export] Instance ServerMV_eq_dec : EqDecision ServerMV.
Proof. solve_decision. Defined.
#[export] Instance PendingRequest_eq_dec : EqDecision PendingRequest.
Proof. solve_decision. Defined.
#[export] Instance State_eq_dec : EqDecision State.
Proof. solve_decision. Defined.
#[export] Instance Message_eq_dec : EqDecision Message.
Proof. solve_decision. Defined.

Definition answers (o : object) (s s' : State) : bool :=
  match handle lone [] 0 0 (request_of o) s with Ret (t, out) => bool_decide (t = s') && bool_decide (out = [mkMessage 0 0 [number o]]) | _ => false end.

Definition creates_b (request : list Z) : bool := match aref request 0 with Ret op => (op =? 0) || (op =? 4) || (op =? 9) | _ => false end.
Definition ext_b (s s' : State) : bool :=
  bool_decide (locks s `prefix_of` locks s') && bool_decide (cvs s `prefix_of` cvs s') && bool_decide (mvs s `prefix_of` mvs s').

(** Each object is made with its number, then found, and the tables only grow. *)
Fixpoint history_ok (os : list object) (ss : list State) : bool :=
  match os, ss with
  | o :: os, s :: ((s' :: _) as ss) =>
      answers o s s' && answers o s' s' && creates_b (request_of o) && ext_b s s' && history_ok os ss
  | [], [_] => true
  | _, _ => false
  end.

Lemma history_is_ok : history_ok Setup_objects history = true.
Proof. by vm_compute. Qed.

Lemma creates_spec request : creates_b request = true -> creates request.
Proof. unfold creates_b, creates. destruct (aref request 0); try done. rewrite !orb_true_iff, !Z.eqb_eq. intros [[->| ->]| ->]; auto. Qed.

Lemma ext_spec s s' : ext_b s s' = true -> ext s s'.
Proof. unfold ext_b. rewrite !andb_true_iff, !bool_decide_eq_true. by intros [[? ?] ?]. Qed.

Lemma answers_spec o s s' : answers o s s' = true -> handle lone [] 0 0 (request_of o) s = Ret (s', [mkMessage 0 0 [number o]]).
Proof.
  unfold answers. destruct (handle _ _ _ _ _ _) as [[t out]| |]; try done. rewrite andb_true_iff, !bool_decide_eq_true. by intros [-> ->].
Qed.

Lemma history_at os ss j o : history_ok os ss = true -> os !! j = Some o -> exists s s', ss !! j = Some s /\ ss !! S j = Some s' /\
  answers o s s' = true /\ answers o s' s' = true /\ creates (request_of o) /\ ext s s'.
Proof.
  revert ss j. induction os as [|o' os IH]; intros ss j Hh Ho; [done|]. destruct ss as [|s [|s' ss]]; try done.
  cbn [history_ok] in Hh. apply andb_true_iff in Hh as [Hh Hr]. destruct j as [|j].
  - injection Ho as ->. exists s, s'. rewrite !andb_true_iff in Hh. destruct Hh as [[[? ?] ?%creates_spec] ?%ext_spec]. done.
  - by apply (IH (s' :: ss) j).
Qed.

Lemma history_grows os ss i j s s' : history_ok os ss = true -> (i <= j)%nat -> ss !! i = Some s -> ss !! j = Some s' -> ext s s'.
Proof.
  revert ss i j s. induction os as [|o os IH]; intros ss i j s Hh Hij Hi Hj.
  - destruct ss as [|s0 [|]]; try done. destruct i; [|done]. destruct j; [|done]. by simplify_eq.
  - destruct ss as [|s0 [|s1 ss]]; try done. cbn [history_ok] in Hh. apply andb_true_iff in Hh as [Hh Hr].
    apply andb_true_iff in Hh as [_ He%ext_spec]. destruct i as [|i], j as [|j]; try lia.
    + by simplify_eq.
    + injection Hi as ->. etrans; [exact He|]. apply (IH (s1 :: ss) 0%nat j); [done | lia | done | done].
    + apply (IH (s1 :: ss) i j); [done | lia | done | done].
Qed.

(** The message of a process for an object. *)
Definition setup_message (r : (Z * Z) * object) : Z * Z * list Z :=
  match setup_call r.1.2 junk r.2 with Ret q => (r.1.1, reply_box q, message q) | _ => (r.1, []) end.

Lemma setup_message_spec c o : o ∈ Setup_objects -> exists data, setup_message (c, o) = (c, data) /\ buffer data = request_of o.
Proof.
  assert ((fun o => setup_message (c, o)) <$> Setup_objects = (fun o => (c, match setup_call 0 junk o with Ret r => message r | _ => [] end)) <$> Setup_objects) as Hm.
  { destruct c as [m b]. by vm_compute. }
  intros (j & Hj)%list_elem_of_lookup. apply (f_equal (fun l => l !! j)) in Hm. rewrite !list_lookup_fmap, Hj in Hm. injection Hm as Hm.
  eexists. split; [exact Hm | done].
Qed.

(** What a process has asked for. *)
Definition calls_of (c : Z * Z) (rs : list ((Z * Z) * object)) : list object := (filter (fun r => r.1 = c) rs).*2.

Lemma calls_of_snoc c rs c' o : calls_of c (rs ++ [(c', o)]) = calls_of c rs ++ (if decide (c' = c) then [o] else []).
Proof. unfold calls_of. rewrite filter_app, fmap_app. f_equal. rewrite filter_cons. cbn. by destruct (decide (c' = c)). Qed.

Lemma prefix_next (os : list object) l o : l ++ [o] `prefix_of` os -> os !! length l = Some o.
Proof. intros [k ->]. rewrite <- app_assoc. by rewrite lookup_app_r, Nat.sub_diag by lia. Qed.

Lemma Server_app stale xs ys s : Server lone stale (xs ++ ys) s =
  let! (s, out) := Server lone stale xs s in let! (s, outs) := Server lone stale ys s in Ret (s, out ++ outs).
Proof.
  revert s. induction xs as [|[[from box] data] xs IH]; intros s; cbn [Server app bind].
  - destruct (Server lone stale ys s) as [[]| |]; done.
  - destruct (handle _ _ _ _ _ _) as [[s1 out]| |]; cbn [bind]; [|done..]. rewrite IH.
    destruct (Server lone stale xs s1) as [[s2 out2]| |]; cbn [bind]; [|done..].
    destruct (Server lone stale ys s2) as [[s3 out3]| |]; cbn [bind]; [|done..]. by rewrite <- app_assoc.
Qed.

Definition answer_to (r : (Z * Z) * object) : Message := mkMessage r.1.1 r.1.2 [number r.2].

(** C30: Setup gives every process the same objects. Whatever processes run Setup on
    an empty server, and in whatever order their requests come in, each is answered
    with the number of the object, the same for every process: it is made by the
    first that asks, and found by its name afterwards (no two objects have the same
    name for the server). The tables are at every time those that one process alone
    would have made so far. *)
Theorem Setup_agrees stale rs : (forall c, calls_of c rs `prefix_of` Setup_objects) -> exists s n,
  Server lone stale (setup_message <$> rs) new_State = Ret (s, answer_to <$> rs) /\
  history !! n = Some s /\ forall c, (length (calls_of c rs) <= n)%nat.
Proof.
  induction rs as [|[c o] rs IH] using rev_ind; intros Hp; [by exists new_State, 0%nat|].
  destruct IH as (s & n & Hs & Hn & Hc).
  { intros c'. etrans; [|apply (Hp c')]. rewrite calls_of_snoc. by apply prefix_app_r. }
  pose proof (Hp c) as Ho. rewrite calls_of_snoc, decide_True in Ho by done. apply prefix_next in Ho. specialize (Hc c) as Hj.
  set (j := length (calls_of c rs)) in *. pose proof history_is_ok as Hok.
  destruct (history_at _ _ j o Hok Ho) as (s0 & s1 & H0 & H1 & Hmake%answers_spec & Hfind%answers_spec & Hcr & He).
  destruct (setup_message_spec c o) as (data & Hm & Hd); [by eapply list_elem_of_lookup_2|].
  assert (exists s' n', handle lone stale c.1 c.2 (request_of o) s = Ret (s', [answer_to (c, o)]) /\ history !! n' = Some s' /\ (n <= n')%nat /\ (j < n')%nat)
    as (s' & n' & Hh & Hn' & Hle & Hlt).
  { destruct (decide (j = n)) as [E|Hne].
    - rewrite E in *. rewrite Hn in H0. injection H0 as <-. exists s1, (S n). split; [by apply (any_client stale c) in Hmake | auto].
    - exists s, n. split; [|split; [done | lia]]. apply (found_again stale _ _ _ s1 s); [done | by apply (any_client stale c) in Hfind |].
      apply (history_grows _ _ (S j) n s1 s Hok); [lia | done | done]. }
  exists s', n'. rewrite !fmap_app, Server_app, Hs. cbn [bind fmap list_fmap]. rewrite Hm. destruct c as [from box]. cbn [Server bind].
  cbn [fst snd] in Hh. rewrite Hd, Hh. cbn [bind app]. split; [done|]. split; [done|]. intros c'. rewrite calls_of_snoc, length_app. specialize (Hc c').
  destruct (decide ((from, box) = c')) as [<-|]; cbn; [|lia]. fold j. lia.
Qed.

(** ** Monitor variables

    In Distributed.v a call on a monitor variable acts on a store that all processes
    share. On the server it is one message, handled from its arrival to its reply
    without another in between: what the store gives is what the server answers. *)

Section Variables.
Variables (rand mailBox : Z) (g : list Z) (vx : mvar -> Z).
Hypothesis Hg : length g = 40%nat.

(** The store is on the server, the variable [v] at the position [vx v]. *)
Record on_server (vars : Variables) (s : State) : Prop := {
  os_ok : ok_mvs s;
  os_inj : forall v v', is_Some (vars v) -> is_Some (vars v') -> vx v = vx v' -> v = v';
  os_at : forall v vs, vars v = Some vs -> is_i8 (vx v) /\
    forall p, mv_value s (vx v) p = if 0 <=? p then vs !! Z.to_nat p else None
}.

Lemma GetMV_message index pos : exists r, GetMV_Syscall rand 1 mailBox g index pos = Ret r /\ message r = [11; i8 index; i8 pos].
Proof using Hg.
  unfold GetMV_Syscall. destruct (aset_push g Hg g [] 0 11 Hg eq_refl) as (r0 & -> & L0 & T0); [lia|]. cbn [bind].
  destruct (aset_push g Hg r0 _ 1 (i8 index) L0 T0) as (r1 & -> & L1 & T1); [lia|]. cbn [bind].
  destruct (aset_push g Hg r1 _ 2 (i8 pos) L1 T1) as (r2 & -> & L2 & T2); [lia|]. cbn [bind]. eexists. split; [done | exact T2].
Qed.

Lemma SetMV_message index pos x : exists r, SetMV_Syscall rand 1 mailBox g index pos x = Ret r /\ message r = [10; i8 index; i8 pos; i8 x].
Proof using Hg.
  unfold SetMV_Syscall. destruct (aset_push g Hg g [] 0 10 Hg eq_refl) as (r0 & -> & L0 & T0); [lia|]. cbn [bind].
  destruct (aset_push g Hg r0 _ 1 (i8 index) L0 T0) as (r1 & -> & L1 & T1); [lia|]. cbn [bind].
  destruct (aset_push g Hg r1 _ 2 (i8 pos) L1 T1) as (r2 & -> & L2 & T2); [lia|]. cbn [bind].
  destruct (aset_push g Hg r2 _ 3 (i8 x) L2 T2) as (r3 & -> & L3 & T3); [lia|]. cbn [bind]. eexists. split; [done | exact T3].
Qed.

(** GetMV: the server answers with what the store holds, and keeps it. *)
Lemma get_on_server stale from box vars s v pos : on_server vars s -> is_Some (vars v) -> exists r,
  GetMV_Syscall rand 1 mailBox g (vx v) pos = Ret r /\
  handle lone stale from box (buffer (message r)) s = Ret (s, [mkMessage from box [i8 (RemoteOffice.GetMV v pos vars)]]).
Proof using Hg.
  intros O [vs Hv]. destruct (GetMV_message (vx v) pos) as (r & Hr & Hm). exists r. split; [done|]. rewrite Hm.
  destruct (os_at _ _ O v vs Hv) as (Hb & Hval). rewrite (i8_small (vx v)) by done. unfold handle.
  change (aref (buffer [11; vx v; i8 pos]) 0) with (Ret 11). cbn [bind]. unfold handle_GetMV.
  change (aref (buffer [11; vx v; i8 pos]) 1) with (Ret (vx v)). change (aref (buffer [11; vx v; i8 pos]) 2) with (Ret (i8 pos)). cbn [bind].
  rewrite (GetMV_spec s) by apply O. cbn [bind]. unfold RemoteOffice.GetMV. rewrite Hv, Hval.
  cbv zeta. by destruct (0 <=? i8 pos).
Qed.

(** SetMV: the server holds the new store, and acknowledges. *)
Lemma set_on_server stale from box vars s v pos x : on_server vars s -> is_Some (vars v) -> exists r s',
  SetMV_Syscall rand 1 mailBox g (vx v) pos x = Ret r /\
  handle lone stale from box (buffer (message r)) s = Ret (s', [mkMessage from box [127]]) /\
  on_server (RemoteOffice.SetMV v pos x vars) s' /\ locks s' = locks s /\ cvs s' = cvs s.
Proof using Hg.
  intros O [vs Hv]. destruct (SetMV_message (vx v) pos x) as (r & Hr & Hm). exists r. rewrite Hm.
  destruct (os_at _ _ O v vs Hv) as (Hb & Hval). rewrite (i8_small (vx v)) by done. unfold handle. set (b := buffer _).
  change (aref b 0) with (Ret 10). cbn [bind]. unfold handle_SetMV.
  change (aref b 1) with (Ret (vx v)). change (aref b 2) with (Ret (i8 pos)). change (aref b 3) with (Ret (i8 x)). cbn [bind].
  destruct (SetMV_spec s (vx v) (i8 pos) (i8 x) (os_ok _ _ O)) as (s' & -> & Hok & Hl & Hc & Hnew). cbn [bind].
  exists s'. split; [done|]. split; [done|]. split; [|done]. assert (forall v', is_Some (RemoteOffice.SetMV v pos x vars v') -> is_Some (vars v')) as Hsome.
  { intros v'. unfold RemoteOffice.SetMV. destruct (decide (v' = v)) as [->|]; [by rewrite Hv | done]. }
  split; [done | intros v1 v2 ?%Hsome ?%Hsome; by apply (os_inj _ _ O)|]. intros v' vs' Hv'.
  unfold RemoteOffice.SetMV in Hv'. destruct (decide (v' = v)) as [->|Hne].
  - rewrite Hv in Hv'. injection Hv' as <-. split; [done|]. intros p. rewrite Hnew, !Hval.
    destruct (Z.leb_spec 0 (i8 pos)), (Z.leb_spec 0 p); try (rewrite decide_False; [done | intros (_ & -> & [? ?]); (lia || done)]).
    destruct (decide (p = i8 pos)) as [->|Hp]; [|rewrite decide_False, list_lookup_insert_ne by (naive_solver lia); done].
    destruct (vs !! Z.to_nat (i8 pos)) as [y|] eqn:Hy.
    + rewrite decide_True by (by repeat split; eexists). by rewrite list_lookup_insert_eq by (by eapply lookup_lt_Some).
    + rewrite decide_False by (by intros (_ & _ & [? ?])). symmetry. apply lookup_ge_None. rewrite length_insert. by apply lookup_ge_None.
  - destruct (os_at _ _ O v' vs' Hv') as (Hb' & Hval'). split; [done|]. intros p. rewrite Hnew, decide_False; [done|].
    intros (E & _). by destruct Hne; apply (os_inj _ _ O).
Qed.
End Variables.

(** ** The office *)

(** The server when Setup is done. *)
Definition office_tables : State := default new_State (history !! length Setup_objects).

(** The processes [people] at their start. *)
Definition opened (people : list actor) : System (St:=Variables) (L:=lock) (V:=cv) (A:=actor) :=
  mkSystem office_tables (fun _ => None) (Running <$> pool (start people)).

Lemma three_clerks k : numClerks k = 3.
Proof. by destruct k. Qed.

Lemma lock_number_inj l l' : valid l -> valid l' -> lock_number l = lock_number l' -> l = l'.
Proof.
  destruct l as [[[]|[]]| | | | | |[] i], l' as [[[]|[]]| | | | | |[] i']; cbn -[numClerks]; rewrite ?three_clerks; intros ? ? ?;
    first [done | lia | f_equal; lia].
Qed.

Lemma cv_number_inj c c' : valid_cond c -> valid_cond c' -> cv_number c = cv_number c' -> c = c'.
Proof.
  destruct c as [| |[] i|[] i|[] i|[] i], c' as [| |[] i'|[] i'|[] i'|[] i']; cbn -[numClerks]; rewrite ?three_clerks; intros ? ? ?;
    first [done | lia | f_equal; lia].
Qed.

Lemma lock_number_byte l : valid l -> is_i8 (lock_number l).
Proof. unfold is_i8. destruct l as [[[]|[]]| | | | | |[] i]; cbn -[numClerks]; rewrite ?three_clerks; lia. Qed.

Lemma cv_number_byte c : valid_cond c -> is_i8 (cv_number c).
Proof. unfold is_i8. destruct c as [| |[] i|[] i|[] i|[] i]; cbn -[numClerks]; rewrite ?three_clerks; lia. Qed.

(** Nobody has a lock, nobody waits. *)
Definition fresh_lock (e : option ServerLock) : bool :=
  match e with Some l => bool_decide (l = new_ServerLock (Server.lock_name l) (lock_id l)) | None => false end.
Definition fresh_cv (e : option ServerCV) : bool :=
  match e with Some c => bool_decide (c = new_ServerCV (Server.cv_name c) (cv_id c)) | None => false end.

Definition fresh_tables (s : State) : Prop := forallb fresh_lock (locks s) = true /\ forallb fresh_cv (cvs s) = true.

Lemma fresh_pristine s : fresh_tables s -> pristine s.
Proof.
  intros [Hl Hc]. rewrite forallb_forall in Hl, Hc. split; apply Forall_forall.
  - intros [l|] Hin%list_elem_of_In%Hl; [|done]. apply bool_decide_eq_true in Hin as ->. eexists. split; [done|]. split; [|done].
    split; cbn; [done | constructor | done | done | lia].
  - intros [v|] Hin%list_elem_of_In%Hc; [|done]. apply bool_decide_eq_true in Hin as ->. eexists. split; [done|]. split; [|done].
    split; cbn; [done | constructor].
Qed.

Lemma fresh_entry {X} (f : X -> bool) (t : list X) i : forallb f t = true -> 0 <= i < Z.of_nat (length t) ->
  exists e, t !! Z.to_nat i = Some e /\ f e = true.
Proof.
  intros Hf Hi. destruct (lookup_lt_is_Some_2 t (Z.to_nat i)) as [e He]; [lia|]. exists e. split; [done|].
  rewrite forallb_forall in Hf. by apply Hf, list_elem_of_In, (list_elem_of_lookup_2 _ (Z.to_nat i)).
Qed.

Lemma fresh_lock_at s i : fresh_tables s -> 0 <= i < Z.of_nat (length (locks s)) ->
  Monitor.at_ (Monitor.mlocks (abs s)) i = Some (Monitor.mkMLock None []).
Proof.
  intros [Hl _] Hi. destruct (fresh_entry _ _ i Hl Hi) as ([l|] & He & Hf); [|done]. apply Monitor.at_Some. split; [lia|].
  cbn. rewrite list_lookup_fmap, He. by apply bool_decide_eq_true in Hf as ->.
Qed.

Lemma fresh_cv_at s i : fresh_tables s -> 0 <= i < Z.of_nat (length (cvs s)) ->
  Monitor.at_ (Monitor.mconds (abs s)) i = Some (Monitor.mkMCond None []).
Proof.
  intros [_ Hc] Hi. destruct (fresh_entry _ _ i Hc Hi) as ([v|] & He & Hf); [|done]. apply Monitor.at_Some. split; [lia|].
  cbn. rewrite list_lookup_fmap, He. by apply bool_decide_eq_true in Hf as ->.
Qed.

Lemma office_fresh : fresh_tables office_tables.
Proof. split; by vm_compute. Qed.

Lemma office_lock_count : Z.of_nat (length (locks office_tables)) = 23.
Proof. by vm_compute. Qed.

Lemma office_cond_count : Z.of_nat (length (cvs office_tables)) = 50.
Proof. by vm_compute. Qed.

Section Machines.
(** The machine and the mailbox of each process; rand(), and what new buffers hold. *)
Variables (cl : actor -> Z * Z) (rand : Z) (stale g : list Z).
Hypothesis cl_inj : forall a b, cl a = cl b -> a = b.
Hypothesis machine : forall a, 0 <= (cl a).1.
Hypothesis fresh : length g = 40%nat.

Notation like := (like lock_number cv_number cl office_rules valid valid_cond).
Notation moves := (moves lock_number cv_number cl rand stale g).

Lemma opened_like people : like (opened people) (start people).
Proof.
  apply like_start; [apply (fresh_pristine office_tables), office_fresh | done | done | done | done | |].
  - intros l Hl. apply (fresh_lock_at office_tables); [apply office_fresh|]. rewrite office_lock_count. destruct l as [[[]|[]]| | | | | |[] i]; cbn -[numClerks] in *; rewrite ?three_clerks in *; lia.
  - intros c Hc. apply (fresh_cv_at office_tables); [apply office_fresh|]. rewrite office_cond_count. destruct c as [| |[] i|[] i|[] i|[] i]; cbn -[numClerks] in *; rewrite ?three_clerks in *; lia.
Qed.

(** An execution of the processes and the server is one of the contract. *)
Lemma office_matched people es D : Forall (fun e => 0 <= e.2) es -> moves es (opened people) = Ret D ->
  exists es' W, happens program es' (start people) = true /\ run program es' (start people) = Ret W /\ like D W.
Proof.
  intros He Hm. eapply (moves_matched lock_number cv_number cl rand stale g office_rules office_done program program_keeps valid valid_cond);
    [.. | apply opening_good | apply opened_like | exact He | exact Hm].
  - by intros a H l [? _].
  - intros O s l a Hi. apply Hi.
  - apply lock_of_valid.
  - apply lock_number_inj.
  - apply cv_number_inj.
  - done.
  - apply lock_number_byte.
  - apply cv_number_byte.
  - done.
  - done.
Qed.
End Machines.

(** C9: The office on the server is an office. Whatever processes run the programs,
    each on its machine and with its mailbox, and however their steps interleave: the
    system calls they make and what the server of nettest.cc makes of the messages
    add up to an execution of the programs in which locks exclude each other, a
    waiting process gives its lock up and gets it back, Signal wakes one process and
    Broadcast all. (It ends in a state in which every process that is not blocked is
    at the same place of its program, the variables have the same values, each lock
    has the machine of its owner as its holder, and the queues of the server hold the
    blocked processes, each once.) *)
Theorem office_on_server cl rand stale g people es D :
  (forall a b, cl a = cl b -> a = b) -> (forall a, 0 <= (cl a).1) -> length g = 40%nat -> Forall (fun e => 0 <= e.2) es ->
  moves lock_number cv_number cl rand stale g es (opened people) = Ret D ->
  exists es' W, happens program es' (start people) = true /\ run program es' (start people) = Ret W /\
    like lock_number cv_number cl office_rules valid valid_cond D W.
Proof. intros Hinj Hm Hg. by apply office_matched. Qed.

(** C10: The office on the server makes progress: as long as the manager has not
    exited, and whenever the server has given out a lock other than senatorLock, some
    process is not blocked. (The office has an order in which it takes its locks, and
    nobody sleeps with an inner one.) *)
Theorem office_progress cl rand stale g people es D :
  (forall a b, cl a = cl b -> a = b) -> (forall a, 0 <= (cl a).1) -> length g = 40%nat -> Forall (fun e => 0 <= e.2) es ->
  moves lock_number cv_number cl rand stale g es (opened people) = Ret D ->
  is_Some (procs D !! TheManager) \/ (exists l ml, valid l /\ l <> senatorLock /\
    Monitor.at_ (Monitor.mlocks (abs (tables D))) (lock_number l) = Some ml /\ Monitor.holder ml <> None) ->
  exists a p, procs D !! a = Some (Running p).
Proof.
  intros Hinj Hmach Hg He Hm Hsome.
  destruct (office_matched cl rand stale g Hinj Hmach Hg people es D He Hm) as (es' & W & Hh & Hr & Hl).
  pose proof (states_good people es' W Hh Hr) as G. destruct (deadlock_free people es' W Hh Hr) as [Hlocks Hman].
  assert (forall l, in_use W l -> exists a p, procs D !! a = Some (Running p)) as Hu.
  { intros l Hin. eapply in_use_running; [| exact G | exact Hl | exact Hin]. by intros a H l' [? _]. }
  destruct Hsome as [Hp|(l & ml & Hv & Hne & Hat & Hheld)].
  - assert (is_Some (pool W !! TheManager)) as Hpool.
    { eapply like_pool; [exact Hl | exact Hp]. }
    destruct (Hman Hpool) as [Hc|(l & _ & Hin)]; [|by apply (Hu l)].
    exists TheManager. eapply can_run_running; [| exact G | exact Hl | exact Hc]. by intros a H l' [? _].
  - destruct (taken_owner _ _ _ _ _ _ D W l ml Hl Hv Hat Hheld) as [b Hb]. by eapply Hu, Hlocks.
Qed.

(** ** Executions *)

Module Demo.

Definition who_number (w : who) : Z :=
  match w with
  | Visitor Customer => 1 | Visitor Senator => 2
  | Clerk App => 3 | Clerk Pic => 4 | Clerk Pass => 5 | Clerk Cash => 6
  end.

(** A machine for each program. *)
Definition client (a : actor) : Z * Z := match a with TheManager => (0, 0) | Person w n => (who_number w, Z.of_nat n) end.

Lemma client_inj a b : client a = client b -> a = b.
Proof.
  destruct a as [|[[]|[]] n], b as [|[[]|[]] n']; cbn; intros E; try discriminate E; try done; injection E as E; apply Nat2Z.inj in E; by rewrite E.
Qed.

Lemma client_machine a : 0 <= (client a).1.
Proof. destruct a as [|[[]|[]] n]; done. Qed.

Definition people : list actor := [TheManager; Person (Visitor Customer) 0; Person (Visitor Customer) 1].

(** Two customers finish Setup, and ask for a number; the first gets the lock. *)
Definition rush : list (actor * Z) :=
  replicate 48 (Person (Visitor Customer) 0, 0) ++ replicate 48 (Person (Visitor Customer) 1, 0).

Definition run_processes (es : list (actor * Z)) : C (System (St:=Variables) (L:=lock) (V:=cv) (A:=actor)) :=
  moves lock_number cv_number client 0 [] junk es (opened people).

Definition after (es : list (actor * Z)) : System (St:=Variables) (L:=lock) (V:=cv) (A:=actor) :=
  match run_processes es with Ret D => D | _ => opened people end.

Definition is_blocked (a : actor) (D : System (St:=Variables) (L:=lock) (V:=cv) (A:=actor)) : bool :=
  match procs D !! a with Some (Blocked _) => true | _ => false end.

Lemma after_runs es : match run_processes es with Ret _ => true | _ => false end = true -> run_processes es = Ret (after es).
Proof. unfold after. by destruct (run_processes es). Defined.

Lemma no_random a n m b : Forall (fun e : actor * Z => 0 <= e.2) (replicate n (a, 0) ++ replicate m (b, 0)).
Proof. apply Forall_app. split; apply Forall_replicate; done. Qed.

Lemma office_progress_witness :
  is_blocked (Person (Visitor Customer) 1) (after rush) = true /\ exists a p, procs (after rush) !! a = Some (Running p).
Proof.
  split; [by vm_compute|].
  apply (office_progress client 0 [] junk people rush (after rush) client_inj client_machine eq_refl (no_random _ _ _ _)).
  - change (run_processes rush = Ret (after rush)). apply after_runs. by vm_compute.
  - left. apply (bool_decide_unpack _). by vm_compute.
Defined.

Lemma office_on_server_witness : is_blocked (Person (Visitor Customer) 1) (after rush) = true /\
  exists es' W, happens program es' (start people) = true /\ run program es' (start people) = Ret W /\
    like lock_number cv_number client office_rules valid valid_cond (after rush) W.
Proof.
  split; [by vm_compute|].
  apply (office_on_server client 0 [] junk people rush (after rush) client_inj client_machine eq_refl (no_random _ _ _ _)).
  change (run_processes rush = Ret (after rush)). apply after_runs. by vm_compute.
Defined.

(** Two processes, request by request in turn. *)
Lemma Setup_agrees_witness : exists s n,
  Server lone [] (setup_message <$> [((1, 0), ALock (indexLock (Visitor Customer))); ((2, 0), ALock (indexLock (Visitor Customer)));
    ((2, 0), AVar (indexOf (Visitor Customer)))]) new_State =
    Ret (s, [mkMessage 1 0 [0]; mkMessage 2 0 [0]; mkMessage 2 0 [0]]) /\ history !! n = Some s.
Proof.
  destruct (Setup_agrees [] [((1, 0), ALock (indexLock (Visitor Customer))); ((2, 0), ALock (indexLock (Visitor Customer)));
    ((2, 0), AVar (indexOf (Visitor Customer)))]) as (s & n & Hs & Hn & _).
  - intros c. unfold calls_of. rewrite !filter_cons, filter_nil. cbn [fst].
    repeat destruct (decide _); subst; try discriminate; eexists; reflexivity.
  - by exists s, n.
Defined.
End Demo.
